(* ===== verification/_CoqProject ===== *)
-Q . S2P
Prelude.v
Bitmap.v
BitmapOps.v
BitmapFind.v
Strings.v
StringsOps.v
StringsSpec.v
Spinlock.v
SpinlockSpec.v
SpinlockTable.v
Objects.v
Names.v
NamesPath.v
ObjectsInv.v
ObjectsSpec.v
NamesSpec.v
SymlinkSpec.v
ResolveSpec.v
HandleSpec.v
ObjectsExamples.v
Dispatcher.v
DispatcherSpec.v
DispatcherWaits.v
DispatcherMutex.v
DispatcherExamples.v
Timer.v
TimerSpec.v
Dpc.v
DpcSpec.v
Irp.v
IrpSpec.v
IrpRequests.v
IrpExamples.v
Device.v
DeviceSpec.v
Detours.v
DetoursInv.v
DetoursSpec.v
DetoursExamples.v
Bugcheck.v
BugcheckSpec.v
Memory.v
Registry.v
RegistryQuery.v
RegistryZw.v
RegistrySpec.v
RegistryRead.v
RegistryQuerySpec.v
RegistryDirect.v
RegistryZwSpec.v
RegistryKeys.v
RegistryExamples.v
DeviceObjects.v
Driver.v
DriverSpec.v
DriverLoads.v
DriverCounts.v
DriverUnloads.v
DriverExamples.v
LocalPath.v
Files.v
FilesSpec.v
FilesSystem.v
FilesIO.v
FilesExamples.v
Image.v
ImageUpdate.v
ImageData.v
ImageLoads.v
ImageHold.v
ImageExamples.v
Exception.v
Threads.v
ThreadsInv.v
ThreadsSpec.v
ThreadsSystem.v
ThreadsExamples.v
