(* ===== verification/Prelude.v ===== *)
(** * WDUTF: a verification library of the user-space kernel environment

    WDUTF runs a Windows driver in a process of its own: src/src/*.cpp define the
    kernel's functions over Win32 and the C runtime.  This library models the parts
    of it that compute, one file of definitions per part, in the order and with the
    names of the code, and proves what makes each of them correct.

    ** The files

    - Prelude: faults, the three monads (faults only, state, state with waiting),
      machine integers, loops, arrays, lists linked in memory and counts over maps, and
      the tactics on them.
    - Bitmap (bitmap.cpp): bitmaps as lists of 32-bit words, every function with its
      word and bit arithmetic; BitmapOps and BitmapFind relate it to a set of bit
      numbers.  The runs the search functions keep between words are the record
      [run].
    - Strings (unicode.cpp and string.cpp): counted strings, the header and the bytes
      of the buffer; StringsOps and StringsSpec relate them to lists of characters.
    - Spinlock (irql.cpp and spinlock.cpp): the interrupt level of each thread and
      the table of reader-writer locks.  SpinlockSpec runs the calls of many threads
      in any order; SpinlockTable takes GetSRWLock apart into its memory accesses.
    - Objects (object.h and object.cpp, with what file.cpp, device.cpp, driver.cpp and
      registry.cpp do when an object is freed): a heap of reference-counted objects.
      ObjectsInv defines what the counts have to cover, ObjectsSpec proves it of
      freeing, HandleSpec of pointers and handles.
    - Names (name.cpp and symlink.cpp): the name list over that heap.  NamesPath is
      about the memory paths are built in, NamesSpec about names, SymlinkSpec and
      ResolveSpec about links.  ObjectsExamples is one heap on which the theorems on
      objects and names are used.
    - Dispatcher (event.cpp, mutex.cpp, semaphore.cpp, wait.cpp and the wait times of
      time.cpp): the dispatcher objects over those of the system.  DispatcherSpec is
      about events, DispatcherWaits about waits, DispatcherMutex about mutexes and
      semaphores, DispatcherExamples has a model of the system.
    - Timer (timer.cpp) and Dpc (dpc.cpp): one timer and one DPC with the thread pool
      that runs their callbacks, access by access; TimerSpec and DpcSpec are about
      every interleaving.
    - Irp (irp.cpp, and IoAllocateMdl of mdl.cpp): IRPs with their stacks, in a store
      with the memory and events that requests use.  IrpSpec is about completion,
      IrpRequests about the requests the library itself makes, IrpExamples has a
      driver.
    - Device (device.cpp): stacks of attached devices, and the remove lock as steps of
      any number of threads; DeviceSpec has the theorems.
    - Detours (detours.cpp, and the thread loop of thread.cpp): regions, detours and
      intercepts as lists linked in memory.  DetoursInv has the
      invariant and frees and allocates detours, DetoursSpec relates all
      of it to one list of intercepts per function, DetoursExamples runs it.
    - Bugcheck (error.cpp): the callbacks drivers register for a bug check, and what a
      bug check calls; BugcheckSpec has the theorems.
    - Memory: the bytes of a driver by their address, and what reading and writing
      them in sequence gives.
    - Registry (registry.cpp): keys by path; RegistryQuery has the query tables and
      RegistryZw the keys by handle.  RegistrySpec has the laws of the functions of the
      system over a tree of keys and the writes by path, RegistryRead the
      reading of values, RegistryQuerySpec and RegistryDirect the query tables,
      RegistryZwSpec and RegistryKeys the handles, and RegistryExamples a tree.
    - DeviceObjects (device.cpp and driver.cpp): creating and deleting devices, over
      Objects and Names, with its theorems.
    - Driver (driver.cpp, pnp.cpp and the lock of load.cpp): drivers that are linked
      with their test, over all of Objects, Names, Registry, Device and DeviceObjects.
      DriverSpec runs the calls one driver makes of those, DriverLoads has the last
      unload up to the object's end, DriverCounts the first load and the table of load
      counts, DriverUnloads the unloads over that table, DriverExamples a driver.

    - LocalPath (local.cpp): where the files of a driver are, with the theorems on
      the path and the directories that are made for it.  Files (file.cpp): files on devices
      and files of the system, over Objects and Names.  FilesSpec opens and closes those
      on devices, FilesSystem those of the system, FilesIO reads and writes them,
      FilesExamples has a small file system.
    - Image (load.cpp, and DdkFindModule of detours.cpp): drivers that are loaded from
      files.  ImageUpdate is about the changes to the file, ImageData about the data that
      are saved and restored, ImageLoads about the modules that load through an image,
      ImageHold about files and modules of the system, ImageExamples has a driver.
    - Exception (exception.cpp, and CR8 of irql.cpp): the faults of a driver that the
      handler takes care of, with what the processor would have done.
    - Threads (thread.cpp): the threads and processes of the kernel, over Objects and
      Detours, for any number of host threads.  ThreadsInv has the invariant,
      ThreadsSpec the calls, ThreadsSystem the host threads that make them in any order,
      ThreadsExamples two threads.

    A file with operations is followed by the files that prove them, and only the
    definitions of Prelude, Memory, Strings and Objects (for Names and Registry), Spinlock
    (for Bugcheck), Dispatcher (for Timer), Irp (for Device), Names, Device and Registry
    (for DeviceObjects and Driver), Names and LocalPath (for Files),
    LocalPath and Detours (for Image), Memory (for Exception), and Objects and Detours
    (for Threads) are shared between parts.

    ** How the code is modelled

    A call that asserts, fails or stops the process has no result: it is an [Err] of
    [fault].  A memory access outside what the model contains is the fault
    [BadAccess], so a theorem that a call gives [Ok] says that it stays in bounds, and,
    where memory is freed, that it is not used afterwards.
    Unsigned and signed integers wrap as written, through [u16], [u32], [u64] and
    [s32].  Loops are [for_le] and its variants or recursion on fuel.

    What the code calls and does not define is a parameter, a class where there are
    several functions, with its laws in a class of their own: the locale's character
    tables ([Locale], [LocaleLaws]); the locks of the operating system
    ([SRWLOCK_API]); its events, waits and thread pool ([WIN32_SYNC],
    [THREADPOOL_TIMER], [THREADPOOL_WORK]); the inline functions of the WDK ([WDK]; the
    dispatch and completion routines of drivers are arguments) and bug
    check callbacks ([BUGCHECK_CALLBACKS]);
    the Detours library ([DETOURS]); the registry of the system ([WINREG], with laws over
    a tree of keys, [WINREG_Laws], which promise no order of values across a change) and the routines of query tables ([QUERY_ROUTINES]),
    which see their data and do not change the registry or the driver's memory; the files
    of the system ([WINFILE], with laws on handles, [WINFILE_Laws], and on the content of a
    file, [WINFILE_DATA]) and its loader ([LOADER], [LOADER_Laws]); the routines of drivers and what a stack makes of a plug and play request
    ([DRIVER_ROUTINES]), which may change everything and may fail: the theorems ask of them that they return,
    give back the references to drivers they take, leave the names of drivers alone and
    set no AddDevice routine ([served]), so they are about drivers without plug and play.  The results of allocations are arguments, and so
    are the contents of memory where no object is ([Environment]).  Each theorem that
    assumes laws is used at a concrete instance.

    A function whose callers hold one lock all the time is one step; where threads
    race (lock table, timers, DPCs, remove locks) the steps are single accesses.  A call
    that waits for others is two definitions, up to the wait and after it, with whatever
    they do in between: [DdkSynchronousIrp_begin] and [DdkSynchronousIrp_end], and
    [create_begin] and [create_end] for PsCreateSystemThread.

    ** What is shown

    - Bitmaps: each function does to the set of bits what its name says, for every
      start, length and hint; the searches find the first run from the hint, wrap
      round, and fail only if there is none.  [partial_last_word] and
      [RtlSetBits_wrap] are the cases in which the code differs from the kernel.
    - Strings: parsing and printing of integers are inverse; comparison, hashing,
      copying, appending and conversion agree with lists of characters on every
      branch, without access outside the buffers.
    - Locks: at most one exclusive holder and none with others, for every interleaving;
      the lock table is safe when threads race to fill it; its one-step model is what
      the steps of one thread amount to.
    - Objects: [kinv] says that the count of each object covers the names, devices
      and files that refer to it; [client] is what is left, the references that
      drivers hold.  Each operation changes [client] by exactly the references it
      gives or takes, keeps [kinv], and leaves nothing allocated that has no
      reference.
    - Names: what is entered is found, paths fit their buffers, following links ends
      after at most 1001 of them; a deleted link is never freed ([symbolic_link_leaks]).
    - Dispatcher objects: events, mutexes and semaphores refine a bit, an owner with a
      count and a bounded count, for any sequence of calls; a wait for any object
      takes the first signalled one and nothing else, a wait for all takes all or
      none, but never succeeds for a single object.
    - Timers and DPCs: every setting of a timer by one thread at a time and every
      insertion of a DPC is run once, or cancelled, or outstanding, an expiry setting the
      event and inserting the DPC of its setting; a cancelled timer stays quiet.  Reading a
      timer can undo a setting, and flushing DPCs can end early.
    - IRPs: completion calls the routines that ask for the outcome, which they may change,
      in order, each once; a synchronous request that is pended waits until the driver
      completes it, and returns its final status and frees its IRP.  The
      check for a location left comes too early, and device controls with a direct
      method write to address 0.
    - Devices: the walks over a stack end, attaching joins and detaching splits it;
      after a removal nobody holds the remove lock, and no wakeup is lost.
    - Detours: whatever the library answers, attaching adds to one list or changes
      nothing, detaching filters the lists, and each call gets the intercept chosen for
      its thread; no entry leaks and nothing freed is used.
    - Bug checks: any sequence of registrations is that of a table of records; a bug
      check calls the table in order, routines for pages until they ask for no more, and
      leaves lock and interrupt level alone.
    - Registry: writing and deleting by path changes that value alone; a query table makes
      the calls its entries mean, for values of any size, and stores no more than the
      place it is given holds; structures of values are returned only whole; the key of
      a handle is closed with it.  Every handle and buffer is given back, but for the
      cases [direct_without_name_leaks], [key_closed_twice] and the names of
      ZwQueryValueKey; a missing value of a typed entry stops the process
      ([missing_typed_value]).
    - Devices and drivers: creating a device gives it a name and a place in its driver's
      list, or nothing; deleting it undoes that exactly.  Loading and unloading drivers
      is a table of counts by name: the first load makes the driver and runs its entry
      routine, the last takes it
      apart and frees it, if its devices go.  A driver whose name is taken is freed
      twice ([DdkCreateDriver_taken]).
    - Files: opening gives a new file on the device a name leads to, or on the file of the
      system below the directory of the process, and closing undoes that, but for two
      events each file has; any sequence of reads and writes is one of a list of bytes with
      a position.  A path that does not fit is not ended ([DdkGetLocalPath_spec]), what has
      been found and is not opened is kept, and the position is wrong after a write to the
      end ([append_position]).
    - Images: changing a driver file in place is reading it once from left to right
      ([relink], [reshare]), and leaves nothing to be changed; its data are restored
      exactly; a module's intercepts go with its last use of the image, and an image stays
      while a module uses it; each image holds its module once.  The changes can read and
      write behind the file ([compared_behind], [name_at_end]), and a driver's name keeps a
      backslash ([DdkGetDriverName_spec]).
    - Exceptions: the instructions that access CR8 are executed as the processor would, and
      no other ([DdkPrivException_emulates]); a read of the shared data of the kernel goes to where the
      process has them.
    - Threads: in every interleaving the list of threads is the current threads of the host
      threads, and each thread object has one reference for each use by a host thread and each
      that drivers have been handed and not given back, so that it is freed with the last;
      a new thread gets to its routine; with the end of a thread its intercepts are gone.
      What [Detours] takes for the list of threads is what the loop finds.

    ** Fuel

    [free_depth] is 3: a file holds a device, a device a driver, a driver nothing, and
    no theorem on objects lets the fuel run out.  [DdkResolveSymbolicLink] has 1002, the
    code's own limit.  The loops over strings have the length of the string, those over
    linked lists and stacks one more than the number of nodes there are, and
    [complete_fuel] is 258, more than a [CCHAR] can count.  Reading a value of the
    registry takes at most 3 rounds ([read_fuel]), since the value does not change between
    them, the loop over the values of a key one more than the values it has, and that over the
    imports of a module one more than the bytes there are ([DdkFindDLLName_ends]).  The theorems say that none
    runs out, the one of [DdkUnloadDriver] given more than the driver has devices, but for bug checks: there the fuel bounds how often a driver's routine asks
    to be called again, which only the driver can tell.

    ** What is not modelled

    The manifest of components names every part of src/src.  Left out for good are the
    calls of Win32 alone (the directory of the process), exported data, and functions
    that only fail.  Not reached are the search for a driver's file, the answer of
    the manager to plug and play requests, device interfaces, work items, pools and MDLs but for
    [IoAllocateMdl], the time conversions, the look-up of functions by name for detours, and named events. *)

From stdpp Require Export base option list list_numbers numbers strings gmap.
From Stdlib Require Export ZArith Lia.

#[global] Open Scope Z_scope.

(** ** Faults and the result monad

    [DdkFail] raises a non-continuable exception, [KeBugCheck] ends in the same
    call and [DDKASSERT] is [DdkFail] on a false condition: none of them comes
    back to the caller, so a call that reaches one has no result.  Reading or
    writing memory the model does not contain is undefined behaviour in the
    code and [BadAccess] here; [NoFuel] is the model's own, for recursion that
    is not structural. *)

Inductive fault : Type :=
  | AssertFailed (condition : string)
  | DdkFailed (message : string)
  | BugChecked (code : Z)
  | BadAccess (address : Z)
  | NoFuel.

Inductive result (A : Type) : Type :=
  | Ok (a : A)
  | Err (f : fault).
Arguments Ok {A} a.
Arguments Err {A} f.

#[global] Instance result_ret : MRet result := @Ok.
#[global] Instance result_bind : MBind result := fun A B k m =>
  match m with Ok a => k a | Err f => Err f end.

(** State passing with faults: the state at a fault is not observable. *)
Definition M (S A : Type) : Type := S -> result (A * S).

#[global] Instance M_ret {S} : MRet (M S) := fun A a s => Ok (a, s).
#[global] Instance M_bind {S} : MBind (M S) := fun A B k m s =>
  match m s with Ok (a, s') => k a s' | Err f => Err f end.

Definition fail {S A} (f : fault) : M S A := fun _ => Err f.
Definition get {S} : M S S := fun s => Ok (s, s).
Definition put {S} (s : S) : M S unit := fun _ => Ok (tt, s).
Definition modify {S} (f : S -> S) : M S unit := fun s => Ok (tt, f s).
Definition lift {S A} (r : result A) : M S A := fun s =>
  match r with Ok a => Ok (a, s) | Err f => Err f end.

(** [DDKASSERT(v)] *)
Definition ddkassert (v : bool) (condition : string) : result unit :=
  if v then Ok tt else Err (AssertFailed condition).
Definition ddkassertM {S} (v : bool) (condition : string) : M S unit :=
  lift (ddkassert v condition).

(** [DDKASSERT(NULL != p)] followed by the use of [*p]. *)
Definition nonnull {A} (p : option A) (condition : string) : result A :=
  match p with Some a => Ok a | None => Err (AssertFailed condition) end.

Lemma bind_ok {A B} (a : A) (k : A -> result B) : (Ok a ≫= k) = k a.
Proof. done. Qed.

Lemma bind_err {A B} f (k : A -> result B) : ((Err f : result A) ≫= k) = Err f.
Proof. done. Qed.

Lemma bind_assoc {A B C} (m : result A) (k : A -> result B) (h : B -> result C) :
  ((m ≫= k) ≫= h) = m ≫= (fun a => k a ≫= h).
Proof. by destruct m. Qed.

Lemma nonnull_some {A} (a : A) c : nonnull (Some a) c = Ok a.
Proof. done. Qed.

Lemma ddkassert_true {B} v c (k : unit -> result B) :
  v = true -> (ddkassert v c ≫= k) = k tt.
Proof. by intros ->. Qed.

Lemma ddkassert_false {B} v c (k : unit -> result B) :
  v = false -> (ddkassert v c ≫= k) = Err (AssertFailed c).
Proof. by intros ->. Qed.

(** ** Machine integers

    An unsigned [w]-bit integer is a [Z] kept in range by [u8] to [u64]; a
    [LONG] is a [Z] kept in range by [s32], a [LONGLONG] by [s64]. *)

Definition u8 (z : Z) : Z := z mod 2 ^ 8.
Definition u16 (z : Z) : Z := z mod 2 ^ 16.
Definition u32 (z : Z) : Z := z mod 2 ^ 32.
Definition u64 (z : Z) : Z := z mod 2 ^ 64.
Definition s32 (z : Z) : Z := (z + 2 ^ 31) mod 2 ^ 32 - 2 ^ 31.
Definition s64 (z : Z) : Z := (z + 2 ^ 63) mod 2 ^ 64 - 2 ^ 63.

(** ** Loops

    [for (i = lo; i <= hi; i++)] with no exit in its body, over a pure body,
    over a body that can fault, and over a body that can return from the
    enclosing function.  The loop variable never wraps in the code modelled:
    [hi] stays below the largest value of its type. *)

Fixpoint iter {A} (n : nat) (i : Z) (body : Z -> A -> A) (a : A) : A :=
  match n with
  | O => a
  | S n' => iter n' (i + 1) body (body i a)
  end.

Definition for_le {A} (lo hi : Z) (body : Z -> A -> A) (a : A) : A :=
  iter (Z.to_nat (hi - lo + 1)) lo body a.

Fixpoint miter {A} (n : nat) (i : Z) (body : Z -> A -> result A) (a : A) : result A :=
  match n with
  | O => Ok a
  | S n' => a' ← body i a; miter n' (i + 1) body a'
  end.

Definition mfor_le {A} (lo hi : Z) (body : Z -> A -> result A) (a : A) : result A :=
  miter (Z.to_nat (hi - lo + 1)) lo body a.

(** [inl a]: go on with [a]; [inr r]: the function has returned [r]. *)
Fixpoint riter {A R} (n : nat) (i : Z) (body : Z -> A -> result (A + R)) (a : A)
  : result (A + R) :=
  match n with
  | O => Ok (inl a)
  | S n' =>
      x ← body i a;
      match x with
      | inl a' => riter n' (i + 1) body a'
      | inr r => Ok (inr r)
      end
  end.

Definition rfor_le {A R} (lo hi : Z) (body : Z -> A -> result (A + R)) (a : A)
  : result (A + R) :=
  riter (Z.to_nat (hi - lo + 1)) lo body a.

(** A loop whose pure body can [break]: the second component says it did. *)
Fixpoint biter {A} (n : nat) (i : Z) (body : Z -> A -> A * bool) (a : A) : A * bool :=
  match n with
  | O => (a, false)
  | S n' =>
      match body i a with
      | (a', true) => (a', true)
      | (a', false) => biter n' (i + 1) body a'
      end
  end.

Definition bfor_le {A} (lo hi : Z) (body : Z -> A -> A * bool) (a : A) : A * bool :=
  biter (Z.to_nat (hi - lo + 1)) lo body a.

(** ** Tactics *)

(** Case analysis on the boolean tests of [Z], then arithmetic. *)
Ltac case_z :=
  repeat match goal with
  | |- context [?a =? ?b] => destruct (Z.eqb_spec a b)
  | |- context [?a <=? ?b] => destruct (Z.leb_spec a b)
  | |- context [?a <? ?b] => destruct (Z.ltb_spec a b)
  end.

(** Invert the equations a successful run leaves in the context. *)
Ltac inv_ok :=
  repeat match goal with
  | H : Ok _ = Ok _ |- _ => injection H; clear H; intros; subst
  | H : Err _ = Ok _ |- _ => discriminate H
  | H : Ok _ = Err _ |- _ => discriminate H
  end.

(** Unfold the monad's plumbing. *)
Ltac mrun :=
  unfold mret, mbind, result_ret, result_bind, M_ret, M_bind,
    fail, get, put, modify, lift, ddkassertM, ddkassert, nonnull in *; simpl in *.

(** ** Machine integer lemmas *)

Create HintDb word.
Create Rewrite HintDb word.

Lemma u32_range z : 0 <= u32 z < 2 ^ 32.
Proof. apply Z.mod_pos_bound; lia. Qed.
Lemma u16_range z : 0 <= u16 z < 2 ^ 16.
Proof. apply Z.mod_pos_bound; lia. Qed.
Lemma u8_range z : 0 <= u8 z < 2 ^ 8.
Proof. apply Z.mod_pos_bound; lia. Qed.
Lemma s32_range z : - 2 ^ 31 <= s32 z < 2 ^ 31.
Proof. unfold s32. pose proof (Z.mod_pos_bound (z + 2 ^ 31) (2 ^ 32)). lia. Qed.

Lemma u32_id z : 0 <= z < 2 ^ 32 -> u32 z = z.
Proof. apply Z.mod_small. Qed.
Lemma u16_id z : 0 <= z < 2 ^ 16 -> u16 z = z.
Proof. apply Z.mod_small. Qed.
Lemma u8_id z : 0 <= z < 2 ^ 8 -> u8 z = z.
Proof. apply Z.mod_small. Qed.
Lemma s32_id z : - 2 ^ 31 <= z < 2 ^ 31 -> s32 z = z.
Proof. intros. unfold s32. rewrite Z.mod_small; lia. Qed.

#[export] Hint Resolve u32_range u16_range u8_range s32_range : word.
#[export] Hint Rewrite u32_id u16_id u8_id s32_id using lia : word.

Lemma s64_id z : - 2 ^ 63 <= z < 2 ^ 63 -> s64 z = z.
Proof. intros. unfold s64. rewrite Z.mod_small; lia. Qed.

Lemma testbit_mod_pow2 z w k :
  0 <= w -> 0 <= k -> Z.testbit (z mod 2 ^ w) k = (k <? w) && Z.testbit z k.
Proof.
  intros. destruct (Z.ltb_spec k w); simpl.
  - apply Z.mod_pow2_bits_low; lia.
  - apply Z.mod_pow2_bits_high; lia.
Qed.

Lemma testbit_u32 z k : 0 <= k < 32 -> Z.testbit (u32 z) k = Z.testbit z k.
Proof. intros. unfold u32. rewrite testbit_mod_pow2 by lia. by case_z; [|lia]. Qed.

Lemma testbit_above w z k : 0 <= z < 2 ^ w -> 0 <= w <= k -> Z.testbit z k = false.
Proof.
  intros. rewrite <- (Z.mod_small z (2 ^ w)) by lia. apply Z.mod_pow2_bits_high; lia.
Qed.

(** A number whose bits from [w] on are clear is a [w]-bit number. *)
Lemma bits_range w z :
  0 <= w -> 0 <= z -> (forall k, w <= k -> Z.testbit z k = false) -> z < 2 ^ w.
Proof.
  intros Hw Hz Hb. enough (z = z mod 2 ^ w) as -> by (apply Z.mod_pos_bound; lia).
  apply Z.bits_inj'. intros k Hk. rewrite testbit_mod_pow2 by lia.
  case_z; [done | apply Hb; lia].
Qed.

(** Two [w]-bit numbers with the same low [w] bits are equal. *)
Lemma bits_eq w a b :
  0 <= w -> 0 <= a < 2 ^ w -> 0 <= b < 2 ^ w ->
  (forall k, 0 <= k < w -> Z.testbit a k = Z.testbit b k) -> a = b.
Proof.
  intros Hw Ha Hb H. apply Z.bits_inj'. intros k Hk. destruct (Z.lt_ge_cases k w).
  - apply H; lia.
  - rewrite !(testbit_above w); auto; lia.
Qed.

(** ** Loop lemmas *)

(** The invariant rule of a loop that can fault: it ends, without a fault,
    in a state the invariant holds of. *)
Lemma miter_inv {A} (P : Z -> A -> Prop) (body : Z -> A -> result A) n lo a :
  P lo a ->
  (forall i a, lo <= i < lo + Z.of_nat n -> P i a -> exists a', body i a = Ok a' /\ P (i + 1) a') ->
  exists a', miter n lo body a = Ok a' /\ P (lo + Z.of_nat n) a'.
Proof.
  revert lo a. induction n as [|n IH]; intros lo a H0 Hs; simpl.
  - exists a. by rewrite Z.add_0_r.
  - destruct (Hs lo a) as (a' & -> & H1); [lia | done |]. simpl.
    destruct (IH (lo + 1) a') as (a'' & -> & H2); [done | intros; apply Hs; [lia | done] |].
    exists a''. split; [done |]. by replace (lo + Z.of_nat (S n)) with (lo + 1 + Z.of_nat n) by lia.
Qed.

Lemma iter_inv {A} (P : Z -> A -> Prop) (body : Z -> A -> A) n lo a :
  P lo a ->
  (forall i a, lo <= i < lo + Z.of_nat n -> P i a -> P (i + 1) (body i a)) ->
  P (lo + Z.of_nat n) (iter n lo body a).
Proof.
  revert lo a. induction n as [|n IH]; intros lo a H0 Hs; simpl.
  - by rewrite Z.add_0_r.
  - replace (lo + Z.of_nat (S n)) with (lo + 1 + Z.of_nat n) by lia.
    apply IH; [apply Hs; [lia | done] | intros; apply Hs; [lia | done]].
Qed.

(** The invariant rule of a loop that can return: either it runs to its end in
    the invariant, or it returns in a state [Q] describes. *)
Lemma riter_inv {A R} (P : Z -> A -> Prop) (Q : Z -> R -> Prop)
    (body : Z -> A -> result (A + R)) n lo a :
  P lo a ->
  (forall i a, lo <= i < lo + Z.of_nat n -> P i a ->
    (exists a', body i a = Ok (inl a') /\ P (i + 1) a') \/
    (exists r, body i a = Ok (inr r) /\ Q i r)) ->
  (exists a', riter n lo body a = Ok (inl a') /\ P (lo + Z.of_nat n) a') \/
  (exists i r, riter n lo body a = Ok (inr r) /\ lo <= i < lo + Z.of_nat n /\ Q i r).
Proof.
  revert lo a. induction n as [|n IH]; intros lo a H0 Hs; simpl.
  - left. exists a. by rewrite Z.add_0_r.
  - destruct (Hs lo a) as [(a' & -> & H1) | (r & -> & H1)]; [lia | done | |]; simpl.
    + destruct (IH (lo + 1) a') as [(a'' & -> & H2) | (i & r & -> & Hi & H2)];
        [done | intros; apply Hs; [lia | done] | |].
      * left. exists a''. split; [done |].
        by replace (lo + Z.of_nat (S n)) with (lo + 1 + Z.of_nat n) by lia.
      * right. exists i, r. split; [done |]. split; [lia | done].
    + right. exists lo, r. split; [done |]. split; [lia | done].
Qed.

(** ** Arrays of [ULONG] *)

(** [Buffer[i]], read and written; an index outside the array is undefined
    behaviour. *)
Definition array_get {A} (b : list A) (i : Z) : result A :=
  if (0 <=? i) && (i <? Z.of_nat (length b)) then
    match b !! Z.to_nat i with Some e => Ok e | None => Err (BadAccess i) end
  else Err (BadAccess i).

Definition array_set {A} (b : list A) (i : Z) (e : A) : result (list A) :=
  if (0 <=? i) && (i <? Z.of_nat (length b)) then Ok (<[Z.to_nat i := e]> b)
  else Err (BadAccess i).

Lemma array_get_ok {A} (b : list A) i :
  0 <= i < Z.of_nat (length b) -> exists e, array_get b i = Ok e /\ b !! Z.to_nat i = Some e.
Proof.
  intros. unfold array_get.
  destruct (lookup_lt_is_Some_2 b (Z.to_nat i)) as [e He]; [lia |].
  exists e. rewrite He. by case_z; simpl; lia || done.
Qed.

Lemma array_set_ok {A} (b : list A) i e :
  0 <= i < Z.of_nat (length b) -> array_set b i e = Ok (<[Z.to_nat i := e]> b).
Proof. intros. unfold array_set. case_z; simpl; [done | lia | lia | lia]. Qed.

(** The invariant rule of a loop that can break. *)
Lemma biter_inv {A} (P : Z -> A -> Prop) (Q : Z -> A -> Prop) (body : Z -> A -> A * bool) n lo a :
  P lo a ->
  (forall i a, lo <= i < lo + Z.of_nat n -> P i a ->
    (exists a', body i a = (a', false) /\ P (i + 1) a') \/
    (exists a', body i a = (a', true) /\ Q i a')) ->
  (exists a', biter n lo body a = (a', false) /\ P (lo + Z.of_nat n) a') \/
  (exists i a', biter n lo body a = (a', true) /\ lo <= i < lo + Z.of_nat n /\ Q i a').
Proof.
  revert lo a. induction n as [|n IH]; intros lo a H0 Hs; simpl.
  - left. exists a. by rewrite Z.add_0_r.
  - destruct (Hs lo a) as [(a' & -> & H1) | (a' & -> & H1)]; [lia | done | |].
    + destruct (IH (lo + 1) a') as [(a'' & -> & H2) | (i & r & -> & Hi & H2)];
        [done | intros; apply Hs; [lia | done] | |].
      * left. exists a''. split; [done |].
        by replace (lo + Z.of_nat (S n)) with (lo + 1 + Z.of_nat n) by lia.
      * right. exists i, r. split; [done |]. split; [lia | done].
    + right. exists lo, a'. split; [done |]. split; [lia | done].
Qed.

(** [*p] for a pointer that may be [NULL]. *)
Definition deref {A} (p : option A) : result A :=
  match p with Some a => Ok a | None => Err (BadAccess 0) end.

Lemma deref_some {A} (a : A) : deref (Some a) = Ok a.
Proof. done. Qed.

(** ** Status codes and interrupt request levels *)

Definition STATUS_SUCCESS : Z := 0.
Definition STATUS_TIMEOUT : Z := 0x102.
Definition STATUS_PENDING : Z := 0x103.
Definition STATUS_OBJECT_NAME_EXISTS : Z := 0x40000000.
Definition STATUS_BUFFER_OVERFLOW : Z := 0x80000005.
Definition STATUS_INVALID_HANDLE : Z := 0xC0000008.
Definition STATUS_INVALID_PARAMETER : Z := 0xC000000D.
Definition STATUS_BUFFER_TOO_SMALL : Z := 0xC0000023.
Definition STATUS_OBJECT_TYPE_MISMATCH : Z := 0xC0000024.
Definition STATUS_OBJECT_NAME_NOT_FOUND : Z := 0xC0000034.
Definition STATUS_INSUFFICIENT_RESOURCES : Z := 0xC000009A.

Definition PASSIVE_LEVEL : Z := 0.
Definition APC_LEVEL : Z := 1.
Definition DISPATCH_LEVEL : Z := 2.
Definition HIGH_LEVEL : Z := 15.

(** ** Calls that can wait

    [Ok None]: the calling thread waits; the call has no effect others can see
    until it is let through. *)
Definition W (S A : Type) : Type := S -> result (option (A * S)).

#[global] Instance W_ret {S} : MRet (W S) := fun A a s => Ok (Some (a, s)).
#[global] Instance W_bind {S} : MBind (W S) := fun A B k m s =>
  match m s with
  | Ok (Some (a, s')) => k a s'
  | Ok None => Ok None
  | Err f => Err f
  end.

#[global] Instance W_fmap {S} : FMap (W S) := fun A B f m s =>
  match m s with
  | Ok (Some (a, s')) => Ok (Some (f a, s'))
  | Ok None => Ok None
  | Err f => Err f
  end.

Definition wget {S A} (f : S -> A) : W S A := fun s => Ok (Some (f s, s)).
Definition wput {S} (f : S -> S) : W S unit := fun s => Ok (Some (tt, f s)).
Definition wlift {S A} (r : result A) : W S A := fun s =>
  match r with Ok a => Ok (Some (a, s)) | Err f => Err f end.
Definition wwait {S A} (a : option A) : W S A := fun s =>
  match a with Some a => Ok (Some (a, s)) | None => Ok None end.
Definition wassert {S} (v : bool) (condition : string) : W S unit :=
  wlift (ddkassert v condition).


(** [if (!ok) ddkfail(message)] *)
Definition wcheck {S} (ok : bool) (message : string) : W S unit :=
  wlift (if ok then Ok tt else Err (DdkFailed message)).

Lemma bind_run {S A B} (m : M S A) (k : A -> M S B) s a s' : m s = Ok (a, s') -> (m ≫= k) s = k a s'.
Proof. unfold mbind, M_bind. by intros ->. Qed.

Lemma wbind_run {S A B} (m : W S A) (k : A -> W S B) s a s' :
  m s = Ok (Some (a, s')) -> (m ≫= k) s = k a s'.
Proof. unfold mbind, W_bind. by intros ->. Qed.

Lemma wbind_err {S A B} (m : W S A) (k : A -> W S B) s f : m s = Err f -> (m ≫= k) s = Err f.
Proof. unfold mbind, W_bind. by intros ->. Qed.

Lemma wassert_run {S} v c (s : S) : v = true -> wassert v c s = Ok (Some (tt, s)).
Proof. by intros ->. Qed.

Lemma wcheck_run {S} v c (s : S) : v = true -> wcheck v c s = Ok (Some (tt, s)).
Proof. by intros ->. Qed.

Lemma wbind_inv {S A B} (m : W S A) (k : A -> W S B) s b s' :
  (m ≫= k) s = Ok (Some (b, s')) ->
  exists a s1, m s = Ok (Some (a, s1)) /\ k a s1 = Ok (Some (b, s')).
Proof.
  unfold mbind, W_bind. destruct (m s) as [[[a s1]|]|]; intros; try done. by exists a, s1.
Qed.

Lemma wassert_inv {S} v c (s s' : S) x : wassert v c s = Ok (Some (x, s')) -> v = true /\ s' = s.
Proof. unfold wassert, wlift, ddkassert. destruct v; [| done]. by intros [= _ ->]. Qed.

Lemma wcheck_inv {S} v c (s s' : S) x : wcheck v c s = Ok (Some (x, s')) -> v = true /\ s' = s.
Proof. unfold wcheck, wlift. destruct v; [| done]. by intros [= _ ->]. Qed.

Lemma wget_inv {S A} (f : S -> A) s a s' : wget f s = Ok (Some (a, s')) -> a = f s /\ s' = s.
Proof. by intros [= <- <-]. Qed.

Lemma wput_inv {S} (f : S -> S) s a s' : wput f s = Ok (Some (a, s')) -> s' = f s.
Proof. by intros [= _ <-]. Qed.

Lemma wwait_inv {S A} (o : option A) (s : S) a s' :
  wwait o s = Ok (Some (a, s')) -> o = Some a /\ s' = s.
Proof. unfold wwait. destruct o; [| done]. by intros [= -> ->]. Qed.

Lemma wret_inv {S A} (a b : A) (s s' : S) :
  (mret a : W S A) s = Ok (Some (b, s')) -> b = a /\ s' = s.
Proof. by intros [= -> ->]. Qed.

(** Take a returned call apart, step by step. *)
Ltac winv :=
  repeat match goal with
  | H : (_ ≫= _) _ = Ok (Some _) |- _ => apply wbind_inv in H as (? & ? & ? & H)
  | H : wassert _ _ _ = Ok (Some _) |- _ => apply wassert_inv in H as [? ->]
  | H : wcheck _ _ _ = Ok (Some _) |- _ => apply wcheck_inv in H as [? ->]
  | H : wget _ _ = Ok (Some _) |- _ => apply wget_inv in H as [-> ->]
  | H : wput _ _ = Ok (Some _) |- _ => apply wput_inv in H as ->
  | H : wwait _ _ = Ok (Some _) |- _ => apply wwait_inv in H as [? ->]
  | H : mret _ _ = Ok (Some _) |- _ => apply wret_inv in H as [-> ->]
  end.

(** ** How often a value is in a map *)

Section tally.
Context {A : Type} (P : A -> Prop) `{forall a, Decision (P a)}.

Definition tally (m : gmap Z A) : nat := size (filter (fun kv => P kv.2) m).

Definition hit (o : option A) : nat := match o with Some a => if decide (P a) then 1 else 0 | None => 0 end.

Lemma tally_delete m k : (tally (delete k m) + hit (m !! k))%nat = tally m.
Proof.
  unfold tally, hit. rewrite map_filter_delete. destruct (m !! k) as [a |] eqn:E.
  - destruct (decide (P a)) as [Hp | Hn].
    + rewrite map_size_delete_Some; [| exists a; by apply map_lookup_filter_Some].
      assert (size (filter (fun kv => P kv.2) m) <> 0)%nat; [| lia].
      intros Z0%map_size_empty_inv. assert (filter (fun kv => P kv.2) m !! k = Some a) as Ef by by apply map_lookup_filter_Some.
      by rewrite Z0 in Ef.
    + rewrite delete_id; [lia |]. apply map_lookup_filter_None. right. intros a' E'. by simplify_eq.
  - rewrite delete_id; [lia |]. apply map_lookup_filter_None. by left.
Qed.

Lemma tally_insert m k a : (tally (<[k := a]> m) + hit (m !! k))%nat = (tally m + hit (Some a))%nat.
Proof.
  rewrite <- (insert_delete_eq m k a). pose proof (tally_delete m k) as Hd. unfold tally, hit in *.
  destruct (decide (P a)) as [Hp | Hn].
  - rewrite map_filter_insert_True by done. rewrite map_size_insert_None; [lia |].
    apply map_lookup_filter_None. left. apply lookup_delete_eq.
  - rewrite map_filter_insert_not' by (try done; intros; rewrite lookup_delete_eq in *; by simplify_eq). lia.
Qed.

Lemma tally_pos m k a : m !! k = Some a -> P a -> (0 < tally m)%nat.
Proof. intros E Hp. pose proof (tally_delete m k) as Hd. rewrite E in Hd. cbn in Hd. rewrite decide_True in Hd by done. lia. Qed.

Lemma tally_inv m : (0 < tally m)%nat -> exists k a, m !! k = Some a /\ P a.
Proof.
  intros Hp. unfold tally in Hp. destruct (map_choose (filter (fun kv => P kv.2) m)) as (k & a & E).
  { intros Z0. rewrite Z0, map_size_empty in Hp. lia. }
  apply map_lookup_filter_Some in E. eauto.
Qed.
End tally.

(** ** Lists linked in memory

    [lseg] says that the nodes of a list follow each other from an address on, ended by
    [NULL]; the lemmas take nodes out and say what a change of the map leaves alone. *)

Section lseg.
Context {A : Type} (nxt : A -> Z).

(** From [p], the nodes of [l] in order, then [NULL]. *)
Fixpoint lseg (m : gmap Z A) (p : Z) (l : list Z) : Prop :=
  match l with
  | [] => p = 0
  | e :: l => p = e /\ e <> 0 /\ exists a, m !! e = Some a /\ lseg m (nxt a) l
  end.

Lemma lseg_live m p l e : lseg m p l -> e ∈ l -> e <> 0 /\ is_Some (m !! e).
Proof.
  revert p. induction l as [|q l IH]; intros p L Hq; [by apply not_elem_of_nil in Hq |].
  destruct L as (-> & N & a & E & L). apply elem_of_cons in Hq as [-> | Hq]; eauto.
Qed.

Lemma lseg_zero m l : lseg m 0 l -> l = [].
Proof. destruct l; [done |]. intros (<- & [] & _). done. Qed.

Lemma lseg_functional m p l l' : lseg m p l -> lseg m p l' -> l = l'.
Proof.
  revert p l'. induction l as [|q l IH]; intros p l' L L'; simpl in L.
  - subst. symmetry. by apply (lseg_zero m).
  - destruct L as (-> & N & a & E & L). destruct l' as [|q' l']; [by simpl in L' |].
    destruct L' as (<- & _ & a' & E' & L'). simplify_eq. f_equal. by eapply IH.
Qed.

(** Where a node that is in the list leads. *)
Lemma lseg_suffix m p pre e post :
  lseg m p (pre ++ e :: post) -> exists a, m !! e = Some a /\ lseg m (nxt a) post /\ lseg m e (e :: post).
Proof.
  revert p. induction pre as [|q pre IH]; intros p; simpl; [naive_solver |].
  intros (_ & _ & a & _ & L). eauto.
Qed.

Lemma lseg_nodup m p l : lseg m p l -> NoDup l.
Proof.
  revert p. induction l as [|q l IH]; intros p L; [constructor |].
  pose proof L as (-> & N & a & E & L'). constructor; [| eauto].
  intros (pre & post & ->)%list_elem_of_split.
  destruct (lseg_suffix _ _ (q :: pre) q post L) as (a1 & E1 & L1 & _). simplify_eq.
  pose proof (lseg_functional _ _ _ _ L1 L') as F. apply (f_equal length) in F.
  rewrite length_app in F. simpl in F. lia.
Qed.

Lemma lseg_size m p l : lseg m p l -> (length l <= size m)%nat.
Proof.
  intros L. rewrite <- size_dom, <- (size_list_to_set (C := gset Z) l (lseg_nodup _ _ _ L)).
  apply subseteq_size. intros q Hq. apply elem_of_list_to_set in Hq.
  apply elem_of_dom. by eapply lseg_live.
Qed.

(** The nodes of the list decide. *)
Lemma lseg_ext m m' p l :
  lseg m p l -> (forall e, e ∈ l -> nxt <$> m' !! e = nxt <$> m !! e) -> lseg m' p l.
Proof.
  revert p. induction l as [|q l IH]; intros p; simpl; [done |].
  intros (-> & N & a & E & L) Hx. split; [done |]. split; [done |].
  specialize (Hx q) as Hq. rewrite E in Hq.
  destruct (m' !! q) as [a' |] eqn:E'; [| by discriminate Hq; left]. exists a'. split; [done |].
  assert (nxt a' = nxt a) as -> by (by injection Hq; [| left]).
  apply IH; [done |]. intros e He. apply Hx. by right.
Qed.

Lemma lseg_outside m e a p l : e ∉ l -> lseg m p l -> lseg (<[e := a]> m) p l.
Proof. intros He L. eapply lseg_ext; [done |]. intros q Hq. rewrite lookup_insert_ne by set_solver. done. Qed.

Lemma lseg_delete m e p l : e ∉ l -> lseg m p l -> lseg (delete e m) p l.
Proof. intros He L. eapply lseg_ext; [done |]. intros q Hq. rewrite lookup_delete_ne by set_solver. done. Qed.

Context (set_nxt : Z -> A -> A) (nxt_set : forall v a, nxt (set_nxt v a) = v).

(** The map after the pointer to the first node behind [pre] is set to [v]. *)
Definition relink (pre : list Z) (v : Z) (m : gmap Z A) : gmap Z A :=
  match last pre with None => m | Some q => alter (set_nxt v) q m end.

Lemma lseg_remove m p pre e post a :
  lseg m p (pre ++ e :: post) -> m !! e = Some a ->
  lseg (relink pre (nxt a) m) (match pre with [] => nxt a | q :: _ => q end) (pre ++ post).
Proof.
  intros L E. pose proof (lseg_nodup _ _ _ L) as ND. revert p L ND.
  induction pre as [|q pre IH]; intros p L ND.
  - destruct L as (_ & _ & a' & E' & L). by simplify_eq.
  - destruct L as (-> & N & b & Eb & L). apply NoDup_cons in ND as [Hq ND].
    specialize (IH _ L ND). split; [done |]. split; [done |].
    destruct pre as [|q' pre].
    + unfold relink in *. simpl. exists (set_nxt (nxt a) b). rewrite lookup_alter_eq, Eb. split; [done |].
      rewrite nxt_set. eapply lseg_ext; [exact IH |]. intros e' He'. rewrite lookup_alter_ne; [done |].
      intros <-. apply Hq. by right.
    + assert (relink (q :: q' :: pre) (nxt a) m = relink (q' :: pre) (nxt a) m) as -> by done.
      exists b. pose proof L as (-> & _). split; [| exact IH]. unfold relink.
      destruct (last (q' :: pre)) as [z |] eqn:Ez; [| done].
      rewrite lookup_alter_ne; [done |]. intros ->. apply Hq.
      apply (elem_of_app (q' :: pre)). left. by apply last_Some_elem_of.
Qed.

Lemma relink_lookup pre v m e : is_Some (relink pre v m !! e) <-> is_Some (m !! e).
Proof.
  unfold relink. destruct (last pre) as [q |]; [| done].
  destruct (decide (q = e)) as [-> |]; [rewrite lookup_alter_eq, fmap_is_Some | rewrite lookup_alter_ne]; done.
Qed.

Lemma relink_inv pre v m e a :
  relink pre v m !! e = Some a -> exists b, m !! e = Some b /\ (a = b \/ a = set_nxt v b).
Proof.
  unfold relink. destruct (last pre) as [q |]; [| eauto].
  destruct (decide (q = e)) as [-> |]; [rewrite lookup_alter_eq; intros (b & -> & ->)%fmap_Some; eauto |].
  rewrite lookup_alter_ne by done. eauto.
Qed.

End lseg.
