(* ===== verification/Bitmap.v ===== *)
(** * Bitmap: the bitmap routines of src/bitmap.cpp

    The data and every function of the file, in its order of dependence.  The
    theorems are in BitmapOps.v (set, clear, test, count) and BitmapFind.v (the
    searches for runs). *)

From S2P Require Import Prelude.

(** [RTL_BITMAP]: the header and the [ULONG] array its [Buffer] points to.  The
    array may be longer or shorter than the header says. *)
Record RTL_BITMAP := mkBitmap { SizeOfBitMap : Z; Buffer : list Z }.

(** A [PRTL_BITMAP]; [None] is the null pointer. *)
Abbreviation PRTL_BITMAP := (option RTL_BITMAP).

Definition BITS_PER_ARRAY : Z := 32.

(** [ALL_BITS_SET] is an [int] equal to -1; every use compares or stores it as
    a [ULONG]. *)
Definition ALL_BITS_SET : Z := 0xFFFFFFFF.

(** [1 << n] on a 32-bit operand.  The callers pass positions of the whole
    bitmap as [n] too ([RtlTestBit], [RtlSetBit], [RtlClearBit]); the shift
    instructions of x64 and arm64 take the count modulo 32. *)
Definition shl1 (n : Z) : Z := u32 (Z.shiftl 1 (n mod 32)).

(** [element & (1 << n)] as a condition. *)
Definition bit_set (element n : Z) : bool := negb (Z.land element (shl1 n) =? 0).

(** ** The commonly used functions *)

Definition CalculateArrayIndexFromBitNum (bitNumber : Z) : Z := bitNumber / BITS_PER_ARRAY.

Definition CalculateBitPositionInArrayElement (bitNumber arrayIndex : Z) : Z :=
  u32 (bitNumber - arrayIndex * BITS_PER_ARRAY).

Definition CalculateLastBufferIndex (lastBitNum : Z) : Z := lastBitNum / BITS_PER_ARRAY.

Definition ClearArrayElements (buffer : list Z) (startingIndex endIndex : Z) : result (list Z) :=
  mfor_le startingIndex endIndex (fun buffer_index b => array_set b buffer_index 0) buffer.

Definition ClearBitsInRange (bufferElement startingIndex endIndex : Z) : Z :=
  for_le startingIndex endIndex
    (fun bit_num e => Z.land e (u32 (Z.lnot (shl1 bit_num)))) bufferElement.

Definition SetArrayElements (buffer : list Z) (startingIndex endIndex : Z) : result (list Z) :=
  mfor_le startingIndex endIndex
    (fun buffer_index b => array_set b buffer_index ALL_BITS_SET) buffer.

Definition SetBitsInRange (bufferElement startingIndex endIndex : Z) : Z :=
  for_le startingIndex endIndex (fun bit_num e => Z.lor e (shl1 bit_num)) bufferElement.

Definition CalculateBitNumberInBitMap (bufferIndex bitPosition : Z) : Z :=
  u32 (bufferIndex * BITS_PER_ARRAY + bitPosition).

(** [f(BitMapHeader->Buffer[i])] where [f] takes the element by reference. *)
Definition update_element (buffer : list Z) (i : Z) (f : Z -> Z) : result (list Z) :=
  e ← array_get buffer i; array_set buffer i (f e).

(** ** Initialise, set, clear and test *)

Definition RtlInitializeBitMap (BitMapBuffer : list Z) (size : Z) : RTL_BITMAP :=
  mkBitmap size BitMapBuffer.

Definition with_buffer (bm : RTL_BITMAP) (buffer : list Z) : RTL_BITMAP :=
  mkBitmap (SizeOfBitMap bm) buffer.

Definition RtlClearBit (BitMapHeader : PRTL_BITMAP) (BitNumber : Z) : result RTL_BITMAP :=
  bm ← nonnull BitMapHeader "NULL != BitMapHeader";
  _ ← ddkassert (BitNumber <? SizeOfBitMap bm) "BitNumber < BitMapHeader->SizeOfBitMap";
  let array_index := CalculateArrayIndexFromBitNum BitNumber in
  buffer ← update_element (Buffer bm) array_index
             (fun e => ClearBitsInRange e BitNumber BitNumber);
  Ok (with_buffer bm buffer).

Definition RtlSetBit (BitMapHeader : PRTL_BITMAP) (BitNumber : Z) : result RTL_BITMAP :=
  bm ← nonnull BitMapHeader "NULL != BitMapHeader";
  _ ← ddkassert (BitNumber <? SizeOfBitMap bm) "BitNumber < BitMapHeader->SizeOfBitMap";
  let array_index := CalculateArrayIndexFromBitNum BitNumber in
  buffer ← update_element (Buffer bm) array_index
             (fun e => SetBitsInRange e BitNumber BitNumber);
  Ok (with_buffer bm buffer).

Definition RtlTestBit (BitMapHeader : PRTL_BITMAP) (BitNumber : Z) : result bool :=
  bm ← nonnull BitMapHeader "NULL != BitMapHeader";
  _ ← ddkassert (BitNumber <? SizeOfBitMap bm) "BitNumber < BitMapHeader->SizeOfBitMap";
  let array_index := CalculateArrayIndexFromBitNum BitNumber in
  e ← array_get (Buffer bm) array_index;
  Ok (if bit_set e BitNumber then true else false).

Definition RtlClearAllBits (BitMapHeader : PRTL_BITMAP) : result RTL_BITMAP :=
  bm ← nonnull BitMapHeader "NULL != BitMapHeader";
  let last_buffer_index := CalculateLastBufferIndex (u32 (SizeOfBitMap bm - 1)) in
  let last_bit_number :=
    CalculateBitPositionInArrayElement (u32 (SizeOfBitMap bm - 1)) last_buffer_index in
  buffer ← (if last_buffer_index >? 0
            then ClearArrayElements (Buffer bm) 0 (last_buffer_index - 1)
            else Ok (Buffer bm));
  buffer ← update_element buffer last_buffer_index
             (fun e => ClearBitsInRange e 0 last_bit_number);
  Ok (with_buffer bm buffer).

Definition RtlSetAllBits (BitMapHeader : PRTL_BITMAP) : result RTL_BITMAP :=
  bm ← nonnull BitMapHeader "NULL != BitMapHeader";
  let last_buffer_index := CalculateLastBufferIndex (u32 (SizeOfBitMap bm - 1)) in
  let last_bit_number :=
    CalculateBitPositionInArrayElement (u32 (SizeOfBitMap bm - 1)) last_buffer_index in
  buffer ← (if last_buffer_index >? 0
            then SetArrayElements (Buffer bm) 0 (last_buffer_index - 1)
            else Ok (Buffer bm));
  buffer ← update_element buffer last_buffer_index
             (fun e => SetBitsInRange e 0 last_bit_number);
  Ok (with_buffer bm buffer).

Definition RtlClearBits (BitMapHeader : PRTL_BITMAP) (StartingIndex NumberToClear : Z)
  : result RTL_BITMAP :=
  bm ← nonnull BitMapHeader "NULL != BitMapHeader";
  _ ← ddkassert (u32 (StartingIndex + NumberToClear) <=? SizeOfBitMap bm)
        "(StartingIndex + NumberToClear) <= BitMapHeader->SizeOfBitMap";
  if negb (0 =? NumberToClear) then
    let start_buffer_index := CalculateArrayIndexFromBitNum StartingIndex in
    let starting_bit_position :=
      CalculateBitPositionInArrayElement StartingIndex start_buffer_index in
    let last_bit := u32 (StartingIndex + NumberToClear - 1) in
    let last_buffer_index := CalculateLastBufferIndex last_bit in
    let last_bit_position := CalculateBitPositionInArrayElement last_bit last_buffer_index in
    if start_buffer_index =? last_buffer_index then
      buffer ← update_element (Buffer bm) last_buffer_index
                 (fun e => ClearBitsInRange e starting_bit_position last_bit_position);
      Ok (with_buffer bm buffer)
    else
      buffer ← update_element (Buffer bm) start_buffer_index
                 (fun e => ClearBitsInRange e starting_bit_position (BITS_PER_ARRAY - 1));
      buffer ← ClearArrayElements buffer (start_buffer_index + 1) (u32 (last_buffer_index - 1));
      buffer ← update_element buffer last_buffer_index
                 (fun e => ClearBitsInRange e 0 last_bit_position);
      Ok (with_buffer bm buffer)
  else Ok bm.

Definition RtlSetBits (BitMapHeader : PRTL_BITMAP) (StartingIndex NumberToSet : Z)
  : result RTL_BITMAP :=
  bm ← nonnull BitMapHeader "NULL != BitMapHeader";
  _ ← ddkassert (u32 (StartingIndex + NumberToSet) <=? SizeOfBitMap bm)
        "(StartingIndex + NumberToSet) <= BitMapHeader->SizeOfBitMap";
  if negb (0 =? NumberToSet) then
    let start_buffer_index := CalculateArrayIndexFromBitNum StartingIndex in
    let starting_bit_position :=
      CalculateBitPositionInArrayElement StartingIndex start_buffer_index in
    let last_bit := u32 (StartingIndex + NumberToSet - 1) in
    let last_buffer_index := CalculateLastBufferIndex last_bit in
    let last_bit_position := CalculateBitPositionInArrayElement last_bit last_buffer_index in
    if start_buffer_index =? last_buffer_index then
      buffer ← update_element (Buffer bm) last_buffer_index
                 (fun e => SetBitsInRange e starting_bit_position last_bit_position);
      Ok (with_buffer bm buffer)
    else
      buffer ← update_element (Buffer bm) start_buffer_index
                 (fun e => SetBitsInRange e starting_bit_position (BITS_PER_ARRAY - 1));
      buffer ← SetArrayElements buffer (start_buffer_index + 1) (u32 (last_buffer_index - 1));
      buffer ← update_element buffer last_buffer_index
                 (fun e => SetBitsInRange e 0 last_bit_position);
      Ok (with_buffer bm buffer)
  else Ok bm.

(** ** Are all the bits of a range clear, or set *)

Definition RtlAreBitsClear (BitMapHeader : PRTL_BITMAP) (StartingIndex Length : Z)
  : result bool :=
  bm ← nonnull BitMapHeader "NULL != BitMapHeader";
  if (0 =? Length) || (SizeOfBitMap bm <? u32 (StartingIndex + Length)) then Ok false
  else
    let start_buffer_index := CalculateArrayIndexFromBitNum StartingIndex in
    let start_bit_number := CalculateBitPositionInArrayElement StartingIndex start_buffer_index in
    let last_buffer_index := CalculateArrayIndexFromBitNum (u32 (StartingIndex + Length - 1)) in
    let last_bit_number :=
      CalculateBitPositionInArrayElement (u32 (StartingIndex + Length - 1)) last_buffer_index in
    if start_buffer_index =? last_buffer_index then
      x ← rfor_le start_bit_number last_bit_number (fun bit_num bits_checked =>
            if Length >? bits_checked then
              e ← array_get (Buffer bm) last_buffer_index;
              if bit_set e bit_num then Ok (inr false) else Ok (inl (u32 (bits_checked + 1)))
            else Ok (inl bits_checked)) 0;
      match x with inr r => Ok r | inl _ => Ok true end
    else
      (* Search the start buffer element. *)
      x ← rfor_le start_bit_number (BITS_PER_ARRAY - 1) (fun bit_num bits_checked =>
            if Length >? bits_checked then
              e ← array_get (Buffer bm) start_buffer_index;
              if bit_set e bit_num then Ok (inr false) else Ok (inl (u32 (bits_checked + 1)))
            else Ok (inr true)) 0;
      match x with inr r => Ok r | inl bits_checked =>
      (* Search the buffer elements between start and last buffers. *)
      x ← rfor_le (start_buffer_index + 1) (last_buffer_index - 1) (fun buffer_num bits_checked =>
            if Length >? bits_checked then
              e ← array_get (Buffer bm) buffer_num;
              if negb (0 =? e) then Ok (inr false)
              else Ok (inl (u32 (bits_checked + BITS_PER_ARRAY)))
            else Ok (inr true)) bits_checked;
      match x with inr r => Ok r | inl bits_checked =>
      (* Search the last buffer element. *)
      x ← rfor_le 0 last_bit_number (fun bit_num bits_checked =>
            if Length >? bits_checked then
              e ← array_get (Buffer bm) last_buffer_index;
              if bit_set e bit_num then Ok (inr false) else Ok (inl (u32 (bits_checked + 1)))
            else Ok (inl bits_checked)) bits_checked;
      match x with inr r => Ok r | inl _ => Ok true end end end.

Definition RtlAreBitsSet (BitMapHeader : PRTL_BITMAP) (StartingIndex Length : Z)
  : result bool :=
  bm ← nonnull BitMapHeader "NULL != BitMapHeader";
  if (0 =? Length) || (SizeOfBitMap bm <? u32 (StartingIndex + Length)) then Ok false
  else
    let start_buffer_index := CalculateArrayIndexFromBitNum StartingIndex in
    let start_bit_number := CalculateBitPositionInArrayElement StartingIndex start_buffer_index in
    let last_buffer_index := CalculateArrayIndexFromBitNum (u32 (StartingIndex + Length - 1)) in
    let last_bit_number :=
      CalculateBitPositionInArrayElement (u32 (StartingIndex + Length - 1)) last_buffer_index in
    if start_buffer_index =? last_buffer_index then
      x ← rfor_le start_bit_number last_bit_number (fun bit_num bits_checked =>
            if Length >? bits_checked then
              e ← array_get (Buffer bm) last_buffer_index;
              if negb (bit_set e bit_num) then Ok (inr false)
              else Ok (inl (u32 (bits_checked + 1)))
            else Ok (inl bits_checked)) 0;
      match x with inr r => Ok r | inl _ => Ok true end
    else
      (* Search the start buffer element. *)
      x ← rfor_le start_bit_number (BITS_PER_ARRAY - 1) (fun bit_num bits_checked =>
            if Length >? bits_checked then
              e ← array_get (Buffer bm) start_buffer_index;
              if negb (bit_set e bit_num) then Ok (inr false)
              else Ok (inl (u32 (bits_checked + 1)))
            else Ok (inr true)) 0;
      match x with inr r => Ok r | inl bits_checked =>
      (* Search the buffer elements between start and last buffers. *)
      x ← rfor_le (start_buffer_index + 1) (last_buffer_index - 1) (fun buffer_num bits_checked =>
            if Length >? bits_checked then
              e ← array_get (Buffer bm) buffer_num;
              if negb (ALL_BITS_SET =? e) then Ok (inr false)
              else Ok (inl (u32 (bits_checked + BITS_PER_ARRAY)))
            else Ok (inr true)) bits_checked;
      match x with inr r => Ok r | inl bits_checked =>
      (* Search the last buffer element. *)
      x ← rfor_le 0 last_bit_number (fun bit_num bits_checked =>
            if Length >? bits_checked then
              e ← array_get (Buffer bm) last_buffer_index;
              if negb (bit_set e bit_num) then Ok (inr false)
              else Ok (inl (u32 (bits_checked + 1)))
            else Ok (inl bits_checked)) bits_checked;
      match x with inr r => Ok r | inl _ => Ok true end end end.

(** ** Count the set bits *)

(** The inner loop of [RtlNumberOfSetBits] over bits 0 to [last] of an element. *)
Definition count_element (element last number_of_set_bits : Z) : Z :=
  for_le 0 last
    (fun bit_num n => if bit_set element bit_num then u32 (n + 1) else n) number_of_set_bits.

Definition RtlNumberOfSetBits (BitMapHeader : PRTL_BITMAP) : result Z :=
  bm ← nonnull BitMapHeader "NULL != BitMapHeader";
  let last_buffer_index := CalculateLastBufferIndex (u32 (SizeOfBitMap bm - 1)) in
  let last_bit_position :=
    CalculateBitPositionInArrayElement (u32 (SizeOfBitMap bm - 1)) last_buffer_index in
  (* Check all buffer elements up to the last element *)
  number_of_set_bits ←
    mfor_le 0 (last_buffer_index - 1) (fun buffer_index n =>
      e ← array_get (Buffer bm) buffer_index;
      Ok (if ALL_BITS_SET =? e then u32 (n + BITS_PER_ARRAY)
          else count_element e (BITS_PER_ARRAY - 1) n)) 0;
  (* Check last buffer element *)
  e ← array_get (Buffer bm) last_buffer_index;
  Ok (count_element e last_bit_position number_of_set_bits).

(** ** Runs of clear or set bits *)

(** The variables the searches pass by reference: [run_started], [run_ended],
    [start_bit] and [run_count]. *)
Record run := mkRun { runStarted : bool; runEnded : bool; startBit : Z; runCount : Z }.

Definition CountClearRun (bufferElement bufferIndex startBitPosition lastBitPosition : Z)
    (r : run) : run :=
  (* all zeros and a run has not started: the run starts at the start position *)
  if (0 =? bufferElement) && negb (runStarted r) then
    mkRun true false (CalculateBitNumberInBitMap bufferIndex startBitPosition)
      (u32 (lastBitPosition - startBitPosition + 1))
  (* all zeros and the run has started: add 32 to the run count *)
  else if (0 =? bufferElement) && runStarted r then
    mkRun (runStarted r) (runEnded r) (startBit r) (u32 (runCount r + BITS_PER_ARRAY))
  (* not all zeros: search for the start and end of the run *)
  else
    fst (bfor_le startBitPosition lastBitPosition (fun bit_position r =>
      if negb (bit_set bufferElement bit_position) then
        let start := if negb (runStarted r)
                     then CalculateBitNumberInBitMap bufferIndex bit_position
                     else startBit r in
        (mkRun true (runEnded r) start (u32 (runCount r + 1)), false)
      else if bit_set bufferElement bit_position && runStarted r then
        (mkRun (runStarted r) true (startBit r) (runCount r), true)
      else (r, false)) r).

Definition NumClearBitsFound (bufferElement bufferIndex numToFind
    startBitPosition endBitPosition : Z) (r : run) : run * bool :=
  if (0 =? bufferElement) && negb (runStarted r) then
    let count := u32 (runCount r + (endBitPosition - startBitPosition + 1)) in
    (mkRun true (runEnded r) (CalculateBitNumberInBitMap bufferIndex startBitPosition) count,
     count >=? numToFind)
  else if (0 =? bufferElement) && runStarted r then
    let count := u32 (runCount r + BITS_PER_ARRAY) in
    (mkRun (runStarted r) (runEnded r) (startBit r) count, count >=? numToFind)
  else
    bfor_le startBitPosition endBitPosition (fun bit_num r =>
      if negb (bit_set bufferElement bit_num) then
        let start := if negb (runStarted r)
                     then CalculateBitNumberInBitMap bufferIndex bit_num
                     else startBit r in
        let count := u32 (runCount r + 1) in
        (mkRun true (runEnded r) start count, count >=? numToFind)
      else (mkRun false (runEnded r) (startBit r) 0, false)) r.

Definition NumSetBitsFound (bufferElement bufferIndex numToFind
    startBitPosition endBitPosition : Z) (r : run) : run * bool :=
  if (ALL_BITS_SET =? bufferElement) && negb (runStarted r) then
    let count := u32 (runCount r + (endBitPosition - startBitPosition + 1)) in
    (mkRun true (runEnded r) (CalculateBitNumberInBitMap bufferIndex startBitPosition) count,
     count >=? numToFind)
  else if (ALL_BITS_SET =? bufferElement) && runStarted r then
    let count := u32 (runCount r + BITS_PER_ARRAY) in
    (mkRun (runStarted r) (runEnded r) (startBit r) count, count >=? numToFind)
  else
    bfor_le startBitPosition endBitPosition (fun bit_position r =>
      if bit_set bufferElement bit_position then
        let start := if negb (runStarted r)
                     then CalculateBitNumberInBitMap bufferIndex bit_position
                     else startBit r in
        let count := u32 (runCount r + 1) in
        (mkRun true (runEnded r) start count, count >=? numToFind)
      else (mkRun false (runEnded r) (startBit r) 0, false)) r.

(** [StartingRunIndex] is the variable the output pointer points to; returns
    [run_count] and the value stored there. *)
Definition RtlFindNextForwardRunClear (BitMapHeader : PRTL_BITMAP) (FromIndex : Z)
    (StartingRunIndex : option Z) : result (Z * Z) :=
  bm ← nonnull BitMapHeader "NULL != BitMapHeader";
  _ ← ddkassert (FromIndex <? SizeOfBitMap bm) "FromIndex < BitMapHeader->SizeOfBitMap";
  _ ← nonnull StartingRunIndex "NULL != StartingRunIndex";
  let start_buffer_index := CalculateArrayIndexFromBitNum FromIndex in
  let start_bit_position := CalculateBitPositionInArrayElement FromIndex start_buffer_index in
  let last_buffer_index := CalculateLastBufferIndex (u32 (SizeOfBitMap bm - 1)) in
  let last_bit_position :=
    CalculateBitPositionInArrayElement (u32 (SizeOfBitMap bm - 1)) last_buffer_index in
  let r := mkRun false false 0 0 in
  if start_buffer_index =? last_buffer_index then
    e ← array_get (Buffer bm) start_buffer_index;
    let r := CountClearRun e start_buffer_index start_bit_position last_bit_position r in
    Ok (runCount r, startBit r)
  else
    (* Search the first buffer element *)
    e ← array_get (Buffer bm) start_buffer_index;
    let r := CountClearRun e start_buffer_index start_bit_position (BITS_PER_ARRAY - 1) r in
    if runEnded r then Ok (runCount r, startBit r) else
    (* Search buffer elements between the start and last buffers *)
    x ← rfor_le (start_buffer_index + 1) (last_buffer_index - 1) (fun buffer_index r =>
          e ← array_get (Buffer bm) buffer_index;
          let r := CountClearRun e buffer_index 0 (BITS_PER_ARRAY - 1) r in
          if runEnded r then Ok (inr (runCount r, startBit r)) else Ok (inl r)) r;
    match x with inr v => Ok v | inl r =>
    (* Search the last buffer element *)
    e ← array_get (Buffer bm) last_buffer_index;
    let r := CountClearRun e last_buffer_index 0 last_bit_position r in
    Ok (runCount r, startBit r)
    end.

Definition RtlFindFirstRunClear (BitMapHeader : PRTL_BITMAP) (StartingRunIndex : option Z)
  : result (Z * Z) :=
  RtlFindNextForwardRunClear BitMapHeader 0 StartingRunIndex.

(** One turn of the [while] loop of [RtlFindClearBits] and [RtlFindSetBits],
    whose text differs only in the function [NumBitsFound] it calls: search from
    the start position to the end of the bitmap. *)
Definition find_pass (NumBitsFound : Z -> Z -> Z -> Z -> Z -> run -> run * bool)
    (buffer : list Z) (NumberToFind start_buffer_index start_bit_position
     last_buffer_index last_bit_position : Z) (r : run) : result (run * bool) :=
  if start_buffer_index =? last_buffer_index then
    e ← array_get buffer start_buffer_index;
    Ok (NumBitsFound e start_buffer_index NumberToFind start_bit_position last_bit_position r)
  else
    (* Search through the start buffer element. *)
    e ← array_get buffer start_buffer_index;
    match NumBitsFound e start_buffer_index NumberToFind
            start_bit_position (BITS_PER_ARRAY - 1) r with
    | (r, true) => Ok (r, true)
    | (r, false) =>
      (* Check all the buffer elements between start and last. *)
      x ← rfor_le (start_buffer_index + 1) (last_buffer_index - 1) (fun buffer_index r =>
            e ← array_get buffer buffer_index;
            match NumBitsFound e buffer_index NumberToFind 0 (BITS_PER_ARRAY - 1) r with
            | (r, true) => Ok (inr r)
            | (r, false) => Ok (inl r)
            end) r;
      match x with
      | inr r => Ok (r, true)
      | inl r =>
        (* Search through the last buffer *)
        e ← array_get buffer last_buffer_index;
        Ok (NumBitsFound e last_buffer_index NumberToFind 0 last_bit_position r)
      end
    end.

(** The [while (0 != loop_count)] loop: a found run returns its [start_bit]; a
    failed turn resets the variables and goes round from bit 0. *)
Fixpoint find_loop (NumBitsFound : Z -> Z -> Z -> Z -> Z -> run -> run * bool)
    (buffer : list Z) (NumberToFind last_buffer_index last_bit_position : Z)
    (loop_count : nat) (start_buffer_index start_bit_position : Z) (r : run) : result Z :=
  match loop_count with
  | O => Ok ALL_BITS_SET
  | S loop_count =>
      x ← find_pass NumBitsFound buffer NumberToFind start_buffer_index start_bit_position
            last_buffer_index last_bit_position r;
      match x with
      | (r, true) => Ok (startBit r)
      | (r, false) =>
          find_loop NumBitsFound buffer NumberToFind last_buffer_index last_bit_position
            loop_count 0 0 (mkRun false (runEnded r) (startBit r) 0)
      end
  end.

Definition RtlFindClearBits (BitMapHeader : PRTL_BITMAP) (NumberToFind HintIndex : Z)
  : result Z :=
  bm ← nonnull BitMapHeader "NULL != BitMapHeader";
  if NumberToFind <? SizeOfBitMap bm then
    let start_buffer_index := CalculateArrayIndexFromBitNum HintIndex in
    let start_bit_position := CalculateBitPositionInArrayElement HintIndex start_buffer_index in
    let last_buffer_index := CalculateLastBufferIndex (u32 (SizeOfBitMap bm - 1)) in
    let last_bit_position :=
      CalculateBitPositionInArrayElement (u32 (SizeOfBitMap bm - 1)) last_buffer_index in
    let num_bits_to_check := u32 (SizeOfBitMap bm - HintIndex) in
    let r := mkRun false false ALL_BITS_SET 0 in
    if (NumberToFind >? num_bits_to_check) || (SizeOfBitMap bm <=? HintIndex) then
      find_loop NumClearBitsFound (Buffer bm) NumberToFind
        last_buffer_index last_bit_position 1 0 0 r
    else
      find_loop NumClearBitsFound (Buffer bm) NumberToFind
        last_buffer_index last_bit_position 2 start_buffer_index start_bit_position r
  else Ok ALL_BITS_SET.

Definition RtlFindSetBits (BitMapHeader : PRTL_BITMAP) (NumberToFind HintIndex : Z)
  : result Z :=
  bm ← nonnull BitMapHeader "NULL != BitMapHeader";
  if NumberToFind <? SizeOfBitMap bm then
    let start_buffer_index := CalculateArrayIndexFromBitNum HintIndex in
    let start_bit_position := CalculateBitPositionInArrayElement HintIndex start_buffer_index in
    let last_buffer_index := CalculateLastBufferIndex (u32 (SizeOfBitMap bm - 1)) in
    let last_bit_position :=
      CalculateBitPositionInArrayElement (u32 (SizeOfBitMap bm - 1)) last_buffer_index in
    let num_bits_to_check := u32 (SizeOfBitMap bm - HintIndex) in
    let r := mkRun false false ALL_BITS_SET 0 in
    if (NumberToFind >? num_bits_to_check) || (SizeOfBitMap bm <=? HintIndex) then
      find_loop NumSetBitsFound (Buffer bm) NumberToFind
        last_buffer_index last_bit_position 1 0 0 r
    else
      find_loop NumSetBitsFound (Buffer bm) NumberToFind
        last_buffer_index last_bit_position 2 start_buffer_index start_bit_position r
  else Ok ALL_BITS_SET.

(** The two compound operations return the start index and the bitmap. *)
Definition RtlFindClearBitsAndSet (BitMapHeader : PRTL_BITMAP) (NumberToFind HintIndex : Z)
  : result (Z * PRTL_BITMAP) :=
  startBitIndex ← RtlFindClearBits BitMapHeader NumberToFind HintIndex;
  if negb (startBitIndex =? ALL_BITS_SET) then
    bm ← RtlSetBits BitMapHeader startBitIndex NumberToFind;
    Ok (startBitIndex, Some bm)
  else Ok (startBitIndex, BitMapHeader).

Definition RtlFindSetBitsAndClear (BitMapHeader : PRTL_BITMAP) (NumberToFind HintIndex : Z)
  : result (Z * PRTL_BITMAP) :=
  startBitIndex ← RtlFindSetBits BitMapHeader NumberToFind HintIndex;
  if negb (startBitIndex =? ALL_BITS_SET) then
    bm ← RtlClearBits BitMapHeader startBitIndex NumberToFind;
    Ok (startBitIndex, Some bm)
  else Ok (startBitIndex, BitMapHeader).
