(* ===== verification/BitmapOps.v ===== *)
(** * BitmapOps: what the set, clear, test and count operations do

    The abstract view of a bitmap is its bit function [bit_of]; an operation is
    specified by the set of positions it writes and the value it writes there
    ([writes]), and the word-level code is shown to implement that. *)

From S2P Require Import Prelude Bitmap.

(** ** The abstract view *)

Definition wf_word (e : Z) : Prop := 0 <= e < 2 ^ 32.

Definition bit_of (b : list Z) (i : Z) : bool :=
  Z.testbit (default 0 (b !! Z.to_nat (i / 32))) (i mod 32).

(** The header fits the buffer and the buffer holds [ULONG]s. *)
Definition bm_wf (bm : RTL_BITMAP) : Prop :=
  0 < SizeOfBitMap bm < 2 ^ 32 /\
  SizeOfBitMap bm <= 32 * Z.of_nat (length (Buffer bm)) /\
  Forall wf_word (Buffer bm).

Definition bm_bit (bm : RTL_BITMAP) : Z -> bool := bit_of (Buffer bm).

(** [b'] is [b] with value [v] written at the positions [P]. *)
Definition writes (P : Z -> bool) (v : bool) (b b' : list Z) : Prop :=
  length b' = length b /\ Forall wf_word b' /\
  forall i, 0 <= i < 32 * Z.of_nat (length b) ->
    bit_of b' i = if P i then v else bit_of b i.

(** ** Bits of an element *)

Lemma shl1_bit n k : 0 <= k < 32 -> Z.testbit (shl1 n) k = (k =? n mod 32).
Proof.
  intros Hk. unfold shl1. rewrite testbit_u32 by lia.
  pose proof (Z.mod_pos_bound n 32). rewrite Z.shiftl_1_l, Z.pow2_bits_eqb by lia.
  apply Z.eqb_sym.
Qed.

Lemma shl1_wf n : wf_word (shl1 n).
Proof. apply u32_range. Qed.

Lemma bit_set_testbit e n : wf_word e -> bit_set e n = Z.testbit e (n mod 32).
Proof.
  intros He. unfold bit_set. pose proof (Z.mod_pos_bound n 32).
  destruct (Z.eqb_spec (Z.land e (shl1 n)) 0) as [H0 | H0]; simpl.
  - apply (f_equal (fun z => Z.testbit z (n mod 32))) in H0.
    rewrite Z.land_spec, Z.testbit_0_l, shl1_bit, Z.eqb_refl, andb_true_r in H0 by lia.
    by rewrite H0.
  - destruct (Z.testbit e (n mod 32)) eqn:E; [done | exfalso; apply H0].
    apply Z.bits_inj'. intros k Hk. rewrite Z.land_spec, Z.testbit_0_l.
    destruct (Z.lt_ge_cases k 32).
    + rewrite shl1_bit by lia. destruct (Z.eqb_spec k (n mod 32)); [by subst; rewrite E |].
      apply andb_false_r.
    + by rewrite (testbit_above 32 e) by (auto; lia).
Qed.

Lemma wf_word_lor a b : wf_word a -> wf_word b -> wf_word (Z.lor a b).
Proof.
  intros Ha Hb. split; [apply Z.lor_nonneg; split; [apply Ha | apply Hb] |].
  apply bits_range; [lia | apply Z.lor_nonneg; split; [apply Ha | apply Hb] |].
  intros k Hk. rewrite Z.lor_spec, !(testbit_above 32) by (auto; lia). done.
Qed.

Lemma wf_word_land a b : wf_word a -> wf_word b -> wf_word (Z.land a b).
Proof.
  intros Ha Hb. assert (0 <= Z.land a b) by (apply Z.land_nonneg; left; apply Ha).
  split; [done |]. apply bits_range; [lia | done |].
  intros k Hk. rewrite Z.land_spec, (testbit_above 32 a) by (auto; lia). done.
Qed.

#[export] Hint Resolve shl1_wf wf_word_lor wf_word_land : word.

(** ** Functions that write a range of positions of one element *)

Definition element_writes (lo hi : Z) (v : bool) (f : Z -> Z) : Prop :=
  forall e, wf_word e ->
    wf_word (f e) /\
    forall k, 0 <= k < 32 ->
      Z.testbit (f e) k = if (lo <=? k) && (k <=? hi) then v else Z.testbit e k.

Lemma SetBitsInRange_writes lo hi :
  0 <= lo -> lo <= hi <= 31 -> element_writes lo hi true (fun e => SetBitsInRange e lo hi).
Proof.
  intros Hlo Hhi e He.
  pose (P := fun i a => wf_word a /\ forall k, 0 <= k < 32 ->
    Z.testbit a k = if (lo <=? k) && (k <? i) then true else Z.testbit e k).
  assert (P (lo + Z.of_nat (Z.to_nat (hi - lo + 1))) (SetBitsInRange e lo hi)) as [Hw Hb].
  { unfold SetBitsInRange, for_le. apply iter_inv; unfold P.
    - split; [done |]. intros k Hk. by case_z; simpl; try lia.
    - intros i a Hi [Ha Hb]. split; [auto with word |]. intros k Hk.
      rewrite Z.lor_spec, Hb, shl1_bit, Z.mod_small by lia.
      case_z; simpl; try lia; try done; try apply orb_false_r; apply orb_true_r. }
  split; [done |]. intros k Hk. rewrite Hb by lia. case_z; simpl; lia || done.
Qed.

Lemma ClearBitsInRange_writes lo hi :
  0 <= lo -> lo <= hi <= 31 -> element_writes lo hi false (fun e => ClearBitsInRange e lo hi).
Proof.
  intros Hlo Hhi e He.
  pose (P := fun i a => wf_word a /\ forall k, 0 <= k < 32 ->
    Z.testbit a k = if (lo <=? k) && (k <? i) then false else Z.testbit e k).
  assert (P (lo + Z.of_nat (Z.to_nat (hi - lo + 1))) (ClearBitsInRange e lo hi)) as [Hw Hb].
  { unfold ClearBitsInRange, for_le. apply iter_inv; unfold P.
    - split; [done |]. intros k Hk. by case_z; simpl; try lia.
    - intros i a Hi [Ha Hb]. split; [apply wf_word_land; [done | apply u32_range] |].
      intros k Hk. rewrite Z.land_spec, Hb, testbit_u32, Z.lnot_spec, shl1_bit, Z.mod_small by lia.
      case_z; simpl; try lia; try done; try apply andb_true_r; apply andb_false_r. }
  split; [done |]. intros k Hk. rewrite Hb by lia. case_z; simpl; lia || done.
Qed.

(** The one-bit calls pass a position of the whole bitmap. *)
Lemma SetBitsInRange_one n :
  element_writes (n mod 32) (n mod 32) true (fun e => SetBitsInRange e n n).
Proof.
  intros e He. unfold SetBitsInRange, for_le. replace (n - n + 1) with 1 by lia. simpl.
  split; [auto with word |]. intros k Hk. rewrite Z.lor_spec, shl1_bit by lia.
  case_z; simpl; try lia; auto using orb_true_r, orb_false_r.
Qed.

Lemma ClearBitsInRange_one n :
  element_writes (n mod 32) (n mod 32) false (fun e => ClearBitsInRange e n n).
Proof.
  intros e He. unfold ClearBitsInRange, for_le. replace (n - n + 1) with 1 by lia. simpl.
  split; [apply wf_word_land; [done | apply u32_range] |]. intros k Hk.
  rewrite Z.land_spec, testbit_u32, Z.lnot_spec, shl1_bit by lia.
  case_z; simpl; try lia; auto using andb_true_r, andb_false_r.
Qed.

(** ** Writes to the buffer *)

Lemma bit_of_insert b j w i :
  0 <= j < Z.of_nat (length b) -> 0 <= i ->
  bit_of (<[Z.to_nat j := w]> b) i =
    if i / 32 =? j then Z.testbit w (i mod 32) else bit_of b i.
Proof.
  intros Hj Hi. unfold bit_of. pose proof (Z.div_pos i 32 Hi).
  destruct (Z.eqb_spec (i / 32) j) as [<- | Hne].
  - rewrite list_lookup_insert_eq by lia. done.
  - rewrite list_lookup_insert_ne by lia. done.
Qed.

Lemma writes_refl b v : Forall wf_word b -> writes (fun _ => false) v b b.
Proof. by intros; repeat split. Qed.

Lemma writes_trans P Q v b b1 b2 :
  writes P v b b1 -> writes Q v b1 b2 -> writes (fun i => P i || Q i) v b b2.
Proof.
  intros (L1 & W1 & B1) (L2 & W2 & B2). split; [congruence |]. split; [done |].
  intros i Hi. rewrite B2, B1 by lia. destruct (P i), (Q i); done.
Qed.

Lemma writes_ext P Q v b b' :
  (forall i, 0 <= i < 32 * Z.of_nat (length b) -> P i = Q i) ->
  writes P v b b' -> writes Q v b b'.
Proof.
  intros E (L & W & B). split; [done |]. split; [done |]. intros i Hi. by rewrite B, E.
Qed.

Lemma update_element_writes lo hi v f b j :
  0 <= lo -> hi <= 31 -> element_writes lo hi v f ->
  Forall wf_word b -> 0 <= j < Z.of_nat (length b) ->
  exists b', update_element b j f = Ok b' /\
    writes (fun i => (32 * j + lo <=? i) && (i <=? 32 * j + hi)) v b b'.
Proof.
  intros Hlo Hhi Hf Hb Hj. unfold update_element.
  destruct (array_get_ok b j Hj) as (e & He & Hl). rewrite He. simpl.
  rewrite array_set_ok by done. eexists. split; [done |].
  assert (wf_word e) as Hwe by (eapply Forall_lookup_1; eauto).
  destruct (Hf e Hwe) as [Hw Ht].
  split; [apply length_insert |]. split; [by apply Forall_insert |].
  intros i Hi. rewrite bit_of_insert by lia.
  pose proof (Z.mod_pos_bound i 32). pose proof (Z.div_mod i 32).
  destruct (Z.eqb_spec (i / 32) j) as [Hij | Hne].
  - rewrite Ht by lia. unfold bit_of. rewrite Hij, Hl. simpl.
    case_z; simpl; lia || done.
  - case_z; simpl; lia || done.
Qed.

(** A loop storing the same word over elements [lo] to [hi]. *)
Lemma store_elements_writes w v b lo hi :
  (wf_word w /\ forall k, 0 <= k < 32 -> Z.testbit w k = v) ->
  Forall wf_word b -> 0 <= lo -> hi < Z.of_nat (length b) ->
  exists b', mfor_le lo hi (fun i b => array_set b i w) b = Ok b' /\
    writes (fun i => (32 * lo <=? i) && (i <? 32 * (hi + 1))) v b b'.
Proof.
  intros [Hw Hv] Hb Hlo Hhi. unfold mfor_le.
  destruct (miter_inv (fun j b' => writes (fun i => (32 * lo <=? i) && (i <? 32 * j)) v b b')
    (fun i b => array_set b i w) (Z.to_nat (hi - lo + 1)) lo b) as (b' & E & H).
  - eapply writes_ext; [| by apply writes_refl]. intros i Hi. by case_z; simpl; lia || done.
  - intros j b1 Hj W. pose proof W as (L & Wf & B).
    rewrite array_set_ok by lia. eexists. split; [done |].
    split; [rewrite length_insert; done |]. split; [by apply Forall_insert |].
    intros i Hi. rewrite bit_of_insert by lia.
    pose proof (Z.mod_pos_bound i 32). pose proof (Z.div_mod i 32).
    destruct (Z.eqb_spec (i / 32) j).
    + rewrite Hv by lia. case_z; simpl; lia || done.
    + rewrite B by lia. case_z; simpl; lia || done.
  - exists b'. split; [done |]. eapply writes_ext; [| exact H].
    intros i Hi. simpl. case_z; simpl; lia || done.
Qed.

Lemma ones_word : wf_word ALL_BITS_SET /\ forall k, 0 <= k < 32 -> Z.testbit ALL_BITS_SET k = true.
Proof.
  split; [split; vm_compute; congruence |]. intros k Hk.
  change ALL_BITS_SET with (Z.ones 32). apply Z.ones_spec_low; lia.
Qed.

Lemma zero_word : wf_word 0 /\ forall k, 0 <= k < 32 -> Z.testbit 0 k = false.
Proof. split; [split; lia |]. intros. apply Z.testbit_0_l. Qed.

(** ** The range operations

    The code of [RtlSetBits] and [RtlClearBits] (and of the [All] variants) is
    the same up to the two helpers; the write lemma is proved once, for any pair
    of helpers that write the value [v]. *)
Section range.
Context (v : bool) (inrange : Z -> Z -> Z -> Z) (elements : list Z -> Z -> Z -> result (list Z)).
Context (Hrange : forall lo hi, 0 <= lo -> lo <= hi <= 31 ->
  element_writes lo hi v (fun e => inrange e lo hi)).
Context (Helems : forall b lo hi, Forall wf_word b -> 0 <= lo -> hi < Z.of_nat (length b) ->
  exists b', elements b lo hi = Ok b' /\
    writes (fun i => (32 * lo <=? i) && (i <? 32 * (hi + 1))) v b b').

Definition write_range (b : list Z) (first last : Z) : result (list Z) :=
  let sb := first / 32 in
  let lb := last / 32 in
  if sb =? lb then update_element b lb (fun e => inrange e (u32 (first - sb * 32)) (u32 (last - lb * 32)))
  else
    b ← update_element b sb (fun e => inrange e (u32 (first - sb * 32)) 31);
    b ← elements b (sb + 1) (u32 (lb - 1));
    update_element b lb (fun e => inrange e 0 (u32 (last - lb * 32))).

Lemma write_range_ok b first last :
  Forall wf_word b -> 0 <= first <= last -> last < 32 * Z.of_nat (length b) -> last < 2 ^ 32 ->
  exists b', write_range b first last = Ok b' /\
    writes (fun i => (first <=? i) && (i <=? last)) v b b'.
Proof.
  intros Hb Hfl Hl Hl32. unfold write_range.
  pose proof (Z.mod_pos_bound first 32). pose proof (Z.mod_pos_bound last 32).
  pose proof (Z.div_mod first 32). pose proof (Z.div_mod last 32).
  pose proof (Z.div_le_mono first last 32). pose proof (Z.div_pos first 32).
  rewrite !u32_id by lia.
  destruct (Z.eqb_spec (first / 32) (last / 32)) as [E | E].
  - destruct (update_element_writes (first - first / 32 * 32) (last - last / 32 * 32) v
      (fun e => inrange e (first - first / 32 * 32) (last - last / 32 * 32)) b (last / 32))
      as (b' & E' & W); [lia | lia | apply Hrange; lia | done | lia |].
    exists b'. split; [done |]. eapply writes_ext; [| exact W].
    intros i Hi. simpl. case_z; simpl; lia || done.
  - destruct (update_element_writes (first - first / 32 * 32) 31 v
      (fun e => inrange e (first - first / 32 * 32) 31) b (first / 32))
      as (b1 & -> & W1); [lia | lia | apply Hrange; lia | done | lia |].
    pose proof W1 as (L1 & Wf1 & B1). simpl. rewrite u32_id by lia.
    destruct (Helems b1 (first / 32 + 1) (last / 32 - 1)) as (b2 & -> & W2); [done | lia | lia |].
    pose proof W2 as (L2 & Wf2 & B2). simpl.
    destruct (update_element_writes 0 (last - last / 32 * 32) v
      (fun e => inrange e 0 (last - last / 32 * 32)) b2 (last / 32))
      as (b3 & E3 & W3); [lia | lia | apply Hrange; lia | done | lia |].
    exists b3. split; [done |].
    eapply writes_ext; [| eapply writes_trans; [eapply writes_trans; [exact W1 | exact W2] | exact W3]].
    intros i Hi. simpl. case_z; simpl; lia || done.
Qed.

Definition write_all (b : list Z) (size : Z) : result (list Z) :=
  let lb := u32 (size - 1) / 32 in
  b ← (if lb >? 0 then elements b 0 (lb - 1) else Ok b);
  update_element b lb (fun e => inrange e 0 (u32 (u32 (size - 1) - lb * 32))).

Lemma write_all_ok b size :
  Forall wf_word b -> 0 < size < 2 ^ 32 -> size <= 32 * Z.of_nat (length b) ->
  exists b', write_all b size = Ok b' /\ writes (fun i => i <? size) v b b'.
Proof.
  intros Hb Hs Hl. unfold write_all. rewrite (u32_id (size - 1)) by lia.
  pose proof (Z.mod_pos_bound (size - 1) 32). pose proof (Z.div_mod (size - 1) 32).
  pose proof (Z.div_pos (size - 1) 32). rewrite u32_id by lia.
  set (lb := (size - 1) / 32) in *. rewrite Z.gtb_ltb.
  assert (exists b1, (if 0 <? lb then elements b 0 (lb - 1) else Ok b) = Ok b1 /\
    writes (fun i => (0 <=? i) && (i <? 32 * lb)) v b b1) as (b1 & -> & W1).
  { destruct (Z.ltb_spec 0 lb).
    - destruct (Helems b 0 (lb - 1)) as (b1 & -> & W); [done | lia | lia |].
      exists b1. split; [done |]. eapply writes_ext; [| exact W].
      intros i Hi. simpl. case_z; simpl; lia || done.
    - exists b. split; [done |]. eapply writes_ext; [| by apply writes_refl].
      intros i Hi. simpl. case_z; simpl; lia || done. }
  pose proof W1 as (L1 & Wf1 & B1). simpl.
  destruct (update_element_writes 0 (size - 1 - lb * 32) v
    (fun e => inrange e 0 (size - 1 - lb * 32)) b1 lb)
    as (b2 & E2 & W2); [lia | lia | apply Hrange; lia | done | lia |].
  exists b2. split; [done |]. eapply writes_ext; [| eapply writes_trans; [exact W1 | exact W2]].
  intros i Hi. simpl. case_z; simpl; lia || done.
Qed.
End range.

(** ** Set and clear *)

(** The bitmap [bm'] is [bm] with [v] written at the positions [P]. *)
Definition bm_writes (P : Z -> bool) (v : bool) (bm bm' : RTL_BITMAP) : Prop :=
  SizeOfBitMap bm' = SizeOfBitMap bm /\ bm_wf bm' /\ writes P v (Buffer bm) (Buffer bm').

Lemma bm_writes_with_buffer P v bm b' :
  bm_wf bm -> writes P v (Buffer bm) b' -> bm_writes P v bm (with_buffer bm b').
Proof.
  intros (Hs & Hl & Hw) (L & W & B). split; [done |]. split; [| done].
  split; [done |]. simpl. by rewrite L.
Qed.

Definition set_range := write_range SetBitsInRange SetArrayElements.
Definition clear_range := write_range ClearBitsInRange ClearArrayElements.

Lemma set_range_ok b first last :
  Forall wf_word b -> 0 <= first <= last -> last < 32 * Z.of_nat (length b) -> last < 2 ^ 32 ->
  exists b', set_range b first last = Ok b' /\
    writes (fun i => (first <=? i) && (i <=? last)) true b b'.
Proof.
  apply write_range_ok; [apply SetBitsInRange_writes |].
  intros. by apply store_elements_writes; [apply ones_word | ..].
Qed.

Lemma clear_range_ok b first last :
  Forall wf_word b -> 0 <= first <= last -> last < 32 * Z.of_nat (length b) -> last < 2 ^ 32 ->
  exists b', clear_range b first last = Ok b' /\
    writes (fun i => (first <=? i) && (i <=? last)) false b b'.
Proof.
  apply write_range_ok; [apply ClearBitsInRange_writes |].
  intros. by apply store_elements_writes; [apply zero_word | ..].
Qed.

Lemma RtlSetBits_range bm s n :
  0 <= s -> 0 < n -> s + n <= SizeOfBitMap bm < 2 ^ 32 ->
  RtlSetBits (Some bm) s n = b ← set_range (Buffer bm) s (s + n - 1); Ok (with_buffer bm b).
Proof.
  intros. unfold RtlSetBits, set_range, write_range, CalculateArrayIndexFromBitNum,
    CalculateLastBufferIndex, CalculateBitPositionInArrayElement, BITS_PER_ARRAY.
  rewrite (u32_id (s + n)), (u32_id (s + n - 1)), nonnull_some, bind_ok by lia.
  rewrite ddkassert_true by lia. replace (0 =? n) with false by lia. simpl.
  destruct (s / 32 =? (s + n - 1) / 32); [done |].
  destruct (update_element _ _ _); simpl; [| done]. by destruct (SetArrayElements _ _ _).
Qed.

Lemma RtlClearBits_range bm s n :
  0 <= s -> 0 < n -> s + n <= SizeOfBitMap bm < 2 ^ 32 ->
  RtlClearBits (Some bm) s n = b ← clear_range (Buffer bm) s (s + n - 1); Ok (with_buffer bm b).
Proof.
  intros. unfold RtlClearBits, clear_range, write_range, CalculateArrayIndexFromBitNum,
    CalculateLastBufferIndex, CalculateBitPositionInArrayElement, BITS_PER_ARRAY.
  rewrite (u32_id (s + n)), (u32_id (s + n - 1)), nonnull_some, bind_ok by lia.
  rewrite ddkassert_true by lia. replace (0 =? n) with false by lia. simpl.
  destruct (s / 32 =? (s + n - 1) / 32); [done |].
  destruct (update_element _ _ _); simpl; [| done]. by destruct (ClearArrayElements _ _ _).
Qed.

(** Helper forms, used by the compound operations too. *)
Lemma set_bits_writes bm s n :
  bm_wf bm -> 0 <= s -> 0 <= n -> s + n <= SizeOfBitMap bm ->
  exists bm', RtlSetBits (Some bm) s n = Ok bm' /\
    bm_writes (fun i => (s <=? i) && (i <? s + n)) true bm bm'.
Proof.
  intros Hwf Hs Hn Hle. pose proof Hwf as (H1 & H2 & H3).
  destruct (Z.eq_dec n 0) as [-> | Hn0].
  - exists bm. split.
    + unfold RtlSetBits. simpl. rewrite Z.add_0_r, u32_id by lia.
      destruct (Z.leb_spec s (SizeOfBitMap bm)); [done | lia].
    + split; [done |]. split; [done |]. eapply writes_ext; [| by apply writes_refl].
      intros i Hi. simpl. case_z; simpl; lia || done.
  - rewrite RtlSetBits_range by lia.
    destruct (set_range_ok (Buffer bm) s (s + n - 1)) as (b' & -> & W); [done | lia | lia | lia |].
    eexists. split; [done |]. apply bm_writes_with_buffer; [done |].
    eapply writes_ext; [| exact W]. intros i Hi. simpl. case_z; simpl; lia || done.
Qed.

Lemma clear_bits_writes bm s n :
  bm_wf bm -> 0 <= s -> 0 <= n -> s + n <= SizeOfBitMap bm ->
  exists bm', RtlClearBits (Some bm) s n = Ok bm' /\
    bm_writes (fun i => (s <=? i) && (i <? s + n)) false bm bm'.
Proof.
  intros Hwf Hs Hn Hle. pose proof Hwf as (H1 & H2 & H3).
  destruct (Z.eq_dec n 0) as [-> | Hn0].
  - exists bm. split.
    + unfold RtlClearBits. simpl. rewrite Z.add_0_r, u32_id by lia.
      destruct (Z.leb_spec s (SizeOfBitMap bm)); [done | lia].
    + split; [done |]. split; [done |]. eapply writes_ext; [| by apply writes_refl].
      intros i Hi. simpl. case_z; simpl; lia || done.
  - rewrite RtlClearBits_range by lia.
    destruct (clear_range_ok (Buffer bm) s (s + n - 1)) as (b' & -> & W); [done | lia | lia | lia |].
    eexists. split; [done |]. apply bm_writes_with_buffer; [done |].
    eapply writes_ext; [| exact W]. intros i Hi. simpl. case_z; simpl; lia || done.
Qed.

(** ** Tests of a range *)

(** The shape of [RtlAreBitsClear] and [RtlAreBitsSet]: [bad e n] is the test
    that fails the search at one bit, [badw] the one that fails it at a word. *)
Section are_bits.
Context (v : bool) (bad : Z -> Z -> bool) (badw : Z -> bool).
Context (Hbad : forall e k, wf_word e -> 0 <= k < 32 ->
  bad e k = false <-> Z.testbit e k = v).
Context (Hbadw : forall e, wf_word e ->
  badw e = false <-> forall k, 0 <= k < 32 -> Z.testbit e k = v).

Definition check_bits (els : Z -> Z + bool) (b : list Z) (len j lo hi c : Z)
  : result (Z + bool) :=
  rfor_le lo hi (fun k c =>
    if len >? c then
      e ← array_get b j;
      if bad e k then Ok (inr false) else Ok (inl (u32 (c + 1)))
    else Ok (els c)) c.

Definition check_words (b : list Z) (len lo hi c : Z) : result (Z + bool) :=
  rfor_le lo hi (fun j c =>
    if len >? c then
      e ← array_get b j;
      if badw e then Ok (inr false) else Ok (inl (u32 (c + BITS_PER_ARRAY)))
    else Ok (inr true)) c.

Lemma bit_of_element b j e k :
  b !! Z.to_nat j = Some e -> 0 <= j -> 0 <= k < 32 -> bit_of b (32 * j + k) = Z.testbit e k.
Proof.
  intros Hl Hj Hk. unfold bit_of.
  replace ((32 * j + k) / 32) with j by (Z.div_mod_to_equations; lia).
  replace ((32 * j + k) mod 32) with k by (Z.div_mod_to_equations; lia).
  by rewrite Hl.
Qed.

Lemma check_bits_ok els b len j lo hi c :
  Forall wf_word b -> 0 <= j < Z.of_nat (length b) -> 0 <= lo -> lo <= hi + 1 -> hi <= 31 ->
  0 <= c -> c + (hi - lo + 1) <= len < 2 ^ 32 ->
  (check_bits els b len j lo hi c = Ok (inl (c + (hi - lo + 1))) /\
    forall i, 32 * j + lo <= i <= 32 * j + hi -> bit_of b i = v) \/
  (check_bits els b len j lo hi c = Ok (inr false) /\
    exists i, 32 * j + lo <= i <= 32 * j + hi /\ bit_of b i <> v).
Proof.
  intros Hb Hj Hlo Hlh Hhi Hc Hlen.
  destruct (array_get_ok b j Hj) as (e & He & Hl).
  assert (wf_word e) as Hwe by (eapply Forall_lookup_1; eauto).
  unfold check_bits, rfor_le.
  destruct (riter_inv
    (fun k c' => c' = c + (k - lo) /\ forall i, 32 * j + lo <= i < 32 * j + k -> bit_of b i = v)
    (fun k r => r = false /\ bit_of b (32 * j + k) <> v)
    (fun k c => if len >? c then
      e ← array_get b j;
      if bad e k then Ok (inr false) else Ok (inl (u32 (c + 1)))
    else Ok (els c)) (Z.to_nat (hi - lo + 1)) lo c)
    as [(a & -> & -> & Hall) | (k & r & -> & Hk & -> & Hne)].
  - split; [lia |]. intros; lia.
  - intros k c' Hk [-> Hall]. rewrite Z.gtb_ltb.
    replace (c + (k - lo) <? len) with true by lia. rewrite He, bind_ok.
    destruct (bad e k) eqn:Eb.
    + right. exists false. split; [done |]. split; [done |].
      rewrite (bit_of_element b j e k) by (auto; lia).
      intros Ht. apply Hbad in Ht; [congruence | done | lia].
    + left. eexists. split; [done |]. rewrite u32_id by lia. split; [lia |].
      intros i Hi. destruct (Z.eq_dec i (32 * j + k)) as [-> | Hne].
      * rewrite (bit_of_element b j e k) by (auto; lia). apply Hbad; auto; lia.
      * apply Hall. lia.
  - left. split; [do 3 f_equal; lia |]. intros i Hi. apply Hall. lia.
  - right. split; [done |]. exists (32 * j + k). split; [lia | done].
Qed.

Lemma check_words_ok b len lo hi c :
  Forall wf_word b -> 0 <= lo -> lo <= hi + 1 -> hi < Z.of_nat (length b) ->
  0 <= c -> c + 32 * (hi - lo + 1) <= len < 2 ^ 32 ->
  (check_words b len lo hi c = Ok (inl (c + 32 * (hi - lo + 1))) /\
    forall i, 32 * lo <= i < 32 * (hi + 1) -> bit_of b i = v) \/
  (check_words b len lo hi c = Ok (inr false) /\
    exists i, 32 * lo <= i < 32 * (hi + 1) /\ bit_of b i <> v).
Proof.
  intros Hb Hlo Hlh Hhi Hc Hlen. unfold check_words, rfor_le, BITS_PER_ARRAY.
  destruct (riter_inv
    (fun j c' => c' = c + 32 * (j - lo) /\ forall i, 32 * lo <= i < 32 * j -> bit_of b i = v)
    (fun j r => r = false /\ exists i, 32 * j <= i < 32 * (j + 1) /\ bit_of b i <> v)
    (fun j c => if len >? c then
      e ← array_get b j;
      if badw e then Ok (inr false) else Ok (inl (u32 (c + 32)))
    else Ok (inr true)) (Z.to_nat (hi - lo + 1)) lo c)
    as [(a & -> & -> & Hall) | (j & r & -> & Hj & -> & i & Hi & Hne)].
  - split; [lia |]. intros; lia.
  - intros j c' Hj [-> Hall]. rewrite Z.gtb_ltb.
    replace (c + 32 * (j - lo) <? len) with true by lia.
    destruct (array_get_ok b j) as (e & He & Hl); [lia |]. rewrite He, bind_ok.
    assert (wf_word e) as Hwe by (eapply Forall_lookup_1; eauto).
    destruct (badw e) eqn:Eb.
    + right. exists false. split; [done |]. split; [done |].
      assert (exists k, 0 <= k < 32 /\ Z.testbit e k <> v) as (k & Hk & Hne).
      { destruct (decide (Forall (fun k => Z.testbit e k = v) (seqZ 0 32))) as [Hf | Hf].
        - assert (badw e = false); [| congruence]. apply Hbadw; [done |]. intros k Hk.
          rewrite Forall_forall in Hf. apply Hf, elem_of_seqZ. lia.
        - apply not_Forall_Exists in Hf; [| intros ?; apply _]. apply Exists_exists in Hf.
          destruct Hf as (k & Hk & Hne). apply elem_of_seqZ in Hk. exists k. split; [lia | done]. }
      exists (32 * j + k). split; [lia |]. by rewrite (bit_of_element b j e k) by (auto; lia).
    + left. eexists. split; [done |]. rewrite u32_id by lia. split; [lia |].
      intros i Hi. destruct (Z.lt_ge_cases i (32 * j)) as [Hij | Hij]; [apply Hall; lia |].
      replace i with (32 * j + (i - 32 * j)) by lia.
      rewrite (bit_of_element b j e) by (auto; lia). apply Hbadw; auto; lia.
  - left. split; [do 3 f_equal; lia |]. intros i Hi. apply Hall. lia.
  - right. split; [done |]. exists i. split; [lia | done].
Qed.

Definition are_bits (bm : RTL_BITMAP) (s len : Z) : result bool :=
  if (0 =? len) || (SizeOfBitMap bm <? u32 (s + len)) then Ok false
  else
    let sb := s / 32 in
    let sp := u32 (s - sb * 32) in
    let lb := u32 (s + len - 1) / 32 in
    let lp := u32 (u32 (s + len - 1) - lb * 32) in
    if sb =? lb then
      x ← check_bits inl (Buffer bm) len lb sp lp 0;
      match x with inr r => Ok r | inl _ => Ok true end
    else
      x ← check_bits (fun _ => inr true) (Buffer bm) len sb sp 31 0;
      match x with inr r => Ok r | inl c =>
      x ← check_words (Buffer bm) len (sb + 1) (lb - 1) c;
      match x with inr r => Ok r | inl c =>
      x ← check_bits inl (Buffer bm) len lb 0 lp c;
      match x with inr r => Ok r | inl _ => Ok true end end end.

Lemma are_bits_ok bm s len :
  bm_wf bm -> 0 <= s -> 0 <= len -> s + len < 2 ^ 32 ->
  exists r, are_bits bm s len = Ok r /\
    (r = true <-> 0 < len /\ s + len <= SizeOfBitMap bm /\
       forall i, s <= i < s + len -> bm_bit bm i = v).
Proof.
  intros (H1 & H2 & Hb) Hs Hlen Hov. unfold are_bits, bm_bit. rewrite (u32_id (s + len)) by lia.
  destruct (Z.eqb_spec 0 len); [exists false; split; [done |]; split; [done | lia] |].
  destruct (Z.ltb_spec (SizeOfBitMap bm) (s + len)); simpl;
    [exists false; split; [done |]; split; [done | lia] |].
  rewrite (u32_id (s + len - 1)) by lia.
  pose proof (Z.mod_pos_bound s 32). pose proof (Z.mod_pos_bound (s + len - 1) 32).
  pose proof (Z.div_mod s 32). pose proof (Z.div_mod (s + len - 1) 32).
  pose proof (Z.div_le_mono s (s + len - 1) 32). pose proof (Z.div_pos s 32).
  rewrite !u32_id by lia. set (sb := s / 32) in *. set (lb := (s + len - 1) / 32) in *.
  destruct (Z.eqb_spec sb lb) as [E | E].
  - destruct (check_bits_ok inl (Buffer bm) len lb (s - sb * 32) (s + len - 1 - lb * 32) 0)
      as [[-> Hall] | [-> (i & Hi & Hne)]]; try done; try lia; rewrite bind_ok.
    + exists true. split; [done |]. split; [| done]. intros _. split; [lia |]. split; [lia |].
      intros i Hi. apply Hall. lia.
    + exists false. split; [done |]. split; [done |]. intros (_ & _ & Hall).
      by destruct Hne; apply Hall; lia.
  - destruct (check_bits_ok (fun _ => inr true) (Buffer bm) len sb (s - sb * 32) 31 0)
      as [[-> Hall1] | [-> (i & Hi & Hne)]]; try done; try lia; rewrite bind_ok; cycle 1.
    { exists false. split; [done |]. split; [done |]. intros (_ & _ & Hall).
      by destruct Hne; apply Hall; lia. }
    destruct (check_words_ok (Buffer bm) len (sb + 1) (lb - 1) (0 + (31 - (s - sb * 32) + 1)))
      as [[-> Hall2] | [-> (i & Hi & Hne)]]; try done; try lia; rewrite bind_ok; cycle 1.
    { exists false. split; [done |]. split; [done |]. intros (_ & _ & Hall).
      by destruct Hne; apply Hall; lia. }
    match goal with |- context [check_bits inl _ _ _ _ _ ?c] =>
      destruct (check_bits_ok inl (Buffer bm) len lb 0 (s + len - 1 - lb * 32) c)
        as [[-> Hall3] | [-> (i & Hi & Hne)]]; try done; try lia; rewrite bind_ok end; cycle 1.
    { exists false. split; [done |]. split; [done |]. intros (_ & _ & Hall).
      by destruct Hne; apply Hall; lia. }
    exists true. split; [done |]. split; [| done]. intros _. split; [lia |]. split; [lia |].
    intros i Hi. destruct (Z.lt_ge_cases i (32 * (sb + 1))); [apply Hall1; lia |].
    destruct (Z.lt_ge_cases i (32 * lb)); [apply Hall2; lia | apply Hall3; lia].
Qed.
End are_bits.

Lemma AreBitsClear_shape bm s len :
  RtlAreBitsClear (Some bm) s len = are_bits bit_set (fun e => negb (0 =? e)) bm s len.
Proof. done. Qed.

Lemma AreBitsSet_shape bm s len :
  RtlAreBitsSet (Some bm) s len =
    are_bits (fun e k => negb (bit_set e k)) (fun e => negb (ALL_BITS_SET =? e)) bm s len.
Proof. done. Qed.

(** The word tests the code uses for "all clear" and "all set". *)
Lemma word_zero e : wf_word e -> e = 0 <-> forall k, 0 <= k < 32 -> Z.testbit e k = false.
Proof.
  intros He. split; [intros ->; apply zero_word |]. intros H. apply (bits_eq 32); auto; try lia.
  intros k Hk. by rewrite H, Z.testbit_0_l by lia.
Qed.

Lemma word_ones e : wf_word e -> e = ALL_BITS_SET <-> forall k, 0 <= k < 32 -> Z.testbit e k = true.
Proof.
  intros He. split; [intros ->; apply ones_word |]. intros H.
  apply (bits_eq 32); auto; try apply ones_word; try lia.
  intros k Hk. rewrite H by lia. symmetry. by apply ones_word.
Qed.

(** ** Counting *)

(** How many of the positions [0 .. n-1] satisfy [P]. *)
Definition count_bits (P : Z -> bool) (n : Z) : Z :=
  Z.of_nat (length (filter (fun i => P i = true) (seqZ 0 n))).

Lemma count_bits_0 P : count_bits P 0 = 0.
Proof. done. Qed.

Lemma count_bits_succ P n : 0 <= n -> count_bits P (n + 1) = count_bits P n + Z.b2z (P n).
Proof.
  intros Hn. unfold count_bits. rewrite seqZ_app by lia. rewrite filter_app, length_app.
  change (seqZ (0 + n) 1) with [0 + n]. rewrite Z.add_0_l, filter_cons.
  destruct (P n); simpl; lia.
Qed.

Lemma count_bits_range P n : 0 <= n -> 0 <= count_bits P n <= n.
Proof.
  intros Hn. split; [apply Nat2Z.is_nonneg |]. unfold count_bits.
  pose proof (length_filter (fun i => P i = true) (seqZ 0 n)) as H.
  rewrite length_seqZ in H. lia.
Qed.

(** Counting [k] more positions, all of them set. *)
Lemma count_bits_add P n k :
  0 <= n -> 0 <= k -> (forall i, n <= i < n + k -> P i = true) ->
  count_bits P (n + k) = count_bits P n + k.
Proof.
  intros Hn Hk. revert k Hk. refine (natlike_ind _ _ _).
  - intros _. by rewrite !Z.add_0_r.
  - intros k Hk IH H. rewrite Z.add_succ_r, <- Z.add_1_r, count_bits_succ by lia.
    rewrite IH by (intros; apply H; lia). rewrite H by lia. simpl. lia.
Qed.

Lemma count_element_ok b j e last n :
  b !! Z.to_nat j = Some e -> wf_word e -> 0 <= j -> 0 <= last <= 31 ->
  32 * j + last + 1 < 2 ^ 32 -> n = count_bits (bit_of b) (32 * j) ->
  count_element e last n = count_bits (bit_of b) (32 * j + last + 1).
Proof.
  intros Hl He Hj Hlast Hov ->. unfold count_element, for_le.
  replace (32 * j + last + 1) with (32 * j + (0 + Z.of_nat (Z.to_nat (last - 0 + 1)))) by lia.
  apply (iter_inv (fun i n => n = count_bits (bit_of b) (32 * j + i))).
  - by rewrite Z.add_0_r.
  - intros i a Hi ->. rewrite Z.add_assoc, count_bits_succ by lia.
    rewrite bit_set_testbit, Z.mod_small, (bit_of_element b j e i) by (auto; lia).
    pose proof (count_bits_range (bit_of b) (32 * j + i)).
    destruct (Z.testbit e i); simpl; rewrite ?u32_id; lia.
Qed.

(** ** The properties *)

(** The assertion of the range operations. *)
Definition set_assert : string := "(StartingIndex + NumberToSet) <= BitMapHeader->SizeOfBitMap".
Definition clear_assert : string := "(StartingIndex + NumberToClear) <= BitMapHeader->SizeOfBitMap".
Definition null_assert : string := "NULL != BitMapHeader".
Definition bit_assert : string := "BitNumber < BitMapHeader->SizeOfBitMap".

(** [RtlSetBits] on a well-formed bitmap, when [s + n] does not wrap: if the
    range fits it sets exactly the bits [s .. s+n-1], whichever words they span,
    changes no other bit of the buffer and keeps the bitmap well formed; if it
    does not fit, the assertion fails.  A null bitmap fails the first assertion. *)
Theorem RtlSetBits_spec bm s n
  (Hwf : bm_wf bm) (Hs : 0 <= s) (Hn : 0 <= n) (Hov : s + n < 2 ^ 32) :
  (s + n <= SizeOfBitMap bm ->
     exists bm', RtlSetBits (Some bm) s n = Ok bm' /\
       bm_writes (fun i => (s <=? i) && (i <? s + n)) true bm bm') /\
  (SizeOfBitMap bm < s + n -> RtlSetBits (Some bm) s n = Err (AssertFailed set_assert)) /\
  RtlSetBits None s n = Err (AssertFailed null_assert).
Proof.
  split; [by apply set_bits_writes |]. split; [| done]. intros Hlt.
  unfold RtlSetBits. rewrite nonnull_some, bind_ok, (u32_id (s + n)) by lia.
  rewrite ddkassert_false; [done | lia].
Qed.

(** [RtlClearBits]: the same with the bits cleared. *)
Theorem RtlClearBits_spec bm s n
  (Hwf : bm_wf bm) (Hs : 0 <= s) (Hn : 0 <= n) (Hov : s + n < 2 ^ 32) :
  (s + n <= SizeOfBitMap bm ->
     exists bm', RtlClearBits (Some bm) s n = Ok bm' /\
       bm_writes (fun i => (s <=? i) && (i <? s + n)) false bm bm') /\
  (SizeOfBitMap bm < s + n -> RtlClearBits (Some bm) s n = Err (AssertFailed clear_assert)) /\
  RtlClearBits None s n = Err (AssertFailed null_assert).
Proof.
  split; [by apply clear_bits_writes |]. split; [| done]. intros Hlt.
  unfold RtlClearBits. rewrite nonnull_some, bind_ok, (u32_id (s + n)) by lia.
  rewrite ddkassert_false; [done | lia].
Qed.

(** [RtlSetAllBits] and [RtlClearAllBits] write every bit of the bitmap and
    none of the bits of the buffer beyond its size. *)
Theorem RtlSetClearAllBits_spec bm (Hwf : bm_wf bm) :
  (exists bm', RtlSetAllBits (Some bm) = Ok bm' /\
     bm_writes (fun i => i <? SizeOfBitMap bm) true bm bm') /\
  (exists bm', RtlClearAllBits (Some bm) = Ok bm' /\
     bm_writes (fun i => i <? SizeOfBitMap bm) false bm bm').
Proof.
  pose proof Hwf as (H1 & H2 & H3). split.
  - assert (RtlSetAllBits (Some bm) =
      b ← write_all SetBitsInRange SetArrayElements (Buffer bm) (SizeOfBitMap bm);
      Ok (with_buffer bm b)) as ->.
    { unfold write_all. by rewrite bind_assoc. }
    destruct (write_all_ok true SetBitsInRange SetArrayElements SetBitsInRange_writes
      ltac:(intros; by apply store_elements_writes; [apply ones_word | ..])
      (Buffer bm) (SizeOfBitMap bm)) as (b' & -> & W); [done | lia | lia |].
    eexists. split; [done |]. by apply bm_writes_with_buffer.
  - assert (RtlClearAllBits (Some bm) =
      b ← write_all ClearBitsInRange ClearArrayElements (Buffer bm) (SizeOfBitMap bm);
      Ok (with_buffer bm b)) as ->.
    { unfold write_all. by rewrite bind_assoc. }
    destruct (write_all_ok false ClearBitsInRange ClearArrayElements ClearBitsInRange_writes
      ltac:(intros; by apply store_elements_writes; [apply zero_word | ..])
      (Buffer bm) (SizeOfBitMap bm)) as (b' & -> & W); [done | lia | lia |].
    eexists. split; [done |]. by apply bm_writes_with_buffer.
Qed.

(** The one-bit operations, called with a position of the whole bitmap:
    [RtlSetBit] and [RtlClearBit] write that bit alone, [RtlTestBit] reads it,
    and all three assert the position is in the bitmap. *)
Theorem RtlBit_spec bm i (Hwf : bm_wf bm) (Hi : 0 <= i) :
  (i < SizeOfBitMap bm ->
     RtlTestBit (Some bm) i = Ok (bm_bit bm i) /\
     (exists bm', RtlSetBit (Some bm) i = Ok bm' /\ bm_writes (fun k => k =? i) true bm bm') /\
     (exists bm', RtlClearBit (Some bm) i = Ok bm' /\ bm_writes (fun k => k =? i) false bm bm')) /\
  (SizeOfBitMap bm <= i ->
     RtlTestBit (Some bm) i = Err (AssertFailed bit_assert) /\
     RtlSetBit (Some bm) i = Err (AssertFailed bit_assert) /\
     RtlClearBit (Some bm) i = Err (AssertFailed bit_assert)).
Proof.
  pose proof Hwf as (H1 & H2 & H3).
  unfold RtlTestBit, RtlSetBit, RtlClearBit, CalculateArrayIndexFromBitNum, BITS_PER_ARRAY.
  rewrite !nonnull_some, !bind_ok. split; intros Hlt.
  - rewrite !ddkassert_true by lia.
    assert (0 <= i / 32 < Z.of_nat (length (Buffer bm))) as Hj by (Z.div_mod_to_equations; lia).
    pose proof (Z.mod_pos_bound i 32). pose proof (Z.div_mod i 32). split; [| split].
    + destruct (array_get_ok (Buffer bm) (i / 32) Hj) as (e & -> & Hl). rewrite bind_ok.
      rewrite bit_set_testbit by (eapply Forall_lookup_1; eauto).
      unfold bm_bit, bit_of. rewrite Hl. simpl. by destruct (Z.testbit e (i mod 32)).
    + destruct (update_element_writes (i mod 32) (i mod 32) true _ (Buffer bm) (i / 32)
        ltac:(lia) ltac:(lia) (SetBitsInRange_one i) H3 Hj) as (b' & -> & W).
      eexists. split; [done |]. apply bm_writes_with_buffer; [done |].
      eapply writes_ext; [| exact W]. intros k Hk. simpl. case_z; simpl; lia || done.
    + destruct (update_element_writes (i mod 32) (i mod 32) false _ (Buffer bm) (i / 32)
        ltac:(lia) ltac:(lia) (ClearBitsInRange_one i) H3 Hj) as (b' & -> & W).
      eexists. split; [done |]. apply bm_writes_with_buffer; [done |].
      eapply writes_ext; [| exact W]. intros k Hk. simpl. case_z; simpl; lia || done.
  - rewrite !ddkassert_false by lia. done.
Qed.

(** [RtlAreBitsClear] and [RtlAreBitsSet] answer TRUE exactly when the range
    is not empty, lies in the bitmap and has all its bits clear (set), over any
    number of words; they never read outside the buffer. *)
Theorem RtlAreBits_spec bm s n
  (Hwf : bm_wf bm) (Hs : 0 <= s) (Hn : 0 <= n) (Hov : s + n < 2 ^ 32) :
  (exists r, RtlAreBitsClear (Some bm) s n = Ok r /\
     (r = true <-> 0 < n /\ s + n <= SizeOfBitMap bm /\
        forall i, s <= i < s + n -> bm_bit bm i = false)) /\
  (exists r, RtlAreBitsSet (Some bm) s n = Ok r /\
     (r = true <-> 0 < n /\ s + n <= SizeOfBitMap bm /\
        forall i, s <= i < s + n -> bm_bit bm i = true)).
Proof.
  rewrite AreBitsClear_shape, AreBitsSet_shape. split; apply are_bits_ok; auto.
  - intros e k He Hk. rewrite bit_set_testbit, Z.mod_small by (auto; lia). done.
  - intros e He. rewrite <- word_zero by done. destruct (Z.eqb_spec 0 e); simpl; split; congruence.
  - intros e k He Hk. rewrite bit_set_testbit, Z.mod_small by (auto; lia).
    by destruct (Z.testbit e k).
  - intros e He. rewrite <- word_ones by done.
    destruct (Z.eqb_spec ALL_BITS_SET e); simpl; split; congruence.
Qed.

(** [RtlNumberOfSetBits] counts the set bits below the size, whatever the
    bits of the last word beyond it. *)
Theorem RtlNumberOfSetBits_spec bm (Hwf : bm_wf bm) :
  RtlNumberOfSetBits (Some bm) = Ok (count_bits (bm_bit bm) (SizeOfBitMap bm)).
Proof.
  destruct Hwf as (H1 & H2 & Hb). unfold RtlNumberOfSetBits, CalculateLastBufferIndex,
    CalculateBitPositionInArrayElement, BITS_PER_ARRAY, bm_bit.
  rewrite nonnull_some, bind_ok, (u32_id (SizeOfBitMap bm - 1)) by lia.
  set (size := SizeOfBitMap bm) in *. set (b := Buffer bm) in *. cbv zeta.
  pose proof (Z.mod_pos_bound (size - 1) 32). pose proof (Z.div_mod (size - 1) 32).
  pose proof (Z.div_pos (size - 1) 32). set (lb := (size - 1) / 32) in *.
  rewrite (u32_id (size - 1 - lb * 32)) by lia. unfold mfor_le.
  match goal with |- context [miter ?m 0 ?f 0] =>
    destruct (miter_inv (fun j n => n = count_bits (bit_of b) (32 * j)) f m 0 0)
      as (c & -> & ->) end.
  - done.
  - intros j n Hj ->. destruct (array_get_ok b j) as (e & He & Hl); [lia |].
    rewrite He, bind_ok. eexists. split; [done |].
    assert (wf_word e) as Hwe by (eapply Forall_lookup_1; eauto).
    replace (32 * (j + 1)) with (32 * j + 31 + 1) by lia.
    destruct (Z.eqb_spec ALL_BITS_SET e) as [<- | Hne].
    + replace (32 * j + 31 + 1) with (32 * j + 32) by lia.
      rewrite count_bits_add; [pose proof (count_bits_range (bit_of b) (32 * j)); by rewrite u32_id by lia | lia | lia |].
      intros i Hi. replace i with (32 * j + (i - 32 * j)) by lia.
      rewrite (bit_of_element b j ALL_BITS_SET) by (auto; lia). apply ones_word. lia.
    + eapply count_element_ok; eauto; lia.
  - rewrite bind_ok. destruct (array_get_ok b lb) as (e & He & Hl); [lia |]. rewrite He, bind_ok.
    f_equal. replace (0 + Z.of_nat (Z.to_nat (lb - 1 - 0 + 1))) with lb by lia.
    rewrite (count_element_ok b lb e (size - 1 - lb * 32) _ Hl) by
      (auto; try lia; eapply Forall_lookup_1; eauto).
    f_equal. lia.
Qed.

(** The checks on a range add in 32 bits: a range whose end wraps past zero
    passes the assertion of [RtlSetBits], and the call then writes outside the
    buffer. *)
Theorem RtlSetBits_wrap :
  bm_wf (mkBitmap 64 [0; 0]) /\
  RtlSetBits (Some (mkBitmap 64 [0; 0])) (2 ^ 32 - 1) 2 = Err (BadAccess (2 ^ 27 - 1)).
Proof.
  split; [| vm_compute; reflexivity].
  split; [simpl; lia |]. split; [simpl; lia |].
  repeat constructor; simpl; unfold wf_word; lia.
Qed.

(** ** Witnesses *)

Definition bm100 : RTL_BITMAP := mkBitmap 100 [0xF0F0; ALL_BITS_SET; 1; 0xFF].

Lemma bm100_wf : bm_wf bm100.
Proof.
  split; [simpl; lia |]. split; [simpl; lia |].
  repeat constructor; unfold wf_word, ALL_BITS_SET; lia.
Defined.

Lemma RtlSetBits_spec_witness :
  (exists bm', RtlSetBits (Some bm100) 30 60 = Ok bm' /\
     bm_writes (fun i => (30 <=? i) && (i <? 30 + 60)) true bm100 bm') /\
  RtlSetBits (Some bm100) 30 80 = Err (AssertFailed set_assert).
Proof.
  split.
  - apply (RtlSetBits_spec bm100 30 60 bm100_wf); simpl; lia.
  - apply (RtlSetBits_spec bm100 30 80 bm100_wf); simpl; lia.
Defined.

Lemma RtlClearBits_spec_witness :
  exists bm', RtlClearBits (Some bm100) 0 100 = Ok bm' /\
     bm_writes (fun i => (0 <=? i) && (i <? 0 + 100)) false bm100 bm'.
Proof. apply (RtlClearBits_spec bm100 0 100 bm100_wf); simpl; lia. Defined.

Lemma RtlSetClearAllBits_spec_witness :
  exists bm', RtlSetAllBits (Some bm100) = Ok bm' /\
     bm_writes (fun i => i <? 100) true bm100 bm'.
Proof. apply (RtlSetClearAllBits_spec bm100 bm100_wf). Defined.

Lemma RtlBit_spec_witness : RtlTestBit (Some bm100) 40 = Ok (bm_bit bm100 40).
Proof. apply (RtlBit_spec bm100 40 bm100_wf); simpl; lia. Defined.

Lemma RtlAreBits_spec_witness :
  exists r, RtlAreBitsSet (Some bm100) 32 33 = Ok r /\
     (r = true <-> 0 < 33 /\ 32 + 33 <= 100 /\
        forall i, 32 <= i < 32 + 33 -> bm_bit bm100 i = true).
Proof. apply (RtlAreBits_spec bm100 32 33 bm100_wf); simpl; lia. Defined.

Lemma RtlNumberOfSetBits_spec_witness :
  RtlNumberOfSetBits (Some bm100) = Ok (count_bits (bm_bit bm100) 100).
Proof. apply (RtlNumberOfSetBits_spec bm100 bm100_wf). Defined.
