(* ===== verification/BitmapFind.v ===== *)
(** * BitmapFind: what the searches for runs of bits find

    The searches work word by word, with short cuts for words that are all clear
    or all set.  The specification works bit by bit: [first_run] is the lowest
    position from which [n] bits in a row have the value wanted.  The word-level
    code implements it for every bitmap whose last word does not take the short
    cut while only part of it belongs to the bitmap; on the others it does not
    (the two counterexamples at the end). *)

From S2P Require Import Prelude Bitmap BitmapOps.

(** ** The specification *)

(** [n] bits from [s] all have value [v]. *)
Definition is_run (bit : Z -> bool) (v : bool) (n s : Z) : Prop :=
  forall i, s <= i < s + n -> bit i = v.

(** No run of [n] bits of value [v] fits between [from] and [upto]. *)
Definition no_run (bit : Z -> bool) (v : bool) (n from upto : Z) : Prop :=
  forall s, from <= s -> s + n <= upto -> ~ is_run bit v n s.

(** [s] is where the first such run starts. *)
Definition first_run (bit : Z -> bool) (v : bool) (n from upto s : Z) : Prop :=
  from <= s /\ s + n <= upto /\ is_run bit v n s /\
  forall s', from <= s' < s -> ~ is_run bit v n s'.

(** What [RtlFindClearBits] and [RtlFindSetBits] promise: the first run at or
    after the hint; if there is none, the first run of the bitmap; if there is
    none, 0xFFFFFFFF. *)
Definition find_result (bit : Z -> bool) (v : bool) (size n hint r : Z) : Prop :=
  first_run bit v n hint size r \/
  (no_run bit v n hint size /\ first_run bit v n 0 size r) \/
  (no_run bit v n 0 size /\ r = ALL_BITS_SET).

(** The last word of the bitmap belongs to it entirely, or is not the word [w]
    that takes the short cut. *)
Definition last_word_ok (w : Z) (bm : RTL_BITMAP) : Prop :=
  SizeOfBitMap bm mod 32 = 0 \/ Buffer bm !! Z.to_nat ((SizeOfBitMap bm - 1) / 32) <> Some w.

(** ** The search, for bits of value [v] *)
Section search.
Context (v : bool) (full : Z) (hit : Z -> Z -> bool).
Context (Hfull : forall e, wf_word e ->
  e = full <-> forall k, 0 <= k < 32 -> Z.testbit e k = v).
Context (Hhit : forall e k, wf_word e -> 0 <= k < 32 -> hit e k = true <-> Z.testbit e k = v).

(** The common shape of [NumClearBitsFound] and [NumSetBitsFound]. *)
Definition num_found (e j n lo hi : Z) (r : run) : run * bool :=
  if (full =? e) && negb (runStarted r) then
    let count := u32 (runCount r + (hi - lo + 1)) in
    (mkRun true (runEnded r) (CalculateBitNumberInBitMap j lo) count, count >=? n)
  else if (full =? e) && runStarted r then
    let count := u32 (runCount r + BITS_PER_ARRAY) in
    (mkRun (runStarted r) (runEnded r) (startBit r) count, count >=? n)
  else
    bfor_le lo hi (fun k r =>
      if hit e k then
        let start := if negb (runStarted r) then CalculateBitNumberInBitMap j k else startBit r in
        let count := u32 (runCount r + 1) in
        (mkRun true (runEnded r) start count, count >=? n)
      else (mkRun false (runEnded r) (startBit r) 0, false)) r.

Context (b : list Z) (n : Z).
Context (Hb : Forall wf_word b) (Hn : 1 <= n).

(** The state of a search from [from] that has reached [pos]: the run in
    progress is the longest one that ends at [pos], and is shorter than [n]. *)
Definition search_inv (from pos : Z) (r : run) : Prop :=
  from <= pos /\ no_run (bit_of b) v n from pos /\
  if runStarted r then
    0 < runCount r < n /\ startBit r + runCount r = pos /\ from <= startBit r /\
    is_run (bit_of b) v (runCount r) (startBit r) /\
    (startBit r = from \/ bit_of b (startBit r - 1) <> v)
  else runCount r = 0 /\ (pos = from \/ bit_of b (pos - 1) <> v).

(** A run that started where [search_inv] says and has grown to [n] bits is
    the first one. *)
Lemma found_first from s c upto :
  from <= s -> n <= c -> s + c <= upto -> no_run (bit_of b) v n from s ->
  is_run (bit_of b) v c s -> (s = from \/ bit_of b (s - 1) <> v) ->
  first_run (bit_of b) v n from upto s.
Proof.
  intros Hfs Hc Hup Hno Hrun Hmax. split; [done |]. split; [lia |].
  split; [intros i Hi; apply Hrun; lia |]. intros s' Hs' Hr.
  destruct Hmax as [-> | Hne]; [lia |].
  destruct (Z.le_gt_cases (s' + n) s); [apply (Hno s'); auto; lia |].
  apply Hne, Hr. lia.
Qed.

(** One bit of the value wanted, or not. *)
Lemma search_inv_miss from pos r :
  search_inv from pos r -> bit_of b pos <> v ->
  search_inv from (pos + 1) (mkRun false (runEnded r) (startBit r) 0).
Proof.
  intros (Hfp & Hno & _) Hne. split; [lia |]. split; [| simpl; split; [done |]].
  - intros s Hs Hsn Hr. destruct (Z.eq_dec (s + n) (pos + 1)).
    + apply Hne, Hr. lia.
    + apply (Hno s); auto; lia.
  - right. by replace (pos + 1 - 1) with pos by lia.
Qed.

(** [k] bits of the value wanted, from [pos] on: the run in progress grows. *)
Lemma search_inv_grow from pos k r :
  search_inv from pos r -> 0 < k -> is_run (bit_of b) v k pos ->
  let start := if runStarted r then startBit r else pos in
  let count := runCount r + k in
  start + count = pos + k /\
  (n <= count -> first_run (bit_of b) v n from (pos + k) start) /\
  (count < n -> forall ended, search_inv from (pos + k) (mkRun true ended start count)).
Proof.
  intros (Hfp & Hno & Hst) Hk Hr start count.
  assert (start + count = pos + k /\ from <= start <= pos /\ 0 <= runCount r /\
    is_run (bit_of b) v count start /\ (start = from \/ bit_of b (start - 1) <> v))
    as (E & Hfs & Hc & Hrun & Hmax).
  { subst start count. destruct (runStarted r).
    - destruct Hst as (Hc & E & Hfs & Hrun & Hmax). split; [lia |]. split; [lia |].
      split; [lia |]. split; [| done].
      intros i Hi. destruct (Z.lt_ge_cases i pos); [apply Hrun; lia | apply Hr; lia].
    - destruct Hst as [-> Hmax]. split; [lia |]. split; [lia |]. split; [lia |].
      split; [| done]. intros i Hi. apply Hr. lia. }
  assert (no_run (bit_of b) v n from start) as Hno'.
  { intros s Hs Hsn. apply Hno; lia. }
  split; [done |]. split.
  - intros Hle. eapply found_first; eauto; lia.
  - intros Hlt ended. split; [lia |]. split.
    + intros s Hs Hsn Hrs. destruct Hmax as [Hm | Hm].
      * lia.
      * destruct (Z.le_gt_cases (s + n) start); [apply (Hno' s); auto; lia |]. apply Hm, Hrs. lia.
    + simpl. repeat split; auto; lia.
Qed.

Lemma first_run_mono from upto upto' s :
  first_run (bit_of b) v n from upto s -> upto <= upto' ->
  first_run (bit_of b) v n from upto' s.
Proof. intros (? & ? & ? & ?) ?. repeat split; auto; lia. Qed.

(** One element: the search either finds the first run, or goes on. *)
Lemma num_found_ok from j e lo hi r :
  b !! Z.to_nat j = Some e -> 0 <= j -> 0 <= lo -> lo <= hi <= 31 -> 0 <= from ->
  32 * j + hi + 1 < 2 ^ 32 ->
  search_inv from (32 * j + lo) r ->
  (e = full -> runStarted r = true -> lo = 0 /\ hi = 31) ->
  (exists r', num_found e j n lo hi r = (r', true) /\
     first_run (bit_of b) v n from (32 * j + hi + 1) (startBit r')) \/
  (exists r', num_found e j n lo hi r = (r', false) /\
     search_inv from (32 * j + hi + 1) r').
Proof.
  intros Hl Hj Hlo Hhi Hfrom Hov Hinv Hpart.
  assert (wf_word e) as He by (eapply Forall_lookup_1; eauto).
  assert (forall k, 0 <= k < 32 -> bit_of b (32 * j + k) = Z.testbit e k) as Hbit
    by (intros; by apply bit_of_element).
  assert (0 <= runCount r) as Hcount by (destruct Hinv as (_ & _ & H); destruct (runStarted r); lia).
  unfold num_found, CalculateBitNumberInBitMap, BITS_PER_ARRAY.
  destruct (Z.eqb_spec full e) as [Ef | Ef].
  - assert (is_run (bit_of b) v (hi - lo + 1) (32 * j + lo)) as Hrun.
    { intros i Hi. replace i with (32 * j + (i - 32 * j)) by lia. rewrite Hbit by lia.
      apply (proj1 (Hfull e He)); [done | lia]. }
    destruct (search_inv_grow from (32 * j + lo) (hi - lo + 1) r Hinv) as (E & Hfound & Hgo);
      [lia | done |].
    replace (32 * j + lo + (hi - lo + 1)) with (32 * j + hi + 1) in * by lia.
    destruct (runStarted r) eqn:Es; simpl.
    + destruct Hpart as [-> ->]; [done | done |]. destruct Hinv as (_ & _ & Hst).
      rewrite Es in Hst. destruct Hst as (Hc1 & Es1 & Hf1 & _).
      replace (31 - 0 + 1) with 32 in * by lia. rewrite u32_id by lia.
      rewrite Z.geb_leb. destruct (Z.leb_spec n (runCount r + 32)).
      * left. eexists. split; [done |]. simpl. by apply Hfound.
      * right. eexists. split; [done |]. by apply Hgo.
    + destruct Hinv as (_ & _ & Hst). rewrite Es in Hst. destruct Hst as [Hc0 _]. rewrite Hc0 in *.
      rewrite (u32_id (0 + (hi - lo + 1))), (u32_id (j * 32 + lo)) by lia.
      replace (j * 32 + lo) with (32 * j + lo) by lia.
      rewrite Z.geb_leb. destruct (Z.leb_spec n (0 + (hi - lo + 1))).
      * left. eexists. split; [done |]. simpl. by apply Hfound.
      * right. eexists. split; [done |]. by apply Hgo.
  - simpl. unfold bfor_le.
    match goal with |- context [biter ?m lo ?f r] =>
      destruct (biter_inv (fun k r => search_inv from (32 * j + k) r)
        (fun k r => first_run (bit_of b) v n from (32 * j + k + 1) (startBit r)) f m lo r Hinv)
        as [(r' & E & H) | (k & r' & E & Hk & H)] end.
    + intros k r1 Hk Hinv1. destruct (hit e k) eqn:Eh.
      * apply Hhit in Eh; [| done | lia].
        assert (is_run (bit_of b) v 1 (32 * j + k)) as Hrun.
        { intros i Hi. replace i with (32 * j + k) by lia. by rewrite Hbit by lia. }
        destruct (search_inv_grow from (32 * j + k) 1 r1 Hinv1) as (E & Hfound & Hgo);
          [lia | done |].
        assert (0 <= runCount r1 /\ from <= 32 * j + k /\ (runStarted r1 = true -> from <= startBit r1))
          as (Hc1 & Hfk & Hfs)
          by (destruct Hinv1 as (? & _ & H); destruct (runStarted r1); repeat split; intros; try done; lia).
        assert ((if negb (runStarted r1) then u32 (j * 32 + k) else startBit r1)
          = (if runStarted r1 then startBit r1 else 32 * j + k)) as ->
          by (destruct (runStarted r1); simpl; [done | rewrite u32_id; lia]).
        assert (runCount r1 + 1 < 2 ^ 32)
          by (revert Hfs E; simpl; destruct (runStarted r1); intros Hfs E; [specialize (Hfs eq_refl) |]; lia).
        rewrite u32_id by lia. rewrite Z.geb_leb. destruct (Z.leb_spec n (runCount r1 + 1)).
        -- right. eexists. split; [done |]. by apply Hfound.
        -- left. eexists. split; [done |]. rewrite Z.add_assoc. by apply Hgo.
      * left. eexists. split; [done |]. rewrite Z.add_assoc. apply search_inv_miss; [done |].
        rewrite Hbit by lia. intros Ht. apply Hhit in Ht; [congruence | done | lia].
    + right. exists r'. split; [exact E |]. by replace (32 * j + hi + 1)
        with (32 * j + (lo + Z.of_nat (Z.to_nat (hi - lo + 1)))) by lia.
    + left. exists r'. split; [exact E |]. eapply first_run_mono; [exact H | lia].
Qed.

Context (size : Z) (Hsize : 0 < size < 2 ^ 32) (Hlen : size <= 32 * Z.of_nat (length b)).
Context (Hlast : size mod 32 = 0 \/ b !! Z.to_nat ((size - 1) / 32) <> Some full).

Let lb := (size - 1) / 32.
Let lp := size - 1 - lb * 32.

(** A run of the search that has not found anything yet. *)
Definition idle (r : run) : Prop := runStarted r = false /\ runCount r = 0.

Lemma idle_inv from r : idle r -> search_inv from from r.
Proof.
  intros [Hs Hc]. split; [lia |]. split.
  - intros s ? ? _. lia.
  - rewrite Hs. auto.
Qed.

Lemma last_element_ok from e lo r :
  b !! Z.to_nat lb = Some e -> 0 <= lo <= lp -> 0 <= from ->
  search_inv from (32 * lb + lo) r -> (lo = 0 \/ runStarted r = false) ->
  exists r' res, num_found e lb n lo lp r = (r', res) /\
    if res then first_run (bit_of b) v n from size (startBit r')
    else no_run (bit_of b) v n from size.
Proof.
  intros Hl Hlo Hfrom Hinv Hcase.
  assert (32 * lb + lp + 1 = size /\ 0 <= lb /\ 0 <= lp <= 31) as (E & Hlb & Hlp)
    by (subst lp lb; Z.div_mod_to_equations; lia).
  destruct (num_found_ok from lb e lo lp r) as [(r' & -> & H) | (r' & -> & H)];
    try done; try lia.
  - intros -> Hs. destruct Hcase as [-> | Hc]; [| congruence].
    destruct Hlast as [Hm | Hne]; [| by destruct Hne].
    split; [done |]. subst lp lb. Z.div_mod_to_equations; lia.
  - exists r', true. split; [done |]. by rewrite <- E.
  - exists r', false. split; [done |]. rewrite <- E. apply H.
Qed.

Lemma find_pass_ok from r :
  0 <= from < size -> idle r ->
  exists r' res,
    find_pass num_found b n (from / 32) (from - from / 32 * 32) lb lp r = Ok (r', res) /\
    if res then first_run (bit_of b) v n from size (startBit r')
    else no_run (bit_of b) v n from size.
Proof.
  intros Hfrom Hidle. pose proof (idle_inv from r Hidle) as Hinv. unfold find_pass.
  assert (0 <= lb < Z.of_nat (length b) /\ 0 <= lp <= 31 /\ 32 * lb + lp + 1 = size)
    as (Hlb & Hlp & Elb) by (subst lp lb; Z.div_mod_to_equations; lia).
  pose proof (Z.mod_pos_bound from 32) as Hm. pose proof (Z.div_mod from 32) as Hd.
  pose proof (Z.div_pos from 32) as Hp.
  set (sb := from / 32) in *. set (lo := from - sb * 32) in *.
  replace from with (32 * sb + lo) in Hinv at 2 by lia.
  destruct (array_get_ok b sb) as (e & -> & Hl); [lia |]. rewrite bind_ok.
  destruct (Z.eqb_spec sb lb) as [E | E].
  - destruct (last_element_ok from e lo r) as (r' & res & H1 & H2); try lia.
    + by rewrite <- E.
    + by rewrite <- E.
    + right. apply Hidle.
    + exists r', res. rewrite E. by rewrite H1.
  - assert (sb < lb) by lia.
    destruct (num_found_ok from sb e lo 31 r) as [(r1 & E1 & H1) | (r1 & E1 & H1)]; try done; try lia.
    { intros _ Hs. destruct Hidle; congruence. }
    { exists r1, true. rewrite bind_ok. change (BITS_PER_ARRAY - 1) with 31. rewrite E1.
      split; [done |]. eapply first_run_mono; [exact H1 | lia]. }
    rewrite bind_ok. change (BITS_PER_ARRAY - 1) with 31. rewrite E1. unfold rfor_le.
    match goal with |- context [riter ?m ?i ?f r1] =>
      destruct (riter_inv (fun j r => search_inv from (32 * j) r)
        (fun j r => first_run (bit_of b) v n from size (startBit r)) f m i r1)
        as [(r2 & -> & H2) | (j & r2 & -> & Hj & H2)] end.
    + by replace (32 * (sb + 1)) with (32 * sb + 31 + 1) by lia.
    + intros j r2 Hj Hinv2. destruct (array_get_ok b j) as (ej & -> & Hlj); [lia |].
      rewrite bind_ok.
      destruct (num_found_ok from j ej 0 31 r2) as [(r3 & -> & H3) | (r3 & -> & H3)];
        try done; try lia.
      * by rewrite Z.add_0_r.
      * right. exists r3. split; [done |]. eapply first_run_mono; [exact H3 | lia].
      * left. exists r3. split; [done |]. by replace (32 * (j + 1)) with (32 * j + 31 + 1) by lia.
    + rewrite bind_ok. destruct (array_get_ok b lb Hlb) as (el & -> & Hll). rewrite bind_ok.
      destruct (last_element_ok from el 0 r2) as (r' & res & H3 & H4); try done; try lia.
      * rewrite Z.add_0_r. by replace (sb + 1 + Z.of_nat (Z.to_nat (lb - 1 - (sb + 1) + 1))) with lb in H2 by lia.
      * exists r', res. by rewrite H3.
    + exists r2, true. by rewrite bind_ok.
Qed.

Lemma find_loop_ok hint r :
  0 <= hint < size -> idle r ->
  exists s, find_loop num_found b n lb lp 2 (hint / 32) (hint - hint / 32 * 32) r = Ok s /\
    find_result (bit_of b) v size n hint s.
Proof.
  intros Hh Hidle.
  destruct (find_pass_ok hint r Hh Hidle) as (r1 & res1 & E1 & H1).
  cbn [find_loop]. rewrite E1, bind_ok. destruct res1; [exists (startBit r1); split; [done | by left] |].
  edestruct (find_pass_ok 0 (mkRun false (runEnded r1) (startBit r1) 0)) as (r2 & res2 & E2 & H2);
    [lia | done |].
  change (0 / 32) with 0 in E2. change (0 - 0 * 32) with 0 in E2. rewrite E2, bind_ok.
  destruct res2.
  - exists (startBit r2). split; [done |]. right. left. done.
  - exists ALL_BITS_SET. split; [done |]. right. right. done.
Qed.

Lemma find_loop_once hint r :
  (n > size - hint \/ size <= hint) -> 0 <= hint -> idle r ->
  exists s, find_loop num_found b n lb lp 1 0 0 r = Ok s /\
    find_result (bit_of b) v size n hint s.
Proof.
  intros Hh H0 Hidle.
  assert (no_run (bit_of b) v n hint size) as Hno by (intros s ? ? _; lia).
  destruct (find_pass_ok 0 r) as (r2 & res2 & E2 & H2); [lia | done |].
  change (0 / 32) with 0 in E2. change (0 - 0 * 32) with 0 in E2.
  cbn [find_loop]. rewrite E2, bind_ok. destruct res2.
  - exists (startBit r2). split; [done |]. right. left. done.
  - exists ALL_BITS_SET. split; [done |]. right. right. done.
Qed.
End search.

(** ** [RtlFindClearBits] and [RtlFindSetBits] *)

Lemma NumClearBitsFound_shape :
  NumClearBitsFound = num_found 0 (fun e k => negb (bit_set e k)).
Proof. done. Qed.

Lemma NumSetBitsFound_shape : NumSetBitsFound = num_found ALL_BITS_SET bit_set.
Proof. done. Qed.

Lemma hit_clear e k :
  wf_word e -> 0 <= k < 32 -> negb (bit_set e k) = true <-> Z.testbit e k = false.
Proof.
  intros. rewrite bit_set_testbit, Z.mod_small by (auto; lia). by destruct (Z.testbit e k).
Qed.

Lemma hit_set e k : wf_word e -> 0 <= k < 32 -> bit_set e k = true <-> Z.testbit e k = true.
Proof. intros. by rewrite bit_set_testbit, Z.mod_small by (auto; lia). Qed.

Lemma idle_start : idle (mkRun false false ALL_BITS_SET 0).
Proof. done. Qed.

Section find.
Context (bm : RTL_BITMAP) (Hwf : bm_wf bm).

(** The search both functions start, with [found] the helper for the value [v]. *)
Lemma find_start v full hit n hint :
  (forall e, wf_word e -> e = full <-> forall k, 0 <= k < 32 -> Z.testbit e k = v) ->
  (forall e k, wf_word e -> 0 <= k < 32 -> hit e k = true <-> Z.testbit e k = v) ->
  last_word_ok full bm -> 1 <= n -> 0 <= hint < 2 ^ 32 ->
  let size := SizeOfBitMap bm in
  let lb := u32 (size - 1) / 32 in
  let lp := u32 (u32 (size - 1) - lb * 32) in
  exists s,
    (if (n >? u32 (size - hint)) || (size <=? hint)
     then find_loop (num_found full hit) (Buffer bm) n lb lp 1 0 0
            (mkRun false false ALL_BITS_SET 0)
     else find_loop (num_found full hit) (Buffer bm) n lb lp 2 (hint / 32)
            (u32 (hint - hint / 32 * 32)) (mkRun false false ALL_BITS_SET 0)) = Ok s /\
    find_result (bm_bit bm) v size n hint s.
Proof.
  intros Hfull Hhit Hlast Hn Hh size lb lp. destruct Hwf as (H1 & H2 & H3).
  subst lb lp. rewrite (u32_id (size - 1)) by lia.
  rewrite (u32_id (size - 1 - _)) by (subst size; Z.div_mod_to_equations; lia).
  rewrite (u32_id (hint - _)) by (Z.div_mod_to_equations; lia).
  rewrite Z.gtb_ltb. destruct (Z.leb_spec size hint) as [Hge | Hlt].
  - rewrite orb_true_r. apply find_loop_once; auto using idle_start; lia.
  - rewrite (u32_id (size - hint)) by lia. rewrite orb_false_r.
    destruct (Z.ltb_spec (size - hint) n).
    + apply find_loop_once; auto using idle_start; lia.
    + apply find_loop_ok; auto using idle_start; lia.
Qed.

Lemma find_clear_ok n hint :
  last_word_ok 0 bm -> 1 <= n < SizeOfBitMap bm -> 0 <= hint < 2 ^ 32 ->
  exists s, RtlFindClearBits (Some bm) n hint = Ok s /\
    find_result (bm_bit bm) false (SizeOfBitMap bm) n hint s.
Proof.
  intros Hlast Hn Hh. unfold RtlFindClearBits. rewrite nonnull_some, bind_ok.
  replace (n <? SizeOfBitMap bm) with true by lia. rewrite NumClearBitsFound_shape.
  apply find_start; auto using word_zero, hit_clear. lia.
Qed.

Lemma find_set_ok n hint :
  last_word_ok ALL_BITS_SET bm -> 1 <= n < SizeOfBitMap bm -> 0 <= hint < 2 ^ 32 ->
  exists s, RtlFindSetBits (Some bm) n hint = Ok s /\
    find_result (bm_bit bm) true (SizeOfBitMap bm) n hint s.
Proof.
  intros Hlast Hn Hh. unfold RtlFindSetBits. rewrite nonnull_some, bind_ok.
  replace (n <? SizeOfBitMap bm) with true by lia. rewrite NumSetBitsFound_shape.
  apply find_start; auto using word_ones, hit_set. lia.
Qed.
End find.

(** What a found position is good for. *)
Lemma find_result_run bit v size n hint s :
  0 < size < 2 ^ 32 -> 1 <= n -> 0 <= hint -> find_result bit v size n hint s ->
  s = ALL_BITS_SET \/ (s <> ALL_BITS_SET /\ 0 <= s /\ s + n <= size /\ is_run bit v n s).
Proof.
  intros Hs Hn Hh [H | [[_ H] | [_ ->]]]; [right | right | by left];
    destruct H as (? & ? & ? & _); unfold ALL_BITS_SET; repeat split; auto; lia.
Qed.

(** C3. [RtlFindClearBits], on a bitmap whose last word is not a partial word of
    zeros: the word-by-word search returns the first run of [n] clear bits at or
    after the hint, else the first of the bitmap, else 0xFFFFFFFF, and never
    reads outside the buffer.  A run as long as the bitmap is refused. *)
Theorem RtlFindClearBits_spec bm n hint
  (Hwf : bm_wf bm) (Hlast : last_word_ok 0 bm) (Hn : 1 <= n) (Hh : 0 <= hint < 2 ^ 32) :
  (n < SizeOfBitMap bm ->
     exists s, RtlFindClearBits (Some bm) n hint = Ok s /\
       find_result (bm_bit bm) false (SizeOfBitMap bm) n hint s) /\
  (SizeOfBitMap bm <= n -> RtlFindClearBits (Some bm) n hint = Ok ALL_BITS_SET).
Proof.
  split; intros H; [apply find_clear_ok; auto; lia |].
  unfold RtlFindClearBits. rewrite nonnull_some, bind_ok.
  by replace (n <? SizeOfBitMap bm) with false by lia.
Qed.

(** [RtlFindSetBits], on a bitmap whose last word is not a partial word of
    ones: the same for set bits. *)
Theorem RtlFindSetBits_spec bm n hint
  (Hwf : bm_wf bm) (Hlast : last_word_ok ALL_BITS_SET bm) (Hn : 1 <= n) (Hh : 0 <= hint < 2 ^ 32) :
  (n < SizeOfBitMap bm ->
     exists s, RtlFindSetBits (Some bm) n hint = Ok s /\
       find_result (bm_bit bm) true (SizeOfBitMap bm) n hint s) /\
  (SizeOfBitMap bm <= n -> RtlFindSetBits (Some bm) n hint = Ok ALL_BITS_SET).
Proof.
  split; intros H; [apply find_set_ok; auto; lia |].
  unfold RtlFindSetBits. rewrite nonnull_some, bind_ok.
  by replace (n <? SizeOfBitMap bm) with false by lia.
Qed.

(** [RtlFindClearBitsAndSet] allocates: it either reports 0xFFFFFFFF and
    leaves the bitmap alone, or returns the start of [n] bits that were clear
    and are now the only ones changed, to set.  Under the same condition, and
    symmetrically for [RtlFindSetBitsAndClear]. *)
Theorem RtlFindAndWrite_spec bm n hint
  (Hwf : bm_wf bm) (Hn : 1 <= n < SizeOfBitMap bm) (Hh : 0 <= hint < 2 ^ 32) :
  (last_word_ok 0 bm ->
     RtlFindClearBitsAndSet (Some bm) n hint = Ok (ALL_BITS_SET, Some bm) \/
     exists s bm', RtlFindClearBitsAndSet (Some bm) n hint = Ok (s, Some bm') /\
       is_run (bm_bit bm) false n s /\ is_run (bm_bit bm') true n s /\
       bm_writes (fun i => (s <=? i) && (i <? s + n)) true bm bm') /\
  (last_word_ok ALL_BITS_SET bm ->
     RtlFindSetBitsAndClear (Some bm) n hint = Ok (ALL_BITS_SET, Some bm) \/
     exists s bm', RtlFindSetBitsAndClear (Some bm) n hint = Ok (s, Some bm') /\
       is_run (bm_bit bm) true n s /\ is_run (bm_bit bm') false n s /\
       bm_writes (fun i => (s <=? i) && (i <? s + n)) false bm bm').
Proof.
  pose proof Hwf as (Hs & Hl & _).
  assert (forall v s bm', 0 <= s -> s + n <= SizeOfBitMap bm ->
    bm_writes (fun i => (s <=? i) && (i <? s + n)) v bm bm' -> is_run (bm_bit bm') v n s) as Hrun.
  { intros v s bm' H0 Hle (_ & _ & _ & _ & B) i Hi. unfold bm_bit. rewrite B by lia.
    by replace ((s <=? i) && (i <? s + n)) with true by lia. }
  split; intros Hlast.
  - unfold RtlFindClearBitsAndSet.
    destruct (find_clear_ok bm Hwf n hint Hlast Hn Hh) as (s & -> & Hf). rewrite bind_ok.
    apply find_result_run in Hf as [-> | (Hne & H0 & Hle & Hr)]; try lia; [by left |].
    right. replace (s =? ALL_BITS_SET) with false by lia. simpl.
    destruct (set_bits_writes bm s n) as (bm' & -> & W); [done | lia | lia | done |].
    exists s, bm'. eauto.
  - unfold RtlFindSetBitsAndClear.
    destruct (find_set_ok bm Hwf n hint Hlast Hn Hh) as (s & -> & Hf). rewrite bind_ok.
    apply find_result_run in Hf as [-> | (Hne & H0 & Hle & Hr)]; try lia; [by left |].
    right. replace (s =? ALL_BITS_SET) with false by lia. simpl.
    destruct (clear_bits_writes bm s n) as (bm' & -> & W); [done | lia | lia | done |].
    exists s, bm'. eauto.
Qed.

(** ** [RtlFindNextForwardRunClear] *)

(** All the bits of a range are set. *)
Definition all_set (bit : Z -> bool) (lo hi : Z) : Prop := forall i, lo <= i < hi -> bit i = true.

(** What the search promises: the first clear bit at or after [from] and the
    length of the maximal run it starts; 0 and 0 if there is none. *)
Definition forward_result (bit : Z -> bool) (size from count start : Z) : Prop :=
  (count = 0 /\ start = 0 /\ all_set bit from size) \/
  (0 < count /\ from <= start /\ start + count <= size /\ all_set bit from start /\
   is_run bit false count start /\ (start + count = size \/ bit (start + count) = true)).

Section forward.
Context (b : list Z) (from : Z).
Context (Hb : Forall wf_word b) (Hfrom : 0 <= from).

(** The search has reached [pos] and the run, if started, reaches [pos]. *)
Definition forward_inv (pos : Z) (r : run) : Prop :=
  from <= pos /\ runEnded r = false /\
  if runStarted r then
    0 < runCount r /\ from <= startBit r /\ startBit r + runCount r = pos /\
    all_set (bit_of b) from (startBit r) /\ is_run (bit_of b) false (runCount r) (startBit r)
  else runCount r = 0 /\ startBit r = 0 /\ all_set (bit_of b) from pos.

(** The run has ended before [upto]. *)
Definition forward_done (upto : Z) (r : run) : Prop :=
  runEnded r = true /\ 0 < runCount r /\ from <= startBit r /\ startBit r + runCount r < upto /\
  all_set (bit_of b) from (startBit r) /\ is_run (bit_of b) false (runCount r) (startBit r) /\
  bit_of b (startBit r + runCount r) = true.

(** [k] more clear bits. *)
Lemma forward_grow pos k r :
  forward_inv pos r -> 0 < k -> is_run (bit_of b) false k pos ->
  forward_inv (pos + k) (mkRun true false (if runStarted r then startBit r else pos)
    (runCount r + k)).
Proof.
  intros (Hp & He & Hst) Hk Hr. split; [lia |]. split; [done |]. simpl.
  destruct (runStarted r).
  - destruct Hst as (Hc & Hs & Hpos & Hset & Hrun).
    split; [lia |]. split; [done |]. split; [lia |]. split; [done |].
    intros i Hi. destruct (Z.lt_ge_cases i pos); [apply Hrun; lia | apply Hr; lia].
  - destruct Hst as (-> & _ & Hset). split; [lia |]. split; [lia |]. split; [lia |].
    split; [done |]. intros i Hi. apply Hr. lia.
Qed.

Lemma CountClearRun_ok j e lo hi r :
  b !! Z.to_nat j = Some e -> 0 <= j -> 0 <= lo -> lo <= hi <= 31 ->
  32 * j + hi + 1 < 2 ^ 32 -> forward_inv (32 * j + lo) r ->
  (e = 0 -> runStarted r = true -> lo = 0 /\ hi = 31) ->
  forward_inv (32 * j + hi + 1) (CountClearRun e j lo hi r) \/
  forward_done (32 * j + hi + 1) (CountClearRun e j lo hi r).
Proof.
  intros Hl Hj Hlo Hhi Hov Hinv Hpart.
  assert (wf_word e) as He by (eapply Forall_lookup_1; eauto).
  assert (forall k, 0 <= k < 32 -> bit_of b (32 * j + k) = Z.testbit e k) as Hbit
    by (intros; by apply bit_of_element).
  unfold CountClearRun, CalculateBitNumberInBitMap, BITS_PER_ARRAY.
  destruct (Z.eqb_spec 0 e) as [<- | Ef].
  - assert (is_run (bit_of b) false (hi - lo + 1) (32 * j + lo)) as Hrun.
    { intros i Hi. replace i with (32 * j + (i - 32 * j)) by lia.
      rewrite Hbit by lia. apply Z.testbit_0_l. }
    left. pose proof (forward_grow _ (hi - lo + 1) r Hinv ltac:(lia) Hrun) as G.
    replace (32 * j + lo + (hi - lo + 1)) with (32 * j + hi + 1) in G by lia.
    destruct Hinv as (Hp & Hne & Hst). destruct (runStarted r) eqn:Es; simpl.
    + destruct Hpart as [-> ->]; [done | done |]. destruct Hst as (? & ? & ? & _).
      rewrite Hne, u32_id by lia. by replace (runCount r + 32) with (runCount r + (31 - 0 + 1)) by lia.
    + destruct Hst as (Hc & _ & _). rewrite Hc, Z.add_0_l in G.
      rewrite !u32_id by lia. by replace (j * 32 + lo) with (32 * j + lo) by lia.
  - simpl. unfold bfor_le.
    match goal with |- context [biter ?m lo ?f r] =>
      destruct (biter_inv (fun k r => forward_inv (32 * j + k) r)
        (fun k r => forward_done (32 * j + k + 1) r) f m lo r Hinv)
        as [(r' & -> & H) | (k & r' & -> & Hk & H)] end; simpl.
    + intros k r1 Hk Hinv1. rewrite bit_set_testbit, Z.mod_small by (auto; lia).
      pose proof Hinv1 as (Hp & Hne & Hst). destruct (Z.testbit e k) eqn:Et; simpl.
      * destruct (runStarted r1) eqn:Es; simpl.
        -- right. eexists. split; [done |]. destruct Hst as (? & ? & Hpos & ? & ?).
           unfold forward_done. simpl. rewrite Hpos, Hbit by lia. repeat split; auto; lia.
        -- left. eexists. split; [done |]. split; [lia |]. split; [done |]. rewrite Es.
           destruct Hst as (? & ? & Hset). split; [done |]. split; [done |].
           intros i Hi. destruct (Z.eq_dec i (32 * j + k)) as [-> |]; [by rewrite Hbit by lia |].
           apply Hset. lia.
      * left. eexists. split; [done |]. rewrite Z.add_assoc, Hne.
        assert (runCount r1 + 1 < 2 ^ 32 /\ 0 <= runCount r1) as [? ?]
          by (destruct (runStarted r1); [destruct Hst as (? & ? & ? & _) | destruct Hst as (? & _)]; lia).
        rewrite !u32_id by lia. replace (j * 32 + k) with (32 * j + k) by lia.
        replace (if negb (runStarted r1) then 32 * j + k else startBit r1)
          with (if runStarted r1 then startBit r1 else 32 * j + k) by (by destruct (runStarted r1)).
        apply forward_grow; [done | lia |]. intros i Hi.
        replace i with (32 * j + k) by lia. by rewrite Hbit by lia.
    + left. by replace (32 * j + hi + 1)
        with (32 * j + (lo + Z.of_nat (Z.to_nat (hi - lo + 1)))) by lia.
    + right. destruct H as (He' & Hc & Hf & Hlt & Hs & Hr & Hbt).
      repeat split; auto; lia.
Qed.

Lemma forward_inv_result size r :
  forward_inv size r -> forward_result (bit_of b) size from (runCount r) (startBit r).
Proof.
  intros (Hp & _ & Hst). destruct (runStarted r).
  - destruct Hst as (? & ? & ? & ? & ?). right. repeat split; auto; lia.
  - destruct Hst as (? & ? & ?). left. auto.
Qed.

Lemma forward_done_result upto size r :
  forward_done upto r -> upto <= size ->
  forward_result (bit_of b) size from (runCount r) (startBit r).
Proof. intros (? & ? & ? & ? & ? & ? & ?) ?. right. repeat split; auto; lia. Qed.

Lemma forward_start : forward_inv from (mkRun false false 0 0).
Proof. repeat split; simpl; try lia. intros i Hi. lia. Qed.

Lemma inv_ended pos r : forward_inv pos r -> runEnded r = false.
Proof. intros H. apply H. Qed.

Lemma done_ended upto r : forward_done upto r -> runEnded r = true.
Proof. intros H. apply H. Qed.

Context (size : Z) (Hfs : from < size < 2 ^ 32) (Hsize : size <= 32 * Z.of_nat (length b)).
Let lb := (size - 1) / 32.
Let lp := size - 1 - lb * 32.
Context (Hlast : size mod 32 = 0 \/ b !! Z.to_nat lb <> Some 0).

Lemma forward_last e lo r :
  b !! Z.to_nat lb = Some e -> 0 <= lo <= lp -> forward_inv (32 * lb + lo) r ->
  (lo = 0 \/ runStarted r = false) ->
  let r' := CountClearRun e lb lo lp r in
  forward_result (bit_of b) size from (runCount r') (startBit r').
Proof.
  intros Hl Hlo Hinv Hcase.
  assert (32 * lb + lp + 1 = size /\ 0 <= lb /\ 0 <= lp <= 31) as (E & Hlb & Hlp)
    by (subst lp lb; Z.div_mod_to_equations; lia).
  destruct (CountClearRun_ok lb e lo lp r) as [H | H]; try done; try lia.
  - intros -> Hs. destruct Hcase as [-> | Hc]; [| congruence].
    destruct Hlast as [Hm | Hne]; [| by destruct Hne].
    split; [done |]. subst lp lb. Z.div_mod_to_equations; lia.
  - rewrite E in H. by apply forward_inv_result.
  - rewrite E in H. eapply forward_done_result; [done | lia].
Qed.
End forward.

Lemma forward_ok bm from start :
  bm_wf bm -> last_word_ok 0 bm -> 0 <= from < SizeOfBitMap bm ->
  exists c s, RtlFindNextForwardRunClear (Some bm) from (Some start) = Ok (c, s) /\
    forward_result (bm_bit bm) (SizeOfBitMap bm) from c s.
Proof.
  intros (Hs & Hl & Hb) Hlast Hf. unfold RtlFindNextForwardRunClear.
  rewrite (nonnull_some bm), bind_ok, ddkassert_true, (nonnull_some start), bind_ok by lia.
  unfold CalculateArrayIndexFromBitNum, CalculateLastBufferIndex,
    CalculateBitPositionInArrayElement, BITS_PER_ARRAY.
  rewrite (u32_id (SizeOfBitMap bm - 1)) by lia.
  rewrite (u32_id (SizeOfBitMap bm - 1 - _)) by (Z.div_mod_to_equations; lia).
  rewrite (u32_id (from - _)) by (Z.div_mod_to_equations; lia).
  change (32 - 1) with 31. unfold last_word_ok, bm_bit in *.
  pose proof (forward_start (Buffer bm) from) as Hinv.
  pose proof (forward_last (Buffer bm) from Hb ltac:(lia) (SizeOfBitMap bm) ltac:(lia) Hlast) as Hfin.
  pose proof (CountClearRun_ok (Buffer bm) from Hb ltac:(lia)) as Hstep.
  pose proof (forward_done_result (Buffer bm) from) as Hdone.
  assert (0 <= (SizeOfBitMap bm - 1) / 32 < Z.of_nat (length (Buffer bm)) /\
    (SizeOfBitMap bm - 1) / 32 * 32 <= SizeOfBitMap bm - 1 < (SizeOfBitMap bm - 1) / 32 * 32 + 32)
    as [Hlb Hlp] by (Z.div_mod_to_equations; lia).
  assert (0 <= from / 32 <= (SizeOfBitMap bm - 1) / 32 /\
    from / 32 * 32 <= from < from / 32 * 32 + 32) as [Hsb Hlo]
    by (split; [split; [apply Z.div_pos; lia | apply Z.div_le_mono; lia] |
                Z.div_mod_to_equations; lia]).
  set (lb := (SizeOfBitMap bm - 1) / 32) in *. set (sb := from / 32) in *.
  replace from with (32 * sb + (from - sb * 32)) in Hinv at 2 by lia.
  destruct (array_get_ok (Buffer bm) sb) as (e & He & Hel); [lia |]. rewrite He, !bind_ok.
  destruct (Z.eqb_spec sb lb) as [E | E].
  - do 2 eexists. split; [reflexivity |]. rewrite E in *. apply Hfin; auto; lia.
  - destruct (Hstep sb e (from - sb * 32) 31 (mkRun false false 0 0)) as [H | H];
      try done; try lia.
    2: { rewrite (done_ended _ _ _ _ H).
         do 2 eexists. split; [reflexivity |]. eapply Hdone; [done | lia]. }
    rewrite (inv_ended _ _ _ _ H).
    set (r1 := CountClearRun _ _ _ _ _) in *. unfold rfor_le.
    match goal with |- context [riter ?m ?i ?f r1] =>
      destruct (riter_inv (fun j r => forward_inv (Buffer bm) from (32 * j) r)
        (fun j x => forward_result (bit_of (Buffer bm)) (SizeOfBitMap bm) from x.1 x.2) f m i r1)
        as [(r2 & -> & H2) | (j & r2 & -> & Hj & H2)] end.
    + by replace (32 * (sb + 1)) with (32 * sb + 31 + 1) by lia.
    + intros j r2 Hj Hinv2. destruct (array_get_ok (Buffer bm) j) as (ej & -> & Hlj); [lia |].
      rewrite bind_ok.
      destruct (Hstep j ej 0 31 r2) as [H3 | H3]; try done; try lia.
      * by rewrite Z.add_0_r.
      * rewrite (inv_ended _ _ _ _ H3). left. eexists.
        split; [done |]. by replace (32 * (j + 1)) with (32 * j + 31 + 1) by lia.
      * rewrite (done_ended _ _ _ _ H3). right. eexists.
        split; [done |]. eapply Hdone; [done | lia].
    + rewrite bind_ok. destruct (array_get_ok (Buffer bm) lb Hlb) as (el & -> & Hll).
      rewrite bind_ok. do 2 eexists. split; [reflexivity |]. apply Hfin; auto; try lia.
      rewrite Z.add_0_r.
      by replace (sb + 1 + Z.of_nat (Z.to_nat (lb - 1 - (sb + 1) + 1))) with lb in H2 by lia.
    + rewrite bind_ok. destruct r2 as [c s]. exists c, s. split; [reflexivity | done].
Qed.

(** [RtlFindNextForwardRunClear] and [RtlFindFirstRunClear]: the first
    clear bit at or after [from] and the length of the whole run it starts, or 0
    and 0 when every bit from there on is set, under the same condition on the
    last word; a start past the end of the bitmap or a missing output variable
    is an assertion failure. *)
Theorem RtlFindRunClear_spec bm from start
  (Hwf : bm_wf bm) (Hlast : last_word_ok 0 bm) (Hf : 0 <= from) :
  (from < SizeOfBitMap bm ->
     exists c s, RtlFindNextForwardRunClear (Some bm) from (Some start) = Ok (c, s) /\
       forward_result (bm_bit bm) (SizeOfBitMap bm) from c s) /\
  (exists c s, RtlFindFirstRunClear (Some bm) (Some start) = Ok (c, s) /\
       forward_result (bm_bit bm) (SizeOfBitMap bm) 0 c s) /\
  (SizeOfBitMap bm <= from -> RtlFindNextForwardRunClear (Some bm) from (Some start) =
     Err (AssertFailed "FromIndex < BitMapHeader->SizeOfBitMap")) /\
  RtlFindFirstRunClear (Some bm) None = Err (AssertFailed "NULL != StartingRunIndex").
Proof.
  pose proof Hwf as (Hs & _). split; [intros; apply forward_ok; auto; lia |].
  split; [apply forward_ok; auto; lia |].
  unfold RtlFindFirstRunClear, RtlFindNextForwardRunClear.
  rewrite !nonnull_some, !bind_ok. split.
  - intros. by rewrite ddkassert_false by lia.
  - by rewrite ddkassert_true by lia.
Qed.

(** ** Outside the condition *)

(** 40 bits of which the last 30 are clear. *)
Definition bm40 : RTL_BITMAP := mkBitmap 40 [2 ^ 10 - 1; 0].

(** Where the last word is a partial word of zeros, the short cut counts 32
    clear bits in it: a search for 36 bits succeeds on a bitmap that has no more
    than 30 of them, the allocation that follows it fails its assertion, and a
    forward run of 30 bits is reported as 54 long. *)
Theorem partial_last_word :
  bm_wf bm40 /\ no_run (bm_bit bm40) false 36 0 40 /\
  RtlFindClearBits (Some bm40) 36 0 = Ok 10 /\
  RtlFindClearBitsAndSet (Some bm40) 36 0 = Err (AssertFailed set_assert) /\
  ~ forward_result (bm_bit bm40) 40 10 54 10 /\
  RtlFindNextForwardRunClear (Some bm40) 10 (Some 0) = Ok (54, 10).
Proof.
  split; [| split; [| split; [vm_compute; reflexivity |
    split; [vm_compute; reflexivity | split; [| vm_compute; reflexivity]]]]].
  - split; [simpl; lia |]. split; [simpl; lia |]. repeat constructor; unfold wf_word; lia.
  - intros s H0 H1 Hr. assert (bm_bit bm40 4 = false) as H by (apply Hr; lia).
    vm_compute in H. discriminate.
  - intros [(H & _) | (_ & _ & H & _)]; lia.
Qed.

(** ** Witnesses *)

Lemma bm100_last w : w = 0 \/ w = ALL_BITS_SET -> last_word_ok w bm100.
Proof. intros [-> | ->]; right; vm_compute; discriminate. Defined.

Lemma RtlFindClearBits_spec_witness :
  exists s, RtlFindClearBits (Some bm100) 20 70 = Ok s /\
    find_result (bm_bit bm100) false 100 20 70 s.
Proof.
  apply (RtlFindClearBits_spec bm100 20 70 bm100_wf); [by apply bm100_last; left | | |];
    simpl; lia.
Defined.

Lemma RtlFindSetBits_spec_witness :
  exists s, RtlFindSetBits (Some bm100) 36 0 = Ok s /\
    find_result (bm_bit bm100) true 100 36 0 s.
Proof.
  apply (RtlFindSetBits_spec bm100 36 0 bm100_wf); [by apply bm100_last; right | | |];
    simpl; lia.
Defined.

Lemma RtlFindAndWrite_spec_witness :
  RtlFindClearBitsAndSet (Some bm100) 8 0 = Ok (ALL_BITS_SET, Some bm100) \/
  exists s bm', RtlFindClearBitsAndSet (Some bm100) 8 0 = Ok (s, Some bm') /\
    is_run (bm_bit bm100) false 8 s /\ is_run (bm_bit bm') true 8 s /\
    bm_writes (fun i => (s <=? i) && (i <? s + 8)) true bm100 bm'.
Proof.
  apply (RtlFindAndWrite_spec bm100 8 0 bm100_wf);
    [simpl; lia | simpl; lia | by apply bm100_last; left].
Defined.

Lemma RtlFindRunClear_spec_witness :
  exists c s, RtlFindNextForwardRunClear (Some bm100) 64 (Some 0) = Ok (c, s) /\
    forward_result (bm_bit bm100) 100 64 c s.
Proof.
  apply (RtlFindRunClear_spec bm100 64 0 bm100_wf); [by apply bm100_last; left | |];
    simpl; lia.
Defined.
