(* ===== verification/Strings.v ===== *)
(** * Strings: the counted strings of unicode.cpp and string.cpp

    A [UNICODE_STRING] or [STRING] is its header (two [USHORT] byte counts) and
    the bytes its [Buffer] points to, from there to the end of the memory the
    caller owns; [None] is the null pointer.  A [WCHAR] is two bytes, low byte
    first.  A read or write outside the memory is the fault [BadAccess].  The
    functions take the current IRQL as an argument where they assert on it.

    The character tables of the C runtime and the code page conversions depend
    on the process's locale: they are the class [Locale].  The source and the
    destination of an operation are different buffers. *)

From S2P Require Import Prelude.

(** ** The data *)

Record UNICODE_STRING := mkStr { Length : Z; MaximumLength : Z; Buffer : option (list Z) }.

(** [STRING] and [ANSI_STRING] have the same layout. *)
Abbreviation STRING := UNICODE_STRING.

Definition with_length (u : UNICODE_STRING) (n : Z) : UNICODE_STRING :=
  mkStr n (MaximumLength u) (Buffer u).

Definition with_bytes (u : UNICODE_STRING) (m : list Z) : UNICODE_STRING :=
  mkStr (Length u) (MaximumLength u) (Some m).

(** [((WCHAR * )m)[i]], read and written. *)
Definition wchar_at (m : list Z) (i : Z) : result Z :=
  lo ← array_get m (2 * i);
  hi ← array_get m (2 * i + 1);
  Ok (lo + 256 * hi).

Definition wchar_put (m : list Z) (i c : Z) : result (list Z) :=
  m ← array_set m (2 * i) (c mod 256);
  array_set m (2 * i + 1) (c / 256).

(** ** What the C runtime provides

    The language's own functions are written out; the tables they consult are
    the locale's. *)

Class Locale := {
  iswlower : Z -> bool;
  iswspace : Z -> bool;
  towupper : Z -> Z;
  towlower : Z -> Z;
  islower : Z -> bool;
  toupper : Z -> Z;
  tolower : Z -> Z;
  (** one character of [mbstowcs] and of [wcstombs], in a single-byte locale *)
  mbtowc : Z -> option Z;
  wctomb : Z -> option Z;
  (** [WideCharToMultiByte(CP_ACP, 0, s, n, 0, 0, NULL, NULL)] *)
  wide_to_ansi_size : option (list Z) -> Z -> Z
}.

Fixpoint wcslen (m : list Z) : result Z :=
  match m with
  | lo :: hi :: m' =>
      if (lo =? 0) && (hi =? 0) then Ok 0 else n ← wcslen m'; Ok (n + 1)
  | _ => Err (BadAccess 0)
  end.

Fixpoint strlen (m : list Z) : result Z :=
  match m with
  | c :: m' => if c =? 0 then Ok 0 else n ← strlen m'; Ok (n + 1)
  | [] => Err (BadAccess 0)
  end.

(** [memcpy(dst + doff, src, n)], byte by byte. *)
Definition copy_bytes (dst : list Z) (doff : Z) (src : list Z) (n : Z) : result (list Z) :=
  mfor_le 0 (n - 1) (fun i d => b ← array_get src i; array_set d (doff + i) b) dst.

(** [wcsncpy(&dst[off], src, n)]: the characters up to the NUL, then zeros. *)
Fixpoint wcsncpy (n : nat) (dst : list Z) (off : Z) (src : list Z) (i : Z) (ended : bool)
  : result (list Z) :=
  match n with
  | O => Ok dst
  | S n =>
      c ← (if ended then Ok 0 else wchar_at src i);
      dst ← wchar_put dst (off + i) c;
      wcsncpy n dst off src (i + 1) (c =? 0)
  end.

(** [strncmp] and [wcsncmp] ([fold] the identity), [_strnicmp] and [_wcsnicmp]
    ([fold] the lower case): at most [n] characters, up to the first that differ
    or are both NUL. *)
Fixpoint ncmp (at_ : list Z -> Z -> result Z) (fold : Z -> Z) (n : nat) (m1 m2 : list Z) (i : Z)
  : result Z :=
  match n with
  | O => Ok 0
  | S n =>
      c1 ← at_ m1 i;
      c2 ← at_ m2 i;
      if fold c1 =? fold c2 then
        if c1 =? 0 then Ok 0 else ncmp at_ fold n m1 m2 (i + 1)
      else Ok (fold c1 - fold c2)
  end.

(** [_ui64tow_s]: digits, most significant first, lower case. *)
Definition digit_char (d : Z) : Z := if d <? 10 then 48 + d else 97 + (d - 10).

Fixpoint ui64tow (fuel : nat) (val base : Z) (acc : list Z) : list Z :=
  match fuel with
  | O => acc
  | S fuel =>
      let acc := digit_char (val mod base) :: acc in
      if val / base =? 0 then acc else ui64tow fuel (val / base) base acc
  end.

Definition encode (cs : list Z) : list Z := concat (map (fun c => [c mod 256; c / 256]) cs).

(** ** unicode.cpp *)

(** [alloc] is the pool: the memory [_aligned_malloc] returns for a size. *)
Definition DdkAllocUnicodeBuffer (alloc : Z -> option (list Z)) (len : Z) : result (list Z) :=
  match alloc len with
  | Some m => Ok m
  | None => Err (DdkFailed "Unable to allocate memory")
  end.

Definition RtlInitUnicodeString (s : option (list Z)) : result UNICODE_STRING :=
  match s with
  | None => Ok (mkStr 0 0 None)
  | Some m =>
      n ← wcslen m;
      _ ← ddkassert (u64 ((n + 1) * 2) <=? 65535 - 1)
            "!s || ((wcslen(s) + 1) * sizeof(WCHAR)) <= (MAXUSHORT - 1)";
      let len := u16 (n * 2) in
      Ok (mkStr len (u16 (len + 2)) (Some m))
  end.

Definition RtlCopyUnicodeString (u : UNICODE_STRING) (s : option UNICODE_STRING)
  : result UNICODE_STRING :=
  match s with
  | None => Ok (with_length u 0)
  | Some s =>
      let n := Z.min (MaximumLength u) (Length s) in
      if n =? 0 then Ok (with_length u 0) else
      d ← deref (Buffer u);
      b ← deref (Buffer s);
      d ← copy_bytes d 0 b n;
      Ok (mkStr (u16 n) (MaximumLength u) (Some d))
  end.

Definition RtlIntegerToUnicodeString (irql val base : Z) (u : option UNICODE_STRING)
  : result (Z * UNICODE_STRING) :=
  u ← nonnull u "u != NULL";
  _ ← ddkassert (irql =? PASSIVE_LEVEL) "KeGetCurrentIrql() == PASSIVE_LEVEL";
  let base := if base =? 0 then 10 else base in
  if negb ((base =? 10) || (base =? 2) || (base =? 8) || (base =? 16))
  then Ok (STATUS_INVALID_PARAMETER, u) else
  let buf := ui64tow 64 val base [] in
  let lenInBytes := Z.of_nat (length buf) * 2 in
  if lenInBytes >? MaximumLength u then Ok (STATUS_BUFFER_OVERFLOW, u) else
  d ← deref (Buffer u);
  d ← copy_bytes d 0 (encode buf) lenInBytes;
  Ok (STATUS_SUCCESS, mkStr (u16 lenInBytes) (MaximumLength u) (Some d)).

Section unicode.
Context `{Locale}.

Definition wcsncmp := ncmp wchar_at id.
Definition wcsnicmp := ncmp wchar_at towlower.

(** The lengths are byte counts, as the only caller passes them. *)
Definition RtlCompareUnicodeStrings (irql : Z) (String1 : option (list Z)) (String1Length : Z)
    (String2 : option (list Z)) (String2Length : Z) (ign : bool) : result Z :=
  _ ← ddkassert (irql =? PASSIVE_LEVEL) "KeGetCurrentIrql() == PASSIVE_LEVEL";
  let l := if String1Length <? String2Length then String1Length else String2Length in
  rc ← (if l =? 0 then Ok 0 else
        m1 ← deref String1;
        m2 ← deref String2;
        if ign then wcsnicmp (Z.to_nat (l / 2)) m1 m2 0
        else wcsncmp (Z.to_nat (l / 2)) m1 m2 0);
  if negb (rc =? 0) then Ok rc else
  Ok (s32 (u32 (u64 (String1Length - String2Length)))).

Definition RtlCompareUnicodeString (irql : Z) (u1 u2 : UNICODE_STRING) (ign : bool) : result Z :=
  RtlCompareUnicodeStrings irql (Buffer u1) (Length u1) (Buffer u2) (Length u2) ign.

Definition RtlEqualUnicodeString (irql : Z) (String1 String2 : UNICODE_STRING)
    (CaseInSensitive : bool) : result bool :=
  rc ← RtlCompareUnicodeString irql String1 String2 CaseInSensitive;
  Ok (rc =? 0).

Definition RtlAppendUnicodeToString (Destination : UNICODE_STRING) (Source : list Z)
  : result (Z * UNICODE_STRING) :=
  n ← wcslen Source;
  let n := u16 n in
  if Length Destination + n * 2 >? MaximumLength Destination
  then Ok (STATUS_BUFFER_TOO_SMALL, Destination) else
  d ← (if n =? 0 then Ok (Buffer Destination) else
       d ← deref (Buffer Destination);
       d ← wcsncpy (Z.to_nat n) d (Length Destination / 2) Source 0 false;
       Ok (Some d));
  Ok (STATUS_SUCCESS,
      mkStr (u16 (Length Destination + n * 2)) (MaximumLength Destination) d).

(** The [while] loop of [RtlAppendUnicodeStringToString]. *)
Fixpoint append_loop (fuel : nat) (u : UNICODE_STRING) (s : UNICODE_STRING) (i : Z)
  : result UNICODE_STRING :=
  if (Length u <? MaximumLength u) && (i <? Length s) then
    match fuel with
    | O => Err NoFuel
    | S fuel =>
        b ← deref (Buffer s);
        c ← array_get b i;
        d ← deref (Buffer u);
        d ← array_set d (Length u) c;
        append_loop fuel (mkStr (u16 (Length u + 1)) (MaximumLength u) (Some d)) s (i + 1)
    end
  else Ok u.

Definition RtlAppendUnicodeStringToString (u s : UNICODE_STRING) : result (Z * UNICODE_STRING) :=
  if Length u + Length s >? MaximumLength u then Ok (STATUS_BUFFER_TOO_SMALL, u) else
  u ← append_loop (Z.to_nat (Length s)) u s 0;
  Ok (STATUS_SUCCESS, u).

Definition RtlUpcaseUnicodeString (irql : Z) (alloc : Z -> option (list Z))
    (DestinationString SourceString : UNICODE_STRING) (AllocateDestinationString : bool)
  : result (Z * UNICODE_STRING) :=
  _ ← ddkassert (irql <=? APC_LEVEL) "KeGetCurrentIrql() <= APC_LEVEL";
  D ← (if AllocateDestinationString then
         m ← DdkAllocUnicodeBuffer alloc (Length SourceString);
         Ok (mkStr (Length DestinationString) (Length SourceString) (Some m))
       else Ok DestinationString);
  if MaximumLength D <? Length SourceString then Ok (STATUS_BUFFER_TOO_SMALL, D) else
  d ← nonnull (Buffer D) "DestinationString->Buffer != NULL";
  let wlen := Length SourceString / 2 in
  d ← (if wlen =? 0 then Ok d else
       b ← deref (Buffer SourceString);
       mfor_le 0 (wlen - 1) (fun i d =>
         ch ← wchar_at b i;
         wchar_put d i (if iswlower ch then towupper ch else ch)) d);
  Ok (STATUS_SUCCESS, mkStr (Length SourceString) (MaximumLength D) (Some d)).

(** The two loops of [RtlUnicodeStringToInteger]; [head] and [tail] are indices
    into the buffer. *)
Fixpoint skip_space (fuel : nat) (b : list Z) (head tail : Z) : result Z :=
  if head <=? tail then
    match fuel with
    | O => Err NoFuel
    | S fuel =>
        c ← wchar_at b head;
        if iswspace c then skip_space fuel b (head + 1) tail else Ok head
    end
  else Ok head.

Definition ULONG_MAX : Z := 0xFFFFFFFF.

Definition char_digit (c : Z) : Z :=
  if (48 <=? c) && (c <=? 57) then c - 48
  else if (97 <=? c) && (c <=? 102) then c - 97 + 10
  else if (65 <=? c) && (c <=? 70) then c - 65 + 10
  else ULONG_MAX.

Fixpoint parse_digits (fuel : nat) (b : list Z) (head tail Base Value : Z) : result Z :=
  if head <=? tail then
    match fuel with
    | O => Err NoFuel
    | S fuel =>
        c ← wchar_at b head;
        let digit := char_digit c in
        if digit >=? Base then Ok Value
        else parse_digits fuel b (head + 1) tail Base (u32 (u32 (Value * Base) + digit))
    end
  else Ok Value.

(** The prefix of a number whose base is not given: [0x], [0o] or [0b]. *)
Definition parse_prefix (b : list Z) (head tail Base : Z) : result (Z * Z) :=
  if (Base =? 0) && (head <? tail) then
    c ← wchar_at b head;
    if c =? 48 then
      let head := head + 1 in
      c ← wchar_at b head;
      let Base := if c =? 120 then 16 else if c =? 111 then 8 else if c =? 98 then 2 else 0 in
      Ok ((if Base =? 0 then head else head + 1), Base)
    else Ok (head, Base)
  else Ok (head, Base).

(** Returns the status and [*Value]. *)
Definition RtlUnicodeStringToInteger (irql : Z) (String : UNICODE_STRING) (Base : Z)
  : result (Z * Z) :=
  _ ← ddkassert (irql =? PASSIVE_LEVEL) "KeGetCurrentIrql() == PASSIVE_LEVEL";
  if negb ((Base =? 16) || (Base =? 10) || (Base =? 8) || (Base =? 2) || (Base =? 0))
     || (Length String =? 0)
  then Ok (STATUS_INVALID_PARAMETER, 0) else
  b ← deref (Buffer String);
  let tail := (Length String - 1) / 2 in
  head ← skip_space (Z.to_nat (tail + 1)) b 0 tail;
  '(head, sign) ← (if head <=? tail then
                     c ← wchar_at b head;
                     Ok (if (c =? 43) || (c =? 45) then (head + 1, c) else (head, 43))
                   else Ok (head, 43));
  '(head, Base) ← parse_prefix b head tail Base;
  let Base := if Base =? 0 then 10 else Base in
  Value ← parse_digits (Z.to_nat (tail + 1)) b head tail Base 0;
  Ok (STATUS_SUCCESS, if sign =? 45 then u32 (- s32 Value) else Value).

Definition RtlUpcaseUnicodeChar (irql SourceCharacter : Z) : result Z :=
  _ ← ddkassert (irql <=? APC_LEVEL) "KeGetCurrentIrql() <= APC_LEVEL";
  Ok (towupper SourceCharacter).

Definition RtlDowncaseUnicodeChar (irql SourceCharacter : Z) : result Z :=
  _ ← ddkassert (irql =? PASSIVE_LEVEL) "KeGetCurrentIrql() == PASSIVE_LEVEL";
  Ok (towlower SourceCharacter).

Definition HASH_STRING_ALGORITHM_DEFAULT : Z := 0.
Definition HASH_STRING_ALGORITHM_X65599 : Z := 1.

(** One turn of the loop of [RtlHashUnicodeString]. *)
Definition hash_step (hash c : Z) : Z :=
  u32 (u32 (u32 (c + u32 (Z.shiftl hash 6)) + u32 (Z.shiftl hash 16)) - hash).

(** [HashValue] is the variable the output pointer points to; returns the status
    and what is stored there. *)
Definition RtlHashUnicodeString (irql : Z) (String : option UNICODE_STRING)
    (CaseInSensitive : bool) (HashAlgorithm : Z) (HashValue : option Z)
  : result (Z * option Z) :=
  _ ← ddkassert (irql <=? APC_LEVEL) "KeGetCurrentIrql() <= APC_LEVEL";
  match String, HashValue with
  | Some s, Some _ =>
      if negb (HashAlgorithm =? HASH_STRING_ALGORITHM_DEFAULT) &&
         negb (HashAlgorithm =? HASH_STRING_ALGORITHM_X65599)
      then Ok (STATUS_INVALID_PARAMETER, HashValue) else
      let n := Length s / 2 in
      hash ← (if n =? 0 then Ok 0 else
              b ← deref (Buffer s);
              mfor_le 0 (n - 1) (fun i hash =>
                c ← wchar_at b i;
                Ok (hash_step hash (if CaseInSensitive then towupper c else c))) 0);
      Ok (STATUS_SUCCESS, Some hash)
  | _, _ => Ok (STATUS_INVALID_PARAMETER, HashValue)
  end.

(** Returns the buffer that is freed, if any, and the string. *)
Definition RtlFreeUnicodeString (u : UNICODE_STRING) : option (list Z) * UNICODE_STRING :=
  (Buffer u, mkStr (Length u) (MaximumLength u) None).

(** ** Conversions between the two kinds of string *)

(** [mbstowcs(NULL, s, _)]: how many characters, up to the NUL; -1 if one of
    them does not convert.  The count argument is ignored with a null
    destination. *)
Fixpoint mbstowcs_len (m : list Z) : result Z :=
  match m with
  | [] => Err (BadAccess 0)
  | c :: m' =>
      if c =? 0 then Ok 0 else
      match mbtowc c with
      | None => Ok (-1)
      | Some _ => n ← mbstowcs_len m'; Ok (if n =? -1 then -1 else n + 1)
      end
  end.

(** [mbstowcs(dst, src, n)]: at most [n] characters, up to and with the NUL,
    which is not counted; [None] for the count -1. *)
Fixpoint mbstowcs (n : nat) (dst src : list Z) (i : Z) : result (option Z * list Z) :=
  match n with
  | O => Ok (Some i, dst)
  | S n =>
      c ← array_get src i;
      if c =? 0 then dst ← wchar_put dst i 0; Ok (Some i, dst) else
      match mbtowc c with
      | None => Ok (None, dst)
      | Some w => dst ← wchar_put dst i w; mbstowcs n dst src (i + 1)
      end
  end.

Fixpoint wcstombs (n : nat) (dst src : list Z) (i : Z) : result (option Z * list Z) :=
  match n with
  | O => Ok (Some i, dst)
  | S n =>
      w ← wchar_at src i;
      if w =? 0 then dst ← array_set dst i 0; Ok (Some i, dst) else
      match wctomb w with
      | None => Ok (None, dst)
      | Some c => dst ← array_set dst i c; wcstombs n dst src (i + 1)
      end
  end.

Definition RtlxAnsiStringToUnicodeSize (AnsiString : STRING) : result Z :=
  m ← deref (Buffer AnsiString);
  len ← mbstowcs_len m;
  Ok (if len >=? 0 then u32 ((len + 1) * 2) else 0).

(** [(size_t)-1 * sizeof(WCHAR)] as a [USHORT] is 0xFFFE. *)
Definition RtlAnsiStringToUnicodeString (irql : Z) (alloc : Z -> option (list Z))
    (DestinationString : UNICODE_STRING) (SourceString : STRING)
    (AllocateDestinationString : bool) : result (Z * UNICODE_STRING) :=
  _ ← ddkassert (irql =? PASSIVE_LEVEL) "KeGetCurrentIrql() == PASSIVE_LEVEL";
  len ← RtlxAnsiStringToUnicodeSize SourceString;
  if len =? 0 then Ok (STATUS_INVALID_PARAMETER, DestinationString) else
  D ← (if AllocateDestinationString then
         m ← DdkAllocUnicodeBuffer alloc len;
         Ok (mkStr (Length DestinationString) (u16 len) (Some m))
       else Ok DestinationString);
  if len >? MaximumLength D + 2 then Ok (STATUS_BUFFER_TOO_SMALL, D) else
  d ← deref (Buffer D);
  b ← deref (Buffer SourceString);
  '(count, d) ← mbstowcs (Z.to_nat (MaximumLength D / 2)) d b 0;
  Ok (STATUS_SUCCESS, mkStr (u16 (default (-1) count * 2)) (MaximumLength D) (Some d)).

Definition RtlxUnicodeStringToAnsiSize (UnicodeString : UNICODE_STRING) : Z :=
  u32 (wide_to_ansi_size (Buffer UnicodeString) (Length UnicodeString / 2) + 1).

Definition RtlUnicodeStringToAnsiString (irql : Z) (alloc : Z -> option (list Z))
    (DestinationString : STRING) (SourceString : UNICODE_STRING)
    (AllocateDestinationString : bool) : result (Z * STRING) :=
  _ ← ddkassert (irql =? PASSIVE_LEVEL) "KeGetCurrentIrql() == PASSIVE_LEVEL";
  let len := RtlxUnicodeStringToAnsiSize SourceString in
  D ← (if AllocateDestinationString then
         m ← DdkAllocUnicodeBuffer alloc (u16 len);
         Ok (mkStr (Length DestinationString) (u16 len) (Some m))
       else Ok DestinationString);
  if negb AllocateDestinationString && (len >? MaximumLength D)
  then Ok (STATUS_BUFFER_TOO_SMALL, D) else
  d ← deref (Buffer D);
  b ← deref (Buffer SourceString);
  '(count, d) ← wcstombs (Z.to_nat (MaximumLength D)) d b 0;
  Ok (STATUS_SUCCESS, mkStr (u16 (default (-1) count)) (MaximumLength D) (Some d)).

(** The loop of [DdkUnicodeToString] that skips leading characters. *)
Fixpoint skip_char (fuel : nat) (b : list Z) (start len remove : Z) : result Z :=
  if start + 2 - 1 <? len then
    match fuel with
    | O => Err NoFuel
    | S fuel =>
        c ← wchar_at b (start / 2);
        if c =? remove then skip_char fuel b (u16 (start + 2)) len remove else Ok start
    end
  else Ok start.

(** [malloc] is what [malloc] returns for a size; the result is the new
    NUL-terminated string. *)
Definition DdkUnicodeToString (malloc : Z -> option (list Z)) (u : option UNICODE_STRING)
    (remove : Z) : result (option (list Z)) :=
  match u with
  | None => Ok None
  | Some u =>
      start ← (if remove =? 0 then Ok 0 else
               if Length u <? 2 then Ok 0 else
               b ← deref (Buffer u);
               skip_char (Z.to_nat (Length u)) b 0 (Length u) remove);
      match malloc (Length u + 2 - start) with
      | None => Err (DdkFailed "Unable to allocate memory")
      | Some s =>
          s ← (if Length u - start =? 0 then Ok s else
               b ← deref (Buffer u);
               copy_bytes s 0 (drop (Z.to_nat start) b) (Length u - start));
          s ← array_set s (Length u - start) 0;
          s ← array_set s (Length u - start + 1) 0;
          Ok (Some s)
      end
  end.

(** ** string.cpp *)

Definition RtlInitAnsiString (s : option (list Z)) : result STRING :=
  match s with
  | None => Ok (mkStr 0 0 None)
  | Some m =>
      n ← strlen m;
      _ ← ddkassert (n <=? 65535 - 1) "!s || strlen(s) <= (MAXUSHORT - 1)";
      Ok (mkStr (u16 n) (u16 (u16 n + 1)) (Some m))
  end.

Definition RtlInitString := RtlInitAnsiString.

Definition strncmp := ncmp (@array_get Z) id.
Definition strnicmp := ncmp (@array_get Z) tolower.

Definition RtlCompareString (s1 s2 : STRING) (ign : bool) : result Z :=
  let l := if Length s1 <? Length s2 then Length s1 else Length s2 in
  rc ← (if l =? 0 then Ok 0 else
        m1 ← deref (Buffer s1);
        m2 ← deref (Buffer s2);
        if ign then strnicmp (Z.to_nat l) m1 m2 0 else strncmp (Z.to_nat l) m1 m2 0);
  if negb (rc =? 0) then Ok rc else Ok (Length s1 - Length s2).

Definition RtlFreeAnsiString (irql : Z) (s : STRING) : result (option (list Z) * STRING) :=
  _ ← ddkassert (irql <=? APC_LEVEL) "KeGetCurrentIrql() <= APC_LEVEL";
  Ok (Buffer s, mkStr (Length s) (MaximumLength s) None).

Definition RtlCopyString (DestinationString SourceString : option STRING) : result STRING :=
  D ← nonnull DestinationString "DestinationString != NULL";
  match SourceString with
  | None => Ok (with_length D 0)
  | Some s =>
      let len := if Length s <? MaximumLength D then Length s else MaximumLength D in
      d ← nonnull (Buffer D) "DestinationString->Buffer != NULL";
      d ← (if len =? 0 then Ok d else b ← deref (Buffer s); copy_bytes d 0 b len);
      Ok (mkStr len (MaximumLength D) (Some d))
  end.

Definition RtlEqualString (irql : Z) (s1 s2 : STRING) (CaseInSensitive : bool) : result bool :=
  _ ← ddkassert (irql =? PASSIVE_LEVEL) "KeGetCurrentIrql() == PASSIVE_LEVEL";
  rc ← RtlCompareString s1 s2 CaseInSensitive;
  Ok (rc =? 0).

Definition RtlUpperString (irql : Z) (DestinationString SourceString : option STRING)
  : result STRING :=
  _ ← ddkassert (irql <=? APC_LEVEL) "KeGetCurrentIrql() <= APC_LEVEL";
  _ ← ddkassert (match DestinationString, SourceString with None, None => false | _, _ => true end)
        "DestinationString != NULL || SourceString != NULL";
  s ← deref SourceString;
  D ← deref DestinationString;
  let len := if Length s <? MaximumLength D then Length s else MaximumLength D in
  d ← (if len =? 0 then Ok (Buffer D) else
       b ← deref (Buffer s);
       d ← deref (Buffer D);
       d ← mfor_le 0 (len - 1) (fun i d =>
         ch ← array_get b i;
         array_set d i (if islower ch then toupper ch else ch)) d;
       Ok (Some d));
  Ok (mkStr len (MaximumLength D) d).
End unicode.
