(* ===== verification/StringsOps.v ===== *)
(** * StringsOps: what the string operations do

    The abstract view of a counted string is its content, the first [Length]
    bytes of its buffer; a string of characters [cs] is one whose content is
    [encode cs]. *)

From S2P Require Import Prelude Strings.

(** ** The abstract view *)

Definition is_byte (b : Z) : Prop := 0 <= b < 2 ^ 8.
Definition is_wchar (c : Z) : Prop := 0 <= c < 2 ^ 16.

(** [u] is a usable string in the memory [m]. *)
Definition str_in (u : UNICODE_STRING) (m : list Z) : Prop :=
  Buffer u = Some m /\ 0 <= Length u <= MaximumLength u /\ MaximumLength u < 2 ^ 16 /\
  MaximumLength u <= Z.of_nat (length m).

Definition content (u : UNICODE_STRING) : list Z :=
  match Buffer u with Some m => take (Z.to_nat (Length u)) m | None => [] end.

(** [u] holds the characters [cs]. *)
Definition holds (u : UNICODE_STRING) (cs : list Z) : Prop :=
  Length u = 2 * Z.of_nat (length cs) /\ Forall is_wchar cs /\
  match Buffer u with
  | Some m => exists rest, m = encode cs ++ rest
  | None => cs = []
  end.

(** ** Bytes and characters *)

Lemma encode_length cs : length (encode cs) = (2 * length cs)%nat.
Proof. induction cs as [|c cs IH]; simpl in *; [done |]. unfold encode in IH. lia. Qed.

Lemma encode_app a b : encode (a ++ b) = encode a ++ encode b.
Proof. unfold encode. by rewrite map_app, concat_app. Qed.

Lemma array_get_lookup {A} (m : list A) i a :
  0 <= i -> m !! Z.to_nat i = Some a -> array_get m i = Ok a.
Proof.
  intros Hi Hl. unfold array_get. apply lookup_lt_Some in Hl as Hlt. rewrite Hl.
  by replace ((0 <=? i) && (i <? Z.of_nat (length m))) with true by lia.
Qed.

Lemma encode_lookup cs i c :
  cs !! i = Some c ->
  encode cs !! (2 * i)%nat = Some (c mod 256) /\ encode cs !! (2 * i + 1)%nat = Some (c / 256).
Proof.
  revert i. induction cs as [|a cs IH]; intros i H; [done |]. destruct i as [|i]; simpl in *.
  - by injection H as ->.
  - destruct (IH i H). by replace (i + S (i + 0))%nat with (S (2 * i)) by lia.
Qed.

Lemma wchar_at_encode cs rest i c :
  Forall is_wchar cs -> 0 <= i -> cs !! Z.to_nat i = Some c ->
  wchar_at (encode cs ++ rest) i = Ok c.
Proof.
  intros Hw Hi Hc. destruct (encode_lookup cs (Z.to_nat i) c Hc) as [H1 H2].
  apply lookup_lt_Some in H1 as L1. apply lookup_lt_Some in H2 as L2.
  unfold wchar_at.
  rewrite (array_get_lookup _ (2 * i) (c mod 256)), bind_ok;
    [| lia | rewrite lookup_app_l; replace (Z.to_nat (2 * i)) with (2 * Z.to_nat i)%nat by lia; auto].
  rewrite (array_get_lookup _ (2 * i + 1) (c / 256)), bind_ok;
    [| lia | rewrite lookup_app_l; replace (Z.to_nat (2 * i + 1)) with (2 * Z.to_nat i + 1)%nat by lia; auto].
  f_equal. pose proof (Z.div_mod c 256). lia.
Qed.

(** [wchar_put] at the end of a prefix of whole characters. *)
Lemma wchar_put_next pre k c b0 b1 rest :
  length pre = Z.to_nat (2 * k) -> 0 <= k ->
  wchar_put (pre ++ b0 :: b1 :: rest) k c = Ok (pre ++ encode [c] ++ rest).
Proof.
  intros L Hk. unfold wchar_put.
  rewrite array_set_ok, bind_ok by (rewrite length_app; simpl; lia).
  rewrite array_set_ok by (rewrite length_insert, length_app; simpl; lia). f_equal.
  rewrite insert_app_r_alt by lia. replace (Z.to_nat (2 * k) - length pre)%nat with 0%nat by lia.
  simpl. rewrite insert_app_r_alt by lia.
  by replace (Z.to_nat (2 * k + 1) - length pre)%nat with 1%nat by lia.
Qed.

(** [memcpy] replaces [n] bytes. *)
Lemma copy_bytes_ok dst doff src n :
  0 <= doff -> 0 <= n -> doff + n <= Z.of_nat (length dst) -> n <= Z.of_nat (length src) ->
  copy_bytes dst doff src n =
    Ok (take (Z.to_nat doff) dst ++ take (Z.to_nat n) src ++ drop (Z.to_nat (doff + n)) dst).
Proof.
  intros Hd Hn H1 H2. unfold copy_bytes, mfor_le.
  match goal with |- context [miter ?m 0 ?f dst] =>
    destruct (miter_inv (fun i d => d = take (Z.to_nat doff) dst ++ take (Z.to_nat i) src ++
      drop (Z.to_nat (doff + i)) dst) f m 0 dst) as (d & -> & ->) end.
  - rewrite Z.add_0_r. simpl. by rewrite take_drop.
  - intros i d Hi ->. destruct (array_get_ok src i) as (b & -> & Hb); [lia |].
    rewrite bind_ok. rewrite array_set_ok.
    2: { rewrite !length_app, !length_take, length_drop. lia. }
    eexists. split; [done |].
    rewrite insert_app_r_alt by (rewrite length_take; lia).
    rewrite insert_app_r_alt by (rewrite !length_take; lia).
    rewrite !length_take.
    replace (Z.to_nat (doff + i) - Z.to_nat doff `min` length dst - Z.to_nat i `min` length src)%nat
      with 0%nat by lia.
    replace (Z.to_nat (i + 1)) with (S (Z.to_nat i)) by lia.
    rewrite (take_S_r _ _ _ Hb), <- app_assoc. f_equal. f_equal.
    destruct (lookup_lt_is_Some_2 dst (Z.to_nat (doff + i))) as [x Hx]; [lia |].
    rewrite (drop_S _ _ _ Hx). simpl. do 2 f_equal. lia.
  - replace (0 + Z.of_nat (Z.to_nat (n - 1 - 0 + 1))) with n by lia. done.
Qed.

(** ** Lengths of NUL-terminated strings *)

Definition no_nul (cs : list Z) : Prop := Forall (fun c => c <> 0) cs.

Lemma wcslen_ok cs rest :
  Forall is_wchar cs -> no_nul cs ->
  wcslen (encode cs ++ 0 :: 0 :: rest) = Ok (Z.of_nat (length cs)).
Proof.
  induction cs as [|c cs IH]; intros Hw Hn; [done |].
  apply Forall_cons in Hw as [Hc Hw]. apply Forall_cons in Hn as [Hz Hn]. unfold is_wchar in Hc.
  change (encode (c :: cs) ++ 0 :: 0 :: rest)
    with (c mod 256 :: c / 256 :: (encode cs ++ 0 :: 0 :: rest)). cbn [wcslen].
  replace ((c mod 256 =? 0) && (c / 256 =? 0)) with false
    by (pose proof (Z.div_mod c 256); lia).
  rewrite IH, bind_ok by done. f_equal. simpl length. lia.
Qed.

Lemma strlen_ok cs rest : no_nul cs -> strlen (cs ++ 0 :: rest) = Ok (Z.of_nat (length cs)).
Proof.
  induction cs as [|c cs IH]; intros Hn; [done |]. apply Forall_cons in Hn as [Hz Hn]. cbn.
  replace (c =? 0) with false by lia. rewrite IH, bind_ok by done. f_equal. lia.
Qed.

(** [wcsncpy] of characters that are not NUL overwrites as many. *)
Lemma wcsncpy_ok n cs rest pre mid post off i :
  Forall is_wchar cs -> no_nul cs -> length pre = Z.to_nat (2 * (off + i)) -> 0 <= off -> 0 <= i ->
  length mid = (2 * n)%nat -> (Z.to_nat i + n <= length cs)%nat ->
  wcsncpy n (pre ++ mid ++ post) off (encode cs ++ rest) i false =
    Ok (pre ++ encode (take n (drop (Z.to_nat i) cs)) ++ post).
Proof.
  intros Hw Hn. revert pre mid i. induction n as [|n IH]; intros pre mid i Hp Ho Hi Hm Hle.
  - destruct mid; [done | simpl in Hm; lia].
  - destruct (lookup_lt_is_Some_2 cs (Z.to_nat i)) as [c Hc]; [lia |].
    cbn [wcsncpy]. rewrite (wchar_at_encode cs rest i c), bind_ok by done.
    destruct mid as [|b0 [|b1 mid]]; [simpl in Hm; lia | simpl in Hm; lia |]. simpl app.
    rewrite wchar_put_next, bind_ok by lia.
    replace (c =? 0) with false by (pose proof (proj1 (Forall_lookup _ _) Hn _ _ Hc); simpl in *; lia).
    rewrite (drop_S _ _ _ Hc). cbn [take]. change (encode (c :: ?x)) with (encode [c] ++ encode x).
    rewrite (app_assoc pre (encode [c])). rewrite IH.
    + rewrite <- !app_assoc. by replace (Z.to_nat (i + 1)) with (S (Z.to_nat i)) by lia.
    + rewrite length_app, encode_length. simpl. lia.
    + done.
    + lia.
    + simpl in Hm. lia.
    + lia.
Qed.

(** ** Append *)

(** [u'] is [u] with the bytes [bs] appended to its content and nothing else of
    its memory changed. *)
Definition appended (u : UNICODE_STRING) (m bs : list Z) (u' : UNICODE_STRING) : Prop :=
  exists m', str_in u' m' /\ content u' = content u ++ bs /\
    MaximumLength u' = MaximumLength u /\ length m' = length m /\
    drop (Z.to_nat (Length u')) m' = drop (Z.to_nat (Length u')) m.

Lemma appended_intro u m bs :
  str_in u m -> Length u + Z.of_nat (length bs) <= MaximumLength u ->
  appended u m bs (mkStr (Length u + Z.of_nat (length bs)) (MaximumLength u)
    (Some (take (Z.to_nat (Length u)) m ++ bs ++
           drop (Z.to_nat (Length u + Z.of_nat (length bs))) m))).
Proof.
  intros (Hb & HL & HM & Hm) Hle. set (n := Z.of_nat (length bs)) in *.
  exists (take (Z.to_nat (Length u)) m ++ bs ++ drop (Z.to_nat (Length u + n)) m).
  unfold str_in, content. simpl. rewrite Hb, !length_app, length_take, length_drop.
  repeat split; try lia.
  - rewrite app_assoc. apply take_app_length'. rewrite length_app, length_take. lia.
  - rewrite app_assoc. apply drop_app_length'. rewrite length_app, length_take. lia.
Qed.

Lemma append_loop_ok fuel u m s b i :
  str_in u m -> str_in s b -> 0 <= i <= Length s -> Length u + (Length s - i) <= MaximumLength u ->
  (Z.to_nat (Length s - i) <= fuel)%nat ->
  let bs := drop (Z.to_nat i) (content s) in
  append_loop fuel u s i =
    Ok (mkStr (Length u + Z.of_nat (length bs)) (MaximumLength u)
      (Some (take (Z.to_nat (Length u)) m ++ bs ++
             drop (Z.to_nat (Length u + Z.of_nat (length bs))) m))).
Proof.
  intros Hu Hs. revert u m i Hu. induction fuel as [|fuel IH]; intros u m i Hu Hi Hle Hf bs.
  - assert (i = Length s) as -> by lia.
    assert (bs = []) as -> by (apply nil_length_inv; subst bs; destruct Hs as (E & ?);
      unfold content; rewrite E, length_drop, length_take; lia).
    cbn. replace (Length s <? Length s) with false by lia. rewrite andb_false_r, Z.add_0_r.
    simpl. rewrite take_drop. destruct u as [L M B]. destruct Hu as (E & _). simpl in *. by subst B.
  - assert (length bs = Z.to_nat (Length s - i)) as Lbs
      by (subst bs; destruct Hs as (E & ?); unfold content; rewrite E, length_drop, length_take; lia).
    pose proof Hu as (EB & HL & HM & Hm). pose proof Hs as (ES & HLs & HMs & Hms).
    cbn. destruct (Z.ltb_spec i (Length s)) as [Hlt | Hge].
    + replace (Length u <? MaximumLength u) with true by lia. simpl.
      rewrite ES, EB, !deref_some, !bind_ok.
      destruct (array_get_ok b i) as (c & -> & Hc); [lia |]. rewrite !bind_ok.
      rewrite array_set_ok, bind_ok, u16_id by lia.
      rewrite (IH _ (<[Z.to_nat (Length u):=c]> m)); simpl; try lia.
      2: { unfold str_in. simpl. rewrite length_insert. repeat split; lia. }
      assert (bs = c :: drop (Z.to_nat (i + 1)) (content s)) as ->.
      { subst bs. unfold content. rewrite ES.
        rewrite (drop_S _ c); [f_equal; f_equal; lia |]. rewrite lookup_take_lt by lia. done. }
      set (tl := drop (Z.to_nat (i + 1)) (content s)). f_equal. f_equal; [simpl; lia |].
      f_equal. rewrite drop_insert_lt by lia.
      replace (Z.to_nat (Length u + 1)) with (S (Z.to_nat (Length u))) by lia.
      rewrite (take_S_r _ _ c) by (apply list_lookup_insert_eq; lia).
      rewrite take_insert_ge by lia. rewrite <- app_assoc. simpl. do 3 f_equal. f_equal. lia.
    + rewrite andb_false_r. assert (bs = []) as -> by (apply nil_length_inv; lia).
      simpl. rewrite Z.add_0_r, take_drop. destruct u as [L M B]. simpl in *. by subst B.
Qed.

(** ** Parsing and printing integers *)

(** What the code relies on in the character tables. *)
Class LocaleLaws `{Locale} : Prop := {
  digit_not_space : forall d, 0 <= d < 16 -> iswspace (digit_char d) = false;
  towlower_nul : forall c, towlower c = 0 <-> c = 0;
  towlower_towupper : forall a b, towlower a = towlower b -> towupper a = towupper b
}.

Fixpoint dropwhile (p : Z -> bool) (cs : list Z) : list Z :=
  match cs with
  | c :: cs' => if p c then dropwhile p cs' else cs
  | [] => []
  end.

Fixpoint takewhile (p : Z -> bool) (cs : list Z) : list Z :=
  match cs with
  | c :: cs' => if p c then c :: takewhile p cs' else []
  | [] => []
  end.

(** The number that digits spell, most significant first. *)
Definition spell (base v : Z) (ds : list Z) : Z := fold_left (fun v d => v * base + d) ds v.

Definition digits_value (base v : Z) (cs : list Z) : Z :=
  spell base v (map char_digit (takewhile (fun c => char_digit c <? base) cs)).

(** The sign, then the base, at the front of a list of characters. *)
Definition split_sign (cs : list Z) : bool * list Z :=
  match cs with
  | c :: cs' => if (c =? 43) || (c =? 45) then (c =? 45, cs') else (false, cs)
  | [] => (false, [])
  end.

Definition split_base (base : Z) (cs : list Z) : Z * list Z :=
  if base =? 0 then
    match cs with
    | c0 :: c :: cs' =>
        if negb (c0 =? 48) then (10, cs) else
        if c =? 120 then (16, cs') else if c =? 111 then (8, cs')
        else if c =? 98 then (2, cs') else (10, c :: cs')
    | _ => (10, cs)
    end
  else (base, cs).

(** What [RtlUnicodeStringToInteger] promises: skip white space, take a sign and
    a base prefix, and read digits of the base up to the first other character;
    the value is taken modulo 2^32. *)
Definition integer_of `{Locale} (base : Z) (cs : list Z) : Z :=
  let '(neg, cs) := split_sign (dropwhile iswspace cs) in
  let '(base, cs) := split_base base cs in
  u32 (if neg : bool then - digits_value base 0 cs else digits_value base 0 cs).

Section integer.
Context `{LocaleLaws}.
Context (cs rest : list Z) (Hw : Forall is_wchar cs).
Let b := encode cs ++ rest.
Let tail := Z.of_nat (length cs) - 1.

Lemma wchar_at_b i c : 0 <= i -> cs !! Z.to_nat i = Some c -> wchar_at b i = Ok c.
Proof. intros. by apply wchar_at_encode. Qed.

Lemma drop_next i : 0 <= i <= tail ->
  exists c, cs !! Z.to_nat i = Some c /\ wchar_at b i = Ok c /\
    drop (Z.to_nat i) cs = c :: drop (Z.to_nat (i + 1)) cs.
Proof.
  intros Hi. destruct (lookup_lt_is_Some_2 cs (Z.to_nat i)) as [c Hc]; [lia |].
  exists c. split; [done |]. split; [apply wchar_at_b; [lia | done] |].
  rewrite (drop_S _ _ _ Hc). do 2 f_equal. lia.
Qed.

Lemma drop_end i : tail < i -> drop (Z.to_nat i) cs = [].
Proof. intros. apply drop_ge. lia. Qed.

Lemma skip_space_ok fuel i :
  0 <= i <= tail + 1 -> (Z.to_nat (tail + 1 - i) <= fuel)%nat ->
  exists h, skip_space fuel b i tail = Ok h /\ 0 <= h <= tail + 1 /\
    drop (Z.to_nat h) cs = dropwhile iswspace (drop (Z.to_nat i) cs).
Proof.
  revert i. induction fuel as [|fuel IH]; intros i Hi Hf; cbn [skip_space];
    (destruct (Z.leb_spec i tail) as [Hle | Hgt];
     [| exists i; rewrite drop_end by lia; done]).
  - lia.
  - destruct (drop_next i) as (c & Hc & -> & Hd); [lia |]. rewrite bind_ok, Hd. cbn [dropwhile].
    destruct (iswspace c) eqn:Es; [apply IH; lia |].
    exists i. split; [done |]. split; [lia | done].
Qed.

Lemma u32_step base v d : u32 (u32 (u32 v * base) + d) = u32 (v * base + d).
Proof.
  unfold u32. rewrite Zplus_mod_idemp_l.
  rewrite Zplus_mod, (Zmult_mod_idemp_l v), <- Zplus_mod. done.
Qed.

Lemma parse_digits_ok fuel i base v :
  0 <= i <= tail + 1 -> (Z.to_nat (tail + 1 - i) <= fuel)%nat ->
  parse_digits fuel b i tail base (u32 v) =
    Ok (u32 (digits_value base v (drop (Z.to_nat i) cs))).
Proof.
  revert i v. induction fuel as [|fuel IH]; intros i v Hi Hf; cbn [parse_digits];
    (destruct (Z.leb_spec i tail) as [Hle | Hgt]; [| by rewrite drop_end by lia]).
  - lia.
  - destruct (drop_next i) as (c & Hc & -> & Hd); [lia |]. rewrite bind_ok, Hd.
    unfold digits_value. cbn [takewhile]. rewrite Z.geb_leb.
    destruct (Z.ltb_spec (char_digit c) base).
    + replace (base <=? char_digit c) with false by lia. rewrite u32_step, IH by lia. done.
    + by replace (base <=? char_digit c) with true by lia.
Qed.

Lemma sign_ok h :
  0 <= h <= tail + 1 ->
  exists i s,
    (if h <=? tail then
       c ← wchar_at b h; Ok (if (c =? 43) || (c =? 45) then (h + 1, c) else (h, 43))
     else Ok (h, 43)) = Ok (i, s) /\ 0 <= i <= tail + 1 /\
    split_sign (drop (Z.to_nat h) cs) = (s =? 45, drop (Z.to_nat i) cs).
Proof.
  intros Hh. destruct (Z.leb_spec h tail).
  - destruct (drop_next h) as (c & Hc & -> & Hd); [lia |]. rewrite bind_ok, Hd. cbn [split_sign].
    destruct ((c =? 43) || (c =? 45)).
    + exists (h + 1), c. split; [done |]. split; [lia | done].
    + exists h, 43. rewrite Hd. split; [done |]. split; [lia | done].
  - exists h, 43. rewrite drop_end by lia. done.
Qed.

Lemma prefix_ok h base :
  0 <= h <= tail + 1 ->
  exists i base', parse_prefix b h tail base = Ok (i, base') /\ 0 <= i <= tail + 1 /\
    split_base base (drop (Z.to_nat h) cs) =
      (if base' =? 0 then 10 else base', drop (Z.to_nat i) cs).
Proof.
  intros Hh. unfold parse_prefix, split_base. destruct (Z.eqb_spec base 0) as [-> | Hb]; simpl.
  2: { exists h, base. split; [done |]. split; [lia |]. by replace (base =? 0) with false by lia. }
  destruct (Z.ltb_spec h tail).
  - destruct (drop_next h) as (c & Hc & -> & Hd); [lia |].
    destruct (drop_next (h + 1)) as (c' & Hc' & Ew & Hd'); [lia |].
    rewrite bind_ok, Hd, Hd'. destruct (Z.eqb_spec c 48) as [-> | Hc48].
    + rewrite Ew, bind_ok. simpl.
      destruct (c' =? 120); [exists (h + 1 + 1), 16; split; [reflexivity | split; [lia | done]] |].
      destruct (c' =? 111); [exists (h + 1 + 1), 8; split; [reflexivity | split; [lia | done]] |].
      destruct (c' =? 98); [exists (h + 1 + 1), 2; split; [reflexivity | split; [lia | done]] |].
      exists (h + 1), 0. split; [reflexivity | split; [lia | by rewrite <- Hd']].
    + exists h, 0. split; [done |]. split; [lia |]. by rewrite Hd, Hd'.
  - exists h, 0. split; [done |]. split; [lia |]. simpl.
    destruct (Z.le_gt_cases h tail); [| by rewrite drop_end by lia].
    destruct (drop_next h) as (c & Hc & _ & ->); [lia |]. by rewrite (drop_end (h + 1)) by lia.
Qed.
End integer.

Lemma holds_buffer u cs : holds u cs -> cs <> [] ->
  exists rest, Buffer u = Some (encode cs ++ rest).
Proof.
  intros (_ & _ & Hb) Hne. destruct (Buffer u) as [m|]; [| done].
  destruct Hb as [rest ->]. by exists rest.
Qed.

Lemma to_integer_ok `{LocaleLaws} s cs base :
  holds s cs -> cs <> [] -> In base [0; 2; 8; 10; 16] ->
  RtlUnicodeStringToInteger 0 s base = Ok (STATUS_SUCCESS, integer_of base cs).
Proof.
  intros Hs Hne Hbase. pose proof Hs as (HL & Hw & _).
  destruct (holds_buffer s cs Hs Hne) as [rest Hb].
  assert (0 < Z.of_nat (length cs)) by (destruct cs; [done | simpl; lia]).
  unfold RtlUnicodeStringToInteger. rewrite ddkassert_true by done.
  replace (negb _ || _) with false
    by (simpl in Hbase; destruct Hbase as [<- | [<- | [<- | [<- | [<- | []]]]]]; simpl; lia).
  rewrite Hb, deref_some, bind_ok, HL.
  replace ((2 * Z.of_nat (length cs) - 1) / 2) with (Z.of_nat (length cs) - 1)
    by (Z.div_mod_to_equations; lia).
  destruct (skip_space_ok cs rest Hw (Z.to_nat (Z.of_nat (length cs) - 1 + 1)) 0)
    as (h & -> & Hh & Hd); [lia | lia |]. rewrite bind_ok.
  destruct (sign_ok cs rest Hw h) as (i & sg & -> & Hi & Hsg); [lia |]. rewrite bind_ok.
  destruct (prefix_ok cs rest Hw i base) as (j & base' & -> & Hj & Hpre); [lia |]. rewrite bind_ok.
  change (Z.to_nat 0) with 0%nat in Hd. rewrite drop_0 in Hd.
  set (base2 := if base' =? 0 then 10 else base') in *.
  pose proof (parse_digits_ok cs rest Hw (Z.to_nat (Z.of_nat (length cs) - 1 + 1)) j base2 0) as P.
  change (u32 0) with 0 in P. rewrite P, bind_ok by lia.
  unfold integer_of. rewrite <- Hd, Hsg, Hpre. do 2 f_equal.
  destruct (sg =? 45); [| done]. unfold s32, u32.
  set (v := digits_value _ _ _). Z.div_mod_to_equations. lia.
Qed.

(** [_ui64tow_s] spells the number. *)
Lemma spell_app base v ds ds' : spell base v (ds ++ ds') = spell base (spell base v ds) ds'.
Proof. apply fold_left_app. Qed.

Lemma char_digit_char d : 0 <= d < 16 -> char_digit (digit_char d) = d.
Proof.
  intros Hd. unfold char_digit, digit_char. destruct (Z.ltb_spec d 10).
  - replace ((48 <=? 48 + d) && (48 + d <=? 57)) with true by lia. lia.
  - replace ((48 <=? 97 + (d - 10)) && (97 + (d - 10) <=? 57)) with false by lia.
    replace ((97 <=? 97 + (d - 10)) && (97 + (d - 10) <=? 102)) with true by lia. lia.
Qed.

Lemma ui64tow_ok fuel base val acc :
  2 <= base <= 16 -> 0 <= val < base ^ Z.of_nat fuel -> (0 < fuel)%nat ->
  exists ds, ui64tow fuel val base acc = map digit_char ds ++ acc /\ ds <> [] /\
    (length ds <= fuel)%nat /\ Forall (fun d => 0 <= d < base) ds /\ spell base 0 ds = val.
Proof.
  intros Hb. revert val acc. induction fuel as [|fuel IH]; intros val acc Hv Hf; [lia |].
  cbn [ui64tow]. pose proof (Z.mod_pos_bound val base). pose proof (Z.div_mod val base).
  destruct (Z.eqb_spec (val / base) 0) as [E | E].
  - exists [val mod base]. split; [done |]. split; [done |]. split; [simpl; lia |].
    split; [repeat constructor; lia |]. unfold spell. simpl. lia.
  - assert (0 <= val / base < base ^ Z.of_nat fuel) as Hr.
    { split; [apply Z.div_pos; lia |]. apply Z.div_lt_upper_bound; [lia |].
      replace (Z.of_nat (S fuel)) with (Z.of_nat fuel + 1) in Hv by lia.
      rewrite Z.pow_add_r, Z.pow_1_r in Hv by lia. lia. }
    assert (0 < fuel)%nat by (destruct fuel; [simpl in Hr; lia | lia]).
    destruct (IH (val / base) (digit_char (val mod base) :: acc)) as (ds & -> & Hne & Hl & Hd & Hs);
      [done | done |].
    exists (ds ++ [val mod base]). rewrite map_app, <- app_assoc. split; [done |].
    split; [by destruct ds |]. rewrite length_app. simpl. split; [lia |].
    split; [apply Forall_app; split; [done | repeat constructor; lia] |].
    rewrite spell_app, Hs. unfold spell. simpl. lia.
Qed.

Lemma takewhile_all p cs : Forall (fun c => p c = true) cs -> takewhile p cs = cs.
Proof. induction 1 as [|c cs Hc _ IH]; [done |]. simpl. by rewrite Hc, IH. Qed.

Lemma digit_char_range d : 0 <= d < 16 -> 48 <= digit_char d <= 102 /\ digit_char d <> 120 /\
  digit_char d <> 111.
Proof. intros. unfold digit_char. case_z; lia. Qed.

Lemma integer_of_digits `{LocaleLaws} base ds :
  2 <= base <= 16 -> ds <> [] -> Forall (fun d => 0 <= d < base) ds ->
  integer_of base (map digit_char ds) = u32 (spell base 0 ds).
Proof.
  intros Hb Hne Hd. unfold integer_of. destruct ds as [|d ds]; [done |].
  apply Forall_cons in Hd as Hd2. destruct Hd2 as [Hd0 _]. simpl map. cbn [dropwhile].
  rewrite digit_not_space by lia. pose proof (digit_char_range d). cbn [split_sign].
  replace ((digit_char d =? 43) || (digit_char d =? 45)) with false by lia.
  unfold split_base. replace (base =? 0) with false by lia.
  change (digit_char d :: map digit_char ds) with (map digit_char (d :: ds)).
  unfold digits_value. rewrite takewhile_all.
  - do 2 f_equal. rewrite map_map. rewrite <- (map_id (d :: ds)) at 2.
    apply map_ext_in. intros x Hx. apply char_digit_char.
    apply list_elem_of_In in Hx. eapply Forall_forall in Hd; [| done]. simpl in Hd. lia.
  - apply Forall_map. eapply Forall_impl; [exact Hd |]. intros x Hx. simpl in Hx |- *.
    rewrite char_digit_char by lia. lia.
Qed.
