(* ===== verification/StringsSpec.v ===== *)
(** * StringsSpec: the promises of the string operations

    Integer conversion, append, copy, comparison, hashing and case mapping,
    stated over the characters a string holds. *)

From S2P Require Import Prelude Strings StringsOps.

(** ** Comparison *)

(** The characters up to the first NUL. *)
Definition c_string (cs : list Z) : list Z := takewhile (fun c => negb (c =? 0)) cs.

(** [wcsncmp] on characters, over the shorter of two lists. *)
Fixpoint cmp (fold : Z -> Z) (a b : list Z) : Z :=
  match a, b with
  | x :: a', y :: b' =>
      if fold x =? fold y then if x =? 0 then 0 else cmp fold a' b' else fold x - fold y
  | _, _ => 0
  end.

Lemma ncmp_wchar fold n a b ra rb i :
  Forall is_wchar a -> Forall is_wchar b -> 0 <= i ->
  (Z.to_nat i + n <= length a)%nat -> (Z.to_nat i + n <= length b)%nat ->
  ncmp wchar_at fold n (encode a ++ ra) (encode b ++ rb) i =
    Ok (cmp fold (take n (drop (Z.to_nat i) a)) (take n (drop (Z.to_nat i) b))).
Proof.
  intros Ha Hb. revert i. induction n as [|n IH]; intros i Hi La Lb; [done |].
  destruct (lookup_lt_is_Some_2 a (Z.to_nat i)) as [x Hx]; [lia |].
  destruct (lookup_lt_is_Some_2 b (Z.to_nat i)) as [y Hy]; [lia |].
  cbn [ncmp]. rewrite (wchar_at_encode a ra i x), bind_ok by done.
  rewrite (wchar_at_encode b rb i y), bind_ok by done.
  rewrite (drop_S _ _ _ Hx), (drop_S _ _ _ Hy). cbn [take cmp].
  destruct (fold x =? fold y); [| done]. destruct (x =? 0); [done |].
  rewrite IH by lia. by replace (Z.to_nat (i + 1)) with (S (Z.to_nat i)) by lia.
Qed.

Lemma cmp_swap fold a b :
  (forall c, fold c = 0 <-> c = 0) -> cmp fold b a = - cmp fold a b.
Proof.
  intros Hf. revert b. induction a as [|x a IH]; intros [|y b]; try done.
  cbn [cmp]. rewrite (Z.eqb_sym (fold y)). destruct (Z.eqb_spec (fold x) (fold y)) as [E |]; [| lia].
  pose proof (Hf x). pose proof (Hf y). rewrite IH. case_z; lia || done.
Qed.

Lemma cmp_zero fold a b :
  (forall c, fold c = 0 <-> c = 0) -> length a = length b ->
  cmp fold a b = 0 <-> map fold (c_string a) = map fold (c_string b).
Proof.
  intros Hf. unfold c_string. revert b. induction a as [|x a IH]; intros [|y b] L; try done.
  cbn [cmp takewhile]. pose proof (Hf x) as Hx. pose proof (Hf y) as Hy.
  destruct (Z.eqb_spec x 0) as [-> | Hx0]; destruct (Z.eqb_spec y 0) as [-> | Hy0]; simpl.
  - by rewrite Z.eqb_refl.
  - assert (fold y <> 0) by tauto. replace (fold 0) with 0 by (symmetry; by apply Hf).
    replace (0 =? fold y) with false by lia. split; [lia | done].
  - assert (fold x <> 0) by tauto. replace (fold 0) with 0 by (symmetry; by apply Hf).
    replace (fold x =? 0) with false by lia. split; [lia | done].
  - destruct (Z.eqb_spec (fold x) (fold y)) as [E | E].
    + rewrite IH by (simpl in L; lia). rewrite E. split; [by intros -> | by intros [= ->]].
    + split; [lia | intros [= ? ?]; done].
Qed.

Lemma c_string_all cs : no_nul cs -> c_string cs = cs.
Proof.
  intros H. apply takewhile_all. eapply Forall_impl; [exact H |]. intros x Hx. simpl in *. lia.
Qed.

(** The comparison of the contents, then of the lengths. *)
Definition compare_spec (fold : Z -> Z) (a b : list Z) : Z :=
  let n := Nat.min (length a) (length b) in
  let rc := cmp fold (take n a) (take n b) in
  if rc =? 0 then 2 * (Z.of_nat (length a) - Z.of_nat (length b)) else rc.

Definition fold_case `{Locale} (ign : bool) : Z -> Z := if ign then towlower else id.

Lemma fold_case_nul `{LocaleLaws} ign c : fold_case ign c = 0 <-> c = 0.
Proof. destruct ign; simpl; [apply towlower_nul | done]. Qed.

Lemma compare_ok `{LocaleLaws} u1 u2 a b ign :
  holds u1 a -> holds u2 b -> Z.of_nat (length a) < 2 ^ 15 -> Z.of_nat (length b) < 2 ^ 15 ->
  RtlCompareUnicodeString 0 u1 u2 ign = Ok (compare_spec (fold_case ign) a b).
Proof.
  intros Ha Hb Lla Llb. pose proof Ha as (La & Wa & _). pose proof Hb as (Lb & Wb & _).
  unfold RtlCompareUnicodeString, RtlCompareUnicodeStrings. rewrite ddkassert_true by done.
  set (n := Nat.min (length a) (length b)).
  replace (if Length u1 <? Length u2 then Length u1 else Length u2) with (2 * Z.of_nat n)
    by (case_z; lia).
  assert (s32 (u32 (u64 (Length u1 - Length u2))) =
          2 * (Z.of_nat (length a) - Z.of_nat (length b))) as Es.
  { rewrite La, Lb. unfold s32, u32, u64. Z.div_mod_to_equations. lia. }
  unfold compare_spec. fold n. destruct (Z.eqb_spec (2 * Z.of_nat n) 0) as [E | E].
  - assert (n = 0%nat) as -> by lia. rewrite bind_ok. simpl take. by rewrite Es.
  - destruct (holds_buffer u1 a Ha) as [ra ->]; [by intros -> |].
    destruct (holds_buffer u2 b Hb) as [rb ->]; [intros ->; simpl in *; lia |].
    rewrite !deref_some, !bind_ok.
    replace (Z.to_nat (2 * Z.of_nat n / 2)) with n by (Z.div_mod_to_equations; lia).
    assert (forall fold, ncmp wchar_at fold n (encode a ++ ra) (encode b ++ rb) 0 =
      Ok (cmp fold (take n a) (take n b))) as Hc.
    { intros fold. rewrite ncmp_wchar by (done || lia). by rewrite !drop_0. }
    unfold wcsnicmp, wcsncmp, fold_case. destruct ign; rewrite Hc, bind_ok, Es;
      by destruct (_ =? 0).
Qed.

Lemma compare_spec_swap fold a b :
  (forall c, fold c = 0 <-> c = 0) -> compare_spec fold b a = - compare_spec fold a b.
Proof.
  intros Hf. unfold compare_spec. cbv zeta. rewrite (Nat.min_comm (length b)), (cmp_swap fold (take (length a `min` length b) a)) by done.
  case_z; lia.
Qed.

Lemma compare_spec_zero fold a b :
  (forall c, fold c = 0 <-> c = 0) ->
  compare_spec fold a b = 0 <->
    length a = length b /\ map fold (c_string a) = map fold (c_string b).
Proof.
  intros Hf. unfold compare_spec. cbv zeta.
  set (rc := cmp fold _ _). destruct (Z.eqb_spec rc 0) as [E | E]; subst rc.
  - split; [intros Hl | intros [-> _]; lia]. assert (length a = length b) as L by lia.
    split; [done |]. rewrite L, Nat.min_id in E. rewrite (take_ge b) in E by lia.
    rewrite take_ge in E by lia. by apply cmp_zero.
  - split; [done |]. intros [L Hm]. exfalso. apply E. rewrite L, Nat.min_id.
    rewrite (take_ge b), take_ge by lia. by apply cmp_zero.
Qed.

(** ** Hashing *)

(** The polynomial of [HASH_STRING_ALGORITHM_X65599]. *)
Definition x65599 (cs : list Z) : Z := fold_left (fun h c => h * 65599 + c) cs 0.

Lemma hash_step_ok h c : hash_step (u32 h) c = u32 (h * 65599 + c).
Proof.
  unfold hash_step. rewrite !Z.shiftl_mul_pow2 by lia. unfold u32.
  change (2 ^ 6) with 64. change (2 ^ 16) with 65536. change (2 ^ 32) with 4294967296.
  Z.div_mod_to_equations. lia.
Qed.

Lemma x65599_snoc cs c : x65599 (cs ++ [c]) = x65599 cs * 65599 + c.
Proof. unfold x65599. by rewrite fold_left_app. Qed.

Definition hash_case `{Locale} (ign : bool) : Z -> Z := if ign then towupper else id.

Lemma hash_ok `{Locale} irql u cs ign alg old :
  holds u cs -> irql <= APC_LEVEL -> alg = 0 \/ alg = 1 ->
  RtlHashUnicodeString irql (Some u) ign alg (Some old) =
    Ok (STATUS_SUCCESS, Some (u32 (x65599 (map (hash_case ign) cs)))).
Proof.
  intros Hu Hi Ha. pose proof Hu as (L & Hw & _). unfold RtlHashUnicodeString.
  rewrite ddkassert_true by lia.
  replace (negb (alg =? _) && _) with false
    by (unfold HASH_STRING_ALGORITHM_DEFAULT, HASH_STRING_ALGORITHM_X65599; lia).
  replace (Length u / 2) with (Z.of_nat (length cs)) by (Z.div_mod_to_equations; lia).
  destruct (Z.eqb_spec (Z.of_nat (length cs)) 0) as [E | E].
  - by destruct cs; [| simpl in E; lia].
  - destruct (holds_buffer u cs Hu) as [rest ->]; [intros ->; simpl in *; lia |].
    rewrite deref_some, bind_ok. unfold mfor_le.
    match goal with |- context [miter ?m 0 ?f 0] =>
      destruct (miter_inv (fun i h => h = u32 (x65599 (map (hash_case ign) (take (Z.to_nat i) cs))))
        f m 0 0) as (h & -> & ->) end; [done | |].
    + intros i h Hi' ->. destruct (lookup_lt_is_Some_2 cs (Z.to_nat i)) as [c Hc]; [lia |].
      rewrite (wchar_at_encode cs rest i c), bind_ok by (done || lia).
      eexists. split; [done |].
      replace (Z.to_nat (i + 1)) with (S (Z.to_nat i)) by lia.
      rewrite (take_S_r _ _ _ Hc), map_app. cbn [map]. rewrite x65599_snoc, hash_step_ok.
      by destruct ign.
    + rewrite bind_ok. rewrite take_ge by lia. done.
Qed.

(** ** The properties *)

Definition passive_assert : string := "KeGetCurrentIrql() == PASSIVE_LEVEL".

Lemma print_ok val base u m :
  2 <= base <= 16 -> In base [2; 8; 10; 16] -> 0 <= val < 2 ^ 32 -> str_in u m ->
  exists ds, ui64tow 64 val base [] = map digit_char ds /\ ds <> [] /\
    Forall (fun d => 0 <= d < base) ds /\ spell base 0 ds = val /\
    RtlIntegerToUnicodeString 0 val base (Some u) =
      if 2 * Z.of_nat (length ds) >? MaximumLength u then Ok (STATUS_BUFFER_OVERFLOW, u)
      else Ok (STATUS_SUCCESS, mkStr (2 * Z.of_nat (length ds)) (MaximumLength u)
        (Some (encode (map digit_char ds) ++ drop (2 * length ds) m))).
Proof.
  intros Hb2 Hb Hv (EB & HL & HM & Hm).
  destruct (ui64tow_ok 64 base val []) as (ds & E & Hne & Hl & Hd & Hs); [done | | lia |].
  { split; [lia |]. apply Z.lt_le_trans with (2 ^ Z.of_nat 64); [simpl; lia |].
    apply Z.pow_le_mono_l; lia. }
  rewrite app_nil_r in E. exists ds. repeat (split; [done |]).
  unfold RtlIntegerToUnicodeString. rewrite nonnull_some, bind_ok, ddkassert_true by done.
  replace (if base =? 0 then 10 else base) with base by (case_z; lia).
  replace (negb _) with false by (simpl in Hb; case_z; simpl; lia || done).
  rewrite E, length_map, (Z.mul_comm _ 2). destruct (Z.gtb_spec (2 * Z.of_nat (length ds)) (MaximumLength u)).
  - done.
  - rewrite EB, deref_some, bind_ok, copy_bytes_ok; try lia.
    2: { rewrite encode_length, length_map. lia. }
    rewrite bind_ok, u16_id by lia. change (Z.to_nat 0) with 0%nat. rewrite take_0, app_nil_l.
    rewrite take_ge by (rewrite encode_length, length_map; lia).
    by replace (Z.to_nat (0 + 2 * Z.of_nat (length ds))) with (2 * length ds)%nat by lia.
Qed.

(** The text has as many characters as the number has digits. *)
Lemma ui64tow_length base fuel : 2 <= base -> forall val acc, 0 <= val < base ^ Z.of_nat fuel -> (0 < fuel)%nat ->
  exists n, length (ui64tow fuel val base acc) = (n + length acc)%nat /\ (0 < n)%nat /\
    val < base ^ Z.of_nat n /\ ((1 < n)%nat -> base ^ (Z.of_nat n - 1) <= val).
Proof.
  intros Hb. induction fuel as [| fuel IH]; intros val acc Hv Hf; [lia |]. cbn [ui64tow].
  pose proof (Z.div_mod val base ltac:(lia)) as Hd. pose proof (Z.mod_pos_bound val base ltac:(lia)) as Hr.
  destruct (Z.eqb_spec (val / base) 0) as [E | E].
  - exists 1%nat. split; [done |]. split; [lia |]. split; [rewrite Z.pow_1_r; nia | lia].
  - rewrite Nat2Z.inj_succ, Z.pow_succ_r in Hv by lia. pose proof (Z.div_pos val base ltac:(lia) ltac:(lia)) as Hq.
    assert (val / base < base ^ Z.of_nat fuel) as Hlt by (apply Z.div_lt_upper_bound; lia).
    destruct fuel as [| fuel]; [change (base ^ Z.of_nat 0) with 1 in Hlt; lia |].
    destruct (IH (val / base) (digit_char (val mod base) :: acc) ltac:(lia) ltac:(lia)) as (n & El & Hn & Hu & Hl).
    exists (S n). rewrite El. cbn [length]. split; [lia |]. split; [lia |].
    rewrite Nat2Z.inj_succ, Z.pow_succ_r by lia. split; [nia |]. intros _.
    replace (Z.succ (Z.of_nat n) - 1) with (Z.of_nat n) by lia.
    destruct (decide (1 < n)%nat) as [H1 | H1].
    + specialize (Hl H1). replace (Z.of_nat n) with (Z.succ (Z.of_nat n - 1)) by lia. rewrite Z.pow_succ_r by lia. nia.
    + replace n with 1%nat by lia. rewrite Z.pow_1_r. nia.
Qed.

Lemma is_wchar_digits base ds :
  base <= 16 -> Forall (fun d => 0 <= d < base) ds -> Forall is_wchar (map digit_char ds).
Proof.
  intros Hb Hd. apply Forall_map. eapply Forall_impl; [exact Hd |]. intros d Hr. simpl in *.
  pose proof (digit_char_range d). unfold is_wchar. lia.
Qed.

(** C8. [RtlIntegerToUnicodeString] and [RtlUnicodeStringToInteger] are inverse,
    for every base the first one takes and every 32-bit value: where its [n] digits
    fit the buffer, and a buffer of their exact size is enough, they are stored,
    nothing past them changes, and reading them back gives the value; where they do
    not fit, the status says so and nothing changes.  [n] is the number of digits of
    the value in the base. *)
Theorem integer_roundtrip `{LocaleLaws} val base u m
  (Hbase : In base [2; 8; 10; 16]) (Hval : 0 <= val < 2 ^ 32) (Hu : str_in u m) :
  exists n, 0 < n <= 32 /\ val < base ^ n /\ (1 < n -> base ^ (n - 1) <= val) /\
    (2 * n <= MaximumLength u -> exists u' m',
       RtlIntegerToUnicodeString 0 val base (Some u) = Ok (STATUS_SUCCESS, u') /\
       str_in u' m' /\ Length u' = 2 * n /\ length m' = length m /\
       drop (Z.to_nat (2 * n)) m' = drop (Z.to_nat (2 * n)) m /\
       RtlUnicodeStringToInteger 0 u' base = Ok (STATUS_SUCCESS, val)) /\
    (MaximumLength u < 2 * n ->
       RtlIntegerToUnicodeString 0 val base (Some u) = Ok (STATUS_BUFFER_OVERFLOW, u)).
Proof.
  assert (2 <= base <= 16) as Hb
    by (simpl in Hbase; destruct Hbase as [<- | [<- | [<- | [<- | []]]]]; lia).
  destruct (print_ok val base u m Hb Hbase Hval Hu) as (ds & E & Hne & Hd & Hs & ->).
  pose proof Hu as (EB & HL & HM & Hm).
  assert (0 <= val < base ^ Z.of_nat 64) as Hv64.
  { split; [lia |]. apply Z.lt_le_trans with (2 ^ Z.of_nat 64); [simpl; lia |]. apply Z.pow_le_mono_l; lia. }
  destruct (ui64tow_length base 64 ltac:(lia) val [] Hv64 ltac:(lia)) as (n & El & Hn & Hup & Hlow).
  rewrite E, length_map, Nat.add_0_r in El. exists (Z.of_nat (length ds)). rewrite El.
  split.
  { split; [lia |]. destruct (decide (1 < n)%nat) as [H1 |]; [specialize (Hlow H1) | lia].
    assert (2 ^ (Z.of_nat n - 1) < 2 ^ 32) as Hp.
    { apply Z.le_lt_trans with val; [| lia]. etrans; [| exact Hlow]. apply Z.pow_le_mono_l. lia. }
    apply Z.pow_lt_mono_r_iff in Hp; lia. }
  split; [done |]. split; [intros; apply Hlow; lia |]. rewrite <- El.
  split; intros Hfit.
  2: { by replace (_ >? _) with true by lia. }
  replace (_ >? _) with false by lia.
  assert (length (encode (map digit_char ds)) = (2 * length ds)%nat) as Le
    by (by rewrite encode_length, length_map).
  eexists. exists (encode (map digit_char ds) ++ drop (2 * length ds) m).
  split; [reflexivity |]. unfold str_in. cbn [Buffer Length MaximumLength].
  rewrite length_app, length_drop, Le.
  split; [repeat split; lia |]. split; [done |]. split; [lia |]. split.
  { rewrite drop_app_length' by lia. f_equal. lia. }
  rewrite (to_integer_ok _ (map digit_char ds)).
  - rewrite integer_of_digits, Hs, u32_id by (done || lia). done.
  - split; [by rewrite length_map |]. split; [by eapply is_wchar_digits; [| done]; lia |].
    cbn [Buffer]. exists (drop (2 * length ds) m). reflexivity.
  - by destruct ds.
  - by right.
Qed.

(** [RtlUnicodeStringToInteger] skips white space, takes a sign, a base prefix
    where the base is 0, and digits up to the first character that is not one;
    it never reads outside the string; another base or an empty string is an
    invalid parameter and a raised IRQL an assertion failure. *)
Theorem RtlUnicodeStringToInteger_spec `{LocaleLaws} s cs base irql (Hs : holds s cs) :
  (cs <> [] -> In base [0; 2; 8; 10; 16] ->
     RtlUnicodeStringToInteger 0 s base = Ok (STATUS_SUCCESS, integer_of base cs)) /\
  (cs = [] \/ ~ In base [0; 2; 8; 10; 16] ->
     RtlUnicodeStringToInteger 0 s base = Ok (STATUS_INVALID_PARAMETER, 0)) /\
  (irql <> 0 -> RtlUnicodeStringToInteger irql s base = Err (AssertFailed passive_assert)).
Proof.
  split; [by intros; apply to_integer_ok |]. unfold RtlUnicodeStringToInteger. split.
  - intros Hc. rewrite ddkassert_true by done. pose proof Hs as (HL & _).
    replace (negb _ || _) with true; [done |]. symmetry. apply orb_true_iff.
    destruct Hc as [-> | Hn]; [right; simpl in HL; lia | left]. simpl in Hn. case_z; subst; simpl; tauto.
  - intros Hi. by rewrite ddkassert_false by (unfold PASSIVE_LEVEL; lia).
Qed.

Lemma append_ok u s m b :
  str_in u m -> str_in s b ->
  (Length u + Length s <= MaximumLength u -> exists u',
     RtlAppendUnicodeStringToString u s = Ok (STATUS_SUCCESS, u') /\ appended u m (content s) u') /\
  (MaximumLength u < Length u + Length s ->
     RtlAppendUnicodeStringToString u s = Ok (STATUS_BUFFER_TOO_SMALL, u)).
Proof.
  intros Hu Hs. pose proof Hu as (EB & HL & HM & Hm). pose proof Hs as (ES & HLs & HMs & Hms).
  assert (Z.of_nat (length (content s)) = Length s) as L
    by (unfold content; rewrite ES, length_take; lia).
  unfold RtlAppendUnicodeStringToString. split; intros Hle.
  - replace (_ >? _) with false by lia.
    rewrite (append_loop_ok _ u m s b 0) by (done || lia). rewrite bind_ok.
    eexists. split; [reflexivity |]. apply appended_intro; [done |].
    change (Z.to_nat 0) with 0%nat. rewrite drop_0. lia.
  - by replace (_ >? _) with true by lia.
Qed.

(** Append: when the two lengths fit [MaximumLength] the content grows by the
    source and no other byte of the buffer changes; when they do not, nothing
    changes.  [RtlAppendUnicodeToString] counts the source's characters in 16
    bits: of a source of 65536 or more it appends that many modulo 65536 and
    reports success. *)
Theorem RtlAppend_spec u s m b cs rest
  (Hu : str_in u m) (Hs : str_in s b) (Heven : Length u mod 2 = 0)
  (Hcs : Forall is_wchar cs) (Hnul : no_nul cs) :
  let n := u16 (Z.of_nat (length cs)) in
  (Length u + Length s <= MaximumLength u -> exists u',
     RtlAppendUnicodeStringToString u s = Ok (STATUS_SUCCESS, u') /\ appended u m (content s) u') /\
  (MaximumLength u < Length u + Length s ->
     RtlAppendUnicodeStringToString u s = Ok (STATUS_BUFFER_TOO_SMALL, u)) /\
  (Length u + 2 * n <= MaximumLength u -> exists u',
     RtlAppendUnicodeToString u (encode cs ++ 0 :: 0 :: rest) = Ok (STATUS_SUCCESS, u') /\
     appended u m (encode (take (Z.to_nat n) cs)) u') /\
  (MaximumLength u < Length u + 2 * n ->
     RtlAppendUnicodeToString u (encode cs ++ 0 :: 0 :: rest) = Ok (STATUS_BUFFER_TOO_SMALL, u)).
Proof.
  intros n. destruct (append_ok u s m b Hu Hs) as [A1 A2]. do 2 (split; [done |]).
  pose proof Hu as (EB & HL & HM & Hm).
  unfold RtlAppendUnicodeToString. rewrite wcslen_ok, bind_ok by done. fold n.
  assert (0 <= n <= Z.of_nat (length cs)) as Hn
    by (subst n; unfold u16; Z.div_mod_to_equations; lia).
  split; intros Hfit; [| by replace (_ >? _) with true by lia].
  replace (_ >? _) with false by lia.
  assert (Z.of_nat (length (encode (take (Z.to_nat n) cs))) = 2 * n) as Le
    by (rewrite encode_length, length_take; lia).
  pose proof (appended_intro u m (encode (take (Z.to_nat n) cs)) Hu ltac:(lia)) as A.
  rewrite Le in A. rewrite u16_id by lia.
  destruct (Z.eqb_spec n 0) as [-> | Hn0].
  - rewrite bind_ok. eexists. split; [reflexivity |]. simpl in A.
    rewrite EB. rewrite Z.add_0_r, take_drop in A. by rewrite Z.mul_0_l, Z.add_0_r.
  - rewrite EB, deref_some, bind_ok.
    assert (wcsncpy (Z.to_nat n) m (Length u / 2) (encode cs ++ 0 :: 0 :: rest) 0 false =
      Ok (take (Z.to_nat (Length u)) m ++ encode (take (Z.to_nat n) cs) ++
          drop (Z.to_nat (Length u + 2 * n)) m)) as ->.
    { assert (m = take (Z.to_nat (Length u)) m ++
        take (Z.to_nat (2 * n)) (drop (Z.to_nat (Length u)) m) ++
        drop (Z.to_nat (Length u + 2 * n)) m) as Em.
      { replace (Z.to_nat (Length u + 2 * n))
          with (Z.to_nat (Length u) + Z.to_nat (2 * n))%nat by lia.
        by rewrite <- drop_drop, take_drop, take_drop. }
      rewrite Em at 1. rewrite wcsncpy_ok; try done.
      - rewrite length_take. Z.div_mod_to_equations. lia.
      - apply Z.div_pos; lia.
      - rewrite length_take, length_drop. lia.
      - simpl. lia. }
    rewrite bind_ok. eexists. split; [reflexivity |]. by rewrite (Z.mul_comm n).
Qed.

(** [RtlCopyUnicodeString] and [RtlCopyString] copy the source, cut to the
    destination's [MaximumLength], and change no other byte; a null source
    empties the destination. *)
Theorem RtlCopy_spec u s m b (Hu : str_in u m) (Hs : str_in s b) :
  let n := Z.min (MaximumLength u) (Length s) in
  (exists u', RtlCopyUnicodeString u (Some s) = Ok u' /\
     RtlCopyString (Some u) (Some s) = Ok u' /\
     Length u' = n /\ MaximumLength u' = MaximumLength u /\
     Buffer u' = Some (take (Z.to_nat n) (content s) ++ drop (Z.to_nat n) m)) /\
  RtlCopyUnicodeString u None = Ok (with_length u 0) /\
  RtlCopyString (Some u) None = Ok (with_length u 0) /\
  RtlCopyString None (Some s) = Err (AssertFailed "DestinationString != NULL").
Proof.
  intros n. pose proof Hu as (EB & HL & HM & Hm). pose proof Hs as (ES & HLs & HMs & Hms).
  split; [| done]. unfold RtlCopyUnicodeString, RtlCopyString. fold n.
  rewrite nonnull_some, bind_ok, EB, nonnull_some, bind_ok, deref_some, bind_ok.
  rewrite ES, deref_some, bind_ok.
  replace (if Length s <? MaximumLength u then Length s else MaximumLength u) with n
    by (subst n; case_z; lia).
  unfold content. rewrite ES, take_take.
  replace (Z.to_nat n `min` Z.to_nat (Length s))%nat with (Z.to_nat n) by lia.
  destruct (Z.eqb_spec n 0) as [-> | Hn].
  - rewrite bind_ok. exists (with_length u 0). unfold with_length. rewrite EB. done.
  - pose proof (copy_bytes_ok m 0 b n ltac:(lia) ltac:(lia) ltac:(lia) ltac:(lia)) as C.
    rewrite C, !bind_ok, u16_id by lia. rewrite Z.add_0_l in *.
    eexists. split; [reflexivity |]. split; [by rewrite C |]. done.
Qed.

(** [RtlCompareUnicodeString] is antisymmetric and [RtlEqualUnicodeString]
    says when it is 0: when the lengths agree and the characters up to the first
    NUL do, after case folding if asked for.  Characters after a NUL do not
    count, so only on strings without one is this equality of the contents. *)
Theorem RtlCompare_spec `{LocaleLaws} u1 u2 a b ign
  (Ha : holds u1 a) (Hb : holds u2 b)
  (La : Z.of_nat (length a) < 2 ^ 15) (Lb : Z.of_nat (length b) < 2 ^ 15) :
  exists rc,
    RtlCompareUnicodeString 0 u1 u2 ign = Ok rc /\
    RtlCompareUnicodeString 0 u2 u1 ign = Ok (- rc) /\
    RtlEqualUnicodeString 0 u1 u2 ign = Ok (rc =? 0) /\
    (rc = 0 <-> length a = length b /\
       map (fold_case ign) (c_string a) = map (fold_case ign) (c_string b)) /\
    (no_nul a -> no_nul b -> rc = 0 <-> map (fold_case ign) a = map (fold_case ign) b).
Proof.
  pose proof (fold_case_nul ign) as Hf. exists (compare_spec (fold_case ign) a b).
  split; [by apply compare_ok |]. split; [rewrite <- compare_spec_swap by done; by apply compare_ok |].
  split; [unfold RtlEqualUnicodeString; by rewrite (compare_ok u1 u2 a b) |].
  split; [by apply compare_spec_zero |].
  intros Na Nb. rewrite compare_spec_zero, !c_string_all by done. split; [by intros [_ ->] |].
  intros E. split; [| done]. apply (f_equal length) in E. by rewrite !length_map in E.
Qed.

(** [RtlHashUnicodeString] is the polynomial with factor 65599 modulo 2^32,
    over the upper-case characters when the case does not matter, and strings
    that [RtlEqualUnicodeString] finds equal under the same flag have the same
    hash, provided they contain no NUL. *)
Theorem RtlHashUnicodeString_spec `{LocaleLaws} u1 u2 a b ign alg old
  (Ha : holds u1 a) (Hb : holds u2 b) (Halg : alg = 0 \/ alg = 1)
  (La : Z.of_nat (length a) < 2 ^ 15) (Lb : Z.of_nat (length b) < 2 ^ 15)
  (Na : no_nul a) (Nb : no_nul b) :
  RtlHashUnicodeString 0 (Some u1) ign alg (Some old) =
    Ok (STATUS_SUCCESS, Some (u32 (x65599 (map (hash_case ign) a)))) /\
  (RtlEqualUnicodeString 0 u1 u2 ign = Ok true ->
     RtlHashUnicodeString 0 (Some u1) ign alg (Some old) =
     RtlHashUnicodeString 0 (Some u2) ign alg (Some old)).
Proof.
  rewrite !(hash_ok 0 _ a), (hash_ok 0 _ b) by done. split; [done |].
  unfold RtlEqualUnicodeString. rewrite (compare_ok u1 u2 a b), bind_ok by done.
  intros [= E]. apply Z.eqb_eq in E. apply compare_spec_zero in E as [_ E]; [| apply fold_case_nul].
  rewrite !c_string_all in E by done. do 5 f_equal. clear - E H0.
  revert b E. induction a as [|x a IH]; intros [|y b] E; try done.
  simpl in E. injection E as E1 E2. simpl. f_equal; [| by apply IH]. destruct ign; simpl in *; [by apply towlower_towupper | done].
Qed.

(** [RtlUpcaseUnicodeString] maps every character, whatever the NULs, into a
    buffer of the caller or of its own, and refuses a buffer that is too small;
    [RtlUpperString] asserts that one of its pointers is not null where it needs
    both, and goes on to use the null one. *)
Theorem RtlUpcase_spec `{Locale} d s m cs alloc m'
  (Hd : str_in d m) (Hs : holds s cs)
  (Hlen : Z.of_nat (length cs) < 2 ^ 15)
  (Hup : forall c, is_wchar c -> is_wchar (towupper c))
  (Halloc : alloc (Length s) = Some m') (Hm' : Z.of_nat (length m') = Length s) :
  let up c := if iswlower c then towupper c else c in
  (Length s <= MaximumLength d -> exists d',
     RtlUpcaseUnicodeString 0 alloc d s false = Ok (STATUS_SUCCESS, d') /\
     holds d' (map up cs) /\ MaximumLength d' = MaximumLength d) /\
  (MaximumLength d < Length s ->
     RtlUpcaseUnicodeString 0 alloc d s false = Ok (STATUS_BUFFER_TOO_SMALL, d)) /\
  (exists d', RtlUpcaseUnicodeString 0 alloc d s true = Ok (STATUS_SUCCESS, d') /\
     holds d' (map up cs)) /\
  RtlUpperString 0 None None =
    Err (AssertFailed "DestinationString != NULL || SourceString != NULL") /\
  RtlUpperString 0 (Some d) None = Err (BadAccess 0).
Proof.
  intros up. pose proof Hs as (HL & Hw & HB). pose proof Hd as (ED & HLd & HMd & Hmd).
  assert (forall m0 D, Buffer D = Some m0 -> Length s <= MaximumLength D ->
    Length s <= Z.of_nat (length m0) ->
    exists d', (let wlen := Length s / 2 in
      x ← (if wlen =? 0 then Ok m0 else
       b ← deref (Buffer s);
       mfor_le 0 (wlen - 1) (fun i d =>
         ch ← wchar_at b i;
         wchar_put d i (if iswlower ch then towupper ch else ch)) m0);
      Ok (STATUS_SUCCESS, mkStr (Length s) (MaximumLength D) (Some x))) = Ok (STATUS_SUCCESS, d') /\
    holds d' (map up cs) /\ MaximumLength d' = MaximumLength D) as Loop.
  { intros m0 D EB0 HMD Hm0. cbv zeta.
    replace (Length s / 2) with (Z.of_nat (length cs)) by (Z.div_mod_to_equations; lia).
    assert (Forall is_wchar (map up cs)) as Hwu.
    { apply Forall_map. eapply Forall_impl; [exact Hw |]. intros c Hc. subst up. simpl.
      destruct (iswlower c); auto. }
    destruct (Z.eqb_spec (Z.of_nat (length cs)) 0) as [E | E].
    - destruct cs; [| simpl in E; lia]. rewrite bind_ok. eexists. split; [reflexivity |].
      split; [| done]. split; [done |]. split; [done |]. simpl. by exists m0.
    - destruct (holds_buffer s cs Hs) as [rest ->]; [intros ->; simpl in *; lia |].
      rewrite deref_some, bind_ok. unfold mfor_le.
      match goal with |- context [miter ?k 0 ?f m0] =>
        destruct (miter_inv (fun i x => x = encode (map up (take (Z.to_nat i) cs)) ++
          drop (Z.to_nat (2 * i)) m0) f k 0 m0) as (x & -> & ->) end; [done | |].
      + intros i x Hi ->. destruct (lookup_lt_is_Some_2 cs (Z.to_nat i)) as [c Hc]; [lia |].
        rewrite (wchar_at_encode cs rest i c), bind_ok by (done || lia).
        destruct (lookup_lt_is_Some_2 m0 (Z.to_nat (2 * i))) as [x0 Hx0]; [lia |].
        destruct (lookup_lt_is_Some_2 m0 (S (Z.to_nat (2 * i)))) as [x1 Hx1]; [lia |].
        rewrite (drop_S _ _ _ Hx0), (drop_S _ _ _ Hx1).
        rewrite wchar_put_next;
          [| rewrite encode_length, length_map, length_take; lia | lia].
        eexists. split; [reflexivity |].
        replace (Z.to_nat (i + 1)) with (S (Z.to_nat i)) by lia.
        rewrite (take_S_r _ _ _ Hc), map_app, encode_app, <- app_assoc.
        by replace (Z.to_nat (2 * (i + 1))) with (S (S (Z.to_nat (2 * i)))) by lia.
      + rewrite bind_ok. eexists. split; [reflexivity |]. split; [| done].
        split; [by rewrite length_map |]. split; [done |]. cbn [Buffer].
        rewrite take_ge by lia. eexists. reflexivity. }
  unfold RtlUpcaseUnicodeString. rewrite !ddkassert_true by done. rewrite !bind_ok.
  split; [| split; [| split; [| done]]].
  - intros Hle. replace (MaximumLength d <? Length s) with false by lia.
    rewrite ED, nonnull_some, bind_ok. apply (Loop m d); auto. lia.
  - intros Hlt. by replace (MaximumLength d <? Length s) with true by lia.
  - unfold DdkAllocUnicodeBuffer. rewrite Halloc, !bind_ok. cbn [MaximumLength Buffer].
    rewrite Z.ltb_irrefl, nonnull_some, bind_ok.
    destruct (Loop m' (mkStr (Length d) (Length s) (Some m'))) as (d' & E & H1 & _); simpl; [done | lia | lia |].
    by exists d'.
Qed.

Definition wide_init_assert : string :=
  "!s || ((wcslen(s) + 1) * sizeof(WCHAR)) <= (MAXUSHORT - 1)".
Definition ansi_init_assert : string := "!s || strlen(s) <= (MAXUSHORT - 1)".

(** [RtlInitUnicodeString] and [RtlInitAnsiString] count a NUL-terminated
    string up to its NUL when the count and the terminator fit the header, with
    no wrap-around of the 16-bit fields, and fail an assertion when they do not
    (the kernel would truncate). *)
Theorem RtlInit_spec cs rest
  (Hw : Forall is_wchar cs) (Hn : no_nul cs) (Hlen : Z.of_nat (length cs) < 2 ^ 62) :
  let n := Z.of_nat (length cs) in
  (n <= 32766 -> exists u, RtlInitUnicodeString (Some (encode cs ++ 0 :: 0 :: rest)) = Ok u /\
     holds u cs /\ MaximumLength u = Length u + 2) /\
  (32766 < n -> RtlInitUnicodeString (Some (encode cs ++ 0 :: 0 :: rest)) =
     Err (AssertFailed wide_init_assert)) /\
  (n <= 65534 -> RtlInitAnsiString (Some (cs ++ 0 :: rest)) =
     Ok (mkStr n (n + 1) (Some (cs ++ 0 :: rest)))) /\
  (65534 < n -> RtlInitAnsiString (Some (cs ++ 0 :: rest)) =
     Err (AssertFailed ansi_init_assert)) /\
  RtlInitUnicodeString None = Ok (mkStr 0 0 None) /\ RtlInitAnsiString None = Ok (mkStr 0 0 None).
Proof.
  intros n. unfold RtlInitUnicodeString, RtlInitAnsiString.
  rewrite wcslen_ok, strlen_ok, !bind_ok by done. fold n.
  assert (u64 ((n + 1) * 2) = (n + 1) * 2) as E
    by (unfold u64; apply Z.mod_small; lia).
  rewrite E. repeat split; intros.
  - rewrite ddkassert_true, (u16_id (n * 2)), (u16_id (n * 2 + 2)) by lia.
    eexists. split; [reflexivity |]. split; [| done]. split; [simpl; lia |].
    split; [done |]. simpl. by eexists.
  - by rewrite ddkassert_false by lia.
  - by rewrite ddkassert_true, (u16_id n), (u16_id (n + 1)) by lia.
  - by rewrite ddkassert_false by lia.
Qed.

(** ** Conversions *)

Lemma mbstowcs_len_ok `{Locale} cs rest :
  no_nul cs -> Forall (fun c => is_Some (mbtowc c)) cs ->
  mbstowcs_len (cs ++ 0 :: rest) = Ok (Z.of_nat (length cs)).
Proof.
  induction cs as [|c cs IH]; intros Hn Hm; [done |].
  apply Forall_cons in Hn as [Hz Hn]. apply Forall_cons in Hm as [[w Hc] Hm]. simpl.
  replace (c =? 0) with false by lia. rewrite Hc, IH, bind_ok by done.
  destruct (Z.eqb_spec (Z.of_nat (length cs)) (-1)); [lia |]. f_equal. lia.
Qed.

Lemma mbstowcs_ok `{Locale} cs ws rest pre mid i :
  no_nul cs -> Forall2 (fun c w => mbtowc c = Some w) (drop (Z.to_nat i) cs) ws ->
  0 <= i <= Z.of_nat (length cs) -> length pre = Z.to_nat (2 * i) ->
  length mid = (2 * (length ws + 1))%nat ->
  mbstowcs (length ws + 1) (pre ++ mid) (cs ++ 0 :: rest) i =
    Ok (Some (i + Z.of_nat (length ws)), pre ++ encode ws ++ [0; 0]).
Proof.
  intros Hn. revert pre mid i. induction ws as [|w ws IH]; intros pre mid i HF Hi Hp Hm.
  - inversion HF as [E |]. assert (i = Z.of_nat (length cs)) as ->.
    { assert (length (drop (Z.to_nat i) cs) = 0%nat) as L by (by rewrite <- E).
      rewrite length_drop in L. lia. }
    simpl. rewrite (array_get_lookup _ _ 0), bind_ok.
    + destruct mid as [|b0 [|b1 [|]]]; try (simpl in Hm; lia). simpl.
      rewrite wchar_put_next, bind_ok by lia. simpl. by rewrite Z.add_0_r.
    + lia.
    + rewrite lookup_app_r by lia. by replace (Z.to_nat _ - length cs)%nat with 0%nat by lia.
  - inversion HF as [| c w' l l' Hc HF' El]; subst. symmetry in El.
    assert (cs !! Z.to_nat i = Some c) as Hl.
    { replace (Z.to_nat i) with (Z.to_nat i + 0)%nat by lia. by rewrite <- lookup_drop, El. }
    apply lookup_lt_Some in Hl as Hlt. simpl.
    rewrite (array_get_lookup _ _ c), bind_ok by (lia || (by rewrite lookup_app_l)).
    replace (c =? 0) with false
      by (pose proof (proj1 (Forall_lookup _ _) Hn _ _ Hl) as Hz; simpl in Hz; lia).
    rewrite Hc. destruct mid as [|b0 [|b1 mid]]; try (simpl in Hm; lia).
    rewrite wchar_put_next, bind_ok by lia. rewrite app_assoc, IH.
    + rewrite <- !app_assoc. simpl. do 3 f_equal. lia.
    + rewrite (drop_S _ _ _ Hl) in El. injection El as El.
      replace (Z.to_nat (i + 1)) with (S (Z.to_nat i)) by lia. by rewrite El.
    + lia.
    + rewrite length_app. simpl. lia.
    + simpl in Hm. lia.
Qed.

Lemma wcstombs_ok `{Locale} n cs bs rest pre mid i :
  Forall is_wchar cs -> no_nul cs -> Forall2 (fun w c => wctomb w = Some c) cs bs ->
  0 <= i <= Z.of_nat (length cs) -> length pre = Z.to_nat i -> length mid = n ->
  exists post, wcstombs n (pre ++ mid) (encode cs ++ 0 :: 0 :: rest) i =
    Ok (Some (Z.min (i + Z.of_nat n) (Z.of_nat (length cs))),
        pre ++ take n (drop (Z.to_nat i) bs) ++ post) /\
    length (take n (drop (Z.to_nat i) bs) ++ post) = n.
Proof.
  intros Hw Hn HF. pose proof (Forall2_length _ _ _ HF) as HL. revert pre mid i.
  induction n as [|n IH]; intros pre mid i Hi Hp Hm.
  - exists []. destruct mid; [| done]. simpl. split; [| done]. do 3 f_equal. lia.
  - destruct mid as [|b0 mid]; [done |]. simpl in Hm. cbn [wcstombs].
    assert (forall c, array_set (pre ++ b0 :: mid) i c = Ok (pre ++ c :: mid)) as Hset.
    { intros c. rewrite array_set_ok by (rewrite length_app; simpl; lia).
      rewrite insert_app_r_alt by lia. by replace (Z.to_nat i - length pre)%nat with 0%nat by lia. }
    destruct (Z.eq_dec i (Z.of_nat (length cs))) as [-> | Hne].
    + assert (wchar_at (encode cs ++ 0 :: 0 :: rest) (Z.of_nat (length cs)) = Ok 0) as ->.
      { replace (encode cs ++ 0 :: 0 :: rest) with (encode (cs ++ [0]) ++ rest)
          by (by rewrite encode_app, <- app_assoc).
        apply wchar_at_encode; [apply Forall_app; split; [done | by repeat constructor] | lia |].
        rewrite lookup_app_r by lia. by replace (Z.to_nat _ - length cs)%nat with 0%nat by lia. }
      rewrite bind_ok, Z.eqb_refl, Hset, bind_ok. exists (0 :: mid).
      rewrite drop_ge by lia. simpl. split; [| lia]. do 3 f_equal. lia.
    + destruct (lookup_lt_is_Some_2 cs (Z.to_nat i)) as [w Hl]; [lia |].
      destruct (Forall2_lookup_l _ _ _ _ _ HF Hl) as (c & Hc & Hwc).
      rewrite (wchar_at_encode cs _ i w), bind_ok by (done || lia).
      replace (w =? 0) with false
        by (pose proof (proj1 (Forall_lookup _ _) Hn _ _ Hl) as Hz; simpl in Hz; lia).
      rewrite Hwc, Hset, bind_ok.
      destruct (IH (pre ++ [c]) mid (i + 1)) as (post & E & L);
        [lia | rewrite length_app; simpl; lia | lia |].
      rewrite <- app_assoc in E. simpl in E. exists post. rewrite E, (drop_S _ _ _ Hc). cbn [take].
      replace (Z.to_nat (i + 1)) with (S (Z.to_nat i)) in * by lia.
      rewrite <- app_assoc. split; [| simpl; by rewrite L]. simpl. do 3 f_equal. lia.
Qed.

(** The conversions between the two kinds of string read their source up to
    its NUL, not up to its [Length]: [RtlAnsiStringToUnicodeString] converts the
    whole NUL-terminated text whatever the header says, and
    [RtlUnicodeStringToAnsiString] of a string of [k] characters that is not
    terminated there produces [k + 1] of them, where the code page has one byte
    for a character ([Hsize]). *)
Theorem RtlConvert_spec `{Locale} d a cs ws bs rest len k alloc m' m''
  (Hn : no_nul cs) (Hw : Forall2 (fun c w => mbtowc c = Some w) cs ws)
  (Hww : Forall is_wchar ws) (Hwn : no_nul ws) (Hb : Forall2 (fun w c => wctomb w = Some c) ws bs)
  (Ha : Buffer a = Some (cs ++ 0 :: rest))
  (Hlen : len = 2 * (Z.of_nat (length cs) + 1)) (Hfit : len < 2 ^ 16)
  (Halloc : alloc len = Some m') (Hm' : Z.of_nat (length m') = len)
  (Hk : 0 <= k <= Z.of_nat (length ws))
  (Hsize : wide_to_ansi_size (Some (encode ws ++ 0 :: 0 :: rest)) k = k)
  (Halloc' : alloc (k + 1) = Some m'') (Hm'' : Z.of_nat (length m'') = k + 1) :
  (exists u, RtlAnsiStringToUnicodeString 0 alloc d a true = Ok (STATUS_SUCCESS, u) /\
     holds u ws) /\
  (exists u, RtlUnicodeStringToAnsiString 0 alloc d
       (mkStr (2 * k) (2 * k) (Some (encode ws ++ 0 :: 0 :: rest))) true = Ok (STATUS_SUCCESS, u) /\
     Length u = Z.min (k + 1) (Z.of_nat (length bs)) /\
     content u = take (Z.to_nat (k + 1)) bs).
Proof.
  pose proof (Forall2_length _ _ _ Hw) as L1. pose proof (Forall2_length _ _ _ Hb) as L2. split.
  - unfold RtlAnsiStringToUnicodeString, RtlxAnsiStringToUnicodeSize, DdkAllocUnicodeBuffer.
    rewrite ddkassert_true, Ha, deref_some, !bind_ok by done.
    rewrite mbstowcs_len_ok, bind_ok; [| done |].
    2: { eapply Forall_lookup_2. intros i c Hc.
         destruct (Forall2_lookup_l _ _ _ _ _ Hw Hc) as (w & _ & ->). done. }
    replace (Z.of_nat (length cs) >=? 0) with true by lia. rewrite u32_id by lia.
    replace ((Z.of_nat (length cs) + 1) * 2) with len by lia.
    rewrite bind_ok. replace (len =? 0) with false by lia. rewrite Halloc, !bind_ok. cbn [MaximumLength Buffer].
    rewrite u16_id by lia. replace (len >? len + 2) with false by lia. rewrite !deref_some, !bind_ok.
    replace (Z.to_nat (len / 2)) with (length ws + 1)%nat by (Z.div_mod_to_equations; lia).
    pose proof (mbstowcs_ok cs ws rest [] m' 0 Hn) as E. simpl app in E.
    rewrite E, bind_ok; [| done | lia | done | lia]. cbn [default from_option id].
    eexists. split; [reflexivity |]. split; [cbn [Length]; rewrite u16_id by lia; lia |].
    split; [done |]. cbn [Buffer]. by exists [0; 0].
  - unfold RtlUnicodeStringToAnsiString, RtlxUnicodeStringToAnsiSize, DdkAllocUnicodeBuffer.
    rewrite ddkassert_true by done. cbv zeta. cbn [Length Buffer].
    replace (2 * k / 2) with k by (Z.div_mod_to_equations; lia).
    rewrite Hsize, u32_id, u16_id by lia. rewrite Halloc', !bind_ok. simpl negb. cbn [andb MaximumLength Buffer].
    rewrite !deref_some, !bind_ok.
    destruct (wcstombs_ok (Z.to_nat (k + 1)) ws bs rest [] m'' 0) as (post & E & L);
      [done | done | done | lia | done | lia |].
    simpl app in E. rewrite E, bind_ok. cbn [default from_option id]. rewrite u16_id by lia.
    eexists. split; [reflexivity |]. cbn [Length]. split; [lia |].
    unfold content. cbn [Buffer Length]. rewrite drop_0 in *.
    rewrite take_app_length'; [done |]. rewrite length_take. lia.
Qed.

(** ** Witnesses, in the C locale *)

Definition c_locale : Locale := {|
  iswlower c := (97 <=? c) && (c <=? 122);
  iswspace c := (c =? 32) || ((9 <=? c) && (c <=? 13));
  towupper c := if (97 <=? c) && (c <=? 122) then c - 32 else c;
  towlower c := if (65 <=? c) && (c <=? 90) then c + 32 else c;
  islower c := (97 <=? c) && (c <=? 122);
  toupper c := if (97 <=? c) && (c <=? 122) then c - 32 else c;
  tolower c := if (65 <=? c) && (c <=? 90) then c + 32 else c;
  mbtowc c := if (0 <=? c) && (c <? 256) then Some c else None;
  wctomb c := if (0 <=? c) && (c <? 256) then Some c else None;
  wide_to_ansi_size _ n := n
|}.

Lemma c_locale_laws : @LocaleLaws c_locale.
Proof.
  split; simpl.
  - intros d Hd. pose proof (digit_char_range d Hd). lia.
  - intros c. case_z; simpl; lia.
  - intros a b. case_z; simpl; lia.
Qed.

Definition chars_of (s : string) : list Z :=
  map (fun c => Z.of_N (Strings.Ascii.N_of_ascii c)) (String.list_ascii_of_string s).

Definition text (cs : list Z) (max : Z) : UNICODE_STRING :=
  mkStr (2 * Z.of_nat (length cs)) max (Some (encode cs ++ repeat 0 20)).

Definition hex_text : UNICODE_STRING := text (chars_of " -0x1f") 12.

Lemma hex_text_holds : holds hex_text (chars_of " -0x1f").
Proof.
  split; [done |]. split; [repeat constructor; unfold is_wchar; simpl; lia |]. by eexists.
Defined.

Definition blank : UNICODE_STRING := mkStr 0 128 (Some (repeat 0 128)).

Lemma blank_in : str_in blank (repeat 0 128).
Proof. split; [done |]. simpl. lia. Defined.

Lemma integer_roundtrip_witness :
  exists u', RtlIntegerToUnicodeString 0 4000000000 16 (Some blank) = Ok (STATUS_SUCCESS, u') /\
    @RtlUnicodeStringToInteger c_locale 0 u' 16 = Ok (STATUS_SUCCESS, 4000000000).
Proof.
  destruct (@integer_roundtrip c_locale c_locale_laws 4000000000 16 blank (repeat 0 128))
    as (n & Hn & _ & _ & Hfit & _); [by do 3 right; left | lia | apply blank_in |].
  destruct Hfit as (u' & m' & E & _ & _ & _ & _ & R); [simpl; lia |]. by exists u'.
Defined.

Lemma RtlUnicodeStringToInteger_spec_witness :
  @RtlUnicodeStringToInteger c_locale 0 hex_text 0 = Ok (STATUS_SUCCESS, u32 (-31)).
Proof.
  apply (@RtlUnicodeStringToInteger_spec c_locale c_locale_laws hex_text (chars_of " -0x1f") 0 1
    hex_text_holds); [done | by left].
Defined.

Lemma RtlAppend_spec_witness :
  exists u', RtlAppendUnicodeStringToString (text (chars_of "ab") 20) hex_text =
    Ok (STATUS_SUCCESS, u') /\
    appended (text (chars_of "ab") 20) (encode (chars_of "ab") ++ repeat 0 20) (content hex_text) u'.
Proof.
  apply (RtlAppend_spec (text (chars_of "ab") 20) hex_text (encode (chars_of "ab") ++ repeat 0 20)
    (encode (chars_of " -0x1f") ++ repeat 0 20) (chars_of "c") []);
    [by repeat split; simpl; lia | by repeat split; simpl; lia | done |
     repeat constructor; unfold is_wchar; simpl; lia | repeat constructor; simpl; lia | simpl; lia].
Defined.

Lemma RtlCopy_spec_witness :
  exists u', RtlCopyUnicodeString blank (Some hex_text) = Ok u' /\
    RtlCopyString (Some blank) (Some hex_text) = Ok u' /\ Length u' = 12.
Proof.
  destruct (RtlCopy_spec blank hex_text (repeat 0 128) (encode (chars_of " -0x1f") ++ repeat 0 20))
    as ((u' & H1 & H2 & H3 & _) & _); [apply blank_in | by repeat split; simpl; lia |].
  by exists u'.
Defined.

Lemma chars_ab (x : Z) (H : 0 < x < 128) : Forall is_wchar [97; x].
Proof. repeat constructor; unfold is_wchar; lia. Qed.

(** "aB" and "ab" are equal under case folding, and so are their hashes. *)
Lemma RtlCompare_spec_witness :
  exists rc, @RtlCompareUnicodeString c_locale 0 (text [97; 66] 4) (text [97; 98] 4) true = Ok rc /\
    (rc = 0 <-> [97; 98] = [97; 98]).
Proof.
  destruct (@RtlCompare_spec c_locale c_locale_laws (text [97; 66] 4) (text [97; 98] 4)
    [97; 66] [97; 98] true) as (rc & H1 & _ & _ & H & _);
    [split; [done | split; [by apply chars_ab | by eexists]] |
     split; [done | split; [by apply chars_ab | by eexists]] | simpl; lia | simpl; lia |].
  exists rc. split; [done |]. split; intros; [done |]. by apply H.
Defined.

Lemma RtlHashUnicodeString_spec_witness :
  @RtlHashUnicodeString c_locale 0 (Some (text [97; 66] 4)) true 1 (Some 7) =
  @RtlHashUnicodeString c_locale 0 (Some (text [97; 98] 4)) true 1 (Some 7).
Proof.
  apply (@RtlHashUnicodeString_spec c_locale c_locale_laws (text [97; 66] 4) (text [97; 98] 4)
    [97; 66] [97; 98] true 1 7);
    [split; [done | split; [by apply chars_ab | by eexists]] |
     split; [done | split; [by apply chars_ab | by eexists]] | by right | simpl; lia | simpl; lia |
     repeat constructor; lia | repeat constructor; lia | by vm_compute].
Defined.

Lemma RtlUpcase_spec_witness :
  exists d', @RtlUpcaseUnicodeString c_locale 0 (fun n => Some (repeat 0 (Z.to_nat n)))
    blank hex_text true = Ok (STATUS_SUCCESS, d') /\ holds d' (chars_of " -0X1F").
Proof.
  apply (@RtlUpcase_spec c_locale blank hex_text (repeat 0 128) (chars_of " -0x1f")
    (fun n => Some (repeat 0 (Z.to_nat n))) (repeat 0 12));
    [apply blank_in | apply hex_text_holds | simpl; lia | | done | done].
  intros c. unfold is_wchar. simpl. case_z; simpl; lia.
Defined.

Lemma RtlInit_spec_witness :
  exists u, RtlInitUnicodeString (Some (encode [97; 98] ++ 0 :: 0 :: [1; 2])) = Ok u /\
    holds u [97; 98] /\ MaximumLength u = Length u + 2.
Proof.
  apply (RtlInit_spec [97; 98] [1; 2]);
    [by apply chars_ab | repeat constructor; lia | simpl; lia | simpl; lia].
Defined.

(** The first two of three characters convert to three bytes. *)
Lemma RtlConvert_spec_witness :
  exists u, @RtlUnicodeStringToAnsiString c_locale 0 (fun n => Some (repeat 7 (Z.to_nat n))) blank
      (mkStr 4 4 (Some (encode [97; 98; 99] ++ [0; 0]))) true = Ok (STATUS_SUCCESS, u) /\
    Length u = 3 /\ content u = [97; 98; 99].
Proof.
  apply (@RtlConvert_spec c_locale blank (mkStr 3 4 (Some [97; 98; 99; 0])) [97; 98; 99]
    [97; 98; 99] [97; 98; 99] [] 8 2 (fun n => Some (repeat 7 (Z.to_nat n))) (repeat 7 8) (repeat 7 3));
    try done; try (repeat constructor; unfold is_wchar; simpl; lia); simpl; lia.
Defined.
