(* ===== verification/Spinlock.v ===== *)
(** * Spinlock: interrupt levels and spin locks (irql.cpp, spinlock.cpp)

    The IRQL is a thread-local variable; a spin lock is an [SRWLOCK] of the
    system, held in the [KSPIN_LOCK] itself or, for the reader-writer locks
    [EX_SPIN_LOCK], in the table [lockv], where the 32-bit lock word is an index.
    The [SRWLOCK] functions are the class [SRWLOCK_API].

    A call is one atomic step taken when it is let through: what comes before
    the wait in [AcquireSpinLock] is thread-local.  [GetSRWLock] is one step here
    and its interleaving with itself is the subject of SpinlockTable. *)

From S2P Require Import Prelude.

(** ** The system's locks *)

Class SRWLOCK_API := {
  SRWLOCK : Type;
  (** [SRWLOCK_INIT], which is also what zeroed memory holds *)
  srw_init : SRWLOCK;
  (** [Ptr == 0] *)
  srw_unused : SRWLOCK -> bool;
  (** [None]: the caller waits, or the attempt fails *)
  AcquireSRWLockExclusive : SRWLOCK -> option SRWLOCK;
  AcquireSRWLockShared : SRWLOCK -> option SRWLOCK;
  ReleaseSRWLockExclusive : SRWLOCK -> SRWLOCK;
  ReleaseSRWLockShared : SRWLOCK -> SRWLOCK;
  (** [calloc] gives memory for this row of the lock table *)
  calloc_row : Z -> bool
}.

(** ** State *)

Record LOCKHANDLE := mkHandle { h_lock : Z; h_irql : Z }.

Section spinlock.
Context `{SRWLOCK_API}.

(** [irqls]: [DdkCurrentIrql] of each thread; [spins]: the [KSPIN_LOCK]s by
    address; [handles]: the [KLOCK_QUEUE_HANDLE]s; [words]: the [EX_SPIN_LOCK]s;
    [rows]: the rows of [lockv] that are allocated; [table]: their locks, by
    index. *)
Record state := mkState {
  irqls : gmap Z Z;
  spins : gmap Z SRWLOCK;
  handles : gmap Z LOCKHANDLE;
  words : gmap Z Z;
  lockcount : Z;
  rows : gset Z;
  table : gmap Z SRWLOCK
}.

Definition set_irqls f s :=
  mkState (f (irqls s)) (spins s) (handles s) (words s) (lockcount s) (rows s) (table s).
Definition set_spins f s :=
  mkState (irqls s) (f (spins s)) (handles s) (words s) (lockcount s) (rows s) (table s).
Definition set_handles f s :=
  mkState (irqls s) (spins s) (f (handles s)) (words s) (lockcount s) (rows s) (table s).
Definition set_table f s :=
  mkState (irqls s) (spins s) (handles s) (words s) (lockcount s) (rows s) (f (table s)).

(** ** irql.cpp *)

Definition DdkCurrentIrql (t : Z) (s : state) : Z := default PASSIVE_LEVEL (irqls s !! t).

Definition KeGetCurrentIrql (t : Z) : W state Z := wget (DdkCurrentIrql t).

Definition DdkGetCurrentIrql (t : Z) : W state Z := wget (DdkCurrentIrql t).

Definition DdkWriteCR8 (t v : Z) : W state unit := wput (set_irqls <[t := v mod 2 ^ 8]>).

Definition KfRaiseIrql (t NewIrql : Z) : W state Z :=
  irql ← wget (DdkCurrentIrql t);
  cur ← KeGetCurrentIrql t;
  _ ← wassert (cur <=? NewIrql) "KeGetCurrentIrql() <= NewIrql";
  _ ← wput (set_irqls <[t := NewIrql]>);
  mret irql.

(** Returns what is stored in [*OldIrql]. *)
Definition KeRaiseIrql (t NewIrql : Z) : W state Z := KfRaiseIrql t NewIrql.

Definition KeLowerIrql (t NewIrql : Z) : W state unit :=
  cur ← KeGetCurrentIrql t;
  _ ← wassert (cur >=? NewIrql) "KeGetCurrentIrql() >= NewIrql";
  wput (set_irqls <[t := NewIrql]>).

Definition KfLowerIrql := KeLowerIrql.

Definition DdkRaiseIrqlToDpcLevel (t : Z) : W state Z := KfRaiseIrql t DISPATCH_LEVEL.

(** ** spinlock.cpp: the [KSPIN_LOCK]s *)

Definition spin_of (s : state) (a : Z) : SRWLOCK := default srw_init (spins s !! a).

Definition KeInitializeSpinLock (SpinLock : Z) : W state unit :=
  wput (set_spins <[SpinLock := srw_init]>).

Definition KeTestSpinLock (SpinLock : Z) : W state bool :=
  wget (fun s => srw_unused (spin_of s SpinLock)).

Definition AcquireSpinLock (t SpinLock NewIrql : Z) : W state Z :=
  rc ← KeRaiseIrql t NewIrql;
  l ← wget (fun s => spin_of s SpinLock);
  l ← wwait (AcquireSRWLockExclusive l);
  _ ← wput (set_spins <[SpinLock := l]>);
  mret rc.

Definition KeAcquireSpinLockRaiseToDpc (t SpinLock : Z) : W state Z :=
  cur ← KeGetCurrentIrql t;
  _ ← wassert (cur <=? DISPATCH_LEVEL) "KeGetCurrentIrql() <= DISPATCH_LEVEL";
  AcquireSpinLock t SpinLock DISPATCH_LEVEL.

Definition KeAcquireSpinLockForDpc (t SpinLock : Z) : W state Z :=
  AcquireSpinLock t SpinLock DISPATCH_LEVEL.

Definition KeAcquireSpinLockAtDpcLevel (t SpinLock : Z) : W state unit :=
  cur ← KeGetCurrentIrql t;
  _ ← wassert (cur >=? DISPATCH_LEVEL) "KeGetCurrentIrql() >= DISPATCH_LEVEL";
  cur ← KeGetCurrentIrql t;
  _ ← AcquireSpinLock t SpinLock cur;
  mret tt.

Definition KeTryToAcquireSpinLockAtDpcLevel (t SpinLock : Z) : W state bool :=
  cur ← KeGetCurrentIrql t;
  _ ← wassert (cur >=? DISPATCH_LEVEL) "KeGetCurrentIrql() >= DISPATCH_LEVEL";
  l ← wget (fun s => spin_of s SpinLock);
  match AcquireSRWLockExclusive l with
  | Some l => _ ← wput (set_spins <[SpinLock := l]>); mret true
  | None => mret false
  end.

Definition KeReleaseSpinLock (t SpinLock NewIrql : Z) : W state unit :=
  cur ← KeGetCurrentIrql t;
  _ ← wassert (cur >=? DISPATCH_LEVEL) "KeGetCurrentIrql() >= DISPATCH_LEVEL";
  l ← wget (fun s => spin_of s SpinLock);
  _ ← wput (set_spins <[SpinLock := ReleaseSRWLockExclusive l]>);
  KeLowerIrql t NewIrql.

Definition KeReleaseSpinLockFromDpcLevel (t SpinLock : Z) : W state unit :=
  cur ← KeGetCurrentIrql t;
  KeReleaseSpinLock t SpinLock cur.

Definition KeReleaseSpinLockForDpc (t SpinLock OldIrql : Z) : W state unit :=
  KeReleaseSpinLock t SpinLock OldIrql.

Definition KeAcquireInStackQueuedSpinLock (t SpinLock LockHandle : Z) : W state unit :=
  cur ← KeGetCurrentIrql t;
  _ ← wassert (cur <=? DISPATCH_LEVEL) "KeGetCurrentIrql() <= DISPATCH_LEVEL";
  irql ← AcquireSpinLock t SpinLock DISPATCH_LEVEL;
  wput (set_handles <[LockHandle := mkHandle SpinLock irql]>).

Definition KeAcquireInStackQueuedSpinLockAtDpcLevel (t SpinLock LockHandle : Z) : W state unit :=
  cur ← KeGetCurrentIrql t;
  _ ← wassert (cur >=? DISPATCH_LEVEL) "KeGetCurrentIrql() >= DISPATCH_LEVEL";
  cur ← KeGetCurrentIrql t;
  irql ← AcquireSpinLock t SpinLock cur;
  wput (set_handles <[LockHandle := mkHandle SpinLock irql]>).

Definition handle_at (LockHandle : Z) : W state LOCKHANDLE :=
  h ← wget (fun s => handles s !! LockHandle);
  wlift (match h with Some h => Ok h | None => Err (BadAccess LockHandle) end).

Definition KeReleaseInStackQueuedSpinLock (t LockHandle : Z) : W state unit :=
  cur ← KeGetCurrentIrql t;
  _ ← wassert (cur =? DISPATCH_LEVEL) "KeGetCurrentIrql() == DISPATCH_LEVEL";
  h ← handle_at LockHandle;
  KeReleaseSpinLock t (h_lock h) (h_irql h).

Definition KeReleaseInStackQueuedSpinLockFromDpcLevel (t LockHandle : Z) : W state unit :=
  cur ← KeGetCurrentIrql t;
  _ ← wassert (cur >=? DISPATCH_LEVEL) "KeGetCurrentIrql() >= DISPATCH_LEVEL";
  h ← handle_at LockHandle;
  KeReleaseSpinLock t (h_lock h) (h_irql h).

(** ** spinlock.cpp: the [EX_SPIN_LOCK]s *)

Definition maxv : Z := 4096.

Definition word_of (s : state) (a : Z) : Z := default 0 (words s !! a).

(** The part of [GetSRWLock] under its own lock, for a word that is 0. *)
Definition alloc_index (SpinLock : Z) : W state Z :=
  i ← wget lockcount;
  _ ← wcheck (i / maxv <? 4096) "Too many read write spinlocks";
  present ← wget (fun s => bool_decide (i / maxv ∈ rows s));
  _ ← wcheck (present || calloc_row (i / maxv)) "Unable to allocate read write spinlock";
  _ ← wput (fun s => mkState (irqls s) (spins s) (handles s) (<[SpinLock := i]> (words s))
                       (u32 (lockcount s + 1)) ({[i / maxv]} ∪ rows s) (table s));
  mret i.

(** Returns the index of the lock. *)
Definition GetSRWLock (SpinLock : Z) : W state Z :=
  i ← wget (fun s => word_of s SpinLock);
  i ← (if i =? 0 then alloc_index SpinLock else mret i);
  ok ← wget (fun s => (i <? lockcount s) && bool_decide (i / maxv ∈ rows s));
  _ ← wcheck ok "Uninitialized read write lock";
  mret i.

Definition lock_at (s : state) (i : Z) : SRWLOCK := default srw_init (table s !! i).

Definition AcquireSpinLockShared (t SpinLock NewIrql : Z) : W state Z :=
  rc ← KeRaiseIrql t NewIrql;
  i ← GetSRWLock SpinLock;
  l ← wget (fun s => lock_at s i);
  l ← wwait (AcquireSRWLockShared l);
  _ ← wput (set_table <[i := l]>);
  mret rc.

Definition ExAcquireSpinLockShared (t SpinLock : Z) : W state Z :=
  cur ← KeGetCurrentIrql t;
  _ ← wassert (cur <=? DISPATCH_LEVEL) "KeGetCurrentIrql() <= DISPATCH_LEVEL";
  AcquireSpinLockShared t SpinLock DISPATCH_LEVEL.

Definition release_shared (SpinLock : Z) : W state unit :=
  i ← GetSRWLock SpinLock;
  l ← wget (fun s => lock_at s i);
  wput (set_table <[i := ReleaseSRWLockShared l]>).

Definition ExReleaseSpinLockShared (t SpinLock NewIrql : Z) : W state unit :=
  cur ← KeGetCurrentIrql t;
  _ ← wassert (cur =? DISPATCH_LEVEL) "KeGetCurrentIrql() == DISPATCH_LEVEL";
  _ ← release_shared SpinLock;
  KeLowerIrql t NewIrql.

Definition ExAcquireSpinLockSharedAtDpcLevel (t SpinLock : Z) : W state unit :=
  cur ← KeGetCurrentIrql t;
  _ ← wassert (cur >=? DISPATCH_LEVEL) "KeGetCurrentIrql() >= DISPATCH_LEVEL";
  cur ← KeGetCurrentIrql t;
  _ ← AcquireSpinLockShared t SpinLock cur;
  mret tt.

Definition ExReleaseSpinLockSharedFromDpcLevel (t SpinLock : Z) : W state unit :=
  cur ← KeGetCurrentIrql t;
  _ ← wassert (cur >=? DISPATCH_LEVEL) "KeGetCurrentIrql() >= DISPATCH_LEVEL";
  release_shared SpinLock.

Definition ExTryConvertSharedSpinLockExclusive (SpinLock : Z) : bool := false.

Definition AcquireSpinLockExclusive (t SpinLock NewIrql : Z) : W state Z :=
  rc ← KeRaiseIrql t NewIrql;
  i ← GetSRWLock SpinLock;
  l ← wget (fun s => lock_at s i);
  l ← wwait (AcquireSRWLockExclusive l);
  _ ← wput (set_table <[i := l]>);
  mret rc.

Definition ExAcquireSpinLockExclusive (t SpinLock : Z) : W state Z :=
  cur ← KeGetCurrentIrql t;
  _ ← wassert (cur <=? DISPATCH_LEVEL) "KeGetCurrentIrql() <= DISPATCH_LEVEL";
  AcquireSpinLockExclusive t SpinLock DISPATCH_LEVEL.

Definition ExReleaseSpinLockExclusive (t SpinLock NewIrql : Z) : W state unit :=
  cur ← KeGetCurrentIrql t;
  _ ← wassert (cur >=? DISPATCH_LEVEL) "KeGetCurrentIrql() >= DISPATCH_LEVEL";
  i ← GetSRWLock SpinLock;
  l ← wget (fun s => lock_at s i);
  _ ← wput (set_table <[i := ReleaseSRWLockExclusive l]>);
  KeLowerIrql t NewIrql.

Definition ExAcquireSpinLockExclusiveAtDpcLevel (t SpinLock : Z) : W state unit :=
  cur ← KeGetCurrentIrql t;
  _ ← wassert (cur >=? DISPATCH_LEVEL) "KeGetCurrentIrql() >= DISPATCH_LEVEL";
  cur ← KeGetCurrentIrql t;
  _ ← AcquireSpinLockExclusive t SpinLock cur;
  mret tt.

Definition ExReleaseSpinLockExclusiveFromDpcLevel (t SpinLock : Z) : W state unit :=
  cur ← KeGetCurrentIrql t;
  ExReleaseSpinLockExclusive t SpinLock cur.
End spinlock.
