(* ===== verification/SpinlockSpec.v ===== *)
(** * SpinlockSpec: mutual exclusion and IRQL discipline

    The spin-lock calls of any number of threads, interleaved in any order,
    against a history of who holds what.  [lockmode] is the abstract view of a
    lock; the representation invariant [words_ok] says how the reader-writer
    locks share the table. *)

From S2P Require Import Prelude Spinlock.

(** ** What the system's locks promise *)

Inductive Mode := Free | Exclusive | Shared (others : nat).

Class SRWLOCK_Laws `{SRWLOCK_API} := {
  mode : SRWLOCK -> Mode;
  mode_init : mode srw_init = Free;
  mode_unused : forall l, srw_unused l = true <-> mode l = Free;
  mode_free : forall l, mode l = Free -> is_Some (AcquireSRWLockExclusive l);
  mode_acquire : forall l l', AcquireSRWLockExclusive l = Some l' ->
    mode l = Free /\ mode l' = Exclusive;
  mode_acquire_shared : forall l l', AcquireSRWLockShared l = Some l' ->
    match mode l with
    | Free => mode l' = Shared 0
    | Shared n => mode l' = Shared (S n)
    | Exclusive => False
    end;
  mode_release : forall l, mode l = Exclusive -> mode (ReleaseSRWLockExclusive l) = Free;
  mode_release_shared : forall l n, mode l = Shared n ->
    mode (ReleaseSRWLockShared l) = match n with O => Free | S n => Shared n end
}.

Section spec.
Context `{SRWLOCK_Laws}.

(** ** The representation of the reader-writer locks *)

Record words_ok (s : state) : Prop := {
  count_ok : 1 <= lockcount s <= 4096 * 4096;
  word_range : forall a, word_of s a <> 0 ->
    1 <= word_of s a < lockcount s /\ word_of s a / maxv ∈ rows s;
  word_inj : forall a b, word_of s a <> 0 -> word_of s a = word_of s b -> a = b;
  table_fresh : forall i, lockcount s <= i -> table s !! i = None
}.

Inductive lock := Spin (a : Z) | Rw (a : Z).

#[local] Instance lock_eq_dec : EqDecision lock.
Proof. solve_decision. Defined.

Definition lockmode (s : state) (l : lock) : Mode :=
  match l with
  | Spin a => mode (spin_of s a)
  | Rw a => if word_of s a =? 0 then Free else mode (lock_at s (word_of s a))
  end.

Lemma words_ok_ext s s' :
  words s' = words s -> lockcount s' = lockcount s -> rows s' = rows s ->
  (forall i, lockcount s <= i -> table s' !! i = table s !! i) ->
  words_ok s -> words_ok s'.
Proof.
  intros Ew Ec Er Et [A B C D]. unfold word_of in *.
  split; unfold word_of; rewrite ?Ew, ?Ec, ?Er; auto. intros i Hi. by rewrite Et, D.
Qed.

(** ** The building blocks *)

Lemma KfRaiseIrql_inv t n s old s' :
  KfRaiseIrql t n s = Ok (Some (old, s')) ->
  old = DdkCurrentIrql t s /\ old <= n /\ s' = set_irqls <[t := n]> s.
Proof. unfold KfRaiseIrql, KeGetCurrentIrql. intros E. winv. split; [done |]. split; [lia | done]. Qed.

Lemma KeLowerIrql_inv t n s u s' :
  KeLowerIrql t n s = Ok (Some (u, s')) ->
  n <= DdkCurrentIrql t s /\ s' = set_irqls <[t := n]> s.
Proof. unfold KeLowerIrql, KeGetCurrentIrql. intros E. winv. split; [lia | done]. Qed.

Lemma AcquireSpinLock_inv t a n s old s' :
  AcquireSpinLock t a n s = Ok (Some (old, s')) ->
  exists l, AcquireSRWLockExclusive (spin_of s a) = Some l /\ old = DdkCurrentIrql t s /\ old <= n /\
    s' = set_spins <[a := l]> (set_irqls <[t := n]> s).
Proof.
  unfold AcquireSpinLock, KeRaiseIrql. intros E. winv.
  match goal with H : KfRaiseIrql _ _ _ = _ |- _ => apply KfRaiseIrql_inv in H as (-> & Hle & ->) end.
  eauto.
Qed.

Lemma KeReleaseSpinLock_inv t a n s u s' :
  KeReleaseSpinLock t a n s = Ok (Some (u, s')) ->
  DISPATCH_LEVEL <= DdkCurrentIrql t s /\ n <= DdkCurrentIrql t s /\
  s' = set_irqls <[t := n]> (set_spins <[a := ReleaseSRWLockExclusive (spin_of s a)]> s).
Proof.
  unfold KeReleaseSpinLock, KeGetCurrentIrql. intros E. winv.
  apply KeLowerIrql_inv in E as [Hle ->]. split; [lia |]. done.
Qed.

(** A call that finds a reader-writer lock leaves every lock as it is. *)
Lemma GetSRWLock_inv a s i s' :
  words_ok s -> GetSRWLock a s = Ok (Some (i, s')) ->
  words_ok s' /\ word_of s' a = i /\ i <> 0 /\ irqls s' = irqls s /\ spins s' = spins s /\
  handles s' = handles s /\ (forall l, lockmode s' l = lockmode s l).
Proof.
  intros Hok E. unfold GetSRWLock in E. winv.
  match goal with H : context [alloc_index] |- _ => rename H into E1 end.
  destruct (Z.eqb_spec (word_of s a) 0) as [E0 | E0]; [| winv; auto 10].
  unfold alloc_index in E1. winv. pose proof Hok as [Hc Hr Hinj Ht].
  assert (lockcount s / maxv < 4096) as Hlt by lia.
  assert (lockcount s + 1 <= 4096 * 4096) as Hle by (unfold maxv in *; Z.div_mod_to_equations; lia).
  assert (forall b, word_of (mkState (irqls s) (spins s) (handles s) (<[a:=lockcount s]> (words s))
    (u32 (lockcount s + 1)) ({[lockcount s / maxv]} ∪ rows s) (table s)) b =
    if decide (b = a) then lockcount s else word_of s b) as Hw.
  { intros b. unfold word_of. simpl. destruct (decide (b = a)) as [-> |];
      [by rewrite lookup_insert_eq | by rewrite lookup_insert_ne]. }
  split; [| split; [| split; [| split; [done | split; [done | split; [done |]]]]]].
  - split; simpl.
    + rewrite u32_id by lia. lia.
    + intros b. rewrite Hw, u32_id by lia. destruct (decide (b = a)) as [-> |].
      * intros _. split; [lia | set_solver].
      * intros Hb. destruct (Hr b Hb). split; [lia | set_solver].
    + intros b c. rewrite !Hw. destruct (decide (b = a)) as [-> |], (decide (c = a)) as [-> |]; auto.
      * intros _ E. pose proof (Hr c). lia.
      * intros Hb E. pose proof (Hr b). lia.
    + intros i Hi. rewrite u32_id in Hi by lia. apply Ht. lia.
  - rewrite Hw. by rewrite decide_True.
  - lia.
  - intros [b | b]; [done |]. simpl. rewrite Hw. destruct (decide (b = a)) as [-> |]; [| done].
    replace (lockcount s =? 0) with false by lia. rewrite E0. simpl.
    unfold lock_at. simpl. rewrite Ht by lia. apply mode_init.
Qed.

Lemma lockmode_irqls f s l : lockmode (set_irqls f s) l = lockmode s l.
Proof. by destruct l. Qed.

Lemma lockmode_handles f s l : lockmode (set_handles f s) l = lockmode s l.
Proof. by destruct l. Qed.

Lemma lockmode_spins a l s x :
  lockmode (set_spins <[a := l]> s) x = if decide (x = Spin a) then mode l else lockmode s x.
Proof.
  destruct x as [b | b].
  - simpl. unfold spin_of. simpl. destruct (decide (Spin b = Spin a)) as [[= ->] | Hne].
    + by rewrite lookup_insert_eq.
    + rewrite lookup_insert_ne; [done | congruence].
  - by destruct (decide (Rw b = Spin a)).
Qed.

Lemma lockmode_table a l s x :
  words_ok s -> word_of s a <> 0 ->
  lockmode (set_table <[word_of s a := l]> s) x = if decide (x = Rw a) then mode l else lockmode s x.
Proof.
  intros Hok Ha. destruct x as [b | b]; [by destruct (decide (Spin b = Rw a)) |]. simpl.
  unfold lock_at. simpl. change (word_of (set_table ?f s)) with (word_of s).
  destruct (decide (Rw b = Rw a)) as [[= ->] | Hne].
  - replace (word_of s a =? 0) with false by lia. by rewrite lookup_insert_eq.
  - destruct (Z.eqb_spec (word_of s b) 0); [done |]. rewrite lookup_insert_ne; [done |].
    intros E. apply Hne. f_equal. symmetry. by eapply word_inj.
Qed.

Lemma words_ok_irqls f s : words_ok s -> words_ok (set_irqls f s).
Proof. by apply words_ok_ext. Qed.
Lemma words_ok_spins f s : words_ok s -> words_ok (set_spins f s).
Proof. by apply words_ok_ext. Qed.
Lemma words_ok_handles f s : words_ok s -> words_ok (set_handles f s).
Proof. by apply words_ok_ext. Qed.
Lemma words_ok_table a l s : words_ok s -> word_of s a <> 0 ->
  words_ok (set_table <[word_of s a := l]> s).
Proof.
  intros Hok Ha. apply (words_ok_ext s); [done | done | done | | done].
  intros i Hi. simpl. rewrite lookup_insert_ne; [done |]. destruct (word_range s Hok a Ha). lia.
Qed.

(** ** The calls, and their effect on the locks *)

Inductive call :=
  | CRaise (n : Z) | CLower (n : Z)
  | CInit (a : Z) | CTest (a : Z)
  | CAcquireRaise (a : Z) | CAcquireForDpc (a : Z) | CAcquireAtDpc (a : Z) | CTry (a : Z)
  | CRelease (a n : Z) | CReleaseFromDpc (a : Z) | CReleaseForDpc (a n : Z)
  | CQueued (a h : Z) | CQueuedAtDpc (a h : Z) | CReleaseQueued (h : Z) | CReleaseQueuedFromDpc (h : Z)
  | CShared (a : Z) | CSharedAtDpc (a : Z) | CReleaseShared (a n : Z) | CReleaseSharedFromDpc (a : Z)
  | CExclusive (a : Z) | CExclusiveAtDpc (a : Z) | CReleaseExclusive (a n : Z)
  | CReleaseExclusiveFromDpc (a : Z).

(** Thread [t] makes a call; the answer matters for the attempt and the test. *)
Definition exec (t : Z) (c : call) : W state bool :=
  match c with
  | CRaise n => _ ← KfRaiseIrql t n; mret true
  | CLower n => _ ← KeLowerIrql t n; mret true
  | CInit a => _ ← KeInitializeSpinLock a; mret true
  | CTest a => KeTestSpinLock a
  | CAcquireRaise a => _ ← KeAcquireSpinLockRaiseToDpc t a; mret true
  | CAcquireForDpc a => _ ← KeAcquireSpinLockForDpc t a; mret true
  | CAcquireAtDpc a => _ ← KeAcquireSpinLockAtDpcLevel t a; mret true
  | CTry a => KeTryToAcquireSpinLockAtDpcLevel t a
  | CRelease a n => _ ← KeReleaseSpinLock t a n; mret true
  | CReleaseFromDpc a => _ ← KeReleaseSpinLockFromDpcLevel t a; mret true
  | CReleaseForDpc a n => _ ← KeReleaseSpinLockForDpc t a n; mret true
  | CQueued a h => _ ← KeAcquireInStackQueuedSpinLock t a h; mret true
  | CQueuedAtDpc a h => _ ← KeAcquireInStackQueuedSpinLockAtDpcLevel t a h; mret true
  | CReleaseQueued h => _ ← KeReleaseInStackQueuedSpinLock t h; mret true
  | CReleaseQueuedFromDpc h => _ ← KeReleaseInStackQueuedSpinLockFromDpcLevel t h; mret true
  | CShared a => _ ← ExAcquireSpinLockShared t a; mret true
  | CSharedAtDpc a => _ ← ExAcquireSpinLockSharedAtDpcLevel t a; mret true
  | CReleaseShared a n => _ ← ExReleaseSpinLockShared t a n; mret true
  | CReleaseSharedFromDpc a => _ ← ExReleaseSpinLockSharedFromDpcLevel t a; mret true
  | CExclusive a => _ ← ExAcquireSpinLockExclusive t a; mret true
  | CExclusiveAtDpc a => _ ← ExAcquireSpinLockExclusiveAtDpcLevel t a; mret true
  | CReleaseExclusive a n => _ ← ExReleaseSpinLockExclusive t a n; mret true
  | CReleaseExclusiveFromDpc a => _ ← ExReleaseSpinLockExclusiveFromDpcLevel t a; mret true
  end.

Inductive effect := Nothing | Acquires (l : lock) (x : bool) | Releases (l : lock) (x : bool)
  | Initializes (l : lock).

(** What a call that came back with answer [r] does, [x] for exclusively. *)
Definition effect_of (s : state) (c : call) (r : bool) : effect :=
  match c with
  | CRaise _ | CLower _ | CTest _ => Nothing
  | CInit a => Initializes (Spin a)
  | CTry a => if r then Acquires (Spin a) true else Nothing
  | CAcquireRaise a | CAcquireForDpc a | CAcquireAtDpc a | CQueued a _ | CQueuedAtDpc a _ =>
      Acquires (Spin a) true
  | CRelease a _ | CReleaseFromDpc a | CReleaseForDpc a _ => Releases (Spin a) true
  | CReleaseQueued h | CReleaseQueuedFromDpc h =>
      match handles s !! h with
      | Some x => Releases (Spin (h_lock x)) true
      | None => Nothing
      end
  | CShared a | CSharedAtDpc a => Acquires (Rw a) false
  | CReleaseShared a _ | CReleaseSharedFromDpc a => Releases (Rw a) false
  | CExclusive a | CExclusiveAtDpc a => Acquires (Rw a) true
  | CReleaseExclusive a _ | CReleaseExclusiveFromDpc a => Releases (Rw a) true
  end.

(** [m'] is what the effect may leave of a lock in mode [m]. *)
Definition acquired (x : bool) (m m' : Mode) : Prop :=
  match x, m with
  | true, Free => m' = Exclusive
  | false, Free => m' = Shared 0
  | false, Shared n => m' = Shared (S n)
  | _, _ => False
  end.

Definition released (x : bool) (m m' : Mode) : Prop :=
  match x, m with
  | true, Exclusive => m' = Free
  | false, Shared (S n) => m' = Shared n
  | false, Shared 0 => m' = Free
  | _, _ => True
  end.

Definition effect_ok (s s' : state) (e : effect) : Prop :=
  match e with
  | Nothing => forall y, lockmode s' y = lockmode s y
  | Acquires l x => acquired x (lockmode s l) (lockmode s' l) /\
      forall y, y <> l -> lockmode s' y = lockmode s y
  | Releases l x => released x (lockmode s l) (lockmode s' l) /\
      forall y, y <> l -> lockmode s' y = lockmode s y
  | Initializes l => lockmode s' l = Free /\ forall y, y <> l -> lockmode s' y = lockmode s y
  end.

(** The two kinds of step a call makes on a lock's state. *)
Lemma acquire_spin_ok s a l f :
  words_ok s -> AcquireSRWLockExclusive (spin_of s a) = Some l ->
  words_ok (set_spins <[a := l]> (set_irqls f s)) /\
  effect_ok s (set_spins <[a := l]> (set_irqls f s)) (Acquires (Spin a) true).
Proof.
  intros Hok E. apply mode_acquire in E as [E1 E2].
  split; [by apply words_ok_spins, words_ok_irqls |]. simpl. split.
  - rewrite E1. change (lockmode (set_spins <[a := l]> (set_irqls f s)) (Spin a) = Exclusive).
    rewrite lockmode_spins. by rewrite decide_True.
  - intros y Hy. rewrite lockmode_spins. destruct (decide (y = Spin a)); [done |].
    apply lockmode_irqls.
Qed.

Lemma release_spin_ok s a f :
  words_ok s ->
  let s' := set_irqls f (set_spins <[a := ReleaseSRWLockExclusive (spin_of s a)]> s) in
  words_ok s' /\ effect_ok s s' (Releases (Spin a) true).
Proof.
  intros Hok s'. split; [by apply words_ok_irqls, words_ok_spins |].
  subst s'. split.
  - rewrite lockmode_irqls, lockmode_spins. rewrite decide_True by done. simpl.
    destruct (mode (spin_of s a)) eqn:E; try done. by apply mode_release.
  - intros y Hy. rewrite lockmode_irqls, lockmode_spins. by destruct (decide (y = Spin a)).
Qed.

(** What finding the lock of a word gives, with the calls that follow. *)
Lemma table_ok (x : bool) s0 a s l :
  words_ok s -> word_of s a <> 0 -> (forall y, lockmode s y = lockmode s0 y) ->
  words_ok (set_table <[word_of s a := l]> s) /\
  (acquired x (mode (lock_at s (word_of s a))) (mode l) ->
     effect_ok s0 (set_table <[word_of s a := l]> s) (Acquires (Rw a) x)) /\
  (released x (mode (lock_at s (word_of s a))) (mode l) ->
     effect_ok s0 (set_table <[word_of s a := l]> s) (Releases (Rw a) x)).
Proof.
  intros Hok Ha Hl. split; [by apply words_ok_table |].
  assert (mode (lock_at s (word_of s a)) = lockmode s0 (Rw a)) as ->.
  { rewrite <- Hl. simpl. by replace (word_of s a =? 0) with false by lia. }
  split; intros Hm; (split;
    [rewrite lockmode_table, decide_True by done; done |
     intros y Hy; rewrite lockmode_table by done; destruct (decide (y = Rw a)); [done | apply Hl]]).
Qed.

Lemma effect_irqls f s s' e : effect_ok s s' e -> effect_ok s (set_irqls f s') e.
Proof.
  destruct e; simpl; intros H1; [| destruct H1 as [H1 H2] ..];
    try split; intros; rewrite ?lockmode_irqls; auto.
Qed.

Lemma effect_handles f s s' e : effect_ok s s' e -> effect_ok s (set_handles f s') e.
Proof.
  destruct e; simpl; intros H1; [| destruct H1 as [H1 H2] ..];
    try split; intros; rewrite ?lockmode_handles; auto.
Qed.

Lemma AcquireSpinLockShared_ok t a n s r s' :
  words_ok s -> AcquireSpinLockShared t a n s = Ok (Some (r, s')) ->
  words_ok s' /\ effect_ok s s' (Acquires (Rw a) false).
Proof.
  intros Hok E. unfold AcquireSpinLockShared, KeRaiseIrql in E. winv.
  match goal with H : KfRaiseIrql _ _ _ = _ |- _ => apply KfRaiseIrql_inv in H as (-> & _ & ->) end.
  match goal with H : GetSRWLock _ _ = _ |- _ =>
    apply GetSRWLock_inv in H as (Hok' & <- & Hne & _ & _ & _ & Hl); [| by apply words_ok_irqls] end.
  match goal with H : AcquireSRWLockShared _ = Some _ |- _ => apply mode_acquire_shared in H end.
  match goal with |- context [set_table <[_ := ?l]> ?s1] =>
    destruct (table_ok false s a s1 l) as (H1' & H2' & _) end; try done.
  split; [done |]. apply H2'. simpl. by destruct (mode (lock_at _ _)).
Qed.

Lemma AcquireSpinLockExclusive_ok t a n s r s' :
  words_ok s -> AcquireSpinLockExclusive t a n s = Ok (Some (r, s')) ->
  words_ok s' /\ effect_ok s s' (Acquires (Rw a) true).
Proof.
  intros Hok E. unfold AcquireSpinLockExclusive, KeRaiseIrql in E. winv.
  match goal with H : KfRaiseIrql _ _ _ = _ |- _ => apply KfRaiseIrql_inv in H as (-> & _ & ->) end.
  match goal with H : GetSRWLock _ _ = _ |- _ =>
    apply GetSRWLock_inv in H as (Hok' & <- & Hne & _ & _ & _ & Hl); [| by apply words_ok_irqls] end.
  match goal with H : AcquireSRWLockExclusive _ = Some _ |- _ =>
    apply mode_acquire in H as [Hm1 Hm2] end.
  match goal with |- context [set_table <[_ := ?l]> ?s1] =>
    destruct (table_ok true s a s1 l) as (H1' & H2' & _) end; try done.
  split; [done |]. apply H2'. simpl. by rewrite Hm1.
Qed.

Lemma release_shared_ok a s u s' :
  words_ok s -> release_shared a s = Ok (Some (u, s')) ->
  words_ok s' /\ effect_ok s s' (Releases (Rw a) false).
Proof.
  intros Hok E. unfold release_shared in E. winv.
  match goal with H : GetSRWLock _ _ = _ |- _ =>
    apply GetSRWLock_inv in H as (Hok' & <- & Hne & _ & _ & _ & Hl); [| done] end.
  match goal with |- context [set_table <[_ := ?l]> ?s1] =>
    destruct (table_ok false s a s1 l) as (H1' & _ & H2') end; try done.
  split; [done |]. apply H2'. simpl. destruct (mode (lock_at _ _)) as [| | [|]] eqn:Em; [done | done | |];
    by apply mode_release_shared in Em as ->.
Qed.

Lemma release_exclusive_ok t a n s u s' :
  words_ok s -> ExReleaseSpinLockExclusive t a n s = Ok (Some (u, s')) ->
  words_ok s' /\ effect_ok s s' (Releases (Rw a) true).
Proof.
  intros Hok E. unfold ExReleaseSpinLockExclusive, KeGetCurrentIrql in E. winv.
  apply KeLowerIrql_inv in E as [_ ->].
  match goal with H : GetSRWLock _ _ = _ |- _ =>
    apply GetSRWLock_inv in H as (Hok' & <- & Hne & _ & _ & _ & Hl); [| done] end.
  match goal with |- context [set_table <[_ := ?l]> ?s1] =>
    destruct (table_ok true s a s1 l) as (H1' & _ & H2') end; try done.
  split; [by apply words_ok_irqls |]. apply effect_irqls, H2'. simpl.
  destruct (mode (lock_at _ _)) eqn:Em; try done. by apply mode_release.
Qed.

Lemma handle_at_inv h s x s' : handle_at h s = Ok (Some (x, s')) -> handles s !! h = Some x /\ s' = s.
Proof.
  unfold handle_at. intros E. winv. destruct (handles s !! h); [| done]. by injection E as -> ->.
Qed.

(** Every call that comes back keeps the representation invariant and has the
    effect its name says. *)
Lemma exec_ok t c s r s' :
  words_ok s -> exec t c s = Ok (Some (r, s')) -> words_ok s' /\ effect_ok s s' (effect_of s c r).
Proof.
  intros Hok E.
  assert (forall a n old s1, AcquireSpinLock t a n s = Ok (Some (old, s1)) ->
    words_ok s1 /\ effect_ok s s1 (Acquires (Spin a) true)) as Hacq.
  { intros a n old s1 Ha. apply AcquireSpinLock_inv in Ha as (l & Hl & _ & _ & ->).
    by apply acquire_spin_ok. }
  assert (forall a n u s1, KeReleaseSpinLock t a n s = Ok (Some (u, s1)) ->
    words_ok s1 /\ effect_ok s s1 (Releases (Spin a) true)) as Hrel.
  { intros a n u s1 Ha. apply KeReleaseSpinLock_inv in Ha as (_ & _ & ->). by apply release_spin_ok. }
  destruct c; simpl exec in E; simpl effect_of;
    unfold KeAcquireSpinLockRaiseToDpc, KeAcquireSpinLockForDpc, KeAcquireSpinLockAtDpcLevel,
      KeReleaseSpinLockFromDpcLevel, KeReleaseSpinLockForDpc, KeAcquireInStackQueuedSpinLock,
      KeAcquireInStackQueuedSpinLockAtDpcLevel, ExAcquireSpinLockShared,
      ExAcquireSpinLockSharedAtDpcLevel, ExReleaseSpinLockShared, ExReleaseSpinLockSharedFromDpcLevel,
      ExAcquireSpinLockExclusive, ExAcquireSpinLockExclusiveAtDpcLevel,
      ExReleaseSpinLockExclusiveFromDpcLevel, KeGetCurrentIrql in E; winv;
    try (by eapply Hacq); try (by eapply Hrel); try (by eapply AcquireSpinLockShared_ok);
    try (by eapply AcquireSpinLockExclusive_ok); try (by eapply release_shared_ok);
    try (by eapply release_exclusive_ok).
  - match goal with H : KfRaiseIrql _ _ _ = _ |- _ => apply KfRaiseIrql_inv in H as (_ & _ & ->) end.
    split; [by apply words_ok_irqls | intros y; apply lockmode_irqls].
  - match goal with H : KeLowerIrql _ _ _ = _ |- _ => apply KeLowerIrql_inv in H as [_ ->] end.
    split; [by apply words_ok_irqls | intros y; apply lockmode_irqls].
  - match goal with H : KeInitializeSpinLock _ _ = _ |- _ => apply wput_inv in H as -> end.
    split; [by apply words_ok_spins |]. split; [| intros y Hy]; rewrite lockmode_spins.
    + rewrite decide_True by done. apply mode_init.
    + by destruct (decide (y = Spin a)).
  - apply wget_inv in E as [_ ->]. done.
  - unfold KeTryToAcquireSpinLockAtDpcLevel, KeGetCurrentIrql in E. winv.
    destruct (AcquireSRWLockExclusive _) eqn:Ea; winv; [| done].
    by apply (acquire_spin_ok s a _ id).
  - match goal with H : AcquireSpinLock _ _ _ _ = _ |- _ => apply Hacq in H as [? ?] end.
    split; [by apply words_ok_handles | by apply effect_handles].
  - match goal with H : AcquireSpinLock _ _ _ _ = _ |- _ => apply Hacq in H as [? ?] end.
    split; [by apply words_ok_handles | by apply effect_handles].
  - match goal with H : KeReleaseInStackQueuedSpinLock _ _ _ = _ |- _ =>
      unfold KeReleaseInStackQueuedSpinLock, KeGetCurrentIrql in H end. winv.
    match goal with H : handle_at _ _ = _ |- _ => apply handle_at_inv in H as [-> ->] end.
    by eapply Hrel.
  - match goal with H : KeReleaseInStackQueuedSpinLockFromDpcLevel _ _ _ = _ |- _ =>
      unfold KeReleaseInStackQueuedSpinLockFromDpcLevel, KeGetCurrentIrql in H end. winv.
    match goal with H : handle_at _ _ = _ |- _ => apply handle_at_inv in H as [-> ->] end.
    by eapply Hrel.
  - match goal with H : release_shared _ _ = _ |- _ => apply release_shared_ok in H as [? ?]; [| done] end.
    match goal with H : KeLowerIrql _ _ _ = _ |- _ => apply KeLowerIrql_inv in H as [_ ->] end.
    split; [by apply words_ok_irqls | by apply effect_irqls].
Qed.

(** ** Any number of threads *)

(** Who holds what, newest first; [true] for exclusively. *)
Definition holding : Type := list (Z * lock * bool).

Definition on (l : lock) (h : holding) : list (Z * lock * bool) :=
  filter (fun e => e.1.2 = l) h.

(** How an effect of thread [t] changes the history.  A lock is released by a
    thread that holds it, and initialized when nobody does. *)
Inductive update (t : Z) : effect -> holding -> holding -> Prop :=
  | update_nothing h : update t Nothing h h
  | update_acquire l x h : update t (Acquires l x) h ((t, l, x) :: h)
  | update_release l x h1 h2 : update t (Releases l x) (h1 ++ (t, l, x) :: h2) (h1 ++ h2)
  | update_init l h : on l h = [] -> update t (Initializes l) h h.

Inductive sys_step : state * holding -> state * holding -> Prop :=
  | sys_call t c r s h s' h' :
      exec t c s = Ok (Some (r, s')) -> update t (effect_of s c r) h h' -> sys_step (s, h) (s', h').

Definition start : state := mkState ∅ ∅ ∅ ∅ 1 ∅ ∅.

Definition reachable (s : state) (h : holding) : Prop := rtc sys_step (start, []) (s, h).

(** The history of a lock that is in a mode. *)
Definition agrees (m : Mode) (es : list (Z * lock * bool)) : Prop :=
  match m with
  | Free => es = []
  | Exclusive => map snd es = [true]
  | Shared n => map snd es = replicate (S n) false
  end.

Definition sys_inv (p : state * holding) : Prop :=
  words_ok p.1 /\ forall l, agrees (lockmode p.1 l) (on l p.2).

Lemma start_inv : sys_inv (start, []).
Proof.
  split; simpl.
  - split; simpl; [lia | done | done | intros; apply lookup_empty].
  - intros [a | a]; simpl; [| done]. unfold spin_of. simpl. rewrite lookup_empty. simpl. by rewrite mode_init.
Qed.

Lemma on_cons_eq t l x h : on l ((t, l, x) :: h) = (t, l, x) :: on l h.
Proof. by apply filter_cons_True. Qed.
Lemma on_cons_ne t l l' x h : l <> l' -> on l ((t, l', x) :: h) = on l h.
Proof. intros Hne. apply filter_cons_False. simpl. congruence. Qed.
Lemma on_app l h1 h2 : on l (h1 ++ h2) = on l h1 ++ on l h2.
Proof. apply filter_app. Qed.

(** Removing one of [n] equal entries. *)
Lemma snd_remove (es1 es2 : holding) e n (x : bool) :
  map snd (es1 ++ e :: es2) = replicate (S n) x -> map snd (es1 ++ es2) = replicate n x.
Proof.
  intros E. assert (length (map snd (es1 ++ es2)) = n) as L.
  { apply (f_equal length) in E. rewrite length_map, length_app, length_replicate in *. simpl in E. lia. }
  symmetry. apply replicate_as_elem_of. split; [done |]. intros y Hy.
  assert (y ∈ replicate (S n) x) as Hr.
  { rewrite <- E. rewrite map_app in Hy |- *. simpl. set_solver. }
  by apply elem_of_replicate_inv in Hr.
Qed.

Lemma step_inv p q : sys_inv p -> sys_step p q -> sys_inv q.
Proof.
  intros Hi Hstep. destruct Hstep as [t c r s h s' h' E U]. destruct Hi as [Hok Ha]. simpl in *.
  destruct (exec_ok t c s r s' Hok E) as [Hok' He]. split; [done |]. simpl. intros y.
  destruct U as [h | l x h | l x h1 h2 | l h Hn]; simpl in He.
  - by rewrite He.
  - destruct He as [Hm Hf]. destruct (decide (y = l)) as [-> | Hne].
    + rewrite on_cons_eq. specialize (Ha l). unfold acquired in Hm.
      destruct x, (lockmode s l); simpl in *; try done; rewrite Hm; simpl; by rewrite Ha.
    + rewrite on_cons_ne, Hf by done. apply Ha.
  - destruct He as [Hm Hf]. specialize (Ha y). rewrite on_app in *. destruct (decide (y = l)) as [-> | Hne].
    + rewrite on_cons_eq in Ha. unfold released in Hm.
      destruct (lockmode s l) as [| | [|n]] eqn:Em; simpl in Ha.
      * by destruct (on l h1).
      * assert (x = true) as ->.
        { rewrite map_app in Ha. by destruct (on l h1) as [|? [|]], (on l h2); injection Ha; intros. }
        rewrite Hm. destruct (on l h1) as [|? [|]], (on l h2); simplify_eq/=; done.
      * destruct x; [exfalso; rewrite map_app in Ha;
          by destruct (on l h1) as [|? [|]], (on l h2); simplify_eq/= |].
        rewrite Hm. simpl. apply (snd_remove _ _ _ 0) in Ha. by eapply map_eq_nil.
      * assert (x = false) as ->.
        { assert (x ∈ replicate (S (S n)) false) as Hr.
          { change (false :: false :: replicate n false) with (replicate (S (S n)) false) in Ha.
            rewrite <- Ha, map_app. simpl. set_solver. }
          by apply elem_of_replicate_inv in Hr. }
        rewrite Hm. simpl. by apply (snd_remove _ _ _ (S n)) in Ha.
    + rewrite on_cons_ne in Ha by done. by rewrite Hf.
  - destruct He as [Hm Hf]. destruct (decide (y = l)) as [-> | Hne]; [| by rewrite Hf].
    by rewrite Hm.
Qed.

Lemma reachable_inv s h : reachable s h -> sys_inv (s, h).
Proof.
  intros Hr. unfold reachable in Hr. remember (start, []) as p eqn:Ep. remember (s, h) as q.
  assert (sys_inv p) as Hp by (subst p; apply start_inv). clear Ep Heqq.
  induction Hr; [done |]. apply IHHr. by eapply step_inv.
Qed.

(** ** The properties *)

Lemma agrees_true m es : agrees m es -> (exists e, e ∈ es /\ e.2 = true) -> m = Exclusive.
Proof.
  intros Ha (e & He & E). destruct m as [| | n]; simpl in Ha; [by subst; apply elem_of_nil in He | done |].
  exfalso. assert (e.2 ∈ replicate (S n) false) as Hx
    by (simpl; rewrite <- Ha; by apply list_elem_of_fmap_2).
  apply elem_of_replicate_inv in Hx. congruence.
Qed.

Lemma agrees_empty m es : agrees m es -> m = Free <-> es = [].
Proof.
  destruct m as [| | n]; simpl; intros Ha; [by rewrite Ha | |]; (split; [done | intros ->; done]).
Qed.

(** C4. Mutual exclusion, for every interleaving of the spin-lock calls in which
    a lock is released by a thread that holds it: while a thread holds a lock
    exclusively it is the only holder, and no call that comes back has acquired
    the lock in any mode; [KeTestSpinLock] says TRUE exactly of the locks nobody
    holds. *)
Theorem mutual_exclusion s h (Hr : reachable s h) :
  (forall t l, (t, l, true) ∈ h ->
     on l h = [(t, l, true)] /\
     forall t' c r s' x, exec t' c s = Ok (Some (r, s')) -> effect_of s c r <> Acquires l x) /\
  (forall a, exists b, KeTestSpinLock a s = Ok (Some (b, s)) /\
     (b = true <-> forall t x, (t, Spin a, x) ∉ h)).
Proof.
  destruct (reachable_inv s h Hr) as [Hok Ha]. simpl in *. split.
  - intros t l Hin. assert ((t, l, true) ∈ on l h) as Hon by (by apply list_elem_of_filter).
    assert (lockmode s l = Exclusive) as Em
      by (eapply agrees_true; [apply Ha | by exists (t, l, true)]).
    split.
    + specialize (Ha l). rewrite Em in Ha. simpl in Ha.
      destruct (on l h) as [|e [|]]; simplify_eq/=. apply list_elem_of_singleton in Hon. by subst e.
    + intros t' c r s' x E Heff. destruct (exec_ok t' c s r s' Hok E) as [_ He]. rewrite Heff in He.
      destruct He as [He _]. rewrite Em in He. by destruct x.
  - intros a. exists (srw_unused (spin_of s a)). split; [done |].
    rewrite mode_unused. change (mode (spin_of s a)) with (lockmode s (Spin a)).
    rewrite (agrees_empty _ _ (Ha (Spin a))). split.
    + intros E t x Hin. assert ((t, Spin a, x) ∈ on (Spin a) h) as Hon by (by apply list_elem_of_filter).
      rewrite E in Hon. by apply elem_of_nil in Hon.
    + intros Hn. destruct (on (Spin a) h) as [|[[t l] x] es] eqn:E; [done | exfalso].
      assert ((t, l, x) ∈ on (Spin a) h) as Hon by (rewrite E; set_solver).
      apply list_elem_of_filter in Hon as [El Hin]. simpl in El. subst l. by eapply Hn.
Qed.

(** Nested acquisition of a list of locks, and what the thread's IRQL is inside. *)
Fixpoint with_locks (t : Z) (ls : list Z) : W state Z :=
  match ls with
  | [] => KeGetCurrentIrql t
  | a :: ls =>
      old ← KeAcquireSpinLockRaiseToDpc t a;
      v ← with_locks t ls;
      _ ← KeReleaseSpinLock t a old;
      mret v
  end.

Lemma acquire_run t a s :
  DdkCurrentIrql t s <= DISPATCH_LEVEL -> mode (spin_of s a) = Free ->
  exists l, AcquireSRWLockExclusive (spin_of s a) = Some l /\
    KeAcquireSpinLockRaiseToDpc t a s = Ok (Some (DdkCurrentIrql t s,
      set_spins <[a := l]> (set_irqls <[t := DISPATCH_LEVEL]> s))).
Proof.
  intros Hi Hf. destruct (mode_free _ Hf) as [l Hl]. exists l. split; [done |].
  unfold KeAcquireSpinLockRaiseToDpc, KeGetCurrentIrql, AcquireSpinLock, KeRaiseIrql, KfRaiseIrql,
    KeGetCurrentIrql, wget, wassert, wlift, ddkassert, wput, wwait, mbind, W_bind, mret, W_ret.
  simpl. replace (DdkCurrentIrql t s <=? DISPATCH_LEVEL) with true by lia. simpl.
  replace (DdkCurrentIrql t s <=? DISPATCH_LEVEL) with true by lia. simpl.
  change (spin_of (set_irqls <[t:=DISPATCH_LEVEL]> s) a) with (spin_of s a). by rewrite Hl.
Qed.

Lemma release_run t a n s :
  DdkCurrentIrql t s = DISPATCH_LEVEL -> n <= DISPATCH_LEVEL ->
  KeReleaseSpinLock t a n s = Ok (Some (tt,
    set_irqls <[t := n]> (set_spins <[a := ReleaseSRWLockExclusive (spin_of s a)]> s))).
Proof.
  intros Hi Hn. unfold KeReleaseSpinLock, KeLowerIrql, KeGetCurrentIrql, wget, wassert, wlift,
    ddkassert, wput, mbind, W_bind. simpl. rewrite Hi. rewrite Z.geb_leb, Z.leb_refl. simpl.
  change (DdkCurrentIrql t (set_spins ?f s)) with (DdkCurrentIrql t s). rewrite ?Hi.
  by replace (DISPATCH_LEVEL >=? n) with true by lia.
Qed.

Lemma irql_insert t t' n s :
  DdkCurrentIrql t' (set_irqls <[t := n]> s) = if decide (t' = t) then n else DdkCurrentIrql t' s.
Proof.
  unfold DdkCurrentIrql. simpl. destruct (decide (t' = t)) as [-> |];
    [by rewrite lookup_insert_eq | by rewrite lookup_insert_ne].
Qed.

Lemma spin_insert a b l s :
  spin_of (set_spins <[a := l]> s) b = if decide (b = a) then l else spin_of s b.
Proof.
  unfold spin_of. simpl. destruct (decide (b = a)) as [-> |];
    [by rewrite lookup_insert_eq | by rewrite lookup_insert_ne].
Qed.

(** Nesting: a thread at DISPATCH_LEVEL or below that acquires any list of
    different free spin locks and releases them in the opposite order, each with
    the IRQL its acquisition returned, never waits and fails no assertion, runs
    at DISPATCH_LEVEL while it holds one, and leaves every lock free and every
    thread's IRQL as it was. *)
Theorem nested_locks t ls s
  (Hnd : NoDup ls) (Hi : DdkCurrentIrql t s <= DISPATCH_LEVEL)
  (Hfree : forall a, a ∈ ls -> mode (spin_of s a) = Free) :
  exists s', with_locks t ls s =
      Ok (Some (if ls is [] then DdkCurrentIrql t s else DISPATCH_LEVEL, s')) /\
    (forall t', DdkCurrentIrql t' s' = DdkCurrentIrql t' s) /\
    (forall a, mode (spin_of s' a) = mode (spin_of s a)).
Proof.
  revert s Hi Hfree. induction ls as [|a ls IH]; intros s Hi Hfree; [by exists s |].
  apply NoDup_cons in Hnd as [Ha Hnd].
  destruct (acquire_run t a s Hi) as (l & Hl & E1); [apply Hfree; set_solver |].
  cbn [with_locks]. erewrite wbind_run by exact E1.
  set (s1 := set_spins _ _) in *.
  destruct (IH Hnd s1) as (s2 & E2 & Hi2 & Hm2).
  { subst s1. change (DdkCurrentIrql t (set_spins ?f ?s)) with (DdkCurrentIrql t s).
    rewrite irql_insert, decide_True by done. done. }
  { intros b Hb. subst s1. rewrite spin_insert. destruct (decide (b = a)) as [-> |]; [done |].
    apply Hfree. set_solver. }
  assert (forall t', DdkCurrentIrql t' s1 =
    if decide (t' = t) then DISPATCH_LEVEL else DdkCurrentIrql t' s) as His1.
  { intros t'. subst s1. change (DdkCurrentIrql t' (set_spins ?f ?s)) with (DdkCurrentIrql t' s).
    apply irql_insert. }
  erewrite wbind_run by exact E2. erewrite wbind_run.
  2: { apply release_run; [by rewrite Hi2, His1, decide_True | done]. }
  eexists. split; [| split].
  - destruct ls; [| done]. by rewrite His1, decide_True.
  - intros t'. rewrite irql_insert. destruct (decide (t' = t)) as [-> |]; [done |].
    change (DdkCurrentIrql t' (set_spins ?f s2)) with (DdkCurrentIrql t' s2).
    by rewrite Hi2, His1, decide_False.
  - intros b. change (spin_of (set_irqls ?f ?s) b) with (spin_of s b). rewrite spin_insert.
    destruct (decide (b = a)) as [-> |].
    + rewrite (Hfree a) by set_solver. apply mode_release. rewrite Hm2. subst s1.
      rewrite spin_insert, decide_True by done. by apply mode_acquire in Hl as [_ ->].
    + rewrite Hm2. subst s1. by rewrite spin_insert, decide_False.
Qed.
End spec.

(** ** Witnesses: locks that are their own mode *)

Definition mode_api : SRWLOCK_API := {|
  SRWLOCK := Mode;
  srw_init := Free;
  srw_unused l := match l with Free => true | _ => false end;
  AcquireSRWLockExclusive l := match l with Free => Some Exclusive | _ => None end;
  AcquireSRWLockShared l :=
    match l with Free => Some (Shared 0) | Shared n => Some (Shared (S n)) | Exclusive => None end;
  ReleaseSRWLockExclusive l := Free;
  ReleaseSRWLockShared l := match l with Shared (S n) => Shared n | _ => Free end;
  calloc_row _ := true
|}.

Lemma mode_laws : @SRWLOCK_Laws mode_api.
Proof.
  refine (@Build_SRWLOCK_Laws mode_api id _ _ _ _ _ _ _); simpl.
  - done.
  - by intros [].
  - by intros [].
  - intros [] l'; by intros [= <-].
  - intros [] l'; by intros [= <-].
  - done.
  - intros [| |[|j]] k E; by simplify_eq/=.
Defined.

Definition one_held : @state mode_api :=
  @mkState mode_api {[7 := 2]} {[100 := Exclusive]} ∅ ∅ 1 ∅ ∅.

(** Thread 7 acquires the lock at 100. *)
Lemma mutual_exclusion_witness :
  reachable one_held [(7, Spin 100, true)] /\
  on (Spin 100) [(7, Spin 100, true)] = [(7, Spin 100, true)].
Proof.
  assert (@reachable mode_api one_held [(7, Spin 100, true)]) as Hr.
  { eapply rtc_l; [| apply rtc_refl].
    apply (sys_call 7 (CAcquireRaise 100) true (@start mode_api) [] one_held); [by vm_compute |].
    simpl. constructor. }
  split; [done |].
  apply (@mutual_exclusion mode_api mode_laws one_held [(7, Spin 100, true)] Hr).
  by apply list_elem_of_singleton.
Defined.

Lemma nested_locks_witness :
  exists s', @with_locks mode_api 7 [100; 108] (@start mode_api) = Ok (Some (DISPATCH_LEVEL, s')) /\
    forall t', DdkCurrentIrql t' s' = 0.
Proof.
  destruct (@nested_locks mode_api mode_laws 7 [100; 108] (@start mode_api)) as (s' & E & H1 & _).
  - repeat constructor; set_solver.
  - done.
  - done.
  - exists s'. split; [done |]. intros t'. by rewrite H1.
Defined.
