(* ===== verification/SpinlockTable.v ===== *)
(** * SpinlockTable: GetSRWLock against itself

    [GetSRWLock] gives a reader-writer spin lock its entry of the lock table the
    first time it is used, with a double check: the lock word is read without the
    table's own lock, and again with it.  Here each access to shared memory is a
    step of its own and any number of threads run it at once. *)

From S2P Require Import Prelude Spinlock.

Section table.
Context `{SRWLOCK_API}.

(** The globals the function uses: the lock words, [lockcount], the allocated
    rows of [lockv], and the thread that holds [Lock]. *)
Record shared := mkShared {
  s_words : gmap Z Z;
  s_lockcount : Z;
  s_rows : gset Z;
  s_Lock : option Z
}.

(** Where a thread is: what it is about to do, with its argument and its [i]. *)
Inductive pc :=
  | Idle
  | ReadWord (a : Z)            (* i = *SpinLock *)
  | Enter (a : Z)               (* AcquireSRWLockExclusive(&Lock) *)
  | ReadAgain (a : Z)           (* i = *SpinLock, under Lock *)
  | ReadCount (a : Z)           (* i = lockcount, and its bound *)
  | AllocRow (a i : Z)          (* lockv[i / maxv] = calloc *)
  | Count (a i : Z)             (* lockcount++ *)
  | Publish (a i : Z)           (* InterlockedExchange(SpinLock, i) *)
  | Leave (a i : Z)             (* ReleaseSRWLockExclusive(&Lock) *)
  | Validate (a i : Z)          (* i >= lockcount || !lockv[i / maxv] *)
  | Returned (a i : Z)
  | Failed (message : string).

Definition s_word (s : shared) (a : Z) : Z := default 0 (s_words s !! a).

Definition too_many : string := "Too many read write spinlocks".
Definition no_memory : string := "Unable to allocate read write spinlock".
Definition uninitialized : string := "Uninitialized read write lock".

(** One step of thread [t]; [None]: it waits for [Lock], or has nothing to do. *)
Definition get_step (t : Z) (p : pc) (s : shared) : option (pc * shared) :=
  match p with
  | ReadWord a =>
      Some (if s_word s a =? 0 then Enter a else Validate a (s_word s a), s)
  | Enter a =>
      match s_Lock s with
      | None => Some (ReadAgain a, mkShared (s_words s) (s_lockcount s) (s_rows s) (Some t))
      | Some _ => None
      end
  | ReadAgain a => Some (if s_word s a =? 0 then ReadCount a else Leave a (s_word s a), s)
  | ReadCount a =>
      let i := s_lockcount s in
      Some (if i / maxv >=? 4096 then Failed too_many else AllocRow a i, s)
  | AllocRow a i =>
      if bool_decide (i / maxv ∈ s_rows s) then Some (Count a i, s)
      else if calloc_row (i / maxv) then
        Some (Count a i, mkShared (s_words s) (s_lockcount s) ({[i / maxv]} ∪ s_rows s) (s_Lock s))
      else Some (Failed no_memory, s)
  | Count a i =>
      Some (Publish a i, mkShared (s_words s) (u32 (s_lockcount s + 1)) (s_rows s) (s_Lock s))
  | Publish a i =>
      Some (Leave a i, mkShared (<[a := i]> (s_words s)) (s_lockcount s) (s_rows s) (s_Lock s))
  | Leave a i => Some (Validate a i, mkShared (s_words s) (s_lockcount s) (s_rows s) None)
  | Validate a i =>
      Some (if (i >=? s_lockcount s) || negb (bool_decide (i / maxv ∈ s_rows s))
            then Failed uninitialized else Returned a i, s)
  | Idle | Returned _ _ | Failed _ => None
  end.

(** Threads that run; each calls [GetSRWLock] again and again. *)
Definition pc_of (ts : gmap Z pc) (t : Z) : pc := default Idle (ts !! t).

Inductive run_step : gmap Z pc * shared -> gmap Z pc * shared -> Prop :=
  | run_call ts s t a : (pc_of ts t = Idle \/ exists b i, pc_of ts t = Returned b i) ->
      run_step (ts, s) (<[t := ReadWord a]> ts, s)
  | run_get ts s t p s' : get_step t (pc_of ts t) s = Some (p, s') ->
      run_step (ts, s) (<[t := p]> ts, s').

Definition boot : gmap Z pc * shared := (∅, mkShared ∅ 1 ∅ None).

(** ** The invariant *)

(** A thread between acquiring and releasing [Lock]; one that failed there keeps it. *)
Definition inside (p : pc) : bool :=
  match p with
  | ReadAgain _ | ReadCount _ | AllocRow _ _ | Count _ _ | Publish _ _ | Leave _ _ => true
  | _ => false
  end.

(** What a thread knows at each point. *)
Definition knows (p : pc) (s : shared) : Prop :=
  match p with
  | ReadCount a => s_word s a = 0
  | AllocRow a i => s_word s a = 0 /\ i = s_lockcount s /\ i / maxv < 4096
  | Count a i => s_word s a = 0 /\ i = s_lockcount s /\ i / maxv < 4096 /\ i / maxv ∈ s_rows s
  | Publish a i => s_word s a = 0 /\ i + 1 = s_lockcount s /\ i / maxv ∈ s_rows s /\ 1 <= i /\
      forall b, s_word s b <> i
  | Leave a i | Validate a i | Returned a i => s_word s a = i /\ i <> 0
  | Failed m => m <> uninitialized
  | _ => True
  end.

Record table_inv (x : gmap Z pc * shared) : Prop := {
  inv_count : 1 <= s_lockcount x.2 <= 4096 * 4096;
  inv_word : forall a, s_word x.2 a <> 0 ->
    1 <= s_word x.2 a < s_lockcount x.2 /\ s_word x.2 a / maxv ∈ s_rows x.2;
  inv_inj : forall a b, s_word x.2 a <> 0 -> s_word x.2 a = s_word x.2 b -> a = b;
  inv_lock : forall t, inside (pc_of x.1 t) = true -> s_Lock x.2 = Some t;
  inv_knows : forall t, knows (pc_of x.1 t) x.2
}.

Lemma boot_inv : table_inv boot.
Proof. split; simpl; [lia | done | done | done | done]. Qed.

Lemma pc_insert ts t p u : pc_of (<[t := p]> ts) u = if decide (u = t) then p else pc_of ts u.
Proof.
  unfold pc_of. destruct (decide (u = t)) as [-> |]; [by rewrite lookup_insert_eq | by rewrite lookup_insert_ne].
Qed.

(** What another thread knows survives a step that keeps every word that is set
    and, unless it is outside, the words and the count altogether. *)
Lemma knows_stable p s s' :
  knows p s ->
  (forall a, s_word s a <> 0 -> s_word s' a = s_word s a) ->
  (inside p = true -> s_words s' = s_words s /\ s_lockcount s' = s_lockcount s /\ s_rows s ⊆ s_rows s') ->
  knows p s'.
Proof.
  intros Hk Hw Hin. destruct p; simpl in *; try done.
  - destruct Hin as (E & _); [done |]. unfold s_word in *. by rewrite E.
  - destruct Hin as (E & -> & _); [done |]. unfold s_word in *. by rewrite E.
  - destruct Hin as (E & -> & Hr); [done |]. unfold s_word in *. rewrite E.
    destruct Hk as (? & ? & ? & ?). repeat split; auto.
  - destruct Hin as (E & -> & Hr); [done |]. unfold s_word in *. rewrite E.
    destruct Hk as (? & ? & ? & ? & ?). repeat split; auto.
  - destruct Hk as [<- Hne]. split; [by apply Hw | done].
  - destruct Hk as [<- Hne]. split; [by apply Hw | done].
  - destruct Hk as [<- Hne]. split; [by apply Hw | done].
Qed.

Definition shared_inv (s : shared) : Prop :=
  1 <= s_lockcount s <= 4096 * 4096 /\
  (forall a, s_word s a <> 0 ->
     1 <= s_word s a < s_lockcount s /\ s_word s a / maxv ∈ s_rows s) /\
  (forall a b, s_word s a <> 0 -> s_word s a = s_word s b -> a = b).

Lemma inv_shared ts s : table_inv (ts, s) -> shared_inv s.
Proof. intros [A B C _ _]. by split. Qed.

(** Only the thread that holds [Lock] changes anything but [Lock] itself. *)
Lemma inv_update ts s t p s' :
  table_inv (ts, s) -> shared_inv s' ->
  (forall a, s_word s a <> 0 -> s_word s' a = s_word s a) ->
  (inside (pc_of ts t) = true \/
   s_words s' = s_words s /\ s_lockcount s' = s_lockcount s /\ s_rows s' = s_rows s) ->
  knows p s' ->
  (inside p = true -> s_Lock s' = Some t) ->
  (inside (pc_of ts t) = true \/ s_Lock s' = s_Lock s \/ s_Lock s = None) ->
  table_inv (<[t := p]> ts, s').
Proof.
  intros [A B C Hlock Hk] (A' & B' & C') Hw Hin Hp Hl Hl'. simpl in *.
  assert (forall u, u <> t -> inside (pc_of ts u) = true -> inside (pc_of ts t) = true -> False) as Hex.
  { intros u Hu H1 H2. apply Hlock in H1. apply Hlock in H2. congruence. }
  split; simpl; try done.
  - intros u. rewrite pc_insert. destruct (decide (u = t)) as [-> | Hu]; [done |]. intros Hi.
    destruct Hl' as [H1 | [-> | H1]]; [by destruct (Hex u) | by apply Hlock |].
    apply Hlock in Hi. congruence.
  - intros u. rewrite pc_insert. destruct (decide (u = t)) as [-> | Hu]; [done |].
    eapply knows_stable; [apply Hk | done |]. intros Hi.
    destruct Hin as [H1 | (-> & -> & ->)]; [by destruct (Hex u) | done].
Qed.

Lemma call_inv ts s t a : table_inv (ts, s) -> table_inv (<[t := ReadWord a]> ts, s).
Proof. intros Hi. eapply inv_update; try done; [by eapply inv_shared | by right | by right; left]. Qed.

Lemma get_inv ts s t p s' :
  table_inv (ts, s) -> get_step t (pc_of ts t) s = Some (p, s') -> table_inv (<[t := p]> ts, s').
Proof.
  intros Hi E. pose proof (inv_shared ts s Hi) as Hsh. pose proof Hsh as (A & B & C).
  pose proof (inv_knows _ Hi t) as Hk. pose proof (inv_lock _ Hi t) as Hlk. simpl in Hk, Hlk.
  destruct (pc_of ts t) as [| a | a | a | a | a i | a i | a i | a i | a i | |] eqn:Ep;
    simpl in E; simpl in Hk; try done.
  - (* ReadWord *) injection E as <- <-.
    apply (inv_update ts s); [done | done | done | by right | | | by right; left];
      destruct (Z.eqb_spec (s_word s a) 0); simpl; done.
  - (* Enter *) destruct (s_Lock s) eqn:EL; [done |]. injection E as <- <-.
    by apply (inv_update ts s); [done | done | done | right | | | right; right].
  - (* ReadAgain *) injection E as <- <-.
    apply (inv_update ts s); [done | done | done | by right | | | by right; left];
      destruct (Z.eqb_spec (s_word s a) 0); simpl; auto.
  - (* ReadCount *) injection E as <- <-. rewrite Z.geb_leb.
    apply (inv_update ts s); [done | done | done | by right | | | by right; left];
      destruct (Z.leb_spec 4096 (s_lockcount s / maxv)); simpl; auto.
  - (* AllocRow *) destruct Hk as (K1 & -> & K3).
    destruct (bool_decide_reflect (s_lockcount s / maxv ∈ s_rows s)) as [Hr | Hr].
    { injection E as <- <-. apply (inv_update ts s); [done | done | done | by right | done | auto | by right; left]. }
    destruct (calloc_row (s_lockcount s / maxv)); injection E as <- <-.
    + apply (inv_update ts s); [done | | done | by rewrite Ep; left | | by auto | by right; left].
      * split; [done |]. split; [| done]. simpl. intros b Hb. destruct (B b Hb).
        split; [done | apply elem_of_union; by right].
      * simpl. repeat split; try done. apply elem_of_union. left. by apply elem_of_singleton.
    + apply (inv_update ts s); [done | done | done | by right | done | done | by right; left].
  - (* Count *) destruct Hk as (K1 & -> & K3 & K4). injection E as <- <-.
    assert (s_lockcount s + 1 <= 4096 * 4096) as Hle
      by (unfold maxv in *; Z.div_mod_to_equations; lia).
    apply (inv_update ts s); [done | | done | by rewrite Ep; left | | by auto | by right; left].
    + unfold shared_inv. simpl s_lockcount. simpl s_rows. rewrite u32_id by lia. split; [lia |].
      split; [| done]. intros b Hb. destruct (B b Hb) as [B1 B2]. unfold s_word in *. simpl in *.
      split; [lia | done].
    + simpl. rewrite u32_id by lia. split; [done |]. split; [lia |]. split; [done |].
      split; [lia |]. intros b Hb. change (s_word s b = s_lockcount s) in Hb.
      assert (s_word s b <> 0) as Hb0 by lia. apply B in Hb0. lia.
  - (* Publish *) destruct Hk as (K1 & K2 & K3 & K4 & K5). injection E as <- <-.
    assert (forall b, s_word (mkShared (<[a:=i]> (s_words s)) (s_lockcount s) (s_rows s) (s_Lock s)) b =
      if decide (b = a) then i else s_word s b) as Hw.
    { intros b. unfold s_word. simpl. destruct (decide (b = a)) as [-> |];
        [by rewrite lookup_insert_eq | by rewrite lookup_insert_ne]. }
    apply (inv_update ts s); [done | | | by rewrite Ep; left | | by auto | by right; left].
    + split; [done |]. split.
      * intros b. rewrite Hw. destruct (decide (b = a)) as [-> |]; simpl; [| by apply B].
        intros _. split; [lia | done].
      * intros b c. rewrite !Hw.
        destruct (decide (b = a)) as [-> |], (decide (c = a)) as [-> |]; auto; intros ? E; exfalso.
        -- by apply (K5 c).
        -- by apply (K5 b).
    + intros b Hb. rewrite Hw. by destruct (decide (b = a)) as [-> |].
    + simpl. rewrite Hw, decide_True by done. split; [done | lia].
  - (* Leave *) injection E as <- <-.
    apply (inv_update ts s); [done | done | done | by right | done | done | by rewrite Ep; left].
  - (* Validate *) destruct Hk as [K1 K2]. injection E as <- <-.
    destruct (B a) as [Hr Hrow]; [lia |]. rewrite K1 in *.
    replace (i >=? s_lockcount s) with false by lia. rewrite bool_decide_true by done. simpl.
    apply (inv_update ts s); [done | done | done | by right | done | done | by right; left].
Qed.

Lemma reach_inv x : rtc run_step boot x -> table_inv x.
Proof.
  intros Hr. assert (table_inv boot) as Hb by apply boot_inv. induction Hr as [|x y z Hs _ IH]; [done |].
  apply IH. destruct Hs; [by apply call_inv | by eapply get_inv].
Qed.

(** ** The properties *)

(** However [GetSRWLock] interleaves with itself: a call that returns has the
    index that its lock word keeps, in an allocated row and below [lockcount];
    different lock words have different indices, so two spin locks never share an
    entry of the table; no call ever fails with "Uninitialized read write lock",
    so a word is published only after the table and the count cover it; and the
    table's own lock is held by one thread at most. *)
Theorem table_safe ts s (Hr : rtc run_step boot (ts, s)) :
  (forall t a i, pc_of ts t = Returned a i ->
     s_word s a = i /\ 1 <= i < s_lockcount s /\ s_lockcount s <= 4096 * 4096 /\ i / maxv ∈ s_rows s) /\
  (forall t u a b i j, pc_of ts t = Returned a i -> pc_of ts u = Returned b j -> a = b <-> i = j) /\
  (forall t, pc_of ts t <> Failed uninitialized) /\
  (forall t u, inside (pc_of ts t) = true -> inside (pc_of ts u) = true -> t = u).
Proof.
  destruct (reach_inv _ Hr) as [A B C Hl Hk]. simpl in *. split; [| split; [| split]].
  - intros t a i E. specialize (Hk t). rewrite E in Hk. destruct Hk as [<- Hne].
    destruct (B a Hne) as [B1 B2]. split; [done |]. split; [done |]. split; [lia | done].
  - intros t u a b i j E1 E2. pose proof (Hk t) as K1. pose proof (Hk u) as K2.
    rewrite E1 in K1. rewrite E2 in K2. destruct K1 as [<- N1], K2 as [<- N2].
    split; [by intros -> | by apply C].
  - intros t E. specialize (Hk t). rewrite E in Hk. by apply Hk.
  - intros t u H1 H2. apply Hl in H1. apply Hl in H2. congruence.
Qed.

(** A thread that runs alone. *)
Fixpoint solo (n : nat) (t : Z) (p : pc) (s : shared) : pc * shared :=
  match n with
  | O => (p, s)
  | S n => match get_step t p s with Some (p, s) => solo n t p s | None => (p, s) end
  end.

Definition view (s : state) : shared := mkShared (words s) (lockcount s) (rows s) None.

(** Run without interference, the steps are the function: nine steps are
    enough to come to the index and the state that [GetSRWLock] gives, or to the
    failure it ends in. *)
Theorem GetSRWLock_solo t a s :
  match GetSRWLock a s with
  | Ok (Some (i, s')) => solo 9 t (ReadWord a) (view s) = (Returned a i, view s')
  | Err (DdkFailed m) => (solo 9 t (ReadWord a) (view s)).1 = Failed m
  | _ => False
  end.
Proof.
  unfold GetSRWLock, alloc_index, wcheck, wlift, wget, wput, mret, W_ret, mbind, W_bind.
  cbn [solo get_step]. change (s_word (view s) a) with (word_of s a).
  destruct (Z.eqb_spec (word_of s a) 0) as [E | E].
  - cbn [get_step view s_Lock]. change (s_word (mkShared _ _ _ _) a) with (word_of s a).
    rewrite E. cbn -[Z.div Z.geb Z.ltb u32].
    rewrite Z.geb_leb, Z.ltb_antisym.
    destruct (4096 <=? lockcount s / maxv); [done |]. cbn -[Z.div Z.geb Z.ltb u32].
    assert (forall R : gset Z, bool_decide (lockcount s / maxv ∈ {[lockcount s / maxv]} ∪ R) = true)
      as Hin by (intros R; apply bool_decide_true, elem_of_union; left; by apply elem_of_singleton).
    destruct (bool_decide_reflect (lockcount s / maxv ∈ rows s)) as [Hrow | Hrow].
    + cbn -[Z.div Z.geb Z.ltb u32]. rewrite Hin, (bool_decide_true _ Hrow), !andb_true_r, Z.geb_leb, Z.ltb_antisym.
      assert ({[lockcount s / maxv]} ∪ rows s = rows s) as -> by set_solver.
      by destruct (u32 (lockcount s + 1) <=? lockcount s).
    + destruct (calloc_row (lockcount s / maxv)); [| done]. cbn -[Z.div Z.geb Z.ltb u32].
      rewrite !Hin, !andb_true_r, Z.geb_leb, Z.ltb_antisym.
      by destruct (u32 (lockcount s + 1) <=? lockcount s).
  - cbn -[Z.div Z.geb Z.ltb u32]. rewrite Z.geb_leb, Z.ltb_antisym.
    destruct (lockcount s <=? word_of s a); [done |]. simpl.
    by destruct (bool_decide (word_of s a / maxv ∈ rows s)).
Qed.
End table.

(** ** Witness: one thread has been through once *)

Definition unit_api : SRWLOCK_API := {|
  SRWLOCK := unit; srw_init := tt; srw_unused _ := true;
  AcquireSRWLockExclusive := Some; AcquireSRWLockShared := Some;
  ReleaseSRWLockExclusive := id; ReleaseSRWLockShared := id; calloc_row _ := true
|}.

Lemma step_to `{SRWLOCK_API} t p s p' s' x :
  get_step t p s = Some (p', s') -> rtc run_step ({[t := p']}, s') x -> rtc run_step ({[t := p]}, s) x.
Proof.
  intros E Hr. eapply rtc_l; [| exact Hr].
  replace ({[t := p']} : gmap Z pc) with (<[t := p']> ({[t := p]} : gmap Z pc))
    by apply insert_singleton_eq.
  apply run_get. unfold pc_of. by rewrite lookup_singleton_eq.
Qed.

Lemma table_safe_witness :
  rtc (@run_step unit_api) boot ({[3 := Returned 500 1]}, mkShared {[500 := 1]} 2 {[0]} None) /\
  pc_of {[3 := Returned 500 1]} 3 <> Failed uninitialized.
Proof.
  assert (rtc (@run_step unit_api) boot
    ({[3 := Returned 500 1]}, mkShared {[500 := 1]} 2 {[0]} None)) as Hr.
  { eapply rtc_l; [apply (run_call ∅ (mkShared ∅ 1 ∅ None) 3 500); by left |].
    change (<[3:=ReadWord 500]> ∅) with ({[3 := ReadWord 500]} : gmap Z pc).
    do 9 (eapply step_to; [by vm_compute |]). apply rtc_refl. }
  split; [exact Hr |].
  apply (@table_safe unit_api _ _ Hr).
Defined.
