(* ===== verification/Objects.v ===== *)
(** * Objects: reference-counted objects and the name list

    object.h, object.cpp and name.cpp, with the parts of file.cpp, driver.cpp,
    device.cpp and registry.cpp that run when an object is freed.  The heap maps
    the address of each [OBJECT] header to it; a pointer handed to a driver is
    the address itself or, for public objects, the address past the header.
    Freed objects leave the heap, so a use after free is [BadAccess].

    The calls run one at a time: the reference counts change by interlocked
    operations and the name list under its critical section, which a thread can
    enter again.  The calling thread has its thread object already, so that
    [DdkThreadInit] does nothing.  [calloc] is an argument of the calls that
    allocate, [None] for failure.  The device list of a driver, linked through [NextDevice], is a list
    of pointers. *)

From S2P Require Import Prelude Strings.

(** ** Data *)

Definition MinObjectType : Z := 0x2dc0.
Definition EventType : Z := 0x2dc1.
Definition MutexType : Z := 0x2dc2.
Definition SemaphoreType : Z := 0x2dc3.
Definition ThreadType : Z := 0x2dc4.
Definition TimerType : Z := 0x2dc5.
Definition ProcessType : Z := 0x2dc6.
Definition SecurityTokenType : Z := 0x2dc7.
Definition EnlistmentType : Z := 0x2dc8.
Definition ResourceManagerType : Z := 0x2dc9.
Definition TransactionManagerType : Z := 0x2dca.
Definition TransactionType : Z := 0x2dcb.
Definition IoFileType : Z := 0x2dcd.
Definition IoDeviceType : Z := 0x2dce.
Definition IoDriverType : Z := 0x2dcf.
Definition IoSymbolicLinkType : Z := 0x2dd0.
Definition KeyType : Z := 0x2dd1.
Definition MaxObjectType : Z := 0x2dd2.

(** What follows the header, as far as these files look at it; pointers are the
    ones drivers use. *)
Inductive body :=
  | Plain
  | File (DeviceObject : Z)
  | Driver (Image : Z) (devices : list Z)
  | Device (DriverObject : Z)
  | Symlink (Destination : UNICODE_STRING) (Enabled : bool)
  | Key (key : Z).

Record OBJECT := mkObject {
  type : Z;
  alloc : bool;
  refcount : Z;
  h : Z;
  contents : body
}.

Record NAME := mkName { addr : Z; Object : Z; Name : UNICODE_STRING }.

(** What is done to the world outside the heap. *)
Inductive event :=
  | CloseHandle (handle : Z) | Freed (address : Z) | DdkUnloadImage (image : Z) | RegCloseKey (key : Z)
  | SubmitThreadpoolWork (object : Z).

Record kernel := mkKernel {
  objects : gmap Z OBJECT;
  DdkNameList : list NAME;
  CurrentIrql : Z;
  events : list event
}.

Definition set_objects (o : gmap Z OBJECT) (s : kernel) : kernel :=
  mkKernel o (DdkNameList s) (CurrentIrql s) (events s).
Definition set_names (n : list NAME) (s : kernel) : kernel :=
  mkKernel (objects s) n (CurrentIrql s) (events s).
Definition log (e : event) (s : kernel) : kernel :=
  mkKernel (objects s) (DdkNameList s) (CurrentIrql s) (e :: events s).

Definition K := M kernel.

Definition sizeof_OBJECT : Z := 16.

(** The outside world: the [USHORT] found at an address where no object starts,
    the pseudo handle of the process, and the registry key of the hive. *)
Class Environment := {
  stray : Z -> Z;
  GetCurrentProcess : Z;
  hive : Z
}.

Section objects.
Context `{Environment} `{Locale}.

Definition KeGetCurrentIrql : K Z := fun s => Ok (CurrentIrql s, s).

Definition object_at (p : Z) : K OBJECT := fun s =>
  match objects s !! p with Some o => Ok (o, s) | None => Err (BadAccess p) end.

Definition put_object (p : Z) (o : OBJECT) : K unit := modify (fun s =>
  set_objects (<[p := o]> (objects s)) s).

(** ** object.h *)

Definition type_at (s : kernel) (p : Z) : Z :=
  match objects s !! p with Some o => type o | None => stray p end.

Definition is_public_type (t : Z) : bool :=
  (t =? IoFileType) || (t =? IoDeviceType) || (t =? IoDriverType).

Definition isPublicObject (s : kernel) (p : Z) : bool :=
  negb (p =? 0) && is_public_type (type_at s p).

Definition isValidObject (s : kernel) (p : Z) : bool :=
  negb (p =? 0) && (type_at s p >? MinObjectType) && (type_at s p <? MaxObjectType).

Definition is_handle_type (t : Z) : bool :=
  (t =? EventType) || (t =? SemaphoreType) || (t =? ThreadType) || (t =? ProcessType) ||
  (t =? IoFileType) || (t =? SecurityTokenType) || (t =? EnlistmentType) ||
  (t =? ResourceManagerType) || (t =? TransactionManagerType) || (t =? TransactionType) ||
  (t =? KeyType).

Definition isHandleObject (p : Z) : K bool := fun s =>
  if isValidObject s p then
    (o ← object_at p; mret ((refcount o >? 0) && is_handle_type (type o))) s
  else Ok (false, s).

Definition ToHandle (p : Z) : Z := Z.lor p 1.

(** 0 for no object. *)
Definition FromHandle (Handle : Z) : K Z :=
  let p := Z.land Handle (u64 (Z.lnot 1)) in
  ok ← isHandleObject p;
  mret (if ok : bool then p else 0).

Definition ToPointer (p : Z) : K Z := fun s =>
  Ok (if isPublicObject s p then p + sizeof_OBJECT else p, s).

Definition FromPointer (Object : Z) : K Z := fun s =>
  let p := if negb (Object =? 0) && negb (isValidObject s Object)
           then Object - sizeof_OBJECT else Object in
  if (p =? 0) || negb (isValidObject s p) then Err (DdkFailed "Invalid object pointer") else
  (o ← object_at p;
   if (refcount o <=? 0) || (negb (p =? Object) && negb (isPublicObject s p))
   then fail (DdkFailed "Invalid object pointer") else mret p) s.

(** ** Reference counts *)

Definition InterlockedIncrement (p : Z) : K Z :=
  o ← object_at p;
  let n := s32 (refcount o + 1) in
  _ ← put_object p (mkObject (type o) (alloc o) n (h o) (contents o));
  mret n.

Definition InterlockedDecrement (p : Z) : K Z :=
  o ← object_at p;
  let n := s32 (refcount o - 1) in
  _ ← put_object p (mkObject (type o) (alloc o) n (h o) (contents o));
  mret n.

Definition DdkReferenceObject (p : Z) : K unit := _ ← InterlockedIncrement p; mret tt.

(** ** Freeing

    [DdkFreeObject] and [DdkDereferenceObject] call each other, through the name
    list too.  [free] stands for the inner [DdkFreeObject]. *)

Definition dereference (free : Z -> K unit) (p : Z) : K unit :=
  n ← InterlockedDecrement p;
  if n =? 0 then free p else mret tt.

(** The entry [*ppEntry], where [ppEntry] is the [Next] of entry [pp] or the
    head of the list. *)
Definition entry_after (pp : option Z) (names : list NAME) : result (option NAME) :=
  match pp with
  | None => Ok (head names)
  | Some a =>
      (fix go l := match l with
       | e :: l' => if addr e =? a then Ok (head l') else go l'
       | [] => Err (BadAccess a)
       end) names
  end.

(** The loop of [DdkRemoveName] and [DdkRemoveObjectName]. *)
Fixpoint remove_loop (fuel : nat) (match_ : NAME -> K bool) (free : Z -> K unit)
    (pp : option Z) : K unit :=
  e ← (fun s => match entry_after pp (DdkNameList s) with Ok e => Ok (e, s) | Err f => Err f end);
  match e with
  | None => mret tt
  | Some e =>
      match fuel with
      | O => fail NoFuel
      | S fuel =>
          m ← match_ e;
          if m : bool then
            _ ← modify (fun s => set_names (filter (fun x => addr x <> addr e) (DdkNameList s)) s);
            _ ← dereference free (Object e);
            remove_loop fuel match_ free pp
          else remove_loop fuel match_ free (Some (addr e))
      end
  end.

Definition remove_names (match_ : NAME -> K bool) (free : Z -> K unit) : K unit :=
  n ← (fun s => Ok (length (DdkNameList s), s));
  remove_loop n match_ free None.

Definition remove_object_name (free : Z -> K unit) (p : Z) : K unit :=
  remove_names (fun e => mret (Object e =? p)) free.

Definition GetDriver (p : Z) : K Z :=
  if p =? 0 then fail (DdkFailed "Invalid driver specified") else
  o ← object_at p;
  if negb (type o =? IoDriverType) then fail (DdkFailed "Invalid driver specified") else mret p.

(** The image and the device list of a driver. *)
Definition driver_body (p : Z) : K (Z * list Z) :=
  o ← object_at p;
  match contents o with Driver i ds => mret (i, ds) | _ => fail (BadAccess p) end.

Definition set_devices (p : Z) (ds : list Z) : K unit :=
  o ← object_at p;
  match contents o with
  | Driver i _ => put_object p (mkObject (type o) (alloc o) (refcount o) (h o) (Driver i ds))
  | _ => fail (BadAccess p)
  end.

(** [list] with the first [x] taken out. *)
Fixpoint remove_first (x : Z) (l : list Z) : list Z :=
  match l with
  | [] => []
  | y :: l' => if y =? x then l' else y :: remove_first x l'
  end.

Definition DdkRemoveDevice (free : Z -> K unit) (DriverObject DeviceObject : Z) : K unit :=
  q ← FromPointer DriverObject;
  p ← GetDriver q;
  '(_, ds) ← driver_body p;
  if existsb (Z.eqb DeviceObject) ds then
    _ ← set_devices p (remove_first DeviceObject ds);
    dereference free p
  else mret tt.

Definition DdkFreeFileObject (free : Z -> K unit) (p : Z) : K unit :=
  o ← object_at p;
  match contents o with
  | File d => if d =? 0 then mret tt else q ← FromPointer d; dereference free q
  | _ => fail (BadAccess p)
  end.

Definition DdkFreeDriverObject (p : Z) : K unit :=
  p ← GetDriver p;
  '(i, _) ← driver_body p;
  if i =? 0 then mret tt else modify (log (DdkUnloadImage i)).

Definition DdkFreeDeviceObject (free : Z -> K unit) (p : Z) : K unit :=
  o ← object_at p;
  d ← ToPointer p;
  match contents o with
  | Device drv => DdkRemoveDevice free drv d
  | _ => fail (BadAccess p)
  end.

Definition DdkFreeKeyObject (p : Z) : K unit :=
  o ← object_at p;
  match contents o with
  | Key k =>
      _ ← (if negb (k =? 0) && negb (k =? hive) then modify (log (RegCloseKey k)) else mret tt);
      put_object p (mkObject (type o) (alloc o) (refcount o) (h o) (Key 0))
  | _ => fail (BadAccess p)
  end.

(** [CloseHandle(pObj->h)] and [pObj->h = NULL]. *)
Definition close_handle (p : Z) : K unit :=
  o ← object_at p;
  if h o =? 0 then mret tt else
  _ ← ddkassertM (negb (h o =? GetCurrentProcess)) "pObj->h != GetCurrentProcess()";
  _ ← modify (log (CloseHandle (h o)));
  put_object p (mkObject (type o) (alloc o) (refcount o) 0 (contents o)).

Fixpoint DdkFreeObject (fuel : nat) (p : Z) : K unit :=
  match fuel with
  | O => fail NoFuel
  | S fuel =>
      o ← object_at p;
      _ ← (if type o =? IoFileType then DdkFreeFileObject (DdkFreeObject fuel) p
           else if type o =? IoDriverType then DdkFreeDriverObject p
           else if type o =? IoDeviceType then DdkFreeDeviceObject (DdkFreeObject fuel) p
           else if type o =? KeyType then DdkFreeKeyObject p
           else mret tt);
      _ ← close_handle p;
      _ ← remove_object_name (DdkFreeObject fuel) p;
      o ← object_at p;
      if alloc o then
        modify (fun s => log (Freed p) (set_objects (delete p (objects s)) s))
      else mret tt
  end.

(** A file holds its device and a device its driver: frees nest three deep. *)
Definition free_depth : nat := 3.

Definition DdkDereferenceObject (p : Z) : K unit := dereference (DdkFreeObject free_depth) p.

Definition DdkRemoveObjectName (p : Z) : K unit :=
  remove_object_name (DdkFreeObject free_depth) p.

(** ** Allocation and the calls of object.cpp *)

(** [b] is the rest of the object, zeroed. *)
Definition DdkAllocObject (calloc : option Z) (t : Z) (b : body) (opt : bool) : K (option Z) :=
  match calloc with
  | None => if opt then mret None else fail (DdkFailed "Unable to allocate object")
  | Some p => _ ← put_object p (mkObject t true 1 0 b); mret (Some p)
  end.

Definition DdkInitializeObject (p size maxsize : Z) : K unit :=
  if size >? maxsize then fail (DdkFailed "Object is too small to initialize") else
  put_object p (mkObject 0 false 1 0 Plain).

Definition assert_irql (le : Z -> bool) (condition : string) : K unit :=
  irql ← KeGetCurrentIrql;
  ddkassertM (le irql) condition.

Definition at_dispatch : K unit :=
  assert_irql (fun i => i <=? DISPATCH_LEVEL) "KeGetCurrentIrql() <= DISPATCH_LEVEL".

Definition at_passive : K unit :=
  assert_irql (fun i => i =? PASSIVE_LEVEL) "KeGetCurrentIrql() == PASSIVE_LEVEL".

Definition ObfReferenceObjectWithTag (Object : Z) : K Z :=
  p ← FromPointer Object;
  _ ← at_dispatch;
  _ ← InterlockedIncrement p;
  mret 0.

Definition ObfReferenceObject (Object : Z) : K Z := ObfReferenceObjectWithTag Object.

Definition ObReferenceObject (Object : Z) : K Z := ObfReferenceObjectWithTag Object.

Definition ObReferenceObjectWithTag (Object : Z) : K Z := ObfReferenceObjectWithTag Object.

Definition ObReferenceObjectByPointerWithTag (Object : Z) (ObjectType : option Z) : K Z :=
  p ← FromPointer Object;
  _ ← at_dispatch;
  o ← object_at p;
  if match ObjectType with Some t => negb (t =? type o) | None => false end
  then mret STATUS_OBJECT_TYPE_MISMATCH else
  _ ← InterlockedIncrement p;
  mret STATUS_SUCCESS.

Definition ObReferenceObjectByPointer := ObReferenceObjectByPointerWithTag.

(** Returns the status and [*Object], if it is stored. *)
Definition ObReferenceObjectByHandleWithTag (Handle : Z) (ObjectType : option Z)
    (HandleInformation : option unit) : K (Z * option Z) :=
  p ← FromHandle Handle;
  if p =? 0 then mret (STATUS_INVALID_HANDLE, None) else
  _ ← at_passive;
  _ ← ddkassertM (bool_decide (HandleInformation = None)) "HandleInformation == NULL";
  q ← ToPointer p;
  rc ← ObReferenceObjectByPointerWithTag q ObjectType;
  if negb (rc =? STATUS_SUCCESS) then mret (rc, None) else
  q ← ToPointer p;
  mret (STATUS_SUCCESS, Some q).

Definition ObReferenceObjectByHandle := ObReferenceObjectByHandleWithTag.

Definition ObfDereferenceObjectWithTag (Object : Z) : K Z :=
  p ← FromPointer Object;
  _ ← at_dispatch;
  n ← InterlockedDecrement p;
  if negb (n =? 0) then mret 0 else
  _ ← DdkFreeObject free_depth p;
  mret 0.

Definition ObfDereferenceObject (Object : Z) : K Z := ObfDereferenceObjectWithTag Object.

Definition ObDereferenceObject (Object : Z) : K Z := ObfDereferenceObjectWithTag Object.

Definition ObDereferenceObjectWithTag (Object : Z) : K Z := ObfDereferenceObjectWithTag Object.

(** The free runs later, as [DdkObjectCallback] on a thread of the pool;
    [work] says whether [CreateThreadpoolWork] gave a work item. *)
Definition ObDereferenceObjectDeferDeleteWithTag (work : bool) (Object : Z) : K unit :=
  p ← FromPointer Object;
  _ ← at_dispatch;
  n ← InterlockedDecrement p;
  if negb (n =? 0) then mret tt else
  if negb work then fail (DdkFailed "Unable to defer object deletion") else
  modify (log (SubmitThreadpoolWork p)).

Definition ObDereferenceObjectDeferDelete (work : bool) (Object : Z) : K unit :=
  ObDereferenceObjectDeferDeleteWithTag work Object.

Definition DdkObjectCallback (p : Z) : K unit := DdkFreeObject free_depth p.

Definition ZwClose (Handle : Z) : K Z :=
  p ← FromHandle Handle;
  if p =? 0 then mret STATUS_INVALID_HANDLE else
  _ ← at_passive;
  _ ← ObfDereferenceObject p;
  mret STATUS_SUCCESS.

Definition ObCloseHandle (Handle : Z) : K Z := ZwClose Handle.
End objects.
