(* ===== verification/Names.v ===== *)
(** * Names: the name space of objects and symbolic links

    name.cpp and symlink.cpp over the heap of Objects.  A name in a call is a
    list of characters, [Length / 2] of them; a directory is a NUL-terminated
    string, given as its characters.  Paths are built in allocated memory byte by
    byte, as the code does; what becomes of a freed buffer or entry is not modelled. *)

From S2P Require Import Prelude Strings Objects.

(** [L'\\'] *)
Definition BACKSLASH : Z := 92.

(** [wcscpy(&s[off], cs)]: the characters and a NUL. *)
Fixpoint put_string (m : list Z) (off : Z) (cs : list Z) : result (list Z) :=
  match cs with
  | [] => wchar_put m off 0
  | c :: cs => m ← wchar_put m off c; put_string m (off + 1) cs
  end.

(** [wcscat(s, cs)] *)
Definition wcscat (m : list Z) (cs : list Z) : result (list Z) :=
  n ← wcslen m; put_string m n cs.

Definition until_nul : list Z -> list Z :=
  fix go cs := match cs with [] => [] | c :: cs => if c =? 0 then [] else c :: go cs end.

(** [Dir && *Dir && Name->Buffer[0] != '\\'], and the same for [Prefix]. *)
Definition prefixed (Dir : option (list Z)) (Name : list Z) : result bool :=
  match Dir with
  | None | Some [] => Ok false
  | Some _ =>
      match Name with
      | [] => Err (BadAccess 0)
      | c :: _ => Ok (negb (c =? BACKSLASH))
      end
  end.

Definition text_of (Dir : option (list Z)) : list Z := default [] Dir.

(** [malloc] is the pool the buffer comes from. *)
Definition DdkCreatePath (malloc : Z -> option (list Z)) (Name : list Z)
    (Dir Prefix : option (list Z)) : result UNICODE_STRING :=
  d ← prefixed Dir Name;
  p ← prefixed Prefix Name;
  let dn := if d : bool then Z.of_nat (length (text_of Dir)) + 1 else 0 in
  let pn := if p : bool then Z.of_nat (length (text_of Prefix)) else 0 in
  s ← DdkAllocUnicodeBuffer malloc (2 * Z.of_nat (length Name) + (dn + pn + 1) * 2);
  s ← wchar_put s 0 0;
  s ← (if d : bool then
         s ← put_string s 0 (text_of Dir);
         if bool_decide (last (text_of Dir) = Some BACKSLASH) then Ok s else wcscat s [BACKSLASH]
       else Ok s);
  s ← (if p : bool then wcscat s (text_of Prefix) else Ok s);
  (* wcsncat(s, Name->Buffer, Name->Length / sizeof(WCHAR)) *)
  s ← wcscat s (until_nul Name);
  RtlInitUnicodeString (Some s).

Section names.
Context `{Environment} `{Locale}.

(** [RtlCompareUnicodeString(Path, &pEntry->Name, TRUE) == 0] *)
Definition same_name (Path : UNICODE_STRING) (e : NAME) : K bool :=
  irql ← KeGetCurrentIrql;
  rc ← lift (RtlCompareUnicodeString irql Path (Objects.Name e) true);
  mret (rc =? 0).

(** Returns the object and, as [*pPath], the name of its entry. *)
Fixpoint find_name (Path : UNICODE_STRING) (l : list NAME) : K (option (Z * UNICODE_STRING)) :=
  match l with
  | [] => mret None
  | e :: l =>
      m ← same_name Path e;
      if m : bool then
        o ← object_at (Object e);
        if negb (refcount o =? 0) then mret (Some (Object e, Objects.Name e)) else find_name Path l
      else find_name Path l
  end.

Definition DdkFindName (Path : UNICODE_STRING) : K (option (Z * UNICODE_STRING)) :=
  l ← (fun s => Ok (DdkNameList s, s));
  find_name Path l.

(** The entry [calloc] makes at address [a], with its own copy of the path. *)
Definition new_entry (a : Z) (obj : Z) (u : UNICODE_STRING) : result NAME :=
  b ← deref (Buffer u);
  buf ← wcsncpy (Z.to_nat (Length u / 2)) (repeat 0 (Z.to_nat (Length u + 2))) 0 b 0 false;
  name ← RtlInitUnicodeString (Some buf);
  Ok (mkName a obj name).

(** [Name] is [NULL] or a counted string.  Returns the object and [*pPath]. *)
Definition DdkCreateName (malloc : Z -> option (list Z)) (calloc : option Z)
    (Name : option (list Z)) (pObj : Z) (Dir : option (list Z)) : K (Z * UNICODE_STRING) :=
  name ← lift (match Name with
               | Some n => if pObj =? 0 then Err (AssertFailed "Name && pObj") else Ok n
               | None => Err (AssertFailed "Name && pObj") end);
  _ ← ddkassertM (2 * Z.of_nat (length name) >=? 2) "Name->Length >= sizeof(WCHAR)";
  u ← lift (DdkCreatePath malloc name Dir None);
  match calloc with
  | None => fail (DdkFailed "Unable to create name")
  | Some a =>
      e ← lift (new_entry a pObj u);
      found ← DdkFindName (Objects.Name e);
      match found with
      | Some (pLookup, path) =>
          _ ← DdkReferenceObject pLookup;
          _ ← DdkDereferenceObject pObj;
          mret (pLookup, path)
      | None =>
          _ ← modify (fun s => set_names (e :: DdkNameList s) s);
          _ ← DdkReferenceObject pObj;
          mret (pObj, Objects.Name e)
      end
  end.

Definition DdkInsertName (malloc : Z -> option (list Z)) (calloc : option Z)
    (Name : option (list Z)) (pObj : Z) (Dir : option (list Z)) : K bool :=
  '(pResult, _) ← DdkCreateName malloc calloc Name pObj Dir;
  if negb (pResult =? pObj) then
    _ ← DdkDereferenceObject pResult;
    mret false
  else mret true.

Definition DdkRemoveName (Name : UNICODE_STRING) : K unit :=
  remove_names (same_name Name) (DdkFreeObject free_depth).

(** 0 for no object. *)
Definition DdkLookupName (malloc : Z -> option (list Z)) (Name : list Z)
    (Dir : option (list Z)) : K Z :=
  u ← lift (DdkCreatePath malloc Name Dir None);
  found ← DdkFindName u;
  match found with
  | Some (p, _) => _ ← DdkReferenceObject p; mret p
  | None => mret 0
  end.

(** ** symlink.cpp *)

Definition no_link_name : string := "SymbolicLinkName && SymbolicLinkName->Length".

(** [DDKASSERT(u && u->Length)] *)
Definition nonempty (u : option (list Z)) (condition : string) : K (list Z) :=
  lift (match u with Some (c :: cs) => Ok (c :: cs) | _ => Err (AssertFailed condition) end).

(** [link] and [entry] are what [calloc] gives for the link and for its name. *)
Definition IoCreateSymbolicLink (malloc : Z -> option (list Z)) (link entry : option Z)
    (SymbolicLinkName DeviceName : option (list Z)) : K Z :=
  dev ← nonempty DeviceName "DeviceName && DeviceName->Length";
  name ← nonempty SymbolicLinkName no_link_name;
  p ← DdkAllocObject link IoSymbolicLinkType (Symlink (mkStr 0 0 None) false) true;
  match p with
  | None => mret STATUS_INSUFFICIENT_RESOURCES
  | Some p =>
      (* sizeof(SYMLINK) leaves room for one character more *)
      buf ← lift (wcsncpy (length dev) (repeat 0 (2 * length dev + 2)) 0 (encode dev) 0 false);
      dest ← lift (RtlInitUnicodeString (Some buf));
      o ← object_at p;
      _ ← put_object p (mkObject (type o) (alloc o) (refcount o) (h o) (Symlink dest true));
      ok ← DdkInsertName malloc entry (Some name) p None;
      mret (if negb ok then STATUS_OBJECT_NAME_EXISTS else STATUS_SUCCESS)
  end.

Definition IoDeleteSymbolicLink (malloc : Z -> option (list Z))
    (SymbolicLinkName : option (list Z)) : K Z :=
  name ← nonempty SymbolicLinkName no_link_name;
  p ← DdkLookupName malloc name None;
  if p =? 0 then mret STATUS_OBJECT_NAME_NOT_FOUND else
  o ← object_at p;
  if negb (type o =? IoSymbolicLinkType) then mret STATUS_OBJECT_NAME_NOT_FOUND else
  _ ← DdkRemoveObjectName p;
  _ ← DdkDereferenceObject p;
  mret STATUS_SUCCESS.

Definition link_body (p : Z) : K (UNICODE_STRING * bool) :=
  o ← object_at p;
  match contents o with Symlink d e => mret (d, e) | _ => fail (BadAccess p) end.

(** The characters of a counted string, [Length / 2] of them. *)
Definition chars (u : UNICODE_STRING) : result (list Z) :=
  match Buffer u with
  | None => Ok []
  | Some m => mapM (fun i => wchar_at m (Z.of_nat i)) (seq 0 (Z.to_nat (Length u / 2)))
  end.

(** The loop of [DdkResolveSymbolicLink]: [if (count++ > 1000) ddkfail]. *)
Fixpoint resolve_loop (fuel : nat) (malloc : Z -> option (list Z)) (count p : Z) : K Z :=
  if p =? 0 then mret p else
  o ← object_at p;
  if negb (type o =? IoSymbolicLinkType) then mret p else
  match fuel with
  | O => fail NoFuel
  | S fuel =>
      if count >? 1000 then fail (DdkFailed "Recursive Symbolic Link") else
      '(dest, enabled) ← link_body p;
      if negb enabled then mret p else
      name ← lift (chars dest);
      q ← DdkLookupName malloc name None;
      _ ← ObDereferenceObject p;
      resolve_loop fuel malloc (count + 1) q
  end.

Definition DdkResolveSymbolicLink (malloc : Z -> option (list Z)) (p : Z) : K Z :=
  resolve_loop 1002 malloc 0 p.

Definition drop_reference (p : Z) : K unit :=
  if p =? 0 then mret tt else DdkDereferenceObject p.

Definition DdkIsDeviceInterface (malloc : Z -> option (list Z)) (path : list Z) (all : bool)
  : K bool :=
  p ← DdkLookupName malloc path None;
  rc ← (if p =? 0 then mret false else
        o ← object_at p;
        if negb (type o =? IoSymbolicLinkType) then mret false else
        '(dest, enabled) ← link_body p;
        if all || enabled then
          name ← lift (chars dest);
          q ← DdkLookupName malloc name None;
          rc ← (if q =? 0 then mret false else o ← object_at q; mret (type o =? IoDeviceType));
          _ ← drop_reference q;
          mret rc
        else mret false);
  _ ← drop_reference p;
  mret rc.

Definition IoSetDeviceInterfaceState (malloc : Z -> option (list Z)) (SymbolicLinkName : list Z)
    (Enable : bool) : K Z :=
  p ← DdkLookupName malloc SymbolicLinkName None;
  status ← (if p =? 0 then mret STATUS_OBJECT_NAME_NOT_FOUND else
            o ← object_at p;
            if negb (type o =? IoSymbolicLinkType) then mret STATUS_OBJECT_NAME_NOT_FOUND else
            '(dest, enabled) ← link_body p;
            _ ← put_object p (mkObject (type o) (alloc o) (refcount o) (h o) (Symlink dest Enable));
            mret (if negb enabled && negb Enable then STATUS_OBJECT_NAME_NOT_FOUND
                  else if enabled && Enable then STATUS_OBJECT_NAME_EXISTS
                  else STATUS_SUCCESS));
  _ ← drop_reference p;
  mret status.
End names.
