(* ===== verification/NamesPath.v ===== *)
(** * NamesPath: building a path fits the memory it is built in *)

From S2P Require Import Prelude Strings StringsOps StringsSpec Objects Names.

(** [m] is memory of [size] bytes that holds the NUL-terminated string [cs]. *)
Definition zstring (m cs : list Z) (size : Z) : Prop :=
  exists rest, m = encode cs ++ 0 :: 0 :: rest /\ Z.of_nat (length m) = size.

Lemma put_string_ok cs : forall pre old,
  2 * Z.of_nat (length cs) + 2 <= Z.of_nat (length old) ->
  exists m, put_string (encode pre ++ old) (Z.of_nat (length pre)) cs = Ok m /\
    zstring m (pre ++ cs) (Z.of_nat (length (encode pre ++ old))).
Proof.
  induction cs as [| c cs IH]; intros pre old Hl; (destruct old as [| b0 [| b1 old]]; simpl in Hl; [lia | lia |]);
    cbn [put_string].
  - rewrite wchar_put_next by (rewrite ?encode_length; lia). exists (encode pre ++ 0 :: 0 :: old).
    split; [done |]. exists old. rewrite app_nil_r. by rewrite !length_app.
  - rewrite wchar_put_next by (rewrite ?encode_length; lia). rewrite bind_ok.
    rewrite app_assoc, <- encode_app. destruct (IH (pre ++ [c]) old) as (m & E & (rest & Em & Lm)); [lia |].
    rewrite length_app in E. simpl in E. replace (Z.of_nat (length pre) + 1) with (Z.of_nat (length pre + 1)) by lia.
    exists m. split; [done |]. exists rest. rewrite <- app_assoc in Em. split; [done |].
    rewrite Lm, encode_app, !length_app. simpl. lia.
Qed.

Lemma wcscat_ok m pre cs size :
  zstring m pre size -> Forall is_wchar pre -> no_nul pre ->
  2 * Z.of_nat (length (pre ++ cs)) + 2 <= size ->
  exists m', wcscat m cs = Ok m' /\ zstring m' (pre ++ cs) size.
Proof.
  intros (rest & -> & Hs) Hw Hn Hl. unfold wcscat. rewrite wcslen_ok, bind_ok by done.
  rewrite length_app, encode_length in Hs. rewrite length_app in Hl.
  destruct (put_string_ok cs pre (0 :: 0 :: rest)) as (m' & -> & Hm); [lia |].
  exists m'. split; [done |]. by rewrite length_app, encode_length, Hs in Hm.
Qed.

(** What the path is made of: the directory with a backslash after it and the
    prefix, unless the name starts with a backslash. *)
Definition joined (Dir : list Z) : list Z :=
  if bool_decide (last Dir = Some BACKSLASH) then Dir else Dir ++ [BACKSLASH].

Definition path_prefix (Dir Prefix : option (list Z)) (Name : list Z) : list Z :=
  if bool_decide (head Name = Some BACKSLASH) then [] else
  (match Dir with Some (c :: cs) => joined (c :: cs) | _ => [] end) ++ text_of Prefix.

Definition path_text (Dir Prefix : option (list Z)) (Name : list Z) : list Z :=
  path_prefix Dir Prefix Name ++ Name.

Lemma until_nul_all cs : no_nul cs -> until_nul cs = cs.
Proof.
  induction cs as [| c cs IH]; [done |]. intros [Hc Hn]%Forall_cons. simpl.
  apply Z.eqb_neq in Hc as ->. by rewrite IH.
Qed.

Lemma joined_length d : Z.of_nat (length (joined d)) <= Z.of_nat (length d) + 1.
Proof. unfold joined. case_bool_decide; rewrite ?length_app; simpl; lia. Qed.

Definition plain (cs : list Z) : Prop := Forall is_wchar cs /\ no_nul cs.

Lemma plain_nil : plain [].
Proof. by split; constructor. Qed.

Lemma plain_app a b : plain (a ++ b) <-> plain a /\ plain b.
Proof. unfold plain, no_nul. rewrite !Forall_app. tauto. Qed.

Lemma plain_joined d : plain d -> plain (joined d).
Proof. unfold joined. case_bool_decide; [done |]. intros. apply plain_app. split; [done |]. by repeat constructor. Qed.

Lemma dir_step m d size :
  zstring m [] size -> plain d -> 2 * (Z.of_nat (length d) + 1) + 2 <= size ->
  exists m', (s ← put_string m 0 d;
              if bool_decide (last d = Some BACKSLASH) then Ok s else wcscat s [BACKSLASH]) = Ok m' /\
    zstring m' (joined d) size.
Proof.
  intros (rest & -> & Hs) [Hw Hn] Hl.
  change (Z.of_nat (length (0 :: 0 :: rest)) = size) in Hs.
  destruct (put_string_ok d [] (0 :: 0 :: rest)) as (m' & E & Z'); [lia |].
  change (put_string (0 :: 0 :: rest) 0 d = Ok m') in E.
  change (zstring m' d (Z.of_nat (length (0 :: 0 :: rest)))) in Z'.
  rewrite Hs in Z'. change (encode [] ++ 0 :: 0 :: rest) with (0 :: 0 :: rest). rewrite E, bind_ok.
  unfold joined. case_bool_decide; [by exists m' |].
  apply wcscat_ok; try done. rewrite length_app. simpl. lia.
Qed.

Section path.
Context (malloc : Z -> option (list Z)) (Name : list Z) (Dir Prefix : option (list Z)).

(** [_aligned_malloc] gives as many bytes as it is asked for. *)
Context (Hm : forall n, 0 <= n -> exists m, malloc n = Some m /\ Z.of_nat (length m) = n).
Context (Hn : plain Name) (Hd : plain (text_of Dir)) (Hp : plain (text_of Prefix)) (H0 : Name <> []).

Definition used (o : option (list Z)) : bool :=
  match o with Some (_ :: _) => negb (bool_decide (head Name = Some BACKSLASH)) | _ => false end.

Lemma prefixed_ok o : prefixed o Name = Ok (used o).
Proof.
  unfold prefixed, used. destruct o as [[| c cs] |]; try done. destruct Name as [| c' n]; [done |].
  simpl. f_equal. f_equal. case_bool_decide; case_z; congruence.
Qed.

(** The buffer is large enough for each of the four steps. *)
Lemma path_built :
  exists m, DdkCreatePath malloc Name Dir Prefix = RtlInitUnicodeString (Some m) /\
    exists size, zstring m (path_text Dir Prefix Name) size.
Proof.
  unfold DdkCreatePath. rewrite !prefixed_ok, !bind_ok. cbv zeta.
  set (dn := if used Dir then _ else _). set (pn := if used Prefix then _ else _).
  assert (0 <= dn /\ 0 <= pn) as [Hdn Hpn] by (unfold dn, pn; split; case_match; lia).
  set (size := 2 * Z.of_nat (length Name) + (dn + pn + 1) * 2).
  destruct (Hm size) as (m0 & Em & Lm); [lia |].
  unfold DdkAllocUnicodeBuffer. rewrite Em, bind_ok.
  set (D := if used Dir then joined (text_of Dir) else []).
  set (P := if used Prefix then text_of Prefix else []).
  assert (2 * Z.of_nat (length D) + 2 * Z.of_nat (length P) + 2 * Z.of_nat (length Name) + 2 <= size) as Hsize.
  { unfold size, D, P, dn, pn. pose proof (joined_length (text_of Dir)).
    destruct (used Dir), (used Prefix); simpl; lia. }
  assert (path_text Dir Prefix Name = (D ++ P) ++ Name) as ->.
  { unfold path_text, path_prefix, D, P, used. case_bool_decide;
      destruct Dir as [[|] |], Prefix as [[|] |]; done. }
  destruct (put_string_ok [] [] m0) as (m1 & E1 & Z1); [simpl; lia |].
  change (wchar_put m0 0 0 = Ok m1) in E1. change (zstring m1 [] (Z.of_nat (length m0))) in Z1.
  rewrite Lm in Z1.
  rewrite E1, bind_ok.
  assert (exists m2, (if used Dir then s ← put_string m1 0 (text_of Dir);
         if bool_decide (last (text_of Dir) = Some BACKSLASH) then Ok s else wcscat s [BACKSLASH]
       else Ok m1) = Ok m2 /\ zstring m2 D size) as (m2 & E2 & Z2).
  { unfold D. destruct (used Dir) eqn:Ud; [| by exists m1]. apply dir_step; [done | done |].
    unfold size, dn. lia. }
  rewrite E2, bind_ok. assert (plain D /\ plain P) as [PD PP].
  { unfold D, P. split; [destruct (used Dir) | destruct (used Prefix)]; first [done | apply plain_nil | by apply plain_joined]. }
  assert (exists m3, (if used Prefix then wcscat m2 (text_of Prefix) else Ok m2) = Ok m3 /\
    zstring m3 (D ++ P) size) as (m3 & E3 & Z3).
  { unfold P in *. destruct (used Prefix); [| exists m2; by rewrite app_nil_r].
    apply wcscat_ok; [done | apply PD | apply PD |]. rewrite length_app. lia. }
  rewrite E3, bind_ok, until_nul_all by apply Hn.
  assert (plain (D ++ P)) as [Hw3 Hn3] by by apply plain_app.
  destruct (wcscat_ok m3 (D ++ P) Name size) as (m4 & E4 & Z4); [done | done | done | rewrite !length_app; lia |].
  rewrite E4, bind_ok. exists m4. split; [done | by exists size].
Qed.
End path.

Lemma wide_init_ok cs rest :
  plain cs -> Z.of_nat (length cs) <= 32766 ->
  RtlInitUnicodeString (Some (encode cs ++ 0 :: 0 :: rest)) =
    Ok (mkStr (2 * Z.of_nat (length cs)) (2 * Z.of_nat (length cs) + 2)
          (Some (encode cs ++ 0 :: 0 :: rest))).
Proof.
  intros [Hw Hn] Hl. unfold RtlInitUnicodeString. rewrite wcslen_ok, bind_ok by done.
  unfold u64. rewrite Z.mod_small by lia. rewrite ddkassert_true by lia.
  rewrite (u16_id (_ * 2)), (u16_id (_ + 2)) by lia. do 2 f_equal; lia.
Qed.

Lemma wide_init_long cs rest :
  plain cs -> 32766 < Z.of_nat (length cs) < 2 ^ 62 ->
  RtlInitUnicodeString (Some (encode cs ++ 0 :: 0 :: rest)) = Err (AssertFailed wide_init_assert).
Proof.
  intros [Hw Hn] Hl. unfold RtlInitUnicodeString. rewrite wcslen_ok, bind_ok by done.
  unfold u64. rewrite Z.mod_small by lia. by rewrite ddkassert_false by lia.
Qed.

Lemma holds_mk cs rest :
  plain cs -> holds (mkStr (2 * Z.of_nat (length cs)) (2 * Z.of_nat (length cs) + 2)
    (Some (encode cs ++ rest))) cs.
Proof. intros [Hw _]. split; [done |]. split; [done |]. by exists rest. Qed.

(** A string copied into zeroed memory with room for its NUL. *)
Lemma copied_ok cs src n : plain cs -> Z.of_nat (length cs) <= 32766 -> n = length cs ->
  exists b, wcsncpy n (repeat 0 (2 * n + 2)) 0 (encode cs ++ src) 0 false = Ok b /\
    exists u, RtlInitUnicodeString (Some b) = Ok u /\ holds u cs.
Proof.
  intros Hp Hl ->. pose proof Hp as [Hw Hn]. exists (encode cs ++ [0; 0]). split.
  - rewrite repeat_app. rewrite <- (app_nil_l (repeat 0 (2 * length cs) ++ _)).
    rewrite (wcsncpy_ok _ cs src [] _ (repeat 0 2) 0 0); try done; try lia.
    + simpl. by rewrite drop_0, firstn_all.
    + by rewrite repeat_length.
  - rewrite wide_init_ok by done. eexists. split; [done | by apply holds_mk].
Qed.

Lemma new_entry_ok a p u cs :
  holds u cs -> plain cs -> cs <> [] -> Z.of_nat (length cs) <= 32766 ->
  exists nm, new_entry a p u = Ok (mkName a p nm) /\ holds nm cs.
Proof.
  intros (Hlen & _ & Hb) Hp Hc Hl. unfold new_entry. destruct (Buffer u) as [m |]; [| done].
  destruct Hb as [rest ->]. rewrite deref_some, bind_ok, Hlen.
  replace (Z.to_nat (2 * Z.of_nat (length cs) / 2)) with (length cs)
    by (rewrite Z.mul_comm, Z.div_mul by lia; lia).
  replace (Z.to_nat (2 * Z.of_nat (length cs) + 2)) with (2 * length cs + 2)%nat by lia.
  destruct (copied_ok cs rest (length cs) Hp Hl eq_refl) as (b & Eb & nm & Enm & Hnm).
  exists nm. by rewrite Eb, bind_ok, Enm, bind_ok.
Qed.

Lemma plain_path Dir Prefix Name :
  plain Name -> plain (text_of Dir) -> plain (text_of Prefix) -> plain (path_text Dir Prefix Name).
Proof.
  intros Hn Hd Hp. apply plain_app. split; [| done]. unfold path_prefix.
  case_bool_decide; [apply plain_nil |]. apply plain_app. split; [| done].
  destruct Dir as [[|] |]; first [apply plain_nil | by apply plain_joined].
Qed.

(** The pool gives as many bytes as it is asked for, and [Name] in [Dir] is the
    path [cs]. *)
Record path_of (malloc : Z -> option (list Z)) (Dir : option (list Z)) (Name cs : list Z) : Prop := {
  p_pool : forall n, 0 <= n -> exists m, malloc n = Some m /\ Z.of_nat (length m) = n;
  p_name : plain Name;
  p_some : Name <> [];
  p_dir : plain (text_of Dir);
  p_path : cs = path_text Dir None Name;
  p_size : Z.of_nat (length cs) <= 32766
}.

Lemma create_path_ok malloc Dir Name cs : path_of malloc Dir Name cs ->
  plain cs /\ cs <> [] /\ exists u, DdkCreatePath malloc Name Dir None = Ok u /\ holds u cs.
Proof.
  intros [Hm Hn H0 Hd -> Hs].
  assert (plain (path_text Dir None Name)) as Hp by (apply plain_path; [done | done | apply plain_nil]).
  split; [done |]. split; [by intros [_ ?]%app_eq_nil |].
  destruct (path_built malloc Name Dir None Hm Hn Hd plain_nil H0) as (m & -> & size & rest & -> & _).
  rewrite wide_init_ok by done. eexists. split; [done | by apply holds_mk].
Qed.

(** C35. Building a path stays inside its buffer, whatever the directory, the prefix
    and the name are: the result is the directory, a backslash where it lacks one,
    the prefix and the name - or the name alone if it starts with a backslash - and
    a path of more than 32766 characters stops at the assertion of
    [RtlInitUnicodeString], not in memory. *)
Theorem DdkCreatePath_spec malloc Name Dir Prefix
  (Hm : forall n, 0 <= n -> exists m, malloc n = Some m /\ Z.of_nat (length m) = n)
  (Hn : plain Name) (Hd : plain (text_of Dir)) (Hp : plain (text_of Prefix)) (H0 : Name <> [])
  (Hlen : Z.of_nat (length (path_text Dir Prefix Name)) < 2 ^ 62) :
  let path := path_text Dir Prefix Name in
  (Z.of_nat (length path) <= 32766 ->
    exists u, DdkCreatePath malloc Name Dir Prefix = Ok u /\ holds u path /\
      MaximumLength u = Length u + 2) /\
  (32766 < Z.of_nat (length path) ->
    DdkCreatePath malloc Name Dir Prefix = Err (AssertFailed wide_init_assert)).
Proof.
  intros path. destruct (path_built malloc Name Dir Prefix Hm Hn Hd Hp H0) as (m & -> & size & rest & -> & _).
  assert (plain path) as Hpath by by apply plain_path.
  fold path. split; intros Hl.
  - rewrite wide_init_ok by done. eexists. split; [reflexivity |]. split; [by apply holds_mk | done].
  - by apply wide_init_long.
Qed.

(** A pool for the witnesses. *)
Definition zeros (n : Z) : option (list Z) := Some (repeat 0 (Z.to_nat n)).

Lemma zeros_ok n : 0 <= n -> exists m, zeros n = Some m /\ Z.of_nat (length m) = n.
Proof. intros. exists (repeat 0 (Z.to_nat n)). split; [done |]. rewrite repeat_length. lia. Qed.

(** A name in a directory and an absolute name. *)
Lemma DdkCreatePath_spec_witness :
  (exists u, DdkCreatePath zeros [99; 111; 109] (Some [92; 68]) None = Ok u /\
     holds u [92; 68; 92; 99; 111; 109]) /\
  (exists u, DdkCreatePath zeros [92; 99] (Some [92; 68]) (Some [120]) = Ok u /\ holds u [92; 99]).
Proof.
  split.
  - destruct (DdkCreatePath_spec zeros [99; 111; 109] (Some [92; 68]) None zeros_ok) as [Hs _];
      try (by split; repeat constructor); try done.
    destruct Hs as (u & ? & ? & _); [done |]. by exists u.
  - destruct (DdkCreatePath_spec zeros [92; 99] (Some [92; 68]) (Some [120]) zeros_ok) as [Hs _];
      try (by split; repeat constructor); try done.
    destruct Hs as (u & ? & ? & _); [done |]. by exists u.
Defined.
