(* ===== verification/ObjectsInv.v ===== *)
(** * ObjectsInv: the accounts of the reference counts

    Every reference to an object is of one of four kinds: an entry of the name
    list, a device in its driver's list, a file open on a device, or one that a
    client of the library holds.  The first three can be counted in the state;
    [client] is what is left of the count.  The invariant [kinv] says that nothing
    is left owing, and each operation is specified by what it does to [client]. *)

From S2P Require Import Prelude Strings Objects.

(** ** Counting the internal references *)

Definition named (n : list NAME) (a : Z) : nat := length (filter (fun e => Object e = a) n).

Definition listed (om : gmap Z OBJECT) (a : Z) : nat :=
  match om !! a with
  | Some o => match contents o with Driver _ ds => length ds | _ => 0%nat end
  | None => 0%nat
  end.

#[global] Instance unicode_eq_dec : EqDecision UNICODE_STRING.
Proof. solve_decision. Defined.

#[global] Instance body_eq_dec : EqDecision body.
Proof. solve_decision. Defined.

(** A file that is closed no longer holds its device. *)
Definition opens (a : Z) (o : OBJECT) : Prop :=
  contents o = File (a + sizeof_OBJECT) /\ 0 < refcount o.

#[global] Instance opens_dec a o : Decision (opens a o).
Proof. unfold opens. apply _. Defined.

Definition filed (om : gmap Z OBJECT) (a : Z) : nat := size (filter (fun kv => opens a kv.2) om).

Definition refs (s : kernel) (a : Z) : Z :=
  Z.of_nat (named (DdkNameList s) a + listed (objects s) a + filed (objects s) a).

(** The references that clients hold. *)
Definition client (s : kernel) (a : Z) : Z :=
  match objects s !! a with Some o => refcount o - refs s a | None => 0 end.

Definition one (P : Prop) `{Decision P} : Z := if decide P then 1 else 0.

Lemma one_no (P : Prop) `{Decision P} : ~ P -> one P = 0.
Proof. intros. unfold one. by rewrite decide_False. Qed.

Lemma one_range (P : Prop) `{Decision P} : 0 <= one P <= 1.
Proof. unfold one. case_decide; lia. Qed.

Lemma one_yes (P : Prop) `{Decision P} : P -> one P = 1.
Proof. intros. unfold one. by rewrite decide_True. Qed.

(** ** How the counts change *)

Definition opening (a : Z) (o : option OBJECT) : nat :=
  match o with Some o => if decide (opens a o) then 1%nat else 0%nat | None => 0%nat end.

Lemma filed_delete om p a : (filed (delete p om) a + opening a (om !! p))%nat = filed om a.
Proof.
  unfold filed, opening. destruct (om !! p) as [o |] eqn:Ep; [| by rewrite delete_id, Nat.add_0_r].
  rewrite map_filter_delete. destruct (decide (opens a o)) as [H | H].
  - rewrite map_size_delete_Some by (exists o; by apply map_lookup_filter_Some).
    enough (size (filter (fun kv => opens a kv.2) om) <> 0%nat) by lia.
    rewrite map_size_non_empty_iff. intros E.
    assert (filter (fun kv : Z * OBJECT => opens a kv.2) om !! p = Some o) as Ef
      by by apply map_lookup_filter_Some. by rewrite E in Ef.
  - rewrite delete_id; [lia |]. apply map_lookup_filter_None. right. intros x Ex. by simplify_eq.
Qed.

Lemma filed_insert om p o a :
  (filed (<[p := o]> om) a + opening a (om !! p))%nat = (filed om a + opening a (Some o))%nat.
Proof.
  rewrite <- (filed_delete om p a), <- insert_delete_eq.
  enough (filed (<[p := o]> (delete p om)) a = (filed (delete p om) a + opening a (Some o))%nat) by lia.
  unfold filed, opening. assert (delete p om !! p = None) as E by apply lookup_delete_eq.
  destruct (decide (opens a o)) as [H | H].
  - rewrite map_filter_insert_True by done. rewrite map_size_insert_None; [lia |].
    apply map_lookup_filter_None. by left.
  - rewrite map_filter_insert_not' by (try done; intros; by simplify_eq). lia.
Qed.

(** ** The invariant *)

Section invariant.
Context `{Environment} `{Locale}.

(** The type of an object says what follows its header. *)
Definition well_typed (o : OBJECT) : Prop :=
  match contents o with
  | Plain => is_public_type (type o) = false /\ type o <> KeyType /\ type o <> IoSymbolicLinkType
  | File _ => type o = IoFileType
  | Driver _ _ => type o = IoDriverType
  | Device _ => type o = IoDeviceType
  | Symlink _ _ => type o = IoSymbolicLinkType
  | Key _ => type o = KeyType
  end.

(** Driver [q] has the device at [p] in its list. *)
Definition lists (s : kernel) (q p : Z) : Prop :=
  exists o i ds, objects s !! q = Some o /\ contents o = Driver i ds /\ p + sizeof_OBJECT ∈ ds.

Definition device_of (s : kernel) (p drv : Z) : Prop :=
  exists o, objects s !! p = Some o /\ contents o = Device drv.

Record object_ok (s : kernel) (p : Z) (o : OBJECT) : Prop := {
  o_address : 0 < p;
  o_typed : well_typed o;
  (** what follows a public header does not look like an object *)
  o_hidden : is_public_type (type o) = true ->
    objects s !! (p + sizeof_OBJECT) = None /\ isValidObject s (p + sizeof_OBJECT) = false;
  o_count : 0 <= refcount o < 2 ^ 31 /\ refs s p <= refcount o;
  o_handle : h o <> 0 -> h o <> GetCurrentProcess;
  o_devices : forall i ds, contents o = Driver i ds -> NoDup ds /\
    forall d, d ∈ ds -> device_of s (d - sizeof_OBJECT) (p + sizeof_OBJECT);
  o_listed : forall drv, contents o = Device drv -> 0 < refcount o ->
    exists q, drv = q + sizeof_OBJECT /\ lists s q p;
  o_opened : forall d, contents o = File d -> d <> 0 -> 0 < refcount o ->
    exists q drv, d = q + sizeof_OBJECT /\ device_of s q drv
}.

Record kinv (s : kernel) : Prop := {
  k_objects : forall p o, objects s !! p = Some o -> object_ok s p o;
  k_entries : NoDup (addr <$> DdkNameList s);
  k_named : forall e, e ∈ DdkNameList s -> is_Some (objects s !! Object e)
}.

(** Objects that differ in what the invariant does not look at. *)
Definition same_shape (c c' : body) : Prop :=
  match c, c' with
  | Key _, Key _ | Symlink _ _, Symlink _ _ => True
  | _, _ => c' = c
  end.

Record similar (o o' : OBJECT) : Prop := {
  s_type : type o' = type o;
  s_alloc : alloc o' = alloc o;
  s_shape : same_shape (contents o) (contents o');
  s_handle : h o' = h o \/ h o' = 0;
  s_count : 0 < refcount o' -> 0 < refcount o
}.

Definition put_at (s : kernel) (p : Z) (o : OBJECT) : kernel :=
  set_objects (<[p := o]> (objects s)) s.

Lemma shape_rest c c' : same_shape c c' ->
  (forall i ds, c = Driver i ds <-> c' = Driver i ds) /\
  (forall drv, c = Device drv <-> c' = Device drv) /\ (forall d, c = File d <-> c' = File d).
Proof. destruct c, c'; simpl; intros; repeat split; intros; simplify_eq; done. Qed.

Lemma refs_put s p o o' a :
  objects s !! p = Some o -> similar o o' ->
  refs (put_at s p o') a = refs s a - one (opens a o /\ ~ opens a o').
Proof.
  intros Ep S. destruct (shape_rest _ _ (s_shape _ _ S)) as (_ & _ & Hf). unfold refs. simpl.
  assert (listed (<[p := o']> (objects s)) a = listed (objects s) a) as ->.
  { unfold listed. destruct (decide (a = p)) as [-> |].
    - rewrite lookup_insert_eq, Ep. pose proof (s_shape _ _ S) as Hs.
      by destruct (contents o), (contents o'); simplify_eq/=.
    - by rewrite lookup_insert_ne. }
  pose proof (filed_insert (objects s) p o' a) as F. rewrite Ep in F. simpl in F.
  assert (opens a o' -> opens a o) as Ho.
  { intros [H1 H2]. split; [by apply Hf | by apply (s_count _ _ S)]. }
  unfold one. repeat case_decide; try tauto; lia.
Qed.

Lemma valid_put s p o o' a :
  objects s !! p = Some o -> type o' = type o -> isValidObject (put_at s p o') a = isValidObject s a.
Proof.
  intros Ep Et. unfold isValidObject, type_at. simpl. destruct (decide (a = p)) as [-> |].
  - by rewrite lookup_insert_eq, Ep, Et.
  - by rewrite lookup_insert_ne.
Qed.

Lemma device_put s p o o' a drv :
  objects s !! p = Some o -> similar o o' -> device_of s a drv -> device_of (put_at s p o') a drv.
Proof.
  intros Ep S (x & Ex & Ec). unfold device_of. simpl. destruct (decide (a = p)) as [-> |].
  - rewrite lookup_insert_eq. exists o'. split; [done |]. simplify_eq.
    by apply (shape_rest _ _ (s_shape _ _ S)).
  - rewrite lookup_insert_ne by done. by exists x.
Qed.

Lemma lists_put s p o o' q a :
  objects s !! p = Some o -> similar o o' -> lists s q a -> lists (put_at s p o') q a.
Proof.
  intros Ep S (x & i & ds & Ex & Ec & Hd). unfold lists. simpl. destruct (decide (q = p)) as [-> |].
  - rewrite lookup_insert_eq. exists o', i, ds. simplify_eq.
    split; [done |]. split; [| done]. by apply (shape_rest _ _ (s_shape _ _ S)).
  - rewrite lookup_insert_ne by done. by exists x, i, ds.
Qed.

Lemma well_typed_put o o' : similar o o' -> well_typed o -> well_typed o'.
Proof.
  intros S. pose proof (s_shape _ _ S) as Hs. unfold well_typed. rewrite (s_type _ _ S).
  by destruct (contents o), (contents o'); simplify_eq/=.
Qed.

(** The one preservation lemma of every change to an object that keeps what the
    object is. *)
Lemma kinv_put s p o o' :
  kinv s -> objects s !! p = Some o -> similar o o' ->
  0 <= refcount o' < 2 ^ 31 -> refs s p <= refcount o' -> kinv (put_at s p o').
Proof.
  intros I Ep S Hc Hr.
  assert (forall a x, objects (put_at s p o') !! a = Some x ->
    exists y, objects s !! a = Some y /\ similar y x /\ (x = y \/ a = p /\ x = o')) as L.
  { simpl. intros a x. destruct (decide (a = p)) as [-> |].
    - rewrite lookup_insert_eq. intros [= <-]. exists o. tauto.
    - rewrite lookup_insert_ne by done. intros. exists x.
      split; [done |]. split; [| by left]. split; try done; [by destruct (contents x) | by left]. }
  split; [| apply (k_entries _ I) |].
  - intros a x (y & Ey & Sy & Hxy)%L. destruct (k_objects _ I a y Ey) as [].
    destruct (shape_rest _ _ (s_shape _ _ Sy)) as (Sd & Sv & Sf). split.
    + done.
    + by apply (well_typed_put y).
    + rewrite (valid_put s p o) by (try done; apply S). rewrite (s_type _ _ Sy). simpl.
      intros [Hn Hv]%o_hidden0. split; [| done]. rewrite lookup_insert_ne; [done | congruence].
    + rewrite (refs_put s p o) by done. pose proof (Z.le_refl 0). unfold one.
      destruct Hxy as [-> | [-> ->]]; case_decide; lia.
    + destruct (s_handle _ _ Sy) as [-> | ->]; [done | lia].
    + intros i ds Hi%Sd. destruct (o_devices0 i ds Hi) as [? Hd]. split; [done |].
      intros d Hd'. apply (device_put s p o); auto.
    + intros drv Hv%Sv Hp%(s_count _ _ Sy). destruct (o_listed0 drv Hv Hp) as (q & -> & Hq).
      exists q. split; [done | by apply (lists_put s p o)].
    + intros d Hv%Sf Hn Hp%(s_count _ _ Sy). destruct (o_opened0 d Hv Hn Hp) as (q & drv & -> & Hq).
      exists q, drv. split; [done | by apply (device_put s p o)].
  - intros e He. simpl. destruct (k_named _ I e He). destruct (decide (Object e = p)) as [-> |].
    + by rewrite lookup_insert_eq.
    + by rewrite lookup_insert_ne.
Qed.

Lemma client_put s p o o' a :
  objects s !! p = Some o -> similar o o' ->
  client (put_at s p o') a =
    client s a + (if decide (a = p) then refcount o' - refcount o else 0) +
      match objects s !! a with Some _ => one (opens a o /\ ~ opens a o') | None => 0 end.
Proof.
  intros Ep S. unfold client. simpl. destruct (decide (a = p)) as [-> |].
  - rewrite lookup_insert_eq, Ep, (refs_put s p o) by done. lia.
  - rewrite lookup_insert_ne by done. destruct (objects s !! a); [| lia].
    rewrite (refs_put s p o) by done. lia.
Qed.

Lemma client_pos s p : 1 <= client s p ->
  exists o, objects s !! p = Some o /\ 1 + refs s p <= refcount o.
Proof. unfold client. destruct (objects s !! p) as [o |]; [exists o; split; [done |]; lia | lia]. Qed.

Lemma refs_nonneg s p : 0 <= refs s p.
Proof. unfold refs. lia. Qed.

(** The invariant is about the objects and the names only. *)
Lemma kinv_ext s s' :
  objects s' = objects s -> DdkNameList s' = DdkNameList s -> kinv s -> kinv s'.
Proof.
  destruct s, s'. simpl. intros -> -> I. split; [| apply (k_entries _ I) | apply (k_named _ I)].
  intros p o Ep. destruct (k_objects _ I p o Ep). by split.
Qed.

Lemma kinv_log s e : kinv s -> kinv (log e s).
Proof. by apply kinv_ext. Qed.

Lemma named_pos s e : e ∈ DdkNameList s -> 1 <= refs s (Object e).
Proof.
  intros He. unfold refs, named.
  enough (length (filter (fun x => Object x = Object e) (DdkNameList s)) <> 0%nat) by lia.
  intros E%nil_length_inv. assert (e ∈ filter (fun x => Object x = Object e) (DdkNameList s)) as Hf
    by by apply list_elem_of_filter. rewrite E in Hf. by apply not_elem_of_nil in Hf.
Qed.

Lemma listed_pos s q p : lists s q p -> 1 <= refs s q.
Proof.
  intros (o & i & ds & Eq & Ec & Hd). unfold refs, listed. rewrite Eq, Ec.
  destruct ds; [by apply not_elem_of_nil in Hd | simpl; lia].
Qed.

Lemma filed_pos s p o a : objects s !! p = Some o -> opens a o -> 1 <= refs s a.
Proof.
  intros Ep Ho. unfold refs. pose proof (filed_delete (objects s) p a) as F.
  rewrite Ep in F. simpl in F. rewrite decide_True in F by done. lia.
Qed.

(** An object nothing refers to leaves the heap. *)
Definition delete_at (s : kernel) (p : Z) : kernel := set_objects (delete p (objects s)) s.

Lemma refs_delete s p o a :
  objects s !! p = Some o -> refcount o = 0 -> refs s p <= 0 -> refs (delete_at s p) a = refs s a.
Proof.
  intros Ep Hc Hr. unfold refs. simpl. pose proof (filed_delete (objects s) p a) as F.
  rewrite Ep in F. simpl in F. rewrite decide_False in F by (intros [_ ?]; lia).
  enough (listed (delete p (objects s)) a = listed (objects s) a) by lia.
  unfold listed. destruct (decide (a = p)) as [-> |].
  - rewrite lookup_delete_eq, Ep. revert Hr. unfold refs, listed. rewrite Ep. destruct (contents o); lia.
  - by rewrite lookup_delete_ne.
Qed.

Lemma client_delete s p o a :
  objects s !! p = Some o -> refcount o = 0 -> refs s p <= 0 -> client (delete_at s p) a = client s a.
Proof.
  intros Ep Hc Hr. pose proof (refs_nonneg s p). unfold client. simpl. destruct (decide (a = p)) as [-> |].
  - rewrite lookup_delete_eq, Ep. lia.
  - rewrite lookup_delete_ne by done. destruct (objects s !! a); [| done].
    by rewrite (refs_delete s p o).
Qed.

Lemma kinv_delete s p o :
  kinv s -> objects s !! p = Some o -> refcount o = 0 -> (forall q, ~ lists s q p) ->
  kinv (delete_at s p).
Proof.
  intros I Ep Hc Hl. destruct (k_objects _ I p o Ep) as [_ _ _ [_ Hr] _ _ _ _]. rewrite Hc in Hr.
  assert (forall a drv, device_of s a drv -> a <> p -> device_of (delete_at s p) a drv) as Hdev.
  { intros a drv (x & Ex & Ec) Hne. exists x. simpl. by rewrite lookup_delete_ne. }
  split; [| apply (k_entries _ I) |].
  - simpl. intros a x [Hne Ex]%lookup_delete_Some. destruct (k_objects _ I a x Ex) as []. split; try done.
    + intros [Hn Hv]%o_hidden0. simpl. split; [apply lookup_delete_None; by right |].
      unfold isValidObject, type_at in *. simpl. rewrite lookup_delete_ne by congruence. done.
    + by rewrite (refs_delete s p o).
    + intros i ds Hi. destruct (o_devices0 i ds Hi) as [? Hd]. split; [done |].
      intros d Hd'. apply Hdev; [auto |]. intros <-. apply (Hl a). exists x, i, ds.
      split; [done |]. split; [done |]. by rewrite Z.sub_add.
    + intros drv Hv Hp. destruct (o_listed0 drv Hv Hp) as (q & -> & Hq). exists q. split; [done |].
      pose proof (listed_pos _ _ _ Hq). destruct Hq as (y & i & ds & Ey & Hy). exists y, i, ds.
      split; [| done]. simpl. rewrite lookup_delete_ne; [done |]. intros ->. lia.
    + intros d Hv Hn Hp. destruct (o_opened0 d Hv Hn Hp) as (q & drv & -> & Hq). exists q, drv.
      split; [done |]. apply Hdev; [done |]. intros ->. enough (1 <= refs s p) by lia.
      by apply (filed_pos s a x).
  - intros e He. simpl. destruct (k_named _ I e He) as [x Ex]. exists x. rewrite lookup_delete_ne; [done |].
    intros ->. pose proof (named_pos s e He). lia.
Qed.

(** The device list of a driver without the device at [p]. *)
Definition unlist (p : Z) (o : OBJECT) : OBJECT :=
  match contents o with
  | Driver i ds =>
      mkObject (type o) (alloc o) (refcount o) (h o) (Driver i (remove_first (p + sizeof_OBJECT) ds))
  | _ => o
  end.

Lemma remove_first_perm x l : x ∈ l -> l ≡ₚ x :: remove_first x l.
Proof.
  induction l as [| y l IH]; [by intros ?%not_elem_of_nil |]. simpl.
  destruct (Z.eqb_spec y x) as [-> | Hne]; [done |]. intros [-> | Hx]%elem_of_cons; [done |].
  rewrite IH at 1 by done. apply Permutation_swap.
Qed.

Lemma listed_unlist s p q o i ds :
  objects s !! q = Some o -> contents o = Driver i ds -> p + sizeof_OBJECT ∈ ds ->
  forall a, refs (put_at s q (unlist p o)) a = refs s a - one (a = q).
Proof.
  intros Eq Ec Hd a. unfold refs. simpl.
  pose proof (filed_insert (objects s) q (unlist p o) a) as F. rewrite Eq in F. simpl in F.
  unfold unlist in *. rewrite Ec in *. rewrite !decide_False in F
    by (unfold opens; simpl; rewrite ?Ec; naive_solver).
  assert (length ds = S (length (remove_first (p + sizeof_OBJECT) ds))) as Hlen
    by by rewrite (remove_first_perm _ _ Hd) at 1.
  unfold listed, one. case_decide as D.
  - subst. rewrite lookup_insert_eq, Eq, Ec. simpl. lia.
  - rewrite lookup_insert_ne by done. lia.
Qed.

Lemma kinv_unlist s p q o i ds op :
  kinv s -> objects s !! p = Some op -> refcount op = 0 ->
  objects s !! q = Some o -> contents o = Driver i ds -> p + sizeof_OBJECT ∈ ds ->
  let s' := put_at s q (unlist p o) in
  kinv s' /\ (forall a, client s' a = client s a + one (a = q)) /\ (forall q', ~ lists s' q' p).
Proof.
  intros I Ep H0c Eq Ec Hd s'. pose proof (listed_unlist s p q o i ds Eq Ec Hd) as R. fold s' in R.
  destruct (k_objects _ I q o Eq) as [_ _ _ _ _ Hds _ _]. destruct (Hds _ _ Ec) as [Hnd Hdev].
  pose proof (remove_first_perm _ _ Hd) as Hp. rewrite Hp in Hnd. apply NoDup_cons in Hnd as [Hni Hnd].
  assert (forall a x, objects s' !! a = Some x -> (a <> q /\ objects s !! a = Some x) \/ (a = q /\ x = unlist p o)) as L.
  { subst s'. simpl. intros a x. rewrite lookup_insert_Some. naive_solver. }
  assert (forall a drv, device_of s a drv -> device_of s' a drv) as Ldev.
  { intros a drv (x & Ex & Hx). exists x. split; [| done]. subst s'. simpl.
    rewrite lookup_insert_ne; [done |]. intros <-. congruence. }
  assert (type (unlist p o) = type o /\ refcount (unlist p o) = refcount o /\ h (unlist p o) = h o)
    as (Ut & Uc & Uh) by (unfold unlist; by rewrite Ec).
  assert (contents (unlist p o) = Driver i (remove_first (p + sizeof_OBJECT) ds)) as Uk
    by (unfold unlist; by rewrite Ec).
  split; [| split].
  - split; [| apply (k_entries _ I) |].
    + intros a x Hax. assert (exists y, objects s !! a = Some y /\ type x = type y /\ refcount x = refcount y /\
        h x = h y /\ (x = y \/ a = q /\ y = o /\ x = unlist p o)) as (y & Ey & Et & Ect & Eh & Hy).
      { destruct (L a x Hax) as [[_ ?] | [-> ->]]; [exists x | exists o]; repeat split; auto. }
      destruct (k_objects _ I a y Ey) as []. split.
      * done.
      * unfold well_typed in *. rewrite Et. destruct Hy as [-> | (-> & -> & ->)]; [done |].
        rewrite Uk. by rewrite Ec in *.
      * rewrite Et. intros [Hn Hv]%o_hidden0. split.
        -- subst s'. simpl. rewrite lookup_insert_ne; [done |]. congruence.
        -- subst s'. rewrite (valid_put s q o) by done. done.
      * rewrite R, Ect. pose proof (Z.le_refl 0). unfold one. case_decide; lia.
      * by rewrite Eh.
      * intros i' ds' Hi. destruct Hy as [-> | (-> & -> & ->)].
        -- destruct (o_devices0 _ _ Hi). split; auto.
        -- rewrite Uk in Hi. injection Hi as <- <-. split; [done |].
           intros d Hd'. apply Ldev, Hdev. rewrite Hp. by right.
      * intros drv Hv Hpos. assert (x = y) as -> by (destruct Hy as [| (_ & _ & ->)]; [done | congruence]).
        destruct (o_listed0 drv Hv Hpos) as (q1 & -> & (z & i1 & ds1 & Ez & Hz & Hin)). exists q1.
        split; [done |]. destruct (decide (q1 = q)) as [-> | Hne].
        -- assert (z = o) as -> by congruence. assert (ds1 = ds) as -> by congruence.
           exists (unlist p o), i, (remove_first (p + sizeof_OBJECT) ds).
           split; [apply lookup_insert_eq |]. split; [done |]. setoid_rewrite Hp in Hin.
           apply elem_of_cons in Hin as [Hin |]; [| done]. assert (a = p) as -> by lia.
           simplify_eq. lia.
        -- exists z, i1, ds1. split; [| done]. subst s'. simpl. by rewrite lookup_insert_ne.
      * intros d Hv Hn Hpos. assert (x = y) as -> by (destruct Hy as [| (_ & _ & ->)]; [done | congruence]).
        destruct (o_opened0 d Hv Hn Hpos) as (q1 & drv & -> & Hq). exists q1, drv. auto.
    + intros e He. destruct (k_named _ I e He) as [x Ex]. subst s'. simpl.
      destruct (decide (Object e = q)) as [-> |]; [by rewrite lookup_insert_eq | by rewrite lookup_insert_ne].
  - intros a. unfold client. rewrite R. subst s'. simpl. unfold one. case_decide as D.
    + subst. rewrite lookup_insert_eq, Eq. lia.
    + rewrite lookup_insert_ne by done. destruct (objects s !! a); lia.
  - intros q' (x & i1 & ds1 & Ex & Hx & Hin). destruct (L _ _ Ex) as [[Hne Ex'] | [-> ->]].
    + destruct (k_objects _ I q' x Ex') as [_ _ _ _ _ Hds' _ _]. destruct (Hds' _ _ Hx) as [_ Hdv].
      destruct (Hdv _ Hin) as (y & Ey & Hy). destruct (Hdev _ Hd) as (z & Ez & Hz).
      assert (q' + sizeof_OBJECT = q + sizeof_OBJECT) by congruence. lia.
    + rewrite Uk in Hx. injection Hx as <- <-. done.
Qed.
End invariant.
