(* ===== verification/ObjectsSpec.v ===== *)
(** * ObjectsSpec: what dereferencing and naming do to the counts *)

From S2P Require Import Prelude Strings Objects ObjectsInv.

Section spec.
Context `{Environment} `{Locale}.

(** ** Runs of the small steps *)

Lemma kbind {A B} (m : K A) (k : A -> K B) s a s' : m s = Ok (a, s') -> (m ≫= k) s = k a s'.
Proof. unfold mbind, M_bind. by intros ->. Qed.

Lemma object_at_run s p o : objects s !! p = Some o -> object_at p s = Ok (o, s).
Proof. unfold object_at. by intros ->. Qed.

Definition with_count (o : OBJECT) (n : Z) : OBJECT :=
  mkObject (type o) (alloc o) n (h o) (contents o).

Lemma similar_count o n : (0 < n -> 0 < refcount o) -> similar o (with_count o n).
Proof. intros. split; simpl; auto. by destruct (contents o). Qed.

Lemma decrement_run s p o :
  objects s !! p = Some o -> - 2 ^ 31 < refcount o < 2 ^ 31 ->
  InterlockedDecrement p s = Ok (refcount o - 1, put_at s p (with_count o (refcount o - 1))).
Proof.
  intros Ep Hc. unfold InterlockedDecrement. rewrite (kbind _ _ s o s) by by apply object_at_run.
  cbv zeta. by rewrite s32_id by lia.
Qed.

Lemma increment_run s p o :
  objects s !! p = Some o -> - 2 ^ 31 <= refcount o < 2 ^ 31 - 1 ->
  InterlockedIncrement p s = Ok (refcount o + 1, put_at s p (with_count o (refcount o + 1))).
Proof.
  intros Ep Hc. unfold InterlockedIncrement. rewrite (kbind _ _ s o s) by by apply object_at_run.
  cbv zeta. by rewrite s32_id by lia.
Qed.

Lemma public_valid t : is_public_type t = true -> (MinObjectType <? t) && (t <? MaxObjectType) = true.
Proof.
  unfold is_public_type. rewrite !orb_true_iff, !Z.eqb_eq. by intros [[-> | ->] | ->].
Qed.

Lemma valid_run s p o : kinv s -> objects s !! p = Some o -> is_public_type (type o) = true ->
  isValidObject s p = true /\ isPublicObject s p = true.
Proof.
  intros I Ep Hp. pose proof (o_address _ _ _ (k_objects _ I p o Ep)).
  pose proof (public_valid _ Hp) as Hv. unfold isValidObject, isPublicObject, type_at. rewrite Ep, Hp.
  destruct (Z.eqb_spec p 0); [lia |]. simpl. by rewrite Z.gtb_ltb, Hv.
Qed.

(** The pointer a driver has leads back to the header. *)
Lemma from_public_run s p o :
  kinv s -> objects s !! p = Some o -> is_public_type (type o) = true -> 0 < refcount o ->
  FromPointer (p + sizeof_OBJECT) s = Ok (p, s).
Proof.
  intros I Ep Hp Hc. destruct (valid_run _ _ _ I Ep Hp) as [Hv Hq].
  destruct (k_objects _ I p o Ep) as [Ha _ Hh _ _ _ _ _]. destruct (Hh Hp) as [Hn Hi].
  unfold FromPointer. rewrite Hi. unfold sizeof_OBJECT. destruct (Z.eqb_spec (p + 16) 0); [lia |]. simpl.
  rewrite Z.add_simpl_r. destruct (Z.eqb_spec p 0); [lia |]. rewrite Hv. simpl.
  rewrite (kbind _ _ s o s) by by apply object_at_run. rewrite Hq.
  destruct (Z.leb_spec (refcount o) 0); [lia |]. by rewrite andb_false_r.
Qed.

(** ** Removing names that are not there *)

Lemma entry_after_suffix pre e post :
  NoDup (addr <$> pre ++ e :: post) -> entry_after (Some (addr e)) (pre ++ e :: post) = Ok (head post).
Proof.
  induction pre as [| x pre IH]; simpl; intros Hn.
  - by rewrite Z.eqb_refl.
  - apply NoDup_cons in Hn as [Hx Hn]. destruct (Z.eqb_spec (addr x) (addr e)) as [E |].
    + destruct Hx. rewrite E. apply list_elem_of_fmap_2. apply elem_of_app. right. by left.
    + by apply IH.
Qed.

(** A link [pp] that stands before the entries [post]. *)
Definition stands (pp : option Z) (pre : list NAME) : Prop :=
  match pp with None => pre = [] | Some a => exists l e, pre = l ++ [e] /\ addr e = a end.

Lemma entry_after_stands pp pre post :
  NoDup (addr <$> pre ++ post) -> stands pp pre -> entry_after pp (pre ++ post) = Ok (head post).
Proof.
  destruct pp as [a |]; simpl; [intros Hn (l & e & -> & <-) | by intros _ ->].
  rewrite <- app_assoc in *. by apply entry_after_suffix.
Qed.

Lemma remove_loop_none free p post : forall s pre pp fuel,
  DdkNameList s = pre ++ post -> NoDup (addr <$> DdkNameList s) -> stands pp pre ->
  (forall e, e ∈ post -> Object e <> p) -> (length post <= fuel)%nat ->
  remove_loop fuel (fun e => mret (Object e =? p)) free pp s = Ok (tt, s).
Proof.
  induction post as [| e post IH]; intros s pre pp fuel E Hn Hp Hm Hf; rewrite E in Hn;
    pose proof (entry_after_stands _ _ _ Hn Hp) as Hr; rewrite <- E in *.
  - destruct fuel; simpl; (rewrite (kbind _ _ s None s) by (by rewrite Hr)); done.
  - destruct fuel as [| fuel]; simpl in Hf; [lia |]. simpl.
    rewrite (kbind _ _ s (Some e) s) by (by rewrite Hr).
    rewrite (kbind _ _ s false s); last first.
    { unfold mret, M_ret. repeat f_equal. apply Z.eqb_neq, Hm. by left. }
    apply (IH s (pre ++ [e])); [by rewrite <- app_assoc | done | by exists pre, e | | lia].
    intros x Hx. apply Hm. by right.
Qed.

Lemma remove_object_name_none free s p :
  kinv s -> refs s p <= 0 -> remove_object_name free p s = Ok (tt, s).
Proof.
  intros I Hr. unfold remove_object_name, remove_names.
  rewrite (kbind _ _ s (length (DdkNameList s)) s) by done.
  apply (remove_loop_none _ _ (DdkNameList s) s []); try done; [apply (k_entries _ I) |].
  intros e He <-. pose proof (named_pos s e He). lia.
Qed.

(** ** Freeing *)

(** The end of [DdkFreeObject], after what depends on the type. *)
Definition free_end (fuel : nat) (p : Z) : K unit :=
  _ ← close_handle p;
  _ ← remove_object_name (DdkFreeObject fuel) p;
  o ← object_at p;
  if alloc o then modify (fun s => log (Freed p) (set_objects (delete p (objects s)) s)) else mret tt.

(** What a call leaves as it was: the names, the interrupt level, the objects that have
    already lost their last reference, the types and the links; no list of devices
    and no count grows. *)
Record frames (s s' : kernel) (p : Z) : Prop := {
  f_names : DdkNameList s' = DdkNameList s;
  f_irql : CurrentIrql s' = CurrentIrql s;
  f_dead : forall a o, a <> p -> objects s !! a = Some o -> refcount o = 0 -> objects s' !! a = Some o;
  f_types : forall a o', objects s' !! a = Some o' ->
    exists o, objects s !! a = Some o /\ type o' = type o /\ alloc o' = alloc o /\ refcount o' <= refcount o;
  f_lists : forall q a, lists s' q a -> lists s q a;
  f_links : forall a o' d e, objects s' !! a = Some o' -> contents o' = Symlink d e ->
    exists o, objects s !! a = Some o /\ contents o = Symlink d e
}.

(** An allocated object that has lost its last reference and is still there. *)
Definition dead (s : kernel) (a : Z) : Prop :=
  exists o, objects s !! a = Some o /\ alloc o = true /\ refcount o = 0.

Lemma dead_put s p o a :
  dead (put_at s p o) a -> (alloc o = true -> refcount o = 0 -> dead s p) -> dead s a.
Proof.
  intros (x & Ex & Hx) Ho. simpl in Ex. apply lookup_insert_Some in Ex as [[<- <-] | [_ Ex]].
  - destruct Hx. by apply Ho.
  - by exists x.
Qed.

Lemma close_handle_run s p o :
  kinv s -> objects s !! p = Some o -> 
  exists s', close_handle p s = Ok (tt, s') /\ kinv s' /\ 
    objects s' = <[p := mkObject (type o) (alloc o) (refcount o) 0 (contents o)]> (objects s) /\
    (forall a, client s' a = client s a) /\ DdkNameList s' = DdkNameList s /\ CurrentIrql s' = CurrentIrql s /\
    (forall a, refs s' a = refs s a).
Proof.
  intros I Ep. unfold close_handle. rewrite (kbind _ _ s o s) by by apply object_at_run.
  destruct (k_objects _ I p o Ep) as [_ _ _ [Hc Hr] Hh _ _ _].
  set (o' := mkObject _ _ _ _ _).
  assert (similar o o') as S by (split; simpl; auto; by destruct (contents o)).
  destruct (Z.eqb_spec (h o) 0) as [E0 | E0].
  - exists s. split; [done |]. split; [done |]. split; [| done].
    rewrite insert_id; [done |]. rewrite Ep. unfold o'. rewrite <- E0. by destruct o.
  - rewrite (kbind _ _ s tt s); last first.
    { unfold ddkassertM, ddkassert, lift. destruct (Z.eqb_spec (h o) GetCurrentProcess); [by destruct (Hh E0) | done]. }
    exists (put_at (log (CloseHandle (h o)) s) p o').
    split; [done |]. split; [by apply (kinv_put _ p o); [apply kinv_log | | | |] |].
    split; [done |].
    assert (forall a, ~ (opens a o /\ ~ opens a o')) as Hop by (intros a [[? ?] Hn]; by apply Hn).
    split; [| split; [done |]; split; [done |]]; intros a.
    + change (client s a) with (client (log (CloseHandle (h o)) s) a).
      rewrite (client_put _ p o) by done. rewrite one_no by apply Hop. simpl. destruct (decide _), (objects s !! a); simpl; lia.
    + change (refs s a) with (refs (log (CloseHandle (h o)) s) a).
      rewrite (refs_put _ p o) by done. rewrite one_no by apply Hop. lia.
Qed.

Lemma frames_trans s s1 s2 p q :
  frames s s1 p -> frames s1 s2 q ->
  (forall o, objects s !! q = Some o -> refcount o = 0 -> q = p) -> frames s s2 p.
Proof.
  intros [] [] Hq. split; [congruence | congruence | | | |].
  - intros a o Ha Eo Hc. apply f_dead1; [| auto | done]. intros ->. by destruct Ha; apply (Hq o).
  - intros a o2 (o1 & Eo & -> & -> & ?)%f_types1. destruct (f_types0 a o1 Eo) as (o & ? & ? & ? & ?).
    exists o. repeat split; [done | done | done | lia].
  - auto.
  - intros a o2 d e E2 H2. destruct (f_links1 a o2 d e E2 H2) as (o1 & E1 & H1). eauto.
Qed.

Lemma client_log e s a : client (log e s) a = client s a.
Proof. done. Qed.

Lemma frames_refl s p : frames s s p.
Proof. split; try done; [intros a o | intros a o d e]; by exists o. Qed.

Lemma frames_put s p o o' :
  objects s !! p = Some o -> type o' = type o -> alloc o' = alloc o -> refcount o' <= refcount o ->
  (forall i ds', contents o' = Driver i ds' -> exists ds, contents o = Driver i ds /\ ds' ⊆ ds) ->
  (forall d e, contents o' = Symlink d e -> contents o = Symlink d e) ->
  frames s (put_at s p o') p.
Proof.
  intros Ep Et Ht Hc Hs Hk. split; [done | done | intros a x | intros a x
    | intros q a (x & i & ds & Ex & Hx & Hin) | intros a x d e]; simpl.
  - intros. by rewrite lookup_insert_ne.
  - destruct (decide (a = p)) as [-> |]; [| rewrite lookup_insert_ne by done; by exists x].
    rewrite lookup_insert_eq. intros [= <-]. by exists o.
  - simpl in Ex. apply lookup_insert_Some in Ex as [[<- <-] | [_ Ex]]; [| by exists x, i, ds].
    destruct (Hs _ _ Hx) as (ds0 & ? & Hsub). exists o, i, ds0. by auto.
  - intros Ex Hx. apply lookup_insert_Some in Ex as [[<- <-] | [_ Ex]]; [exists o; auto | by exists x].
Qed.

Lemma frames_similar s p o o' :
  objects s !! p = Some o -> similar o o' -> refcount o' <= refcount o ->
  (forall d e, contents o' = Symlink d e -> contents o = Symlink d e) -> frames s (put_at s p o') p.
Proof.
  intros Ep S Hc Hk. apply (frames_put s p o); [done | apply S | apply S | done | | done]. intros i ds Hd.
  exists ds. split; [by apply (shape_rest _ _ (s_shape _ _ S)) | done].
Qed.

(** A change to a living object frames every other. *)
Lemma frames_alive s s' q p :
  frames s s' q -> (forall o, objects s !! q = Some o -> refcount o <> 0) -> frames s s' p.
Proof.
  intros [] Hq. split; try done. intros a o _ Eo Hc. apply f_dead0; [| done | done].
  intros ->. by apply (Hq o).
Qed.

Lemma frames_log s e p : frames s (log e s) p.
Proof. split; simpl; try done; [intros a o | intros a o d' e']; by exists o. Qed.

Lemma free_end_run n s p o :
  kinv s -> objects s !! p = Some o -> refcount o = 0 -> (forall q, ~ lists s q p) ->
  exists s', free_end n p s = Ok (tt, s') /\ kinv s' /\ frames s s' p /\
    (forall a, dead s' a -> dead s a /\ a <> p) /\ forall a, client s' a = client s a.
Proof.
  intros I Ep H0c Hl. pose proof (o_count _ _ _ (k_objects _ I p o Ep)) as [_ Hr].
  destruct (close_handle_run s p o I Ep) as (s1 & E1 & I1 & Eo & Hcl & En & Ei & Er).
  unfold free_end. rewrite (kbind _ _ s tt s1) by done.
  rewrite (kbind _ _ s1 tt s1) by (apply remove_object_name_none; [done | rewrite Er; lia]).
  set (o' := mkObject _ _ _ _ _) in Eo. assert (objects s1 !! p = Some o') as Ep1
    by (rewrite Eo; apply lookup_insert_eq).
  rewrite (kbind _ _ s1 o' s1) by by apply object_at_run. simpl.
  assert (frames s s1 p) as F1.
  { assert (similar o o') as S by (split; simpl; auto; by destruct (contents o)).
    pose proof (frames_similar s p o o' Ep S ltac:(done) ltac:(done)) as [].
    split; [done | done | by rewrite Eo | by rewrite Eo | | by rewrite Eo]. intros q a Hq.
    apply f_lists0. unfold lists in *. by rewrite Eo in Hq. }
  assert (forall a, dead s1 a -> a <> p -> dead s a) as D1.
  { intros a (x & Ex & Hx) Hne. rewrite Eo, lookup_insert_ne in Ex by done. by exists x. }
  destruct (alloc o) eqn:Ea; last first.
  { exists s1. split; [done |]. split; [done |]. split; [done |]. split; [| done].
    intros a Hd. assert (a <> p) as Hne; [| by split; [apply D1 |]]. intros ->.
    destruct Hd as (x & Ex & Hx & _). simplify_eq. }
  assert (forall q, ~ lists s1 q p) as Hl1.
  { intros q (x & i & ds & Ex & Hx). rewrite Eo in Ex. apply lookup_insert_Some in Ex as [[<- <-] | [Hq Ex]].
    - apply (Hl p). exists o, i, ds. by destruct Hx.
    - apply (Hl q). by exists x, i, ds. }
  exists (log (Freed p) (delete_at s1 p)). split; [done |].
  split; [apply kinv_log; by apply (kinv_delete s1 p o') |]. split.
  - apply (frames_trans _ (delete_at s1 p) _ _ p); [| apply frames_log | done].
    destruct F1. split; [done | done | | | |]; simpl; intros a x.
    + intros. rewrite lookup_delete_ne; auto.
    + intros [_ Ex]%lookup_delete_Some. auto.
    + intros (y & i & ds & Ey & Hy). simpl in Ey. apply lookup_delete_Some in Ey as [_ Ey].
      apply f_lists0. by exists y, i, ds.
    + intros d e [_ Ex]%lookup_delete_Some. eauto.
  - split; [| intros a; rewrite <- Hcl; by apply (client_delete s1 p o'); [| | rewrite Er; lia]].
    intros a (x & Ex & Hx). simpl in Ex. apply lookup_delete_Some in Ex as [Hne Ex].
    split; [| done]. apply D1; [by exists x | done].
Qed.

(** A file holds its device. *)
Definition held (o : OBJECT) (a : Z) : Prop :=
  contents o = File (a + sizeof_OBJECT) /\ a + sizeof_OBJECT <> 0.

#[local] Instance held_dec o a : Decision (held o a).
Proof. unfold held. apply _. Defined.

(** What [DdkFreeObject] has to do for a call to [DdkDereferenceObject] to be the
    loss of one reference. *)
Definition frees (n : nat) (s : kernel) (p : Z) (o : OBJECT) : Prop :=
  exists s', DdkFreeObject n p s = Ok (tt, s') /\ kinv s' /\ frames s s' p /\
    (forall a, dead s' a -> dead s a /\ a <> p) /\ forall a, client s' a = client s a - one (held o a).

Definition drops (n : nat) (s : kernel) (p : Z) : Prop :=
  exists s', dereference (DdkFreeObject n) p s = Ok (tt, s') /\ kinv s' /\ frames s s' p /\
    (forall a, dead s' a -> dead s a) /\ forall a, client s' a = client s a - one (a = p).

Lemma drop_from_free n s p o :
  kinv s -> objects s !! p = Some o -> 1 <= client s p ->
  (let s1 := put_at s p (with_count o 0) in
   kinv s1 -> refcount o = 1 -> (forall a, client s1 a = client s a - one (a = p) + one (held o a)) ->
   frees n s1 p o) ->
  drops n s p.
Proof.
  intros I Ep Hcl Hfree. destruct (client_pos s p Hcl) as (? & ? & Hr). simplify_eq.
  pose proof (refs_nonneg s p). destruct (k_objects _ I p o Ep) as [_ _ _ [Hc _] _ _ _ Hop].
  set (n1 := refcount o - 1). assert (similar o (with_count o n1)) as S by (apply similar_count; lia).
  assert (kinv (put_at s p (with_count o n1))) as I1
    by (apply (kinv_put s p o); simpl; try done; lia).
  assert (forall a, client (put_at s p (with_count o n1)) a =
    client s a - one (a = p) + (if n1 =? 0 then one (held o a) else 0)) as Hcl1.
  { intros a. rewrite (client_put s p o) by done. simpl. 
    enough (match objects s !! a with Some _ => one (opens a o /\ ~ opens a (with_count o n1)) | None => 0 end =
      (if n1 =? 0 then one (held o a) else 0)) as -> by (unfold one; repeat case_decide; lia).
    unfold opens, held. simpl. destruct (Z.eqb_spec n1 0) as [-> | Hn].
    - destruct (objects s !! a) as [x |] eqn:Ea.
      + pose proof (o_address _ _ _ (k_objects _ I a x Ea)). unfold one.
        assert ((contents o = File (a + sizeof_OBJECT) /\ 0 < refcount o) /\
          ~ (contents o = File (a + sizeof_OBJECT) /\ 0 < 0) <->
          contents o = File (a + sizeof_OBJECT) /\ a + sizeof_OBJECT <> 0) as Hiff.
        { unfold sizeof_OBJECT. split; [intros [[? ?] _] | intros [? ?]]; repeat split; try done; lia. }
        repeat case_decide; tauto.
      + rewrite one_no; [done |]. intros [E Hd]. destruct (Hop _ E Hd) as (q & drv & Eq & (x & Ex & _)); [lia |].
        assert (q = a) as -> by lia. congruence.
    - destruct (objects s !! a); [| done]. apply one_no. intros [[? ?] Hx]. apply Hx. split; [done | lia]. }
  unfold drops, dereference. rewrite (kbind _ _ s n1 _) by by (apply decrement_run; [done | lia]).
  destruct (Z.eqb_spec n1 0) as [E0 | E0].
  - fold n1 in Hfree. destruct Hfree as (s' & E' & I' & F' & D' & C'); rewrite <- ?E0; try done; [lia |].
    rewrite <- E0 in *. exists s'. split; [done |]. split; [done |]. split.
    + apply (frames_trans _ (put_at s p (with_count o n1)) _ _ p); [apply (frames_similar _ _ o); simpl; (done || lia) | done | done].
    + split; [| intros a; rewrite C', Hcl1; lia]. intros a [(x & Ex & Hx) Hne]%D'.
      simpl in Ex. rewrite lookup_insert_ne in Ex by done. by exists x.
  - exists (put_at s p (with_count o n1)). split; [done |]. split; [done |]. split.
    + apply (frames_similar _ _ o); simpl; (done || lia).
    + split; [| intros a; rewrite Hcl1; lia]. intros a Ha. by apply (dead_put _ _ _ _ Ha).
Qed.

(** The part of [DdkFreeObject] that depends on the type. *)
Definition free_type (n : nat) (o : OBJECT) (p : Z) : K unit :=
  if type o =? IoFileType then DdkFreeFileObject (DdkFreeObject n) p
  else if type o =? IoDriverType then DdkFreeDriverObject p
  else if type o =? IoDeviceType then DdkFreeDeviceObject (DdkFreeObject n) p
  else if type o =? KeyType then DdkFreeKeyObject p
  else mret tt.

Lemma free_type_device n o p :
  type o = IoDeviceType -> free_type n o p = DdkFreeDeviceObject (DdkFreeObject n) p.
Proof. unfold free_type. by intros ->. Qed.

Lemma free_type_file n o p :
  type o = IoFileType -> free_type n o p = DdkFreeFileObject (DdkFreeObject n) p.
Proof. unfold free_type. by intros ->. Qed.

Lemma free_unfold n s p o : objects s !! p = Some o ->
  DdkFreeObject (S n) p s = (free_type n o p ≫= (fun _ => free_end n p)) s.
Proof. intros Ep. simpl. by rewrite (kbind _ _ s o s) by by apply object_at_run. Qed.

(** A dead object that no driver lists, once its type has been dealt with. *)
Lemma free_after n s p o s1 o1 :
  objects s !! p = Some o -> free_type n o p s = Ok (tt, s1) -> 
  kinv s1 -> frames s s1 p -> objects s1 !! p = Some o1 -> refcount o1 = 0 ->
  (forall q, ~ lists s1 q p) -> (forall a, dead s1 a -> dead s a) ->
  (forall a, client s1 a = client s a - one (held o a)) -> frees (S n) s p o.
Proof.
  intros Ep E1 I1 F1 Ep1 Hc Hl D1 C1.
  destruct (free_end_run n s1 p o1 I1 Ep1 Hc Hl) as (s' & E' & I' & F' & D' & C').
  exists s'. split; [rewrite (free_unfold n s p o Ep); by rewrite (kbind _ _ s tt s1) |].
  split; [done |]. split; [by apply (frames_trans _ s1 _ _ p) |].
  split; [intros a [? ?]%D'; auto |]. intros a. by rewrite C', C1.
Qed.

Definition level (o : OBJECT) : nat :=
  match contents o with File _ => 2 | Device _ => 1 | _ => 0 end.

Lemma not_listed s p o q : kinv s -> objects s !! p = Some o -> level o <> 1%nat -> ~ lists s q p.
Proof.
  intros I Ep Hv (x & i & ds & Ex & Hx & Hin). destruct (k_objects _ I q x Ex) as [_ _ _ _ _ Hd _ _].
  destruct (Hd _ _ Hx) as [_ Hd']. destruct (Hd' _ Hin) as (y & Ey & Hy).
  rewrite Z.add_simpl_r in Ey. simplify_eq. unfold level in Hv. by rewrite Hy in Hv.
Qed.

Lemma free_plain n s p o :
  kinv s -> objects s !! p = Some o -> refcount o = 0 -> level o = 0%nat -> frees (S n) s p o.
Proof.
  intros I Ep Hc Hv. destruct (k_objects _ I p o Ep) as [Ha Ht _ [Hcn Hrn] _ _ _ _].
  assert (forall a, one (held o a) = 0) as Hh.
  { intros a. apply one_no. intros [E _]. unfold level in Hv. by rewrite E in Hv. }
  pose proof (fun q => not_listed s p o q I Ep ltac:(lia)) as Hl.
  unfold well_typed, level in *. destruct (contents o) as [| | i ds | | | k] eqn:Ec; try done.
  - apply (free_after n s p o s o); try done; [| apply frames_refl | intros; rewrite Hh; lia].
    unfold free_type. destruct Ht as (Hp & Hk & _). unfold is_public_type in Hp.
    apply Z.eqb_neq in Hk as ->. by repeat destruct (_ =? _).
  - assert (free_type n o p s = Ok (tt, if i =? 0 then s else log (DdkUnloadImage i) s)) as Ef.
    { unfold free_type. rewrite Ht. simpl. unfold DdkFreeDriverObject, GetDriver.
      destruct (Z.eqb_spec p 0); [lia |]. rewrite (kbind _ _ s p s); last first.
      { rewrite (kbind _ _ s o s) by by apply object_at_run. by rewrite Ht. }
      rewrite (kbind _ _ s (i, ds) s); last first.
      { unfold driver_body. rewrite (kbind _ _ s o s) by by apply object_at_run. by rewrite Ec. }
      by destruct (i =? 0). }
    destruct (i =? 0); [apply (free_after n s p o s o) | apply (free_after n s p o _ o Ep Ef)]; try done;
      try (by apply kinv_log); try apply frames_log; try apply frames_refl; intros; rewrite Hh, ?client_log; lia.
  - apply (free_after n s p o s o); try done; [| apply frames_refl | intros; rewrite Hh; lia].
    unfold free_type. by rewrite Ht.
  - set (s1 := if negb (k =? 0) && negb (k =? hive) then log (RegCloseKey k) s else s).
    set (o1 := mkObject (type o) (alloc o) (refcount o) (h o) (Key 0)).
    assert (free_type n o p s = Ok (tt, put_at s1 p o1)) as Ef.
    { unfold free_type. rewrite Ht. simpl. unfold DdkFreeKeyObject.
      rewrite (kbind _ _ s o s) by by apply object_at_run. rewrite Ec.
      unfold s1. by destruct (negb (k =? 0) && negb (k =? hive)). }
    assert (kinv s1 /\ objects s1 = objects s /\ frames s s1 p) as (I1 & E1 & F1).
    { unfold s1. case_match; [split; [by apply kinv_log | split; [done | apply frames_log]] |].
      split; [done |]. split; [done | apply frames_refl]. }
    assert (similar o o1) as S by (split; simpl; auto; by rewrite Ec).
    assert (objects s1 !! p = Some o) as Ep1 by by rewrite E1.
    assert (forall a, client (put_at s1 p o1) a = client s a) as C1.
    { intros a. rewrite (client_put s1 p o) by done. rewrite one_no.
      - assert (client s1 a = client s a) as -> by (unfold s1; by case_match).
        simpl. destruct (decide _), (objects s1 !! a); lia.
      - intros [[Hx _] _]. congruence. }
    apply (free_after n s p o (put_at s1 p o1) o1); try done.
    + apply (kinv_put s1 p o); try done. unfold s1. by destruct (negb (k =? 0) && negb (k =? hive)).
    + apply (frames_trans _ s1 _ _ p); [done | by apply (frames_similar _ _ o) | done].
    + simpl. apply lookup_insert_eq.
    + intros q. apply (not_listed _ p o1); [| by simpl; apply lookup_insert_eq | done].
      apply (kinv_put s1 p o); try done. unfold s1. by destruct (negb (k =? 0) && negb (k =? hive)).
    + intros a Hd. assert (dead s1 a -> dead s a) as Hd1 by (unfold dead; by rewrite E1). apply Hd1.
      apply (dead_put _ _ _ _ Hd). intros Hal _. by exists o.
    + intros a. rewrite C1, Hh. lia.
Qed.

Lemma drop_plain n s p o :
  kinv s -> objects s !! p = Some o -> 1 <= client s p -> level o = 0%nat -> drops (S n) s p.
Proof.
  intros I Ep Hc Hv. apply (drop_from_free _ s p o); try done. intros s1 I1 Hr C1.
  destruct (free_plain n s1 p (with_count o 0)) as (s' & ? & ? & ? & ? & C'); try done.
  { subst s1. simpl. apply lookup_insert_eq. }
  exists s'. done.
Qed.

Lemma client_nonneg s p : kinv s -> 0 <= client s p.
Proof.
  intros I. unfold client. destruct (objects s !! p) as [o |] eqn:Ep; [| lia].
  pose proof (o_count _ _ _ (k_objects _ I p o Ep)). lia.
Qed.

(** [DdkRemoveDevice] in the state a device is freed in. *)
Lemma remove_device_run n s p op q o i ds :
  kinv s -> objects s !! p = Some op -> refcount op = 0 -> objects s !! q = Some o ->
  contents o = Driver i ds -> p + sizeof_OBJECT ∈ ds ->
  let s1 := put_at s q (unlist p o) in
  DdkRemoveDevice (DdkFreeObject n) (q + sizeof_OBJECT) (p + sizeof_OBJECT) s =
    dereference (DdkFreeObject n) q s1.
Proof.
  intros I Ep Hc Eq Ec Hin s1. destruct (k_objects _ I q o Eq) as [Ha Ht _ [_ Hr] _ _ _ _].
  unfold well_typed in Ht. rewrite Ec in Ht.
  assert (1 <= refs s q) by (apply (listed_pos s q p); by exists o, i, ds).
  unfold DdkRemoveDevice. rewrite (kbind _ _ s q s); last first.
  { apply (from_public_run s q o); try done; [by rewrite Ht | lia]. }
  rewrite (kbind _ _ s q s); last first.
  { unfold GetDriver. destruct (Z.eqb_spec q 0); [lia |].
    rewrite (kbind _ _ s o s) by by apply object_at_run. by rewrite Ht. }
  rewrite (kbind _ _ s (i, ds) s); last first.
  { unfold driver_body. rewrite (kbind _ _ s o s) by by apply object_at_run. by rewrite Ec. }
  assert (existsb (Z.eqb (p + sizeof_OBJECT)) ds = true) as ->.
  { apply existsb_exists. exists (p + sizeof_OBJECT). split; [by apply list_elem_of_In | apply Z.eqb_refl]. }
  rewrite (kbind _ _ s tt s1); [done |].
  unfold set_devices. rewrite (kbind _ _ s o s) by by apply object_at_run. rewrite Ec.
  unfold s1, put_at, unlist. by rewrite Ec.
Qed.

Lemma free_device n s p o q :
  kinv s -> objects s !! p = Some o -> refcount o = 0 -> contents o = Device (q + sizeof_OBJECT) ->
  lists s q p -> frees (S (S n)) s p o.
Proof.
  intros I Ep Hc Ec (oq & i & ds & Eq & Eqc & Hin).
  destruct (kinv_unlist s p q oq i ds o I Ep Hc Eq Eqc Hin) as (I1 & C1 & Hl1).
  pose proof (remove_device_run (S n) s p o q oq i ds I Ep Hc Eq Eqc Hin) as Er. cbv zeta in Er.
  set (s1 := put_at s q (unlist p oq)) in *.
  assert (p <> q) as Hpq by (intros ->; congruence).
  destruct (drop_plain n s1 q (unlist p oq)) as (s2 & E2 & I2 & F2 & D2 & C2).
  - done.
  - simpl. apply lookup_insert_eq.
  - rewrite C1, one_yes by done. pose proof (client_nonneg s q I). lia.
  - unfold level, unlist. by rewrite Eqc.
  - pose proof (o_typed _ _ _ (k_objects _ I p o Ep)) as Ht. unfold well_typed in Ht. rewrite Ec in Ht.
    assert (1 <= refs s q) by (apply (listed_pos s q p); by exists oq, i, ds).
    pose proof (o_count _ _ _ (k_objects _ I q oq Eq)) as [_ Hq].
    assert (frames s s1 p) as F1.
    { apply (frames_alive _ _ q); [| intros; simplify_eq; lia]. apply (frames_put _ _ oq); [done | | | | |];
        unfold unlist; rewrite Eqc; simpl; [done | done | done | | done]. intros ? ? [= <- <-]. exists ds.
      split; [done |]. intros x Hx. rewrite (remove_first_perm _ _ Hin). by right. }
    assert (objects s1 !! p = Some o) as Ep1 by (simpl; by rewrite lookup_insert_ne).
    apply (free_after (S n) s p o s2 o); try done.
    + rewrite free_type_device by done. unfold DdkFreeDeviceObject.
      rewrite (kbind _ _ s o s) by by apply object_at_run.
      rewrite (kbind _ _ s (p + sizeof_OBJECT) s); last first.
      { unfold ToPointer. destruct (valid_run s p o) as [_ ->]; [done | done | by rewrite Ht | done]. }
      by rewrite Ec, Er.
    + apply (frames_trans _ s1 _ _ q); [done | done |]. intros x Ex Hx. simplify_eq. lia.
    + by apply (f_dead _ _ _ F2).
    + intros q' Hq'. by apply (Hl1 q'), (f_lists _ _ _ F2).
    + intros a Hd%D2. apply (dead_put _ _ _ _ Hd). unfold unlist. rewrite Eqc. simpl. lia.
    + intros a. rewrite C2, C1, (one_no (held o a)) by (intros [? _]; congruence). lia.
Qed.

Lemma drop_device n s p o :
  kinv s -> objects s !! p = Some o -> 1 <= client s p -> level o = 1%nat -> drops (S (S n)) s p.
Proof.
  intros I Ep Hc Hv. apply (drop_from_free _ s p o); try done. intros s1 I1 Hr C1.
  unfold level in Hv. destruct (contents o) as [| | | drv | |] eqn:Ec; try done.
  destruct (o_listed _ _ _ (k_objects _ I p o Ep) drv Ec) as (q & -> & Hq); [lia |].
  destruct (free_device n s1 p (with_count o 0) q) as (s' & ? & ? & ? & ? & C'); try done.
  - subst s1. simpl. apply lookup_insert_eq.
  - subst s1. apply (lists_put _ _ o); [done | apply similar_count; lia | done].
  - exists s'. done.
Qed.

Lemma drop_file n s p o :
  kinv s -> objects s !! p = Some o -> 1 <= client s p -> level o = 2%nat -> drops (S (S (S n))) s p.
Proof.
  intros I Ep Hcl Hv. apply (drop_from_free _ s p o); try done. intros s1 I1 Hr C1.
  pose proof (client_pos s p Hcl) as (? & ? & Hrp). simplify_eq.
  unfold level in Hv. destruct (contents o) as [| d | | | |] eqn:Ec; try done.
  destruct (k_objects _ I p o Ep) as [Ha Ht _ _ _ _ _ Hop]. unfold well_typed in Ht. rewrite Ec in Ht.
  assert (objects s1 !! p = Some (with_count o 0)) as Ep1 by (subst s1; simpl; apply lookup_insert_eq).
  assert (forall q, ~ lists s1 q p) as Hl by (intros q; apply (not_listed s1 p _ q I1 Ep1); by unfold level; simpl; rewrite Ec).
  unfold frees. destruct (Z.eqb_spec d 0) as [-> | Hd].
  - apply (free_after _ s1 p (with_count o 0) s1 (with_count o 0)); try done; [| apply frames_refl |].
    + rewrite free_type_file by done. unfold DdkFreeFileObject.
      rewrite (kbind _ _ s1 (with_count o 0) s1) by by apply object_at_run. simpl. by rewrite Ec.
    + intros a. rewrite one_no; [lia |]. intros [E Hn]. unfold with_count in E. simpl in E. congruence.
  - destruct (Hop d Ec Hd) as (q & drv & -> & (oq & Eq & Eqc)); [lia |].
    assert (q <> p) as Hqp by (intros ->; congruence).
    assert (objects s1 !! q = Some oq) as Eq1 by (subst s1; simpl; by rewrite lookup_insert_ne).
    assert (held o q) as Hh by done.
    assert (1 <= client s1 q) as Hcq.
    { rewrite C1, (one_no (q = p)), one_yes by done. pose proof (client_nonneg s q I). lia. }
    pose proof (client_pos s1 q Hcq) as (? & ? & Hq). pose proof (refs_nonneg s1 q). simplify_eq.
    destruct (drop_device n s1 q oq I1 Eq1 Hcq) as (s2 & E2 & I2 & F2 & D2 & C2); [by unfold level; rewrite Eqc |].
    pose proof (o_typed _ _ _ (k_objects _ I q oq Eq)) as Htq. unfold well_typed in Htq. rewrite Eqc in Htq.
    apply (free_after _ s1 p (with_count o 0) s2 (with_count o 0)); try done.
    + rewrite free_type_file by done. unfold DdkFreeFileObject.
      rewrite (kbind _ _ s1 (with_count o 0) s1) by by apply object_at_run. unfold with_count at 1.
      cbn [contents]. rewrite Ec. destruct (Z.eqb_spec (q + sizeof_OBJECT) 0); [done |].
      rewrite (kbind _ _ s1 q s1); [done |].
      apply (from_public_run s1 q oq); try done; [by rewrite Htq | lia].
    + apply (frames_alive _ _ q); [done |]. intros x Ex. simplify_eq. lia.
    + by apply (f_dead _ _ _ F2).
    + intros q' Hq'. by apply (Hl q'), (f_lists _ _ _ F2).
    + intros a. rewrite C2. f_equal. assert (held (with_count o 0) a <-> a = q) as Hiff.
      { split; [intros [E _] | by intros ->]. simpl in E.
        assert (q + sizeof_OBJECT = a + sizeof_OBJECT) by congruence. lia. }
      unfold one. repeat case_decide; tauto.
Qed.

(** Dropping a reference that a client holds drops that one and no other, whatever
    it frees. *)
Lemma drop_object s p : kinv s -> 1 <= client s p -> drops free_depth s p.
Proof.
  intros I Hc. destruct (client_pos s p Hc) as (o & Ep & _).
  destruct (level o) as [| [| [|]]] eqn:Ev.
  - by apply (drop_plain 2 s p o).
  - by apply (drop_device 1 s p o).
  - by apply (drop_file 0 s p o).
  - unfold level in Ev. by destruct (contents o).
Qed.
End spec.
