(* ===== verification/NamesSpec.v ===== *)
(** * NamesSpec: objects and names keep their accounts

    Each operation of Objects and Names, by what it does to the references that
    clients hold, from any state in which [kinv] holds. *)

From S2P Require Import Prelude Strings StringsOps StringsSpec Objects Names NamesPath.
From S2P Require Import ObjectsInv ObjectsSpec.

(** The name space: an association list from texts to objects, newest first, that
    stands for the list of entries. *)
Abbreviation directory := (list (list Z * Z)).

Section spec.
Context `{Environment} `{Locale}.

(** ** Taking an entry out of the list *)

Lemma named_middle pre e post a :
  Z.of_nat (named (pre ++ e :: post) a) = Z.of_nat (named (pre ++ post) a) + one (a = Object e).
Proof.
  unfold named, one. rewrite !filter_app, !length_app, filter_cons.
  repeat case_decide; subst; try done; simpl; lia.
Qed.

Lemma refs_names s n a :
  refs (set_names n s) a = refs s a + Z.of_nat (named n a) - Z.of_nat (named (DdkNameList s) a).
Proof. unfold refs. simpl. lia. Qed.

Lemma kinv_names s n :
  kinv s -> NoDup (addr <$> n) -> (forall e, e ∈ n -> is_Some (objects s !! Object e)) ->
  (forall p o, objects s !! p = Some o -> refs (set_names n s) p <= refcount o) ->
  kinv (set_names n s).
Proof.
  intros I Hn He Hr. split; [| done | done]. simpl. intros p o Ep.
  destruct (k_objects _ I p o Ep) as []. split; try done. destruct o_count. by split; auto.
Qed.

Lemma unname s pre e post :
  kinv s -> DdkNameList s = pre ++ e :: post ->
  let s1 := set_names (pre ++ post) s in
  kinv s1 /\ forall a, client s1 a = client s a + one (a = Object e).
Proof.
  intros I E s1. assert (forall a, refs s1 a = refs s a - one (a = Object e)) as R.
  { intros a. unfold s1. rewrite refs_names, E, named_middle. lia. }
  split.
  - apply kinv_names; [done | | |].
    + pose proof (k_entries _ I) as Hn. rewrite E, fmap_app, fmap_cons in Hn. rewrite fmap_app.
      rewrite <- Permutation_middle in Hn. by apply NoDup_cons in Hn as [_ Hn].
    + intros x Hx. apply (k_named _ I). rewrite E. apply elem_of_app in Hx.
      apply elem_of_app. rewrite elem_of_cons. tauto.
    + intros p o Ep. fold s1. rewrite R. pose proof (o_count _ _ _ (k_objects _ I p o Ep)).
      unfold one. case_decide; lia.
  - intros a. unfold client. rewrite R. simpl. destruct (objects s !! a) eqn:Ea; [lia |].
    rewrite one_no; [done |]. intros ->. destruct (k_named _ I e); [| congruence].
    rewrite E. apply elem_of_app. right. by left.
Qed.

Lemma filter_id {A} (P : A -> Prop) `{forall x, Decision (P x)} (l : list A) :
  (forall x, x ∈ l -> P x) -> filter P l = l.
Proof.
  induction l as [| x l IH]; [done |]. intros Hl. rewrite filter_cons_True by (apply Hl; by left).
  f_equal. apply IH. intros y Hy. apply Hl. by right.
Qed.

Lemma remove_addr pre e post :
  NoDup (addr <$> pre ++ e :: post) ->
  filter (fun x => addr x <> addr e) (pre ++ e :: post) = pre ++ post.
Proof.
  intros Hn. rewrite fmap_app, fmap_cons in Hn. apply NoDup_app in Hn as (_ & Hpre & Hp).
  apply NoDup_cons in Hp as [He Hp]. rewrite filter_app, filter_cons_False by auto.
  f_equal; apply filter_id; intros x Hx Heq.
  - apply (Hpre (addr x)); [by apply list_elem_of_fmap_2 |]. rewrite Heq. by left.
  - apply He. rewrite <- Heq. by apply list_elem_of_fmap_2.
Qed.

(** ** Removing the names of an object *)

Lemma remove_loop_run p post : forall s pre pp fuel,
  kinv s -> DdkNameList s = pre ++ post -> stands pp pre -> (length post <= fuel)%nat ->
  exists s', remove_loop fuel (fun e => mret (Object e =? p)) (DdkFreeObject free_depth) pp s = Ok (tt, s') /\
    kinv s' /\ DdkNameList s' = pre ++ filter (fun e => Object e <> p) post /\
    CurrentIrql s' = CurrentIrql s /\ (forall a, dead s' a -> dead s a) /\
    forall a, client s' a = client s a.
Proof.
  induction post as [| e post IH]; intros s pre pp fuel I E Hp Hf;
    pose proof (k_entries _ I) as Hn; rewrite E in Hn;
    pose proof (entry_after_stands _ _ _ Hn Hp) as Hr; rewrite <- E in Hr.
  - exists s. split; [| by split; [| rewrite filter_nil]].
    destruct fuel; simpl; by rewrite (kbind _ _ s None s) by (by rewrite Hr).
  - destruct fuel as [| fuel]; simpl in Hf; [lia |]. cbn [remove_loop].
    rewrite (kbind _ _ s (Some e) s) by (by rewrite Hr).
    rewrite (kbind _ _ s (Object e =? p) s) by done.
    destruct (Z.eqb_spec (Object e) p) as [<- | Hne].
    + destruct (unname s pre e post I E) as [I1 C1].
      rewrite (kbind _ _ s tt (set_names (pre ++ post) s)); last first.
      { unfold modify. by rewrite E, (remove_addr _ _ _ Hn). }
      set (s1 := set_names (pre ++ post) s) in *.
      destruct (drop_object s1 (Object e) I1) as (s2 & E2 & I2 & F2 & D2 & C2).
      { rewrite C1, one_yes by done. pose proof (client_nonneg s (Object e) I). lia. }
      rewrite (kbind _ _ s1 tt s2) by done.
      destruct (IH s2 pre pp fuel I2) as (s' & -> & I' & E' & Q' & D' & C'); [by rewrite (f_names _ _ _ F2) | done | lia |].
      exists s'. split; [done |]. split; [done |]. split; [by rewrite filter_cons_False by auto |].
      split; [by rewrite Q', (f_irql _ _ _ F2) |].
      split; [intros a Ha%D'%D2; exact Ha |]. intros a. rewrite C', C2, C1. lia.
    + destruct (IH s (pre ++ [e]) (Some (addr e)) fuel I) as (s' & -> & I' & E' & Q' & D' & C');
        [by rewrite <- app_assoc | by exists pre, e | lia |].
      exists s'. split; [done |]. split; [done |]. split; [| done].
      by rewrite filter_cons_True, E', <- app_assoc by done.
Qed.

Lemma remove_object_name_run s p :
  kinv s ->
  exists s', DdkRemoveObjectName p s = Ok (tt, s') /\ kinv s' /\
    DdkNameList s' = filter (fun e => Object e <> p) (DdkNameList s) /\
    CurrentIrql s' = CurrentIrql s /\ (forall a, dead s' a -> dead s a) /\
    forall a, client s' a = client s a.
Proof.
  intros I. destruct (remove_loop_run p (DdkNameList s) s [] None (length (DdkNameList s)) I)
    as (s' & E & I' & N' & Q' & D & C); [done | done | done |].
  exists s'. split; [| done]. unfold DdkRemoveObjectName, remove_object_name, remove_names.
  by rewrite (kbind _ _ s (length (DdkNameList s)) s).
Qed.

(** ** The name space *)

Definition entry_is (e : NAME) (x : list Z * Z) : Prop :=
  holds (Name e) x.1 /\ plain x.1 /\ Z.of_nat (length x.1) < 2 ^ 15 /\ Object e = x.2.

Definition names_as (d : directory) (s : kernel) : Prop := Forall2 entry_is (DdkNameList s) d.

Definition same_text (a b : list Z) : bool := bool_decide (map towlower a = map towlower b).

Fixpoint dlookup (d : directory) (cs : list Z) : option (list Z * Z) :=
  match d with
  | [] => None
  | x :: d => if same_text cs x.1 then Some x else dlookup d cs
  end.

Context `{LL : !LocaleLaws}.

Lemma same_name_run s u cs e x :
  CurrentIrql s = 0 -> holds u cs -> plain cs -> Z.of_nat (length cs) < 2 ^ 15 -> entry_is e x ->
  same_name u e s = Ok (same_text cs x.1, s).
Proof.
  intros Hi Hu [Hw Hn] Hl (He & [_ Hne] & Hle & _). unfold same_name.
  rewrite (kbind _ _ s 0 s) by (unfold KeGetCurrentIrql; by rewrite Hi).
  rewrite (kbind _ _ s (compare_spec (fold_case true) cs x.1) s); last first.
  { unfold lift. by rewrite (compare_ok u (Name e) cs x.1). }
  unfold mret, M_ret. repeat f_equal. unfold same_text.
  pose proof (compare_spec_zero (fold_case true) cs x.1 (fold_case_nul true)) as Hz.
  rewrite !c_string_all in Hz by done. case_bool_decide as D.
  - apply Z.eqb_eq, Hz. split; [| done]. apply (f_equal length) in D. by rewrite !length_map in D.
  - apply Z.eqb_neq. intros [_ E]%Hz. done.
Qed.

Definition found_as (d : directory) (cs : list Z) (found : option (Z * UNICODE_STRING)) : Prop :=
  match dlookup d cs with
  | None => found = None
  | Some x => exists path, found = Some (x.2, path) /\ holds path x.1
  end.

(** Every named object has a count, so the search ends at the first match. *)
Lemma find_name_run s u cs : kinv s -> CurrentIrql s = 0 -> holds u cs -> plain cs ->
  Z.of_nat (length cs) < 2 ^ 15 -> forall l d, (forall e, e ∈ l -> e ∈ DdkNameList s) ->
  Forall2 entry_is l d -> exists found, find_name u l s = Ok (found, s) /\ found_as d cs found.
Proof.
  intros I Hi Hu Hp Hl l d Hin F. induction F as [| e x l d Hx F IH]; [by exists None |].
  cbn [find_name]. rewrite (kbind _ _ s (same_text cs x.1) s) by by apply same_name_run.
  unfold found_as. simpl. destruct (same_text cs x.1).
  - assert (e ∈ DdkNameList s) as He by (apply Hin; by left).
    destruct (k_named _ I e He) as [o Eo]. pose proof (named_pos s e He).
    pose proof (o_count _ _ _ (k_objects _ I _ o Eo)).
    rewrite (kbind _ _ s o s) by by apply object_at_run.
    destruct (Z.eqb_spec (refcount o) 0); [lia |]. destruct Hx as (Hn & _ & _ & <-).
    exists (Some (Object e, Name e)). split; [done |]. by exists (Name e).
  - apply IH. intros y Hy. apply Hin. by right.
Qed.

Lemma DdkFindName_run s u cs d : kinv s -> CurrentIrql s = 0 -> names_as d s -> holds u cs ->
  plain cs -> Z.of_nat (length cs) < 2 ^ 15 ->
  exists found, DdkFindName u s = Ok (found, s) /\ found_as d cs found.
Proof.
  intros I Hi Hd Hu Hp Hl. unfold DdkFindName.
  rewrite (kbind _ _ s (DdkNameList s) s) by done. by apply (find_name_run s u cs I Hi Hu Hp Hl).
Qed.

(** ** Taking a reference *)

(** What an operation leaves: the directory, and the account of each client changed
    by [delta]; no count has grown by more than [g]. *)
Record account (s s' : kernel) (d : directory) (g : Z) (delta : Z -> Z) : Prop := {
  a_inv : kinv s';
  a_names : names_as d s';
  a_irql : CurrentIrql s' = CurrentIrql s;
  a_dead : forall a, dead s' a -> dead s a;
  a_links : forall a o' t e, objects s' !! a = Some o' -> contents o' = Symlink t e ->
    exists o, objects s !! a = Some o /\ contents o = Symlink t e;
  a_types : forall a o', objects s' !! a = Some o' -> 
    exists o, objects s !! a = Some o /\ type o' = type o /\ alloc o' = alloc o /\
      refcount o' <= refcount o + g;
  a_client : forall a, client s' a = client s a + delta a
}.

Lemma account_trans s s1 s2 d1 d2 m n f g :
  account s s1 d1 m f -> account s1 s2 d2 n g -> account s s2 d2 (m + n) (fun a => f a + g a).
Proof.
  intros [] []. split; [done | done | congruence | auto | | |].
  - intros a o t e E2 H2. destruct (a_links1 a o t e E2 H2) as (o1 & E1 & H1). eauto.
  - intros a o2 (o1 & E1 & -> & -> & ?)%a_types1. destruct (a_types0 a o1 E1) as (o & ? & ? & ? & ?).
    exists o. repeat split; [done | done | done | lia].
  - intros a. rewrite a_client1, a_client0. lia.
Qed.

Lemma account_ext s s' d m f g : (forall a, f a = g a) -> account s s' d m f -> account s s' d m g.
Proof. intros E []. split; try done. intros a. by rewrite <- E. Qed.

(** Every count leaves room for [n] more. *)
Definition room (n : Z) (s : kernel) : Prop :=
  forall p o, objects s !! p = Some o -> refcount o < 2 ^ 31 - n.

Lemma room_after s s' d g delta n : account s s' d g delta -> room (n + g) s -> room n s'.
Proof.
  intros A R p o Ep. destruct (a_types _ _ _ _ _ A p o Ep) as (o' & Ep' & _ & _ & ?).
  pose proof (R p o' Ep'). lia.
Qed.

Lemma room_less m n s : n <= m -> room m s -> room n s.
Proof. intros Hl R p o Ep. pose proof (R p o Ep). lia. Qed.

Lemma refer_run s p o d :
  kinv s -> names_as d s -> objects s !! p = Some o -> 0 < refcount o < 2 ^ 31 - 1 ->
  exists s', DdkReferenceObject p s = Ok (tt, s') /\ account s s' d 1 (fun a => one (a = p)).
Proof.
  intros I Hd Ep Hc. unfold DdkReferenceObject.
  rewrite (kbind _ _ s (refcount o + 1) (put_at s p (with_count o (refcount o + 1))))
    by (apply increment_run; [done | lia]).
  assert (similar o (with_count o (refcount o + 1))) as S by (apply similar_count; lia).
  pose proof (o_count _ _ _ (k_objects _ I p o Ep)) as [_ Hr].
  eexists. split; [done |]. split; try done.
  - apply (kinv_put s p o); simpl; try done; lia.
  - intros a Ha. apply (dead_put _ _ _ _ Ha). simpl. lia.
  - intros a x t e Ex Hx. simpl in Ex. apply lookup_insert_Some in Ex as [[<- <-] | [_ Ex]]; by eexists.
  - intros a x Ex. simpl in Ex. apply lookup_insert_Some in Ex as [[<- <-] | [_ Ex]];
      [exists o | exists x]; simpl; repeat split; (done || lia).
  - intros a. rewrite (client_put s p o) by done. simpl.
    rewrite (one_no (opens a o /\ _)) by (unfold opens; simpl; intros [[? ?] Hx]; apply Hx; split; [done | lia]).
    unfold one. repeat case_decide; case_match; lia.
Qed.

Lemma drop_run s p d :
  kinv s -> names_as d s -> 1 <= client s p ->
  exists s', DdkDereferenceObject p s = Ok (tt, s') /\ account s s' d 0 (fun a => - one (a = p)).
Proof.
  intros I Hd Hc. destruct (drop_object s p I Hc) as (s' & E & I' & F & D & C).
  exists s'. split; [done |]. split; try done; try apply F.
  - unfold names_as. by rewrite (f_names _ _ _ F).
  - intros a x (y & ? & ? & ? & ?)%(f_types _ _ _ F). exists y. repeat split; [done | done | done | lia].
Qed.

(** ** Entering a name *)

Lemma enter_run s p e cs d :
  kinv s -> names_as d s -> 1 <= client s p -> addr e ∉ (addr <$> DdkNameList s) ->
  entry_is e (cs, p) ->
  account s (set_names (e :: DdkNameList s) s) ((cs, p) :: d) 0 (fun a => - one (a = p)).
Proof.
  intros I Hd Hc Ha He. pose proof He as (_ & _ & _ & Eo). simpl in Eo.
  destruct (client_pos s p Hc) as (o & Ep & Hr).
  assert (forall a, refs (set_names (e :: DdkNameList s) s) a = refs s a + one (a = p)) as R.
  { intros a. rewrite refs_names. pose proof (named_middle [] e (DdkNameList s) a) as M.
    simpl in M. rewrite Eo in M. lia. }
  split; try done.
  - apply kinv_names; [done | | |].
    + rewrite fmap_cons. apply NoDup_cons. split; [done | apply (k_entries _ I)].
    + intros x [-> | Hx]%elem_of_cons; [rewrite Eo; by exists o | by apply (k_named _ I)].
    + intros q x Eq. rewrite R. pose proof (o_count _ _ _ (k_objects _ I q x Eq)) as [_ Hq].
      unfold one. case_decide; [subst; simplify_eq; lia | lia].
  - by constructor.
  - intros a o' t k Ea. by exists o'.
  - intros a o' Ea. exists o'. repeat split; [done | lia].
  - intros a. unfold client. rewrite R. simpl. destruct (objects s !! a) eqn:Ea; [lia |].
    rewrite one_no; [done |]. intros ->. congruence.
Qed.

(** The result of [DdkCreateName] and what it does to the directory. *)
Definition created (d : directory) (cs : list Z) (p : Z) : Z * directory * (Z -> Z) :=
  match dlookup d cs with
  | None => (p, (cs, p) :: d, fun _ => 0)
  | Some x => (x.2, d, fun a => one (a = x.2) - one (a = p))
  end.

Lemma dlookup_named d cs x s : names_as d s -> dlookup d cs = Some x ->
  exists e, e ∈ DdkNameList s /\ Object e = x.2.
Proof.
  unfold names_as. generalize (DdkNameList s). intros l F. induction F as [| e y l d He F IH]; [done |].
  simpl. destruct (same_text cs y.1).
  - intros [= ->]. exists e. split; [by left | apply He].
  - intros Hx. destruct (IH Hx) as (e' & ? & ?). exists e'. split; [by right | done].
Qed.

(** A named object is there and has a count. *)
Lemma dlookup_object d cs x s : kinv s -> names_as d s -> dlookup d cs = Some x ->
  exists o, objects s !! x.2 = Some o /\ 0 < refcount o /\ x.2 <> 0.
Proof.
  intros I Hd Hx. destruct (dlookup_named d cs x s Hd Hx) as (e & He & <-).
  destruct (k_named _ I e He) as [o Eo]. pose proof (named_pos s e He).
  pose proof (o_count _ _ _ (k_objects _ I _ o Eo)). pose proof (o_address _ _ _ (k_objects _ I _ o Eo)).
  exists o. split; [done |]. lia.
Qed.

Section creating.
Context (malloc : Z -> option (list Z)) (Dir : option (list Z)) (Name cs : list Z).
Context (P : path_of malloc Dir Name cs).

Lemma create_run s p a d :
  kinv s -> CurrentIrql s = 0 -> names_as d s -> room 1 s -> 1 <= client s p ->
  a ∉ (addr <$> DdkNameList s) ->
  exists path s', DdkCreateName malloc (Some a) (Some Name) p Dir s = Ok (((created d cs p).1.1, path), s') /\
    account s s' (created d cs p).1.2 1 (created d cs p).2.
Proof.
  intros I Hi Hd Hroom Hc Ha. destruct (create_path_ok _ _ _ _ P) as (Hp & H0c & u & Eu & Hu).
  pose proof (p_size _ _ _ _ P) as Hs. destruct (client_pos s p Hc) as (o & Ep & Hr).
  pose proof (o_address _ _ _ (k_objects _ I p o Ep)).
  unfold DdkCreateName. rewrite (kbind _ _ s Name s) by (destruct (Z.eqb_spec p 0); [lia | done]).
  rewrite (kbind _ _ s tt s); last first.
  { pose proof (p_some _ _ _ _ P). destruct Name; [done |]. unfold ddkassertM, lift, ddkassert.
    by replace (2 * Z.of_nat (length (z :: l)) >=? 2) with true
      by (symmetry; rewrite Z.geb_leb; apply Z.leb_le; cbn [length]; lia). }
  rewrite (kbind _ _ s u s) by (unfold lift; by rewrite Eu).
  destruct (new_entry_ok a p u cs Hu Hp H0c Hs) as (nm & En & Hnm).
  rewrite (kbind _ _ s (mkName a p nm) s) by (unfold lift; by rewrite En). cbn [Objects.Name].
  destruct (DdkFindName_run s nm cs d I Hi Hd Hnm Hp) as (found & Ef & Hf); [lia |].
  rewrite (kbind _ _ s found s) by done. unfold found_as, created in *.
  destruct (dlookup d cs) as [x |] eqn:Ed; simpl.
  - destruct Hf as (path & -> & _). destruct (dlookup_object d cs x s I Hd Ed) as (ox & Ex & Hx & _).
    destruct (refer_run s x.2 ox d I Hd Ex) as (s1 & E1 & A1); [split; [done | by apply (Hroom x.2)] |].
    rewrite (kbind _ _ s tt s1) by done.
    destruct (drop_run s1 p d (a_inv _ _ _ _ _ A1) (a_names _ _ _ _ _ A1)) as (s2 & E2 & A2).
    { rewrite (a_client _ _ _ _ _ A1). unfold one. case_decide; lia. }
    rewrite (kbind _ _ s1 tt s2) by done. exists path, s2. split; [done |].
    apply (account_ext _ _ _ _ _ _ (fun a => eq_refl) (account_trans _ _ _ _ _ _ _ _ _ A1 A2)).
  - subst found. assert (entry_is (mkName a p nm) (cs, p)) as He by (split; [done | split; [done | split; [simpl; lia | done]]]).
    pose proof (enter_run s p (mkName a p nm) cs d I Hd Hc Ha He) as A1.
    set (s1 := set_names _ s) in *. rewrite (kbind _ _ s tt s1) by done.
    destruct (refer_run s1 p o _ (a_inv _ _ _ _ _ A1) (a_names _ _ _ _ _ A1)) as (s2 & E2 & A2); [done | |].
    { pose proof (refs_nonneg s p). split; [lia | by apply (Hroom p)]. }
    rewrite (kbind _ _ s1 tt s2) by done. exists nm, s2. split; [done |].
    eapply account_ext; [| apply (account_trans _ _ _ _ _ _ _ _ _ A1 A2)]. intros b. simpl. lia.
Qed.

Lemma insert_run s p a d :
  kinv s -> CurrentIrql s = 0 -> names_as d s -> room 1 s -> 1 <= client s p ->
  a ∉ (addr <$> DdkNameList s) ->
  exists s', DdkInsertName malloc (Some a) (Some Name) p Dir s = Ok ((created d cs p).1.1 =? p, s') /\
    account s s' (created d cs p).1.2 1
      (fun b => if (created d cs p).1.1 =? p then 0 else - one (b = p)).
Proof.
  intros I Hi Hd Hroom Hc Ha. destruct (create_run s p a d I Hi Hd Hroom Hc Ha) as (path & s1 & E1 & A1).
  unfold DdkInsertName. rewrite (kbind _ _ s _ s1 E1). unfold created in *.
  destruct (dlookup d cs) as [x |] eqn:Ed; simpl in *.
  - destruct (Z.eqb_spec x.2 p) as [Ex | Ex]; simpl.
    + exists s1. split; [done |]. eapply account_ext; [| done]. intros b. simpl. rewrite Ex. lia.
    + destruct (drop_run s1 x.2 d (a_inv _ _ _ _ _ A1) (a_names _ _ _ _ _ A1)) as (s2 & E2 & A2).
      { rewrite (a_client _ _ _ _ _ A1), one_yes, one_no by done. pose proof (client_nonneg s x.2 I). lia. }
      rewrite (kbind _ _ s1 tt s2) by done. exists s2. split; [done |].
      eapply account_ext; [| apply (account_trans _ _ _ _ _ _ _ _ _ A1 A2)]. intros b. simpl. lia.
  - rewrite Z.eqb_refl. simpl. by exists s1.
Qed.

Lemma lookup_run s d :
  kinv s -> CurrentIrql s = 0 -> names_as d s -> room 1 s ->
  let p := match dlookup d cs with Some x => x.2 | None => 0 end in
  exists s', DdkLookupName malloc Name Dir s = Ok (p, s') /\
    account s s' d 1 (fun a => one (a = p /\ p <> 0)).
Proof.
  intros I Hi Hd Hroom p. destruct (create_path_ok _ _ _ _ P) as (Hp & H0c & u & Eu & Hu).
  pose proof (p_size _ _ _ _ P) as Hs. unfold DdkLookupName.
  rewrite (kbind _ _ s u s) by (unfold lift; by rewrite Eu).
  destruct (DdkFindName_run s u cs d I Hi Hd Hu Hp) as (found & Ef & Hf); [lia |].
  rewrite (kbind _ _ s found s) by done. unfold found_as, p in *.
  destruct (dlookup d cs) as [x |] eqn:Ed.
  - destruct Hf as (path & -> & _). destruct (dlookup_object d cs x s I Hd Ed) as (ox & Ex & Hx & Hx0).
    destruct (refer_run s x.2 ox d I Hd Ex) as (s1 & E1 & A1); [split; [done | by apply (Hroom x.2)] |].
    rewrite (kbind _ _ s tt s1) by done. exists s1. split; [done |].
    eapply account_ext; [| done]. intros b. unfold one. repeat case_decide; tauto.
  - subst found. exists s. split; [done |]. split; try done.
    + intros a o' t e Ea. by exists o'.
    + intros a o' Ea. exists o'. repeat split; [done | lia].
    + intros a. rewrite one_no by tauto. lia.
Qed.
End creating.

(** C1. The accounts of the reference counts. In any state in which every count
    covers the names, devices and open files that refer to the object, giving up a
    reference that a client holds succeeds; it takes exactly that reference from
    that client and none from any other, it leaves no object whose count does not
    cover what refers to it, it keeps the names, and every object whose last
    reference goes with it - the file, its device, the driver - leaves the heap. *)
Theorem DdkDereferenceObject_spec s p :
  kinv s -> 1 <= client s p ->
  exists s', DdkDereferenceObject p s = Ok (tt, s') /\ kinv s' /\ DdkNameList s' = DdkNameList s /\
    (forall a, client s' a = client s a - one (a = p)) /\ (forall a, dead s' a -> dead s a).
Proof.
  intros I Hc. destruct (drop_object s p I Hc) as (s' & E & I' & F & D & C).
  exists s'. repeat (split; [done |]). split; [apply F | done].
Qed.

(** [DdkRemoveObjectName] takes every name of the object out of the list, keeps
    the others in their order, and leaves the references of all clients as they
    were: the reference each name held goes with the name. *)
Theorem DdkRemoveObjectName_spec s p :
  kinv s ->
  exists s', DdkRemoveObjectName p s = Ok (tt, s') /\ kinv s' /\
    DdkNameList s' = filter (fun e => Object e <> p) (DdkNameList s) /\
    (forall a, client s' a = client s a) /\ (forall a, dead s' a -> dead s a).
Proof.
  intros I. destruct (remove_object_name_run s p I) as (s' & E & I' & N' & _ & D & C). by exists s'.
Qed.

(** A name that is entered is found again, under any path that spells it, in
    any case of its letters: [DdkInsertName] of a new name says TRUE and
    [DdkLookupName] then gives the object, with one more reference for the
    caller - and none for the caller of [DdkInsertName], whose name holds its own. *)
Theorem DdkInsertName_DdkLookupName malloc Dir Name cs Dir' Name' cs' s p a d
  (P : path_of malloc Dir Name cs) (P' : path_of malloc Dir' Name' cs')
  (Hcs : same_text cs' cs = true) (Hnew : dlookup d cs = None)
  (I : kinv s) (Hi : CurrentIrql s = 0) (Hd : names_as d s) (R : room 2 s)
  (Hc : 1 <= client s p) (Ha : a ∉ (addr <$> DdkNameList s)) :
  exists s',
    (ok ← DdkInsertName malloc (Some a) (Some Name) p Dir;
     q ← DdkLookupName malloc Name' Dir';
     mret (ok, q)) s = Ok ((true, p), s') /\
    kinv s' /\ names_as ((cs, p) :: d) s' /\ forall b, client s' b = client s b + one (b = p).
Proof.
  destruct (client_pos s p Hc) as (o & Ep & _). pose proof (o_address _ _ _ (k_objects _ I p o Ep)) as Hp.
  destruct (insert_run malloc Dir Name cs P s p a d I Hi Hd) as (s1 & E1 & A1);
    [by apply (room_less 2) | done | done |].
  unfold created in *. rewrite Hnew in *. cbn [fst snd] in *. rewrite Z.eqb_refl in *.
  rewrite (kbind _ _ s true s1 E1).
  destruct (lookup_run malloc Dir' Name' cs' P' s1 ((cs, p) :: d)) as (s2 & E2 & A2).
  { apply A1. }
  { by rewrite (a_irql _ _ _ _ _ A1). }
  { apply A1. }
  { by apply (room_after s s1 _ _ _ 1 A1). }
  cbn [dlookup fst] in *. rewrite Hcs in *. cbn [snd] in *. rewrite (kbind _ _ s1 p s2) by done.
  exists s2. split; [done |]. split; [apply A2 |]. split; [apply A2 |].
  intros b. rewrite (a_client _ _ _ _ _ A2), (a_client _ _ _ _ _ A1).
  unfold one. repeat case_decide; (lia || (exfalso; naive_solver lia)).
Qed.

(** A name that is taken already: [DdkCreateName] gives the object that has it,
    in place of the caller's and with a reference in exchange for the caller's, and
    [DdkInsertName] says FALSE and has given the caller's reference away, unless the
    name is the object's own already. The directory is as it was. *)
Theorem DdkCreateName_collision malloc Dir Name cs x s p a d
  (P : path_of malloc Dir Name cs) (Hx : dlookup d cs = Some x)
  (I : kinv s) (Hi : CurrentIrql s = 0) (Hd : names_as d s) (R : room 1 s)
  (Hc : 1 <= client s p) (Ha : a ∉ (addr <$> DdkNameList s)) :
  (exists path s', DdkCreateName malloc (Some a) (Some Name) p Dir s = Ok ((x.2, path), s') /\
     kinv s' /\ names_as d s' /\
     forall b, client s' b = client s b + one (b = x.2) - one (b = p)) /\
  (exists s', DdkInsertName malloc (Some a) (Some Name) p Dir s = Ok (x.2 =? p, s') /\
     kinv s' /\ names_as d s' /\
     forall b, client s' b = client s b - if x.2 =? p then 0 else one (b = p)).
Proof.
  split.
  - destruct (create_run malloc Dir Name cs P s p a d I Hi Hd R Hc Ha) as (path & s' & E & A).
    unfold created in *. rewrite Hx in *. exists path, s'. split; [done |]. split; [apply A |].
    split; [apply A |]. intros b. rewrite (a_client _ _ _ _ _ A). simpl. lia.
  - destruct (insert_run malloc Dir Name cs P s p a d I Hi Hd R Hc Ha) as (s' & E & A).
    unfold created in *. rewrite Hx in *. exists s'. split; [done |]. split; [apply A |].
    split; [apply A |]. intros b. rewrite (a_client _ _ _ _ _ A). simpl. destruct (x.2 =? p); lia.
Qed.
End spec.
