(* ===== verification/SymlinkSpec.v ===== *)
(** * SymlinkSpec: symbolic links *)

From S2P Require Import Prelude Strings StringsOps StringsSpec Objects Names NamesPath.
From S2P Require Import ObjectsInv ObjectsSpec NamesSpec.

Section spec.
Context `{Environment} `{Locale} `{LL : !LocaleLaws}.

(** ** A new object *)

(** [calloc] gave the address [p]. *)
Definition fresh (s : kernel) (p : Z) : Prop :=
  0 < p /\ objects s !! p = None /\
  forall q o, objects s !! q = Some o -> is_public_type (type o) = true -> p <> q + sizeof_OBJECT.

Lemma named_none n p : (forall e, e ∈ n -> Object e <> p) -> named n p = 0%nat.
Proof.
  intros Hn. unfold named. destruct (filter _ _) as [| e l] eqn:E; [done |]. exfalso.
  assert (e ∈ filter (fun x => Object x = p) n) as He by (rewrite E; by left).
  apply list_elem_of_filter in He as [He He']. by apply (Hn e).
Qed.

Lemma fresh_refs s p : kinv s -> fresh s p -> refs s p = 0.
Proof.
  intros I (Hp & Hn & _). unfold refs, listed. rewrite Hn.
  rewrite named_none by (intros e He <-; destruct (k_named _ I e He); congruence).
  enough (filed (objects s) p = 0%nat) as -> by done.
  unfold filed. apply map_size_empty_iff, map_empty. intros q. apply map_lookup_filter_None. right. intros o Eq [Hc Hr].
  destruct (o_opened _ _ _ (k_objects _ I q o Eq) _ Hc) as (q' & drv & E & (x & Ex & _)); [unfold sizeof_OBJECT; lia | done |].
  assert (q' = p) as -> by (unfold sizeof_OBJECT in *; lia). congruence.
Qed.

Definition new_link (d : UNICODE_STRING) (e : bool) : OBJECT :=
  mkObject IoSymbolicLinkType true 1 0 (Symlink d e).

(** An object that refers to nothing. *)
Record new_object (s : kernel) (p : Z) (x : OBJECT) : Prop := {
  no_typed : well_typed x;
  no_count : refcount x = 1;
  no_handle : h x = 0;
  no_contents : match contents x with File _ | Device _ => False | Driver _ ds => ds = [] | _ => True end;
  no_hidden : is_public_type (type x) = true ->
    objects s !! (p + sizeof_OBJECT) = None /\ isValidObject s (p + sizeof_OBJECT) = false
}.

Lemma refs_new s p x a : objects s !! p = None -> new_object s p x -> refs (put_at s p x) a = refs s a.
Proof.
  intros Hn N. pose proof (no_contents _ _ _ N) as Nc. unfold refs. simpl. pose proof (filed_insert (objects s) p x a) as F.
  rewrite Hn in F. unfold opening in F. rewrite decide_False in F by (intros [Hx ?]; by rewrite Hx in Nc).
  enough (listed (<[p := x]> (objects s)) a = listed (objects s) a) by lia.
  unfold listed. destruct (decide (a = p)) as [-> |]; [| by rewrite lookup_insert_ne].
  rewrite lookup_insert_eq, Hn. by destruct (contents x); subst.
Qed.

Lemma kinv_new_object s p x : kinv s -> fresh s p -> new_object s p x ->
  kinv (put_at s p x) /\ forall a, client (put_at s p x) a = client s a + one (a = p).
Proof.
  intros I F N. pose proof (fresh_refs s p I F) as R. destruct F as (Hp & Hn & Hh).
  pose proof N as [N1 N2 N3 N4 N5].
  assert (forall a drv, device_of s a drv -> device_of (put_at s p x) a drv) as Ldev.
  { intros a drv (y & Ey & Hy). exists y. simpl. rewrite lookup_insert_ne; [done | congruence]. }
  assert (forall q a, lists s q a -> lists (put_at s p x) q a) as Llist.
  { intros q a (y & i & ds & Ey & Hy). exists y, i, ds. simpl. rewrite lookup_insert_ne; [done | congruence]. }
  assert (forall a, a <> p -> objects s !! a = None /\ isValidObject s a = false ->
    objects (put_at s p x) !! a = None /\ isValidObject (put_at s p x) a = false) as Lhid.
  { intros a Na [Ea Ev]. unfold isValidObject, type_at in *. simpl. rewrite lookup_insert_ne by done. done. }
  split.
  - split; [| apply (k_entries _ I) |].
    + simpl. intros a y [[<- <-] | [Hne Ey]]%lookup_insert_Some.
      * split; try done; rewrite ?(refs_new s p x) by done; rewrite ?N2, ?N3; try done; try lia.
        -- intros Hpub. apply Lhid; [unfold sizeof_OBJECT; lia | by apply N5].
        -- intros i ds Hi. rewrite Hi in N4. subst ds. split; [constructor |]. intros d Hd. by apply elem_of_nil in Hd.
        -- intros drv Hd. by rewrite Hd in N4.
        -- intros d Hd. by rewrite Hd in N4.
      * destruct (k_objects _ I a y Ey) as []. split; try done.
        -- intros Hpub. apply Lhid; [by apply not_eq_sym, (Hh a y) | by apply o_hidden].
        -- by rewrite (refs_new s p x).
        -- intros i ds Hi. destruct (o_devices i ds Hi). split; auto.
        -- intros drv Hv Hc. destruct (o_listed drv Hv Hc) as (q & -> & Hq). exists q. auto.
        -- intros d Hd Hd0 Hc. destruct (o_opened d Hd Hd0 Hc) as (q & drv & -> & Hq). exists q, drv. auto.
    + intros e He. simpl. destruct (k_named _ I e He). rewrite lookup_insert_ne; [done | congruence].
  - intros a. unfold client. rewrite (refs_new s p x) by done. simpl. unfold one. case_decide as D.
    + subst. rewrite lookup_insert_eq, Hn, N2. lia.
    + rewrite lookup_insert_ne by done. case_match; lia.
Qed.

Lemma kinv_new s p t e : kinv s -> fresh s p ->
  kinv (put_at s p (new_link t e)) /\
  forall a, client (put_at s p (new_link t e)) a = client s a + one (a = p).
Proof. intros I F. by apply kinv_new_object. Qed.

(** ** The operations *)

(** A link that has no name is not referred to. *)
Lemma link_refs s p o : kinv s -> objects s !! p = Some o -> type o = IoSymbolicLinkType ->
  (forall e, e ∈ DdkNameList s -> Object e <> p) -> refs s p = 0.
Proof.
  intros I Ep Ht Hn. pose proof (o_typed _ _ _ (k_objects _ I p o Ep)) as Hw. unfold well_typed in Hw.
  rewrite Ht in Hw. assert (exists t e, contents o = Symlink t e) as (t & e & Ec).
  { destruct (contents o); try done; [by destruct Hw as (_ & _ & Hw) | by eexists _, _]. }
  unfold refs, listed. rewrite Ep, Ec. rewrite named_none by done.
  enough (filed (objects s) p = 0%nat) as -> by done.
  unfold filed. apply map_size_empty_iff, map_empty. intros q. apply map_lookup_filter_None. right.
  intros x Eq [Hc Hr]. 
  destruct (Z.eq_dec (p + sizeof_OBJECT) 0) as [Hz |].
  { pose proof (o_address _ _ _ (k_objects _ I p o Ep)). unfold sizeof_OBJECT in Hz. lia. }
  destruct (o_opened _ _ _ (k_objects _ I q x Eq) _ Hc) as (q' & drv & E & (y & Ey & Hy)); [done | done |].
  assert (q' = p) as -> by (unfold sizeof_OBJECT in *; lia). congruence.
Qed.

Lemma names_as_objects s s' d p : names_as d s -> names_as d s' ->
  (forall e, e ∈ DdkNameList s -> Object e <> p) -> forall e, e ∈ DdkNameList s' -> Object e <> p.
Proof.
  unfold names_as. intros F F' Hn e He Hp.
  apply list_elem_of_lookup in He as [i Ei]. destruct (Forall2_lookup_l _ _ _ _ _ F' Ei) as (x & Ex & Hx).
  destruct (Forall2_lookup_r _ _ _ _ _ F Ex) as (e0 & E0 & Hx0).
  apply (Hn e0); [by apply list_elem_of_lookup_2 in E0 |].
  destruct Hx as (_ & _ & _ & Hx), Hx0 as (_ & _ & _ & Hx0). congruence.
Qed.

Lemma put_put s p o o' : put_at (put_at s p o) p o' = put_at s p o'.
Proof. unfold put_at, set_objects. simpl. by rewrite insert_insert_eq. Qed.

Section link.
Context (malloc : Z -> option (list Z)) (Name cs dev : list Z).
Context (P : path_of malloc None Name cs).
Context (Hd : plain dev) (Hl : Z.of_nat (length dev) <= 32766) (Hne : dev <> []).

Lemma nonempty_run (u : list Z) c s : u <> [] -> nonempty (Some u) c s = Ok (u, s).
Proof. by destruct u. Qed.

(** [IoCreateSymbolicLink] up to the call to [DdkInsertName]. *)
Lemma create_link_run s p a : kinv s -> fresh s p ->
  exists dest, holds dest dev /\
    let s1 := put_at s p (new_link dest true) in
    IoCreateSymbolicLink malloc (Some p) a (Some Name) (Some dev) s =
      (ok ← DdkInsertName malloc a (Some Name) p None;
       mret (if negb ok then STATUS_OBJECT_NAME_EXISTS else STATUS_SUCCESS)) s1.
Proof.
  intros I F. destruct (copied_ok dev [] (length dev) Hd Hl eq_refl) as (b & Eb & dest & Ed & Hdest).
  exists dest. split; [done |]. intros s1. unfold IoCreateSymbolicLink.
  rewrite (kbind _ _ s dev s) by by apply nonempty_run.
  rewrite (kbind _ _ s Name s) by (apply nonempty_run, (p_some _ _ _ _ P)).
  set (s0 := put_at s p (new_link (mkStr 0 0 None) false)).
  rewrite (kbind _ _ s (Some p) s0) by done. cbn match.
  rewrite (kbind _ _ s0 b s0) by (rewrite app_nil_r in Eb; unfold lift; by rewrite Eb).
  rewrite (kbind _ _ s0 dest s0) by (unfold lift; by rewrite Ed).
  rewrite (kbind _ _ s0 (new_link (mkStr 0 0 None) false) s0) by (apply object_at_run; apply lookup_insert_eq).
  rewrite (kbind _ _ s0 tt s1); [done |].
  change (Ok (tt, put_at s0 p (new_link dest true)) = Ok (tt, s1)). unfold s0, s1. by rewrite put_put.
Qed.

Lemma create_link s p a d n :
  kinv s -> CurrentIrql s = 0 -> names_as d s -> room (n + 1) s -> 0 <= n < 2 ^ 30 -> fresh s p -> a ∉ (addr <$> DdkNameList s) ->
  exists st s', IoCreateSymbolicLink malloc (Some p) (Some a) (Some Name) (Some dev) s = Ok (st, s') /\
    kinv s' /\ CurrentIrql s' = 0 /\ room n s' /\
    match dlookup d cs with
    | None => st = STATUS_SUCCESS /\ names_as ((cs, p) :: d) s' /\
        (forall b, client s' b = client s b + one (b = p)) /\
        exists o dest, objects s' !! p = Some o /\ contents o = Symlink dest true /\ holds dest dev
    | Some _ => st = STATUS_OBJECT_NAME_EXISTS /\ names_as d s' /\
        (forall b, client s' b = client s b) /\ objects s' !! p = None
    end.
Proof.
  intros I Hi Hn Hr Hb F Ha. destruct (create_link_run s p (Some a) I F) as (dest & Hdest & E).
  destruct (kinv_new s p dest true I F) as [I1 C1]. set (s1 := put_at s p (new_link dest true)) in *.
  assert (client s p = 0) as Hcp by (unfold client; destruct F as (_ & -> & _); done).
  assert (objects s1 !! p = Some (new_link dest true)) as Ep1 by apply lookup_insert_eq.
  assert (room (n + 1) s1) as Hr1.
  { intros q o Eq. simpl in Eq. apply lookup_insert_Some in Eq as [[<- <-] | [_ Eq]]; simpl; [lia |].
    by apply (Hr q). }
  destruct (insert_run malloc None Name cs P s1 p a d I1 Hi Hn) as (s2 & E2 & A2).
  { apply (room_less (n + 1)); [lia | done]. }
  { rewrite C1, one_yes by done. lia. }
  { done. }
  rewrite E, (kbind _ _ s1 _ s2 E2). clear E. unfold created in *.
  destruct (dlookup d cs) as [x |] eqn:Ed; cbn [fst snd] in *.
  - assert (x.2 <> p) as Hx.
    { intros <-. destruct (dlookup_object d cs x s I Hn Ed) as (o & Eo & _). destruct F as (_ & F & _). congruence. }
    apply Z.eqb_neq in Hx as Hx'. rewrite Hx' in *. exists STATUS_OBJECT_NAME_EXISTS, s2.
    split; [done |]. split; [apply A2 |]. split; [by rewrite (a_irql _ _ _ _ _ A2) |].
    split; [by apply (room_after s1 s2 _ _ _ n A2) |].
    split; [done |]. split; [apply A2 |].
    assert (forall b, client s2 b = client s b) as C2 by (intros b; rewrite (a_client _ _ _ _ _ A2), C1; lia).
    split; [done |]. destruct (objects s2 !! p) as [o |] eqn:E; [| done]. exfalso.
    destruct (a_types _ _ _ _ _ A2 p o E) as (o1 & E1 & Et & Eal & _).
    assert (o1 = new_link dest true) as -> by congruence.
    assert (refs s2 p = 0) as R2.
    { apply (link_refs s2 p o); [apply A2 | done | by rewrite Et |].
      apply (names_as_objects s s2 d); [done | apply A2 |]. intros e He <-.
      destruct (k_named _ I e He). destruct F as (_ & F & _). congruence. }
    assert (refcount o = 0) as Hc.
    { pose proof (C2 p) as C. rewrite Hcp in C. unfold client in C. rewrite E in C. lia. }
    destruct (a_dead _ _ _ _ _ A2 p) as (o2 & Eo2 & _ & Ho2); [by exists o |].
    assert (o2 = new_link dest true) as -> by congruence. done.
  - rewrite Z.eqb_refl in *. exists STATUS_SUCCESS, s2. split; [done |]. split; [apply A2 |].
    split; [by rewrite (a_irql _ _ _ _ _ A2) |].
    split; [by apply (room_after s1 s2 _ _ _ n A2) |]. split; [done |]. split; [apply A2 |].
    assert (forall b, client s2 b = client s b + one (b = p)) as C2
      by (intros b; rewrite (a_client _ _ _ _ _ A2), C1; lia).
    split; [done |]. destruct (client_pos s2 p) as (o & E & _); [rewrite C2, one_yes by done; lia |].
    destruct (a_types _ _ _ _ _ A2 p o E) as (o1 & E1 & Et & _).
    assert (o1 = new_link dest true) as -> by congruence.
    pose proof (o_typed _ _ _ (k_objects _ (a_inv _ _ _ _ _ A2) p o E)) as Hw. unfold well_typed in Hw.
    rewrite Et in Hw. assert (exists t e, contents o = Symlink t e) as (t & e & Ec).
    { destruct (contents o); try done; [by destruct Hw as (_ & _ & Hw) | by eexists _, _]. }
    destruct (a_links _ _ _ _ _ A2 p o t e E Ec) as (o2 & Eo2 & Ho2).
    assert (o2 = new_link dest true) as -> by congruence. simpl in Ho2.
    injection Ho2 as -> ->. exists o, t. done.
Qed.

(** [IoCreateSymbolicLink] enters the new link, enabled and with its copy of the
    destination, under the name, or finds the name taken, whatever the case of its
    letters, and leaves no trace: the new link is freed again. A link that is
    entered keeps the reference of its allocation, which no one is given. *)
Theorem IoCreateSymbolicLink_spec s p a d :
  kinv s -> CurrentIrql s = 0 -> names_as d s -> room 1 s -> fresh s p -> a ∉ (addr <$> DdkNameList s) ->
  exists st s', IoCreateSymbolicLink malloc (Some p) (Some a) (Some Name) (Some dev) s = Ok (st, s') /\
    kinv s' /\ CurrentIrql s' = 0 /\
    match dlookup d cs with
    | None => st = STATUS_SUCCESS /\ names_as ((cs, p) :: d) s' /\
        (forall b, client s' b = client s b + one (b = p)) /\
        exists o dest, objects s' !! p = Some o /\ contents o = Symlink dest true /\ holds dest dev
    | Some _ => st = STATUS_OBJECT_NAME_EXISTS /\ names_as d s' /\
        (forall b, client s' b = client s b) /\ objects s' !! p = None
    end.
Proof.
  intros I Hi Hn Hr F Ha.
  destruct (create_link s p a d 0 I Hi Hn Hr ltac:(lia) F Ha) as (st & s' & E & I' & Hi' & _ & D).
  by exists st, s'.
Qed.

Definition is_link (s : kernel) (p : Z) : bool :=
  match objects s !! p with Some o => type o =? IoSymbolicLinkType | None => false end.

Definition deleted (s s' : kernel) (d : directory) (st : Z) : Prop :=
  match dlookup d cs with
  | None => st = STATUS_OBJECT_NAME_NOT_FOUND /\ names_as d s' /\ forall b, client s' b = client s b
  | Some x =>
      if is_link s x.2 then
        st = STATUS_SUCCESS /\ names_as (filter (fun y => y.2 <> x.2) d) s' /\
        forall b, client s' b = client s b
      else
        st = STATUS_OBJECT_NAME_NOT_FOUND /\ names_as d s' /\
        forall b, client s' b = client s b + one (b = x.2)
  end.

Lemma names_filter p s s' d : names_as d s ->
  DdkNameList s' = filter (fun e => Object e <> p) (DdkNameList s) ->
  names_as (filter (fun y => y.2 <> p) d) s'.
Proof.
  unfold names_as. intros F ->. induction F as [| e x l d' Hx F IH]; [done |].
  pose proof Hx as (_ & _ & _ & Hxo). rewrite (filter_cons _ e l), (filter_cons _ x d'), Hxo. case_decide; [by constructor | done].
Qed.

Lemma delete_link s d : kinv s -> CurrentIrql s = 0 -> names_as d s -> room 1 s ->
  exists st s', IoDeleteSymbolicLink malloc (Some Name) s = Ok (st, s') /\ kinv s' /\ deleted s s' d st.
Proof.
  clear Hne Hl Hd dev. intros I Hi Hn Hr. destruct (lookup_run malloc None Name cs P s d I Hi Hn Hr) as (s1 & E1 & A1).
  unfold IoDeleteSymbolicLink. rewrite (kbind _ _ s Name s) by (apply nonempty_run, (p_some _ _ _ _ P)).
  rewrite (kbind _ _ s _ s1 E1). clear E1. unfold deleted in *.
  destruct (dlookup d cs) as [x |] eqn:Ed; cbn match in *.
  - destruct (dlookup_object d cs x s I Hn Ed) as (o & Eo & _ & Hx0). unfold is_link. rewrite Eo.
    assert (forall a, client s1 a = client s a + one (a = x.2)) as C1.
    { intros a. rewrite (a_client _ _ _ _ _ A1). f_equal. unfold one. repeat case_decide; tauto. }
    assert (1 <= client s1 x.2) as Hc1 by (rewrite C1, one_yes by done; pose proof (client_nonneg s x.2 I); lia).
    destruct (client_pos s1 x.2 Hc1) as (o1 & Eo1 & _).
    destruct (a_types _ _ _ _ _ A1 _ _ Eo1) as (o' & Eo' & Et & _). rewrite Eo in Eo'.
    injection Eo' as <-.
    apply Z.eqb_neq in Hx0. rewrite Hx0, (kbind _ _ s1 o1 s1), Et by by apply object_at_run.
    destruct (type o =? IoSymbolicLinkType); simpl.
    + destruct (remove_object_name_run s1 x.2 (a_inv _ _ _ _ _ A1)) as (s2 & E2 & I2 & N2 & _ & _ & C2).
      rewrite (kbind _ _ s1 tt s2) by done.
      destruct (drop_run s2 x.2 (filter (fun y => y.2 <> x.2) d) I2) as (s3 & E3 & A3).
      { apply (names_filter _ s1); [apply A1 | done]. }
      { by rewrite C2. }
      rewrite (kbind _ _ s2 tt s3) by done. exists STATUS_SUCCESS, s3. split; [done |].
      split; [apply A3 |]. split; [done |]. split; [apply A3 |].
      intros b. rewrite (a_client _ _ _ _ _ A3), C2, C1. lia.
    + exists STATUS_OBJECT_NAME_NOT_FOUND, s1. split; [done |]. split; [apply A1 |].
      split; [done |]. split; [apply A1 | done].
  - exists STATUS_OBJECT_NAME_NOT_FOUND, s1. split; [done |]. split; [apply A1 |].
    split; [done |]. split; [apply A1 |]. intros b. rewrite (a_client _ _ _ _ _ A1), one_no by tauto. lia.
Qed.

(** [IoDeleteSymbolicLink] takes the names of the link away and gives back the
    reference of its own search, no other. If the name is that of another object
    the reference of the search is not given back. *)
Theorem IoDeleteSymbolicLink_spec s d : kinv s -> CurrentIrql s = 0 -> names_as d s -> room 1 s ->
  exists st s', IoDeleteSymbolicLink malloc (Some Name) s = Ok (st, s') /\ kinv s' /\ deleted s s' d st.
Proof. apply delete_link. Qed.

(** A symbolic link outlives its deletion: after [IoCreateSymbolicLink] and
    [IoDeleteSymbolicLink] of the same name, both successful, the names are as they
    were before, and the link is still in the heap with a count above 0, held by the
    reference of its allocation. *)
Theorem symbolic_link_leaks s p a d :
  kinv s -> CurrentIrql s = 0 -> names_as d s -> room 2 s -> fresh s p -> a ∉ (addr <$> DdkNameList s) ->
  dlookup d cs = None ->
  exists s' o,
    (st1 ← IoCreateSymbolicLink malloc (Some p) (Some a) (Some Name) (Some dev);
     st2 ← IoDeleteSymbolicLink malloc (Some Name);
     mret (st1, st2)) s = Ok ((STATUS_SUCCESS, STATUS_SUCCESS), s') /\
    kinv s' /\ names_as d s' /\ objects s' !! p = Some o /\ 0 < refcount o.
Proof.
  intros I Hi Hn Hr F Ha Hd0.
  destruct (create_link s p a d 1 I Hi Hn Hr ltac:(lia) F Ha) as (st & s1 & E1 & I1 & Hi1 & R1 & D1).
  rewrite Hd0 in D1. destruct D1 as (-> & N1 & C1 & (o & dest & Eo & Ec & _)).
  rewrite (kbind _ _ s _ s1 E1).
  destruct (delete_link s1 _ I1 Hi1 N1 R1) as (st & s2 & E2 & I2 & D2). rewrite (kbind _ _ s1 _ s2 E2).
  unfold deleted in D2. cbn [dlookup fst snd] in D2. unfold same_text in D2. rewrite bool_decide_eq_true_2 in D2 by done.
  cbn [fst snd] in D2. unfold is_link in D2. rewrite Eo in D2.
  pose proof (o_typed _ _ _ (k_objects _ I1 p o Eo)) as Hw. unfold well_typed in Hw. rewrite Ec in Hw.
  rewrite Hw in D2. destruct D2 as (-> & N2 & C2).
  destruct (client_pos s2 p) as (o2 & Eo2 & Hc).
  { rewrite C2, C1, one_yes by done. pose proof (client_nonneg s p I). lia. }
  exists s2, o2. split; [done |]. split; [done |]. split; [| split; [done |]].
  - rewrite filter_cons_False in N2 by (simpl; tauto). rewrite filter_id in N2; [done |].
    intros y Hy. apply list_elem_of_lookup in Hy as [i Ey].
    destruct (Forall2_lookup_r _ _ _ _ _ Hn Ey) as (e & Ee & (_ & _ & _ & He)).
    rewrite <- He. intros E. destruct (k_named _ I e) as [z Ez]; [by apply list_elem_of_lookup_2 in Ee |].
    destruct F as (_ & F & _). congruence.
  - pose proof (refs_nonneg s2 p). lia.
Qed.
End link.
End spec.
