(* ===== verification/ResolveSpec.v ===== *)
(** * ResolveSpec: following symbolic links ends *)

From S2P Require Import Prelude Strings StringsOps StringsSpec Objects Names NamesPath.
From S2P Require Import ObjectsInv ObjectsSpec NamesSpec SymlinkSpec.

Lemma mapM_seq (f : nat -> result Z) cs k :
  (forall i c, cs !! i = Some c -> f (k + i)%nat = Ok c) ->
  mapM f (seq k (length cs)) = Ok cs.
Proof.
  revert k. induction cs as [| c cs IH]; intros k Hf; [done |]. cbn [length seq mapM].
  rewrite <- (Nat.add_0_r k) at 1. rewrite (Hf 0%nat c), bind_ok by done.
  rewrite IH; [done |]. intros i c' Hi. rewrite Nat.add_succ_comm. by apply Hf.
Qed.

Lemma chars_ok u cs : holds u cs -> chars u = Ok cs.
Proof.
  intros (Hl & Hw & Hb). unfold chars. destruct (Buffer u) as [m |]; [| by subst].
  destruct Hb as [rest ->]. rewrite Hl.
  replace (Z.to_nat (2 * Z.of_nat (length cs) / 2)) with (length cs)
    by (rewrite Z.mul_comm, Z.div_mul by lia; lia).
  apply mapM_seq. intros i c Hi. apply wchar_at_encode; [done | lia |]. by rewrite Nat.add_0_l, Nat2Z.id.
Qed.

Lemma nsteps_weaken {A} (R S : A -> A -> Prop) : (forall x y, R x y -> S x y) -> forall n x y, nsteps R n x y -> nsteps S n x y.
Proof. intros HS n x y Hn. induction Hn as [x | n x y z Hxy _ IH]; [constructor | by eapply nsteps_l; [apply HS |]]. Qed.

Section spec.
Context `{Environment} `{Locale} `{LL : !LocaleLaws}.

Lemma from_self_run s p o :
  objects s !! p = Some o -> isValidObject s p = true -> 0 < refcount o -> FromPointer p s = Ok (p, s).
Proof.
  intros Ep Hv Hc. unfold FromPointer. rewrite Hv. rewrite andb_false_r.
  assert (p <> 0) as Hp by (intros ->; done). apply Z.eqb_neq in Hp. rewrite Hp, Hv. simpl.
  rewrite (kbind _ _ s o s) by by apply object_at_run.
  destruct (Z.leb_spec (refcount o) 0); [lia |]. by rewrite Z.eqb_refl.
Qed.

(** [ObDereferenceObject] of an object given by its header. *)
Lemma obf_dereference_run s p o d :
  kinv s -> names_as d s -> CurrentIrql s = 0 -> objects s !! p = Some o ->
  isValidObject s p = true -> 1 <= client s p ->
  exists s', ObDereferenceObject p s = Ok (0, s') /\ account s s' d 0 (fun a => - one (a = p)).
Proof.
  intros I Hd Hi Ep Hv Hc. destruct (drop_run s p d I Hd Hc) as (s' & E & A).
  destruct (client_pos s p Hc) as (o' & Ep' & Hr). pose proof (refs_nonneg s p).
  assert (o' = o) as -> by congruence.
  exists s'. split; [| done]. unfold ObDereferenceObject, ObfDereferenceObjectWithTag.
  rewrite (kbind _ _ s p s); last first.
  { apply (from_self_run s p o Ep); [done | lia]. }
  rewrite (kbind _ _ s tt s); last first.
  { unfold at_dispatch, assert_irql. rewrite (kbind _ _ s 0 s); [done | by unfold KeGetCurrentIrql; rewrite Hi]. }
  unfold DdkDereferenceObject, dereference in E. unfold mbind, M_bind in *.
  destruct (InterlockedDecrement p s) as [[n s1] |]; [| done].
  destruct (Z.eqb_spec n 0); cbn [negb]; [by rewrite E | by injection E as ->].
Qed.

Lemma link_valid s p o :
  kinv s -> objects s !! p = Some o -> type o = IoSymbolicLinkType -> isValidObject s p = true.
Proof.
  intros I Ep Ht. pose proof (o_address _ _ _ (k_objects _ I p o Ep)).
  unfold isValidObject, type_at. rewrite Ep, Ht. by destruct (Z.eqb_spec p 0); [lia |].
Qed.

(** One step from a link to what its destination names; 0 is nothing. *)
Definition hop (s : kernel) (d : directory) (p q : Z) : Prop :=
  exists o t cs, objects s !! p = Some o /\ contents o = Symlink t true /\ holds t cs /\
    q = match dlookup d cs with Some x => x.2 | None => 0 end.

Definition open_link (s : kernel) (p : Z) : Prop :=
  exists o t, objects s !! p = Some o /\ contents o = Symlink t true.

(** Every link has a destination, as [IoCreateSymbolicLink] makes them. *)
Definition links_ok (s : kernel) : Prop := forall a o t e,
  objects s !! a = Some o -> contents o = Symlink t e ->
  exists cs, holds t cs /\ plain cs /\ cs <> [] /\ Z.of_nat (length cs) <= 32766.

Lemma links_after s s' d g f : account s s' d g f -> links_ok s -> links_ok s'.
Proof. intros A L a o t e Ea Ec. destruct (a_links _ _ _ _ _ A a o t e Ea Ec) as (o' & ? & ?). eauto. Qed.

Lemma hop_before s s' d g f p q : account s s' d g f -> hop s' d p q -> hop s d p q.
Proof.
  intros A (o & t & cs & Ep & Ec & Hx). destruct (a_links _ _ _ _ _ A p o t true Ep Ec) as (o' & ? & ?).
  by exists o', t, cs.
Qed.

Lemma absolute_path malloc cs :
  (forall n, 0 <= n -> exists m, malloc n = Some m /\ Z.of_nat (length m) = n) ->
  plain cs -> cs <> [] -> Z.of_nat (length cs) <= 32766 -> path_of malloc None cs cs.
Proof.
  intros. split; try done; [apply plain_nil |]. unfold path_text, path_prefix. by case_bool_decide.
Qed.

(** The kernel with one more reference to what has been looked up. *)
Definition referenced (k : kernel) (p : Z) : kernel :=
  match objects k !! p with Some o => put_at k p (with_count o (refcount o + 1)) | None => k end.

Lemma referenced_at k p o : objects k !! p = Some o -> referenced k p = put_at k p (with_count o (refcount o + 1)).
Proof. unfold referenced. by intros ->. Qed.

Lemma lookup_raw malloc' Dir Name cs k d : path_of malloc' Dir Name cs ->
  kinv k -> CurrentIrql k = 0 -> names_as d k -> room 1 k ->
  DdkLookupName malloc' Name Dir k =
    Ok (match dlookup d cs with Some x => (x.2, referenced k x.2) | None => (0, k) end).
Proof.
  intros P I Hi Hd Rm. destruct (create_path_ok _ _ _ _ P) as (Hp & _ & u & Eu & Hu). pose proof (p_size _ _ _ _ P) as Hs.
  unfold DdkLookupName. rewrite (kbind _ _ k u k) by (unfold lift; by rewrite Eu).
  destruct (DdkFindName_run k u cs d I Hi Hd Hu Hp) as (found & Ef & Hf); [lia |].
  rewrite (kbind _ _ k found k) by done. unfold found_as in Hf. destruct (dlookup d cs) as [x |] eqn:Ed.
  - destruct Hf as (path & -> & _). destruct (dlookup_object d cs x k I Hd Ed) as (o & Eo & Ho & _). cbn iota.
    unfold referenced. rewrite Eo. pose proof (Rm x.2 o Eo). unfold DdkReferenceObject.
    assert (InterlockedIncrement x.2 k = Ok (refcount o + 1, put_at k x.2 (with_count o (refcount o + 1)))) as Ei
      by (apply increment_run; [done | lia]).
    rewrite (kbind _ _ k tt (put_at k x.2 (with_count o (refcount o + 1)))); [done |]. by rewrite (kbind _ _ _ _ _ Ei).
  - by subst found.
Qed.

Definition held_by (p : Z) (a : Z) : Z := one (a = p /\ p <> 0).

Definition recursive : fault := DdkFailed "Recursive Symbolic Link".

(** A link of either kind: one that is not enabled is not followed, but counts. *)
Definition is_link (s : kernel) (p : Z) : Prop := exists o, objects s !! p = Some o /\ type o = IoSymbolicLinkType.

(** Where the links from [p] lead: the chain ends, in time, at anything but an enabled
    link; or it is still at a link after as many as are followed. *)
Definition chain_end (s : kernel) (d : directory) (p q : Z) : Prop := exists n, nsteps (hop s d) n p q /\ (n <= 1001)%nat /\
  ~ open_link s q /\ (n = 1001%nat -> ~ is_link s q).
Definition chain_too_long (s : kernel) (d : directory) (p : Z) : Prop := exists q, nsteps (hop s d) 1001 p q /\ is_link s q.

Lemma hop_functional s d p q q' : hop s d p q -> hop s d p q' -> q = q'.
Proof.
  intros (o & t & cs & Eo & Ec & Ht & ->) (o' & t' & cs' & Eo' & Ec' & Ht' & ->).
  assert (t' = t) as -> by congruence. apply chars_ok in Ht, Ht'.
  by assert (cs' = cs) as -> by congruence.
Qed.

Lemma hop_open s d p q : hop s d p q -> open_link s p.
Proof. intros (o & t & cs & Eo & Ec & _). by exists o, t. Qed.

(** A chain that has come to anything but an enabled link is no longer. *)
Lemma chain_stops s d p q q' n m : nsteps (hop s d) n p q -> ~ open_link s q -> nsteps (hop s d) m p q' ->
  (m <= n)%nat /\ (m = n -> q' = q).
Proof.
  intros Hn. revert m. induction Hn as [p | n p r q Hpr _ IH]; intros m Ho Hm.
  - inversion Hm as [| m' ? r ? Hpr]; subst; [done |]. destruct Ho. by eapply hop_open.
  - inversion Hm as [| m' ? r' ? Hpr' Hm']; subst; [split; lia |].
    rewrite (hop_functional _ _ _ _ _ Hpr' Hpr) in Hm'. destruct (IH m' Ho Hm') as [Hle He]. split; [lia |]. intros. apply He. lia.
Qed.

Lemma chain_end_unique s d p q q' : chain_end s d p q -> chain_end s d p q' -> q = q'.
Proof.
  intros (n & Hn & _ & Ho & _) (m & Hm & _ & Ho' & _).
  destruct (chain_stops _ _ _ _ _ _ _ Hn Ho Hm) as [L1 E], (chain_stops _ _ _ _ _ _ _ Hm Ho' Hn) as [L2 _].
  symmetry. apply E. lia.
Qed.

Lemma chain_end_or_too_long s d p q : chain_end s d p q -> ~ chain_too_long s d p.
Proof.
  intros (n & Hn & Hle & Ho & Hk) (q' & Hm & Hl). destruct (chain_stops _ _ _ _ _ _ _ Hn Ho Hm) as [L E].
  assert (n = 1001%nat) as -> by lia. rewrite (E eq_refl) in Hl. by apply Hk.
Qed.

(** What is left of the loop when [fuel] more turns are allowed. *)
Definition resolved (fuel : nat) (s : kernel) (d : directory) (p : Z) (r : result (Z * kernel)) : Prop :=
  (r = Err recursive /\ exists q, nsteps (hop s d) (fuel - 1) p q /\ is_link s q) \/
  exists n q s' g, r = Ok (q, s') /\ nsteps (hop s d) n p q /\ (n <= fuel - 1)%nat /\
    ~ open_link s q /\ (n = (fuel - 1)%nat -> ~ is_link s q) /\ (q <> 0 -> objects s' !! q <> None) /\
    account s s' d g (fun a => held_by q a - held_by p a).

Lemma link_contents s q o : kinv s -> objects s !! q = Some o -> type o = IoSymbolicLinkType ->
  exists t e, contents o = Symlink t e.
Proof.
  intros I Eo Et. pose proof (o_typed _ _ _ (k_objects _ I q o Eo)) as Hw. unfold well_typed in Hw. rewrite Et in Hw.
  destruct (contents o); try done; [by destruct Hw as (_ & _ & Hw) | eauto].
Qed.

Lemma no_link_at_zero s : kinv s -> ~ open_link s 0 /\ ~ is_link s 0.
Proof. intros I. split; intros (o & Ho); [destruct Ho as (t & Eo & _) | destruct Ho as [Eo _]]; pose proof (o_address _ _ _ (k_objects _ I 0 o Eo)); lia. Qed.

(** A link that is still there is as it was. *)
Lemma open_link_kept s s' d g f q : kinv s -> account s s' d g f -> objects s' !! q <> None -> open_link s q -> open_link s' q.
Proof.
  intros I A Hq (o & t & Eo & Ec). destruct (objects s' !! q) as [o' |] eqn:Eo'; [| done].
  destruct (a_types _ _ _ _ _ A q o' Eo') as (x & Ex & Ht & _). assert (x = o) as -> by congruence.
  pose proof (o_typed _ _ _ (k_objects _ I q o Eo)) as Hl. unfold well_typed in Hl. rewrite Ec in Hl.
  destruct (link_contents s' q o' (a_inv _ _ _ _ _ A) Eo' ltac:(congruence)) as (t' & e & Ec').
  destruct (a_links _ _ _ _ _ A q o' t' e Eo' Ec') as (x & Ex' & Ecx). assert (x = o) as -> by congruence.
  exists o', t. split; [done |]. congruence.
Qed.

Lemma is_link_kept s s' d g f q : account s s' d g f -> objects s' !! q <> None -> is_link s q <-> is_link s' q.
Proof.
  intros A Hq. destruct (objects s' !! q) as [o' |] eqn:Eo'; [| done].
  destruct (a_types _ _ _ _ _ A q o' Eo') as (x & Ex & Ht & _). unfold is_link. rewrite Ex, Eo'.
  split; intros (o & Eo & Et); eexists; (split; [done |]); congruence.
Qed.

Lemma exists_before s s' d g f q : account s s' d g f -> objects s' !! q <> None -> objects s !! q <> None.
Proof.
  intros A Hq. destruct (objects s' !! q) as [o' |] eqn:Eo'; [| done].
  destruct (a_types _ _ _ _ _ A q o' Eo') as (x & -> & _). done.
Qed.

Section resolve.
Context (malloc : Z -> option (list Z)).
Context (Hm : forall n, 0 <= n -> exists m, malloc n = Some m /\ Z.of_nat (length m) = n).

Lemma account_refl s d : kinv s -> names_as d s -> account s s d 0 (fun _ => 0).
Proof.
  intros I Hd. split; try done.
  - intros a o t e Ea. by exists o.
  - intros a o Ea. exists o. repeat split; [done | lia].
  - intros a. lia.
Qed.

Lemma resolve_step fuel s d count p :
  kinv s -> CurrentIrql s = 0 -> names_as d s -> links_ok s -> room 1 s ->
  open_link s p -> 1 <= client s p -> count <= 1000 ->
  exists q s1, resolve_loop (S fuel) malloc count p s = resolve_loop fuel malloc (count + 1) q s1 /\
    hop s d p q /\ account s s1 d 1 (fun a => held_by q a - held_by p a) /\ 
    (q <> 0 -> 1 <= client s1 q).
Proof.
  intros I Hi Hd L Hr (o & t & Ep & Ec) Hc Hcnt.
  pose proof (o_typed _ _ _ (k_objects _ I p o Ep)) as Ht. unfold well_typed in Ht. rewrite Ec in Ht.
  pose proof (o_address _ _ _ (k_objects _ I p o Ep)) as Hp0.
  destruct (L p o t true Ep Ec) as (cs & Hcs & Hpl & Hne & Hlen).
  set (q := match dlookup d cs with Some x => x.2 | None => 0 end).
  destruct (lookup_run malloc None cs cs (absolute_path malloc cs Hm Hpl Hne Hlen) s d I Hi Hd Hr)
    as (s1 & E1 & A1). fold q in E1, A1.
  assert (objects s1 !! p <> None /\ 1 <= client s1 p) as [Hp1 Hc1].
  { assert (1 <= client s1 p) as Hc1.
    { rewrite (a_client _ _ _ _ _ A1). pose proof (one_range (p = q /\ q <> 0)). lia. }
    split; [| done]. destruct (client_pos s1 p Hc1) as (? & -> & _). done. }
  destruct (objects s1 !! p) as [o1 |] eqn:Ep1; [| done]. clear Hp1.
  destruct (a_types _ _ _ _ _ A1 p o1 Ep1) as (o' & Ep' & Et1 & _). assert (o' = o) as -> by congruence.
  rewrite Ht in Et1.
  destruct (obf_dereference_run s1 p o1 d (a_inv _ _ _ _ _ A1) (a_names _ _ _ _ _ A1)) as (s2 & E2 & A2);
    [by rewrite (a_irql _ _ _ _ _ A1) | done | by apply (link_valid s1 p o1 (a_inv _ _ _ _ _ A1)) | done |].
  exists q, s2. split; [| split; [by exists o, t, cs | split]].
  - cbn [resolve_loop]. destruct (Z.eqb_spec p 0); [lia |].
    rewrite (kbind _ _ s o s) by by apply object_at_run. rewrite Ht, Z.eqb_refl. cbn [negb].
    destruct (Z.gtb_spec count 1000); [lia |].
    rewrite (kbind _ _ s (t, true) s); last first.
    { unfold link_body. rewrite (kbind _ _ s o s) by by apply object_at_run. by rewrite Ec. }
    cbn [negb]. rewrite (kbind _ _ s cs s) by (unfold lift; by rewrite (chars_ok t cs)).
    by rewrite (kbind _ _ s q s1), (kbind _ _ s1 0 s2).
  - eapply account_ext; [| apply (account_trans _ _ _ _ _ _ _ _ _ A1 A2)].
    intros a. unfold held_by, one. repeat case_decide; lia || tauto.
  - intros Hq. rewrite (a_client _ _ _ _ _ A2), (a_client _ _ _ _ _ A1).
    rewrite (one_yes (q = q /\ q <> 0)) by done. pose proof (client_nonneg s q I).
    destruct (decide (q = p)) as [E | E]; [rewrite one_yes by done; rewrite <- E in Hc | rewrite one_no by done]; lia.
Qed.

Lemma resolve_run fuel : forall s d count p,
  kinv s -> CurrentIrql s = 0 -> names_as d s -> links_ok s -> room (Z.of_nat fuel) s ->
  (p <> 0 -> 1 <= client s p) -> (0 < fuel)%nat -> 0 <= count -> count + Z.of_nat fuel = 1002 ->
  resolved fuel s d p (resolve_loop fuel malloc count p s).
Proof.
  induction fuel as [| fuel IH]; intros s d count p I Hi Hd L Hr Hc Hf Hcnt Hsum; [lia |].
  assert (open_link s p \/ ~ open_link s p) as [Hl | Hl].
  { destruct (objects s !! p) as [o |] eqn:Ep; [| right; intros (o & t & ? & _); congruence].
    destruct (contents o) as [| | | | t [] |] eqn:Ec; try (right; intros (o' & t' & ? & ?); congruence).
    left. by exists o, t. }
  - assert (p <> 0) as Hp0.
    { intros ->. destruct Hl as (o & t & Ep & _). pose proof (o_address _ _ _ (k_objects _ I 0 o Ep)). lia. }
    destruct (Z.le_gt_cases count 1000) as [Hle | Hgt].
    + destruct (resolve_step fuel s d count p I Hi Hd L) as (q & s1 & -> & Hh & A & Hq);
        [apply (room_less (Z.of_nat (S fuel))); [lia | done] | done | auto | done |].
      assert (resolved fuel s1 d q (resolve_loop fuel malloc (count + 1) q s1)) as R.
      { apply IH; try apply A; try lia.
        - by rewrite (a_irql _ _ _ _ _ A).
        - by apply (links_after s s1 d 1 _ A).
        - apply (room_after s s1 d 1 _ _ A). by replace (Z.of_nat fuel + 1) with (Z.of_nat (S fuel)) by lia. }
      assert (forall x y, hop s1 d x y -> hop s d x y) as Hb by (intros x y; by apply (hop_before s s1 d 1 _ x y A)).
      destruct R as [[-> (q' & Hn & Hk)] | (n & q' & s2 & g & -> & Hn & Hle' & Ho & Hk & Hx & A2)].
      * left. split; [done |]. exists q'. replace (S fuel - 1)%nat with (S (fuel - 1)) by lia. split.
        { apply (nsteps_l _ _ p q); [done |]. exact (nsteps_weaken _ _ Hb _ _ _ Hn). }
        { apply (is_link_kept s s1 d 1 _ q' A); [| done]. destruct Hk as (o & -> & _). done. }
      * right. exists (S n), q', s2, (1 + g). split; [done |]. split.
        { apply (nsteps_l _ _ p q); [done |]. exact (nsteps_weaken _ _ Hb _ _ _ Hn). }
        split; [lia |]. split; [| split; [| split; [done |]]].
        { destruct (Z.eq_dec q' 0) as [-> | Nq]; [by apply no_link_at_zero |]. intros Hopen. apply Ho.
          apply (open_link_kept s s1 d 1 _ q' I A); [| done]. by apply (exists_before s1 s2 d g _ q' A2), Hx. }
        { intros En. destruct (Z.eq_dec q' 0) as [-> | Nq]; [by apply no_link_at_zero |].
          rewrite (is_link_kept s s1 d 1 _ q' A); [apply Hk; lia |]. by apply (exists_before s1 s2 d g _ q' A2), Hx. }
        eapply account_ext; [| apply (account_trans _ _ _ _ _ _ _ _ _ A A2)]. intros a. simpl. lia.
    + left. assert (fuel = 0%nat) as -> by lia. assert (count = 1001) as -> by lia.
      destruct Hl as (o & t & Ep & Ec). pose proof (o_typed _ _ _ (k_objects _ I p o Ep)) as Ht.
      unfold well_typed in Ht. rewrite Ec in Ht. split.
      * cbn [resolve_loop]. apply Z.eqb_neq in Hp0. rewrite Hp0.
        rewrite (kbind _ _ s o s) by by apply object_at_run. by rewrite Ht.
      * exists p. split; [constructor | by exists o].
  - destruct (Z.eqb_spec p 0) as [-> | Hp0].
    { right. exists 0%nat, 0, s, 0. split; [done |]. split; [constructor |]. split; [lia |]. split; [done |].
      split; [intros _; by apply no_link_at_zero |]. split; [done |].
      apply (account_ext _ _ _ _ (fun _ => 0)); [intros a; lia | by apply account_refl]. }
    destruct (client_pos s p (Hc Hp0)) as (o & Ep & _). unfold resolved. cbn [resolve_loop].
    apply Z.eqb_neq in Hp0 as Hp. rewrite Hp, (kbind _ _ s o s) by by apply object_at_run.
    assert ((fuel = 0%nat -> ~ is_link s p) -> exists n q s' g, Ok (p, s) = Ok (q, s') /\ nsteps (hop s d) n p q /\ (n <= S fuel - 1)%nat /\
      ~ open_link s q /\ (n = (S fuel - 1)%nat -> ~ is_link s q) /\ (q <> 0 -> objects s' !! q <> None) /\
      account s s' d g (fun a => held_by q a - held_by p a)) as Hstop.
    { intros Hk. exists 0%nat, p, s, 0. split; [done |]. split; [constructor |]. split; [lia |]. split; [done |].
      split; [intros En; apply Hk; lia |]. split; [by rewrite Ep |].
      apply (account_ext _ _ _ _ (fun _ => 0)); [intros a; lia | by apply account_refl]. }
    destruct (Z.eqb_spec (type o) IoSymbolicLinkType) as [Et | Et]; cbn [negb].
    2: { right. apply Hstop. intros _ (o' & Eo' & Et'). congruence. }
    destruct (Z.gtb_spec count 1000).
    + left. split; [done |]. assert (fuel = 0%nat) as -> by lia. exists p. split; [constructor | by exists o].
    + right. destruct (link_contents s p o I Ep Et) as (t & e & Ec). destruct e; [destruct Hl; by exists o, t |].
      rewrite (kbind _ _ s (t, false) s); [apply Hstop; lia |].
      unfold link_body. rewrite (kbind _ _ s o s) by by apply object_at_run. by rewrite Ec.
Qed.
End resolve.

(** C9. Resolving a symbolic link ends, and at what is determined by the chain of names.
    [hop] goes from a link that is enabled to what its destination names, or to
    nothing.  If the chain from [p] ends, at anything but an enabled link, after at
    most 1001 of them, there is where it ends, the caller's reference to the first
    object is exchanged for one to the last, and every reference taken on the way is given
    back; if it still is at a link after 1001 - a cycle is - the call stops with the
    failure the code has for it.  Only one of the two can be. *)
Theorem DdkResolveSymbolicLink_spec malloc s d p
  (Hm : forall n, 0 <= n -> exists m, malloc n = Some m /\ Z.of_nat (length m) = n)
  (I : kinv s) (Hi : CurrentIrql s = 0) (Hd : names_as d s) (L : links_ok s) (R : room 1002 s)
  (Hc : p <> 0 -> 1 <= client s p) :
  (DdkResolveSymbolicLink malloc p s = Err recursive /\ chain_too_long s d p) \/
  exists q s', DdkResolveSymbolicLink malloc p s = Ok (q, s') /\ chain_end s d p q /\
    kinv s' /\ names_as d s' /\ (q <> 0 -> objects s' !! q <> None) /\
    forall a, client s' a = client s a + one (a = q /\ q <> 0) - one (a = p /\ p <> 0).
Proof.
  destruct (resolve_run malloc Hm 1002 s d 0 p I Hi Hd L R Hc) as [[E Hq] | (n & q & s' & g & E & Hr & Hn & Ho & Hk & Hx & A)];
    [lia | lia | done | by left |].
  right. exists q, s'. split; [done |]. split; [exists n; split; [done |]; split; [lia | done] |].
  split; [apply A |]. split; [apply A |]. split; [done |]. intros a. rewrite (a_client _ _ _ _ _ A). unfold held_by. lia.
Qed.
End spec.
