(* ===== verification/HandleSpec.v ===== *)
(** * HandleSpec: pointers and handles lead back to the object *)

From S2P Require Import Prelude Strings StringsOps StringsSpec Objects Names NamesPath.
From S2P Require Import ObjectsInv ObjectsSpec NamesSpec SymlinkSpec ResolveSpec.

Section spec.
Context `{Environment} `{Locale} `{LL : !LocaleLaws}.

(** A live object at an even address, as [calloc] gives them. *)
Record live (s : kernel) (p : Z) (o : OBJECT) : Prop := {
  l_at : objects s !! p = Some o;
  l_count : 0 < refcount o;
  l_even : Z.even p = true;
  l_address : p < 2 ^ 64
}.

Lemma clear_low_bit p : 0 < p < 2 ^ 64 -> Z.even p = true ->
  Z.land p (u64 (Z.lnot 1)) = p /\ Z.land (Z.lor p 1) (u64 (Z.lnot 1)) = p.
Proof.
  intros Hp He. assert (u64 (Z.lnot 1) = 2 ^ 64 - 2) as -> by done.
  assert (Z.testbit p 0 = false) as H0t by (rewrite Z.bit0_odd, <- Z.negb_even; by rewrite He).
  assert (forall k, 0 <= k -> Z.testbit (2 ^ 64 - 2) k = (1 <=? k) && (k <? 64)) as Ht.
  { intros k Hk. replace (2 ^ 64 - 2) with (Z.shiftl (Z.ones 63) 1) by done.
    rewrite Z.shiftl_spec, Z.testbit_ones by lia. case_z; simpl; lia || done. }
  assert (forall k, 64 <= k -> Z.testbit p k = false) as Hh by (intros; apply (testbit_above 64); lia).
  assert (forall k, 0 <= k -> Z.testbit 1 k = (k =? 0)) as H1t.
  { intros k Hk. change 1 with (2 ^ 0) at 1. rewrite Z.pow2_bits_eqb by lia. by rewrite Z.eqb_sym. }
  split; apply Z.bits_inj'; intros k Hk; rewrite !Z.land_spec, ?Z.lor_spec, Ht, ?H1t by done;
    (destruct (Z.eq_dec k 0) as [-> | Hk0]; [by rewrite H0t |]);
    (destruct (Z.lt_ge_cases k 64); [| rewrite Hh by lia]);
    case_z; try lia; by rewrite ?orb_false_r, ?andb_true_r.
Qed.

Lemma is_handle_run s p o : kinv s -> objects s !! p = Some o ->
  isHandleObject p s = Ok (isValidObject s p && (refcount o >? 0) && is_handle_type (type o), s).
Proof.
  intros I Ep. unfold isHandleObject. destruct (isValidObject s p); [| done].
  by rewrite (kbind _ _ s o s) by by apply object_at_run.
Qed.

Lemma from_handle_run s p o h : kinv s -> objects s !! p = Some o -> Z.land h (u64 (Z.lnot 1)) = p ->
  FromHandle h s =
    Ok (if isValidObject s p && (refcount o >? 0) && is_handle_type (type o) then p else 0, s).
Proof.
  intros I Ep <-. unfold FromHandle. cbv zeta.
  by rewrite (kbind _ _ s _ s (is_handle_run s _ o I Ep)).
Qed.

(** The pointer and the handle a driver is given for an object. *)
Lemma from_pointer_run s p o :
  kinv s -> live s p o -> isValidObject s p = true ->
  exists q, ToPointer p s = Ok (q, s) /\ FromPointer q s = Ok (p, s).
Proof.
  intros I [Ep Hc _ _] Hv. unfold ToPointer. destruct (isPublicObject s p) eqn:Hpub.
  - exists (p + sizeof_OBJECT). split; [done |]. apply (from_public_run s p o); try done.
    unfold isPublicObject, type_at in Hpub. rewrite Ep in Hpub. by apply andb_true_iff in Hpub as [_ ?].
  - exists p. split; [done |]. by apply (from_self_run s p o).
Qed.

(** Pointers and handles lead back to the object they were made from: the
    pointer a driver gets, past the header for files, devices and drivers, is turned
    back into the header, and so is the handle, whether or not its low bit is set -
    if the type is one that has handles, and into nothing if it is not. *)
Theorem pointer_handle_roundtrip s p o
  (I : kinv s) (L : live s p o) (Hv : isValidObject s p = true) :
  (exists q, ToPointer p s = Ok (q, s) /\ FromPointer q s = Ok (p, s) /\
     q = (if is_public_type (type o) then p + sizeof_OBJECT else p)) /\
  FromHandle (ToHandle p) s = Ok (if is_handle_type (type o) then p else 0, s) /\
  FromHandle p s = Ok (if is_handle_type (type o) then p else 0, s).
Proof.
  pose proof L as [Ep Hc He Ha]. pose proof (o_address _ _ _ (k_objects _ I p o Ep)).
  destruct (clear_low_bit p) as [Hl1 Hl2]; [lia | done |]. split; [| split].
  - destruct (from_pointer_run s p o I L Hv) as (q & E & E'). exists q. split; [done |]. split; [done |].
    unfold ToPointer, isPublicObject, type_at in E. rewrite Ep in E. destruct (Z.eqb_spec p 0); [lia |].
    simpl in E. by injection E as <-.
  - rewrite (from_handle_run s p o) by done. rewrite Hv. by destruct (Z.gtb_spec (refcount o) 0); [| lia].
  - rewrite (from_handle_run s p o) by done. rewrite Hv. by destruct (Z.gtb_spec (refcount o) 0); [| lia].
Qed.

Lemma irql_run s n : CurrentIrql s = n -> KeGetCurrentIrql s = Ok (n, s).
Proof. unfold KeGetCurrentIrql. by intros ->. Qed.

(** [ObReferenceObjectByHandle] on a handle of a live object: the status is that
    of the first check that fails and then nothing changes; when all hold the driver
    gets the object's pointer and exactly one reference. *)
Theorem ObReferenceObjectByHandle_spec s p o d h ty
  (I : kinv s) (L : live s p o) (Hv : isValidObject s p = true) (Hh : h = ToHandle p \/ h = p)
  (Hi : CurrentIrql s = PASSIVE_LEVEL) (Hd : names_as d s) (R : refcount o < 2 ^ 31 - 1) :
  (is_handle_type (type o) = false ->
     ObReferenceObjectByHandle h ty None s = Ok ((STATUS_INVALID_HANDLE, None), s)) /\
  (is_handle_type (type o) = true -> ty <> None -> ty <> Some (type o) ->
     ObReferenceObjectByHandle h ty None s = Ok ((STATUS_OBJECT_TYPE_MISMATCH, None), s)) /\
  (is_handle_type (type o) = true -> ty = None \/ ty = Some (type o) ->
     exists q s', ObReferenceObjectByHandle h ty None s = Ok ((STATUS_SUCCESS, Some q), s') /\
       kinv s' /\ FromPointer q s' = Ok (p, s') /\ forall a, client s' a = client s a + one (a = p)).
Proof.
  pose proof L as [Ep Hc He Ha]. pose proof (o_address _ _ _ (k_objects _ I p o Ep)) as Hp.
  assert (Z.land h (u64 (Z.lnot 1)) = p) as Hl.
  { destruct (clear_low_bit p) as [Hl1 Hl2]; [lia | done |]. by destruct Hh as [-> | ->]. }
  unfold ObReferenceObjectByHandle, ObReferenceObjectByHandleWithTag.
  rewrite (kbind _ _ s _ s (from_handle_run s p o h I Ep Hl)), Hv.
  replace (refcount o >? 0) with true by (symmetry; rewrite Z.gtb_ltb; apply Z.ltb_lt; lia).
  split; [by intros -> |]. assert (p <> 0) as Hp0%Z.eqb_neq by lia.
  destruct (from_pointer_run s p o I L Hv) as (q & Eq & Efp).
  split.
  - intros -> Hn1 Hn2. simpl. rewrite Hp0.
    rewrite (kbind _ _ s tt s) by (unfold at_passive, assert_irql; by rewrite (kbind _ _ s _ s (irql_run s _ Hi))).
    rewrite (kbind _ _ s tt s) by done. rewrite (kbind _ _ s q s) by done.
    rewrite (kbind _ _ s STATUS_OBJECT_TYPE_MISMATCH s); [done |].
    unfold ObReferenceObjectByPointerWithTag. rewrite (kbind _ _ s p s) by done.
    rewrite (kbind _ _ s tt s) by (unfold at_dispatch, assert_irql; by rewrite (kbind _ _ s _ s (irql_run s _ Hi))).
    rewrite (kbind _ _ s o s) by by apply object_at_run. destruct ty as [t |]; [| done].
    destruct (Z.eqb_spec t (type o)); [congruence | done].
  - intros -> Hty. simpl. rewrite Hp0.
    rewrite (kbind _ _ s tt s) by (unfold at_passive, assert_irql; by rewrite (kbind _ _ s _ s (irql_run s _ Hi))).
    rewrite (kbind _ _ s tt s) by done. rewrite (kbind _ _ s q s) by done.
    destruct (refer_run s p o d I Hd Ep) as (s' & E' & A); [lia |].
    pose proof (increment_run s p o Ep ltac:(lia)) as Ei. unfold DdkReferenceObject in E'.
    rewrite (kbind _ _ s _ _ Ei) in E'. injection E' as <-.
    set (o' := with_count o (refcount o + 1)) in *.
    destruct (from_pointer_run (put_at s p o') p o') as (q' & Eq' & Ef').
    { apply A. }
    { split; [apply lookup_insert_eq | simpl; lia | done | done]. }
    { by rewrite (valid_put s p o). }
    exists q', (put_at s p o'). split; [| split; [apply A | split; [done | apply A]]].
    rewrite (kbind _ _ s STATUS_SUCCESS (put_at s p o')).
    + cbn [Z.eqb negb]. change (STATUS_SUCCESS =? STATUS_SUCCESS) with true. cbn [negb].
      by rewrite (kbind _ _ (put_at s p o') q' (put_at s p o')).
    + unfold ObReferenceObjectByPointerWithTag. rewrite (kbind _ _ s p s) by done.
      rewrite (kbind _ _ s tt s) by (unfold at_dispatch, assert_irql; by rewrite (kbind _ _ s _ s (irql_run s _ Hi))).
      rewrite (kbind _ _ s o s) by by apply object_at_run.
      assert (match ty with Some t => negb (t =? type o) | None => false end = false) as ->
        by (destruct Hty as [-> | ->]; [done | by rewrite Z.eqb_refl]).
      by rewrite (kbind _ _ s _ _ Ei).
Qed.

(** [ZwClose] of a handle gives back one reference of the object it is for, and
    frees what that leaves unreferenced; a handle of no object, or of one that has
    no handles, is refused and changes nothing. *)
Theorem ZwClose_spec s p o d h
  (I : kinv s) (L : live s p o) (Hv : isValidObject s p = true) (Hh : h = ToHandle p \/ h = p)
  (Hi : CurrentIrql s = PASSIVE_LEVEL) (Hd : names_as d s) (Hc : 1 <= client s p) :
  (is_handle_type (type o) = false -> ZwClose h s = Ok (STATUS_INVALID_HANDLE, s)) /\
  (is_handle_type (type o) = true ->
     exists s', ZwClose h s = Ok (STATUS_SUCCESS, s') /\ kinv s' /\ names_as d s' /\
       (forall a, client s' a = client s a - one (a = p)) /\ forall a, dead s' a -> dead s a).
Proof.
  pose proof L as [Ep Hcp He Ha]. pose proof (o_address _ _ _ (k_objects _ I p o Ep)) as Hp.
  assert (Z.land h (u64 (Z.lnot 1)) = p) as Hl.
  { destruct (clear_low_bit p) as [Hl1 Hl2]; [lia | done |]. by destruct Hh as [-> | ->]. }
  unfold ZwClose. rewrite (kbind _ _ s _ s (from_handle_run s p o h I Ep Hl)), Hv.
  replace (refcount o >? 0) with true by (symmetry; rewrite Z.gtb_ltb; apply Z.ltb_lt; lia).
  split; [by intros -> |]. intros ->. simpl. assert (p <> 0) as Hp0%Z.eqb_neq by lia. rewrite Hp0.
  rewrite (kbind _ _ s tt s) by (unfold at_passive, assert_irql; by rewrite (kbind _ _ s _ s (irql_run s _ Hi))).
  destruct (obf_dereference_run s p o d I Hd Hi Ep) as (s' & E & A); [done | done |].
  exists s'. rewrite (kbind _ _ s 0 s') by done. split; [done |]. split; [apply A |]. split; [apply A |].
  split; [| apply A]. intros a. rewrite (a_client _ _ _ _ _ A). lia.
Qed.
End spec.
