(* ===== verification/ObjectsExamples.v ===== *)
(** * ObjectsExamples: the theorems on objects and names, at one state

    A driver at 1000 with one device at 2000, named [\D]; a file at 3000 that is
    open on it; a link at 4000 to [\D], named [\L]; an event at 6000.  Clients hold
    the file, the link and the event. *)

From S2P Require Import Prelude Strings StringsOps StringsSpec Objects Names NamesPath.
From S2P Require Import ObjectsInv ObjectsSpec NamesSpec SymlinkSpec ResolveSpec HandleSpec.

#[local] Instance env : Environment :=
  {| stray := fun _ => 0; GetCurrentProcess := 2 ^ 64 - 1; hive := 1 |}.

#[local] Instance locale : Locale := c_locale.

#[local] Instance locale_laws : LocaleLaws := c_locale_laws.

Definition str (cs : list Z) : UNICODE_STRING :=
  mkStr (2 * Z.of_nat (length cs)) (2 * Z.of_nat (length cs) + 2) (Some (encode cs ++ [0; 0])).

Definition nameD : list Z := [92; 68].
Definition nameL : list Z := [92; 76].
Definition nameM : list Z := [92; 77].
Definition nameM' : list Z := [92; 109].

Definition demo : kernel := mkKernel
  (list_to_map [
    (1000, mkObject IoDriverType true 1 0 (Driver 77 [2016]));
    (2000, mkObject IoDeviceType true 2 0 (Device 1016));
    (3000, mkObject IoFileType true 1 0 (File 2016));
    (4000, mkObject IoSymbolicLinkType true 2 0 (Symlink (str nameD) true));
    (6000, mkObject EventType true 1 9 Plain)])
  [mkName 500 4000 (str nameL); mkName 400 2000 (str nameD)] PASSIVE_LEVEL [].

Definition demo_names : directory := [(nameL, 4000); (nameD, 2000)].

Lemma demo_cases p o : objects demo !! p = Some o ->
  (p = 1000 /\ o = mkObject IoDriverType true 1 0 (Driver 77 [2016])) \/
  (p = 2000 /\ o = mkObject IoDeviceType true 2 0 (Device 1016)) \/
  (p = 3000 /\ o = mkObject IoFileType true 1 0 (File 2016)) \/
  (p = 4000 /\ o = mkObject IoSymbolicLinkType true 2 0 (Symlink (str nameD) true)) \/
  (p = 6000 /\ o = mkObject EventType true 1 9 Plain).
Proof.
  intros E. apply elem_of_list_to_map_2 in E. rewrite !elem_of_cons, elem_of_nil in E.
  destruct E as [[= -> ->] | [[= -> ->] | [[= -> ->] | [[= -> ->] | [[= -> ->] | []]]]]]; tauto.
Qed.

Lemma demo_lists : lists demo 1000 2000.
Proof.
  exists (mkObject IoDriverType true 1 0 (Driver 77 [2016])), 77, [2016].
  split; [done |]. split; [done | by left].
Qed.

Lemma demo_device : device_of demo 2000 1016.
Proof. by exists (mkObject IoDeviceType true 2 0 (Device 1016)). Qed.

Lemma demo_kinv : kinv demo.
Proof.
  split.
  - intros p o Ep. destruct (demo_cases p o Ep) as [[-> ->] | [[-> ->] | [[-> ->] | [[-> ->] | [-> ->]]]]].
    all: split; try done; simpl contents; try (by intros ? ?); try (by vm_compute).
    + intros i ds [= <- <-]. split; [apply NoDup_singleton |].
      intros d ->%list_elem_of_singleton. apply demo_device.
    + intros drv [= <-] _. exists 1000. split; [done | apply demo_lists].
    + intros d [= <-] _ _. exists 2000, 1016. split; [done | apply demo_device].
  - simpl. apply (bool_decide_unpack _). by vm_compute.
  - intros e [-> | [-> | Hin%elem_of_nil]%elem_of_cons]%elem_of_cons; [by eexists | by eexists | done].
Qed.

Lemma plain_of cs : forallb (fun c => (0 <? c) && (c <? 2 ^ 16)) cs = true -> plain cs.
Proof.
  intros Hf. rewrite forallb_forall in Hf. split; apply Forall_forall; intros c Hc%list_elem_of_In%Hf;
    apply andb_true_iff in Hc as [Hl Hu]; unfold is_wchar; lia.
Qed.

Lemma holds_str cs : plain cs -> holds (str cs) cs.
Proof. intros. by apply holds_mk. Qed.

Lemma demo_named : names_as demo_names demo.
Proof.
  assert (forall cs a b, plain cs -> Z.of_nat (length cs) < 2 ^ 15 -> entry_is (mkName a b (str cs)) (cs, b)) as He.
  { intros cs a b Hp Hl. split; [by apply holds_str |]. by split. }
  constructor; [| constructor; [| constructor]]; apply He; by (apply plain_of || done).
Qed.

Lemma demo_room : room 1002 demo.
Proof. intros p o Ep. destruct (demo_cases p o Ep) as [[-> ->] | [[-> ->] | [[-> ->] | [[-> ->] | [-> ->]]]]]; done. Qed.

Lemma demo_path cs : plain cs -> cs <> [] -> Z.of_nat (length cs) <= 32766 -> path_of zeros None cs cs.
Proof. by apply absolute_path, zeros_ok. Qed.

Lemma demo_fresh : fresh demo 5000.
Proof.
  split; [done |]. split; [done |]. intros q o Eq _.
  destruct (demo_cases q o Eq) as [[-> ->] | [[-> ->] | [[-> ->] | [[-> ->] | [-> ->]]]]]; done.
Qed.

Lemma demo_links : links_ok demo.
Proof.
  intros p o t e Ep Ec. destruct (demo_cases p o Ep) as [[-> ->] | [[-> ->] | [[-> ->] | [[-> ->] | [-> ->]]]]];
    try done. injection Ec as <- <-. exists nameD.
  split; [by apply holds_str, plain_of |]. split; [by apply plain_of | done].
Qed.

Lemma demo_live : live demo 6000 (mkObject EventType true 1 9 Plain).
Proof. done. Qed.

(** ** Witnesses *)

Lemma DdkDereferenceObject_spec_witness :
  1 <= client demo 3000 /\
  exists s', DdkDereferenceObject 3000 demo = Ok (tt, s') /\ kinv s' /\
    DdkNameList s' = DdkNameList demo /\
    (forall a, client s' a = client demo a - one (a = 3000)) /\ (forall a, dead s' a -> dead demo a).
Proof.
  split; [by vm_compute |]. apply DdkDereferenceObject_spec; [apply demo_kinv | by vm_compute].
Defined.

Lemma DdkRemoveObjectName_spec_witness :
  exists s', DdkRemoveObjectName 2000 demo = Ok (tt, s') /\ kinv s' /\
    DdkNameList s' = filter (fun e => Object e <> 2000) (DdkNameList demo) /\
    (forall a, client s' a = client demo a) /\ (forall a, dead s' a -> dead demo a).
Proof. apply DdkRemoveObjectName_spec, demo_kinv. Defined.

(** When the name is gone the file is the last to hold the device, and the device
    the driver: closing the file frees the three of them. *)
Example demo_cascade :
  match (_ ← DdkRemoveObjectName 2000; DdkDereferenceObject 3000) demo with
  | Ok (_, s') => (map_to_list (objects s')).*1 = [6000; 4000] /\
      events s' = [Freed 3000; Freed 2000; Freed 1000; DdkUnloadImage 77]
  | Err _ => False
  end.
Proof. by vm_compute. Qed.

(** [\M] and [\m] are one name; the event at 6000 gets it. *)
Lemma DdkInsertName_DdkLookupName_witness :
  exists s',
    (ok ← DdkInsertName zeros (Some 600) (Some nameM) 6000 None;
     q ← DdkLookupName zeros nameM' None;
     mret (ok, q)) demo = Ok ((true, 6000), s') /\
    kinv s' /\ names_as ((nameM, 6000) :: demo_names) s' /\
    forall b, client s' b = client demo b + one (b = 6000).
Proof.
  apply (DdkInsertName_DdkLookupName zeros None nameM nameM None nameM' nameM' demo 6000 600 demo_names).
  - by apply demo_path; [apply plain_of | |].
  - by apply demo_path; [apply plain_of | |].
  - by vm_compute.
  - by vm_compute.
  - apply demo_kinv.
  - done.
  - apply demo_named.
  - by apply (room_less 1002), demo_room.
  - by vm_compute.
  - apply (bool_decide_unpack _). by vm_compute.
Defined.

Lemma DdkCreateName_collision_witness :
  (exists path s', DdkCreateName zeros (Some 600) (Some nameD) 6000 None demo = Ok ((2000, path), s') /\
     kinv s' /\ names_as demo_names s' /\
     forall b, client s' b = client demo b + one (b = 2000) - one (b = 6000)) /\
  (exists s', DdkInsertName zeros (Some 600) (Some nameD) 6000 None demo = Ok (2000 =? 6000, s') /\
     kinv s' /\ names_as demo_names s' /\
     forall b, client s' b = client demo b - if 2000 =? 6000 then 0 else one (b = 6000)).
Proof.
  apply (DdkCreateName_collision zeros None nameD nameD (nameD, 2000) demo 6000 600 demo_names).
  - by apply demo_path; [apply plain_of | |].
  - by vm_compute.
  - apply demo_kinv.
  - done.
  - apply demo_named.
  - by apply (room_less 1002), demo_room.
  - by vm_compute.
  - apply (bool_decide_unpack _). by vm_compute.
Defined.

Lemma IoCreateSymbolicLink_spec_witness :
  exists st s', IoCreateSymbolicLink zeros (Some 5000) (Some 600) (Some nameM) (Some nameD) demo = Ok (st, s') /\
    st = STATUS_SUCCESS /\ kinv s' /\ names_as ((nameM, 5000) :: demo_names) s'.
Proof.
  destruct (IoCreateSymbolicLink_spec zeros nameM nameM nameD
    (demo_path nameM (plain_of nameM eq_refl) ltac:(done) ltac:(done)) (plain_of nameD eq_refl)
    ltac:(done) ltac:(done) demo 5000 600 demo_names demo_kinv eq_refl demo_named
    (room_less 1002 1 demo ltac:(done) demo_room) demo_fresh)
    as (st & s' & E & I & _ & D); [apply (bool_decide_unpack _); by vm_compute |].
  exists st, s'. destruct (dlookup demo_names nameM) eqn:Ed; [by vm_compute in Ed |].
  destruct D as (-> & N & _). done.
Defined.

(** A link, and the name of a device. *)
Lemma IoDeleteSymbolicLink_spec_witness :
  (exists st s', IoDeleteSymbolicLink zeros (Some nameL) demo = Ok (st, s') /\ kinv s' /\
     deleted nameL demo s' demo_names st) /\
  (exists st s', IoDeleteSymbolicLink zeros (Some nameD) demo = Ok (st, s') /\ kinv s' /\
     deleted nameD demo s' demo_names st).
Proof.
  split; apply IoDeleteSymbolicLink_spec; try apply demo_kinv; try apply demo_named; try done;
    try (by apply (room_less 1002), demo_room); by apply demo_path; [apply plain_of | |].
Defined.

Lemma symbolic_link_leaks_witness :
  exists s' o,
    (st1 ← IoCreateSymbolicLink zeros (Some 5000) (Some 600) (Some nameM) (Some nameD);
     st2 ← IoDeleteSymbolicLink zeros (Some nameM);
     mret (st1, st2)) demo = Ok ((STATUS_SUCCESS, STATUS_SUCCESS), s') /\
    kinv s' /\ names_as demo_names s' /\ objects s' !! 5000 = Some o /\ 0 < refcount o.
Proof.
  apply (symbolic_link_leaks zeros nameM nameM nameD).
  - by apply demo_path; [apply plain_of | |].
  - by apply plain_of.
  - done.
  - done.
  - apply demo_kinv.
  - done.
  - apply demo_named.
  - by apply (room_less 1002), demo_room.
  - apply demo_fresh.
  - apply (bool_decide_unpack _). by vm_compute.
  - by vm_compute.
Defined.

Lemma DdkResolveSymbolicLink_spec_witness :
  exists q s', DdkResolveSymbolicLink zeros 4000 demo = Ok (q, s') /\ chain_end demo demo_names 4000 q /\ kinv s'.
Proof.
  destruct (DdkResolveSymbolicLink_spec zeros demo demo_names 4000 zeros_ok demo_kinv eq_refl demo_named
    demo_links demo_room) as [[E _] | (q & s' & E & Hr & I & _)].
  - intros _. by vm_compute.
  - by vm_compute in E.
  - by exists q, s'.
Defined.

Lemma pointer_handle_roundtrip_witness :
  FromHandle (ToHandle 6000) demo = Ok (6000, demo).
Proof.
  destruct (pointer_handle_roundtrip demo 6000 (mkObject EventType true 1 9 Plain) demo_kinv demo_live)
    as (_ & E & _); [by vm_compute | exact E].
Defined.

Lemma ObReferenceObjectByHandle_spec_witness :
  exists q s', ObReferenceObjectByHandle 6001 (Some EventType) None demo = Ok ((STATUS_SUCCESS, Some q), s') /\
    kinv s' /\ FromPointer q s' = Ok (6000, s') /\ forall a, client s' a = client demo a + one (a = 6000).
Proof.
  apply (ObReferenceObjectByHandle_spec demo 6000 (mkObject EventType true 1 9 Plain) demo_names 6001
    (Some EventType) demo_kinv demo_live); try done; try apply demo_named; first [by left | by right | by vm_compute].
Defined.

Lemma ZwClose_spec_witness :
  exists s', ZwClose 6000 demo = Ok (STATUS_SUCCESS, s') /\ kinv s' /\ names_as demo_names s' /\
    (forall a, client s' a = client demo a - one (a = 6000)) /\ forall a, dead s' a -> dead demo a.
Proof.
  apply (ZwClose_spec demo 6000 (mkObject EventType true 1 9 Plain) demo_names 6000 demo_kinv demo_live);
    try done; try apply demo_named; first [by left | by right | by vm_compute].
Defined.
