(* ===== verification/Dispatcher.v ===== *)
(** * Dispatcher: events, mutexes, semaphores and waits

    event.cpp, mutex.cpp, semaphore.cpp, wait.cpp and the wait times of time.cpp.
    A dispatcher object is a record in memory with the handle of an object of the
    operating system.  What the operating system does with its objects is the
    class [WIN32_SYNC]; a handle is a number and 0 is no handle.  Each call is made
    by a thread [t] at level [irql].  [DdkInitializeObject], which zeroes the memory,
    and the named events of [DdkCreateEvent] are in Objects and Names.  The object
    an event is in is live, so that [FromPointer] gives it. *)

From S2P Require Import Prelude.

(** ** The operating system *)

Definition INFINITE : Z := 2 ^ 32 - 1.
Definition WAIT_OBJECT_0 : Z := 0.
Definition WAIT_IO_COMPLETION : Z := 0xC0.
Definition WAIT_TIMEOUT : Z := 0x102.
Definition MAXIMUM_WAIT_OBJECTS : Z := 64.

Class WIN32_SYNC := {
  osobj : Type;
  (** the objects that [CreateEvent], [CreateMutex] and [CreateSemaphore] make *)
  new_event (manual initial : bool) : osobj;
  new_mutex : osobj;
  new_semaphore (count limit : Z) : option osobj;
  SetEvent : osobj -> osobj;
  ResetEvent : osobj -> osobj;
  (** [ReleaseMutex] by a thread; [None]: it is not the owner *)
  ReleaseMutex (thread : Z) (o : osobj) : option osobj;
  (** [ReleaseSemaphore]: the count before; [None]: over the limit *)
  ReleaseSemaphore (o : osobj) (n : Z) : option (Z * osobj);
  (** [WaitForSingleObject(h, 0)]: the object after the wait; [None]: it times out *)
  poll (thread : Z) (o : osobj) : option osobj;
  (** [None]: the call does not return *)
  WaitForMultipleObjectsEx (thread : Z) (handles : list Z) (all : bool) (ms : Z) (alertable : bool)
    (os : gmap Z osobj) : option (Z * gmap Z osobj)
}.

(** ** Data *)

Inductive dispatch_body :=
  | EVENT (notify : bool)
  | MUTEX (threadid count : Z)
  | SEMAPHORE (count : Z).

Record dispatch := mkDispatch { handle : Z; what : dispatch_body }.

Record sync `{WIN32_SYNC} := mkSync {
  memory : gmap Z dispatch;
  os : gmap Z osobj;
  nullevent : Z;
  ThreadWaitObjects : Z
}.

Section dispatcher.
Context `{WIN32_SYNC}.

Definition SyncM := W sync.

Definition set_memory (f : gmap Z dispatch -> gmap Z dispatch) (s : sync) : sync :=
  mkSync _ (f (memory s)) (os s) (nullevent s) (ThreadWaitObjects s).
Definition set_os (f : gmap Z osobj -> gmap Z osobj) (s : sync) : sync :=
  mkSync _ (memory s) (f (os s)) (nullevent s) (ThreadWaitObjects s).

Definition object_in (p : Z) : SyncM dispatch := fun s =>
  match memory s !! p with Some o => Ok (Some (o, s)) | None => Err (BadAccess p) end.

Definition os_object (h : Z) : SyncM osobj := fun s =>
  match os s !! h with Some o => Ok (Some (o, s)) | None => Err (BadAccess h) end.

Definition at_level (ok : bool) (condition : string) : SyncM unit := wassert ok condition.

Definition dispatch_level (irql : Z) : SyncM unit :=
  at_level (irql <=? DISPATCH_LEVEL) "KeGetCurrentIrql() <= DISPATCH_LEVEL".

(** The new object [o] gets the handle [new], 0 if it cannot be created. *)
Definition create (new : Z) (o : osobj) : SyncM unit :=
  if new =? 0 then wput id else wput (set_os <[new := o]>).

(** ** event.cpp *)

Definition DdkInitEvent (new p : Z) (Type_ : bool) (State : bool) : SyncM unit :=
  _ ← create new (new_event Type_ State);
  _ ← wput (set_memory <[p := mkDispatch new (EVENT Type_)]>);
  wcheck (negb (new =? 0)) "Unable to initialize Event".

(** [Notification]: [Type == NotificationEvent]. *)
Definition KeInitializeEvent (new p : Z) (Notification State : bool) : SyncM unit :=
  DdkInitEvent new p Notification State.

(** [WaitForSingleObject(h, 0) == WAIT_OBJECT_0] *)
Definition poll_handle (t h : Z) : SyncM bool :=
  o ← os_object h;
  match poll t o with
  | Some o' => _ ← wput (set_os <[h := o']>); mret true
  | None => mret false
  end.

Definition on_event (f : osobj -> osobj) (h : Z) : SyncM unit :=
  o ← os_object h;
  wput (set_os <[h := f o]>).

Definition event_at (p : Z) : SyncM (Z * bool) :=
  o ← object_in p;
  match what o with EVENT n => mret (handle o, n) | _ => wlift (Err (BadAccess p)) end.

Definition KeSetEvent (t irql p : Z) (Wait : bool) : SyncM Z :=
  '(h, notify) ← event_at p;
  _ ← at_level (irql <=? (if Wait then APC_LEVEL else DISPATCH_LEVEL))
        "KeGetCurrentIrql() <= (Wait ? APC_LEVEL : DISPATCH_LEVEL)";
  rc ← poll_handle t h;
  if rc : bool then
    _ ← (if negb notify then on_event SetEvent h else mret tt);
    mret 1
  else
    _ ← on_event SetEvent h;
    mret 0.

Definition KeResetEvent (t irql p : Z) : SyncM Z :=
  '(h, notify) ← event_at p;
  _ ← dispatch_level irql;
  rc ← poll_handle t h;
  if rc : bool then
    _ ← (if notify : bool then on_event ResetEvent h else mret tt);
    mret 1
  else mret 0.

Definition KeClearEvent (irql p : Z) : SyncM unit :=
  '(h, _) ← event_at p;
  _ ← dispatch_level irql;
  on_event ResetEvent h.

Definition KeReadStateEvent (t irql p : Z) : SyncM Z :=
  '(h, notify) ← event_at p;
  _ ← dispatch_level irql;
  rc ← poll_handle t h;
  if rc : bool then
    _ ← (if negb notify then on_event SetEvent h else mret tt);
    mret 1
  else mret 0.

(** ** mutex.cpp *)

Definition KeInitializeMutex (new p : Z) : SyncM unit :=
  _ ← create new new_mutex;
  _ ← wput (set_memory <[p := mkDispatch new (MUTEX 0 0)]>);
  wcheck (negb (new =? 0)) "Unable to initialize Mutex".

Definition mutex_at (p : Z) : SyncM (Z * Z * Z) :=
  o ← object_in p;
  match what o with MUTEX id n => mret (handle o, id, n) | _ => wlift (Err (BadAccess p)) end.

(** The bookkeeping of [KeReleaseMutex]: the new fields and [rc]. *)
Definition release_count (t threadid count : Z) : Z * Z * Z :=
  if threadid =? t then
    let count := s32 (count - 1) in
    if count =? 0 then (0, count, 0) else (threadid, count, 1)
  else (threadid, count, 1).

Definition KeReleaseMutex (t irql p : Z) : SyncM Z :=
  '(h, id, n) ← mutex_at p;
  _ ← dispatch_level irql;
  let '(id', n', rc) := release_count t id n in
  _ ← wput (set_memory <[p := mkDispatch h (MUTEX id' n')]>);
  o ← os_object h;
  match ReleaseMutex t o with
  | None => mret 1
  | Some o' => _ ← wput (set_os <[h := o']>); mret rc
  end.

Definition KeReadStateMutex (irql p : Z) : SyncM Z :=
  '(_, n) ← mutex_at p;
  _ ← dispatch_level irql;
  mret (if n =? 0 then 1 else 0).

Definition DdkUpdateMutex (t p : Z) : SyncM unit :=
  '(h, id, n) ← mutex_at p;
  wput (set_memory <[p := mkDispatch h
    (if negb (id =? t) then MUTEX t 1 else MUTEX id (s32 (n + 1)))]>).

(** ** semaphore.cpp *)

Definition STATUS_SEMAPHORE_LIMIT_EXCEEDED : Z := 0xC0000047.

Definition KeInitializeSemaphore (new irql p Count Limit : Z) : SyncM unit :=
  _ ← at_level (irql =? PASSIVE_LEVEL) "KeGetCurrentIrql() == PASSIVE_LEVEL";
  let new := match new_semaphore Count Limit with Some _ => new | None => 0 end in
  _ ← match new_semaphore Count Limit with Some o => create new o | None => mret tt end;
  _ ← wput (set_memory <[p := mkDispatch new (SEMAPHORE Count)]>);
  wcheck (negb (new =? 0)) "Unable to initialize Semaphore".

Definition semaphore_at (p : Z) : SyncM (Z * Z) :=
  o ← object_in p;
  match what o with SEMAPHORE n => mret (handle o, n) | _ => wlift (Err (BadAccess p)) end.

Definition KeReleaseSemaphore (irql p Adjustment : Z) (Wait : bool) : SyncM Z :=
  '(h, n) ← semaphore_at p;
  _ ← at_level (irql <=? (if Wait then PASSIVE_LEVEL else DISPATCH_LEVEL))
        "KeGetCurrentIrql() <= (Wait ? PASSIVE_LEVEL : DISPATCH_LEVEL)";
  _ ← wput (set_memory <[p := mkDispatch h (SEMAPHORE (s32 (n + Adjustment)))]>);
  o ← os_object h;
  match ReleaseSemaphore o Adjustment with
  | None => wlift (Err (BugChecked STATUS_SEMAPHORE_LIMIT_EXCEEDED))
  | Some (prev, o') => _ ← wput (set_os <[h := o']>); mret (if prev =? 0 then 0 else 1)
  end.

Definition KeReadStateSemaphore (p : Z) : SyncM Z :=
  '(_, n) ← semaphore_at p;
  mret (if n =? 0 then 0 else 1).

Definition DdkUpdateSemaphore (p : Z) : SyncM unit :=
  '(h, n) ← semaphore_at p;
  wput (set_memory <[p := mkDispatch h (SEMAPHORE (s32 (n - 1)))]>).

(** ** time.cpp: the time of a wait *)

(** [now] is [GetSystemTimeAsFileTime]; [Timeout] the 64-bit value, if there is one. *)
Definition DdkGetWaitTime (now : Z) (Timeout : option Z) : result Z :=
  match Timeout with
  | None => Ok INFINITE
  | Some q =>
      if q <=? 0 then Ok (u32 (Z.quot (s64 (- q)) 10000)) else
      if now >? q then Ok 0 else
      let v := Z.quot (q - now) 10000 in
      if negb (Z.shiftr v 32 =? 0) then Err (DdkFailed "Wait timeout is too large") else
      Ok (u32 v)
  end.

Definition DdkGetDelayTime (now : Z) (Timeout : option Z) : result Z :=
  match Timeout with
  | None => Err (DdkFailed "Timeout is zero pointer")
  | Some _ => DdkGetWaitTime now Timeout
  end.

(** ** wait.cpp *)

Definition STATUS_ALERTED : Z := 0x101.
Definition STATUS_UNSUCCESSFUL : Z := 0xC0000001.
Definition MAXIMUM_WAIT_OBJECTS_EXCEEDED : Z := 0xC.

Definition DdkWaitInit (new : Z) : SyncM unit :=
  _ ← create new (new_event false false);
  wput (fun s => mkSync _ (memory s) (os s) new (ThreadWaitObjects s)).

Definition GetDispatch (p : Z) : SyncM dispatch := fun s =>
  match memory s !! p with
  | Some o => wcheck (negb (handle o =? 0)) "Invalid dispatch object" s ≫= fun _ => Ok (Some (o, s))
  | None => Err (DdkFailed "Invalid dispatch object")
  end.

Definition update (t p : Z) : SyncM unit :=
  o ← object_in p;
  match what o with
  | SEMAPHORE _ => DdkUpdateSemaphore p
  | MUTEX _ _ => DdkUpdateMutex t p
  | EVENT _ => mret tt
  end.

(** The loop of [WaitStatus] from index [i]. *)
Fixpoint update_from (t : Z) (all : bool) (vec : list Z) : SyncM unit :=
  match vec with
  | [] => mret tt
  | p :: vec => _ ← update t p; if negb all then mret tt else update_from t all vec
  end.

Definition WaitStatus (t : Z) (vec : list Z) (all : bool) (rc : Z) : SyncM Z :=
  if (s32 rc >=? WAIT_OBJECT_0) && (rc <? WAIT_OBJECT_0 + MAXIMUM_WAIT_OBJECTS) then
    _ ← update_from t all (drop (if all then 0 else Z.to_nat (rc - WAIT_OBJECT_0)) vec);
    mret (STATUS_SUCCESS + (rc - WAIT_OBJECT_0))
  else if rc =? WAIT_TIMEOUT then mret STATUS_TIMEOUT
  else if rc =? WAIT_IO_COMPLETION then mret STATUS_ALERTED
  else mret STATUS_UNSUCCESSFUL.

Fixpoint handles_of (objs : list Z) : SyncM (list Z) :=
  match objs with
  | [] => mret []
  | p :: objs => o ← GetDispatch p; hs ← handles_of objs; mret (handle o :: hs)
  end.

(** [block]: the caller gave a wait block array. *)
Definition KeWaitForMultipleObjects (t now : Z) (Object : list Z) (all Alertable : bool)
    (Timeout : option Z) (block : bool) : SyncM Z :=
  limit ← wget (fun s => if block then MAXIMUM_WAIT_OBJECTS else ThreadWaitObjects s);
  if Z.of_nat (length Object) >? limit
  then wlift (Err (BugChecked MAXIMUM_WAIT_OBJECTS_EXCEEDED)) else
  hs ← handles_of Object;
  dummy ← wget nullevent;
  let hs := if (length hs =? 1)%nat && negb (dummy =? 0) then hs ++ [dummy] else hs in
  ms ← wlift (DdkGetWaitTime now Timeout);
  r ← (fun s => Ok (Some (WaitForMultipleObjectsEx t hs all ms Alertable (os s), s)));
  '(rc, o) ← wwait r;
  _ ← wput (set_os (fun _ => o));
  WaitStatus t Object all rc.

Definition KeWaitForSingleObject (t now p : Z) (Alertable : bool) (Timeout : option Z) : SyncM Z :=
  KeWaitForMultipleObjects t now [p] false Alertable Timeout false.

(** [SleepEx]: what it returns, [None] if it does not. *)
Definition KeDelayExecutionThread (SleepEx : Z -> bool -> option Z) (irql now : Z) (Alertable : bool)
    (Interval : option Z) : SyncM Z :=
  _ ← at_level (irql <=? APC_LEVEL) "KeGetCurrentIrql() <= APC_LEVEL";
  ms ← wlift (DdkGetDelayTime now Interval);
  rc ← wwait (SleepEx ms Alertable);
  mret (if rc =? WAIT_IO_COMPLETION then STATUS_ALERTED else STATUS_SUCCESS).
End dispatcher.
