(* ===== verification/DispatcherSpec.v ===== *)
(** * DispatcherSpec: what the dispatcher objects promise *)

From S2P Require Import Prelude Dispatcher.

(** ** The operating system's promise *)

Inductive oview :=
  | VEvent (manual signalled : bool)
  | VMutex (owner : option Z) (count : Z)
  | VSemaphore (count limit : Z).

Definition vset (v : oview) : oview := match v with VEvent m _ => VEvent m true | _ => v end.
Definition vreset (v : oview) : oview := match v with VEvent m _ => VEvent m false | _ => v end.

(** A wait that is satisfied at once: an event that is not manual is reset by it, a
    mutex is taken or taken once more, a semaphore is counted down. *)
Definition vpoll (t : Z) (v : oview) : option oview :=
  match v with
  | VEvent m b => if b then Some (VEvent m m) else None
  | VMutex None _ => Some (VMutex (Some t) 1)
  | VMutex (Some u) n => if u =? t then Some (VMutex (Some u) (n + 1)) else None
  | VSemaphore c l => if 0 <? c then Some (VSemaphore (c - 1) l) else None
  end.

Definition vrelease (t : Z) (v : oview) : option oview :=
  match v with
  | VMutex (Some u) n =>
      if u =? t then Some (if n =? 1 then VMutex None 0 else VMutex (Some u) (n - 1)) else None
  | _ => None
  end.

Definition vadd (v : oview) (n : Z) : option (Z * oview) :=
  match v with
  | VSemaphore c l => if (0 <? n) && (c + n <=? l) then Some (c, VSemaphore (c + n) l) else None
  | _ => None
  end.

Section ready.
Context `{WIN32_SYNC}.

Definition ready (t : Z) (o : gmap Z osobj) (h : Z) : option osobj := o !! h ≫= poll t.

(** The first handle whose object is signalled, with its index. *)
Fixpoint first_ready (t : Z) (o : gmap Z osobj) (hs : list Z) : option (nat * Z * osobj) :=
  match hs with
  | [] => None
  | h :: hs =>
      match ready t o h with
      | Some x => Some (0%nat, h, x)
      | None => (fun '(i, h, x) => (S i, h, x)) <$> first_ready t o hs
      end
  end.

(** All objects after a wait for all of them. *)
Fixpoint all_ready (t : Z) (o : gmap Z osobj) (hs : list Z) : option (gmap Z osobj) :=
  match hs with
  | [] => Some o
  | h :: hs => x ← ready t o h; all_ready t (<[h := x]> o) hs
  end.

Definition unsatisfied (ms : Z) (alertable : bool) (o : gmap Z osobj)
    (r : option (Z * gmap Z osobj)) : Prop :=
  (r = None /\ ms = INFINITE) \/ (r = Some (WAIT_TIMEOUT, o) /\ ms <> INFINITE) \/
  (r = Some (WAIT_IO_COMPLETION, o) /\ alertable = true).
End ready.

Class SyncLaws `{WIN32_SYNC} := {
  view : osobj -> oview;
  view_event m b : view (new_event m b) = VEvent m b;
  view_mutex : view new_mutex = VMutex None 0;
  view_semaphore c l :
    view <$> new_semaphore c l = if (0 <=? c) && (c <=? l) && (0 <? l) then Some (VSemaphore c l) else None;
  view_set o : view (SetEvent o) = vset (view o);
  view_reset o : view (ResetEvent o) = vreset (view o);
  view_poll t o : view <$> poll t o = vpoll t (view o);
  view_release t o : view <$> ReleaseMutex t o = vrelease t (view o);
  view_add o n : prod_map id view <$> ReleaseSemaphore o n = vadd (view o) n;
  wait_any t hs ms al o : hs <> [] -> Z.of_nat (length hs) <= MAXIMUM_WAIT_OBJECTS -> NoDup hs ->
    match first_ready t o hs with
    | Some (i, h, x) => WaitForMultipleObjectsEx t hs false ms al o = Some (Z.of_nat i, <[h := x]> o)
    | None => unsatisfied ms al o (WaitForMultipleObjectsEx t hs false ms al o)
    end;
  wait_all t hs ms al o : hs <> [] -> Z.of_nat (length hs) <= MAXIMUM_WAIT_OBJECTS -> NoDup hs ->
    match all_ready t o hs with
    | Some o' => WaitForMultipleObjectsEx t hs true ms al o = Some (0, o')
    | None => unsatisfied ms al o (WaitForMultipleObjectsEx t hs true ms al o)
    end
}.

(** The laws can be met: the objects are their views. *)
Definition model_sync : WIN32_SYNC := {|
  osobj := oview; new_event := VEvent; new_mutex := VMutex None 0;
  new_semaphore c l := if (0 <=? c) && (c <=? l) && (0 <? l) then Some (VSemaphore c l) else None;
  SetEvent := vset; ResetEvent := vreset; ReleaseMutex := vrelease; ReleaseSemaphore := vadd;
  poll := vpoll;
  WaitForMultipleObjectsEx t hs all ms al o :=
    let late := if ms =? INFINITE then None else Some (WAIT_TIMEOUT, o) in
    let done r := match r with Some r => Some r | None => late end in
    done (if all then
      (fun o => (0, o)) <$> (fix go (o : gmap Z oview) hs := match hs with
        | [] => Some o
        | h :: hs => x ← o !! h ≫= vpoll t; go (<[h := x]> o) hs end) o hs
    else
      (fix go i hs := match hs with
       | [] => None
       | h :: hs => match o !! h ≫= vpoll t with Some x => Some (i, <[h := x]> o) | None => go (i + 1) hs end
       end) 0 hs)
|}.

Lemma model_wait_any t o hs : forall i,
  (fix go (i : Z) hs := match hs with
   | [] => None
   | h :: hs => match (o : gmap Z oview) !! h ≫= vpoll t with
                | Some x => Some (i, <[h := x]> o) | None => go (i + 1) hs end
   end) i hs =
  (fun '(k, h, x) => (i + Z.of_nat k, <[h := x]> o)) <$> first_ready (H := model_sync) t o hs.
Proof.
  induction hs as [| h hs IH]; intros i; [done |]. simpl. unfold ready. simpl.
  destruct (_ ≫= vpoll t); simpl; [by rewrite Z.add_0_r |]. rewrite IH.
  destruct (first_ready (H := model_sync) t o hs) as [[[k h'] x] |]; simpl; [| done]. do 2 f_equal. lia.
Qed.

Lemma model_wait_all t hs : forall o : gmap Z oview,
  (fix go (o : gmap Z oview) hs := match hs with
   | [] => Some o
   | h :: hs => x ← o !! h ≫= vpoll t; go (<[h := x]> o) hs end) o hs =
  all_ready (H := model_sync) t o hs.
Proof.
  induction hs as [| h hs IH]; intros o; [done |]. simpl. unfold ready. simpl.
  destruct (o !! h ≫= vpoll t) as [x |]; [exact (IH (<[h := x]> o)) | done].
Qed.

Lemma model_late ms al o :
  unsatisfied (H := model_sync) ms al o (if ms =? INFINITE then None else Some (WAIT_TIMEOUT, o)).
Proof. case_z; [by left | by right; left]. Qed.

Definition model_laws : @SyncLaws model_sync.
Proof.
  refine {| view := (fun v => v) : @osobj model_sync -> oview |}; try done.
  - intros c l. simpl. by destruct (_ && _ && _).
  - intros t o. simpl. by destruct (vpoll t o).
  - intros t o. simpl. by destruct (vrelease t o).
  - intros o n. simpl. by destruct (vadd o n) as [[] |].
  - intros t hs ms al o _ _ _. simpl. rewrite model_wait_any.
    destruct (first_ready (H := model_sync) t o hs) as [[[i h] x] |]; [done | apply model_late].
  - intros t hs ms al o _ _ _. simpl. rewrite model_wait_all.
    destruct (all_ready (H := model_sync) t o hs); [done | apply model_late].
Defined.

(** ** The mirror

    What an object records of itself agrees with the object of the operating
    system. *)

Definition mirrors (b : dispatch_body) (v : oview) : Prop :=
  match b, v with
  | EVENT n, VEvent m _ => m = n
  | MUTEX id n, VMutex None c => id = 0 /\ n = 0 /\ c = 0
  | MUTEX id n, VMutex (Some u) c => id = u /\ n = c /\ 0 < c < 2 ^ 31
  | SEMAPHORE n, VSemaphore c l => n = c /\ 0 <= c <= l /\ l < 2 ^ 31
  | _, _ => False
  end.

Section spec.
Context `{SyncLaws}.

Record sinv (s : sync) : Prop := {
  i_mirror : forall p o, memory s !! p = Some o ->
    handle o <> 0 /\ exists x, os s !! handle o = Some x /\ mirrors (what o) (view x);
  i_own : forall p q o o', memory s !! p = Some o -> memory s !! q = Some o' ->
    handle o = handle o' -> p = q;
  i_null : nullevent s <> 0 -> 
    (exists x, os s !! nullevent s = Some x /\ view x = VEvent false false) /\
    forall p o, memory s !! p = Some o -> handle o <> nullevent s
}.

(** The view of the object at [p]. *)
Definition view_at (s : sync) (p : Z) : option oview :=
  o ← memory s !! p; x ← os s !! handle o; Some (view x).

(** [s'] is [s] but for the object at [p], which is [b] in memory and [v] outside. *)
Record updates (s s' : sync) (p : Z) (b : dispatch_body) (v : oview) : Prop := {
  u_what : what <$> memory s' !! p = Some b;
  u_view : view_at s' p = Some v;
  u_memory : forall q, q <> p -> memory s' !! q = memory s !! q;
  u_others : forall q, q <> p -> view_at s' q = view_at s q;
  u_limit : ThreadWaitObjects s' = ThreadWaitObjects s;
  u_inv : sinv s'
}.

Definition stored (s : sync) (p h : Z) (b : dispatch_body) (x : osobj) : sync :=
  set_os <[h := x]> (set_memory <[p := mkDispatch h b]> s).

Lemma stored_updates s p o x b :
  sinv s -> memory s !! p = Some o -> mirrors b (view x) ->
  updates s (stored s p (handle o) b x) p b (view x).
Proof.
  intros I Ep Hm. destruct (i_mirror _ I p o Ep) as (Hh & _).
  assert (forall q oq, q <> p -> memory s !! q = Some oq -> handle oq <> handle o) as Hne.
  { intros q oq Hq Eq E. by apply Hq, (i_own _ I q p oq o). }
  split.
  - simpl. by rewrite lookup_insert_eq.
  - unfold view_at. simpl. by rewrite lookup_insert_eq; simpl; rewrite lookup_insert_eq.
  - intros q Hq. simpl. by rewrite lookup_insert_ne.
  - intros q Hq. unfold view_at. simpl. rewrite lookup_insert_ne by done.
    destruct (memory s !! q) as [oq |] eqn:Eq; [| done]. simpl.
    rewrite lookup_insert_ne; [done |]. intros E. apply (Hne q oq); congruence.
  - done.
  - split; simpl.
    + intros q oq [[<- <-] | [Hq Eq]]%lookup_insert_Some.
      * split; [done |]. exists x. simpl. by rewrite lookup_insert_eq.
      * destruct (i_mirror _ I q oq Eq) as (? & y & Ey & Hy). split; [done |]. exists y.
        rewrite lookup_insert_ne; [done |]. intros E. apply (Hne q oq); congruence.
    + intros q r oq or [[<- <-] | [Hq Eq]]%lookup_insert_Some [[<- <-] | [Hr Er]]%lookup_insert_Some E;
        simpl in E; [done | | |].
      * exfalso. apply (Hne r or); congruence.
      * exfalso. apply (Hne q oq); congruence.
      * by apply (i_own _ I q r oq or).
    + intros Hn. destruct (i_null _ I Hn) as ((y & Ey & Hy) & Hd). split.
      * exists y. rewrite lookup_insert_ne; [done |]. by apply (Hd p o Ep).
      * intros q oq [[<- <-] | [Hq Eq]]%lookup_insert_Some; [by apply (Hd p o Ep) | by apply (Hd q)].
Qed.

(** ** Runs of the small steps *)

Lemma poll_some t o v : vpoll t (view o) = Some v -> exists o', poll t o = Some o' /\ view o' = v.
Proof. rewrite <- view_poll. destruct (poll t o) as [o1 |]; simpl; [| done]. intros [= <-]. by exists o1. Qed.

Lemma poll_none t o : vpoll t (view o) = None -> poll t o = None.
Proof. rewrite <- view_poll. by destruct (poll t o). Qed.

Lemma os_object_run s h x : os s !! h = Some x -> os_object h s = Ok (Some (x, s)).
Proof. unfold os_object. by intros ->. Qed.

Lemma object_in_run s p o : memory s !! p = Some o -> object_in p s = Ok (Some (o, s)).
Proof. unfold object_in. by intros ->. Qed.

(** Writing an object's fields back, then its handle's object. *)
Lemma store_os s p o x : memory s !! p = Some o ->
  set_os <[handle o := x]> s = stored s p (handle o) (what o) x.
Proof.
  intros Ep. unfold stored, set_memory, set_os. simpl.
  assert (mkDispatch (handle o) (what o) = o) as -> by by destruct o.
  by rewrite (insert_id (memory s) p o).
Qed.

Lemma set_os_twice s h x y : set_os <[h := y]> (set_os <[h := x]> s) = set_os <[h := y]> s.
Proof. unfold set_os. simpl. by rewrite insert_insert_eq. Qed.

(** An event as its users see it. *)
Definition event_is (s : sync) (p : Z) (notify signalled : bool) : Prop :=
  what <$> memory s !! p = Some (EVENT notify) /\ view_at s p = Some (VEvent notify signalled).

Lemma event_is_inv s p n b : sinv s -> event_is s p n b ->
  exists o (x : osobj), memory s !! p = Some o /\ what o = EVENT n /\ os s !! handle o = Some x /\
    view x = VEvent n b /\ event_at p s = Ok (Some ((handle o, n), s)).
Proof.
  intros I [Hw Hv]. destruct (memory s !! p) as [o |] eqn:Ep; [| done]. injection Hw as Hw.
  destruct (i_mirror _ I p o Ep) as (_ & x & Ex & _). unfold view_at in Hv. rewrite Ep in Hv. simpl in Hv.
  rewrite Ex in Hv. injection Hv as Hv. exists o, x. repeat (split; [done |]).
  unfold event_at. rewrite (wbind_run _ _ s o s) by by apply object_in_run. by rewrite Hw.
Qed.

(** The object of an event is replaced. *)
Lemma event_stored s p o n b y :
  sinv s -> memory s !! p = Some o -> what o = EVENT n -> view y = VEvent n b ->
  updates s (set_os <[handle o := y]> s) p (EVENT n) (VEvent n b).
Proof.
  intros I Ep Hw Hy. rewrite (store_os s p o) by done. rewrite <- Hy, Hw.
  by apply (stored_updates s p o); [| | rewrite Hy].
Qed.

Lemma updates_refl s p o v :
  sinv s -> memory s !! p = Some o -> view_at s p = Some v -> updates s s p (what o) v.
Proof. intros I Ep Hv. by split; [rewrite Ep | | | | |]. Qed.

Lemma poll_run s t h x : os s !! h = Some x ->
  poll_handle t h s = match poll t x with
    | Some y => Ok (Some (true, set_os <[h := y]> s))
    | None => Ok (Some (false, s))
    end.
Proof.
  intros Ex. unfold poll_handle. rewrite (wbind_run _ _ s x s) by by apply os_object_run.
  by destruct (poll t x).
Qed.

Lemma on_event_run s f h x : os s !! h = Some x ->
  on_event f h s = Ok (Some (tt, set_os <[h := f x]> s)).
Proof. intros Ex. unfold on_event. by rewrite (wbind_run _ _ s x s) by by apply os_object_run. Qed.

Lemma level_run irql (s : sync) : irql <= DISPATCH_LEVEL -> dispatch_level irql s = Ok (Some (tt, s)).
Proof. intros. apply wassert_run. by apply Z.leb_le. Qed.

Lemma on_event_after f s h y :
  on_event f h (set_os <[h := y]> s) = Ok (Some (tt, set_os <[h := f y]> s)).
Proof.
  rewrite (on_event_run _ _ _ y) by (simpl; by rewrite lookup_insert_eq). by rewrite set_os_twice.
Qed.

(** ** Events *)

Lemma KeSetEvent_run t irql p (Wait : bool) s n b :
  sinv s -> event_is s p n b -> irql <= (if Wait then APC_LEVEL else DISPATCH_LEVEL) ->
  exists s', KeSetEvent t irql p Wait s = Ok (Some (Z.b2z b, s')) /\
    updates s s' p (EVENT n) (VEvent n true).
Proof.
  intros I He Hl. destruct (event_is_inv s p n b I He) as (o & x & Ep & Hw & Ex & Hv & Ee).
  unfold KeSetEvent. rewrite (wbind_run _ _ s _ s Ee). simpl.
  rewrite (wbind_run _ _ s tt s) by by apply wassert_run, Z.leb_le.
  pose proof (poll_run s t _ x Ex) as Hp.
  destruct b.
  - destruct (poll_some t x (VEvent n n)) as (y & Ey & Hy); [by rewrite Hv |]. rewrite Ey in Hp.
    rewrite (wbind_run _ _ _ _ _ Hp). destruct n; simpl.
    + eexists. split; [done |]. by apply (event_stored s p o true true y).
    + rewrite (wbind_run _ _ _ _ _ (on_event_after _ s _ y)). eexists. split; [done |].
      apply (event_stored s p o); [done.. |]. by rewrite view_set, Hy.
  - rewrite poll_none in Hp by by rewrite Hv. rewrite (wbind_run _ _ _ _ _ Hp).
    rewrite (wbind_run _ _ _ _ _ (on_event_run s SetEvent _ x Ex)). eexists. split; [done |].
    apply (event_stored s p o); [done.. |]. by rewrite view_set, Hv.
Qed.

Lemma KeResetEvent_run t irql p s n b :
  sinv s -> event_is s p n b -> irql <= DISPATCH_LEVEL ->
  exists s', KeResetEvent t irql p s = Ok (Some (Z.b2z b, s')) /\
    updates s s' p (EVENT n) (VEvent n false).
Proof.
  intros I He Hl. destruct (event_is_inv s p n b I He) as (o & x & Ep & Hw & Ex & Hv & Ee).
  unfold KeResetEvent. rewrite (wbind_run _ _ s _ s Ee). simpl.
  rewrite (wbind_run _ _ s tt s) by by apply level_run.
  pose proof (poll_run s t _ x Ex) as Hp. destruct b.
  - destruct (poll_some t x (VEvent n n)) as (y & Ey & Hy); [by rewrite Hv |]. rewrite Ey in Hp.
    rewrite (wbind_run _ _ _ _ _ Hp). destruct n; simpl.
    + rewrite (wbind_run _ _ _ _ _ (on_event_after _ s _ y)).
      eexists. split; [done |].
      apply (event_stored s p o); [done.. |]. by rewrite view_reset, Hy.
    + eexists. split; [done |]. by apply (event_stored s p o false false y).
  - rewrite poll_none in Hp by by rewrite Hv. rewrite (wbind_run _ _ _ _ _ Hp).
    eexists. split; [done |]. rewrite <- Hw. apply updates_refl; [done.. |].
    destruct He as [_ He]. by rewrite He.
Qed.

Lemma KeReadStateEvent_run t irql p s n b :
  sinv s -> event_is s p n b -> irql <= DISPATCH_LEVEL ->
  exists s', KeReadStateEvent t irql p s = Ok (Some (Z.b2z b, s')) /\
    updates s s' p (EVENT n) (VEvent n b).
Proof.
  intros I He Hl. destruct (event_is_inv s p n b I He) as (o & x & Ep & Hw & Ex & Hv & Ee).
  unfold KeReadStateEvent. rewrite (wbind_run _ _ s _ s Ee). simpl.
  rewrite (wbind_run _ _ s tt s) by by apply level_run.
  pose proof (poll_run s t _ x Ex) as Hp. destruct b.
  - destruct (poll_some t x (VEvent n n)) as (y & Ey & Hy); [by rewrite Hv |]. rewrite Ey in Hp.
    rewrite (wbind_run _ _ _ _ _ Hp). destruct n; simpl.
    + eexists. split; [done |]. by apply (event_stored s p o true true y).
    + rewrite (wbind_run _ _ _ _ _ (on_event_after _ s _ y)). eexists. split; [done |].
      apply (event_stored s p o); [done.. |]. by rewrite view_set, Hy.
  - rewrite poll_none in Hp by by rewrite Hv. rewrite (wbind_run _ _ _ _ _ Hp).
    eexists. split; [done |]. rewrite <- Hw. apply updates_refl; [done.. |].
    destruct He as [_ He]. by rewrite He.
Qed.

Lemma KeClearEvent_run irql p s n b :
  sinv s -> event_is s p n b -> irql <= DISPATCH_LEVEL ->
  exists s', KeClearEvent irql p s = Ok (Some (tt, s')) /\
    updates s s' p (EVENT n) (VEvent n false).
Proof.
  intros I He Hl. destruct (event_is_inv s p n b I He) as (o & x & Ep & Hw & Ex & Hv & Ee).
  unfold KeClearEvent. rewrite (wbind_run _ _ s _ s Ee). simpl.
  rewrite (wbind_run _ _ s tt s) by by apply level_run.
  rewrite (on_event_run _ _ _ x) by done. eexists. split; [done |].
  apply (event_stored s p o); [done.. |]. by rewrite view_reset, Hv.
Qed.

Lemma updates_trans s s1 s2 p b v b' v' :
  updates s s1 p b v -> updates s1 s2 p b' v' -> updates s s2 p b' v'.
Proof.
  intros [_ _ M1 O1 L1 _] [W2 V2 M2 O2 L2 I2]. split; [done | done | | | by rewrite L2 | done].
  - intros q Hq. by rewrite M2, M1.
  - intros q Hq. by rewrite O2, O1.
Qed.

(** An event is one bit: any sequence of operations, by any threads. *)
Inductive event_op := OpSet (Wait : bool) | OpReset | OpClear | OpRead.

Definition run_event (p : Z) (c : Z * Z * event_op) : SyncM (option Z) :=
  let '(t, irql, op) := c in
  match op with
  | OpSet Wait => Some <$> KeSetEvent t irql p Wait
  | OpReset => Some <$> KeResetEvent t irql p
  | OpClear => _ ← KeClearEvent irql p; mret None
  | OpRead => Some <$> KeReadStateEvent t irql p
  end.

Fixpoint run_events (p : Z) (cs : list (Z * Z * event_op)) : SyncM (list (option Z)) :=
  match cs with
  | [] => mret []
  | c :: cs => r ← run_event p c; rs ← run_events p cs; mret (r :: rs)
  end.

(** What the operation returns and leaves of the bit [b]. *)
Definition bit_op (op : event_op) (b : bool) : option Z * bool :=
  match op with
  | OpSet _ => (Some (Z.b2z b), true)
  | OpReset => (Some (Z.b2z b), false)
  | OpClear => (None, false)
  | OpRead => (Some (Z.b2z b), b)
  end.

Fixpoint bit_ops (ops : list event_op) (b : bool) : list (option Z) * bool :=
  match ops with
  | [] => ([], b)
  | op :: ops => let '(r, b') := bit_op op b in let '(rs, b'') := bit_ops ops b' in (r :: rs, b'')
  end.

Lemma run_event_run p c s n b :
  sinv s -> event_is s p n b -> (let '(_, irql, _) := c in irql <= APC_LEVEL) ->
  exists s', run_event p c s = Ok (Some ((bit_op c.2 b).1, s')) /\
    updates s s' p (EVENT n) (VEvent n (bit_op c.2 b).2).
Proof.
  destruct c as [[t irql] op]. intros I He Hl. simpl.
  assert (irql <= DISPATCH_LEVEL) as Hd by (unfold APC_LEVEL, DISPATCH_LEVEL in *; lia).
  destruct op as [Wait | | |]; simpl; unfold fmap, W_fmap.
  - destruct (KeSetEvent_run t irql p Wait s n b I He) as (s' & -> & Hu); [by destruct Wait | by exists s'].
  - destruct (KeResetEvent_run t irql p s n b I He Hd) as (s' & -> & Hu). by exists s'.
  - destruct (KeClearEvent_run irql p s n b I He Hd) as (s' & Hr & Hu). exists s'.
    split; [by rewrite (wbind_run _ _ _ _ _ Hr) | done].
  - destruct (KeReadStateEvent_run t irql p s n b I He Hd) as (s' & -> & Hu). by exists s'.
Qed.

(** An event, of either type, is one bit: for every sequence of [KeSetEvent],
    [KeResetEvent], [KeClearEvent] and [KeReadStateEvent] calls made by any threads at
    [APC_LEVEL] or below, each call returns what it returns of the bit (the state
    before the call), reading consumes nothing even though it is a wait, and no other
    object changes. *)
Theorem event_refinement p n cs : forall s b,
  sinv s -> event_is s p n b -> Forall (fun c : Z * Z * event_op => c.1.2 <= APC_LEVEL) cs ->
  exists s', run_events p cs s = Ok (Some ((bit_ops (snd <$> cs) b).1, s')) /\
    updates s s' p (EVENT n) (VEvent n (bit_ops (snd <$> cs) b).2).
Proof.
  induction cs as [| c cs IH]; intros s b I He Hl.
  - exists s. split; [done |]. destruct (event_is_inv s p n b I He) as (o & x & Ep & Hw & _).
    rewrite <- Hw. by apply updates_refl; [| | apply He].
  - apply Forall_cons in Hl as [Hc Hl].
    destruct (run_event_run p c s n b I He) as (s1 & Hr & Hu); [by destruct c as [[]] |].
    destruct (IH s1 (bit_op c.2 b).2 (u_inv _ _ _ _ _ Hu)) as (s2 & Hr2 & Hu2); [| done |].
    { split; [apply (u_what _ _ _ _ _ Hu) | apply (u_view _ _ _ _ _ Hu)]. }
    exists s2. rewrite fmap_cons. cbn [run_events bit_ops].
    rewrite (wbind_run _ _ _ _ _ Hr), (wbind_run _ _ _ _ _ Hr2).
    destruct (bit_op c.2 b) as [r b1]. cbn [fst snd] in *. destruct (bit_ops (snd <$> cs) b1). cbn [fst snd] in *.
    split; [done |]. by apply (updates_trans s s1 s2 p _ _ _ _ Hu).
Qed.
End spec.
