(* ===== verification/DispatcherWaits.v ===== *)
(** * DispatcherWaits: waits, mutexes and semaphores

    What a wait does to the objects it waits for, for any of them and for all of
    them, and what mutexes and semaphores promise with it. *)

From S2P Require Import Prelude Dispatcher DispatcherSpec.

(** What a satisfied wait by thread [t] makes of an object's own fields. *)
Definition updated (t : Z) (b : dispatch_body) : dispatch_body :=
  match b with
  | EVENT n => EVENT n
  | MUTEX id n => if id =? t then MUTEX id (n + 1) else MUTEX t 1
  | SEMAPHORE n => SEMAPHORE (n - 1)
  end.

(** A mutex can be taken once more. *)
Definition has_room (b : dispatch_body) : Prop :=
  match b with MUTEX _ n => n + 1 < 2 ^ 31 | _ => True end.

Lemma mirrors_poll t b v v' :
  mirrors b v -> has_room b -> vpoll t v = Some v' -> mirrors (updated t b) v'.
Proof.
  destruct b as [n | id n | n], v as [m b | [u |] c | c l]; simpl; try done.
  - intros -> _. destruct b; [| done]. by intros [= <-].
  - intros (-> & -> & Hc) Hr. destruct (Z.eqb_spec u t) as [-> |]; [| done]. intros [= <-].
    simpl. lia.
  - intros (-> & -> & ->) _ [= <-]. destruct (Z.eqb_spec 0 t); simpl; lia.
  - intros (-> & Hc & Hl) _. destruct (Z.ltb_spec 0 c); [| done]. intros [= <-]. simpl. lia.
Qed.

Section waits.
Context `{SyncLaws}.

Definition fields_set (s : sync) (p h : Z) (b : dispatch_body) : sync :=
  set_memory <[p := mkDispatch h b]> s.

Lemma update_run t s p o v :
  memory s !! p = Some o -> mirrors (what o) v -> has_room (what o) ->
  update t p s = Ok (Some (tt, fields_set s p (handle o) (updated t (what o)))).
Proof.
  intros Ep Hm Hr. unfold update. rewrite (wbind_run _ _ s o s) by by apply object_in_run.
  destruct o as [h [n | id n | n]]; simpl in *.
  - unfold fields_set, set_memory. rewrite insert_id by done. by destruct s.
  - unfold DdkUpdateMutex, mutex_at.
    rewrite (wbind_run _ _ s (h, id, n) s) by by rewrite (wbind_run _ _ s _ s (object_in_run s p _ Ep)).
    unfold wput, fields_set. simpl. destruct (Z.eqb_spec id t) as [-> | Ht]; simpl; [| done].
    rewrite s32_id; [done |]. destruct v as [| [] |]; simpl in Hm; lia.
  - unfold DdkUpdateSemaphore, semaphore_at.
    rewrite (wbind_run _ _ s (h, n) s) by by rewrite (wbind_run _ _ s _ s (object_in_run s p _ Ep)).
    unfold wput, fields_set. rewrite s32_id; [done |]. destruct v; simpl in Hm; [done.. | lia].
Qed.

(** The handles of live objects. *)
Definition handle_at (s : sync) (p : Z) : Z := default 0 (handle <$> memory s !! p).

Definition live (s : sync) (p : Z) : Prop := is_Some (memory s !! p).

Lemma handle_at_some s p o : memory s !! p = Some o -> handle_at s p = handle o.
Proof. unfold handle_at. by intros ->. Qed.

Lemma handles_of_run s objs :
  sinv s -> Forall (live s) objs -> handles_of objs s = Ok (Some (handle_at s <$> objs, s)).
Proof.
  intros I. induction objs as [| p objs IH]; intros Hl; [done |]. apply Forall_cons in Hl as [[o Ep] Hl].
  destruct (i_mirror _ I p o Ep) as (Hh & _). simpl.
  assert (GetDispatch p s = Ok (Some (o, s))) as Hg.
  { unfold GetDispatch. rewrite Ep. by apply Z.eqb_neq in Hh as ->. }
  rewrite (wbind_run _ _ _ _ _ Hg), (wbind_run _ _ _ _ _ (IH Hl)).
  by rewrite (handle_at_some s p o).
Qed.

Lemma handles_nodup s objs :
  sinv s -> Forall (live s) objs -> NoDup objs -> NoDup (handle_at s <$> objs).
Proof.
  intros I Hl Hn. apply NoDup_fmap_2_strong; [| done]. rewrite Forall_forall in Hl.
  intros p q [o Ep]%Hl [o' Eq]%Hl E. rewrite (handle_at_some s p o), (handle_at_some s q o') in E by done.
  by apply (i_own _ I p q o o').
Qed.

(** The object of the operating system behind a live object. *)
Lemma live_inv s p : sinv s -> live s p -> exists o (x : osobj),
  memory s !! p = Some o /\ handle_at s p = handle o /\ os s !! handle o = Some x /\
  mirrors (what o) (view x) /\ view_at s p = Some (view x).
Proof.
  intros I [o Ep]. destruct (i_mirror _ I p o Ep) as (_ & x & Ex & Hm). exists o, x.
  split; [done |]. split; [by apply handle_at_some |]. repeat (split; [done |]).
  unfold view_at. rewrite Ep. simpl. by rewrite Ex.
Qed.

Lemma ready_at s t p o (x : osobj) : handle_at s p = handle o -> os s !! handle o = Some x ->
  view <$> ready t (os s) (handle_at s p) = vpoll t (view x).
Proof. intros -> Ex. unfold ready. rewrite Ex. apply view_poll. Qed.

(** The dummy event is never signalled, and is no object's. *)
Lemma dummy_not_ready s t : sinv s -> nullevent s <> 0 -> ready t (os s) (nullevent s) = None.
Proof.
  intros I Hn. destruct (i_null _ I Hn) as ((x & Ex & Hx) & _). unfold ready. rewrite Ex. simpl.
  apply poll_none. by rewrite Hx.
Qed.

(** The handles a wait for [objs] waits for. *)
Definition waited (s : sync) (objs : list Z) : list Z :=
  let hs := handle_at s <$> objs in
  if (length hs =? 1)%nat && negb (nullevent s =? 0) then hs ++ [nullevent s] else hs.

Lemma waited_length s objs :
  objs <> [] -> Z.of_nat (length objs) <= MAXIMUM_WAIT_OBJECTS ->
  waited s objs <> [] /\ Z.of_nat (length (waited s objs)) <= MAXIMUM_WAIT_OBJECTS.
Proof.
  intros Hn Hl. unfold waited. rewrite length_fmap.
  destruct (Nat.eqb_spec (length objs) 1) as [E |]; simpl.
  - destruct objs as [| p [| q objs]]; try done. destruct (_ =? 0); simpl; (split; [done |]);
      unfold MAXIMUM_WAIT_OBJECTS in *; lia.
  - rewrite length_fmap. split; [by destruct objs | done].
Qed.

Lemma waited_nodup s objs :
  sinv s -> Forall (live s) objs -> NoDup objs -> NoDup (waited s objs).
Proof.
  intros I Hl Hn. unfold waited. pose proof (handles_nodup s objs I Hl Hn) as Hh.
  destruct (_ && _) eqn:E; [| done]. apply andb_true_iff in E as [_ E%negb_true_iff%Z.eqb_neq].
  apply NoDup_app. split; [done |]. split; [| apply NoDup_singleton].
  intros h [p [-> Hp]]%list_elem_of_fmap Hin%list_elem_of_singleton.
  rewrite Forall_forall in Hl. destruct (live_inv s p I (Hl p Hp)) as (o & x & Ep & Eh & _).
  destruct (i_null _ I E) as (_ & Hd). apply (Hd p o Ep). congruence.
Qed.

Definition within_limit (s : sync) (objs : list Z) (block : bool) : Prop :=
  objs <> [] /\ Z.of_nat (length objs) <= MAXIMUM_WAIT_OBJECTS /\
  (block = false -> Z.of_nat (length objs) <= ThreadWaitObjects s).

(** The call up to the wait of the operating system, and what follows it. *)
Lemma wait_run t now objs all al Timeout block ms s :
  sinv s -> Forall (live s) objs -> within_limit s objs block -> DdkGetWaitTime now Timeout = Ok ms ->
  KeWaitForMultipleObjects t now objs all al Timeout block s =
  match WaitForMultipleObjectsEx t (waited s objs) all ms al (os s) with
  | None => Ok None
  | Some (rc, o) => WaitStatus t objs all rc (set_os (fun _ => o) s)
  end.
Proof.
  intros I Hl (_ & Hm & Ht) Hw. unfold KeWaitForMultipleObjects.
  rewrite (wbind_run _ _ s _ s eq_refl).
  assert ((Z.of_nat (length objs) >? (if block then MAXIMUM_WAIT_OBJECTS else ThreadWaitObjects s)) = false)
    as ->.
  { destruct (Z.gtb_spec (Z.of_nat (length objs)) (if block then MAXIMUM_WAIT_OBJECTS else ThreadWaitObjects s));
      [| done]. destruct block; [lia |]. specialize (Ht eq_refl). lia. }
  rewrite (wbind_run _ _ _ _ _ (handles_of_run s objs I Hl)), (wbind_run _ _ s _ s eq_refl). cbv zeta.
  rewrite (wbind_run _ _ s ms s) by by rewrite Hw.
  fold (waited s objs). rewrite (wbind_run _ _ s _ s eq_refl).
  by destruct (WaitForMultipleObjectsEx _ _ _ _ _ _) as [[rc o] |].
Qed.

(** A wait that is not satisfied changes nothing; it does not return only if it has no
    time limit. *)
Definition waits (ms : Z) (alertable : bool) (s : sync) (r : result (option (Z * sync))) : Prop :=
  (r = Ok None /\ ms = INFINITE) \/
  (r = Ok (Some (STATUS_TIMEOUT, s)) /\ ms <> INFINITE) \/
  (r = Ok (Some (STATUS_ALERTED, s)) /\ alertable = true).

Lemma set_os_same (s : sync) : set_os (fun _ => os s) s = s.
Proof. by destruct s. Qed.

Lemma not_satisfied t now objs all al Timeout block ms s :
  sinv s -> Forall (live s) objs -> within_limit s objs block -> DdkGetWaitTime now Timeout = Ok ms ->
  unsatisfied ms al (os s) (WaitForMultipleObjectsEx t (waited s objs) all ms al (os s)) ->
  waits ms al s (KeWaitForMultipleObjects t now objs all al Timeout block s).
Proof.
  intros I Hl Hm Hw Hu. rewrite (wait_run _ _ _ _ _ _ _ ms) by done.
  destruct Hu as [[-> ->] | [[-> Hn] | [-> ->]]]; [by left | right; left | right; right];
    by rewrite set_os_same.
Qed.

(** ** Waiting for any *)

Fixpoint first_satisfied (s : sync) (t : Z) (objs : list Z) : option (nat * Z * oview) :=
  match objs with
  | [] => None
  | p :: objs =>
      match view_at s p ≫= vpoll t with
      | Some v => Some (0%nat, p, v)
      | None => (fun '(i, p, v) => (S i, p, v)) <$> first_satisfied s t objs
      end
  end.

Lemma first_ready_satisfied s t objs : sinv s -> Forall (live s) objs ->
  (fun '(i, h, x) => (i, h, view x)) <$> first_ready t (os s) (handle_at s <$> objs) =
  (fun '(i, p, v) => (i, handle_at s p, v)) <$> first_satisfied s t objs.
Proof.
  intros I. induction objs as [| p objs IH]; intros Hl; [done |]. apply Forall_cons in Hl as [Hp Hl].
  destruct (live_inv s p I Hp) as (o & x & Ep & Eh & Ex & Hm & Hv).
  pose proof (ready_at s t p o x Eh Ex) as Hr. specialize (IH Hl). simpl. rewrite Hv. simpl.
  rewrite <- Hr. destruct (ready t (os s) (handle_at s p)); simpl; [done |].
  destruct (first_ready _ _ _) as [[[]] |], (first_satisfied s t objs) as [[[]] |]; simpl in *; congruence.
Qed.

Lemma first_ready_waited s t objs : sinv s ->
  first_ready t (os s) (waited s objs) = first_ready t (os s) (handle_at s <$> objs).
Proof.
  intros I. unfold waited. destruct (_ && _) eqn:E; [| done].
  apply andb_true_iff in E as [_ E%negb_true_iff%Z.eqb_neq]. pose proof (dummy_not_ready s t I E) as Hd.
  induction (handle_at s <$> objs) as [| h hs IH]; simpl; [by rewrite Hd | by rewrite IH].
Qed.

Lemma first_satisfied_lookup s t objs i p v :
  first_satisfied s t objs = Some (i, p, v) ->
  objs !! i = Some p /\ view_at s p ≫= vpoll t = Some v.
Proof.
  revert i. induction objs as [| q objs IH]; intros i; simpl; [done |].
  destruct (view_at s q ≫= vpoll t) eqn:E; [by intros [= <- <- <-] |].
  destruct (first_satisfied s t objs) as [[[]] |]; simpl; [| done]. intros [= <- <- <-]. by apply IH.
Qed.

Lemma wait_status t objs all rc s s' :
  0 <= rc < MAXIMUM_WAIT_OBJECTS ->
  update_from t all (drop (if all then 0 else Z.to_nat rc) objs) s = Ok (Some (tt, s')) ->
  WaitStatus t objs all rc s = Ok (Some (rc, s')).
Proof.
  unfold WaitStatus, WAIT_OBJECT_0, STATUS_SUCCESS, MAXIMUM_WAIT_OBJECTS. intros Hrc Hu.
  rewrite s32_id by lia. destruct (Z.geb_spec rc 0) as [_ |]; [| lia].
  destruct (Z.ltb_spec rc (0 + 64)) as [_ |]; [| lia]. cbn [andb].
  rewrite Z.sub_0_r in *. rewrite (wbind_run _ _ _ _ _ Hu). by rewrite Z.add_0_l.
Qed.

(** C14. [KeWaitForMultipleObjects] for any of live objects without duplicates, within
    the limit: the first object that is signalled is the one the wait consumes (an
    event that is not for notification is reset, a mutex is taken or taken once more, a
    semaphore is counted down) and its index is returned; what the object records of
    itself still agrees with the operating system's object; no other object changes.
    If none is signalled the call changes nothing, and it waits forever only without a
    time limit.  The dummy event is never the one. *)
Theorem KeWaitForMultipleObjects_any t now objs al Timeout block ms s :
  sinv s -> Forall (live s) objs -> NoDup objs -> within_limit s objs block ->
  Forall (fun p => forall b, what <$> memory s !! p = Some b -> has_room b) objs ->
  DdkGetWaitTime now Timeout = Ok ms ->
  match first_satisfied s t objs with
  | Some (i, p, v) => exists b s', what <$> memory s !! p = Some b /\
      KeWaitForMultipleObjects t now objs false al Timeout block s = Ok (Some (Z.of_nat i, s')) /\
      updates s s' p (updated t b) v
  | None => waits ms al s (KeWaitForMultipleObjects t now objs false al Timeout block s)
  end.
Proof.
  intros I Hl Hn Hm Hr Hw. pose proof Hm as (Hne & Hlen & _).
  destruct (waited_length s objs Hne Hlen) as [Hne' Hlen'].
  pose proof (wait_any t (waited s objs) ms al (os s) Hne' Hlen' (waited_nodup s objs I Hl Hn)) as Ha.
  rewrite (first_ready_waited s t objs I) in Ha. pose proof (first_ready_satisfied s t objs I Hl) as Hf.
  destruct (first_satisfied s t objs) as [[[i p] v] |] eqn:Es,
    (first_ready t (os s) (handle_at s <$> objs)) as [[[j h] y] |]; simpl in Hf; try done.
  - injection Hf as -> -> Hy. destruct (first_satisfied_lookup s t objs i p v Es) as [Hi Hv].
    assert (p ∈ objs) as Hin by by eapply list_elem_of_lookup_2.
    rewrite Forall_forall in Hl, Hr. pose proof (Hl p Hin) as Hp.
    destruct (live_inv s p I Hp) as (o & x & Ep & Eh & Ex & Hmi & Hvx).
    assert (has_room (what o)) as Hro by (apply (Hr p Hin); by rewrite Ep).
    rewrite Hvx in Hv. simpl in Hv. pose proof (lookup_lt_Some _ _ _ Hi) as Hlt.
    exists (what o), (stored s p (handle o) (updated t (what o)) y). split; [by rewrite Ep |]. split.
    + rewrite (wait_run _ _ _ _ _ _ _ ms) by (try done; by rewrite Forall_forall). rewrite Ha, Eh.
      apply wait_status; [unfold MAXIMUM_WAIT_OBJECTS in *; lia |]. rewrite Nat2Z.id, (drop_S _ _ _ Hi). simpl.
      rewrite (wbind_run _ _ _ _ _ (update_run t (set_os (fun _ => <[handle o := y]> (os s)) s) p o (view x) Ep Hmi Hro)). done.
    + rewrite <- Hy. apply stored_updates; [done.. |]. rewrite Hy. by apply (mirrors_poll t _ (view x)).
  - by apply not_satisfied.
Qed.

(** [KeWaitForSingleObject] is the wait for any of one object. *)
Corollary KeWaitForSingleObject_any t now p al Timeout ms s o v :
  sinv s -> memory s !! p = Some o -> view_at s p = Some v -> has_room (what o) -> 1 <= ThreadWaitObjects s ->
  DdkGetWaitTime now Timeout = Ok ms ->
  match vpoll t v with
  | Some v' => exists s', KeWaitForSingleObject t now p al Timeout s = Ok (Some (STATUS_SUCCESS, s')) /\
      updates s s' p (updated t (what o)) v'
  | None => waits ms al s (KeWaitForSingleObject t now p al Timeout s)
  end.
Proof.
  intros I Ep Hv Hr Ht Hw.
  pose proof (KeWaitForMultipleObjects_any t now [p] al Timeout false ms s I) as Ha.
  assert (first_satisfied s t [p] = (fun v => (0%nat, p, v)) <$> vpoll t v) as Hf
    by (simpl; rewrite Hv; simpl; by destruct (vpoll t v)).
  rewrite Hf in Ha. destruct (vpoll t v) as [v' |]; simpl in Ha.
  - destruct Ha as (b & s' & Hb & ? & ?); [by repeat constructor; eexists | apply NoDup_singleton | | | done |].
    { split; [done |]. simpl. unfold MAXIMUM_WAIT_OBJECTS. lia. }
    { constructor; [| constructor]. rewrite Ep. by intros b [= <-]. }
    rewrite Ep in Hb. injection Hb as <-. by exists s'.
  - apply Ha; [by repeat constructor; eexists | apply NoDup_singleton | | | done].
    { split; [done |]. simpl. unfold MAXIMUM_WAIT_OBJECTS. lia. }
    { constructor; [| constructor]. rewrite Ep. by intros b [= <-]. }
Qed.
(** ** Waiting for all *)

Definition signalled (s : sync) (t p : Z) : Prop := is_Some (view_at s p ≫= vpoll t).

Record all_taken (s s' : sync) (t : Z) (objs : list Z) : Prop := {
  t_each : forall p, p ∈ objs -> exists o v', memory s !! p = Some o /\
    view_at s p ≫= vpoll t = Some v' /\
    what <$> memory s' !! p = Some (updated t (what o)) /\ view_at s' p = Some v';
  t_others : forall q, q ∉ objs -> memory s' !! q = memory s !! q /\ view_at s' q = view_at s q;
  t_inv : sinv s'
}.

Lemma all_taken_cons s s1 s' t p objs o v' :
  p ∉ objs -> memory s !! p = Some o -> view_at s p ≫= vpoll t = Some v' ->
  updates s s1 p (updated t (what o)) v' -> all_taken s1 s' t objs -> all_taken s s' t (p :: objs).
Proof.
  intros Hp Ep Hv U [E O I]. split; [| | done].
  - intros q [-> | Hq]%elem_of_cons.
    + destruct (O p Hp) as [Om Ov]. exists o, v'. rewrite Om, Ov, (u_view _ _ _ _ _ U).
      split; [done |]. split; [done |]. split; [apply (u_what _ _ _ _ _ U) | done].
    + assert (q <> p) as Hqp by (intros ->; done).
      destruct (E q Hq) as (oq & vq & Eq & Hvq & ?). exists oq, vq.
      rewrite (u_memory _ _ _ _ _ U q Hqp) in Eq. by rewrite (u_others _ _ _ _ _ U q Hqp) in Hvq.
  - intros q [Hqp Hq]%not_elem_of_cons. destruct (O q Hq) as [-> ->].
    split; [by apply (u_memory _ _ _ _ _ U) | by apply (u_others _ _ _ _ _ U)].
Qed.

(** If each is signalled, what the operating system leaves agrees with what the loop of
    [WaitStatus] then records. *)
Lemma all_ready_taken t objs : forall s,
  sinv s -> Forall (live s) objs -> NoDup objs ->
  Forall (fun p => forall b, what <$> memory s !! p = Some b -> has_room b) objs ->
  Forall (signalled s t) objs ->
  exists o' s', all_ready t (os s) (handle_at s <$> objs) = Some o' /\
    update_from t true objs (set_os (fun _ => o') s) = Ok (Some (tt, s')) /\ all_taken s s' t objs.
Proof.
  induction objs as [| p objs IH]; intros s I Hl Hn Hr Hs.
  - exists (os s), s. simpl. rewrite set_os_same. split; [done |]. split; [done |].
    split; [by intros p ?%elem_of_nil | done | done].
  - apply Forall_cons in Hl as [Hp Hl], Hr as [Hrp Hr], Hs as [[v' Hv] Hs].
    apply NoDup_cons in Hn as [Hpn Hn].
    destruct (live_inv s p I Hp) as (o & x & Ep & Eh & Ex & Hm & Hvx).
    assert (has_room (what o)) as Hro by (apply Hrp; by rewrite Ep).
    pose proof Hv as Hv0. rewrite Hvx in Hv. simpl in Hv.
    pose proof (ready_at s t p o x Eh Ex) as Hre. rewrite Hv in Hre.
    destruct (ready t (os s) (handle_at s p)) as [y |] eqn:Ey; [| done]. injection Hre as Hy.
    assert (updates s (stored s p (handle o) (updated t (what o)) y) p (updated t (what o)) (view y)) as U.
    { apply stored_updates; [done.. |]. rewrite Hy. by apply (mirrors_poll t _ (view x)). }
    set (s1 := stored s p (handle o) (updated t (what o)) y) in *. rewrite Hy in U.
    assert (forall q, q ∈ objs -> q <> p) as Hne by (intros q Hq ->; done).
    assert (forall q, q ∈ objs -> memory s1 !! q = memory s !! q) as Hmem
      by (intros q Hq; apply (u_memory _ _ _ _ _ U), Hne, Hq).
    destruct (IH s1 (u_inv _ _ _ _ _ U)) as (o' & s' & Ha & Hu & Ht).
    { rewrite Forall_forall in *. intros q Hq. unfold live. rewrite Hmem by done. by apply Hl. }
    { done. }
    { rewrite Forall_forall in *. intros q Hq b. rewrite Hmem by done. by apply Hr. }
    { rewrite Forall_forall in *. intros q Hq. unfold signalled.
      rewrite (u_others _ _ _ _ _ U) by by apply Hne. by apply Hs. }
    exists o', s'. split; [| split].
    + rewrite fmap_cons. cbn [all_ready]. rewrite Ey. cbn [mbind option_bind]. rewrite Eh.
      rewrite <- Ha. change (<[handle o := y]> (os s)) with (os s1). f_equal. apply list_fmap_ext. intros k q Hq%list_elem_of_lookup_2.
      unfold handle_at. by rewrite (Hmem q Hq).
    + cbn [update_from]. rewrite (wbind_run _ _ _ _ _ (update_run t (set_os (fun _ => o') s) p o (view x) Ep Hm Hro)).
      exact Hu.
    + by apply (all_taken_cons s s1 s' t p objs o v').
Qed.

(** One that is not signalled is enough for the wait not to be satisfied. *)
Lemma all_ready_none t p x : forall hs (o : gmap Z osobj),
  NoDup hs -> p ∈ hs -> o !! p = Some x -> poll t x = None -> all_ready t o hs = None.
Proof.
  induction hs as [| h hs IH]; intros o Hnd Hin Ex Hp; [by apply elem_of_nil in Hin |].
  apply NoDup_cons in Hnd as [Hh Hn]. simpl. apply elem_of_cons in Hin as [-> | Hin]; [unfold ready; by rewrite Ex; simpl; rewrite Hp |].
  destruct (ready t o h) as [y |]; [| done]. simpl. apply IH; [done | done | | done].
  rewrite lookup_insert_ne; [done |]. by intros ->.
Qed.

Lemma waited_handles s objs p : p ∈ objs -> handle_at s p ∈ waited s objs.
Proof.
  intros Hp. unfold waited. assert (handle_at s p ∈ handle_at s <$> objs) by by apply list_elem_of_fmap_2.
  destruct (_ && _); [| done]. apply elem_of_app. by left.
Qed.

Lemma waited_not_ready s t objs p :
  sinv s -> Forall (live s) objs -> NoDup objs -> p ∈ objs -> ~ signalled s t p ->
  all_ready t (os s) (waited s objs) = None.
Proof.
  intros I Hl Hn Hp Hs. pose proof Hl as Hl'. rewrite Forall_forall in Hl'.
  destruct (live_inv s p I (Hl' p Hp)) as (o & x & Ep & Eh & Ex & Hm & Hv).
  apply (all_ready_none t (handle_at s p) x); [by apply waited_nodup | by apply waited_handles | by rewrite Eh |].
  apply poll_none. unfold signalled in Hs. rewrite Hv in Hs. simpl in Hs.
  destruct (vpoll t (view x)); [| done]. destruct Hs. by eexists.
Qed.

(** [KeWaitForMultipleObjects] for all of two or more live objects without
    duplicates, within the limit: if each is signalled all of them are consumed, those
    fields of their own that mirror the operating system's are brought up to date, the
    invariant is kept and nothing else changes; if one is not, nothing changes at all
    and the call waits forever only without a time limit. *)
Theorem KeWaitForMultipleObjects_all t now objs al Timeout block ms s :
  sinv s -> Forall (live s) objs -> NoDup objs -> within_limit s objs block -> (2 <= length objs)%nat ->
  Forall (fun p => forall b, what <$> memory s !! p = Some b -> has_room b) objs ->
  DdkGetWaitTime now Timeout = Ok ms ->
  (Forall (signalled s t) objs ->
    exists s', KeWaitForMultipleObjects t now objs true al Timeout block s = Ok (Some (STATUS_SUCCESS, s')) /\
      all_taken s s' t objs) /\
  (forall p, p ∈ objs -> ~ signalled s t p ->
    waits ms al s (KeWaitForMultipleObjects t now objs true al Timeout block s)).
Proof.
  intros I Hl Hn Hm H2 Hr Hw. pose proof Hm as (Hne & Hlen & _).
  destruct (waited_length s objs Hne Hlen) as [Hne' Hlen'].
  pose proof (wait_all t (waited s objs) ms al (os s) Hne' Hlen' (waited_nodup s objs I Hl Hn)) as Ha.
  split.
  - intros Hs. destruct (all_ready_taken t objs s I Hl Hn Hr Hs) as (o' & s' & Hre & Hu & Ht).
    assert (waited s objs = handle_at s <$> objs) as Ew.
    { unfold waited. rewrite length_fmap. by destruct (Nat.eqb_spec (length objs) 1); [lia |]. }
    rewrite Ew, Hre in Ha. exists s'. split; [| done].
    rewrite (wait_run _ _ _ _ _ _ _ ms) by done. rewrite Ew, Ha.
    apply (wait_status t objs true 0); [unfold MAXIMUM_WAIT_OBJECTS; lia | done].
  - intros p Hp Hs. rewrite (waited_not_ready s t objs p I Hl Hn Hp Hs) in Ha. by apply not_satisfied.
Qed.

(** A wait for all of a single object never succeeds once [DdkWaitInit] has made the
    dummy event: the call adds the dummy event to the handles and waits for both, so
    that even if the object is signalled the call only waits, times out or is alerted,
    and changes nothing. *)
Theorem KeWaitForMultipleObjects_all_single t now p al Timeout block ms s :
  sinv s -> live s p -> nullevent s <> 0 -> (block = false -> 1 <= ThreadWaitObjects s) ->
  DdkGetWaitTime now Timeout = Ok ms ->
  waits ms al s (KeWaitForMultipleObjects t now [p] true al Timeout block s).
Proof.
  intros I Hp Hd Ht Hw. destruct (i_null _ I Hd) as ((x & Ex & Hx) & _).
  assert (Forall (live s) [p]) as Hl by by repeat constructor.
  assert (NoDup [p]) as Hn by apply NoDup_singleton.
  assert (within_limit s [p] block) as Hm by (split; [done |]; split; [unfold MAXIMUM_WAIT_OBJECTS; simpl; lia | exact Ht]).
  pose proof Hm as (Hne & Hlen & _). destruct (waited_length s [p] Hne Hlen) as [Hne' Hlen'].
  pose proof (waited_nodup s [p] I Hl Hn) as Hnd.
  pose proof (wait_all t (waited s [p]) ms al (os s) Hne' Hlen' Hnd) as Ha.
  assert (all_ready t (os s) (waited s [p]) = None) as Hno.
  { apply (all_ready_none t (nullevent s) x); [done | | done | apply poll_none; by rewrite Hx].
    unfold waited. simpl. apply Z.eqb_neq in Hd as ->. simpl. set_solver. }
  rewrite Hno in Ha. by apply not_satisfied.
Qed.
End waits.
