(* ===== verification/DispatcherMutex.v ===== *)
(** * DispatcherMutex: mutexes, semaphores and wait times

    A mutex as an owner and a count for any sequence of calls by any threads; the
    count of a semaphore; the milliseconds of a wait. *)

From S2P Require Import Prelude Dispatcher DispatcherSpec DispatcherWaits.

(** The fields of a mutex with this owner and count. *)
Definition mutex_body (owner : option Z) (n : Z) : dispatch_body :=
  match owner with Some u => MUTEX u n | None => MUTEX 0 0 end.

Inductive mutex_op := OpAcquire | OpRelease | OpHeld.

(** What an owner and a count make of a call by thread [t]. *)
Definition owner_op (t : Z) (op : mutex_op) (m : option Z * Z) : Z * (option Z * Z) :=
  match op with
  | OpAcquire =>
      match m with
      | (None, _) => (STATUS_SUCCESS, (Some t, 1))
      | (Some u, n) => if u =? t then (STATUS_SUCCESS, (Some t, n + 1)) else (STATUS_TIMEOUT, m)
      end
  | OpRelease =>
      match m with
      | (Some u, n) => if u =? t then (if n =? 1 then (0, (None, 0)) else (1, (Some u, n - 1))) else (1, m)
      | _ => (1, m)
      end
  | OpHeld => ((if m.2 =? 0 then 1 else 0), m)
  end.

Fixpoint owner_ops (cs : list (Z * Z * mutex_op)) (m : option Z * Z) : list Z * (option Z * Z) :=
  match cs with
  | [] => ([], m)
  | c :: cs =>
      let r := owner_op c.1.1 c.2 m in
      let rs := owner_ops cs r.2 in
      (r.1 :: rs.1, rs.2)
  end.

Section mutexes.
Context `{SyncLaws}.

Definition mutex_is (s : sync) (p : Z) (m : option Z * Z) : Prop :=
  what <$> memory s !! p = Some (mutex_body m.1 m.2) /\ view_at s p = Some (VMutex m.1 m.2).

(** The wait is one that gives up at once. *)
Definition run_mutex (p : Z) (c : Z * Z * mutex_op) : SyncM Z :=
  let '(t, irql, op) := c in
  match op with
  | OpAcquire => KeWaitForSingleObject t 0 p false (Some 0)
  | OpRelease => KeReleaseMutex t irql p
  | OpHeld => KeReadStateMutex irql p
  end.

Fixpoint run_mutexes (p : Z) (cs : list (Z * Z * mutex_op)) : SyncM (list Z) :=
  match cs with
  | [] => mret []
  | c :: cs => r ← run_mutex p c; rs ← run_mutexes p cs; mret (r :: rs)
  end.

Lemma mutex_is_inv s p m : sinv s -> mutex_is s p m -> exists o (x : osobj),
  memory s !! p = Some o /\ what o = mutex_body m.1 m.2 /\ os s !! handle o = Some x /\
  view x = VMutex m.1 m.2 /\ mirrors (what o) (view x).
Proof.
  intros I [Hw Hv]. destruct (memory s !! p) as [o |] eqn:Ep; [| done]. injection Hw as Hw.
  destruct (i_mirror _ I p o Ep) as (_ & x & Ex & Hm). exists o, x.
  unfold view_at in Hv. rewrite Ep in Hv. simpl in Hv. rewrite Ex in Hv. by injection Hv as Hv.
Qed.

Lemma mutex_updates s s' p m : updates s s' p (mutex_body m.1 m.2) (VMutex m.1 m.2) -> mutex_is s' p m.
Proof. intros U. split; [apply (u_what _ _ _ _ _ U) | apply (u_view _ _ _ _ _ U)]. Qed.

Lemma mutex_at_run s p o id n : memory s !! p = Some o -> what o = MUTEX id n ->
  mutex_at p s = Ok (Some ((handle o, id, n), s)).
Proof.
  intros Ep Hw. unfold mutex_at. rewrite (wbind_run _ _ _ _ _ (object_in_run s p o Ep)). by rewrite Hw.
Qed.

Lemma fields_same s p o : memory s !! p = Some o -> set_memory <[p := mkDispatch (handle o) (what o)]> s = s.
Proof.
  intros Ep. assert (mkDispatch (handle o) (what o) = o) as -> by by destruct o.
  unfold set_memory. rewrite (insert_id (memory s) p o) by done. by destruct s.
Qed.

Lemma release_none t x : vrelease t (view x) = None -> ReleaseMutex t x = None.
Proof. rewrite <- view_release. by destruct (ReleaseMutex t x). Qed.

Lemma release_some t x v : vrelease t (view x) = Some v ->
  exists y, ReleaseMutex t x = Some y /\ view y = v.
Proof. rewrite <- view_release. destruct (ReleaseMutex t x) as [y |]; simpl; [| done]. intros [= <-]. by exists y. Qed.

Lemma then_object {B} (k : osobj -> SyncM B) f s h x : os s !! h = Some x ->
  (wput (set_memory f) ≫= fun _ => os_object h ≫= k) s = k x (set_memory f s).
Proof.
  intros Ex. rewrite (wbind_run _ _ s tt _ eq_refl).
  by rewrite (wbind_run _ _ _ _ _ (os_object_run (set_memory f s) h x Ex)).
Qed.

Lemma release_others t irql p s m :
  sinv s -> mutex_is s p m -> irql <= DISPATCH_LEVEL -> 0 < t -> m.1 <> Some t ->
  KeReleaseMutex t irql p s = Ok (Some (1, s)).
Proof.
  intros I Hm Hi Ht Ho. destruct (mutex_is_inv s p m I Hm) as (o & x & Ep & Hw & Ex & Hv & Hmi).
  assert (exists id n, what o = MUTEX id n /\ id <> t) as (id & n & Hid & Hne).
  { destruct m as [[u |] n]; simpl in *; [exists u, n | exists 0, 0]; (split; [done |]); [congruence | lia]. }
  unfold KeReleaseMutex. rewrite (wbind_run _ _ _ _ _ (mutex_at_run s p o id n Ep Hid)).
  rewrite (wbind_run _ _ _ _ _ (level_run irql s Hi)). unfold release_count.
  apply Z.eqb_neq in Hne as ->. 
  rewrite (then_object _ _ s _ x Ex), release_none; [by rewrite <- Hid, fields_same |].
  rewrite Hv. simpl. destruct m as [[u |] n']; [| done]. simpl in *.
  by destruct (Z.eqb_spec u t) as [-> |].
Qed.

Lemma release_owner t irql p s n :
  sinv s -> mutex_is s p (Some t, n) -> irql <= DISPATCH_LEVEL ->
  let m := if n =? 1 then (None, 0) else (Some t, n - 1) in
  exists s', KeReleaseMutex t irql p s = Ok (Some ((if n =? 1 then 0 else 1), s')) /\
    updates s s' p (mutex_body m.1 m.2) (VMutex m.1 m.2).
Proof.
  intros I Hm Hi m. destruct (mutex_is_inv s p _ I Hm) as (o & x & Ep & Hw & Ex & Hv & Hmi). simpl in *.
  assert (0 < n < 2 ^ 31) as Hn by (rewrite Hw, Hv in Hmi; simpl in Hmi; lia).
  unfold KeReleaseMutex. rewrite (wbind_run _ _ _ _ _ (mutex_at_run s p o t n Ep Hw)).
  rewrite (wbind_run _ _ _ _ _ (level_run irql s Hi)). unfold release_count.
  rewrite Z.eqb_refl, s32_id by lia. cbv zeta.
  destruct (release_some t x (VMutex m.1 m.2)) as (y & Ey & Hy).
  { rewrite Hv. unfold m. simpl. rewrite Z.eqb_refl. by destruct (n =? 1). }
  exists (stored s p (handle o) (mutex_body m.1 m.2) y). split.
  - replace (n - 1 =? 0) with (n =? 1) by (case_z; lia). unfold m.
    destruct (Z.eqb_spec n 1) as [-> |]; cbn [fst snd]; rewrite (then_object _ _ s _ x Ex), Ey; done.
  - rewrite <- Hy. apply stored_updates; [done.. |]. rewrite Hy. unfold m.
    destruct (Z.eqb_spec n 1); simpl; [done |]. lia.
Qed.

Lemma run_mutex_run p c s m n :
  sinv s -> mutex_is s p m -> m.2 <= n -> n + 1 < 2 ^ 31 -> 1 <= ThreadWaitObjects s ->
  0 < c.1.1 /\ c.1.2 <= DISPATCH_LEVEL ->
  exists s', run_mutex p c s = Ok (Some ((owner_op c.1.1 c.2 m).1, s')) /\
    let m' := (owner_op c.1.1 c.2 m).2 in
    updates s s' p (mutex_body m'.1 m'.2) (VMutex m'.1 m'.2) /\ m'.2 <= n + 1.
Proof.
  destruct c as [[t irql] op]. intros I Hm Hn Hr Ht [Hpos Hi]. simpl in Hpos, Hi.
  destruct (mutex_is_inv s p m I Hm) as (o & x & Ep & Hw & Ex & Hv & Hmi). cbn [fst snd].
  assert (updates s s p (mutex_body m.1 m.2) (VMutex m.1 m.2)) as U0
    by (rewrite <- Hw; apply updates_refl; [done.. | by apply Hm]).
  destruct op; cbn [run_mutex].
  - assert (has_room (what o)) as Hro by (rewrite Hw; destruct m as [[u |] k]; simpl in *; lia).
    pose proof (KeWaitForSingleObject_any t 0 p false (Some 0) 0 s o (VMutex m.1 m.2)
      I Ep (proj2 Hm) Hro Ht eq_refl) as Hwait.
    rewrite Hw, Hv in Hmi. destruct m as [[u |] k]; simpl in *.
    + rewrite Hw in Hwait. simpl in Hwait. destruct (Z.eqb_spec u t) as [-> | Hne].
      * destruct Hwait as (s' & Hrun & U). exists s'. simpl. split; [done |]. split; [done | lia].
      * exists s. simpl. split; [| split; [done | lia]].
        by destruct Hwait as [[_ ?] | [[-> _] | [_ ?]]].
    + destruct Hwait as (s' & Hrun & U). exists s'. simpl. split; [done |]. rewrite Hw in U. simpl in U.
      split; [| lia]. by destruct t.
  - destruct m as [[u |] k]; simpl in *.
    + destruct (Z.eqb_spec u t) as [-> | Hne].
      * destruct (release_owner t irql p s k I Hm Hi) as (s' & Hrun & U). exists s'.
        destruct (Z.eqb_spec k 1); simpl; (split; [done |]); (split; [done | lia]).
      * exists s. simpl. split; [| split; [done | lia]].
        apply (release_others t irql p s (Some u, k)); simpl; try done. congruence.
    + exists s. simpl. split; [| split; [done | lia]].
      by apply (release_others t irql p s (None, k)).
  - exists s. simpl. split; [| split; [done | lia]]. unfold KeReadStateMutex.
    assert (exists h id k, mutex_at p s = Ok (Some ((h, id, k), s)) /\ k = m.2) as (h & id & k & Hat & ->).
    { rewrite Hw, Hv in Hmi. destruct m as [[u |] k]; simpl in *.
      - exists (handle o), u, k. split; [by apply mutex_at_run | done].
      - exists (handle o), 0, 0. split; [by apply mutex_at_run | lia]. }
    rewrite (wbind_run _ _ _ _ _ Hat), (wbind_run _ _ _ _ _ (level_run irql s Hi)). done.
Qed.

(** C23. A mutex is an owner and a count: for every sequence of waits that give up at
    once, [KeReleaseMutex] and [KeReadStateMutex] calls by any threads, each call
    returns what it returns of the owner and the count.  So a thread gets the mutex only
    if it is free or its own, a release by another thread returns 1 and changes nothing,
    the last release by the owner returns 0 and frees it, and no other object changes. *)
Theorem mutex_refinement p cs : forall s m,
  sinv s -> mutex_is s p m -> m.2 + Z.of_nat (length cs) < 2 ^ 31 -> 1 <= ThreadWaitObjects s ->
  Forall (fun c : Z * Z * mutex_op => 0 < c.1.1 /\ c.1.2 <= DISPATCH_LEVEL) cs ->
  exists s', run_mutexes p cs s = Ok (Some ((owner_ops cs m).1, s')) /\
    let m' := (owner_ops cs m).2 in updates s s' p (mutex_body m'.1 m'.2) (VMutex m'.1 m'.2).
Proof.
  induction cs as [| c cs IH]; intros s m I Hm Hn Ht Hc.
  - exists s. split; [done |]. destruct (mutex_is_inv s p m I Hm) as (o & x & Ep & Hw & _).
    simpl. rewrite <- Hw. apply updates_refl; [done.. | by apply Hm].
  - apply Forall_cons in Hc as [Hc Hcs]. cbn [length] in Hn.
    destruct (run_mutex_run p c s m (m.2) I Hm) as (s1 & Hr & U & Hle); [lia | lia | done | done |].
    destruct (IH s1 (owner_op c.1.1 c.2 m).2 (u_inv _ _ _ _ _ U) (mutex_updates _ _ _ _ U)) as (s2 & Hr2 & U2);
      [lia | by rewrite (u_limit _ _ _ _ _ U) | done |].
    exists s2. cbn [run_mutexes owner_ops]. rewrite (wbind_run _ _ _ _ _ Hr), (wbind_run _ _ _ _ _ Hr2).
    split; [done |]. by apply (updates_trans s s1 s2 p _ _ _ _ U).
Qed.
End mutexes.

(** ** Semaphores *)

Inductive semaphore_op := OpDown | OpUp (Adjustment : Z) | OpCount.

(** What a count with limit [l] makes of a call. *)
Definition count_op (op : semaphore_op) (l c : Z) : result (Z * Z) :=
  match op with
  | OpDown => Ok (if 0 <? c then (STATUS_SUCCESS, c - 1) else (STATUS_TIMEOUT, c))
  | OpUp n =>
      if (0 <? n) && (c + n <=? l) then Ok ((if c =? 0 then 0 else 1), c + n)
      else Err (BugChecked STATUS_SEMAPHORE_LIMIT_EXCEEDED)
  | OpCount => Ok ((if c =? 0 then 0 else 1), c)
  end.

Fixpoint count_ops (cs : list (Z * Z * semaphore_op)) (l c : Z) : result (list Z * Z) :=
  match cs with
  | [] => Ok ([], c)
  | x :: cs => r ← count_op x.2 l c; rs ← count_ops cs l r.2; mret (r.1 :: rs.1, rs.2)
  end.

Section semaphores.
Context `{SyncLaws}.

Definition semaphore_is (s : sync) (p l c : Z) : Prop :=
  what <$> memory s !! p = Some (SEMAPHORE c) /\ view_at s p = Some (VSemaphore c l).

Definition run_semaphore (p : Z) (c : Z * Z * semaphore_op) : SyncM Z :=
  let '(t, irql, op) := c in
  match op with
  | OpDown => KeWaitForSingleObject t 0 p false (Some 0)
  | OpUp n => KeReleaseSemaphore irql p n false
  | OpCount => KeReadStateSemaphore p
  end.

Fixpoint run_semaphores (p : Z) (cs : list (Z * Z * semaphore_op)) : SyncM (list Z) :=
  match cs with
  | [] => mret []
  | c :: cs => r ← run_semaphore p c; rs ← run_semaphores p cs; mret (r :: rs)
  end.

Lemma semaphore_is_inv s p l c : sinv s -> semaphore_is s p l c -> exists o (x : osobj),
  memory s !! p = Some o /\ what o = SEMAPHORE c /\ os s !! handle o = Some x /\
  view x = VSemaphore c l /\ 0 <= c <= l /\ l < 2 ^ 31 /\
  semaphore_at p s = Ok (Some ((handle o, c), s)).
Proof.
  intros I [Hw Hv]. destruct (memory s !! p) as [o |] eqn:Ep; [| done]. injection Hw as Hw.
  destruct (i_mirror _ I p o Ep) as (_ & x & Ex & Hm). exists o, x.
  unfold view_at in Hv. rewrite Ep in Hv. simpl in Hv. rewrite Ex in Hv. injection Hv as Hv.
  rewrite Hw, Hv in Hm. simpl in Hm. repeat (split; [done || lia |]).
  unfold semaphore_at. rewrite (wbind_run _ _ _ _ _ (object_in_run s p o Ep)). by rewrite Hw.
Qed.

Lemma KeReleaseSemaphore_run irql p n s l c :
  sinv s -> semaphore_is s p l c -> irql <= DISPATCH_LEVEL -> - 2 ^ 31 <= c + n < 2 ^ 31 ->
  match count_op (OpUp n) l c with
  | Ok (r, c') => exists s', KeReleaseSemaphore irql p n false s = Ok (Some (r, s')) /\
      updates s s' p (SEMAPHORE c') (VSemaphore c' l)
  | Err f => KeReleaseSemaphore irql p n false s = Err f
  end.
Proof.
  intros I Hs Hi Hn. destruct (semaphore_is_inv s p l c I Hs) as (o & x & Ep & Hw & Ex & Hv & Hc & Hl & Hat).
  unfold KeReleaseSemaphore. rewrite (wbind_run _ _ _ _ _ Hat).
  rewrite (wbind_run _ _ s tt s) by by apply wassert_run, Z.leb_le. rewrite s32_id by lia.
  rewrite (then_object _ _ s _ x Ex). pose proof (view_add x n) as Ha. rewrite Hv in Ha. simpl in *.
  destruct ((0 <? n) && (c + n <=? l)) eqn:E; simpl.
  - destruct (ReleaseSemaphore x n) as [[prev y] |]; simpl in Ha; [| done]. injection Ha as -> Hy.
    exists (stored s p (handle o) (SEMAPHORE (c + n)) y). split; [done |]. rewrite <- Hy.
    apply andb_true_iff in E as [E1%Z.ltb_lt E2%Z.leb_le].
    apply stored_updates; [done.. |]. rewrite Hy. simpl. lia.
  - by destruct (ReleaseSemaphore x n).
Qed.

Lemma run_semaphore_run p x s l c :
  sinv s -> semaphore_is s p l c -> 1 <= ThreadWaitObjects s -> x.1.2 <= DISPATCH_LEVEL ->
  (forall n, x.2 = OpUp n -> - 2 ^ 31 <= n /\ c + n < 2 ^ 31) ->
  match count_op x.2 l c with
  | Ok (r, c') => exists s', run_semaphore p x s = Ok (Some (r, s')) /\
      updates s s' p (SEMAPHORE c') (VSemaphore c' l)
  | Err f => run_semaphore p x s = Err f
  end.
Proof.
  destruct x as [[t irql] op]. intros I Hs Ht Hi Hn. simpl in Hi.
  destruct (semaphore_is_inv s p l c I Hs) as (o & x & Ep & Hw & Ex & Hv & Hc & Hl & Hat).
  assert (updates s s p (SEMAPHORE c) (VSemaphore c l)) as U0
    by (rewrite <- Hw; apply updates_refl; [done.. | by apply Hs]).
  destruct op as [| n |]; cbn [run_semaphore snd].
  - pose proof (KeWaitForSingleObject_any t 0 p false (Some 0) 0 s o (VSemaphore c l) I Ep (proj2 Hs)) as Hwait.
    rewrite Hw in Hwait. specialize (Hwait Logic.I Ht eq_refl). simpl in *. destruct (0 <? c).
    + destruct Hwait as (s' & ? & ?). by exists s'.
    + exists s. split; [| done]. by destruct Hwait as [[_ ?] | [[-> _] | [_ ?]]].
  - apply KeReleaseSemaphore_run; [done.. |]. destruct (Hn n eq_refl). lia.
  - exists s. split; [| done]. unfold KeReadStateSemaphore. by rewrite (wbind_run _ _ _ _ _ Hat).
Qed.

(** A semaphore is a count with a limit: for every sequence of waits that give up at
    once, [KeReleaseSemaphore] and [KeReadStateSemaphore] calls by any threads, the calls
    return what they return of the count, the count stays between 0 and the limit, and a
    release of nothing or beyond the limit is a bug check, at that call. *)
Theorem semaphore_refinement p l cs : forall s c,
  sinv s -> semaphore_is s p l c -> 1 <= ThreadWaitObjects s ->
  Forall (fun x : Z * Z * semaphore_op => x.1.2 <= DISPATCH_LEVEL /\
    forall n, x.2 = OpUp n -> - 2 ^ 31 <= n < 2 ^ 31 - l) cs ->
  match count_ops cs l c with
  | Ok (rs, c') => exists s', run_semaphores p cs s = Ok (Some (rs, s')) /\
      updates s s' p (SEMAPHORE c') (VSemaphore c' l) /\ 0 <= c' <= l
  | Err f => run_semaphores p cs s = Err f
  end.
Proof.
  induction cs as [| x cs IH]; intros s c I Hs Ht Hc.
  - destruct (semaphore_is_inv s p l c I Hs) as (o & y & Ep & Hw & _ & _ & Hr & _). exists s.
    split; [done |]. split; [| done]. rewrite <- Hw. apply updates_refl; [done.. | by apply Hs].
  - apply Forall_cons in Hc as [[Hx Hn] Hc].
    destruct (semaphore_is_inv s p l c I Hs) as (_ & _ & _ & _ & _ & _ & Hr & _).
    pose proof (run_semaphore_run p x s l c I Hs Ht Hx) as H1. cbn [count_ops run_semaphores].
    destruct (count_op x.2 l c) as [[r c1] | f]; cbn [mbind result_bind].
    2: { apply wbind_err, H1. intros n En. specialize (Hn n En). lia. }
    destruct H1 as (s1 & Hr1 & U); [intros n En; specialize (Hn n En); lia |].
    rewrite (wbind_run _ _ _ _ _ Hr1).
    specialize (IH s1 c1 (u_inv _ _ _ _ _ U) (conj (u_what _ _ _ _ _ U) (u_view _ _ _ _ _ U))).
    rewrite (u_limit _ _ _ _ _ U) in IH. specialize (IH Ht Hc). cbn [fst snd].
    destruct (count_ops cs l c1) as [[rs c2] | f]; [| by apply wbind_err].
    destruct IH as (s2 & Hr2 & U2 & Hle). exists s2. rewrite (wbind_run _ _ _ _ _ Hr2).
    split; [done |]. split; [by apply (updates_trans s s1 s2 p _ _ _ _ U) | done].
Qed.
End semaphores.

(** ** Wait times *)

(** The milliseconds of a wait: an absolute time is the difference to the system
    time, rounded down, 0 in the past, and a failure of the library if it does not fit
    in 32 bits; a relative time is not checked, it is truncated to 32 bits, so that
    2^32 ms do not wait at all and 2^32 - 1 ms never end. *)
Theorem DdkGetWaitTime_spec now q :
  0 <= now < 2 ^ 63 -> - 2 ^ 63 < q < 2 ^ 63 ->
  DdkGetWaitTime now None = Ok INFINITE /\
  DdkGetWaitTime now (Some q) =
    if q <=? 0 then Ok (((- q) / 10000) mod 2 ^ 32)
    else if Z.max 0 (q - now) / 10000 <? 2 ^ 32 then Ok (Z.max 0 (q - now) / 10000)
    else Err (DdkFailed "Wait timeout is too large").
Proof.
  intros Hnow Hq. split; [done |]. unfold DdkGetWaitTime. destruct (Z.leb_spec q 0).
  - rewrite s64_id, Z.quot_div_nonneg by lia. done.
  - destruct (Z.gtb_spec now q).
    + rewrite Z.max_l by lia. done.
    + rewrite Z.max_r, Z.quot_div_nonneg by lia. set (v := (q - now) / 10000).
      assert (0 <= v) by (apply Z.div_pos; lia). rewrite Z.shiftr_div_pow2 by lia.
      destruct (Z.ltb_spec v (2 ^ 32)).
      * rewrite Z.div_small by lia. simpl. by rewrite u32_id.
      * assert (0 < v / 2 ^ 32) by (apply Z.div_str_pos; lia).
        by destruct (Z.eqb_spec (v / 2 ^ 32) 0); [lia |].
Qed.
