(* ===== verification/DispatcherExamples.v ===== *)
(** * DispatcherExamples: the theorems on dispatcher objects, at one state

    An event for synchronisation at 100, set; a free mutex at 200; a semaphore of 2 up
    to 3 at 300; the dummy event of the waits.  The operating system's objects are their
    views. *)

From S2P Require Import Prelude Dispatcher DispatcherSpec DispatcherWaits DispatcherMutex.

#[local] Instance win : WIN32_SYNC := model_sync.
#[local] Instance win_laws : SyncLaws := model_laws.

Definition demo : sync := mkSync win
  (list_to_map [(100, mkDispatch 4 (EVENT false)); (200, mkDispatch 8 (MUTEX 0 0));
    (300, mkDispatch 12 (SEMAPHORE 2))])
  (list_to_map [(4, VEvent false true); (8, VMutex None 0); (12, VSemaphore 2 3); (16, VEvent false false)])
  16 3.

Lemma sync_cases p o : memory demo !! p = Some o ->
  (p = 100 /\ o = mkDispatch 4 (EVENT false)) \/ (p = 200 /\ o = mkDispatch 8 (MUTEX 0 0)) \/
  (p = 300 /\ o = mkDispatch 12 (SEMAPHORE 2)).
Proof.
  intros E. apply elem_of_list_to_map_2 in E. rewrite !elem_of_cons, elem_of_nil in E.
  destruct E as [[= -> ->] | [[= -> ->] | [[= -> ->] | []]]]; tauto.
Qed.

Lemma demo_sinv : sinv demo.
Proof.
  split.
  - intros p o [[-> ->] | [[-> ->] | [-> ->]]]%sync_cases; (split; [done |]).
    + exists (VEvent false true). by vm_compute.
    + exists (VMutex None 0). by vm_compute.
    + exists (VSemaphore 2 3). by vm_compute.
  - by intros p q o o' [[-> ->] | [[-> ->] | [-> ->]]]%sync_cases [[-> ->] | [[-> ->] | [-> ->]]]%sync_cases.
  - intros _. split; [exists (VEvent false false); by vm_compute |].
    by intros p o [[-> ->] | [[-> ->] | [-> ->]]]%sync_cases.
Qed.

Definition calls : list (Z * Z * event_op) :=
  [(1, 0, OpRead); (2, 1, OpReset); (2, 0, OpSet true); (1, 0, OpClear)].

Lemma event_refinement_witness :
  exists s', run_events 100 calls demo = Ok (Some ([Some 1; Some 1; Some 0; None], s')) /\
    updates demo s' 100 (EVENT false) (VEvent false false).
Proof.
  apply (event_refinement 100 false calls demo true demo_sinv); [by split |].
  repeat constructor; unfold APC_LEVEL; simpl; lia.
Defined.

Lemma sync_live : Forall (live demo) [300; 100].
Proof. by repeat constructor; eexists. Qed.

Lemma sync_room : Forall (fun p => forall b, what <$> memory demo !! p = Some b -> has_room b) [300; 100].
Proof. by repeat constructor; intros b [= <-]. Qed.

Lemma demo_nodup : NoDup [300; 100].
Proof. apply (bool_decide_unpack _). by vm_compute. Qed.

Lemma demo_limit objs : objs = [300; 100] -> within_limit demo objs false.
Proof. intros ->. split; [done |]. split; unfold MAXIMUM_WAIT_OBJECTS; simpl; lia. Qed.

Lemma KeWaitForMultipleObjects_any_witness :
  exists b s', what <$> memory demo !! 300 = Some b /\
    KeWaitForMultipleObjects 1 0 [300; 100] false false None false demo = Ok (Some (0, s')) /\
    updates demo s' 300 (updated 1 b) (VSemaphore 1 3).
Proof.
  apply (KeWaitForMultipleObjects_any 1 0 [300; 100] false None false INFINITE demo demo_sinv sync_live
    demo_nodup (demo_limit _ eq_refl) sync_room eq_refl).
Defined.

Lemma KeWaitForMultipleObjects_all_witness :
  exists s', KeWaitForMultipleObjects 1 0 [300; 100] true false None false demo = Ok (Some (STATUS_SUCCESS, s')) /\
    all_taken demo s' 1 [300; 100].
Proof.
  apply (KeWaitForMultipleObjects_all 1 0 [300; 100] false None false INFINITE demo demo_sinv sync_live
    demo_nodup (demo_limit _ eq_refl) ltac:(simpl; lia) sync_room eq_refl).
  repeat constructor; by eexists.
Defined.

(** The event is set, and still the wait does not end. *)
Lemma KeWaitForMultipleObjects_all_single_witness :
  signalled demo 1 100 /\
  waits INFINITE false demo (KeWaitForMultipleObjects 1 0 [100] true false None false demo).
Proof.
  split; [by eexists |].
  apply (KeWaitForMultipleObjects_all_single 1 0 100 false None false INFINITE demo demo_sinv);
    [by eexists | done | done | done].
Defined.

Definition mutex_calls : list (Z * Z * mutex_op) :=
  [(1, 0, OpAcquire); (1, 0, OpAcquire); (2, 0, OpAcquire); (2, 0, OpRelease); (1, 2, OpRelease);
   (2, 0, OpHeld); (1, 0, OpRelease); (2, 0, OpHeld)].

Lemma mutex_refinement_witness :
  exists s', run_mutexes 200 mutex_calls demo = Ok (Some ([0; 0; STATUS_TIMEOUT; 1; 1; 0; 0; 1], s')) /\
    updates demo s' 200 (MUTEX 0 0) (VMutex None 0).
Proof.
  apply (mutex_refinement 200 mutex_calls demo (None, 0) demo_sinv); [by split | done | done |].
  repeat constructor; unfold DISPATCH_LEVEL; simpl; lia.
Defined.

Definition semaphore_calls : list (Z * Z * semaphore_op) :=
  [(1, 0, OpDown); (2, 0, OpDown); (3, 0, OpDown); (1, 2, OpCount); (1, 0, OpUp 3); (1, 0, OpUp 1)].

Lemma semaphore_calls_level : Forall (fun x : Z * Z * semaphore_op => x.1.2 <= DISPATCH_LEVEL /\
    forall n, x.2 = OpUp n -> - 2 ^ 31 <= n < 2 ^ 31 - 3) semaphore_calls.
Proof. repeat constructor; unfold DISPATCH_LEVEL; simpl in *; try lia; congruence || (injection H; lia). Qed.

Lemma semaphore_refinement_witness :
  run_semaphores 300 semaphore_calls demo = Err (BugChecked STATUS_SEMAPHORE_LIMIT_EXCEEDED).
Proof.
  apply (semaphore_refinement 300 3 semaphore_calls demo 2 demo_sinv); [by split | done |].
  apply semaphore_calls_level.
Defined.

Lemma DdkGetWaitTime_spec_witness :
  DdkGetWaitTime 0 (Some (- (2 ^ 32 * 10000))) = Ok 0 /\
  DdkGetWaitTime 5 (Some (10000 * 2 ^ 32 + 5)) = Err (DdkFailed "Wait timeout is too large").
Proof.
  split.
  - apply (proj2 (DdkGetWaitTime_spec 0 (- (2 ^ 32 * 10000)) ltac:(lia) ltac:(lia))).
  - apply (proj2 (DdkGetWaitTime_spec 5 (10000 * 2 ^ 32 + 5) ltac:(lia) ltac:(lia))).
Defined.
