(* ===== verification/Timer.v ===== *)
(** * Timer: timers over the thread pool

    timer.cpp for one timer, as the steps of the threads that use it: one thread that
    sets and cancels it, one that reads its state, and the callbacks of the thread
    pool.  A step is one access to what the threads share.  The event of the timer is
    an object of [WIN32_SYNC]; what the thread pool does with its clock is the class
    [THREADPOOL_TIMER].  The DPCs the callbacks insert are recorded in order; what
    [KeInsertQueueDpc] does is in Dpc. *)

From S2P Require Import Prelude Dispatcher.

Class THREADPOOL_TIMER := {
  clock : Type;
  CreateThreadpoolTimer : option clock;
  (** [SetThreadpoolTimer]: the due time, [None] for [NULL], and the period *)
  SetThreadpoolTimer (due : option Z) (period : Z) (c : clock) : clock;
  (** [WaitForThreadpoolTimerCallbacks]; [None]: the call waits *)
  WaitForThreadpoolTimerCallbacks (cancel : bool) (c : clock) : option clock;
  (** the pool's own steps, [None] when they cannot happen: the clock comes due, a
      callback begins *)
  expire (c : clock) : option clock;
  begin_callback (c : clock) : option clock;
  (** a callback returns *)
  end_callback (c : clock) : clock
}.

Inductive timer_state := TimerIdle | TimerActive | TimerDone.

#[export] Instance timer_state_eq_dec : EqDecision timer_state.
Proof. solve_decision. Defined.

(** Where [KeCancelTimer] and [KeSetTimerEx] are: the statement to run next, and the
    state the exchange at their start has returned. *)
Inductive caller_pc :=
  | Ready
  | InCancel (k : nat) (rc : timer_state)
  | InSet (k : nat) (DueTime Period Dpc : Z) (rc : timer_state).

(** Where a callback is: before its test of the period, its exchange, [SetEvent], the
    insertion of the DPC. *)
Inductive callback_pc := CbPeriod | CbExchange | CbEvent | CbDpc.

#[export] Instance callback_pc_eq_dec : EqDecision callback_pc.
Proof. solve_decision. Defined.

(** Where [KeReadStateTimer] is. *)
Inductive reader_pc := NotReading | Consumed.

Section timer.
Context `{WIN32_SYNC} `{THREADPOOL_TIMER}.

Record timer := mkTimer {
  event : osobj;
  Clock : clock;
  Dpc : Z;
  DueTime : Z;
  Period : Z;
  state : timer_state;
  notify : bool;
  caller : caller_pc;
  reader : reader_pc;
  callbacks : list callback_pc;
  inserted : list Z
}.

Definition set_event f t := mkTimer (f (event t)) (Clock t) (Dpc t) (DueTime t) (Period t) (state t)
  (notify t) (caller t) (reader t) (callbacks t) (inserted t).
Definition set_clock f t := mkTimer (event t) (f (Clock t)) (Dpc t) (DueTime t) (Period t) (state t)
  (notify t) (caller t) (reader t) (callbacks t) (inserted t).
Definition set_fields dpc due period t := mkTimer (event t) (Clock t) dpc due period (state t)
  (notify t) (caller t) (reader t) (callbacks t) (inserted t).
Definition set_state v t := mkTimer (event t) (Clock t) (Dpc t) (DueTime t) (Period t) v
  (notify t) (caller t) (reader t) (callbacks t) (inserted t).
Definition set_caller pc t := mkTimer (event t) (Clock t) (Dpc t) (DueTime t) (Period t) (state t)
  (notify t) pc (reader t) (callbacks t) (inserted t).
Definition set_reader pc t := mkTimer (event t) (Clock t) (Dpc t) (DueTime t) (Period t) (state t)
  (notify t) (caller t) pc (callbacks t) (inserted t).
Definition set_callbacks f t := mkTimer (event t) (Clock t) (Dpc t) (DueTime t) (Period t) (state t)
  (notify t) (caller t) (reader t) (f (callbacks t)) (inserted t).
Definition insert_dpc d t := mkTimer (event t) (Clock t) (Dpc t) (DueTime t) (Period t) (state t)
  (notify t) (caller t) (reader t) (callbacks t) (inserted t ++ [d]).

(** [created]: [CreateEvent] gives a handle. *)
Definition KeInitializeTimerEx (created : bool) (irql : Z) (Notification : bool) : result timer :=
  _ ← ddkassert (irql <=? DISPATCH_LEVEL) "KeGetCurrentIrql() <= DISPATCH_LEVEL";
  match created, CreateThreadpoolTimer with
  | true, Some c =>
      Ok (mkTimer (new_event Notification false) c 0 0 0 TimerIdle Notification Ready NotReading [] [])
  | _, _ => Err (DdkFailed "Unable to initialize Timer")
  end.

Definition KeInitializeTimer (created : bool) (irql : Z) : result timer :=
  KeInitializeTimerEx created irql true.

(** What a step shows: [Fired], a callback has won the exchange, or the period is not
    0; [Set_], [KeSetTimerEx] has started the clock; the value a call returns; what is
    done to the event, by a callback ([Signals]), by [KeSetTimerEx] ([Resets]) and by
    the wait and the [SetEvent] of [KeReadStateTimer] ([Takes], [Restores]). *)
Inductive shown :=
  | Fired
  | Set_ (Dpc : Z)
  | Returns (b : bool)
  | Reads (b : bool)
  | Signals
  | Resets
  | Takes (thread : Z)
  | Restores.

(** [KeCancelTimer] up to its exchange. *)
Definition start_cancel (t : timer) : option (list shown * timer) :=
  match caller t with
  | Ready => Some ([], set_caller (InCancel 0 (state t)) (set_state TimerIdle t))
  | _ => None
  end.

(** [KeSetTimerEx] up to its exchange. *)
Definition start_set (DueTime Period Dpc : Z) (t : timer) : option (list shown * timer) :=
  match caller t with
  | Ready => Some ([], set_caller (InSet 0 DueTime Period Dpc (state t)) (set_state TimerIdle t))
  | _ => None
  end.

Definition is_active (v : timer_state) : bool := bool_decide (v = TimerActive).

(** The rest of both calls, a statement at a time. *)
Definition advance (t : timer) : option (list shown * timer) :=
  match caller t with
  | Ready => None
  | InCancel O rc => Some ([], set_caller (InCancel 1 rc) (set_clock (SetThreadpoolTimer None 0) t))
  | InCancel 1 rc =>
      c ← WaitForThreadpoolTimerCallbacks true (Clock t);
      Some ([], set_caller (InCancel 2 rc) (set_clock (fun _ => c) t))
  | InCancel _ rc => Some ([Returns (is_active rc)], set_caller Ready t)
  | InSet O d p q rc => Some ([], set_caller (InSet 1 d p q rc) (set_clock (SetThreadpoolTimer None 0) t))
  | InSet 1 d p q rc =>
      c ← WaitForThreadpoolTimerCallbacks true (Clock t);
      Some ([], set_caller (InSet 2 d p q rc) (set_clock (fun _ => c) t))
  | InSet 2 d p q rc => Some ([], set_caller (InSet 3 d p q rc) (set_fields q (DueTime t) (Period t) t))
  | InSet 3 d p q rc => Some ([], set_caller (InSet 4 d p q rc) (set_fields (Dpc t) (DueTime t) p t))
  | InSet 4 d p q rc => Some ([], set_caller (InSet 5 d p q rc) (set_fields (Dpc t) d (Period t) t))
  | InSet 5 d p q rc => Some ([], set_caller (InSet 6 d p q rc) (set_state TimerActive t))
  | InSet 6 d p q rc => Some ([Resets], set_caller (InSet 7 d p q rc) (set_event ResetEvent t))
  | InSet 7 d p q rc =>
      Some ([Set_ q], set_caller (InSet 8 d p q rc) (set_clock (SetThreadpoolTimer (Some (DueTime t)) p) t))
  | InSet _ _ _ _ rc => Some ([Returns (is_active rc)], set_caller Ready t)
  end.

(** A step of callback [i] of [DdkTimerCallback]. *)
Definition callback_step (i : nat) (t : timer) : option (list shown * timer) :=
  pc ← callbacks t !! i;
  let goto pc t := set_callbacks <[i := pc]> t in
  let return_ t := set_clock end_callback (set_callbacks (fun l => take i l ++ drop (S i) l) t) in
  match pc with
  | CbPeriod => Some (if Period t =? 0 then ([], goto CbExchange t) else ([Fired], goto CbEvent t))
  | CbExchange =>
      Some (if is_active (state t) then ([Fired], goto CbEvent (set_state TimerDone t)) else ([], return_ t))
  | CbEvent => Some ([Signals], goto CbDpc (set_event SetEvent t))
  | CbDpc => Some ([], return_ (if Dpc t =? 0 then t else insert_dpc (Dpc t) t))
  end.

(** [KeReadStateTimer] by thread [u]: the wait, and then [SetEvent]. *)
Definition read_step (u : Z) (t : timer) : option (list shown * timer) :=
  match reader t with
  | NotReading =>
      match poll u (event t) with
      | None => Some ([Reads false], t)
      | Some e =>
          if notify t then Some ([Takes u; Reads true], set_event (fun _ => e) t)
          else Some ([Takes u], set_reader Consumed (set_event (fun _ => e) t))
      end
  | Consumed => Some ([Restores; Reads true], set_reader NotReading (set_event SetEvent t))
  end.

Inductive label :=
  | Cancel
  | Set_timer (irql DueTime Period Dpc : Z)
  | Call
  | Expire
  | Begin
  | Callback (i : nat)
  | Read (irql thread : Z).

Definition KeSetTimer (irql DueTime Dpc : Z) : label := Set_timer irql DueTime 0 Dpc.

Definition step (l : label) (t : timer) : result (option (list shown * timer)) :=
  match l with
  | Cancel => Ok (start_cancel t)
  | Set_timer irql d p q =>
      _ ← ddkassert (p <=? 2 ^ 31 - 1) "Period <= MAXLONG";
      _ ← ddkassert (irql <=? DISPATCH_LEVEL) "KeGetCurrentIrql() <= DISPATCH_LEVEL";
      Ok (start_set d p q t)
  | Call => Ok (advance t)
  | Expire => Ok (c ← expire (Clock t); Some ([], set_clock (fun _ => c) t))
  | Begin =>
      Ok (c ← begin_callback (Clock t);
          Some ([], set_callbacks (fun l => l ++ [CbPeriod]) (set_clock (fun _ => c) t)))
  | Callback i => Ok (callback_step i t)
  | Read irql u =>
      _ ← match reader t with
          | NotReading => ddkassert (irql <=? DISPATCH_LEVEL) "KeGetCurrentIrql() <= DISPATCH_LEVEL"
          | Consumed => Ok tt
          end;
      Ok (read_step u t)
  end.

Fixpoint steps (ls : list label) (t : timer) : result (option (list shown * timer)) :=
  match ls with
  | [] => Ok (Some ([], t))
  | l :: ls =>
      r ← step l t;
      match r with
      | None => Ok None
      | Some (e, t') =>
          r ← steps ls t';
          match r with
          | None => Ok None
          | Some (es, t'') => Ok (Some (e ++ es, t''))
          end
      end
  end.
End timer.
