(* ===== verification/TimerSpec.v ===== *)
(** * TimerSpec: what a timer promises when its threads interleave *)

From S2P Require Import Prelude Dispatcher DispatcherSpec Timer.

(** ** The thread pool's promise *)

Record pool := mkPool { armed : option Z; queued : nat; running : nat }.

Class PoolLaws `{THREADPOOL_TIMER} := {
  pool_of : clock -> pool;
  pool_new c : CreateThreadpoolTimer = Some c -> pool_of c = mkPool None 0 0;
  pool_set due p c : pool_of (SetThreadpoolTimer due p c) =
    mkPool ((fun _ => p) <$> due) (queued (pool_of c)) (running (pool_of c));
  (** it returns once no callback runs, and forgets the ones that have not begun *)
  pool_wait c : match WaitForThreadpoolTimerCallbacks true c with
    | Some c' => running (pool_of c) = 0%nat /\ pool_of c' = mkPool (armed (pool_of c)) 0 0
    | None => running (pool_of c) <> 0%nat
    end;
  pool_expire c c' : expire c = Some c' -> exists p, armed (pool_of c) = Some p /\
    pool_of c' = mkPool (if p =? 0 then None else Some p) (S (queued (pool_of c))) (running (pool_of c));
  pool_begin c c' : begin_callback c = Some c' -> exists n, queued (pool_of c) = S n /\
    pool_of c' = mkPool (armed (pool_of c)) n (S (running (pool_of c)));
  pool_end c n : running (pool_of c) = S n ->
    pool_of (end_callback c) = mkPool (armed (pool_of c)) (queued (pool_of c)) n
}.

(** The laws can be met. *)
Definition model_pool : THREADPOOL_TIMER := {|
  clock := pool;
  CreateThreadpoolTimer := Some (mkPool None 0 0);
  SetThreadpoolTimer due p c := mkPool ((fun _ => p) <$> due) (queued c) (running c);
  WaitForThreadpoolTimerCallbacks cancel c :=
    if (running c =? 0)%nat then Some (mkPool (armed c) (if cancel then 0 else queued c) 0) else None;
  expire c := (fun p => mkPool (if p =? 0 then None else Some p) (S (queued c)) (running c)) <$> armed c;
  begin_callback c := match queued c with S n => Some (mkPool (armed c) n (S (running c))) | O => None end;
  end_callback c := mkPool (armed c) (queued c) (pred (running c))
|}.

Definition model_pool_laws : @PoolLaws model_pool.
Proof.
  refine {| pool_of := (fun c => c) : @clock model_pool -> pool |}.
  - by intros c [= <-].
  - done.
  - intros [a q [| r]]; simpl; done.
  - intros [[p |] q r] c'; simpl; [intros [= <-]; by exists p | done].
  - intros [a [| q] r] c'; simpl; [done | intros [= <-]; by exists q].
  - intros [a q r] n. simpl. by intros ->.
Defined.

Section spec.
Context `{SyncLaws} `{PoolLaws}.

(** ** The invariant *)

(** The clock is off and no callback is left. *)
Definition quiet (t : timer) : Prop := pool_of (Clock t) = mkPool None 0 0 /\ callbacks t = [].

(** From its wait to the statement that starts the clock a call has the timer to
    itself. *)
Definition phase_ok (t : timer) : Prop :=
  match caller t with
  | InCancel 1 _ | InSet 1 _ _ _ _ => armed (pool_of (Clock t)) = None
  | InCancel (S (S _)) _ => quiet t
  | InSet (S (S k)) _ _ _ _ => (k <= 5)%nat -> quiet t
  | _ => True
  end.

Record tinv (t : timer) : Prop := {
  t_running : running (pool_of (Clock t)) = length (callbacks t);
  t_phase : phase_ok t
}.

Lemma tinv_init created irql n t : KeInitializeTimerEx created irql n = Ok t -> tinv t.
Proof.
  unfold KeInitializeTimerEx, ddkassert. destruct (_ <=? _); simpl; [| done].
  destruct created; simpl; [| done]. destruct CreateThreadpoolTimer as [c |] eqn:E; [| done].
  intros [= <-]. split; [| done]. simpl. by rewrite (pool_new c E).
Qed.

(** A step of the clock or of a callback in a quiet timer is not possible. *)
Lemma quiet_still t : quiet t ->
  expire (Clock t) = None /\ begin_callback (Clock t) = None /\ (forall i, callbacks t !! i = None).
Proof.
  intros [Hp Hc]. split; [| split].
  - destruct (expire (Clock t)) as [c |] eqn:E; [| done]. apply pool_expire in E as (p & E & _). by rewrite Hp in E.
  - destruct (begin_callback (Clock t)) as [c |] eqn:E; [| done]. apply pool_begin in E as (n & E & _).
    by rewrite Hp in E.
  - intros i. by rewrite Hc.
Qed.

(** The phase of a timer that is not quiet, after a step of its pool. *)
Lemma phase_loud t t' : phase_ok t -> ~ quiet t -> caller t' = caller t ->
  (armed (pool_of (Clock t)) = None -> armed (pool_of (Clock t')) = None) -> phase_ok t'.
Proof.
  unfold phase_ok. intros Hp Hq -> Ha.
  destruct (caller t) as [| [| [| k]] rc | [| [| k]] d p q rc]; auto; try done.
  intros Hk. by destruct Hq; apply Hp.
Qed.

(** The steps of a call. *)
Lemma advance_inv t es t' : tinv t -> advance t = Some (es, t') -> tinv t'.
Proof.
  intros [Hr Hp]. unfold advance, phase_ok in *.
  destruct (caller t) as [| [| [| [| k]]] rc | [| [| [| [| [| [| [| [| k]]]]]]]] d p q rc] eqn:Ec; try done;
    try (pose proof (pool_wait (Clock t)) as Hw;
      destruct (WaitForThreadpoolTimerCallbacks true (Clock t)) as [c |]; simpl; [destruct Hw as [Hw0 Hw] | done]);
    intros [= <- <-]; split; unfold phase_ok, quiet in *; simpl; rewrite ?pool_set, ?Hw; simpl; try done.
  all: try (intros; rewrite ?Hp; first [done | apply Hp; lia | lia]).
  all: try congruence.
  all: try (intros _); (split; [congruence | apply nil_length_inv; congruence]).
Qed.

Lemma timer_start_inv t es t' : tinv t ->
  start_cancel t = Some (es, t') \/ (exists d p q, start_set d p q t = Some (es, t')) -> tinv t'.
Proof.
  intros [Hr Hp] [Hs | (d & p & q & Hs)]; unfold start_cancel, start_set in Hs;
    destruct (caller t) eqn:Ec; try done; injection Hs as <- <-; split; exact Hr || exact Logic.I.
Qed.

Lemma callback_inv i t es t' : tinv t -> callback_step i t = Some (es, t') ->
  tinv t' /\ caller t' = caller t /\ ~ quiet t.
Proof.
  intros [Hr Hp]. unfold callback_step. destruct (callbacks t !! i) as [pc |] eqn:Ei; [| done]. simpl.
  assert (~ quiet t) as Hq by (intros [_ E]; by rewrite E in Ei).
  assert (i < length (callbacks t))%nat as Hi by by eapply lookup_lt_Some.
  assert (exists n, running (pool_of (Clock t)) = S n) as (n & En) by (exists (pred (length (callbacks t))); lia).
  assert (forall l : list callback_pc, length l = length (callbacks t) ->
    length (take i l ++ drop (S i) l) = n) as Hlen
    by (intros l E; rewrite length_app, length_take, length_drop; lia).
  destruct pc; [destruct (Period t =? 0) | destruct (is_active (state t)) | | destruct (Dpc t =? 0)];
    intros [= <- <-]; (split; [split | by split]); simpl;
    rewrite ?length_insert, ?(pool_end _ n En); simpl; try done; try (by rewrite Hlen);
    apply (phase_loud t); simpl; rewrite ?(pool_end _ n En); done.
Qed.

Lemma read_inv u t es t' : tinv t -> read_step u t = Some (es, t') ->
  tinv t' /\ caller t' = caller t /\ state t' = state t /\ Period t' = Period t.
Proof.
  intros [Hr Hp]. unfold read_step. destruct (reader t).
  - destruct (poll u (event t)); [destruct (notify t) |]; intros [= <- <-]; by repeat split.
  - intros [= <- <-]. by repeat split.
Qed.

Lemma expire_loud t c : expire (Clock t) = Some c -> ~ quiet t.
Proof. intros E Q. destruct (quiet_still t Q) as (E' & _). congruence. Qed.

Lemma begin_loud t c : begin_callback (Clock t) = Some c -> ~ quiet t.
Proof. intros E Q. destruct (quiet_still t Q) as (_ & E' & _). congruence. Qed.

Lemma timer_step_inv l t es t' : tinv t -> step l t = Ok (Some (es, t')) -> tinv t'.
Proof.
  intros I. pose proof I as [Hr Hp]. destruct l as [| irql d p q | | | | i | irql u]; simpl; unfold ddkassert.
  - intros [= E]. apply (timer_start_inv t es t' I). by left.
  - destruct (p <=? _); simpl; [| done]. destruct (irql <=? _); simpl; [| done]. intros [= E].
    apply (timer_start_inv t es t' I). right. by exists d, p, q.
  - intros [= E]. by apply (advance_inv t es).
  - destruct (expire (Clock t)) as [c |] eqn:E; [| done]. intros [= <- <-]. pose proof (expire_loud t c E) as Hq.
    apply pool_expire in E as (p & Ea & Ec). split; [simpl; by rewrite Ec |].
    apply (phase_loud t); simpl; [done.. |]. by rewrite Ea.
  - destruct (begin_callback (Clock t)) as [c |] eqn:E; [| done]. intros [= <- <-].
    pose proof (begin_loud t c E) as Hq. apply pool_begin in E as (n & Ea & Ec). split; simpl.
    + rewrite Ec, length_app. simpl. lia.
    + apply (phase_loud t); simpl; [done.. |]. by rewrite Ec.
  - intros [= E]. by apply (callback_inv i t es).
  - destruct (reader t) eqn:Er; simpl; [destruct (irql <=? _); simpl; [| done] |]; intros [= E]; by apply (read_inv u t es).
Qed.

Lemma steps_cons l ls t es t' : steps (l :: ls) t = Ok (Some (es, t')) ->
  exists e es' t1, step l t = Ok (Some (e, t1)) /\ steps ls t1 = Ok (Some (es', t')) /\ es = e ++ es'.
Proof.
  cbn [steps]. destruct (step l t) as [[[e t1] |] |]; simpl; try done.
  destruct (steps ls t1) as [[[es' t2] |] |] eqn:E; simpl; try done. intros [= <- <-]. by exists e, es', t1.
Qed.

Lemma steps_inv ls : forall t es t', tinv t -> steps ls t = Ok (Some (es, t')) -> tinv t'.
Proof.
  induction ls as [| l ls IH]; intros t es t' I; [by intros [= <- <-] |].
  intros (e & es' & t1 & R1 & R2 & ->)%steps_cons. apply (IH t1 es'); [by apply (timer_step_inv l t e) | done].
Qed.

(** ** Cancellation *)

(** Steps of the thread pool, of further [KeCancelTimer] calls, and of callbacks. *)
Definition no_set (l : label) : Prop := match l with Set_timer _ _ _ _ | Read _ _ => False | _ => True end.

Definition cancelling (t : timer) : Prop := match caller t with InSet _ _ _ _ _ => False | _ => True end.

Lemma quiet_step l t es t' : quiet t -> cancelling t -> no_set l -> step l t = Ok (Some (es, t')) ->
  quiet t' /\ cancelling t' /\ event t' = event t /\ inserted t' = inserted t.
Proof.
  intros Q C N. destruct (quiet_still t Q) as (Ee & Eb & Ec). destruct Q as [Qp Qc].
  destruct l as [| | | | | i |]; simpl in *; try done.
  - unfold start_cancel. destruct (caller t); try done. by intros [= <- <-].
  - unfold advance, cancelling in *. destruct (caller t) as [| [| [| k]] rc |] eqn:Ec'; try done.
    + intros [= <- <-]. repeat split; simpl; [| done]. by rewrite pool_set, Qp.
    + pose proof (pool_wait (Clock t)) as Hw.
      destruct (WaitForThreadpoolTimerCallbacks true (Clock t)) as [c |]; simpl; [| done]. intros [= <- <-].
      destruct Hw as [_ Hw]. repeat split; simpl; [| done]. by rewrite Hw, Qp.
    + intros [= <- <-]. by repeat split.
  - by rewrite Ee.
  - by rewrite Eb.
  - unfold callback_step. by rewrite Ec.
Qed.

Lemma quiet_steps ls : forall t es t', quiet t -> cancelling t -> Forall no_set ls ->
  steps ls t = Ok (Some (es, t')) -> event t' = event t /\ inserted t' = inserted t.
Proof.
  induction ls as [| l ls IH]; intros t es t' Q C N; [by intros [= <- <-] |].
  intros (e & es' & t1 & R1 & R2 & ->)%steps_cons. apply Forall_cons in N as [Nl N].
  destruct (quiet_step l t e t1 Q C Nl R1) as (Q1 & C1 & <- & <-). by apply (IH t1 es').
Qed.

(** C27. When [KeCancelTimer] returns, the timer is over: in no interleaving of the thread
    pool, of callbacks it had begun or queued, and of further cancellations does the
    timer set its event or insert its DPC, until [KeSetTimerEx] is called again. *)
Theorem KeCancelTimer_quiet created irql n t0 before t rc after es es' t' :
  KeInitializeTimerEx created irql n = Ok t0 ->
  steps before t0 = Ok (Some (es, t)) -> caller t = InCancel 2 rc ->
  Forall no_set after -> steps after t = Ok (Some (es', t')) ->
  event t' = event t /\ inserted t' = inserted t.
Proof.
  intros Hi Hb Hc Hn Ha. pose proof (steps_inv before t0 es t (tinv_init _ _ _ _ Hi) Hb) as [_ Hp].
  unfold phase_ok in Hp. rewrite Hc in Hp.
  apply (quiet_steps after t es'); [done | unfold cancelling; by rewrite Hc | done | done].
Qed.

(** ** A timer that is not periodic expires once, or is cancelled *)

Definition count (f : shown -> bool) (es : list shown) : nat := length (filter (fun e => f e = true) es).
Definition is_fired e := match e with Fired => true | _ => false end.
Definition is_set e := match e with Set_ _ => true | _ => false end.
Definition is_true e := match e with Returns b => b | _ => false end.

Definition b2n (b : bool) : nat := if b then 1 else 0.

(** Settings of the timer that have neither expired nor been taken back by a call that
    has returned. *)
Definition outstanding (t : timer) : nat :=
  match caller t with
  | Ready => b2n (is_active (state t))
  | InCancel _ rc => b2n (is_active (state t)) + b2n (is_active rc)
  | InSet k _ _ _ rc => (if (6 <=? k)%nat && (k <=? 7)%nat then 0 else b2n (is_active (state t))) + b2n (is_active rc)
  end.

Definition once (l : label) : Prop := match l with Set_timer _ _ p _ => p = 0 | _ => True end.

Record oneshot (t : timer) : Prop := {
  o_inv : tinv t;
  o_period : Period t = 0;
  o_call : match caller t with
    | Ready => True
    | InCancel _ _ => is_active (state t) = false
    | InSet k _ p _ _ => p = 0 /\ ((k <= 5)%nat -> is_active (state t) = false) /\
        ((6 <= k <= 7)%nat -> is_active (state t) = true) /\ (k <= 8)%nat
    end
}.

Lemma count_app f es es' : count f (es ++ es') = (count f es + count f es')%nat.
Proof. unfold count. by rewrite filter_app, length_app. Qed.

Definition balanced (t : timer) (es : list shown) (t' : timer) : Prop :=
  (count is_set es + outstanding t = count is_fired es + count is_true es + outstanding t')%nat.

Lemma active_or v : is_active v = true \/ is_active v = false.
Proof. destruct (is_active v); auto. Qed.

Lemma start_once t es t' : oneshot t ->
  start_cancel t = Some (es, t') \/ (exists d q, start_set d 0 q t = Some (es, t')) ->
  oneshot t' /\ balanced t es t'.
Proof.
  intros [I Hp Hc] Hs. assert (tinv t') as I' by (apply (timer_start_inv t es t' I); destruct Hs as [? | (d & q & ?)];
    [by left | right; by exists d, 0, q]).
  unfold start_cancel, start_set in Hs. destruct (caller t) eqn:Ec;
    [| by destruct Hs as [| (? & ? & ?)] | by destruct Hs as [| (? & ? & ?)]].
  destruct Hs as [[= <- <-] | (d & q & [= <- <-])].
  - split; [by split |]. unfold balanced, outstanding. simpl. by rewrite Ec.
  - split; [split; [done.. |]; simpl; repeat split; try done; lia |].
    unfold balanced, outstanding. simpl. rewrite Ec. unfold count. simpl. lia.
Qed.

Lemma advance_once t es t' : oneshot t -> advance t = Some (es, t') -> oneshot t' /\ balanced t es t'.
Proof.
  intros [I Hp Hc] Ha. pose proof (advance_inv t es t' I Ha) as I'. revert Ha.
  unfold advance. destruct (caller t) as [| [| [| k]] rc | k d p q rc] eqn:Ec; try done;
    try (destruct (WaitForThreadpoolTimerCallbacks true (Clock t)) as [c |]; simpl; [| done]).
  1-3: intros [= <- <-]; (split; [by split |]); unfold balanced, outstanding, count; simpl; rewrite Ec, ?Hc;
    by destruct (is_active rc).
  destruct Hc as (-> & Hlow & Hhigh & Hk). destruct k as [| [| [| [| [| [| [| [| [| k]]]]]]]]]; [.. | lia];
    try (destruct (WaitForThreadpoolTimerCallbacks true (Clock t)) as [c |]; simpl; [| done]);
    intros [= <- <-];
    (split; [split; [exact I' | exact Hp || reflexivity | simpl; first [exact Logic.I
      | repeat split; intros; first [lia | apply Hlow; lia | apply Hhigh; lia | reflexivity]]] |]);
    unfold balanced, outstanding, count; simpl; rewrite Ec; simpl; rewrite ?Hlow, ?Hhigh by lia; simpl;
    by destruct (is_active rc), (is_active (state t)).
Qed.

(** A step of the pool's own while a call has the timer to itself is not possible. *)
Lemma loud_phase t : phase_ok t -> ~ quiet t ->
  match caller t with InCancel (S (S _)) _ => False | InSet k _ _ _ _ => (2 <= k <= 7)%nat -> False | _ => True end.
Proof.
  unfold phase_ok. destruct (caller t) as [| [| [| k]] rc | [| [| k]] d p q rc]; try done; try lia.
  intros Hp Hq Hk. apply Hq, Hp. lia.
Qed.

Lemma callback_once i t es t' : oneshot t -> callback_step i t = Some (es, t') ->
  oneshot t' /\ balanced t es t'.
Proof.
  intros [I Hp Hc] Hs. destruct (callback_inv i t es t' I Hs) as (I' & Ec & Hq).
  pose proof (loud_phase t (t_phase t I) Hq) as Hl. revert Hs. unfold callback_step.
  destruct (callbacks t !! i) as [pc |]; simpl; [| done]. rewrite Hp. simpl.
  destruct pc; [| destruct (is_active (state t)) eqn:Ea | | destruct (Dpc t =? 0)]; intros [= <- <-];
    (split; [split; [done | done |] |]); unfold balanced, outstanding, count in *; simpl in *;
    destruct (caller t) as [| k rc | k d p q rc]; rewrite ?Ea in *; simpl; try done.
  all: destruct Hc as (-> & Hlow & _ & Hk).
  all: assert (k = 8)%nat as -> by (assert (~ (k <= 5)%nat) by (intros Hle; by specialize (Hlow Hle));
    assert (~ (2 <= k <= 7)%nat) by done; lia).
  - repeat split; intros; lia.
  - done.
Qed.

Lemma same_once t t' : oneshot t -> tinv t' -> caller t' = caller t -> state t' = state t ->
  Period t' = Period t -> oneshot t' /\ outstanding t' = outstanding t.
Proof.
  intros [I Hp Hc] I' E1 E2 E3. split; [split; [done | congruence | by rewrite E1, E2] |].
  unfold outstanding. by rewrite E1, E2.
Qed.

Lemma read_shown u t es t' : read_step u t = Some (es, t') ->
  count is_set es = 0%nat /\ count is_fired es = 0%nat /\ count is_true es = 0%nat.
Proof.
  unfold read_step. destruct (reader t); [destruct (poll u (event t)); [destruct (notify t) |] |];
    by intros [= <- <-].
Qed.

Lemma step_once l t es t' : oneshot t -> once l -> step l t = Ok (Some (es, t')) ->
  oneshot t' /\ balanced t es t'.
Proof.
  intros O N R. pose proof (timer_step_inv l t es t' (o_inv t O) R) as I'. revert R.
  destruct l as [| irql d p q | | | | i | irql u]; simpl in *; unfold ddkassert.
  - intros [= E]. apply start_once; [done | by left].
  - subst p. destruct (0 <=? _); simpl; [| done]. destruct (irql <=? _); simpl; [| done]. intros [= E].
    apply start_once; [done | right; by exists d, q].
  - intros [= E]. by apply advance_once.
  - destruct (expire (Clock t)); [| done]. intros [= <- <-].
    destruct (same_once t _ O I') as [O' E]; [done.. |]. split; [done |]. unfold balanced. by rewrite E.
  - destruct (begin_callback (Clock t)); [| done]. intros [= <- <-].
    destruct (same_once t _ O I') as [O' E]; [done.. |]. split; [done |]. unfold balanced. by rewrite E.
  - intros [= E]. by apply (callback_once i).
  - destruct (reader t) eqn:Er; simpl; [destruct (irql <=? _); simpl; [| done] |]; intros [= E];
      destruct (read_inv u t es t' (o_inv t O) E) as (_ & E1 & E2 & E3);
      destruct (same_once t t' O I' E1 E2 E3) as [O' E']; (split; [done |]);
      destruct (read_shown u t es t' E) as (N1 & N2 & N3); unfold balanced; rewrite E', N1, N2, N3; done.
Qed.

Lemma steps_once ls : forall t es t', oneshot t -> Forall once ls -> steps ls t = Ok (Some (es, t')) ->
  balanced t es t'.
Proof.
  induction ls as [| l ls IH]; intros t es t' O N; [by intros [= <- <-] |].
  intros (e & es' & t1 & R1 & R2 & ->)%steps_cons. apply Forall_cons in N as [Nl N].
  destruct (step_once l t e t1 O Nl R1) as [O1 B1]. specialize (IH t1 es' t' O1 N R2).
  unfold balanced in *. rewrite !count_app. lia.
Qed.

(** *** What an expiry does *)

Lemma at_index {A} i (l : list A) x : l !! i = Some x -> exists l1 l2, l = l1 ++ x :: l2 /\
  (forall y, <[i:=y]> l = l1 ++ y :: l2) /\ take i l ++ drop (S i) l = l1 ++ l2.
Proof.
  intros E. exists (take i l), (drop (S i) l). split; [by rewrite take_drop_middle | split; [| done]].
  intros y. rewrite insert_take_drop; [done | by apply lookup_lt_is_Some; exists x].
Qed.

Definition is_signal e := match e with Signals => true | _ => false end.

(** Callbacks that have won the exchange and have not yet set the event; and those that
    have not yet inserted the DPC. *)
Definition at_event (l : list callback_pc) : nat := length (filter (fun pc => pc = CbEvent) l).
Definition expired (l : list callback_pc) : list callback_pc := filter (fun pc => pc = CbEvent \/ pc = CbDpc) l.

Definition dpc_of (d : Z) : list Z := if d =? 0 then [] else [d].
Definition dpcs_left (t : timer) : list Z := expired (callbacks t) ≫= fun _ => dpc_of (Dpc t).

(** The event after what [es] shows. *)
Definition play (e : osobj) (s : shown) : osobj :=
  match s with
  | Signals | Restores => SetEvent e
  | Resets => ResetEvent e
  | Takes u => default e (poll u e)
  | _ => e
  end.

(** The DPC of the last setting of the timer that [es] shows; the DPCs of the settings
    that have expired, in order. *)
Definition last_dpc (d : Z) (es : list shown) : Z :=
  fold_left (fun d s => match s with Set_ q => q | _ => d end) es d.

Fixpoint due_dpcs (d : Z) (es : list shown) : list Z :=
  match es with
  | [] => []
  | Set_ q :: es => due_dpcs q es
  | Fired :: es => dpc_of d ++ due_dpcs d es
  | _ :: es => due_dpcs d es
  end.

Lemma due_dpcs_app es es' : forall d, due_dpcs d (es ++ es') = due_dpcs d es ++ due_dpcs (last_dpc d es) es'.
Proof. induction es as [| [] es IH]; intros d'; simpl; rewrite ?IH, ?app_assoc; done. Qed.

Record firing (d : Z) (t : timer) : Prop := {
  f_once : oneshot t;
  f_dpc : match caller t with
    | InSet k _ _ q _ => Dpc t = if (3 <=? k)%nat && (k <=? 7)%nat then q else d
    | _ => Dpc t = d
    end;
  f_one : (length (expired (callbacks t)) + b2n (is_active (state t)) <= 1)%nat
}.

Definition effects (d : Z) (t : timer) (es : list shown) (t' : timer) : Prop :=
  event t' = fold_left play es (event t) /\
  (count is_fired es + at_event (callbacks t) = count is_signal es + at_event (callbacks t'))%nat /\
  inserted t ++ dpcs_left t ++ due_dpcs d es = inserted t' ++ dpcs_left t'.

Lemma same_effects d t es t' : oneshot t' -> firing d t ->
  (caller t', state t', callbacks t', Dpc t', inserted t') = (caller t, state t, callbacks t, Dpc t, inserted t) ->
  event t' = fold_left play es (event t) ->
  Forall (fun s => match s with Fired | Set_ _ | Signals => False | _ => True end) es ->
  firing (last_dpc d es) t' /\ effects d t es t'.
Proof.
  intros O [_ Hd Hn] [= E1 E2 E3 E4 E5] Ee Hs.
  assert (last_dpc d es = d /\ due_dpcs d es = [] /\ count is_fired es = 0%nat /\ count is_signal es = 0%nat)
    as (-> & Hdue & Hf & Hg).
  { clear -Hs. unfold last_dpc, count. induction Hs as [| s es Hs _ IH]; [done |]. destruct s; simpl; done. }
  split; [split; rewrite ?E1, ?E2, ?E3, ?E4; done |]. unfold effects, dpcs_left.
  rewrite Hdue, Hf, Hg, E3, E4, E5, app_nil_r. done.
Qed.
Lemma start_effects d t es t' : firing d t ->
  start_cancel t = Some (es, t') \/ (exists d q, start_set d 0 q t = Some (es, t')) ->
  firing (last_dpc d es) t' /\ effects d t es t'.
Proof.
  intros F Hs. destruct (start_once t es t' (f_once d t F) Hs) as [O _]. destruct F as [_ Hd Hn].
  unfold start_cancel, start_set in Hs. destruct (caller t) eqn:Ec;
    [| by destruct Hs as [| (? & ? & ?)] | by destruct Hs as [| (? & ? & ?)]].
  destruct Hs as [[= <- <-] | (d' & q & [= <- <-])];
    (split; [split; simpl; [done | done | lia] | unfold effects; simpl; by rewrite app_nil_r]).
Qed.

Lemma advance_effects d t es t' : firing d t -> advance t = Some (es, t') ->
  firing (last_dpc d es) t' /\ effects d t es t'.
Proof.
  intros F Ha. pose proof (f_once d t F) as O. destruct (advance_once t es t' O Ha) as [O' _].
  pose proof (t_phase t (o_inv t O)) as Hq. destruct F as [_ Hd Hn].
  revert Ha. unfold advance, phase_ok in *.
  destruct (caller t) as [| [| [| k]] rc | k dd p q rc] eqn:Ec; try done;
    try (destruct (WaitForThreadpoolTimerCallbacks true (Clock t)) as [c |]; simpl; [| done]).
  1-3: intros [= <- <-]; split; [by split | unfold effects; simpl; by rewrite app_nil_r].
  pose proof (o_call t O) as Hc. rewrite Ec in Hc. destruct Hc as (-> & _ & _ & Hk).
  destruct k as [| [| [| [| [| [| [| [| [| k]]]]]]]]]; [.. | lia];
    try (destruct (WaitForThreadpoolTimerCallbacks true (Clock t)) as [c |]; simpl; [| done]);
    try (destruct Hq as [_ Hq]; [lia |]);
    intros [= <- <-]; (split; [split; simpl; rewrite ?Hq; try done; try lia; by rewrite Hq in Hn |]);
    unfold effects, dpcs_left; simpl; rewrite ?Hq; simpl; by rewrite ?app_nil_r.
Qed.

Lemma callback_effects i d t es t' : firing d t -> callback_step i t = Some (es, t') ->
  firing (last_dpc d es) t' /\ effects d t es t'.
Proof.
  intros F Hs. pose proof (f_once d t F) as O. destruct (callback_once i t es t' O Hs) as [O' _].
  destruct (callback_inv i t es t' (o_inv t O) Hs) as (_ & Ec & Hq).
  pose proof (loud_phase t (t_phase t (o_inv t O)) Hq) as Hl. destruct F as [_ Hd Hn].
  assert (match caller t with InSet k _ _ q _ => Dpc t = d | _ => True end) as Hd'.
  { destruct (caller t); try done. destruct ((3 <=? k)%nat && (k <=? 7)%nat) eqn:E; [exfalso; apply Hl | done].
    apply andb_true_iff in E as [?%Nat.leb_le ?%Nat.leb_le]. lia. }
  assert (Dpc t = d) as Ed by by destruct (caller t).
  revert Hs O'. unfold callback_step. destruct (callbacks t !! i) as [pc |] eqn:Ei; simpl; [| done].
  rewrite (o_period t O). simpl. destruct (at_index i (callbacks t) pc Ei) as (l1 & l2 & El & Ex & Er).
  intros Hs O'. assert (callbacks t' = match pc with CbPeriod => l1 ++ CbExchange :: l2
    | CbExchange => if is_active (state t) then l1 ++ CbEvent :: l2 else l1 ++ l2
    | CbEvent => l1 ++ CbDpc :: l2 | CbDpc => l1 ++ l2 end) as Ec'.
  { destruct pc; [| destruct (is_active (state t)) | | destruct (Dpc t =? 0)]; injection Hs as <- <-; simpl;
      by rewrite ?Ex, ?Er. }
  rewrite El in Hn. revert Hn.
  destruct pc; [| destruct (is_active (state t)) eqn:Ea | | destruct (Dpc t =? 0) eqn:Ez]; injection Hs as <- <-;
    intros Hn; (split; [split; [done | done |] |]); unfold effects, dpcs_left, at_event; rewrite ?El, Ec';
    unfold expired, count, dpc_of in *; simpl; rewrite ?Ea, ?Ez;
    rewrite !filter_app, !filter_cons, ?length_app, ?bind_app in *; simpl in *; try lia.
  all: revert Hn; generalize (filter (λ pc, pc = CbEvent ∨ pc = CbDpc) l1) (filter (λ pc, pc = CbEvent ∨ pc = CbDpc) l2).
  all: intros m1 m2 Hn; repeat split; try lia; rewrite ?app_nil_r; try done.
  all: destruct m1, m2; simpl in *; first [lia | by rewrite ?app_nil_r, ?Ed, <- ?app_assoc].
Qed.

Lemma same_rest d t es t' : oneshot t' -> firing d t -> es = [] ->
  (caller t', state t', callbacks t', Dpc t', inserted t', event t') =
  (caller t, state t, callbacks t, Dpc t, inserted t, event t) ->
  firing (last_dpc d es) t' /\ effects d t es t'.
Proof. intros O F -> [= ? ? ? ? ? Ee]. apply same_effects; [done | done | congruence | done | done]. Qed.

Lemma read_effects d u t es t' : oneshot t' -> firing d t -> read_step u t = Some (es, t') ->
  firing (last_dpc d es) t' /\ effects d t es t'.
Proof.
  intros O F E. assert (event t' = fold_left play es (event t) /\
    (caller t', state t', callbacks t', Dpc t', inserted t') = (caller t, state t, callbacks t, Dpc t, inserted t) /\
    Forall (fun s => match s with Fired | Set_ _ | Signals => False | _ => True end) es) as (E1 & E2 & E3).
  { revert E. unfold read_step. destruct (reader t); [destruct (poll u (event t)) eqn:Ep; [destruct (notify t) |] |];
      intros [= <- <-]; simpl; rewrite ?Ep; simpl; (split; [done | split; [done |]]); by repeat constructor. }
  by apply same_effects.
Qed.

Lemma step_effects l d t es t' : firing d t -> once l -> step l t = Ok (Some (es, t')) ->
  firing (last_dpc d es) t' /\ effects d t es t'.
Proof.
  intros F N R. destruct (step_once l t es t' (f_once d t F) N R) as [O _]. revert R.
  destruct l as [| irql dd p q | | | | i | irql u]; simpl in *; unfold ddkassert.
  - intros [= E]. apply start_effects; [done | by left].
  - subst p. destruct (0 <=? _); simpl; [| done]. destruct (irql <=? _); simpl; [| done]. intros [= E].
    apply start_effects; [done | right; by exists dd, q].
  - intros [= E]. by apply advance_effects.
  - destruct (expire (Clock t)); [| done]. intros [= <- <-]. by apply same_rest.
  - destruct (begin_callback (Clock t)); [| done]. intros [= <- <-]. destruct F as [F1 F2 F3].
    unfold effects, dpcs_left, at_event, expired, count. simpl. rewrite !filter_app. simpl. rewrite !app_nil_r.
    split; [split; simpl; [done | done |] | done]. unfold expired. simpl. rewrite filter_app. simpl.
    by rewrite app_nil_r.
  - intros [= E]. by apply (callback_effects i).
  - destruct (reader t) eqn:Er; simpl; [destruct (irql <=? _); simpl; [| done] |]; intros [= E];
      by apply (read_effects d u).
Qed.

Lemma steps_effects ls : forall d t es t', firing d t -> Forall once ls -> steps ls t = Ok (Some (es, t')) ->
  effects d t es t'.
Proof.
  induction ls as [| l ls IH]; intros d t es t' F N.
  { intros [= <- <-]. unfold effects. simpl. by rewrite app_nil_r. }
  intros (e & es' & t1 & R1 & R2 & ->)%steps_cons. apply Forall_cons in N as [Nl N].
  destruct (step_effects l d t e t1 F Nl R1) as [F1 (B1 & B2 & B3)].
  destruct (IH _ t1 es' t' F1 N R2) as (B4 & B5 & B6). unfold effects. rewrite !count_app, fold_left_app, due_dpcs_app.
  split; [by rewrite <- B1 | split; [lia |]]. by rewrite <- B6, !app_assoc, <- B3, <- !app_assoc.
Qed.

Lemma firing_init created irql n t0 : KeInitializeTimerEx created irql n = Ok t0 ->
  firing 0 t0 /\ outstanding t0 = 0%nat /\ event t0 = new_event n false /\ callbacks t0 = [] /\ inserted t0 = [].
Proof.
  intros Hi. pose proof (tinv_init _ _ _ _ Hi) as I. unfold KeInitializeTimerEx, ddkassert in Hi.
  destruct (irql <=? _); simpl in Hi; [| done]. destruct created; [| done].
  destruct CreateThreadpoolTimer; [| done]. injection Hi as <-.
  split; [split; [split; [exact I | done | exact Logic.I] | done | simpl; lia] | done].
Qed.

(** C26. A timer that is set and cancelled by one thread at a time, never with a period.
    In every interleaving of its calls with the thread pool and a reader, each
    [KeSetTimerEx] that has started the clock either expires, or is taken back by the one
    [KeCancelTimer] or [KeSetTimerEx] that returns TRUE for it, or is still running: never
    two of these, and never none.  Each expiry sets the event once, apart from the
    callback that is about to: the event is what the operations shown make of it; and
    each inserts, in the order of the expiries, the DPC its [KeSetTimerEx] gave, if it
    gave one: what has been inserted and what a callback is about to insert is all. *)
Theorem one_shot_accounting created irql n t0 ls es t :
  KeInitializeTimerEx created irql n = Ok t0 -> Forall once ls -> steps ls t0 = Ok (Some (es, t)) ->
  (count is_set es = count is_fired es + count is_true es + outstanding t)%nat /\
  (count is_fired es = count is_signal es + at_event (callbacks t))%nat /\
  event t = fold_left play es (new_event n false) /\
  due_dpcs 0 es = inserted t ++ dpcs_left t.
Proof.
  intros Hi N R. destruct (firing_init _ _ _ _ Hi) as (F & E0 & Ee & Ec & Ei).
  pose proof (steps_once ls t0 es t (f_once 0 t0 F) N R) as B.
  destruct (steps_effects ls 0 t0 es t F N R) as (B1 & B2 & B3).
  unfold balanced in B. rewrite Ec in B2. rewrite Ee in B1. unfold dpcs_left in B3 at 1. rewrite Ei, Ec in B3.
  change (at_event []) with 0%nat in B2. split; [lia | split; [lia | done]].
Qed.

Lemma steps_then l ls t e t1 es t2 :
  step l t = Ok (Some (e, t1)) -> steps ls t1 = Ok (Some (es, t2)) -> steps (l :: ls) t = Ok (Some (e ++ es, t2)).
Proof. cbn [steps]. intros ->. simpl. by intros ->. Qed.

(** [KeSetTimerEx], run without interruption in a timer no callback of which is left. *)
Lemma set_timer_run t d p q ls es t2 :
  tinv t -> caller t = Ready -> callbacks t = [] -> p <= 2 ^ 31 - 1 ->
  (forall c, pool_of c = mkPool (Some p) 0 0 ->
    steps ls (mkTimer (ResetEvent (event t)) c q d p TimerActive (notify t) Ready (reader t) [] (inserted t)) =
    Ok (Some (es, t2 c))) ->
  exists c, pool_of c = mkPool (Some p) 0 0 /\
    steps (Set_timer 0 d p q :: replicate 9 Call ++ ls) t =
    Ok (Some (Resets :: Set_ q :: Returns (is_active (state t)) :: es, t2 c)).
Proof.
  intros [Hr _] Ec Ecb Hp Hls. pose proof (pool_wait (SetThreadpoolTimer None 0 (Clock t))) as Hw.
  rewrite pool_set in Hw. simpl in Hw. rewrite Hr, Ecb in Hw.
  destruct (WaitForThreadpoolTimerCallbacks true (SetThreadpoolTimer None 0 (Clock t))) as [c |] eqn:Ew; [| done].
  destruct Hw as [_ Hw]. exists (SetThreadpoolTimer (Some d) p c).
  assert (pool_of (SetThreadpoolTimer (Some d) p c) = mkPool (Some p) 0 0) as Hc by by rewrite pool_set, Hw.
  split; [done |]. destruct t as [e clk dp du pe st no ca re cb ins].
  cbn [event Clock Dpc DueTime Period state notify caller reader callbacks inserted] in *. subst ca cb.
  cbn [replicate app]. change (Resets :: Set_ q :: Returns (is_active st) :: es) with
    ([] ++ [] ++ [] ++ [] ++ [] ++ [] ++ [] ++ [Resets] ++ [Set_ q] ++ [Returns (is_active st)] ++ es).
  eapply steps_then.
  { simpl. unfold ddkassert. apply Z.leb_le in Hp. simpl in Hp. rewrite Hp. reflexivity. }
  eapply steps_then; [reflexivity |]. eapply steps_then; [simpl; unfold advance; simpl; rewrite Ew; reflexivity |].
  do 7 (eapply steps_then; [reflexivity |]). exact (Hls _ Hc).
Qed.

(** [KeReadStateTimer] of a timer that is not for notification is a wait and then a
    [SetEvent]: if another thread sets the timer in between, the event is left set
    although the timer has not expired. *)
Theorem KeReadStateTimer_undoes_set t d q u m b :
  tinv t -> caller t = Ready -> reader t = Consumed -> callbacks t = [] -> view (event t) = VEvent m b ->
  exists es t', steps (Set_timer 0 d 0 q :: replicate 9 Call ++ [Read 0 u]) t = Ok (Some (es, t')) /\
    caller t' = Ready /\ state t' = TimerActive /\ armed (pool_of (Clock t')) = Some 0 /\
    count is_fired es = 0%nat /\ view (event t') = VEvent m true.
Proof.
  intros I Ec Er Ecb Ev.
  destruct (set_timer_run t d 0 q [Read 0 u] [Restores; Reads true]
    (fun c => mkTimer (SetEvent (ResetEvent (event t))) c q d 0 TimerActive (notify t) Ready NotReading [] (inserted t))
    I Ec Ecb) as (c & Hc & Hrun); [lia | intros c _; by rewrite Er |].
  do 2 eexists. split; [exact Hrun |]. simpl. repeat split; [by rewrite Hc |].
  by rewrite view_set, view_reset, Ev.
Qed.
End spec.

(** ** At one timer *)

#[local] Instance win : WIN32_SYNC := model_sync.
#[local] Instance win_laws : SyncLaws := model_laws.
#[local] Instance tp : THREADPOOL_TIMER := model_pool.
#[local] Instance tp_laws : PoolLaws := model_pool_laws.

Definition demo_init : timer :=
  @mkTimer win tp (VEvent false false) (mkPool None 0 0) 0 0 0 TimerIdle false Ready NotReading [] [].

(** It is set, comes due, and is cancelled while its callback is about to set the event. *)
Definition demo_run : list label :=
  Set_timer 0 5 0 9 :: replicate 9 Call ++ [Expire; Begin; Callback 0; Cancel; Call; Callback 0; Call].

Definition demo_after : list label := [Call; Cancel; Call; Call; Call].

(** A callback that has found the timer cancelled does nothing more. *)
Definition demo_cancelled : timer :=
  @mkTimer win tp (VEvent false false) (mkPool None 0 0) 9 5 0 TimerIdle false (InCancel 2 TimerActive) NotReading [] [].

Lemma KeCancelTimer_quiet_witness : exists es' t',
  steps demo_run demo_init = Ok (Some ([Resets; Set_ 9; Returns false], demo_cancelled)) /\
  steps demo_after demo_cancelled = Ok (Some (es', t')) /\
  event t' = event demo_cancelled /\ inserted t' = inserted demo_cancelled.
Proof.
  exists [Returns true; Returns false],
    (@mkTimer win tp (VEvent false false) (mkPool None 0 0) 9 5 0 TimerIdle false Ready NotReading [] []).
  split; [by vm_compute |]. split; [by vm_compute |].
  apply (KeCancelTimer_quiet true 0 false demo_init demo_run demo_cancelled TimerActive demo_after
    [Resets; Set_ 9; Returns false] [Returns true; Returns false]); try (by vm_compute). by repeat constructor.
Defined.

(** It is set with DPC 9, expires, and is set again with DPC 4 and cancelled. *)
Definition demo_twice : list label :=
  Set_timer 0 5 0 9 :: replicate 9 Call ++ [Expire; Begin; Callback 0; Callback 0; Callback 0; Callback 0] ++
  Set_timer 0 6 0 4 :: replicate 9 Call ++ Cancel :: replicate 3 Call.

Definition demo_twice_shown : list shown :=
  [Resets; Set_ 9; Returns false; Fired; Signals; Resets; Set_ 4; Returns false; Returns true].

Definition demo_twice_end : timer :=
  @mkTimer win tp (VEvent false false) (mkPool None 0 0) 4 6 0 TimerIdle false Ready NotReading [] [9].

Lemma one_shot_accounting_witness :
  steps demo_twice demo_init = Ok (Some (demo_twice_shown, demo_twice_end)) /\
  (2 = 1 + 1 + 0)%nat /\ (1 = 1 + 0)%nat /\
  event demo_twice_end = fold_left play demo_twice_shown (VEvent false false) /\ [9] = inserted demo_twice_end.
Proof.
  split; [by vm_compute |].
  destruct (one_shot_accounting true 0 false demo_init demo_twice demo_twice_shown demo_twice_end)
    as (A & B & C & D); [done | repeat constructor | by vm_compute |].
  split; [exact A | split; [exact B | split; [exact C | exact D]]].
Defined.

Definition demo_expired : timer :=
  @mkTimer win tp (VEvent false false) (mkPool None 0 0) 9 5 0 TimerDone false Ready Consumed [] [9].

(** The timer has expired, its event is being read, and it is set again. *)
Lemma KeReadStateTimer_undoes_set_witness :
  steps (Set_timer 0 5 0 9 :: replicate 9 Call ++
    [Expire; Begin; Callback 0; Callback 0; Callback 0; Callback 0; Read 0 1]) demo_init =
    Ok (Some ([Resets; Set_ 9; Returns false; Fired; Signals; Takes 1], demo_expired)) /\
  exists es t', steps (Set_timer 0 7 0 9 :: replicate 9 Call ++ [Read 0 1]) demo_expired = Ok (Some (es, t')) /\
    caller t' = Ready /\ state t' = TimerActive /\ armed (pool_of (Clock t')) = Some 0 /\
    count is_fired es = 0%nat /\ view (event t') = VEvent false true.
Proof.
  split; [by vm_compute |]. by apply (KeReadStateTimer_undoes_set demo_expired 7 9 1 false false).
Defined.
