(* ===== verification/Dpc.v ===== *)
(** * Dpc: deferred procedure calls over the thread pool

    dpc.cpp for one DPC and the two counters, as the steps of any number of threads that
    insert it, of those that remove it (only one gets past the critical section at a
    time), of one that flushes, and of the
    callbacks of the thread pool.  What a critical section does is one step: everything
    else that is written in it is read by no other thread outside it but [queued], which
    is read and written by exchanges.  The thread pool's work object is the class
    [THREADPOOL_WORK].  The IRQL a callback runs at is the one it raises to on a thread of
    its own, so that it is part of its program counter. *)

From S2P Require Import Prelude.

Class THREADPOOL_WORK := {
  work : Type;
  CreateThreadpoolWork : option work;
  SubmitThreadpoolWork (w : work) : work;
  (** [None]: the call waits *)
  WaitForThreadpoolWorkCallbacks (cancel : bool) (w : work) : option work;
  DisassociateCurrentThreadFromCallback (w : work) : work;
  (** the pool begins a callback, if it can; a callback returns *)
  begin_work (w : work) : option work;
  end_work (w : work) : work
}.

Definition MediumImportance : Z := 1.

(** [DdkDpcCallback]: before its exchange, before it leaves the pool's count, before the
    deferred routine, after it at the IRQL it has left, and at its end. *)
Inductive dpc_callback_pc :=
  | DcExchange
  | DcDisassociate
  | DcRoutine (irql : Z)
  | DcAssert (irql now : Z)
  | DcEnd.

(** [KeRemoveQueueDpc] after its critical section. *)
Inductive remover_pc := NotRemoving | RmWait | RmExchange | RmComplete | RmCancel (rc : bool).

(** [KeFlushQueuedDpcs]: the count it waits for. *)
Inductive flusher_pc := NotFlushing | Flushing (queued : Z).

Section dpc.
Context `{THREADPOOL_WORK}.

Record DPC := mkDpc {
  Work : work;
  DeferredRoutine : Z;
  DeferredContext : Z;
  SystemArgument1 : Z;
  SystemArgument2 : Z;
  queued : Z;
  cancel : Z;
  Importance : Z;
  threaded : bool
}.

Record dpcs := mkDpcs {
  Dpc : DPC;
  DpcsQueued : Z;
  DpcsCompleted : Z;
  running_callbacks : list dpc_callback_pc;
  remover : remover_pc;
  flusher : flusher_pc
}.

Definition set_Dpc f s := mkDpcs (f (Dpc s)) (DpcsQueued s) (DpcsCompleted s) (running_callbacks s)
  (remover s) (flusher s).
Definition set_completed f s := mkDpcs (Dpc s) (DpcsQueued s) (f (DpcsCompleted s)) (running_callbacks s)
  (remover s) (flusher s).
Definition set_running f s := mkDpcs (Dpc s) (DpcsQueued s) (DpcsCompleted s) (f (running_callbacks s))
  (remover s) (flusher s).
Definition set_remover pc s := mkDpcs (Dpc s) (DpcsQueued s) (DpcsCompleted s) (running_callbacks s)
  pc (flusher s).
Definition set_flusher pc s := mkDpcs (Dpc s) (DpcsQueued s) (DpcsCompleted s) (running_callbacks s)
  (remover s) pc.

Definition set_work f d := mkDpc (f (Work d)) (DeferredRoutine d) (DeferredContext d) (SystemArgument1 d)
  (SystemArgument2 d) (queued d) (cancel d) (Importance d) (threaded d).
Definition set_queued v d := mkDpc (Work d) (DeferredRoutine d) (DeferredContext d) (SystemArgument1 d)
  (SystemArgument2 d) v (cancel d) (Importance d) (threaded d).
Definition set_cancel v d := mkDpc (Work d) (DeferredRoutine d) (DeferredContext d) (SystemArgument1 d)
  (SystemArgument2 d) (queued d) v (Importance d) (threaded d).

(** [fits]: a DPC fits in the memory of a [KDPC]; [lock]: its lock could be allocated;
    [spin]: and initialised. *)
Definition KeInitializeDpc (fits lock spin : bool) (Routine Context : Z) : result DPC :=
  if negb fits then Err (DdkFailed "DPC is too small to initialize") else
  match CreateThreadpoolWork with
  | None => Err (DdkFailed "Unable to initialize DPC")
  | Some w =>
      if negb lock then Err (DdkFailed "Unable to initialize DPC") else
      if negb spin then Err (DdkFailed "KeInitializeDpc failed to initialize spinlock") else
      Ok (mkDpc w Routine Context 0 0 0 0 MediumImportance false)
  end.

Definition KeInitializeThreadedDpc (fits lock spin : bool) (Routine Context : Z) : result DPC :=
  d ← KeInitializeDpc fits lock spin Routine Context;
  Ok (mkDpc (Work d) (DeferredRoutine d) (DeferredContext d) (SystemArgument1 d) (SystemArgument2 d)
    (queued d) (cancel d) (Importance d) true).

(** The calls that return, and the runs of the deferred routine with its arguments. *)
Inductive dpc_shown :=
  | Inserts (b : bool)
  | Runs (context arg1 arg2 : Z)
  | Removes (b : bool)
  | Flushes.

Definition KeInsertQueueDpc (a1 a2 : Z) (s : dpcs) : dpc_shown * dpcs :=
  let d := Dpc s in
  if negb (queued d =? 0) || negb (cancel d =? 0) then (Inserts false, s) else
  let d := mkDpc (SubmitThreadpoolWork (Work d)) (DeferredRoutine d) (DeferredContext d) a1 a2 1 (cancel d)
    (Importance d) (threaded d) in
  (Inserts true, mkDpcs d (s64 (DpcsQueued s + 1)) (DpcsCompleted s) (running_callbacks s) (remover s) (flusher s)).

(** [KeRemoveQueueDpc], its critical section. *)
Definition remove_start (s : dpcs) : option (list dpc_shown * dpcs) :=
  let d := Dpc s in
  if (queued d =? 0) || negb (cancel d =? 0) then Some ([Removes false], s) else
  match remover s with
  | NotRemoving => Some ([], set_remover RmWait (set_Dpc (set_cancel 1) s))
  | _ => None
  end.

(** [KeRemoveQueueDpc], what follows. *)
Definition remove_step (s : dpcs) : option (list dpc_shown * dpcs) :=
  match remover s with
  | NotRemoving => None
  | RmWait =>
      w ← WaitForThreadpoolWorkCallbacks true (Work (Dpc s));
      Some ([], set_remover RmExchange (set_Dpc (set_work (fun _ => w)) s))
  | RmExchange =>
      Some ([], set_remover (if queued (Dpc s) =? 0 then RmCancel false else RmComplete)
        (set_Dpc (set_queued 0) s))
  | RmComplete => Some ([], set_remover (RmCancel true) (set_completed (fun n => s64 (n + 1)) s))
  | RmCancel rc => Some ([Removes rc], set_remover NotRemoving (set_Dpc (set_cancel 0) s))
  end.

Definition flush_start (s : dpcs) : option (list dpc_shown * dpcs) :=
  match flusher s with
  | NotFlushing => Some ([], set_flusher (Flushing (DpcsQueued s)) s)
  | _ => None
  end.

(** The test of the loop of [KeFlushQueuedDpcs]. *)
Definition flush_step (s : dpcs) : option (list dpc_shown * dpcs) :=
  match flusher s with
  | NotFlushing => None
  | Flushing n => Some (if DpcsCompleted s <? n then ([], s) else ([Flushes], set_flusher NotFlushing s))
  end.

(** A step of callback [i] of [DdkDpcCallback]; the routine leaves the IRQL at [now]. *)
Definition dpc_callback_step (i : nat) (now : Z) (s : dpcs) : result (option (list dpc_shown * dpcs)) :=
  match running_callbacks s !! i with
  | None => Ok None
  | Some pc =>
      let goto pc s := set_running <[i := pc]> s in
      let d := Dpc s in
      match pc with
      | DcExchange => Ok (Some ([], goto DcDisassociate (set_Dpc (set_queued 0) s)))
      | DcDisassociate =>
          let irql := if threaded d then PASSIVE_LEVEL else DISPATCH_LEVEL in
          Ok (Some ([], goto (DcRoutine irql) (set_Dpc (set_work DisassociateCurrentThreadFromCallback) s)))
      | DcRoutine irql =>
          Ok (Some ([Runs (DeferredContext d) (SystemArgument1 d) (SystemArgument2 d)], goto (DcAssert irql now) s))
      | DcAssert irql now =>
          _ ← ddkassert (now =? irql) "KeGetCurrentIrql() == irql";
          Ok (Some ([], goto DcEnd (set_completed (fun n => s64 (n + 1)) s)))
      | DcEnd =>
          Ok (Some ([], set_Dpc (set_work end_work) (set_running (fun l => take i l ++ drop (S i) l) s)))
      end
  end.

Inductive dpc_label :=
  | Insert (arg1 arg2 : Z)
  | Remove
  | RemoveCall
  | Flush (irql : Z)
  | FlushCall
  | BeginWork
  | CallbackAt (i : nat) (now : Z).

Definition dpc_step (l : dpc_label) (s : dpcs) : result (option (list dpc_shown * dpcs)) :=
  match l with
  | Insert a1 a2 => let '(e, s') := KeInsertQueueDpc a1 a2 s in Ok (Some ([e], s'))
  | Remove => Ok (remove_start s)
  | RemoveCall => Ok (remove_step s)
  | Flush irql =>
      _ ← ddkassert (irql =? PASSIVE_LEVEL) "KeGetCurrentIrql() == PASSIVE_LEVEL";
      Ok (flush_start s)
  | FlushCall => Ok (flush_step s)
  | BeginWork =>
      Ok (w ← begin_work (Work (Dpc s));
          Some ([], set_running (fun l => l ++ [DcExchange]) (set_Dpc (set_work (fun _ => w)) s)))
  | CallbackAt i now => dpc_callback_step i now s
  end.

Fixpoint dpc_steps (ls : list dpc_label) (s : dpcs) : result (option (list dpc_shown * dpcs)) :=
  match ls with
  | [] => Ok (Some ([], s))
  | l :: ls =>
      r ← dpc_step l s;
      match r with
      | None => Ok None
      | Some (e, s') =>
          r ← dpc_steps ls s';
          match r with
          | None => Ok None
          | Some (es, s'') => Ok (Some (e ++ es, s''))
          end
      end
  end.
End dpc.
