(* ===== verification/DpcSpec.v ===== *)
(** * DpcSpec: every inserted DPC runs once or is removed, and what a flush waits for *)

From S2P Require Import Prelude Dpc.

(** ** The thread pool's promise *)

(** Submissions not begun, and callbacks that count for a wait. *)
Record workload := mkLoad { pending : nat; active : nat }.

Class WorkLaws `{THREADPOOL_WORK} := {
  load : work -> workload;
  load_new w : CreateThreadpoolWork = Some w -> load w = mkLoad 0 0;
  load_submit w : load (SubmitThreadpoolWork w) = mkLoad (S (pending (load w))) (active (load w));
  load_wait w : match WaitForThreadpoolWorkCallbacks true w with
    | Some w' => active (load w) = 0%nat /\ load w' = mkLoad 0 0
    | None => active (load w) <> 0%nat
    end;
  load_begin w w' : begin_work w = Some w' -> exists n, pending (load w) = S n /\
    load w' = mkLoad n (S (active (load w)));
  load_leave w n : active (load w) = S n ->
    load (DisassociateCurrentThreadFromCallback w) = mkLoad (pending (load w)) n;
  (** the end of a callback that has left the count *)
  load_end w : load (end_work w) = load w
}.

(** The laws can be met. *)
Definition model_work : THREADPOOL_WORK := {|
  work := workload;
  CreateThreadpoolWork := Some (mkLoad 0 0);
  SubmitThreadpoolWork w := mkLoad (S (pending w)) (active w);
  WaitForThreadpoolWorkCallbacks cancel w :=
    if (active w =? 0)%nat then Some (mkLoad (if cancel then 0 else pending w) 0) else None;
  DisassociateCurrentThreadFromCallback w := mkLoad (pending w) (pred (active w));
  begin_work w := match pending w with S n => Some (mkLoad n (S (active w))) | O => None end;
  end_work w := w
|}.

Definition model_work_laws : @WorkLaws model_work.
Proof.
  refine {| load := (fun w => w) : @work model_work -> workload |}; try done.
  - by intros w [= <-].
  - by intros [q [| r]].
  - intros [[| q] r] w'; simpl; [done | intros [= <-]; by exists q].
  - intros [q r] n. simpl. by intros ->.
Defined.

(** ** Counting callbacks *)

Definition b2n (b : bool) : nat := if b then 1 else 0.

Fixpoint cnt {A} (f : A -> bool) (l : list A) : nat :=
  match l with [] => 0 | x :: l => b2n (f x) + cnt f l end.

Lemma cnt_app {A} (f : A -> bool) l l' : cnt f (l ++ l') = (cnt f l + cnt f l')%nat.
Proof. induction l; simpl; lia. Qed.

Lemma cnt_insert {A} (f : A -> bool) l i x y :
  l !! i = Some x -> (cnt f (<[i := y]> l) + b2n (f x) = cnt f l + b2n (f y))%nat.
Proof.
  revert i. induction l as [| z l IH]; intros [| i]; simpl; try done.
  - intros [= ->]. lia.
  - intros E. specialize (IH i E). lia.
Qed.

Lemma cnt_remove {A} (f : A -> bool) l i x :
  l !! i = Some x -> (cnt f (take i l ++ drop (S i) l) + b2n (f x) = cnt f l)%nat.
Proof.
  intros E. rewrite cnt_app. rewrite <- (take_drop_middle l i x E) at 3. rewrite cnt_app. simpl. lia.
Qed.

Definition counted pc := match pc with DcExchange | DcDisassociate => true | _ => false end.
Definition unexchanged pc := match pc with DcExchange => true | _ => false end.
Definition unrun pc := match pc with DcExchange | DcDisassociate | DcRoutine _ => true | _ => false end.
Definition uncompleted pc := match pc with DcEnd => false | _ => true end.

Section spec.
Context `{WorkLaws}.

Record dinv (s : dpcs) : Prop := {
  d_active : active (load (Work (Dpc s))) = cnt counted (running_callbacks s);
  d_cancel : cancel (Dpc s) = match remover s with NotRemoving => 0 | _ => 1 end;
  d_queued : match remover s with
    | NotRemoving | RmWait =>
        queued (Dpc s) = Z.of_nat (pending (load (Work (Dpc s))) + cnt unexchanged (running_callbacks s)) /\
        (queued (Dpc s) = 0 \/ queued (Dpc s) = 1)
    | RmExchange => load (Work (Dpc s)) = mkLoad 0 0 /\ cnt unexchanged (running_callbacks s) = 0%nat /\
        (queued (Dpc s) = 0 \/ queued (Dpc s) = 1)
    | _ => load (Work (Dpc s)) = mkLoad 0 0 /\ cnt unexchanged (running_callbacks s) = 0%nat /\ queued (Dpc s) = 0
    end
}.

(** What [KeRemoveQueueDpc] has taken out of the pool's queue. *)
Definition taken (s : dpcs) : nat :=
  match remover s with RmExchange => Z.to_nat (queued (Dpc s)) | RmComplete => 1 | _ => 0 end.

(** Insertions that have not been counted as completed. *)
Definition unfinished (s : dpcs) : nat :=
  pending (load (Work (Dpc s))) + cnt uncompleted (running_callbacks s) + taken s.

(** Insertions whose routine has not run, and that no call has returned TRUE for. *)
Definition outstanding (s : dpcs) : nat :=
  pending (load (Work (Dpc s))) + cnt unrun (running_callbacks s) + taken s +
  match remover s with RmCancel true => 1 | _ => 0 end.

Definition is_inserted e := match e with Inserts b => b | _ => false end.
Definition is_run e := match e with Runs _ _ _ => true | _ => false end.
Definition is_removed e := match e with Removes b => b | _ => false end.

Record counters (s : dpcs) : Prop := {
  c_sum : DpcsQueued s = DpcsCompleted s + Z.of_nat (unfinished s);
  c_low : 0 <= DpcsCompleted s
}.

(** A step of a state within the range of the counters. *)
Definition sound (s : dpcs) (es : list dpc_shown) (s' : dpcs) : Prop :=
  dinv s' /\ counters s' /\ DpcsQueued s' = DpcsQueued s + Z.of_nat (cnt is_inserted es) /\
  (cnt is_inserted es <= 1)%nat /\
  (cnt is_inserted es + outstanding s = cnt is_run es + cnt is_removed es + outstanding s')%nat.

Lemma counted_split l : (cnt unexchanged l <= cnt counted l)%nat.
Proof. induction l as [| [] l IH]; simpl; lia. Qed.

(** Open the goal [sound s es s'] at a concrete [s'] and compute. *)
Ltac open_sound := unfold sound; split; [split | split; [split | split; [| split]]];
  unfold unfinished, outstanding, taken in *; simpl in *.

Ltac close_sound := destruct_and?; repeat match goal with |- _ /\ _ => split end; simpl; (done || lia).

Lemma insert_sound a1 a2 s : dinv s -> counters s -> DpcsQueued s + 1 < 2 ^ 63 ->
  sound s [(KeInsertQueueDpc a1 a2 s).1] (KeInsertQueueDpc a1 a2 s).2.
Proof.
  intros [Da Dc Dq] [Cs Cl] Hb. unfold KeInsertQueueDpc.
  destruct (Z.eqb_spec (queued (Dpc s)) 0) as [Eq |]; [destruct (Z.eqb_spec (cancel (Dpc s)) 0) as [Ec |] |]; simpl.
  2-3: by open_sound; close_sound.
  rewrite Dc in Ec. destruct (remover s) eqn:Er; try lia. rewrite Eq in Dq. destruct Dq as [Dq _].
  open_sound; rewrite ?load_submit, ?Er in *; simpl; rewrite ?s64_id by lia; close_sound.
Qed.

Lemma remove_sound s es s' : dinv s -> counters s -> DpcsQueued s < 2 ^ 63 ->
  remove_start s = Some (es, s') \/ remove_step s = Some (es, s') -> sound s es s'.
Proof.
  intros [Da Dc Dq] [Cs Cl] Hb [Hs | Hs]; revert Hs; unfold remove_start, remove_step.
  - destruct ((queued (Dpc s) =? 0) || negb (cancel (Dpc s) =? 0)).
    { intros [= <- <-]. by open_sound; close_sound. }
    destruct (remover s) eqn:Er; try done. intros [= <- <-]. by open_sound; rewrite ?Er in *; close_sound.
  - destruct (remover s) as [| | | | rc] eqn:Er; try done.
    + pose proof (load_wait (Work (Dpc s))) as Hw.
      destruct (WaitForThreadpoolWorkCallbacks true (Work (Dpc s))) as [w |]; simpl; [| done].
      intros [= <- <-]. destruct Hw as [Hw0 Hw]. destruct Dq as [Dq Dr].
      pose proof (counted_split (running_callbacks s)).
      open_sound; rewrite ?Er, ?Hw in *; simpl; close_sound.
    + destruct Dq as (Hw & Hu & Dr). intros [= <- <-]. rewrite Hw in *.
      destruct Dr as [Eq | Eq]; open_sound; rewrite ?Er, ?Eq, ?Hw in *; simpl in *; close_sound.
    + destruct Dq as (Hw & Hu & Dr). intros [= <- <-]. rewrite Hw in *.
      open_sound; rewrite ?Er, ?Hw in *; simpl in *; rewrite ?s64_id by lia; close_sound.
    + destruct Dq as (Hw & Hu & Dr). intros [= <- <-]. rewrite Hw in *.
      destruct rc; open_sound; rewrite ?Er, ?Hw in *; simpl in *; close_sound.
Qed.

(** The four counts when callback [i] goes from [x] to [y]. *)
Lemma counts_insert l i x y : l !! i = Some x ->
  (cnt counted (<[i := y]> l) + b2n (counted x) = cnt counted l + b2n (counted y))%nat /\
  (cnt unexchanged (<[i := y]> l) + b2n (unexchanged x) = cnt unexchanged l + b2n (unexchanged y))%nat /\
  (cnt unrun (<[i := y]> l) + b2n (unrun x) = cnt unrun l + b2n (unrun y))%nat /\
  (cnt uncompleted (<[i := y]> l) + b2n (uncompleted x) = cnt uncompleted l + b2n (uncompleted y))%nat.
Proof. intros E. repeat split; by apply cnt_insert. Qed.

Lemma callback_sound i now s es s' : dinv s -> counters s -> DpcsQueued s < 2 ^ 63 ->
  dpc_callback_step i now s = Ok (Some (es, s')) -> sound s es s'.
Proof.
  intros [Da Dc Dq] [Cs Cl] Hb. unfold dpc_callback_step.
  destruct (running_callbacks s !! i) as [pc |] eqn:Ei; [| done].
  destruct pc as [| | irql | irql n |].
  - destruct (counts_insert _ _ _ DcDisassociate Ei) as (N1 & N2 & N3 & N4). simpl in *. intros [= <- <-].
    destruct (remover s) eqn:Er; open_sound; rewrite ?Er in *; close_sound.
  - destruct (counts_insert _ _ _ (DcRoutine (if threaded (Dpc s) then PASSIVE_LEVEL else DISPATCH_LEVEL)) Ei)
      as (N1 & N2 & N3 & N4). simpl in *. intros [= <- <-].
    assert (exists n, active (load (Work (Dpc s))) = S n) as (n & En)
      by (exists (pred (active (load (Work (Dpc s))))); lia).
    destruct (remover s) eqn:Er; open_sound; rewrite ?Er, ?(load_leave _ n En) in *; simpl in *;
      try close_sound; destruct Dq as (Dq & _); rewrite Dq in En; done.
  - destruct (counts_insert _ _ _ (DcAssert irql now) Ei) as (N1 & N2 & N3 & N4). simpl in *. intros [= <- <-].
    destruct (remover s) eqn:Er; open_sound; rewrite ?Er in *; close_sound.
  - unfold ddkassert. destruct (n =? irql); simpl; [| done].
    destruct (counts_insert _ _ _ DcEnd Ei) as (N1 & N2 & N3 & N4). simpl in *. intros [= <- <-].
    destruct (remover s) eqn:Er; open_sound; rewrite ?Er in *; rewrite ?s64_id by lia; close_sound.
  - intros [= <- <-].
    pose proof (cnt_remove counted _ i _ Ei). pose proof (cnt_remove unexchanged _ i _ Ei).
    pose proof (cnt_remove unrun _ i _ Ei). pose proof (cnt_remove uncompleted _ i _ Ei).
    destruct (remover s) eqn:Er; open_sound; rewrite ?Er, ?load_end in *; simpl in *;
      close_sound.
Qed.

Lemma begin_sound s w : dinv s -> counters s -> begin_work (Work (Dpc s)) = Some w ->
  sound s [] (set_running (fun l => l ++ [DcExchange]) (set_Dpc (set_work (fun _ => w)) s)).
Proof.
  intros [Da Dc Dq] [Cs Cl] Hw. apply load_begin in Hw as (n & En & Hw).
  destruct (remover s) eqn:Er; open_sound; rewrite ?Er, ?Hw, ?cnt_app in *; simpl in *; try close_sound;
    destruct Dq as (Dq & _); rewrite Dq in En; done.
Qed.

Lemma flush_sound s es s' : dinv s -> counters s ->
  flush_start s = Some (es, s') \/ flush_step s = Some (es, s') -> sound s es s'.
Proof.
  intros [Da Dc Dq] [Cs Cl]. unfold flush_start, flush_step.
  destruct (flusher s); intros [[= <- <-] | Hs]; try done;
    try (destruct (DpcsCompleted s <? _); injection Hs as <- <-); open_sound; close_sound.
Qed.

Lemma dpc_step_sound l s es s' : dinv s -> counters s -> DpcsQueued s + 1 < 2 ^ 63 ->
  dpc_step l s = Ok (Some (es, s')) -> sound s es s'.
Proof.
  intros I C Hb. destruct l as [a1 a2 | | | irql | | | i now]; simpl.
  - pose proof (insert_sound a1 a2 s I C Hb) as Hs. destruct (KeInsertQueueDpc a1 a2 s). by intros [= <- <-].
  - intros [= E]. apply remove_sound; [done.. | lia | by left].
  - intros [= E]. apply remove_sound; [done.. | lia | by right].
  - unfold ddkassert. destruct (irql =? PASSIVE_LEVEL); simpl; [| done]. intros [= E].
    apply flush_sound; [done.. | by left].
  - intros [= E]. apply flush_sound; [done.. | by right].
  - destruct (begin_work (Work (Dpc s))) as [w |] eqn:E; [| done]. intros [= <- <-]. by apply begin_sound.
  - intros E. apply (callback_sound i now); [done.. | lia | done].
Qed.

Lemma dpc_steps_cons l ls s es s' : dpc_steps (l :: ls) s = Ok (Some (es, s')) ->
  exists e es' s1, dpc_step l s = Ok (Some (e, s1)) /\ dpc_steps ls s1 = Ok (Some (es', s')) /\ es = e ++ es'.
Proof.
  cbn [dpc_steps]. destruct (dpc_step l s) as [[[e s1] |] |]; simpl; try done.
  destruct (dpc_steps ls s1) as [[[es' s2] |] |] eqn:E; simpl; try done. intros [= <- <-]. by exists e, es', s1.
Qed.

Lemma dpc_steps_sound ls : forall s es s', dinv s -> counters s ->
  DpcsQueued s + Z.of_nat (length ls) < 2 ^ 63 -> dpc_steps ls s = Ok (Some (es, s')) ->
  dinv s' /\ counters s' /\ DpcsQueued s' = DpcsQueued s + Z.of_nat (cnt is_inserted es) /\
  (cnt is_inserted es + outstanding s = cnt is_run es + cnt is_removed es + outstanding s')%nat /\
  (cnt is_inserted es <= length ls)%nat.
Proof.
  induction ls as [| l ls IH]; intros s es s' I C Hb; [intros [= <- <-]; simpl; split; [done | split; [done | lia]] |].
  cbn [length] in *. intros (e & es' & s1 & R1 & R2 & ->)%dpc_steps_cons.
  destruct (dpc_step_sound l s e s1 I C) as (I1 & C1 & Q1 & B1 & A1); [lia | done |].
  destruct (IH s1 es' s' I1 C1) as (I2 & C2 & Q2 & A2 & L2); [lia | done |].
  rewrite !cnt_app. split; [done | split; [done | repeat split; lia]].
Qed.

(** A program in which the DPC has just been initialised. *)
Definition initial (d : DPC) : dpcs := mkDpcs d 0 0 [] NotRemoving NotFlushing.

Lemma initial_sound fits lock spin r c d : KeInitializeDpc fits lock spin r c = Ok d ->
  dinv (initial d) /\ counters (initial d) /\ outstanding (initial d) = 0%nat.
Proof.
  unfold KeInitializeDpc. destruct fits; simpl; [| done]. destruct CreateThreadpoolWork as [w |] eqn:E; [| done].
  destruct lock; simpl; [| done]. destruct spin; simpl; [| done]. intros [= <-]. apply load_new in E.
  split; [split | split; [split |]]; unfold unfinished, outstanding, taken; simpl; rewrite ?E; simpl; try done.
  split; [done | by left].
Qed.

(** C12. In every interleaving of insertions, removals, flushes and callbacks, each
    [KeInsertQueueDpc] that returns TRUE runs the deferred routine exactly once, or is
    the one a [KeRemoveQueueDpc] returns TRUE for, or is still outstanding; and the two
    counters [KeFlushQueuedDpcs] compares differ by the insertions that have not
    completed. *)
Theorem dpc_accounting fits lock spin r c d ls es s :
  KeInitializeDpc fits lock spin r c = Ok d -> Z.of_nat (length ls) < 2 ^ 63 ->
  dpc_steps ls (initial d) = Ok (Some (es, s)) ->
  (cnt is_inserted es = cnt is_run es + cnt is_removed es + outstanding s)%nat /\
  DpcsQueued s = Z.of_nat (cnt is_inserted es) /\
  DpcsQueued s = DpcsCompleted s + Z.of_nat (unfinished s).
Proof.
  intros Hi Hl R. destruct (initial_sound fits lock spin r c d Hi) as (I & C & E).
  destruct (dpc_steps_sound ls _ es s I C Hl R) as (I' & [C' _] & Q & A & _). simpl in Q.
  repeat split; [lia | lia | done].
Qed.

(** ** Flushing *)

Definition not_insert (l : dpc_label) : Prop := match l with Insert _ _ => False | _ => True end.

Lemma dpc_step_quiet l s es s' : not_insert l -> dpc_step l s = Ok (Some (es, s')) -> cnt is_inserted es = 0%nat.
Proof.
  destruct l as [| | | irql | | | i now]; simpl; try done; intros _.
  - unfold remove_start. destruct (_ || _); [by intros [= <- <-] |]. destruct (remover s); try done. by intros [= <- <-].
  - unfold remove_step. destruct (remover s); try done; try (by intros [= <- <-]).
    destruct (WaitForThreadpoolWorkCallbacks _ _); simpl; [by intros [= <- <-] | done].
  - unfold ddkassert, flush_start. destruct (irql =? _); simpl; [| done]. destruct (flusher s); [| done]. by intros [= <- <-].
  - unfold flush_step. destruct (flusher s); [done |]. destruct (_ <? _); by intros [= <- <-].
  - destruct (begin_work _); [| done]. by intros [= <- <-].
  - unfold dpc_callback_step, ddkassert. destruct (running_callbacks s !! i) as [[| | | irql n |] |]; try done;
      try (by intros [= <- <-]). destruct (n =? irql); simpl; [| done]. by intros [= <- <-].
Qed.

Lemma dpc_steps_quiet ls : forall s es s', Forall not_insert ls ->
  dpc_steps ls s = Ok (Some (es, s')) -> cnt is_inserted es = 0%nat.
Proof.
  induction ls as [| l ls IH]; intros s es s' N; [by intros [= <- <-] |].
  intros (e & es' & s1 & R1 & R2 & ->)%dpc_steps_cons. apply Forall_cons in N as [Nl N].
  rewrite cnt_app, (dpc_step_quiet l s e s1 Nl R1), (IH s1 es' s' N R2). done.
Qed.

(** If nothing is inserted while [KeFlushQueuedDpcs] waits, then when its loop ends no
    inserted DPC is left, in the pool or running. *)
Theorem KeFlushQueuedDpcs_waits fits lock spin r c d before s0 es0 during s es s' e :
  KeInitializeDpc fits lock spin r c = Ok d -> Z.of_nat (length before + length during) < 2 ^ 63 ->
  dpc_steps before (initial d) = Ok (Some (es0, s0)) -> Forall not_insert during ->
  dpc_steps during s0 = Ok (Some (es, s)) -> flusher s = Flushing (DpcsQueued s0) ->
  flush_step s = Some (e, s') -> flusher s' = NotFlushing -> unfinished s = 0%nat.
Proof.
  intros Hi Hl R0 N R Hf Hs Hf'. destruct (initial_sound fits lock spin r c d Hi) as (I & C & _).
  destruct (dpc_steps_sound before _ es0 s0 I C) as (I0 & C0 & Q0 & _ & L0); [simpl; lia | done |].
  destruct (dpc_steps_sound during s0 es s I0 C0) as (I1 & [C1 C2] & Q1 & _); [simpl in Q0; lia | done |].
  rewrite (dpc_steps_quiet during s0 es s N R) in Q1.
  unfold flush_step in Hs. rewrite Hf in Hs. destruct (Z.ltb_spec (DpcsCompleted s) (DpcsQueued s0)).
  - injection Hs as _ <-. congruence.
  - lia.
Qed.
End spec.

#[local] Instance pool_model : THREADPOOL_WORK := model_work.
#[local] Instance pool_model_laws : WorkLaws := model_work_laws.

(** A DPC whose routine is 1 with context 2. *)
Definition demo_dpc (pending : nat) (a1 a2 queued : Z) : DPC :=
  mkDpc (mkLoad pending 0) 1 2 a1 a2 queued 0 MediumImportance false.

(** Its first insertion is about to run, and a flush has begun. *)
Definition demo_flushing : dpcs :=
  mkDpcs (demo_dpc 0 3 4 0) 1 0 [DcRoutine DISPATCH_LEVEL] NotRemoving (Flushing 1).

(** [KeFlushQueuedDpcs] compares counts only, so that it can return before a DPC that
    was inserted before it has run: here the routine of the first insertion has not begun
    when the loop ends, because a later insertion of the same DPC has completed. *)
Theorem KeFlushQueuedDpcs_early : exists before during es0 es s,
  KeInitializeDpc true true true 1 2 = Ok (demo_dpc 0 0 0 0) /\
  dpc_steps before (initial (demo_dpc 0 0 0 0)) = Ok (Some (es0, demo_flushing)) /\
  dpc_steps during demo_flushing = Ok (Some (es, s)) /\
  DpcsQueued demo_flushing = 1 /\ Flushes ∈ es /\ running_callbacks s = [DcRoutine DISPATCH_LEVEL; DcEnd].
Proof.
  exists [Insert 3 4; BeginWork; CallbackAt 0 0; CallbackAt 0 0; Flush 0].
  exists [Insert 5 6; BeginWork; CallbackAt 1 0; CallbackAt 1 0; CallbackAt 1 DISPATCH_LEVEL; CallbackAt 1 0; FlushCall].
  exists [Inserts true], [Inserts true; Runs 2 5 6; Flushes],
    (mkDpcs (demo_dpc 0 5 6 0) 2 1 [DcRoutine DISPATCH_LEVEL; DcEnd] NotRemoving NotFlushing).
  split; [by vm_compute |]. split; [by vm_compute |]. split; [by vm_compute |]. split; [done |].
  split; [set_solver | done].
Qed.

(** One insertion is taken back, one is refused, one runs. *)
Lemma dpc_accounting_witness : exists ls s,
  dpc_steps ls (initial (demo_dpc 0 0 0 0)) =
    Ok (Some ([Inserts true; Inserts false; Removes true; Inserts true; Runs 2 7 8], s)) /\
  (2 = 1 + 1 + outstanding s)%nat.
Proof.
  exists [Insert 3 4; Insert 5 6; Remove; RemoveCall; RemoveCall; RemoveCall; RemoveCall;
    Insert 7 8; BeginWork; CallbackAt 0 0; CallbackAt 0 0; CallbackAt 0 DISPATCH_LEVEL].
  exists (mkDpcs (demo_dpc 0 7 8 0) 2 1 [DcAssert DISPATCH_LEVEL DISPATCH_LEVEL] NotRemoving NotFlushing).
  split; [by vm_compute |].
  refine (proj1 (dpc_accounting true true true 1 2 (demo_dpc 0 0 0 0)
    [Insert 3 4; Insert 5 6; Remove; RemoveCall; RemoveCall; RemoveCall; RemoveCall;
     Insert 7 8; BeginWork; CallbackAt 0 0; CallbackAt 0 0; CallbackAt 0 DISPATCH_LEVEL]
    [Inserts true; Inserts false; Removes true; Inserts true; Runs 2 7 8] _ eq_refl eq_refl _)).
  by vm_compute.
Defined.

Lemma KeFlushQueuedDpcs_waits_witness : exists es s,
  dpc_steps [CallbackAt 0 DISPATCH_LEVEL; CallbackAt 0 0] demo_flushing = Ok (Some (es, s)) /\
  is_Some (flush_step s) /\ unfinished s = 0%nat.
Proof.
  exists [Runs 2 3 4], (mkDpcs (demo_dpc 0 3 4 0) 1 1 [DcEnd] NotRemoving (Flushing 1)).
  split; [by vm_compute |]. split; [by eexists |].
  apply (KeFlushQueuedDpcs_waits true true true 1 2 (demo_dpc 0 0 0 0)
    [Insert 3 4; BeginWork; CallbackAt 0 0; CallbackAt 0 0; Flush 0] demo_flushing [Inserts true]
    [CallbackAt 0 DISPATCH_LEVEL; CallbackAt 0 0] _ [Runs 2 3 4]
    (mkDpcs (demo_dpc 0 3 4 0) 1 1 [DcEnd] NotRemoving NotFlushing) [Flushes]).
  all: try (by vm_compute). by repeat constructor.
Defined.
