(* ===== verification/Irp.v ===== *)
(** * Irp: I/O request packets

    irp.cpp and mdl.cpp's chain of MDLs.  An IRP is a record in a store, addressed as the
    code addresses it, so that drivers, completion routines and the functions here share
    it; [CurrentStackLocation] is an index into its stack, and a location outside the
    stack is a [BadAccess].  The dispatch routines and completion routines of drivers are
    parameters; so are the inline functions of the WDK headers (class [WDK]).  Events are
    in Dispatcher; here one is set or it is not.  [trace] records the completion routines
    called, with their device and context, [freed] the MDLs given back to the pool. *)

From S2P Require Import Prelude.

Definition s8 (z : Z) : Z := (z + 2 ^ 7) mod 2 ^ 8 - 2 ^ 7.

Definition STATUS_MORE_PROCESSING_REQUIRED : Z := 0xC0000016.
Definition MULTIPLE_IRP_COMPLETE_REQUESTS : Z := 0x44.
Definition SL_PENDING_RETURNED : Z := 0x01.
Definition SL_INVOKE_ON_CANCEL : Z := 0x20.
Definition SL_INVOKE_ON_SUCCESS : Z := 0x40.
Definition SL_INVOKE_ON_ERROR : Z := 0x80.
Definition IRP_BUFFERED_IO : Z := 0x10.
Definition IRP_DEALLOCATE_BUFFER : Z := 0x20.
Definition IRP_MJ_DEVICE_CONTROL : Z := 0x0E.
Definition IRP_MJ_INTERNAL_DEVICE_CONTROL : Z := 0x0F.
Definition METHOD_BUFFERED : Z := 0.
Definition METHOD_IN_DIRECT : Z := 1.
Definition METHOD_OUT_DIRECT : Z := 2.
Definition METHOD_NEITHER : Z := 3.

(** [NT_SUCCESS] of an [NTSTATUS] kept as an unsigned number. *)
Definition NT_SUCCESS (status : Z) : bool := status <? 2 ^ 31.

(** ** Data *)

(** The parameters of a device control are [Argument1], the length of the output,
    [Argument2], the length of the input, [Argument3], the code, and [Argument4], the
    input buffer. *)
Record IO_STACK_LOCATION := mkLocation {
  MajorFunction : Z;
  MinorFunction : Z;
  Flags : Z;
  Control : Z;
  Argument1 : Z;
  Argument2 : Z;
  Argument3 : Z;
  Argument4 : Z;
  DeviceObject : Z;
  FileObject : Z;
  CompletionRoutine : Z;
  Context_ : Z
}.

Record IRP := mkIrp {
  Size : Z;
  StackCount : Z;
  CurrentLocation : Z;
  CurrentStackLocation : Z;
  Status : Z;
  Information : Z;
  Cancel : bool;
  PendingReturned : bool;
  irp_Flags : Z;
  SystemBuffer : Z;
  UserBuffer : Z;
  UserEvent : Z;
  UserIosb : Z;
  MdlAddress : list Z;
  stack : list IO_STACK_LOCATION
}.

Definition blank : IO_STACK_LOCATION := mkLocation 0 0 0 0 0 0 0 0 0 0 0 0.

Definition set_position loc pos i := mkIrp (Size i) (StackCount i) loc pos (Status i) (Information i) (Cancel i)
  (PendingReturned i) (irp_Flags i) (SystemBuffer i) (UserBuffer i) (UserEvent i) (UserIosb i) (MdlAddress i) (stack i).
Definition set_status s n i := mkIrp (Size i) (StackCount i) (CurrentLocation i) (CurrentStackLocation i) s n (Cancel i)
  (PendingReturned i) (irp_Flags i) (SystemBuffer i) (UserBuffer i) (UserEvent i) (UserIosb i) (MdlAddress i) (stack i).
Definition set_pending b i := mkIrp (Size i) (StackCount i) (CurrentLocation i) (CurrentStackLocation i) (Status i)
  (Information i) (Cancel i) b (irp_Flags i) (SystemBuffer i) (UserBuffer i) (UserEvent i) (UserIosb i) (MdlAddress i)
  (stack i).
Definition set_buffers flags sys user i := mkIrp (Size i) (StackCount i) (CurrentLocation i) (CurrentStackLocation i)
  (Status i) (Information i) (Cancel i) (PendingReturned i) flags sys user (UserEvent i) (UserIosb i) (MdlAddress i)
  (stack i).
Definition set_user event iosb i := mkIrp (Size i) (StackCount i) (CurrentLocation i) (CurrentStackLocation i)
  (Status i) (Information i) (Cancel i) (PendingReturned i) (irp_Flags i) (SystemBuffer i) (UserBuffer i) event iosb
  (MdlAddress i) (stack i).
Definition set_mdls l i := mkIrp (Size i) (StackCount i) (CurrentLocation i) (CurrentStackLocation i) (Status i)
  (Information i) (Cancel i) (PendingReturned i) (irp_Flags i) (SystemBuffer i) (UserBuffer i) (UserEvent i) (UserIosb i)
  l (stack i).
Definition set_stack f i := mkIrp (Size i) (StackCount i) (CurrentLocation i) (CurrentStackLocation i) (Status i)
  (Information i) (Cancel i) (PendingReturned i) (irp_Flags i) (SystemBuffer i) (UserBuffer i) (UserEvent i) (UserIosb i)
  (MdlAddress i) (f (stack i)).

(** Inline functions and macros of the WDK. *)
Class WDK := {
  sizeof_IRP : Z;
  sizeof_IO_STACK_LOCATION : Z;
  IoSizeOfIrp (StackSize : Z) : Z;
  IoSetNextIrpStackLocation (i : IRP) : IRP;
  (** the index of the next and of the current location *)
  IoGetNextIrpStackLocation (i : IRP) : Z;
  IoGetCurrentIrpStackLocation (i : IRP) : Z;
  IoSetCompletionRoutine (routine context : Z) (success error cancel : bool) (l : IO_STACK_LOCATION) : IO_STACK_LOCATION;
  IoMarkIrpPending (l : IO_STACK_LOCATION) : IO_STACK_LOCATION;
  METHOD_FROM_CTL_CODE (code : Z) : Z
}.

(** What a device is to its requests. *)
Record device := mkDevice { StackSize : Z; DriverObject : Z }.

Record world := mkWorld {
  irps : gmap Z IRP;
  devices : gmap Z device;
  bytes : gmap Z Z;
  signalled : gmap Z bool;
  iosbs : gmap Z (Z * Z);
  unlocked : list Z;
  freed : list Z;
  trace : list (Z * Z * Z)
}.

Section irp.
Context `{WDK}.
(** The dispatch routine of a driver for a major function, and the completion routines,
    by address. *)
Context (dispatch : Z -> Z -> Z -> Z -> W world Z).
Context (completion : Z -> Z -> Z -> Z -> W world Z).

Definition set_irps f w := mkWorld (f (irps w)) (devices w) (bytes w) (signalled w) (iosbs w) (unlocked w) (freed w) (trace w).
Definition set_bytes f w := mkWorld (irps w) (devices w) (f (bytes w)) (signalled w) (iosbs w) (unlocked w) (freed w) (trace w).
Definition set_signalled f w := mkWorld (irps w) (devices w) (bytes w) (f (signalled w)) (iosbs w) (unlocked w) (freed w) (trace w).
Definition set_iosbs f w := mkWorld (irps w) (devices w) (bytes w) (signalled w) (f (iosbs w)) (unlocked w) (freed w) (trace w).
Definition add_unlocked l w := mkWorld (irps w) (devices w) (bytes w) (signalled w) (iosbs w) (unlocked w ++ l) (freed w) (trace w).
Definition add_trace c w := mkWorld (irps w) (devices w) (bytes w) (signalled w) (iosbs w) (unlocked w) (freed w) (trace w ++ [c]).
Definition add_freed l w := mkWorld (irps w) (devices w) (bytes w) (signalled w) (iosbs w) (unlocked w) (freed w ++ l) (trace w).

Definition irp_at (p : Z) : W world IRP := fun w =>
  match irps w !! p with Some i => Ok (Some (i, w)) | None => Err (BadAccess p) end.

Definition change (p : Z) (f : IRP -> IRP) : W world unit :=
  i ← irp_at p; wput (set_irps <[p := f i]>).

Definition location_at (p k : Z) : W world IO_STACK_LOCATION :=
  i ← irp_at p; wlift (array_get (stack i) k).

Definition change_location (p k : Z) (f : IO_STACK_LOCATION -> IO_STACK_LOCATION) : W world unit :=
  i ← irp_at p;
  l ← wlift (array_get (stack i) k);
  s ← wlift (array_set (stack i) k (f l));
  wput (set_irps <[p := set_stack (fun _ => s) i]>).

Definition device_at (d : Z) : W world device := fun w =>
  match devices w !! d with Some x => Ok (Some (x, w)) | None => Err (BadAccess d) end.

(** [RtlCopyMemory] and [memcpy]: the bytes are read and written one by one. *)
Fixpoint copy_memory (n : nat) (dst src : Z) : W world unit :=
  match n with
  | O => mret tt
  | S n =>
      b ← (fun w => match bytes w !! src, bytes w !! dst with
           | Some b, Some _ => Ok (Some (b, w))
           | Some _, None => Err (BadAccess dst)
           | _, _ => Err (BadAccess src)
           end);
      _ ← wput (set_bytes <[dst := b]>);
      copy_memory n (dst + 1) (src + 1)
  end.

(** ** Allocation *)

(** [PacketSize] a multiple of the location size above [sizeof_IRP]; the memory of the
    IRP is zeroed. *)
Definition IoInitializeIrp (Irp PacketSize StackSize : Z) : W world unit :=
  let n := Z.quot (PacketSize - sizeof_IRP) sizeof_IO_STACK_LOCATION in
  wput (set_irps <[Irp := mkIrp PacketSize StackSize (s8 (StackSize + 1)) n 0 0 false false 0 0 0 0 0 []
    (replicate (Z.to_nat n) blank)]>).

(** [new]: what [ExAllocatePool] returns. *)
Definition IoAllocateIrp (new StackSize : Z) : W world Z :=
  _ ← (if new =? 0 then mret tt else IoInitializeIrp new (u16 (IoSizeOfIrp StackSize)) StackSize);
  mret new.

Definition IoFreeIrp (Irp : Z) : W world unit :=
  _ ← irp_at Irp;
  wput (set_irps (delete Irp)).

(** ** Sending and completing *)

Definition IofCallDriver (irql d Irp : Z) : W world Z :=
  _ ← wassert (irql <=? DISPATCH_LEVEL) "KeGetCurrentIrql() <= DISPATCH_LEVEL";
  i ← irp_at Irp;
  _ ← wassert (CurrentLocation i >? 0) "Irp->CurrentLocation > 0";
  _ ← change Irp IoSetNextIrpStackLocation;
  i ← irp_at Irp;
  let k := IoGetCurrentIrpStackLocation i in
  _ ← change_location Irp k (fun l => mkLocation (MajorFunction l) (MinorFunction l) (Flags l) (Control l)
        (Argument1 l) (Argument2 l) (Argument3 l) (Argument4 l) d (FileObject l) (CompletionRoutine l) (Context_ l));
  l ← location_at Irp k;
  x ← device_at d;
  dispatch (DriverObject x) (MajorFunction l) d Irp.

Definition ClearStackLocation (l : IO_STACK_LOCATION) : IO_STACK_LOCATION :=
  mkLocation (MajorFunction l) 0 0 0 0 0 0 (Argument4 l) (DeviceObject l) 0 (CompletionRoutine l) (Context_ l).

Definition has (flags f : Z) : bool := negb (Z.land flags f =? 0).

(** Does a location with this control have its routine called? *)
Definition invokes (i : IRP) (control : Z) : bool :=
  (NT_SUCCESS (Status i) && has control SL_INVOKE_ON_SUCCESS)
  || (negb (NT_SUCCESS (Status i)) && has control SL_INVOKE_ON_ERROR)
  || (Cancel i && has control SL_INVOKE_ON_CANCEL).

(** [pStack = CurrentStackLocation++, CurrentLocation++] *)
Definition advance (Irp : Z) : W world Z :=
  i ← irp_at Irp;
  _ ← wput (set_irps <[Irp := set_position (s8 (CurrentLocation i + 1)) (CurrentStackLocation i + 1) i]>);
  mret (CurrentStackLocation i).

(** The body of the loop of [IofCompleteRequest] for location [k]; [true]: its routine
    keeps the IRP. *)
Definition complete_location (Irp k : Z) : W world bool :=
  l ← location_at Irp k;
  _ ← change Irp (set_pending (has (Control l) SL_PENDING_RETURNED));
  _ ← change_location Irp k ClearStackLocation;
  i ← irp_at Irp;
  if invokes i (Control l) then
    d ← (if CurrentLocation i <=? StackCount i
         then (u ← location_at Irp (IoGetCurrentIrpStackLocation i); mret (DeviceObject u)) else mret 0);
    _ ← wput (add_trace (CompletionRoutine l, d, Context_ l));
    status ← completion (CompletionRoutine l) d Irp (Context_ l);
    mret (status =? STATUS_MORE_PROCESSING_REQUIRED)
  else
    _ ← (if PendingReturned i && (CurrentLocation i <=? StackCount i)
         then change_location Irp (IoGetCurrentIrpStackLocation i) IoMarkIrpPending else mret tt);
    mret false.

(** The loop, its advance done; [true]: it was left by the [return]. *)
Fixpoint complete_loop (fuel : nat) (Irp k : Z) : W world bool :=
  match fuel with
  | O => wlift (Err NoFuel)
  | S fuel =>
      i ← irp_at Irp;
      if CurrentLocation i >? StackCount i + 1 then mret false else
      stop ← complete_location Irp k;
      if stop : bool then mret true else
      k ← advance Irp;
      complete_loop fuel Irp k
  end.

Definition complete_fuel : nat := 258.

Definition IofCompleteRequest (Irp : Z) : W world unit :=
  i ← irp_at Irp;
  if CurrentLocation i >? StackCount i + 1
  then wlift (Err (BugChecked MULTIPLE_IRP_COMPLETE_REQUESTS)) else
  k ← advance Irp;
  stop ← complete_loop complete_fuel Irp k;
  if stop : bool then mret tt else
  i ← irp_at Irp;
  wput (add_unlocked (MdlAddress i)).

(** ** The library's own completion routines *)

Definition set_event (e : Z) : W world unit := wput (set_signalled <[e := true]>).

Definition DdkIrpCompletion (Irp context : Z) : W world Z :=
  _ ← set_event context;
  mret STATUS_MORE_PROCESSING_REQUIRED.

Definition DdkIoctlCompletion (Irp : Z) : W world Z :=
  i ← irp_at Irp;
  _ ← (if has (irp_Flags i) IRP_BUFFERED_IO
       then copy_memory (Z.to_nat (Information i)) (UserBuffer i) (SystemBuffer i) else mret tt);
  _ ← (if negb (UserIosb i =? 0) then wput (set_iosbs <[UserIosb i := (Status i, Information i)]>) else mret tt);
  _ ← (if negb (UserEvent i =? 0) then set_event (UserEvent i) else mret tt);
  _ ← wput (add_freed (take 1 (MdlAddress i)));
  _ ← IoFreeIrp Irp;
  mret STATUS_MORE_PROCESSING_REQUIRED.

(** ** Requests of the library *)

(** mdl.cpp, [IoAllocateMdl] with an IRP: [new] is the new MDL, 0 if there is no memory. *)
Definition IoAllocateMdl (new : Z) (SecondaryBuffer : bool) (Irp : Z) : W world Z :=
  if new =? 0 then mret 0 else
  _ ← change Irp (fun i => set_mdls (if SecondaryBuffer then MdlAddress i ++ [new] else [new]) i);
  mret new.

(** [new], [buffer], [mdl]: what the three allocations return. *)
Definition IoBuildDeviceIoControlRequest (new buffer mdl : Z) (IoControlCode d InputBuffer InputBufferLength
    OutputBuffer OutputBufferLength : Z) (InternalDeviceIoControl : bool) (Event IoStatusBlock routine : Z) : W world Z :=
  x ← device_at d;
  Irp ← IoAllocateIrp new (StackSize x);
  if Irp =? 0 then mret 0 else
  i ← irp_at Irp;
  let k := IoGetNextIrpStackLocation i in
  _ ← change_location Irp k (fun l => mkLocation
        (if InternalDeviceIoControl then IRP_MJ_INTERNAL_DEVICE_CONTROL else IRP_MJ_DEVICE_CONTROL) 0 (Flags l) (Control l)
        OutputBufferLength InputBufferLength IoControlCode (Argument4 l) d (FileObject l) (CompletionRoutine l) (Context_ l));
  let method := METHOD_FROM_CTL_CODE IoControlCode in
  let finish :=
    _ ← change Irp (set_user Event IoStatusBlock);
    _ ← change_location Irp k (IoSetCompletionRoutine routine 0 true true true);
    mret Irp in
  if method =? METHOD_BUFFERED then
    _ ← change Irp (fun i => set_buffers (irp_Flags i) buffer (UserBuffer i) i);
    if buffer =? 0 then (_ ← IoFreeIrp Irp; mret 0) else
    _ ← copy_memory (Z.to_nat InputBufferLength) buffer InputBuffer;
    _ ← change Irp (fun i => set_buffers (Z.lor (irp_Flags i) (Z.lor IRP_BUFFERED_IO IRP_DEALLOCATE_BUFFER))
          (SystemBuffer i) OutputBuffer i);
    finish
  else if (method =? METHOD_IN_DIRECT) || (method =? METHOD_OUT_DIRECT) then
    _ ← change Irp (fun i => set_buffers (Z.lor (irp_Flags i) IRP_BUFFERED_IO) InputBuffer (UserBuffer i) i);
    m ← IoAllocateMdl mdl false Irp;
    if m =? 0 then (_ ← IoFreeIrp Irp; mret 0) else finish
  else if method =? METHOD_NEITHER then
    _ ← change_location Irp k (fun l => mkLocation (MajorFunction l) (MinorFunction l) (Flags l) (Control l)
          (Argument1 l) (Argument2 l) (Argument3 l) InputBuffer (DeviceObject l) (FileObject l) (CompletionRoutine l)
          (Context_ l));
    _ ← change Irp (fun i => set_buffers (irp_Flags i) (SystemBuffer i) OutputBuffer i);
    finish
  else finish.

(** What [DdkSynchronousIrp] has come to when the driver has had its request: it returns,
    or it waits with the IRP still there. *)
Inductive issued := Returned (status : Z) | Waiting (Irp : Z).

(** [DdkSynchronousIrp] up to its wait.  [event]: the event on the stack of the call;
    [given]: the IRP of the caller, or 0; [routine]: where [DdkIrpCompletion] is. *)
Definition DdkSynchronousIrp_begin (new event routine irql d Major Minor given : Z) : W world issued :=
  x ← device_at d;
  Irp ← (if given =? 0 then IoAllocateIrp new (StackSize x) else mret given);
  if Irp =? 0 then mret (Returned STATUS_INSUFFICIENT_RESOURCES) else
  i ← irp_at Irp;
  let k := IoGetNextIrpStackLocation i in
  _ ← change_location Irp k (fun l => mkLocation Major Minor (Flags l) (Control l) (Argument1 l) (Argument2 l)
        (Argument3 l) (Argument4 l) (DeviceObject l) (FileObject l) (CompletionRoutine l) (Context_ l));
  _ ← wput (set_signalled <[event := false]>);
  _ ← change_location Irp k (IoSetCompletionRoutine routine event true true true);
  _ ← change Irp (set_status STATUS_SUCCESS 0);
  status ← IofCallDriver irql d Irp;
  if status =? STATUS_PENDING then mret (Waiting Irp) else
  _ ← IoFreeIrp Irp;
  mret (Returned status).

(** The wait, and what follows it: the call cannot go on while the event is not set. *)
Definition DdkSynchronousIrp_end (event Irp : Z) : W world Z :=
  s ← wget (fun w => default false (signalled w !! event));
  _ ← wwait (if s : bool then Some tt else None);
  i ← irp_at Irp;
  _ ← IoFreeIrp Irp;
  mret (Status i).
End irp.
