(* ===== verification/IrpSpec.v ===== *)
(** * IrpSpec: completing requests *)

From S2P Require Import Prelude Irp.

(** ** What the WDK's inline functions promise *)

Class WDKLaws `{WDK} := {
  size_location : 0 < sizeof_IO_STACK_LOCATION;
  size_irp n : IoSizeOfIrp n = sizeof_IRP + n * sizeof_IO_STACK_LOCATION;
  size_fits n : 0 <= n <= 127 -> 0 <= IoSizeOfIrp n < 2 ^ 16;
  set_next i : IoSetNextIrpStackLocation i = set_position (s8 (CurrentLocation i - 1)) (CurrentStackLocation i - 1) i;
  get_next i : IoGetNextIrpStackLocation i = CurrentStackLocation i - 1;
  get_current i : IoGetCurrentIrpStackLocation i = CurrentStackLocation i;
  set_routine r c s e k l : IoSetCompletionRoutine r c s e k l =
    mkLocation (MajorFunction l) (MinorFunction l) (Flags l)
      (Z.lor (if s then SL_INVOKE_ON_SUCCESS else 0) (Z.lor (if e then SL_INVOKE_ON_ERROR else 0)
        (if k then SL_INVOKE_ON_CANCEL else 0)))
      (Argument1 l) (Argument2 l) (Argument3 l) (Argument4 l) (DeviceObject l) (FileObject l) r c;
  mark_pending l : IoMarkIrpPending l =
    mkLocation (MajorFunction l) (MinorFunction l) (Flags l) (Z.lor (Control l) SL_PENDING_RETURNED)
      (Argument1 l) (Argument2 l) (Argument3 l) (Argument4 l) (DeviceObject l) (FileObject l) (CompletionRoutine l)
      (Context_ l);
  method_code code : METHOD_FROM_CTL_CODE code = Z.land code 3
}.

(** The laws can be met. *)
Definition wdk : WDK := {|
  sizeof_IRP := 0xD0;
  sizeof_IO_STACK_LOCATION := 0x48;
  IoSizeOfIrp n := 0xD0 + n * 0x48;
  IoSetNextIrpStackLocation i := set_position (s8 (CurrentLocation i - 1)) (CurrentStackLocation i - 1) i;
  IoGetNextIrpStackLocation i := CurrentStackLocation i - 1;
  IoGetCurrentIrpStackLocation i := CurrentStackLocation i;
  IoSetCompletionRoutine r c s e k l :=
    mkLocation (MajorFunction l) (MinorFunction l) (Flags l)
      (Z.lor (if s then SL_INVOKE_ON_SUCCESS else 0) (Z.lor (if e then SL_INVOKE_ON_ERROR else 0)
        (if k then SL_INVOKE_ON_CANCEL else 0)))
      (Argument1 l) (Argument2 l) (Argument3 l) (Argument4 l) (DeviceObject l) (FileObject l) r c;
  IoMarkIrpPending l :=
    mkLocation (MajorFunction l) (MinorFunction l) (Flags l) (Z.lor (Control l) SL_PENDING_RETURNED)
      (Argument1 l) (Argument2 l) (Argument3 l) (Argument4 l) (DeviceObject l) (FileObject l) (CompletionRoutine l)
      (Context_ l);
  METHOD_FROM_CTL_CODE code := Z.land code 3
|}.

Definition wdk_laws : @WDKLaws wdk.
Proof. split; try done. intros n Hn. simpl. lia. Defined.

(** ** The order of completion *)

(** What an IRP is completed with. *)
Record outcome := mkOutcome { o_status : Z; o_information : Z; o_cancel : bool; o_mdls : list Z }.

Definition outcome_of (i : IRP) : outcome := mkOutcome (Status i) (Information i) (Cancel i) (MdlAddress i).

(** Does a location want to know of the outcome? *)
Definition wants (l : IO_STACK_LOCATION) (o : outcome) : bool :=
  has (Control l) (if NT_SUCCESS (o_status o) then SL_INVOKE_ON_SUCCESS else SL_INVOKE_ON_ERROR)
  || (o_cancel o && has (Control l) SL_INVOKE_ON_CANCEL).

Section order.
(** By routine, device and context, and by the outcome so far: whether a completion
    routine keeps the IRP, and if not, the outcome it leaves. *)
Context (keeps : Z * Z * Z -> outcome -> bool) (effect : Z * Z * Z -> outcome -> outcome).

(** The completion routines to call for the locations [ls], from the current one up, each
    with the device of the location above it and its context, up to the first that keeps
    the IRP; whether there is one; and the outcome. *)
Fixpoint completed (ls : list IO_STACK_LOCATION) (o : outcome) : list (Z * Z * Z) * bool * outcome :=
  match ls with
  | [] => ([], false, o)
  | l :: ls =>
      if wants l o then
        let c := (CompletionRoutine l, match ls with u :: _ => DeviceObject u | [] => 0 end, Context_ l) in
        if keeps c o then ([c], true, o) else
        let '(cs, kept, o') := completed ls (effect c o) in (c :: cs, kept, o')
      else completed ls o
  end.
End order.

(** The same completion routine for the same outcomes. *)
Definition alike (l l' : IO_STACK_LOCATION) : Prop :=
  CompletionRoutine l' = CompletionRoutine l /\ Context_ l' = Context_ l /\ DeviceObject l' = DeviceObject l /\
  forall o, wants l' o = wants l o.

(** An IRP whose current location is number [k] from the bottom of its stack. *)
Record irp_wf (i : IRP) (k : Z) : Prop := {
  w_count : 0 <= StackCount i <= 126;
  w_stack : Z.of_nat (length (stack i)) = StackCount i;
  w_pos : CurrentStackLocation i = k;
  w_loc : CurrentLocation i = k + 1;
  w_range : 0 <= k <= StackCount i
}.

Section spec.
Context `{WDKLaws}.
Context (dispatch : Z -> Z -> Z -> Z -> W world Z).
Context (completion : Z -> Z -> Z -> Z -> W world Z).
Context (p : Z) (keeps : Z * Z * Z -> outcome -> bool) (effect : Z * Z * Z -> outcome -> outcome).

(** The completion routines return.  One that does not keep the IRP may change its outcome
    and mark its locations pending, but not its place in the stack, nor which routines
    are to be called; it completes nothing and unlocks nothing itself. *)
Definition routines_ok : Prop := forall r d c w i, irps w !! p = Some i ->
  exists status w', completion r d p c w = Ok (Some (status, w')) /\
    (status =? STATUS_MORE_PROCESSING_REQUIRED) = keeps (r, d, c) (outcome_of i) /\
    trace w' = trace w /\ unlocked w' = unlocked w /\
    (keeps (r, d, c) (outcome_of i) = false -> exists i', irps w' !! p = Some i' /\
      StackCount i' = StackCount i /\ CurrentStackLocation i' = CurrentStackLocation i /\
      CurrentLocation i' = CurrentLocation i /\ Forall2 alike (stack i) (stack i') /\
      outcome_of i' = effect (r, d, c) (outcome_of i)).

Lemma irp_at_run w i : irps w !! p = Some i -> irp_at p w = Ok (Some (i, w)).
Proof. unfold irp_at. by intros ->. Qed.

Lemma change_run w i f : irps w !! p = Some i -> change p f w = Ok (Some (tt, set_irps <[p := f i]> w)).
Proof. intros E. unfold change. by rewrite (wbind_run _ _ _ _ _ (irp_at_run w i E)). Qed.

Lemma location_run w i k l : irps w !! p = Some i -> 0 <= k -> stack i !! Z.to_nat k = Some l ->
  location_at p k w = Ok (Some (l, w)).
Proof.
  intros E Hk El. unfold location_at. rewrite (wbind_run _ _ _ _ _ (irp_at_run w i E)).
  apply lookup_lt_Some in El as Hlt. destruct (array_get_ok (stack i) k) as (l' & -> & El'); [lia |].
  simpl. congruence.
Qed.

Lemma change_location_run w i k l f : irps w !! p = Some i -> 0 <= k -> stack i !! Z.to_nat k = Some l ->
  change_location p k f w =
    Ok (Some (tt, set_irps <[p := set_stack (fun _ => <[Z.to_nat k := f l]> (stack i)) i]> w)).
Proof.
  intros E Hk El. unfold change_location. rewrite (wbind_run _ _ _ _ _ (irp_at_run w i E)).
  apply lookup_lt_Some in El as Hlt. destruct (array_get_ok (stack i) k) as (l' & Hg & El'); [lia |].
  assert (l' = l) as -> by congruence.
  rewrite (wbind_run _ _ w l w) by by rewrite Hg. rewrite (wbind_run _ _ w _ w) by by rewrite array_set_ok by lia.
  done.
Qed.

Lemma advance_run w i : irps w !! p = Some i ->
  advance p w = Ok (Some (CurrentStackLocation i,
    set_irps <[p := set_position (s8 (CurrentLocation i + 1)) (CurrentStackLocation i + 1) i]> w)).
Proof. intros E. unfold advance. by rewrite (wbind_run _ _ _ _ _ (irp_at_run w i E)). Qed.

Lemma s8_id z : - 2 ^ 7 <= z < 2 ^ 7 -> s8 z = z.
Proof. intros. unfold s8. rewrite Z.mod_small; lia. Qed.

(** Marking a location pending changes no call that is due. *)
Lemma has_pending c f : Z.land SL_PENDING_RETURNED f = 0 -> has (Z.lor c SL_PENDING_RETURNED) f = has c f.
Proof. intros E. unfold has. by rewrite Z.land_lor_distr_l, E, Z.lor_0_r. Qed.

Lemma alike_mark l : alike l (IoMarkIrpPending l).
Proof.
  rewrite mark_pending. repeat split; try done. intros o. unfold wants. cbn [Control].
  by destruct (NT_SUCCESS _); rewrite !has_pending.
Qed.

Lemma alike_refl l : alike l l.
Proof. by repeat split. Qed.

Lemma invokes_wants i l : invokes i (Control l) = wants l (outcome_of i).
Proof. unfold invokes, wants. simpl. by destruct (NT_SUCCESS (Status i)); simpl; rewrite ?orb_false_r. Qed.

Lemma completed_alike ls ls' : Forall2 alike ls ls' -> forall o, completed keeps effect ls' o = completed keeps effect ls o.
Proof.
  induction 1 as [| l l' ls ls' (E1 & E2 & E3 & Ew) Hls IH]; intros o; [done |]. simpl. rewrite Ew, E1, E2.
  replace (match ls' with u :: _ => DeviceObject u | [] => 0 end) with (match ls with u :: _ => DeviceObject u | [] => 0 end)
    by (destruct Hls as [| ? ? ? ? (_ & _ & E & _)]; congruence).
  by rewrite !IH.
Qed.

(** Before location [k] of [i] is completed, the advance done. *)
Record at_location (i : IRP) (k : Z) : Prop := {
  a_count : 0 <= StackCount i <= 125;
  a_stack : Z.of_nat (length (stack i)) = StackCount i;
  a_pos : CurrentStackLocation i = k + 1;
  a_loc : CurrentLocation i = k + 2;
  a_range : 0 <= k <= StackCount i
}.

(** After it: the location is cleared, the next one may be marked. *)
Definition passed (k : Z) (o : outcome) (i i' : IRP) : Prop :=
  StackCount i' = StackCount i /\ CurrentStackLocation i' = CurrentStackLocation i /\
  CurrentLocation i' = CurrentLocation i /\ outcome_of i' = o /\ length (stack i') = length (stack i) /\
  Forall2 alike (drop (Z.to_nat (k + 1)) (stack i)) (drop (Z.to_nat (k + 1)) (stack i')).

Lemma alike_same ls : Forall2 alike ls ls.
Proof. apply Forall_Forall2_diag, Forall_forall. intros l _. apply alike_refl. Qed.

Lemma complete_location_run w i k l : routines_ok -> irps w !! p = Some i -> at_location i k ->
  stack i !! Z.to_nat k = Some l ->
  let rest := drop (Z.to_nat (k + 1)) (stack i) in
  let call := (CompletionRoutine l, match rest with u :: _ => DeviceObject u | [] => 0 end, Context_ l) in
  let o := outcome_of i in
  exists w', complete_location completion p k w = Ok (Some (wants l o && keeps call o, w')) /\
    trace w' = trace w ++ (if wants l o then [call] else []) /\ unlocked w' = unlocked w /\
    (wants l o && keeps call o = false -> exists i', irps w' !! p = Some i' /\
      passed k (if wants l o then effect call o else o) i i').
Proof.
  intros Hr E [Hc Hs Hp Hl Hk] El rest call o.
  assert (Z.to_nat (k + 1) = S (Z.to_nat k)) as Hk1 by lia.
  unfold complete_location. rewrite (wbind_run _ _ _ _ _ (location_run w i k l E (proj1 Hk) El)).
  rewrite (wbind_run _ _ _ _ _ (change_run w i _ E)).
  set (i1 := set_pending (has (Control l) SL_PENDING_RETURNED) i). set (w1 := set_irps <[p := i1]> w).
  assert (irps w1 !! p = Some i1) as E1 by (simpl; by rewrite lookup_insert_eq).
  rewrite (wbind_run _ _ _ _ _ (change_location_run w1 i1 k l ClearStackLocation E1 (proj1 Hk) El)).
  set (i2 := set_stack (fun _ => <[Z.to_nat k := ClearStackLocation l]> (stack i1)) i1).
  set (w2 := set_irps <[p := i2]> w1).
  assert (irps w2 !! p = Some i2) as E2 by (simpl; by rewrite lookup_insert_eq).
  rewrite (wbind_run _ _ _ _ _ (irp_at_run w2 i2 E2)).
  rewrite invokes_wants. change (outcome_of i2) with o.
  change (CurrentLocation i2) with (CurrentLocation i). change (StackCount i2) with (StackCount i). rewrite Hl.
  assert (drop (Z.to_nat (k + 1)) (stack i2) = rest) as Hrest
    by (simpl; rewrite drop_insert_lt by lia; done).
  assert (match rest with
          | u :: _ => (k + 2 <=? StackCount i) = true /\ stack i2 !! Z.to_nat (k + 1) = Some u
          | [] => (k + 2 <=? StackCount i) = false
          end) as Hu.
  { destruct rest as [| u r] eqn:Er.
    - apply (f_equal length) in Er. unfold rest in Er. rewrite length_drop in Er. simpl in Er.
      apply Z.leb_gt. lia.
    - split; [| by rewrite <- (Nat.add_0_r (Z.to_nat (k + 1))), <- lookup_drop, Hrest].
      apply (f_equal length) in Er. unfold rest in Er. rewrite length_drop in Er. simpl in Er.
      apply Z.leb_le. lia. }
  assert (passed k o i i2) as Hpass.
  { repeat split; simpl; [by rewrite length_insert |]. rewrite drop_insert_lt by lia. apply alike_same. }
  destruct (wants l o) eqn:Ei; simpl.
  - set (d := match rest with u :: _ => DeviceObject u | [] => 0 end).
    rewrite (wbind_run _ _ w2 d w2).
    2: { unfold d. destruct rest as [| u r]; [by rewrite Hu |]. destruct Hu as [-> Hu]. rewrite get_current.
         change (CurrentStackLocation i2) with (CurrentStackLocation i). rewrite Hp.
         by rewrite (wbind_run _ _ _ _ _ (location_run w2 i2 (k + 1) u E2 ltac:(lia) Hu)). }
    rewrite (wbind_run _ _ w2 tt _ eq_refl).
    destruct (Hr (CompletionRoutine l) d (Context_ l) (add_trace call w2) i2) as (status & w' & Hc' & Hs' & Ht & Hul & Hi).
    { simpl. by rewrite lookup_insert_eq. }
    change (outcome_of i2) with o in *.
    rewrite (wbind_run _ _ _ _ _ Hc'). rewrite Hs'. exists w'. split; [done |]. split; [by rewrite Ht |].
    split; [by rewrite Hul |]. intros Hk'. destruct (Hi Hk') as (i' & Ei' & P1 & P2 & P3 & P4 & P5).
    exists i'. split; [done |]. do 4 (split; [done |]).
    split; [rewrite <- (Forall2_length _ _ _ P4); by apply length_insert |].
    fold rest. rewrite <- Hrest. by apply Forall2_drop.
  - destruct (has (Control l) SL_PENDING_RETURNED && (k + 2 <=? StackCount i)) eqn:Em.
    + apply andb_true_iff in Em as [_ Em]. destruct rest as [| u r] eqn:Er; [congruence |].
      destruct Hu as [_ Hu]. rewrite get_current. change (CurrentStackLocation i2) with (CurrentStackLocation i).
      rewrite Hp, (wbind_run _ _ _ _ _ (change_location_run w2 i2 (k + 1) u IoMarkIrpPending E2 ltac:(lia) Hu)).
      eexists. split; [done |]. split; [simpl; by rewrite app_nil_r |]. split; [done |]. intros _.
      eexists. split; [simpl; by rewrite lookup_insert_eq |]. do 4 (split; [done |]).
      split; [simpl; by rewrite !length_insert |].
      cbn [set_stack stack]. fold rest. rewrite drop_insert_ge, Nat.sub_diag by lia.
      change (<[Z.to_nat k := ClearStackLocation l]> (stack i)) with (stack i2). rewrite Hrest.
      change (<[0%nat := IoMarkIrpPending u]> (u :: r)) with (IoMarkIrpPending u :: r).
      rewrite Er. constructor; [apply alike_mark | apply alike_same].
    + eexists. split; [done |]. split; [simpl; by rewrite app_nil_r |]. split; [done |]. intros _. by exists i2.
Qed.

(** The loop from location [k], with fuel for the locations left. *)
Lemma complete_loop_run : routines_ok -> forall fuel w i k, irps w !! p = Some i -> at_location i k ->
  StackCount i - k < Z.of_nat fuel ->
  let '(calls, kept, o) := completed keeps effect (drop (Z.to_nat k) (stack i)) (outcome_of i) in
  exists w', complete_loop completion fuel p k w = Ok (Some (kept, w')) /\
    trace w' = trace w ++ calls /\ unlocked w' = unlocked w /\
    (kept = false -> exists i', irps w' !! p = Some i' /\
      CurrentLocation i' = StackCount i + 2 /\ StackCount i' = StackCount i /\ outcome_of i' = o).
Proof.
  intros Hr. induction fuel as [| fuel IH]; intros w i k E A Hf; [destruct A; lia |].
  pose proof A as [Hc Hs Hp Hl Hk]. cbn [complete_loop].
  destruct (Z.gtb_spec (k + 2) (StackCount i + 1)) as [Hgt | Hle].
  - assert (k = StackCount i) as -> by lia.
    rewrite drop_ge by lia. exists w. rewrite (wbind_run _ _ _ _ _ (irp_at_run w i E)), Hl.
    destruct (Z.gtb_spec (StackCount i + 2) (StackCount i + 1)); [| lia]. simpl. split; [done |].
    split; [by rewrite app_nil_r |]. split; [done |]. intros _. exists i. split; [done |]. split; [lia | done].
  - destruct (lookup_lt_is_Some_2 (stack i) (Z.to_nat k)) as [l El]; [lia |].
    destruct (complete_location_run w i k l Hr E A El) as (w1 & Hrun & Ht & Hul & Hi).
    rewrite (drop_S _ _ _ El). cbn [completed]. set (o := outcome_of i) in *.
    replace (S (Z.to_nat k)) with (Z.to_nat (k + 1)) by lia. set (rest := drop (Z.to_nat (k + 1)) (stack i)) in *.
    set (call := (CompletionRoutine l, match rest with u :: _ => DeviceObject u | [] => 0 end, Context_ l)) in *.
    assert (forall m : bool -> W world bool, (i ← irp_at p;
      if CurrentLocation i >? StackCount i + 1 then mret false else (stop ← complete_location completion p k; m stop)) w =
      m (wants l o && keeps call o) w1) as Hstep.
    { intros m. rewrite (wbind_run _ _ _ _ _ (irp_at_run w i E)), Hl.
      destruct (Z.gtb_spec (k + 2) (StackCount i + 1)); [lia |]. by rewrite (wbind_run _ _ _ _ _ Hrun). }
    destruct (wants l o && keeps call o) eqn:Ek.
    + apply andb_true_iff in Ek as [Ei Ek]. rewrite Ei in Ht |- *. rewrite Ek.
      exists w1. rewrite Hstep. by repeat split.
    + destruct (Hi eq_refl) as (i1 & E1 & P1 & P2 & P3 & P4 & Hlen & P5).
      rewrite Hstep. rewrite (wbind_run _ _ _ _ _ (advance_run w1 i1 E1)). rewrite P2, P3, Hp, Hl.
      set (i2 := set_position _ _ i1).
      set (w2 := set_irps <[p := i2]> w1).
      specialize (IH w2 i2 (k + 1)). destruct (completed keeps effect (drop (Z.to_nat (k + 1)) (stack i2)) (outcome_of i2)) as [[cs kept] o'] eqn:Ec.
      destruct IH as (w' & Hw' & Ht' & Hul' & Hi').
      { simpl. by rewrite lookup_insert_eq. }
      { split; simpl; rewrite ?P1, ?Hlen; try lia. rewrite s8_id by lia. lia. }
      { simpl. lia. }
      assert (completed keeps effect rest (if wants l o then effect call o else o) = (cs, kept, o')) as Ec'.
      { rewrite <- Ec. change (outcome_of i2) with (outcome_of i1). rewrite P4. symmetry. by apply completed_alike. }
      assert (StackCount i2 = StackCount i) as P1' by done.
      destruct (wants l o) eqn:Ew.
      * simpl in Ek. rewrite Ek, Ec'. exists w'. split; [done |]. split; [rewrite Ht'; change (trace w2) with (trace w1); by rewrite Ht, <- app_assoc |].
        split; [rewrite Hul'; exact Hul |]. intros Hn. destruct (Hi' Hn) as (i' & Ei' & Q1 & Q2 & Q3). exists i'.
        by rewrite Q1, Q2, P1'.
      * rewrite Ec'. exists w'. split; [done |]. split; [rewrite Ht'; change (trace w2) with (trace w1); by rewrite Ht, app_nil_r |].
        split; [rewrite Hul'; exact Hul |]. intros Hn. destruct (Hi' Hn) as (i' & Ei' & Q1 & Q2 & Q3). exists i'.
        by rewrite Q1, Q2, P1'.
Qed.

(** C6. Completing an IRP of up to 125 locations from location [k].

    The completion routines called are exactly those of the locations from [k] to the top
    that want to know of the IRP's outcome (success, error, cancelled) as the routines
    before have left it, in order, each with the device of the location above, 0 at the
    top, and its own context, up to and including the first that keeps the IRP.  If none
    keeps it, the IRP is past its last location with the outcome the routines have left,
    its MDLs at that time are unlocked, and completing it once more is a bug check; if
    one keeps it, nothing is unlocked. *)
Theorem IofCompleteRequest_spec w i k : routines_ok -> irps w !! p = Some i -> StackCount i <= 125 -> irp_wf i k ->
  let '(calls, kept, o) := completed keeps effect (drop (Z.to_nat k) (stack i)) (outcome_of i) in
  exists w', IofCompleteRequest completion p w = Ok (Some (tt, w')) /\ trace w' = trace w ++ calls /\
    unlocked w' = unlocked w ++ (if kept then [] else o_mdls o) /\
    (kept = false -> exists i', irps w' !! p = Some i' /\ outcome_of i' = o /\
      CurrentLocation i' = StackCount i + 2 /\
      IofCompleteRequest completion p w' = Err (BugChecked MULTIPLE_IRP_COMPLETE_REQUESTS)).
Proof.
  intros Hr E Hmax [Hc Hs Hp Hl Hk]. unfold IofCompleteRequest at 1.
  set (i1 := set_position (s8 (CurrentLocation i + 1)) (CurrentStackLocation i + 1) i). set (w1 := set_irps <[p := i1]> w).
  pose proof (complete_loop_run Hr complete_fuel w1 i1 k) as Hrun. change (outcome_of i1) with (outcome_of i) in Hrun.
  change (stack i1) with (stack i) in Hrun. destruct (completed _ _ _ _) as [[calls kept] o].
  destruct Hrun as (w' & Hw' & Ht & Hul & Hi).
  { simpl. by rewrite lookup_insert_eq. }
  { split; simpl; try lia. rewrite s8_id by lia. lia. }
  { simpl. unfold complete_fuel. lia. }
  assert (forall m : bool -> W world unit, (i ← irp_at p;
    if CurrentLocation i >? StackCount i + 1 then wlift (Err (BugChecked MULTIPLE_IRP_COMPLETE_REQUESTS)) else
    k ← advance p; stop ← complete_loop completion complete_fuel p k; m stop) w = m kept w') as Hstep.
  { intros m. rewrite (wbind_run _ _ _ _ _ (irp_at_run w i E)), Hl.
    destruct (Z.gtb_spec (k + 1) (StackCount i + 1)); [lia |].
    rewrite (wbind_run _ _ _ _ _ (advance_run w i E)). fold i1 w1. rewrite Hp. by rewrite (wbind_run _ _ _ _ _ Hw'). }
  rewrite Hstep. destruct kept.
  - exists w'. split; [done |]. split; [done |]. by rewrite app_nil_r.
  - destruct (Hi eq_refl) as (i' & Ei' & Q1 & Q2 & Q3). rewrite (wbind_run _ _ _ _ _ (irp_at_run w' i' Ei')).
    eexists. split; [done |]. split; [done |]. split; [simpl; rewrite Hul; by rewrite <- Q3 |]. intros _.
    exists i'. split; [done |]. split; [done |]. split; [by rewrite Q1 |]. unfold IofCompleteRequest.
    rewrite (wbind_run _ _ _ _ _ (irp_at_run (add_unlocked (MdlAddress i') w') i' Ei')), Q1, Q2.
    simpl. by destruct (Z.gtb_spec (StackCount i + 2) (StackCount i + 1)); [| lia].
Qed.
End spec.
