(* ===== verification/IrpRequests.v ===== *)
(** * IrpRequests: sending requests, and the requests the library builds *)

From S2P Require Import Prelude Irp IrpSpec.

Section requests.
Context `{WDKLaws}.
Context (dispatch completion : Z -> Z -> Z -> Z -> W world Z).

(** ** Sending *)

Definition sent (d : Z) (l : IO_STACK_LOCATION) : IO_STACK_LOCATION :=
  mkLocation (MajorFunction l) (MinorFunction l) (Flags l) (Control l) (Argument1 l) (Argument2 l) (Argument3 l)
    (Argument4 l) d (FileObject l) (CompletionRoutine l) (Context_ l).

Definition lowered (i : IRP) (k d : Z) (l : IO_STACK_LOCATION) : IRP :=
  set_stack (fun _ => <[Z.to_nat (k - 1) := sent d l]> (stack i)) (set_position k (k - 1) i).

Lemma device_at_run d (w : world) x : devices w !! d = Some x -> device_at d w = Ok (Some (x, w)).
Proof. unfold device_at. by intros ->. Qed.

Lemma set_irps_twice p i j w : set_irps <[p := j]> (set_irps <[p := i]> w) = set_irps <[p := j]> w.
Proof. unfold set_irps. simpl. by rewrite insert_insert_eq. Qed.

Lemma irps_set p i w : irps (set_irps <[p := i]> w) !! p = Some i.
Proof. simpl. by rewrite lookup_insert_eq. Qed.

(** [IofCallDriver] with a location left hands the IRP to the dispatch routine that
    the driver of the device has for the next location's major function, with that
    location now the current one and naming the device.  With none left the assertion,
    made before the step down, still holds, and the location written is outside the
    stack. *)
Theorem IofCallDriver_spec irql d p w i k x :
  irql <= DISPATCH_LEVEL -> irps w !! p = Some i -> irp_wf i k -> devices w !! d = Some x ->
  (0 < k -> exists l, stack i !! Z.to_nat (k - 1) = Some l /\
    IofCallDriver dispatch irql d p w =
      dispatch (DriverObject x) (MajorFunction l) d p (set_irps <[p := lowered i k d l]> w)) /\
  (k = 0 -> IofCallDriver dispatch irql d p w = Err (BadAccess (-1))).
Proof.
  intros Hirql E [Hc Hs Hp Hl Hk] Ed.
  assert (IofCallDriver dispatch irql d p w =
    (_ ← change_location p (k - 1) (sent d); l ← location_at p (k - 1); x ← device_at d;
     dispatch (DriverObject x) (MajorFunction l) d p) (set_irps <[p := set_position k (k - 1) i]> w)) as ->.
  { unfold IofCallDriver. rewrite (wbind_run _ _ w tt w) by by apply wassert_run, Z.leb_le.
    rewrite (wbind_run _ _ _ _ _ (irp_at_run p w i E)).
    rewrite (wbind_run _ _ w tt w) by (apply wassert_run; rewrite Hl; by destruct (Z.gtb_spec (k + 1) 0); [| lia]).
    rewrite (wbind_run _ _ _ _ _ (change_run p w i _ E)), set_next, Hp, Hl, Z.add_simpl_r, s8_id by lia.
    rewrite (wbind_run _ _ _ _ _ (irp_at_run p _ _ (irps_set p _ w))), get_current. done. }
  set (i1 := set_position k (k - 1) i). set (w1 := set_irps <[p := i1]> w). split.
  - intros Hpos. destruct (lookup_lt_is_Some_2 (stack i) (Z.to_nat (k - 1))) as [l El]; [lia |].
    exists l. split; [done |].
    rewrite (wbind_run _ _ _ _ _ (change_location_run p w1 i1 (k - 1) l (sent d) (irps_set p i1 w) ltac:(lia) El)).
    unfold w1. rewrite set_irps_twice. set (i2 := set_stack _ _).
    rewrite (wbind_run _ _ _ _ _ (location_run p (set_irps <[p := i2]> w) i2 (k - 1) (sent d l) (irps_set p i2 w)
      ltac:(lia) ltac:(simpl; rewrite list_lookup_insert_eq; [done | by eapply lookup_lt_Some]))).
    by rewrite (wbind_run _ _ _ _ _ (device_at_run d (set_irps <[p := i2]> w) x Ed)).
  - intros ->. apply wbind_err. unfold change_location.
    rewrite (wbind_run _ _ _ _ _ (irp_at_run p w1 i1 (irps_set p i1 w))). done.
Qed.

(** ** Copying *)

Definition mapped (w : world) (a : Z) (n : nat) : Prop := forall j, 0 <= j < Z.of_nat n -> is_Some (bytes w !! (a + j)).

(** [w'] is [w] but for the [n] bytes at [dst], which are those at [src]. *)
Definition copied (w w' : world) (dst src : Z) (n : nat) : Prop :=
  (forall j, 0 <= j < Z.of_nat n -> bytes w' !! (dst + j) = bytes w !! (src + j)) /\
  (forall a, a < dst \/ dst + Z.of_nat n <= a -> bytes w' !! a = bytes w !! a) /\
  w' = set_bytes (fun _ => bytes w') w.

Lemma copy_run n : forall w dst src, mapped w src n -> mapped w dst n ->
  (src + Z.of_nat n <= dst \/ dst + Z.of_nat n <= src) ->
  exists w', copy_memory n dst src w = Ok (Some (tt, w')) /\ copied w w' dst src n.
Proof.
  induction n as [| n IH]; intros w dst src Hs Hd Hdis.
  - exists w. split; [done |]. split; [lia |]. split; [done |]. by destruct w.
  - destruct (Hs 0) as [b Eb]; [lia |]. destruct (Hd 0) as [c Ec]; [lia |]. rewrite Z.add_0_r in Eb, Ec.
    set (w1 := set_bytes <[dst := b]> w).
    assert (forall a, bytes w1 !! a = if decide (a = dst) then Some b else bytes w !! a) as Hb1.
    { intros a. simpl. destruct (decide (a = dst)) as [-> |]; [by rewrite lookup_insert_eq | by rewrite lookup_insert_ne]. }
    destruct (IH w1 (dst + 1) (src + 1)) as (w' & Hr & Hc1 & Hc2 & Hc3); [| | lia |].
    { intros j Hj. rewrite Hb1. destruct (decide _); [done |]. destruct (Hs (1 + j)) as [? E]; [lia |].
      exists x. by rewrite <- E; f_equal; lia. }
    { intros j Hj. rewrite Hb1. destruct (decide _); [done |]. destruct (Hd (1 + j)) as [? E]; [lia |].
      exists x. by rewrite <- E; f_equal; lia. }
    exists w'. split; [| split; [| split]].
    + cbn [copy_memory]. rewrite (wbind_run _ _ w b w) by by rewrite Eb, Ec. exact Hr.
    + intros j Hj. destruct (decide (j = 0)) as [-> |].
      * rewrite !Z.add_0_r, Hc2, Hb1 by lia. by destruct (decide (dst = dst)).
      * replace (dst + j) with (dst + 1 + (j - 1)) by lia. rewrite Hc1, Hb1 by lia.
        destruct (decide _); [lia |]. f_equal. lia.
    + intros a Ha. rewrite Hc2, Hb1 by lia. destruct (decide _); [lia | done].
    + rewrite Hc3. done.
Qed.

(** ** Device controls *)

(** What [IoAllocateIrp] makes. *)
Definition fresh_irp (n : Z) : IRP :=
  mkIrp (IoSizeOfIrp n) n (n + 1) n 0 0 false false 0 0 0 0 0 [] (replicate (Z.to_nat n) blank).

Lemma allocate_run new n w : new <> 0 -> 1 <= n <= 125 ->
  IoAllocateIrp new n w = Ok (Some (new, set_irps <[new := fresh_irp n]> w)).
Proof.
  intros Hnew Hn. unfold IoAllocateIrp. apply Z.eqb_neq in Hnew as ->.
  pose proof (size_fits n ltac:(lia)) as Hfit. pose proof size_location.
  unfold IoInitializeIrp, u16. rewrite Z.mod_small by lia. unfold fresh_irp.
  replace (Z.quot (IoSizeOfIrp n - sizeof_IRP) sizeof_IO_STACK_LOCATION) with n.
  { rewrite s8_id by lia. done. }
  rewrite size_irp. replace (sizeof_IRP + n * sizeof_IO_STACK_LOCATION - sizeof_IRP) with (n * sizeof_IO_STACK_LOCATION) by lia.
  rewrite Z.quot_mul; lia.
Qed.

Lemma fresh_location n : 1 <= n -> stack (fresh_irp n) !! Z.to_nat (n - 1) = Some blank.
Proof. intros. simpl. apply lookup_replicate. split; [done | lia]. Qed.

(** The request as it is before the transfer method is looked at. *)
Definition request (n code d inl outl : Z) (int : bool) : IRP :=
  set_stack (fun _ => <[Z.to_nat (n - 1) := mkLocation
    (if int then IRP_MJ_INTERNAL_DEVICE_CONTROL else IRP_MJ_DEVICE_CONTROL) 0 0 0 outl inl code 0 d 0 0 0]>
    (replicate (Z.to_nat n) blank)) (fresh_irp n).

Lemma request_location n code d inl outl int : 1 <= n ->
  exists l, stack (request n code d inl outl int) !! Z.to_nat (n - 1) = Some l.
Proof.
  intros. eexists. simpl. rewrite list_lookup_insert_eq; [done |]. rewrite length_replicate. lia.
Qed.

(** The last statements of [IoBuildDeviceIoControlRequest]. *)
Lemma finish_run p w i k l ev iosb routine : irps w !! p = Some i -> 0 <= k -> stack i !! Z.to_nat k = Some l ->
  (_ ← change p (set_user ev iosb);
   _ ← change_location p k (IoSetCompletionRoutine routine 0 true true true);
   mret p : W world Z) w =
  Ok (Some (p, set_irps <[p := set_stack (fun _ => <[Z.to_nat k := IoSetCompletionRoutine routine 0 true true true l]>
    (stack i)) (set_user ev iosb i)]> w)).
Proof.
  intros E Hk El. rewrite (wbind_run _ _ _ _ _ (change_run p w i _ E)).
  rewrite (wbind_run _ _ _ _ _ (change_location_run p _ (set_user ev iosb i) k l _ (irps_set p _ w) Hk El)).
  by rewrite set_irps_twice.
Qed.

Lemma land_ior a b : Z.land a b = b -> forall c, Z.land (Z.lor c a) b = b.
Proof. intros E c. rewrite Z.land_lor_distr_l, E. apply Z.bits_inj'. intros j Hj. rewrite Z.lor_spec, Z.land_spec. by destruct (Z.testbit c j), (Z.testbit b j). Qed.

(** A device control with one of the direct methods gets the flag of a buffered one
    and no output buffer, so that [DdkIoctlCompletion], which copies the result of a
    buffered request to its output buffer, writes to address 0 as soon as the driver has
    returned a byte. *)
Theorem direct_ioctl_faults new buffer mdl code d inb inl outb outl int ev iosb routine w x :
  devices w !! d = Some x -> 1 <= StackSize x <= 125 -> new <> 0 -> mdl <> 0 ->
  Z.land code 3 = METHOD_IN_DIRECT \/ Z.land code 3 = METHOD_OUT_DIRECT ->
  exists w' i, IoBuildDeviceIoControlRequest new buffer mdl code d inb inl outb outl int ev iosb routine w =
      Ok (Some (new, w')) /\ irps w' !! new = Some i /\
    forall status n b, 0 < n -> bytes w' !! inb = Some b -> bytes w' !! 0 = None ->
      DdkIoctlCompletion new (set_irps <[new := set_status status n i]> w') = Err (BadAccess 0).
Proof.
  intros Ed Hs Hn Hm Hc. unfold IoBuildDeviceIoControlRequest.
  rewrite (wbind_run _ _ _ _ _ (device_at_run d w x Ed)).
  rewrite (wbind_run _ _ _ _ _ (allocate_run new (StackSize x) w Hn Hs)).
  apply Z.eqb_neq in Hn as ->. set (f := fresh_irp (StackSize x)). set (w1 := set_irps <[new := f]> w).
  rewrite (wbind_run _ _ _ _ _ (irp_at_run new w1 f (irps_set new f w))), get_next.
  change (CurrentStackLocation f) with (StackSize x).
  rewrite (wbind_run _ _ _ _ _ (change_location_run new w1 f (StackSize x - 1) blank _ (irps_set new f w) ltac:(lia)
    (fresh_location (StackSize x) (proj1 Hs)))).
  unfold w1. rewrite set_irps_twice. set (i2 := set_stack _ f). set (w2 := set_irps <[new := i2]> w).
  rewrite method_code. replace (Z.land code 3 =? METHOD_BUFFERED) with false by (destruct Hc as [-> | ->]; done).
  replace ((Z.land code 3 =? METHOD_IN_DIRECT) || (Z.land code 3 =? METHOD_OUT_DIRECT)) with true
    by (destruct Hc as [-> | ->]; done). cbv iota.
  rewrite (wbind_run _ _ _ _ _ (change_run new w2 i2 _ (irps_set new i2 w))). unfold w2. rewrite set_irps_twice.
  set (i3 := set_buffers _ _ _ i2). set (w3 := set_irps <[new := i3]> w).
  rewrite (wbind_run _ _ w3 mdl (set_irps <[new := set_mdls [mdl] i3]> w)).
  2: { unfold IoAllocateMdl. apply Z.eqb_neq in Hm as ->.
       rewrite (wbind_run _ _ _ _ _ (change_run new w3 i3 _ (irps_set new i3 w))). unfold w3. by rewrite set_irps_twice. }
  apply Z.eqb_neq in Hm as ->. set (i4 := set_mdls [mdl] i3).
  destruct (request_location (StackSize x) code d inl outl int) as [l El]; [lia |].
  rewrite (finish_run new (set_irps <[new := i4]> w) i4 (StackSize x - 1) l _ _ _ (irps_set new i4 w) ltac:(lia) El).
  rewrite set_irps_twice. eexists _, _. split; [done |]. split; [apply irps_set |].
  intros status n b Hpos Hb Hz. unfold DdkIoctlCompletion. rewrite set_irps_twice.
  match goal with |- context [set_irps <[new := ?i]> w] =>
    rewrite (wbind_run _ _ _ _ _ (irp_at_run new (set_irps <[new := i]> w) i (irps_set new i w))) end.
  apply wbind_err. cbn [irp_Flags Information UserBuffer SystemBuffer set_status set_stack set_user i4 set_mdls i3 set_buffers i2 f].
  replace (has _ IRP_BUFFERED_IO) with true by done.
  destruct (Z.to_nat n) as [| m] eqn:En; [lia |]. cbn [copy_memory]. apply wbind_err.
  simpl in *. by rewrite Hb, Hz.
Qed.

(** Completing a device control whose buffers do not overlap: the driver's result goes
    from the system buffer to the caller's buffer, the status block and the event are the
    caller's, the IRP is freed, and the completion stops there. *)
Theorem DdkIoctlCompletion_spec p w i :
  irps w !! p = Some i -> has (irp_Flags i) IRP_BUFFERED_IO = true -> 0 <= Information i ->
  mapped w (SystemBuffer i) (Z.to_nat (Information i)) -> mapped w (UserBuffer i) (Z.to_nat (Information i)) ->
  (SystemBuffer i + Information i <= UserBuffer i \/ UserBuffer i + Information i <= SystemBuffer i) ->
  exists w1 w', DdkIoctlCompletion p w = Ok (Some (STATUS_MORE_PROCESSING_REQUIRED, w')) /\
    copied w w1 (UserBuffer i) (SystemBuffer i) (Z.to_nat (Information i)) /\ bytes w' = bytes w1 /\
    irps w' !! p = None /\ freed w' = freed w ++ take 1 (MdlAddress i) /\
    (UserIosb i <> 0 -> iosbs w' !! UserIosb i = Some (Status i, Information i)) /\
    (UserEvent i <> 0 -> signalled w' !! UserEvent i = Some true).
Proof.
  intros E Hf Hn Hs Hu Hd. destruct (copy_run (Z.to_nat (Information i)) w (UserBuffer i) (SystemBuffer i) Hs Hu)
    as (w1 & Hr & Hc); [lia |]. pose proof Hc as (_ & _ & Hw1).
  assert (irps w1 !! p = Some i /\ freed w1 = freed w) as [E1 Ef1] by by rewrite Hw1.
  exists w1. unfold DdkIoctlCompletion. rewrite (wbind_run _ _ _ _ _ (irp_at_run p w i E)), Hf.
  rewrite (wbind_run _ _ _ _ _ Hr).
  destruct (Z.eqb_spec (UserIosb i) 0) as [Ei |], (Z.eqb_spec (UserEvent i) 0) as [Ee |]; simpl;
    unfold set_event, wput, IoFreeIrp, mbind, W_bind, mret, W_ret, irp_at; simpl; rewrite E1;
    (eexists; split; [done |]; split; [done |]; simpl; rewrite Ef1, lookup_delete_eq, ?lookup_insert_eq);
    repeat split; done.
Qed.

(** ** Synchronous requests *)

(** The IRP of a synchronous request when the dispatch routine sees it. *)
Definition synchronous (n d major minor routine event : Z) : IRP :=
  lowered (set_status STATUS_SUCCESS 0 (set_stack (fun _ => <[Z.to_nat (n - 1) :=
    IoSetCompletionRoutine routine event true true true (mkLocation major minor 0 0 0 0 0 0 0 0 0 0)]>
    (replicate (Z.to_nat n) blank)) (fresh_irp n))) n d
    (IoSetCompletionRoutine routine event true true true (mkLocation major minor 0 0 0 0 0 0 0 0 0 0)).

Lemma set_stack_twice p f g i w :
  set_irps <[p := set_stack f (set_stack g i)]> w = set_irps <[p := set_stack (fun l => f (g l)) i]> w.
Proof. done. Qed.

(** The completion routines of drivers, and the library's own at [routine]. *)
Definition with_own (routine r d Irp context : Z) : W world Z :=
  if r =? routine then DdkIrpCompletion Irp context else completion r d Irp context.

(** The IRP has the request's completion routine at the top of its stack, and whoever
    has it is there. *)
Record awaited (n routine event : Z) (i : IRP) : Prop := {
  aw_wf : irp_wf i (n - 1);
  aw_count : StackCount i = n;
  aw_routine : exists l, stack i !! Z.to_nat (n - 1) = Some l /\ CompletionRoutine l = routine /\
    Context_ l = event /\ forall o, wants l o = true
}.

Lemma wants_all l r c o : wants (IoSetCompletionRoutine r c true true true l) o = true.
Proof. rewrite set_routine. unfold wants. cbn [Control]. by destruct (NT_SUCCESS (o_status o)). Qed.

Lemma awaited_synchronous n d major minor routine ev : 1 <= n <= 125 -> awaited n routine ev (synchronous n d major minor routine ev).
Proof.
  intros Hn. assert (length (stack (synchronous n d major minor routine ev)) = Z.to_nat n) as Hlen.
  { simpl. by rewrite !length_insert, length_replicate. }
  split; [split; [simpl; lia | rewrite Hlen; simpl; lia | simpl; lia | simpl; lia | simpl; lia] | done |].
  eexists. split.
  - simpl. rewrite list_lookup_insert_eq; [done |]. rewrite !length_insert, length_replicate. lia.
  - rewrite set_routine. split; [done |]. split; [done |]. intros o.
    pose proof (wants_all (mkLocation major minor 0 0 0 0 0 0 0 0 0 0) routine ev o) as E. by rewrite set_routine in E.
Qed.

(** The location of the request is completed: its routine is the library's, and keeps
    the IRP. *)
Lemma complete_awaited_location n routine ev new w i l : irps w !! new = Some i -> CurrentLocation i = n + 1 ->
  StackCount i = n -> 1 <= n -> stack i !! Z.to_nat (n - 1) = Some l ->
  CompletionRoutine l = routine -> Context_ l = ev -> (forall o, wants l o = true) ->
  exists i', Status i' = Status i /\
    complete_location (with_own routine) new (n - 1) w =
      Ok (Some (true, set_signalled <[ev := true]> (add_trace (routine, 0, ev) (set_irps <[new := i']> w)))).
Proof.
  intros E Hl Hc Hn El Hr Hx Hw. unfold complete_location.
  rewrite (wbind_run _ _ _ _ _ (location_run new w i (n - 1) l E ltac:(lia) El)).
  rewrite (wbind_run _ _ _ _ _ (change_run new w i _ E)). set (i1 := set_pending _ i). set (w1 := set_irps <[new := i1]> w).
  rewrite (wbind_run _ _ _ _ _ (change_location_run new w1 i1 (n - 1) l ClearStackLocation (irps_set new i1 w) ltac:(lia) El)).
  unfold w1. rewrite set_irps_twice. set (i2 := set_stack _ i1). set (w2 := set_irps <[new := i2]> w).
  rewrite (wbind_run _ _ _ _ _ (irp_at_run new w2 i2 (irps_set new i2 w))). rewrite invokes_wants, Hw.
  change (CurrentLocation i2) with (CurrentLocation i). change (StackCount i2) with (StackCount i). rewrite Hl, Hc.
  destruct (Z.leb_spec (n + 1) n); [lia |].
  exists i2. split; [done |]. rewrite (wbind_run _ _ w2 0 w2 eq_refl), (wbind_run _ _ w2 tt _ eq_refl), Hr, Hx.
  unfold with_own at 1. rewrite Z.eqb_refl. done.
Qed.

(** The driver a synchronous request was sent to completes it. *)
Lemma complete_awaited n routine ev new w i : 1 <= n <= 125 -> irps w !! new = Some i -> awaited n routine ev i ->
  exists i', Status i' = Status i /\ IofCompleteRequest (with_own routine) new w =
    Ok (Some (tt, set_signalled <[ev := true]> (add_trace (routine, 0, ev) (set_irps <[new := i']> w)))).
Proof.
  intros Hn E [[Hc Hs Hp Hl Hk] Hcnt (l & El & Hr & Hx & Hw)].
  unfold IofCompleteRequest. rewrite (wbind_run _ _ _ _ _ (irp_at_run new w i E)), Hl.
  destruct (Z.gtb_spec (n - 1 + 1) (StackCount i + 1)); [lia |].
  rewrite (wbind_run _ _ _ _ _ (advance_run new w i E)). rewrite Hp, Hl, s8_id by lia.
  set (i1 := set_position _ _ i). set (w1 := set_irps <[new := i1]> w).
  destruct (complete_awaited_location n routine ev new w1 i1 l (irps_set new i1 w)) as (i' & Hst & Hrun);
    try done; [simpl; lia | lia |]. exists i'. split; [done |]. unfold w1 in Hrun. rewrite set_irps_twice in Hrun.
  rewrite (wbind_run _ _ w1 true (set_signalled <[ev := true]> (add_trace (routine, 0, ev) (set_irps <[new := i']> w))));
    [done |]. unfold complete_fuel. cbn [complete_loop].
  rewrite (wbind_run _ _ _ _ _ (irp_at_run new w1 i1 (irps_set new i1 w))).
  change (CurrentLocation i1) with (n - 1 + 1 + 1). change (StackCount i1) with (StackCount i).
  destruct (Z.gtb_spec (n - 1 + 1 + 1) (StackCount i + 1)); [lia |]. by rewrite (wbind_run _ _ _ _ _ Hrun).
Qed.

Lemma end_waits new ev (w : world) : signalled w !! ev <> Some true -> DdkSynchronousIrp_end ev new w = Ok None.
Proof.
  intros Hs. unfold DdkSynchronousIrp_end, wget, wwait, mbind, W_bind.
  by destruct (signalled w !! ev) as [[] |].
Qed.

Lemma end_returns new ev (w : world) i : signalled w !! ev = Some true -> irps w !! new = Some i ->
  DdkSynchronousIrp_end ev new w = Ok (Some (Status i, set_irps (delete new) w)).
Proof.
  intros Hs E. unfold DdkSynchronousIrp_end, wget, wwait, IoFreeIrp, wput, irp_at, mbind, W_bind, mret, W_ret.
  rewrite Hs. simpl. rewrite E. simpl. by rewrite E.
Qed.

(** Up to the wait. *)
Lemma begin_run new ev routine irql d major minor w x status w2 i2 :
  devices w !! d = Some x -> 1 <= StackSize x <= 125 -> new <> 0 -> irql <= DISPATCH_LEVEL ->
  dispatch (DriverObject x) major d new
    (set_irps <[new := synchronous (StackSize x) d major minor routine ev]> (set_signalled <[ev := false]> w)) =
    Ok (Some (status, w2)) ->
  irps w2 !! new = Some i2 ->
  DdkSynchronousIrp_begin dispatch new ev routine irql d major minor 0 w =
    Ok (Some (if status =? STATUS_PENDING then (Waiting new, w2) else (Returned status, set_irps (delete new) w2))).
Proof.
  intros Ed Hs Hn Hirql Hd Ei2. unfold DdkSynchronousIrp_begin. set (n := StackSize x) in *.
  rewrite (wbind_run _ _ _ _ _ (device_at_run d w x Ed)).
  rewrite (wbind_run _ _ _ _ _ (allocate_run new n w Hn Hs)).
  apply Z.eqb_neq in Hn as ->. set (f := fresh_irp n). set (w1 := set_irps <[new := f]> w).
  rewrite (wbind_run _ _ _ _ _ (irp_at_run new w1 f (irps_set new f w))), get_next.
  change (CurrentStackLocation f) with n.
  rewrite (wbind_run _ _ _ _ _ (change_location_run new w1 f (n - 1) blank _ (irps_set new f w) ltac:(lia)
    (fresh_location n (proj1 Hs)))).
  unfold w1. rewrite set_irps_twice. set (l := mkLocation major minor 0 0 0 0 0 0 0 0 0 0).
  change (mkLocation major minor _ _ _ _ _ _ _ _ _ _) with l.
  set (i3 := set_stack _ f). rewrite (wbind_run _ _ (set_irps <[new := i3]> w) tt _ eq_refl).
  set (w0 := set_signalled <[ev := false]> w).
  change (set_signalled <[ev := false]> (set_irps <[new := i3]> w)) with (set_irps <[new := i3]> w0).
  assert (stack i3 !! Z.to_nat (n - 1) = Some l) as El.
  { simpl. rewrite list_lookup_insert_eq; [done |]. rewrite length_replicate. lia. }
  rewrite (wbind_run _ _ _ _ _ (change_location_run new _ i3 (n - 1) l _ (irps_set new i3 w0) ltac:(lia) El)).
  rewrite set_irps_twice. set (i4 := set_stack _ i3).
  rewrite (wbind_run _ _ _ _ _ (change_run new _ i4 _ (irps_set new i4 w0))), set_irps_twice.
  set (i5 := set_status _ _ i4). set (l5 := IoSetCompletionRoutine routine ev true true true l) in *.
  assert (irp_wf i5 n) as Hwf.
  { split; simpl; try lia. rewrite !length_insert, length_replicate. lia. }
  destruct (proj1 (IofCallDriver_spec irql d new (set_irps <[new := i5]> w0) i5 n x Hirql (irps_set new i5 w0) Hwf Ed)
    ltac:(lia)) as (l' & El' & Hcall).
  assert (l' = l5) as ->.
  { simpl in El'. rewrite list_lookup_insert_eq in El'; [by injection El' |]. rewrite length_insert, length_replicate. lia. }
  rewrite set_irps_twice in Hcall.
  assert (lowered i5 n d l5 = synchronous n d major minor routine ev) as El5.
  { unfold lowered, synchronous, lowered. fold l l5. simpl. rewrite !list_insert_insert_eq.
    unfold i5, i4, i3, f, set_stack, set_position, set_status. done. }
  assert (MajorFunction l5 = major) as Em by by (unfold l5; rewrite set_routine).
  rewrite El5, Em in Hcall. fold w0 in Hd. rewrite Hd in Hcall. rewrite (wbind_run _ _ _ _ _ Hcall).
  destruct (status =? STATUS_PENDING); [done |]. unfold IoFreeIrp.
  rewrite (wbind_run _ _ w2 tt (set_irps (delete new) w2)); [done |].
  by rewrite (wbind_run _ _ _ _ _ (irp_at_run new w2 i2 Ei2)).
Qed.

(** C24. A synchronous request with an IRP of its own, to a device whose driver's dispatch
    routine leaves the IRP there.

    The dispatch routine is given the IRP with [DdkIrpCompletion] and the event of the
    call at the top of its stack.  If it returns a final status, the call frees the IRP
    and returns that status.  If it returns [STATUS_PENDING] the call waits with the IRP
    still there: whatever others do, it cannot go on while the event is not set; when
    the driver completes the IRP, [DdkIrpCompletion] is called, sets the event and keeps
    the IRP; and the call then returns the status of the IRP and frees it. *)
Theorem DdkSynchronousIrp_spec new ev routine irql d major minor w x status w2 i2 :
  devices w !! d = Some x -> 1 <= StackSize x <= 125 -> new <> 0 -> irql <= DISPATCH_LEVEL ->
  let i := synchronous (StackSize x) d major minor routine ev in
  dispatch (DriverObject x) major d new (set_irps <[new := i]> (set_signalled <[ev := false]> w)) =
    Ok (Some (status, w2)) ->
  irps w2 !! new = Some i2 ->
  awaited (StackSize x) routine ev i /\
  DdkSynchronousIrp_begin dispatch new ev routine irql d major minor 0 w =
    Ok (Some (if status =? STATUS_PENDING then (Waiting new, w2) else (Returned status, set_irps (delete new) w2))) /\
  (forall w3, signalled w3 !! ev <> Some true -> DdkSynchronousIrp_end ev new w3 = Ok None) /\
  (forall w3 i3, irps w3 !! new = Some i3 -> awaited (StackSize x) routine ev i3 ->
    exists w4, IofCompleteRequest (with_own routine) new w3 = Ok (Some (tt, w4)) /\
      trace w4 = trace w3 ++ [(routine, 0, ev)] /\ unlocked w4 = unlocked w3 /\
      signalled w4 = <[ev := true]> (signalled w3) /\ is_Some (irps w4 !! new) /\
      DdkSynchronousIrp_end ev new w4 = Ok (Some (Status i3, set_irps (delete new) w4))).
Proof.
  intros Ed Hs Hn Hirql i Hd Ei2. split; [by apply awaited_synchronous |]. split; [by eapply begin_run |].
  split; [intros w3; by apply end_waits |].
  intros w3 i3 E3 A3. destruct (complete_awaited _ routine ev new w3 i3 Hs E3 A3) as (i' & Hst & Hrun).
  eexists. split; [exact Hrun |]. do 3 (split; [done |]). split; [eexists; apply irps_set |].
  rewrite <- Hst. apply end_returns; [apply lookup_insert_eq | apply irps_set].
Qed.
End requests.
