(* ===== verification/IrpExamples.v ===== *)
(** * IrpExamples: the theorems on requests, at small worlds *)

From S2P Require Import Prelude Irp IrpSpec IrpRequests.

#[local] Instance demo_wdk : WDK := wdk.
#[local] Instance demo_wdk_laws : WDKLaws := wdk_laws.

(** A request at 10 through the devices 100 and 200, at its lowest location. *)
Definition low : IO_STACK_LOCATION := mkLocation 3 0 0 0xE0 0 0 0 0 100 0 5 1.
Definition high : IO_STACK_LOCATION := mkLocation 3 0 0 0x80 0 0 0 0 200 0 7 2.
Definition other : IO_STACK_LOCATION := mkLocation 3 0 0 0x80 0 0 0 0 200 0 9 2.

Definition demo_irp_of (l : IO_STACK_LOCATION) : IRP := mkIrp 0x160 2 1 0 0 0 false false 0 0 0 0 0 [77] [low; l].
Definition demo_irp : IRP := demo_irp_of high.

Definition demo_world_of (l : IO_STACK_LOCATION) : world :=
  mkWorld {[10 := demo_irp_of l]} {[100 := mkDevice 1 1000; 200 := mkDevice 2 1000]} ∅ ∅ ∅ [] [] [].
Definition demo_world : world := demo_world_of high.

(** Routine 5 makes the request fail and gives it one more MDL, routine 7 keeps the IRP. *)
Definition demo_routine (r d p c : Z) : W world Z :=
  _ ← (if r =? 5 then change p (fun i => set_mdls (MdlAddress i ++ [88]) (set_status 0xC0000001 0 i)) else mret tt);
  mret (if r =? 7 then STATUS_MORE_PROCESSING_REQUIRED else 0).

Definition demo_keeps (c : Z * Z * Z) (o : outcome) : bool := c.1.1 =? 7.

Definition demo_effect (c : Z * Z * Z) (o : outcome) : outcome :=
  if c.1.1 =? 5 then mkOutcome 0xC0000001 0 (o_cancel o) (o_mdls o ++ [88]) else o.

Lemma demo_routines p : routines_ok demo_routine p demo_keeps demo_effect.
Proof.
  intros r d c w i E. unfold demo_routine, demo_keeps, demo_effect. cbn [fst].
  destruct (Z.eqb_spec r 5) as [-> |].
  - rewrite (wbind_run _ _ _ _ _ (change_run p w i _ E)). do 2 eexists. split; [done |]. do 3 (split; [done |]).
    intros _. eexists. split; [simpl; by rewrite lookup_insert_eq |]. do 3 (split; [done |]).
    split; [apply alike_same | done].
  - do 2 eexists. split; [done |]. split; [by destruct (r =? 7) |]. do 2 (split; [done |]). intros _.
    exists i. do 4 (split; [done |]). split; [apply alike_same | done].
Qed.

(** Routine 5 is called for the success of the request and makes it fail; so routine 7,
    which is for failures, is called and keeps the IRP; in the other request routine 9
    is, and its two MDLs are unlocked. *)
Lemma IofCompleteRequest_spec_witness :
  (exists w', IofCompleteRequest demo_routine 10 demo_world = Ok (Some (tt, w')) /\
    trace w' = [(5, 200, 1); (7, 0, 2)] /\ unlocked w' = []) /\
  (exists w', IofCompleteRequest demo_routine 10 (demo_world_of other) = Ok (Some (tt, w')) /\
    trace w' = [(5, 200, 1); (9, 0, 2)] /\ unlocked w' = [77; 88] /\
    IofCompleteRequest demo_routine 10 w' = Err (BugChecked MULTIPLE_IRP_COMPLETE_REQUESTS)).
Proof.
  split.
  - destruct (IofCompleteRequest_spec demo_routine 10 demo_keeps demo_effect demo_world demo_irp 0 (demo_routines 10))
      as (w' & Hr & Ht & Hu & _); [done | simpl; lia | split; simpl; lia |]. by exists w'.
  - destruct (IofCompleteRequest_spec demo_routine 10 demo_keeps demo_effect (demo_world_of other) (demo_irp_of other) 0
      (demo_routines 10)) as (w' & Hr & Ht & Hu & Hk); [done | simpl; lia | split; simpl; lia |].
    exists w'. split; [exact Hr |]. split; [exact Ht |]. split; [exact Hu |]. by destruct (Hk eq_refl) as (i' & _ & _ & _ & E).
Defined.

Definition demo_sent : IRP := mkIrp 0x160 2 3 2 0 0 false false 0 0 0 0 0 [] [low; high].

Lemma IofCallDriver_spec_witness :
  IofCallDriver (fun _ major _ _ => mret major) 0 200 10 (set_irps <[10 := demo_sent]> demo_world) =
    Ok (Some (3, set_irps <[10 := lowered demo_sent 2 200 high]> (set_irps <[10 := demo_sent]> demo_world))) /\
  IofCallDriver (fun _ major _ _ => mret major) 0 200 10 demo_world = Err (BadAccess (-1)).
Proof.
  split.
  - destruct (proj1 (IofCallDriver_spec (fun _ major _ _ => mret major) 0 200 10
      (set_irps <[10 := demo_sent]> demo_world) demo_sent 2 (mkDevice 2 1000) ltac:(done) ltac:(done)
      ltac:(split; simpl; lia) ltac:(done)) ltac:(lia)) as (l & El & ->).
    injection El as <-. done.
  - by apply (IofCallDriver_spec (fun _ major _ _ => mret major) 0 200 10 demo_world demo_irp 0 (mkDevice 2 1000)
      ltac:(done) ltac:(done) ltac:(split; simpl; lia) ltac:(done)).
Defined.

Definition demo_bytes : gmap Z Z := list_to_map [(500, 1); (501, 2); (600, 0); (601, 0)].

Definition demo_buffers : world := set_bytes (fun _ => demo_bytes) demo_world.

Lemma direct_ioctl_faults_witness : exists w' i,
  IoBuildDeviceIoControlRequest 20 0 30 METHOD_IN_DIRECT 100 500 2 600 2 false 0 0 9 demo_buffers =
    Ok (Some (20, w')) /\
  DdkIoctlCompletion 20 (set_irps <[20 := set_status 0 1 i]> w') = Err (BadAccess 0).
Proof.
  destruct (direct_ioctl_faults 20 0 30 METHOD_IN_DIRECT 100 500 2 600 2 false 0 0 9 demo_buffers (mkDevice 1 1000))
    as (w' & i & Hr & Ei & Hc); [done | simpl; lia | done | done | by left |].
  exists w', i. split; [done |]. vm_compute in Hr. injection Hr as <-. by apply (Hc 0 1 1).
Defined.

Definition demo_buffered : IRP := mkIrp 0x118 1 3 2 0 2 false false 0x30 500 600 40 50 [] [low].

Lemma DdkIoctlCompletion_spec_witness : exists w1 w',
  DdkIoctlCompletion 20 (set_irps <[20 := demo_buffered]> demo_buffers) =
    Ok (Some (STATUS_MORE_PROCESSING_REQUIRED, w')) /\
  copied (set_irps <[20 := demo_buffered]> demo_buffers) w1 600 500 2 /\ bytes w' = bytes w1.
Proof.
  destruct (DdkIoctlCompletion_spec 20 (set_irps <[20 := demo_buffered]> demo_buffers) demo_buffered)
    as (w1 & w' & Hr & Hc & Hb & _).
  - done.
  - done.
  - simpl. lia.
  - intros j Hj. simpl in Hj. assert (j = 0 \/ j = 1) as [-> | ->] by lia; by eexists.
  - intros j Hj. simpl in Hj. assert (j = 0 \/ j = 1) as [-> | ->] by lia; by eexists.
  - simpl. lia.
  - by exists w1, w'.
Defined.

(** A dispatch routine that pends a request for device 100, and fails others. *)
Definition demo_dispatch (driver major d p : Z) : W world Z := mret (if major =? 27 then STATUS_PENDING else 0xC0000010).

Definition demo_pended : IRP := synchronous 1 100 27 0 8 60.

Definition demo_waiting : world := set_irps <[20 := demo_pended]> (set_signalled <[60 := false]> demo_world).

Lemma awaited_status n r ev s m i : awaited n r ev i -> awaited n r ev (set_status s m i).
Proof. intros [[] Hc Hl]. by split; [split | ..]. Qed.

(** The call waits; the driver completes the request with status 9, and it returns. *)
Lemma DdkSynchronousIrp_spec_witness :
  DdkSynchronousIrp_begin demo_dispatch 20 60 8 0 100 27 0 0 demo_world = Ok (Some (Waiting 20, demo_waiting)) /\
  DdkSynchronousIrp_end 60 20 demo_waiting = Ok None /\
  exists w4, IofCompleteRequest (with_own demo_routine 8) 20 (set_irps <[20 := set_status 9 0 demo_pended]> demo_waiting) =
      Ok (Some (tt, w4)) /\ trace w4 = [(8, 0, 60)] /\
    DdkSynchronousIrp_end 60 20 w4 = Ok (Some (9, set_irps (delete 20) w4)).
Proof.
  destruct (DdkSynchronousIrp_spec demo_dispatch demo_routine 20 60 8 0 100 27 0 demo_world (mkDevice 1 1000) STATUS_PENDING
    demo_waiting demo_pended) as (A & B & W & C); [done | simpl; lia | done | done | done | done |].
  split; [exact B |]. split; [by apply W |].
  destruct (C (set_irps <[20 := set_status 9 0 demo_pended]> demo_waiting) (set_status 9 0 demo_pended))
    as (w4 & E & T & _ & _ & _ & R); [done | by apply awaited_status |].
  exists w4. split; [exact E |]. split; [exact T | exact R].
Defined.

(** A request that fails at once. *)
Example synchronous_failed : exists w', 
  DdkSynchronousIrp_begin demo_dispatch 20 60 8 0 100 3 0 0 demo_world = Ok (Some (Returned 0xC0000010, w')) /\
  irps w' !! 20 = None.
Proof. eexists. split; [by vm_compute |]. by vm_compute. Qed.
