(* ===== verification/Device.v ===== *)
(** * Device: stacks of attached devices, and remove locks

    The parts of device.cpp about attachment and about remove locks.  The devices of a
    stack are linked both ways, by [AttachedDevice] upwards and by the [AttachedTo] of
    their extensions downwards; 0 is [NULL].  The references the calls take are recorded
    in [references].  A remove lock is used by any number of threads at once: its calls
    are modelled as steps, one access to the lock each. *)

From S2P Require Import Prelude Irp.

(** ** Attachment *)

Record devobj := mkDev {
  dev_StackSize : Z;
  AlignmentRequirement : Z;
  AttachedDevice : Z;
  AttachedTo : Z
}.

Record devstate := mkDevs { devs : gmap Z devobj; references : list Z }.

Definition DS := M devstate.

Definition dev_at (p : Z) : DS devobj := fun s =>
  match devs s !! p with Some d => Ok (d, s) | None => Err (BadAccess p) end.

Definition set_dev (p : Z) (f : devobj -> devobj) : DS unit :=
  d ← dev_at p;
  modify (fun s => mkDevs (<[p := f d]> (devs s)) (references s)).

Definition reference (p : Z) : DS unit :=
  _ ← dev_at p;
  modify (fun s => mkDevs (devs s) (references s ++ [p])).

(** [while (pDevice->AttachedDevice) pDevice = pDevice->AttachedDevice] *)
Fixpoint top_loop (fuel : nat) (p : Z) : DS Z :=
  match fuel with
  | O => fail NoFuel
  | S fuel =>
      d ← dev_at p;
      if AttachedDevice d =? 0 then mret p else top_loop fuel (AttachedDevice d)
  end.

(** The same downwards, by [AttachedTo]. *)
Fixpoint base_loop (fuel : nat) (p : Z) : DS Z :=
  match fuel with
  | O => fail NoFuel
  | S fuel =>
      d ← dev_at p;
      if AttachedTo d =? 0 then mret p else base_loop fuel (AttachedTo d)
  end.

(** A stack has no more devices than there are. *)
Definition stack_fuel : DS nat := s ← get; mret (size (devs s)).

Definition IoGetAttachedDevice (DeviceObject : Z) : DS Z :=
  fuel ← stack_fuel; top_loop fuel DeviceObject.

Definition IoGetAttachedDeviceReference (DeviceObject : Z) : DS Z :=
  p ← IoGetAttachedDevice DeviceObject; _ ← reference p; mret p.

Definition IoGetLowerDeviceObject (DeviceObject : Z) : DS Z :=
  d ← dev_at DeviceObject;
  _ ← (if negb (AttachedTo d =? 0) then reference (AttachedTo d) else mret tt);
  mret (AttachedTo d).

Definition IoGetDeviceAttachmentBaseRef (DeviceObject : Z) : DS Z :=
  fuel ← stack_fuel;
  p ← base_loop fuel DeviceObject;
  _ ← reference p;
  mret p.

(** The status, and [*AttachedToDeviceObject]. *)
Definition IoAttachDeviceToDeviceStackSafe (SourceDevice TargetDevice : Z) : DS (Z * Z) :=
  p ← IoGetAttachedDevice TargetDevice;
  d ← dev_at p;
  _ ← set_dev SourceDevice (fun x => mkDev (s8 (dev_StackSize d + 1)) (AlignmentRequirement d)
        (AttachedDevice x) (AttachedTo x));
  _ ← set_dev SourceDevice (fun x => mkDev (dev_StackSize x) (AlignmentRequirement x) (AttachedDevice x) p);
  _ ← set_dev p (fun x => mkDev (dev_StackSize x) (AlignmentRequirement x) SourceDevice (AttachedTo x));
  mret (STATUS_SUCCESS, p).

Definition IoAttachDeviceToDeviceStack (SourceDevice TargetDevice : Z) : DS Z :=
  '(status, p) ← IoAttachDeviceToDeviceStackSafe SourceDevice TargetDevice;
  mret (if NT_SUCCESS status then p else 0).

Definition IoAttachDeviceByPointer (SourceDevice TargetDevice : Z) : DS Z :=
  '(status, _) ← IoAttachDeviceToDeviceStackSafe SourceDevice TargetDevice;
  mret status.

Definition IoDetachDevice (TargetDevice : Z) : DS unit :=
  t ← dev_at TargetDevice;
  _ ← set_dev (AttachedDevice t) (fun x => mkDev (dev_StackSize x) (AlignmentRequirement x) (AttachedDevice x) 0);
  set_dev TargetDevice (fun x => mkDev (dev_StackSize x) (AlignmentRequirement x) 0 (AttachedTo x)).

(** ** Remove locks *)

(** Where [IoReleaseRemoveLockAndWaitEx] is. *)
Inductive remover :=
  | NoRemover
  | RemovedSet            (* [Removed] is set *)
  | FirstDecrement        (* the count of the initialisation is given back *)
  | Waiting
  | RemoveDone.

(** [entering], [refused], [signalling]: threads in [IoAcquireRemoveLockEx] or
    [IoReleaseRemoveLockEx] that have incremented, that have found the lock removed, that
    have reached 0 and are about to set the event. *)
Record remove_lock := mkLock {
  IoCount : Z;
  Removed : bool;
  RemoveEvent : bool;
  entering : nat;
  refused : nat;
  holders : nat;
  signalling : nat;
  removal : remover
}.

(** The debug block of a lock of [RemlockSize] bytes above [common]. *)
Record debug_block := mkDebug { AllocateTag : Z; HighWatermark : Z; MaxLockedTicks : Z }.

Definition IoInitializeRemoveLockEx (common TimeIncrement Tag MaxLockedMinutes Watermark RemlockSize : Z)
  : remove_lock * option debug_block :=
  (mkLock 1 false false 0 0 0 0 NoRemover,
   if RemlockSize >? common
   then Some (mkDebug Tag Watermark (s64 (Z.quot (MaxLockedMinutes * 600000000) TimeIncrement)))
   else None).

Inductive lock_label :=
  | Enter         (* [InterlockedIncrement] of an acquisition *)
  | Test          (* it reads [Removed] *)
  | Refuse        (* [InterlockedDecrement] of a refused one *)
  | Release       (* [InterlockedDecrement] of [IoReleaseRemoveLockEx] *)
  | Signal        (* [KeSetEvent] *)
  | StartRemove   (* a holder calls [IoReleaseRemoveLockAndWaitEx] *)
  | RemoveStep.

Definition decrement (l : remove_lock) (entering refused holders : nat) : remove_lock :=
  let n := s32 (IoCount l - 1) in
  mkLock n (Removed l) (RemoveEvent l) entering refused holders
    (if n =? 0 then S (signalling l) else signalling l) (removal l).

Definition lock_step (a : lock_label) (l : remove_lock) : option remove_lock :=
  match a with
  | Enter => Some (mkLock (s32 (IoCount l + 1)) (Removed l) (RemoveEvent l) (S (entering l)) (refused l) (holders l)
      (signalling l) (removal l))
  | Test =>
      match entering l with
      | O => None
      | S n => Some (if Removed l
          then mkLock (IoCount l) (Removed l) (RemoveEvent l) n (S (refused l)) (holders l) (signalling l) (removal l)
          else mkLock (IoCount l) (Removed l) (RemoveEvent l) n (refused l) (S (holders l)) (signalling l) (removal l))
      end
  | Refuse => match refused l with O => None | S n => Some (decrement l (entering l) n (holders l)) end
  | Release => match holders l with O => None | S n => Some (decrement l (entering l) (refused l) n) end
  | Signal =>
      match signalling l with
      | O => None
      | S n => Some (mkLock (IoCount l) (Removed l) true (entering l) (refused l) (holders l) n (removal l))
      end
  | StartRemove =>
      match removal l, holders l with
      | NoRemover, S n => Some (mkLock (IoCount l) true (RemoveEvent l) (entering l) (refused l) n (signalling l) RemovedSet)
      | _, _ => None
      end
  | RemoveStep =>
      match removal l with
      | RemovedSet => Some (mkLock (s32 (IoCount l - 1)) (Removed l) (RemoveEvent l) (entering l) (refused l) (holders l)
          (signalling l) FirstDecrement)
      | FirstDecrement =>
          let n := s32 (IoCount l - 1) in
          Some (mkLock n (Removed l) (RemoveEvent l) (entering l) (refused l) (holders l)
            (signalling l) (if n >? 0 then Waiting else RemoveDone))
      | Waiting =>
          if RemoveEvent l
          then Some (mkLock (IoCount l) (Removed l) (RemoveEvent l) (entering l) (refused l) (holders l)
            (signalling l) RemoveDone)
          else None
      | _ => None
      end
  end.

Fixpoint lock_steps (ls : list lock_label) (l : remove_lock) : option remove_lock :=
  match ls with
  | [] => Some l
  | a :: ls => l' ← lock_step a l; lock_steps ls l'
  end.
