(* ===== verification/DeviceSpec.v ===== *)
(** * DeviceSpec: what attachment and remove locks promise

    A stack of devices is [chain]: its devices from the bottom to the top, linked both
    ways.  The theorems on remove locks are by induction on the steps of any number of
    threads. *)

From S2P Require Import Prelude Irp Device.

(** ** Stacks *)

(** The devices of [ps] stand on [below], each linked with its neighbours; the last has
    [above] over it. *)
Fixpoint linked (m : gmap Z devobj) (below : Z) (ps : list Z) (above : Z) : Prop :=
  match ps with
  | [] => True
  | p :: ps =>
      p <> 0 /\
      (exists d, m !! p = Some d /\ AttachedTo d = below /\ AttachedDevice d = hd above ps) /\
      linked m p ps above
  end.

Definition chain (m : gmap Z devobj) (ps : list Z) : Prop := linked m 0 ps 0 /\ NoDup ps.

Definition get_dev (m : gmap Z devobj) (p : Z) : devobj := default (mkDev 0 0 0 0) (m !! p).

Lemma dev_at_run p s d : devs s !! p = Some d -> dev_at p s = Ok (d, s).
Proof. intros E. unfold dev_at. by rewrite E. Qed.

Lemma set_dev_run p f s d :
  devs s !! p = Some d -> set_dev p f s = Ok (tt, mkDevs (<[p := f d]> (devs s)) (references s)).
Proof. intros E. unfold set_dev. mrun. by rewrite (dev_at_run _ _ _ E). Qed.

Lemma reference_run p s :
  is_Some (devs s !! p) -> reference p s = Ok (tt, mkDevs (devs s) (references s ++ [p])).
Proof. intros [d E]. unfold reference. mrun. by rewrite (dev_at_run _ _ _ E). Qed.

Lemma linked_app m below ps p qs above :
  linked m below (ps ++ p :: qs) above <->
  linked m below (ps ++ [p]) (hd above qs) /\ linked m p qs above.
Proof.
  revert below. induction ps as [|q ps IH]; intros below; simpl.
  - naive_solver.
  - rewrite IH. assert (hd above (ps ++ p :: qs) = hd (hd above qs) (ps ++ [p])) as -> by by destruct ps.
    naive_solver.
Qed.

Lemma linked_live m below ps above p : linked m below ps above -> p ∈ ps -> is_Some (m !! p) /\ p <> 0.
Proof.
  revert below. induction ps as [|q ps IH]; intros below L Hp; [by apply not_elem_of_nil in Hp |].
  destruct L as (N & (d & E & _) & L). apply elem_of_cons in Hp as [-> | Hp]; eauto.
Qed.

(** Devices outside the list do not matter. *)
Lemma linked_insert m below ps above p d :
  p ∉ ps -> linked m below ps above -> linked (<[p := d]> m) below ps above.
Proof.
  revert below. induction ps as [|q ps IH]; intros below; simpl; [done |].
  rewrite not_elem_of_cons. intros [Hq Hp] (N & (e & E & A) & L).
  split_and!; [done | | by apply IH]. exists e. by rewrite lookup_insert_ne.
Qed.

Lemma linked_size m below ps above : linked m below ps above -> NoDup ps -> (length ps <= size m)%nat.
Proof.
  intros L ND. rewrite <- size_dom, <- (size_list_to_set (C := gset Z) ps ND).
  apply subseteq_size. intros p Hp. apply elem_of_list_to_set in Hp.
  apply elem_of_dom. by eapply linked_live.
Qed.

(** The last device of the list, and the first. *)
Lemma linked_last m below ps p above :
  linked m below (ps ++ [p]) above -> exists d, m !! p = Some d /\ AttachedDevice d = above.
Proof.
  revert below. induction ps as [|r ps IH]; intros below; simpl; [naive_solver |].
  intros (_ & _ & L). eauto.
Qed.

Lemma last_over (r below : Z) ps : List.last (r :: ps) below = List.last ps r.
Proof.
  revert r. induction ps as [|q ps IH]; intros r; [done |].
  change (List.last (q :: ps) below = List.last (q :: ps) r). rewrite (IH q). clear.
  revert q r. induction ps as [|p ps IH]; intros q r; [done |].
  change (List.last (p :: ps) q = List.last (p :: ps) r).
  destruct ps as [|p' ps]; [done |]. exact (IH q r).
Qed.

Lemma linked_prev m below ps p qs above :
  linked m below (ps ++ p :: qs) above ->
  exists d, m !! p = Some d /\ AttachedTo d = List.last ps below.
Proof.
  revert below. induction ps as [|r ps IH]; intros below; simpl; [naive_solver |].
  intros (_ & _ & L). destruct (IH _ L) as (d & E & A). exists d. split; [done |].
  rewrite A. symmetry. apply last_over.
Qed.

(** From any device of the list, [top_loop] ends at the last and [base_loop] at the first. *)
Lemma top_loop_run s below ps p qs fuel :
  linked (devs s) below (ps ++ p :: qs) 0 -> (length qs < fuel)%nat ->
  top_loop fuel p s = Ok (List.last (p :: qs) 0, s).
Proof.
  intros L. apply linked_app in L as [Lp Lq]. revert below ps p Lp Lq fuel.
  induction qs as [|q qs IH]; intros below ps p Lp Lq [|fuel] F; simpl in F; try lia.
  - destruct (linked_last _ _ _ _ _ Lp) as (d & E & A).
    simpl. mrun. by rewrite (dev_at_run _ _ _ E), A.
  - destruct (linked_last _ _ _ _ _ Lp) as (d & E & A). pose proof Lq as (Nq & Dq & Lq').
    simpl in A |- *. mrun. rewrite (dev_at_run _ _ _ E), A.
    rewrite (proj2 (Z.eqb_neq q 0)) by done. apply (IH p [] q); [done | done | lia].
Qed.

Lemma base_loop_run s ps p qs above fuel :
  linked (devs s) 0 (ps ++ p :: qs) above -> (length ps < fuel)%nat ->
  base_loop fuel p s = Ok (hd 0 (ps ++ [p]), s).
Proof.
  revert p qs fuel. induction ps as [|r ps IH] using rev_ind; intros p qs [|fuel] L F;
    rewrite ?length_app in F; simpl in F; try lia.
  - destruct L as (_ & (d & E & A & _) & _). simpl. mrun. by rewrite (dev_at_run _ _ _ E), A.
  - rewrite <- app_assoc in L. simpl in L. pose proof L as L'.
    apply linked_app in L' as [Lr (_ & (d & E & A & _) & _)].
    assert (r <> 0) as Nr.
    { apply (linked_live _ _ _ _ r L). rewrite elem_of_app, elem_of_cons. auto. }
    simpl. mrun. rewrite (dev_at_run _ _ _ E), A, (proj2 (Z.eqb_neq r 0)) by done.
    rewrite (IH r (p :: qs) fuel L) by lia. by destruct ps.
Qed.

Lemma IoGetAttachedDevice_run s ps p qs :
  chain (devs s) (ps ++ p :: qs) -> IoGetAttachedDevice p s = Ok (List.last (p :: qs) 0, s).
Proof.
  intros [L ND]. unfold IoGetAttachedDevice, stack_fuel.
  pose proof (linked_size _ _ _ _ L ND) as F. rewrite length_app in F. simpl in F.
  mrun. apply (top_loop_run s 0 ps p qs); [done | lia].
Qed.

(** From any device of a stack, [IoGetAttachedDevice] ends and gives the device at
    the top, and [IoGetDeviceAttachmentBaseRef] the one at the bottom, with a reference
    to it; [IoGetLowerDeviceObject] gives the device below, with a reference, and
    neither at the bottom.  None of them changes the stack. *)
Theorem attachment_ends s ps p qs (C : chain (devs s) (ps ++ p :: qs)) :
  IoGetAttachedDevice p s = Ok (List.last (p :: qs) 0, s) /\
  IoGetDeviceAttachmentBaseRef p s =
    Ok (hd 0 (ps ++ [p]), mkDevs (devs s) (references s ++ [hd 0 (ps ++ [p])])) /\
  IoGetLowerDeviceObject p s =
    Ok (List.last ps 0, mkDevs (devs s) (references s ++ if ps is [] then [] else [List.last ps 0])).
Proof.
  split; [by apply (IoGetAttachedDevice_run s ps) |]. destruct C as [L ND].
  pose proof (linked_size _ _ _ _ L ND) as F. rewrite length_app in F. simpl in F. split.
  - unfold IoGetDeviceAttachmentBaseRef, stack_fuel. mrun.
    rewrite (base_loop_run s ps p qs 0) by (done || lia).
    rewrite reference_run; [done |]. apply (linked_live _ _ _ _ _ L).
    destruct ps; simpl; set_solver.
  - destruct (linked_prev _ _ _ _ _ _ L) as (d & E & A).
    unfold IoGetLowerDeviceObject. mrun. rewrite (dev_at_run _ _ _ E), A.
    destruct ps as [|r ps' _] using rev_ind; [by rewrite app_nil_r; destruct s |].
    rewrite List.last_last. destruct (linked_live _ _ _ _ r L) as [I N]; [set_solver |].
    rewrite (proj2 (Z.eqb_neq r 0)) by done. simpl. rewrite reference_run by done.
    by destruct ps'.
Qed.

(** Putting [new] in the place of a device changes what is above it or below it. *)
Lemma linked_above m below ps p d above :
  linked m below (ps ++ [p]) (AttachedDevice d) -> m !! p = Some d -> p ∉ ps ->
  linked (<[p := mkDev (dev_StackSize d) (AlignmentRequirement d) above (AttachedTo d)]> m)
    below (ps ++ [p]) above.
Proof.
  revert below. induction ps as [|q ps IH]; intros below; simpl.
  - intros (N & (e & E & A & _) & _) F _. simplify_eq. split_and!; [done | | done].
    eexists. by rewrite lookup_insert_eq.
  - intros (N & (e & E & A & B) & L) F. rewrite not_elem_of_cons. intros [Hq Hp].
    split_and!; [done | | by apply IH]. exists e. rewrite lookup_insert_ne by done.
    split_and!; [done | done |]. rewrite B. by destruct ps.
Qed.

Lemma linked_below m below p ps d to sz al above :
  linked m below (p :: ps) above -> m !! p = Some d -> p ∉ ps ->
  linked (<[p := mkDev sz al (AttachedDevice d) to]> m) to (p :: ps) above.
Proof.
  simpl. intros (N & (e & E & A & B) & L) F Hp. simplify_eq. split_and!; [done | |].
  - eexists. by rewrite lookup_insert_eq.
  - by apply linked_insert.
Qed.

Lemma chain_join m bs top src rs d e sz al :
  chain m (bs ++ [top]) -> chain m (src :: rs) ->
  (forall x, x ∈ src :: rs -> x ∉ bs ++ [top]) -> m !! top = Some d -> m !! src = Some e ->
  chain (<[top := mkDev (dev_StackSize d) (AlignmentRequirement d) src (AttachedTo d)]>
          (<[src := mkDev sz al (AttachedDevice e) top]> m)) ((bs ++ [top]) ++ src :: rs).
Proof.
  intros [T NT] [SR NS] DISJ D E.
  assert (src ∉ bs ++ [top]) as Hsrc by (apply DISJ; left).
  assert (top ∉ src :: rs) as Htop.
  { intros Ht. apply (DISJ top Ht). apply elem_of_app. right. by left. }
  assert (top ∉ bs) as Hb by (apply NoDup_app in NT as (_ & NT & _); intros Hb; apply (NT top Hb); by left).
  split; [| apply NoDup_app; split_and!; [done | | done]; intros x Hx Hs; by apply (DISJ x)].
  destruct (linked_last _ _ _ _ _ T) as (d' & D' & A). simplify_eq.
  rewrite <- (assoc_L (++)). apply linked_app. split.
  - apply linked_above; [rewrite A | rewrite lookup_insert_ne by set_solver; done | done].
    by apply linked_insert.
  - apply linked_insert; [done |].
    eapply linked_below; [exact SR | done | by apply NoDup_cons in NS as []].
Qed.

(** [IoAttachDeviceToDeviceStackSafe] with any device of a stack as the target puts
    the source, with all that is attached to it, on the top of that stack, and returns
    the old top; the source gets the alignment of the old top and its [StackSize] plus
    one, in a [CCHAR].  No other device changes. *)
Theorem attach_joins s ps p qs src rs top d
    (T : chain (devs s) (ps ++ p :: qs)) (SRC : chain (devs s) (src :: rs))
    (DISJ : forall x, x ∈ src :: rs -> x ∉ ps ++ p :: qs)
    (TOP : List.last (p :: qs) 0 = top) (D : devs s !! top = Some d) :
  exists m, IoAttachDeviceToDeviceStackSafe src p s = Ok ((STATUS_SUCCESS, top), mkDevs m (references s)) /\
    chain m ((ps ++ p :: qs) ++ src :: rs) /\
    (forall e, m !! src = Some e ->
      dev_StackSize e = s8 (dev_StackSize d + 1) /\ AlignmentRequirement e = AlignmentRequirement d) /\
    (forall x, x <> src -> x <> top -> m !! x = devs s !! x).
Proof.
  destruct (exists_last (l := p :: qs)) as (ts & t & Q); [done |].
  assert (t = top) as -> by (rewrite Q, List.last_last in TOP; done).
  assert (ps ++ p :: qs = (ps ++ ts) ++ [top]) as J by (by rewrite Q, (assoc_L (++))).
  pose proof (IoGetAttachedDevice_run s ps p qs T) as R. rewrite TOP in R. rewrite J in T, DISJ |- *.
  pose proof SRC as [(_ & (e & E & _) & _) _].
  assert (src <> top) as Hne.
  { intros ->. apply (DISJ top); [by left | apply elem_of_app; right; by left]. }
  eexists. split; [| split; [apply (chain_join _ _ _ _ _ _ _ (s8 (dev_StackSize d + 1)) (AlignmentRequirement d) T SRC DISJ D E) | split]].
  - unfold IoAttachDeviceToDeviceStackSafe. mrun.
    rewrite R, (dev_at_run _ _ _ D), (set_dev_run _ _ _ _ E). simpl.
    erewrite set_dev_run by apply lookup_insert_eq. simpl. erewrite set_dev_run.
    2: { simpl. by rewrite !lookup_insert_ne by done. }
    simpl. rewrite insert_insert_eq. done.
  - intros e'. rewrite lookup_insert_ne, lookup_insert_eq by done. by intros [= <-].
  - intros x Hx Ht. by rewrite !lookup_insert_ne by done.
Qed.

(** [IoDetachDevice] of a device with others over it splits the stack: the device is
    the top of what is under them, and they are a stack of their own.  Attaching and
    detaching are inverse on the stacks. *)
Theorem detach_splits s ps p q qs (C : chain (devs s) (ps ++ p :: q :: qs)) :
  exists m, IoDetachDevice p s = Ok (tt, mkDevs m (references s)) /\
    chain m (ps ++ [p]) /\ chain m (q :: qs) /\
    (forall x, x <> p -> x <> q -> m !! x = devs s !! x).
Proof.
  destruct C as [L ND]. pose proof L as L'. apply linked_app in L' as [Lp Lq].
  replace (ps ++ p :: q :: qs) with ((ps ++ [p]) ++ q :: qs) in ND by by rewrite <- (assoc_L (++)).
  apply NoDup_app in ND as (NP & DISJ & NQ).
  destruct (linked_last _ _ _ _ _ Lp) as (d & D & A). simpl in A.
  pose proof Lq as (_ & (e & E & _) & _).
  assert (q ∉ ps ++ [p]) as Hq by (intros Hq; apply (DISJ q Hq); by left).
  assert (p ∉ q :: qs) as Hp by (apply DISJ, elem_of_app; right; by left).
  assert (q <> p) as Hne by (intros ->; apply Hp; by left).
  assert (p ∉ ps) as Hps by (apply NoDup_app in NP as (_ & NP & _); intros Hx; apply (NP p Hx); by left).
  eexists. split; [| split; [split; [| done] | split; [split; [| done] |]]].
  - unfold IoDetachDevice. mrun. rewrite (dev_at_run _ _ _ D), A, (set_dev_run _ _ _ _ E).
    erewrite set_dev_run; [done |]. simpl. by rewrite lookup_insert_ne.
  - simpl. apply linked_above; [| by rewrite lookup_insert_ne | done].
    rewrite A. by apply linked_insert.
  - cbn [devs]. apply linked_insert; [done |].
    eapply linked_below; [exact Lq | done | by apply NoDup_cons in NQ as []].
  - intros x Hx Hx'. simpl. by rewrite !lookup_insert_ne by done.
Qed.

(** ** Remove locks *)

(** What the initialisation and the remover still have in the count. *)
Definition base (r : remover) : Z :=
  match r with NoRemover => 1 | RemovedSet => 2 | FirstDecrement => 1 | Waiting | RemoveDone => 0 end.

Definition in_flight (l : remove_lock) : Z := Z.of_nat (entering l + refused l + holders l).

(** The states any number of threads get a lock to, in any order, as long as no more than
    [2 ^ 31 - 3] of them are in it at a time. *)
Inductive lock_reachable : remove_lock -> Prop :=
  | lock_start common TimeIncrement Tag Minutes Watermark Size :
      lock_reachable (fst (IoInitializeRemoveLockEx common TimeIncrement Tag Minutes Watermark Size))
  | lock_next a l l' :
      lock_reachable l -> lock_step a l = Some l' -> in_flight l' < 2 ^ 31 - 2 -> lock_reachable l'.

(** The event means that the count has been 0, so that nobody was left. *)
Record lock_inv (l : remove_lock) : Prop := {
  inv_count : IoCount l = base (removal l) + in_flight l;
  inv_bound : in_flight l < 2 ^ 31 - 2;
  inv_removed : Removed l = true <-> removal l <> NoRemover;
  inv_event : RemoveEvent l = true \/ (0 < signalling l)%nat -> base (removal l) = 0 /\ holders l = 0%nat;
  inv_done : removal l = RemoveDone -> holders l = 0%nat;
  inv_waiting : removal l = Waiting -> RemoveEvent l = true \/ (0 < signalling l)%nat \/ 0 < in_flight l
}.

Lemma lock_reachable_inv l : lock_reachable l -> lock_inv l.
Proof.
  induction 1 as [ | a l l' _ [C B R E D W] St B'].
  - split; unfold in_flight; simpl; try done; intuition (congruence || lia).
  - destruct l as [n rm ev en re ho si ph]. unfold in_flight in *; simpl in *. subst n.
    destruct ph, a; simpl in St; repeat (case_match; subst); try discriminate St;
      injection St as <-; unfold decrement in *; simpl in *;
      rewrite ?s32_id in * by lia; case_z;
      split; unfold in_flight; simpl; try rewrite s32_id by lia; try (intuition (congruence || lia)).
    all: rewrite Z.gtb_ltb in *; rewrite ?Z.ltb_lt, ?Z.ltb_ge in *; lia.
Qed.

(** After the removal nothing more is acquired. *)
Lemma step_removed a l l' :
  lock_step a l = Some l' -> Removed l = true -> holders l = 0%nat -> Removed l' = true /\ holders l' = 0%nat.
Proof.
  destruct l as [n rm ev en re ho si ph]. simpl. intros St -> ->.
  destruct ph, a; simpl in St; repeat (case_match; subst); simplify_eq; done.
Qed.

(** C7. When [IoReleaseRemoveLockAndWaitEx] has returned, no thread holds the lock, and
    none ever will again, whatever calls any number of threads make and however their
    accesses interleave. *)
Theorem remove_lock_safe l (L : lock_reachable l) (D : removal l = RemoveDone) :
  holders l = 0%nat /\ forall ls l', lock_steps ls l = Some l' -> holders l' = 0%nat.
Proof.
  destruct (lock_reachable_inv l L) as [_ _ R _ Z _].
  assert (Removed l = true) as T by (apply R; congruence). specialize (Z D). split; [done |].
  clear L D R. intros ls. revert l T Z. induction ls as [|a ls IH]; simpl; intros l T Z l' E; [congruence |].
  destruct (lock_step a l) as [k |] eqn:St; [| done].
  destruct (step_removed _ _ _ St T Z) as [T' Z']. exact (IH k T' Z' l' E).
Qed.

Definition work_left (l : remove_lock) : nat := 3 * entering l + 2 * refused l + 2 * holders l + signalling l.

Ltac goes label :=
  exists label; eexists; split; [done |]; split; [done |];
  split_and!; simpl; repeat case_match; (done || lia).

(** A waiting remover is woken or some thread in the lock can go on. *)
Lemma waiting_step l :
  lock_inv l -> removal l = Waiting ->
  RemoveEvent l = true \/
  exists a l', a <> Enter /\ lock_step a l = Some l' /\ in_flight l' <= in_flight l /\
    removal l' = Waiting /\ (work_left l' < work_left l)%nat.
Proof.
  destruct l as [n rm ev en re ho si ph]. intros [_ _ R _ _ W] P. unfold in_flight, work_left in *; simpl in *. subst.
  assert (rm = true) as -> by (by apply R). destruct (W eq_refl) as [-> | W']; [by left | right].
  destruct si as [|si]; [| goes Signal]. destruct en as [|en]; [| goes Test].
  destruct re as [|re]; [| goes Refuse]. destruct ho as [|ho]; [lia | goes Release].
Qed.

(** C31. No wakeup is lost: while [IoReleaseRemoveLockAndWaitEx] waits, the threads that
    are in the lock can always finish what they are doing, and when they have, in at
    most three accesses each, it returns. *)
Theorem remove_lock_progress l (L : lock_reachable l) (P : removal l = Waiting) :
  exists ls l', lock_steps ls l = Some l' /\ Enter ∉ ls /\ removal l' = RemoveDone /\
    Z.of_nat (length ls) <= 3 * in_flight l + Z.of_nat (signalling l) + 1.
Proof.
  assert (exists ls l', lock_steps ls l = Some l' /\ Enter ∉ ls /\ removal l' = RemoveDone /\
    (length ls <= work_left l + 1)%nat) as (ls & l' & Hs & He & Hd & Hl).
  { remember (work_left l) as w eqn:E. revert l L P E.
    induction w as [w IH] using lt_wf_ind. intros l L P ->. pose proof (lock_reachable_inv l L) as I.
    destruct (waiting_step l I P) as [W | (a & k & Na & St & B & Pk & M)].
    - exists [RemoveStep]. eexists. simpl. rewrite P, W. split; [done |]. split; [set_solver |].
      split; [done | simpl; lia].
    - destruct (IH (work_left k) M k) as (ls & l' & Hs & He & Hd & Hl); try done.
      { eapply lock_next; [done | done |]. destruct I. lia. }
      exists (a :: ls), l'. simpl. rewrite St. split; [done |]. split; [set_solver |]. split; [done | simpl; lia]. }
  exists ls, l'. repeat split; try done. unfold work_left, in_flight in *. lia.
Qed.

(** ** Examples *)

(** A driver's device over that of its bus, and a third one not attached. *)
Definition example_devs : devstate :=
  mkDevs (<[10 := mkDev 1 7 20 0]> (<[20 := mkDev 2 7 0 10]> (<[30 := mkDev 1 0 0 0]> ∅))) [].

Ltac chain_holds :=
  split; [repeat (split; [done || (eexists; split; [reflexivity | done]) |]); done
         | apply (bool_decide_unpack _); by vm_compute].

Lemma attachment_ends_witness :
  IoGetAttachedDevice 10 example_devs = Ok (20, example_devs) /\
  IoGetDeviceAttachmentBaseRef 10 example_devs = Ok (10, mkDevs (devs example_devs) [10]) /\
  IoGetLowerDeviceObject 10 example_devs = Ok (0, example_devs).
Proof. apply (attachment_ends example_devs [] 10 [20]). chain_holds. Defined.

Lemma attach_joins_witness :
  exists m, IoAttachDeviceToDeviceStackSafe 30 10 example_devs = Ok ((STATUS_SUCCESS, 20), mkDevs m []) /\
    chain m [10; 20; 30] /\
    (forall e, m !! 30 = Some e -> dev_StackSize e = 3 /\ AlignmentRequirement e = 7) /\
    (forall x, x <> 30 -> x <> 20 -> m !! x = devs example_devs !! x).
Proof.
  apply (attach_joins example_devs [] 10 [20] 30 [] 20 (mkDev 2 7 0 10)); [chain_holds | chain_holds | | done | done].
  intros x ->%list_elem_of_singleton. apply (bool_decide_unpack _). by vm_compute.
Defined.

Lemma detach_splits_witness :
  exists m, IoDetachDevice 10 example_devs = Ok (tt, mkDevs m []) /\
    chain m [10] /\ chain m [20] /\ (forall x, x <> 10 -> x <> 20 -> m !! x = devs example_devs !! x).
Proof. apply (detach_splits example_devs [] 10 20 []). chain_holds. Defined.

(** One thread acquires, a second one enters, the first removes; the second is refused. *)
Definition example_lock : remove_lock :=
  fst (IoInitializeRemoveLockEx 32 156250 0 0 0 32).

Lemma reachable_steps ls : forall l l',
  lock_reachable l -> lock_steps ls l = Some l' -> in_flight l + Z.of_nat (length ls) < 2 ^ 31 - 2 ->
  lock_reachable l'.
Proof.
  induction ls as [|a ls IH]; simpl; intros l l' L E B; [congruence |].
  destruct (lock_step a l) as [k |] eqn:St; [| done].
  assert (in_flight k <= in_flight l + 1).
  { destruct l as [n rm ev en re ho si ph]; unfold in_flight in *; destruct ph, a; simpl in *;
      repeat (case_match; subst); simplify_eq; simpl; lia. }
  apply (IH k l'); [eapply lock_next; [exact L | exact St | lia] | done | lia].
Qed.

Lemma remove_lock_safe_witness :
  exists l, lock_steps [Enter; Test; Enter; StartRemove; RemoveStep; RemoveStep; Test; Refuse; Signal; RemoveStep]
      example_lock = Some l /\ removal l = RemoveDone /\
    holders l = 0%nat /\ forall ls l', lock_steps ls l = Some l' -> holders l' = 0%nat.
Proof.
  exists (mkLock 0 true true 0 0 0 0 RemoveDone).
  split; [by vm_compute |]. split; [done |]. apply (remove_lock_safe (mkLock 0 true true 0 0 0 0 RemoveDone)); [| done].
  eapply (reachable_steps [Enter; Test; Enter; StartRemove; RemoveStep; RemoveStep; Test; Refuse; Signal; RemoveStep]);
    [exact (lock_start 32 156250 0 0 0 32) | by vm_compute | by vm_compute].
Defined.

Lemma remove_lock_progress_witness :
  exists l, lock_steps [Enter; Test; Enter; Test; StartRemove; RemoveStep; RemoveStep] example_lock = Some l /\
    removal l = Waiting /\
    exists ls l', lock_steps ls l = Some l' /\ Enter ∉ ls /\ removal l' = RemoveDone /\
      Z.of_nat (length ls) <= 4.
Proof.
  exists (mkLock 1 true false 0 0 1 0 Waiting).
  split; [by vm_compute |]. split; [done |].
  apply (remove_lock_progress (mkLock 1 true false 0 0 1 0 Waiting)); [| done].
  eapply (reachable_steps [Enter; Test; Enter; Test; StartRemove; RemoveStep; RemoveStep]);
    [exact (lock_start 32 156250 0 0 0 32) | by vm_compute | by vm_compute].
Defined.
