(* ===== verification/Detours.v ===== *)
(** * Detours: intercepting functions (detours.cpp)

    A detour redirects a function to a wrapper; the wrapper asks [DdkGetIntercept] which
    of the intercepts attached to the function is for the current thread.  Regions hold
    arrays of detours near the functions, and each detour a list of intercepts; both
    lists are linked in memory here as they are in the code, an address that is freed
    leaves the map, and a detour is named by its region and its index.

    The Detours library itself is the class [DETOURS]: its transactions, with a state of
    their own.  What [calloc] and [DetourAllocateRegionWithinJumpBounds] return are
    arguments.  [DdkAttachIntercept], [DdkDetachIntercept] and [DdkDetachAddressRange]
    run under one lock, and [DdkGetIntercept] under that of its detour, so each is one
    step. *)

From S2P Require Import Prelude.

(** ** Statuses *)

Definition NO_ERROR : Z := 0.
Definition ERROR_ACCESS_DENIED : Z := 5.
Definition ERROR_INVALID_HANDLE : Z := 6.
Definition ERROR_NOT_ENOUGH_MEMORY : Z := 8.
Definition ERROR_INVALID_BLOCK : Z := 9.
Definition ERROR_INVALID_DATA : Z := 13.
Definition ERROR_INVALID_OPERATION : Z := 4317.

Definition STATUS_UNSUCCESSFUL : Z := 0xC0000001.
Definition STATUS_ACCESS_DENIED : Z := 0xC0000022.
Definition STATUS_DATA_ERROR : Z := 0xC000003E.
Definition STATUS_INVALID_BLOCK_LENGTH : Z := 0xC0000173.
Definition STATUS_OPERATION_IN_PROGRESS : Z := 0xC0000476.

Definition DdkGetDetourStatus (rc : Z) : Z :=
  if rc =? NO_ERROR then STATUS_SUCCESS
  else if rc =? ERROR_INVALID_OPERATION then STATUS_OPERATION_IN_PROGRESS
  else if rc =? ERROR_ACCESS_DENIED then STATUS_ACCESS_DENIED
  else if rc =? ERROR_NOT_ENOUGH_MEMORY then STATUS_INSUFFICIENT_RESOURCES
  else if rc =? ERROR_INVALID_BLOCK then STATUS_INVALID_BLOCK_LENGTH
  else if rc =? ERROR_INVALID_HANDLE then STATUS_INVALID_HANDLE
  else if rc =? ERROR_INVALID_DATA then STATUS_DATA_ERROR
  else STATUS_UNSUCCESSFUL.

(** [NT_SUCCESS] of a status written as an unsigned number. *)
Definition succeeds (status : Z) : bool := status <? 2 ^ 31.

(** ** Data *)

(** [&region->detour[i]] *)
Definition detptr : Type := Z * Z.

Record INTERCEPT := mkIntercept {
  i_next : Z;
  i_detour : option detptr;
  intercept : Z;
  identity : Z;
  instance : Z;
  thread : Z
}.

Record DETOUR := mkDetour { region : Z; function : Z; trampoline : Z; intercepts : Z }.

Record REGION := mkRegion {
  r_next : Z;
  r_size : Z;
  refcount : Z;
  count : Z;
  freecount : Z;
  hwm : Z;
  detours : list DETOUR
}.

(** Of a 64-bit process. *)
Definition sizeof_DETOUR : Z := 56.
Definition sizeof_REGION : Z := 96.
Definition MAXIMUM_JUMP : Z := 0x80000000.

(** [DetourAttach] and [DetourDetach] get the value of the pointer they are passed the
    address of; [DetourTransactionCommit] says what it stores there. *)
Class DETOURS := {
  lib : Type;
  DetourTransactionBegin : lib -> Z * lib;
  DetourUpdateThread : Z -> lib -> Z * lib;
  DetourAttach : Z -> detptr -> lib -> Z * lib;
  DetourDetach : Z -> detptr -> lib -> Z * lib;
  DetourTransactionCommit : lib -> Z * option Z * lib;
  DetourTransactionAbort : lib -> lib
}.

Section detours.
Context `{DETOURS}.

(** [threads]: the handles of the threads there are; [realpointer]: of each thread. *)
Record state := mkState {
  regions : gmap Z REGION;
  regionlist : Z;
  entries : gmap Z INTERCEPT;
  threads : list Z;
  realpointer : gmap Z Z;
  library : lib
}.

Definition D := M state.

Definition set_regions f s := mkState (f (regions s)) (regionlist s) (entries s) (threads s) (realpointer s) (library s).
Definition set_list p s := mkState (regions s) p (entries s) (threads s) (realpointer s) (library s).
Definition set_entries f s := mkState (regions s) (regionlist s) (f (entries s)) (threads s) (realpointer s) (library s).
Definition set_real f s := mkState (regions s) (regionlist s) (entries s) (threads s) (f (realpointer s)) (library s).
Definition set_library l s := mkState (regions s) (regionlist s) (entries s) (threads s) (realpointer s) l.

(** A call of the library. *)
Definition call {A} (f : lib -> A * lib) : D A := fun s =>
  let '(a, l) := f (library s) in Ok (a, set_library l s).

Definition region_at (p : Z) : D REGION := fun s =>
  match regions s !! p with Some r => Ok (r, s) | None => Err (BadAccess p) end.

Definition change_region (p : Z) (f : REGION -> REGION) : D unit :=
  r ← region_at p; modify (set_regions <[p := f r]>).

Definition entry_at (p : Z) : D INTERCEPT := fun s =>
  match entries s !! p with Some e => Ok (e, s) | None => Err (BadAccess p) end.

Definition change_entry (p : Z) (f : INTERCEPT -> INTERCEPT) : D unit :=
  e ← entry_at p; modify (set_entries <[p := f e]>).

Definition detour_at (d : detptr) : D DETOUR :=
  r ← region_at d.1; lift (array_get (detours r) d.2).

Definition set_detours (l : list DETOUR) (r : REGION) : REGION :=
  mkRegion (r_next r) (r_size r) (refcount r) (count r) (freecount r) (hwm r) l.

Definition change_detour (d : detptr) (f : DETOUR -> DETOUR) : D unit :=
  r ← region_at d.1;
  x ← lift (array_get (detours r) d.2);
  l ← lift (array_set (detours r) d.2 (f x));
  modify (set_regions <[d.1 := set_detours l r]>).

Definition set_r_next n r := mkRegion n (r_size r) (refcount r) (count r) (freecount r) (hwm r) (detours r).
Definition set_refcount n r := mkRegion (r_next r) (r_size r) n (count r) (freecount r) (hwm r) (detours r).
Definition set_freecount n r := mkRegion (r_next r) (r_size r) (refcount r) (count r) n (hwm r) (detours r).
Definition set_hwm n r := mkRegion (r_next r) (r_size r) (refcount r) (count r) (freecount r) n (detours r).
Definition set_trampoline t d := mkDetour (region d) (function d) t (intercepts d).
Definition set_function f d := mkDetour (region d) f (trampoline d) (intercepts d).
Definition set_intercepts p d := mkDetour (region d) (function d) (trampoline d) p.
Definition set_i_next n e := mkIntercept n (i_detour e) (intercept e) (identity e) (instance e) (thread e).
Definition set_i_detour d e := mkIntercept (i_next e) d (intercept e) (identity e) (instance e) (thread e).

(** Loops over a list visit each of its elements once. *)
Definition region_fuel : D nat := s ← get; mret (S (size (regions s))).
Definition entry_fuel : D nat := s ← get; mret (S (size (entries s))).

(** ** Regions *)

Definition DdkIsRegionWithinJumpBounds (pRegion : Z) (r : REGION) (pFunction slack : Z) : bool :=
  let maxjump := u32 (MAXIMUM_JUMP - slack) in
  ((pFunction >=? pRegion) && (pFunction - pRegion <=? maxjump)) ||
  ((pRegion + r_size r >? pFunction) && (pRegion + r_size r - pFunction <=? maxjump)).

(** [*pp], for [pp = &regionlist] or the [next] of a region. *)
Definition read_pp (pp : option Z) : D Z :=
  match pp with None => s ← get; mret (regionlist s) | Some q => r ← region_at q; mret (r_next r) end.

Definition write_pp (pp : option Z) (v : Z) : D unit :=
  match pp with None => modify (set_list v) | Some q => change_region q (set_r_next v) end.

Fixpoint unlink_region (fuel : nat) (pp : option Z) (pRegion : Z) : D unit :=
  match fuel with
  | O => fail NoFuel
  | S fuel =>
      p ← read_pp pp;
      if p =? 0 then mret tt
      else if p =? pRegion then r ← region_at pRegion; write_pp pp (r_next r)
      else unlink_region fuel (Some p) pRegion
  end.

Definition DdkFreeRegion (pRegion : Z) : D unit :=
  if pRegion =? 0 then mret tt else
  r ← region_at pRegion;
  if negb (refcount r =? 0) || negb (freecount r =? count r) then mret tt else
  fuel ← region_fuel;
  _ ← unlink_region fuel None pRegion;
  modify (set_regions (delete pRegion)).

Definition DdkAddReference (pRegion : Z) : D unit :=
  change_region pRegion (fun r => set_refcount (u32 (refcount r + 1)) r).

Definition DdkDeleteReference (pRegion : Z) : D unit :=
  _ ← change_region pRegion (fun r => set_refcount (u32 (refcount r - 1)) r);
  DdkFreeRegion pRegion.

(** [alloc]: the address and size of the memory near the function, which holds zeros. *)
Definition DdkAllocateRegion (alloc : Z * Z) : D (Z * Z) :=
  let '(pRegion, size) := alloc in
  if (pRegion =? 0) || (size <? sizeof_REGION) then mret (STATUS_INSUFFICIENT_RESOURCES, 0) else
  let n := u64 ((size - sizeof_REGION) / sizeof_DETOUR + 1) in
  s ← get;
  _ ← modify (set_regions <[pRegion :=
        mkRegion (regionlist s) size 0 n n 0 (replicate (Z.to_nat n) (mkDetour pRegion 0 0 0))]>);
  _ ← modify (set_list pRegion);
  mret (STATUS_SUCCESS, pRegion).

(** ** Detours *)

Fixpoint invoke_loop (hs : list Z) : D Z :=
  match hs with
  | [] => mret NO_ERROR
  | h :: hs =>
      rc ← call (DetourUpdateThread h);
      if negb (rc =? NO_ERROR) then mret rc else invoke_loop hs
  end.

(** [DdkInvokeForAllThreads(DetourUpdateThread)] *)
Definition DdkInvokeForAllThreads : D Z := s ← get; invoke_loop (threads s).

Definition abort (rc : Z) : D Z :=
  _ ← call (fun l => (tt, DetourTransactionAbort l)); mret (DdkGetDetourStatus rc).

Definition DdkUpdateDetour (d : detptr) (enable : bool) : D Z :=
  rc ← call DetourTransactionBegin;
  if negb (rc =? NO_ERROR) then mret (DdkGetDetourStatus rc) else
  rc ← DdkInvokeForAllThreads;
  if negb (rc =? NO_ERROR) then abort rc else
  x ← detour_at d;
  rc ← call ((if enable then DetourAttach else DetourDetach) (trampoline x) d);
  if negb (rc =? NO_ERROR) then abort rc else
  '(rc, stored) ← call DetourTransactionCommit;
  _ ← (match stored with Some t => change_detour d (set_trampoline t) | None => mret tt end);
  mret (DdkGetDetourStatus rc).

Definition DdkAttachDetour (pDetour : option detptr) : D Z :=
  match pDetour with
  | None => mret STATUS_SUCCESS
  | Some d =>
      x ← detour_at d;
      if negb (trampoline x =? 0) then mret STATUS_SUCCESS else
      _ ← change_detour d (fun x => set_trampoline (function x) x);
      status ← DdkUpdateDetour d true;
      _ ← (if succeeds status then mret tt else change_detour d (set_trampoline 0));
      mret status
  end.

Definition DdkDetachDetour (pDetour : option detptr) : D Z :=
  match pDetour with
  | None => mret STATUS_SUCCESS
  | Some d =>
      x ← detour_at d;
      if trampoline x =? 0 then mret STATUS_SUCCESS else
      status ← DdkUpdateDetour d false;
      _ ← (if succeeds status then change_detour d (set_trampoline 0) else mret tt);
      mret status
  end.

(** [for (; hwm; hwm--) if (detour[hwm - 1].function) break;] *)
Fixpoint lower_hwm (fuel : nat) (pRegion : Z) : D unit :=
  match fuel with
  | O => fail NoFuel
  | S fuel =>
      r ← region_at pRegion;
      if hwm r =? 0 then mret tt else
      x ← detour_at (pRegion, hwm r - 1);
      if negb (function x =? 0) then mret tt else
      _ ← change_region pRegion (fun r => set_hwm (hwm r - 1) r);
      lower_hwm fuel pRegion
  end.

Definition DdkFreeDetour (pDetour : option detptr) : D Z :=
  match pDetour with
  | None => mret STATUS_SUCCESS
  | Some d =>
      x ← detour_at d;
      if negb (intercepts x =? 0) then mret STATUS_SUCCESS else
      let pRegion := region x in
      status ← DdkDetachDetour (Some d);
      x ← detour_at d;
      _ ← (if (trampoline x =? 0) && negb (function x =? 0) then
             _ ← change_detour d (set_function 0);
             change_region pRegion (fun r => set_freecount (u64 (freecount r + 1)) r)
           else mret tt);
      r ← region_at pRegion;
      _ ← lower_hwm (S (Z.to_nat (hwm r))) pRegion;
      _ ← DdkFreeRegion pRegion;
      mret status
  end.

(** The index of the first detour from [i] on, of the [n] there are, that has [function]. *)
Fixpoint scan (n : nat) (l : list DETOUR) (i f : Z) : result (option Z) :=
  match n with
  | O => Ok None
  | S n => x ← array_get l i; if function x =? f then Ok (Some i) else scan n l (i + 1) f
  end.

Fixpoint find_loop (fuel : nat) (pRegion pFunction : Z) : D (option detptr) :=
  match fuel with
  | O => fail NoFuel
  | S fuel =>
      if pRegion =? 0 then mret None else
      r ← region_at pRegion;
      if negb (DdkIsRegionWithinJumpBounds pRegion r pFunction 0) then find_loop fuel (r_next r) pFunction else
      i ← lift (scan (Z.to_nat (hwm r)) (detours r) 0 pFunction);
      match i with
      | Some i => mret (Some (pRegion, i))
      | None => find_loop fuel (r_next r) pFunction
      end
  end.

Definition DdkFindDetour (pFunction : Z) : D (option detptr) :=
  fuel ← region_fuel; s ← get; find_loop fuel (regionlist s) pFunction.

(** The first region that has a free detour near the function, or 0. *)
Fixpoint pick_loop (fuel : nat) (pRegion pFunction : Z) : D Z :=
  match fuel with
  | O => fail NoFuel
  | S fuel =>
      if pRegion =? 0 then mret 0 else
      r ← region_at pRegion;
      if negb (freecount r =? 0) && DdkIsRegionWithinJumpBounds pRegion r pFunction 0x100
      then mret pRegion else pick_loop fuel (r_next r) pFunction
  end.

Definition DdkAllocateDetour (alloc : Z * Z) (pFunction : Z) : D (Z * option detptr) :=
  fuel ← region_fuel;
  s ← get;
  pRegion ← pick_loop fuel (regionlist s) pFunction;
  '(status, pRegion) ← (if pRegion =? 0 then DdkAllocateRegion alloc else mret (STATUS_SUCCESS, pRegion));
  if negb (succeeds status) then mret (status, None) else
  r ← region_at pRegion;
  i ← lift (scan (Z.to_nat (count r)) (detours r) 0 0);
  match i with
  | None => fail (DdkFailed "Region has no free detours")
  | Some i =>
      _ ← (if i >=? hwm r then change_region pRegion (set_hwm (i + 1)) else mret tt);
      let d := (pRegion, i) in
      _ ← change_detour d (fun x => mkDetour (region x) pFunction 0 0);
      _ ← change_region pRegion (fun r => set_freecount (u64 (freecount r - 1)) r);
      status ← DdkAttachDetour (Some d);
      if negb (succeeds status) then _ ← DdkFreeDetour (Some d); mret (status, None)
      else mret (STATUS_SUCCESS, Some d)
  end.

(** ** Intercepts *)

(** [new]: what [calloc] returns, 0 if there is no memory. *)
Definition DdkAllocateIntercept (new pIntercept pIdentity pInstance pThread : Z) : D (Z * Z) :=
  if new =? 0 then mret (STATUS_INSUFFICIENT_RESOURCES, 0) else
  _ ← modify (set_entries <[new := mkIntercept 0 None pIntercept pIdentity pInstance pThread]>);
  mret (STATUS_SUCCESS, new).

(** [*epp], for [epp = &pDetour->intercepts] or the [next] of an entry. *)
Definition read_epp (d : detptr) (epp : option Z) : D Z :=
  match epp with None => x ← detour_at d; mret (intercepts x) | Some q => e ← entry_at q; mret (i_next e) end.

Definition write_epp (d : detptr) (epp : option Z) (v : Z) : D unit :=
  match epp with None => change_detour d (set_intercepts v) | Some q => change_entry q (set_i_next v) end.

Fixpoint unlink_entry (fuel : nat) (d : detptr) (epp : option Z) (pEntry : Z) : D unit :=
  match fuel with
  | O => fail NoFuel
  | S fuel =>
      p ← read_epp d epp;
      if p =? 0 then mret tt
      else if p =? pEntry then
        e ← entry_at pEntry;
        _ ← write_epp d epp (i_next e);
        change_entry pEntry (set_i_next 0)
      else unlink_entry fuel d (Some p) pEntry
  end.

Definition DdkFreeIntercept (pEntry : Z) : D Z :=
  if pEntry =? 0 then mret STATUS_SUCCESS else
  e ← entry_at pEntry;
  status ← (match i_detour e with
            | None => mret STATUS_SUCCESS
            | Some d =>
                fuel ← entry_fuel;
                _ ← unlink_entry fuel d None pEntry;
                DdkFreeDetour (Some d)
            end);
  _ ← modify (set_entries (delete pEntry));
  mret status.

Definition DdkAttachIntercept (new : Z) (alloc : Z * Z) (pFunction pIntercept pIdentity pInstance pThread : Z) : D Z :=
  if (pFunction =? 0) || (pIntercept =? 0) then mret STATUS_INVALID_PARAMETER else
  '(status, pEntry) ← DdkAllocateIntercept new pIntercept pIdentity pInstance pThread;
  if negb (succeeds status) then mret status else
  pDetour ← DdkFindDetour pFunction;
  '(status, pDetour) ← (match pDetour with
                        | None => DdkAllocateDetour alloc pFunction
                        | Some d => mret (STATUS_SUCCESS, Some d)
                        end);
  match pDetour with
  | None => _ ← DdkFreeIntercept pEntry; mret status
  | Some d =>
      _ ← change_entry pEntry (set_i_detour (Some d));
      x ← detour_at d;
      _ ← change_entry pEntry (set_i_next (intercepts x));
      _ ← change_detour d (set_intercepts pEntry);
      mret STATUS_SUCCESS
  end.

(** [for (p = intercepts, next; p; p = next) { next = p->next; if (...) DdkFreeIntercept(p); }] *)
Fixpoint free_entries (fuel : nat) (matches : INTERCEPT -> bool) (p status : Z) : D Z :=
  match fuel with
  | O => fail NoFuel
  | S fuel =>
      if p =? 0 then mret status else
      e ← entry_at p;
      status ← (if matches e
                then rc ← DdkFreeIntercept p; mret (if succeeds rc then status else rc)
                else mret status);
      free_entries fuel matches (i_next e) status
  end.

(** [for (i = 0; i < hwm; i++)], over the detours [selects] is true of. *)
Fixpoint free_detours (fuel : nat) (selects : DETOUR -> bool) (matches : INTERCEPT -> bool)
    (pRegion i status : Z) : D Z :=
  match fuel with
  | O => fail NoFuel
  | S fuel =>
      r ← region_at pRegion;
      if negb (i <? hwm r) then mret status else
      x ← detour_at (pRegion, i);
      status ← (if selects x
                then n ← entry_fuel; free_entries n matches (intercepts x) status
                else mret status);
      free_detours fuel selects matches pRegion (i + 1) status
  end.

Fixpoint free_regions (fuel : nat) (selects : DETOUR -> bool) (matches : INTERCEPT -> bool)
    (pRegion status : Z) : D Z :=
  match fuel with
  | O => fail NoFuel
  | S fuel =>
      if pRegion =? 0 then mret status else
      _ ← DdkAddReference pRegion;
      r ← region_at pRegion;
      status ← free_detours (S (Z.to_nat (hwm r))) selects matches pRegion 0 status;
      r ← region_at pRegion;
      _ ← DdkDeleteReference pRegion;
      free_regions fuel selects matches (r_next r) status
  end.

Definition DdkDetachIntercept (pId pThread : Z) : D Z :=
  s ← get;
  if regionlist s =? 0 then mret STATUS_SUCCESS else
  fuel ← region_fuel;
  free_regions fuel (fun _ => true)
    (fun p => ((pThread =? 0) || (thread p =? pThread)) &&
              ((pId =? 0) || (identity p =? pId) || (instance p =? pId)))
    (regionlist s) STATUS_SUCCESS.

(** [module]: the [ImageBase] and [SizeOfImage] of its header. *)
Definition DdkDetachAddressRange (pAddr len : Z) (module : option (Z * Z)) : D Z :=
  s ← get;
  if (regionlist s =? 0) || (len =? 0) then mret STATUS_SUCCESS else
  fuel ← region_fuel;
  free_regions fuel
    (fun x => negb (function x =? 0) && ((pAddr <=? function x) && (function x <? pAddr + len)))
    (fun p => match module with
              | None => true
              | Some (base, n) => (base <=? intercept p) && (intercept p <? base + n)
              end)
    (regionlist s) STATUS_SUCCESS.

(** ** The intercept of a call *)

Fixpoint select_loop (fuel : nat) (t ep pIntercept : Z) : D Z :=
  match fuel with
  | O => fail NoFuel
  | S fuel =>
      if ep =? 0 then mret pIntercept else
      e ← entry_at ep;
      if thread e =? t then mret (intercept e)
      else select_loop fuel t (i_next e) (if thread e =? 0 then intercept e else pIntercept)
  end.

(** [t] is [DdkGetCurrentThread()]. *)
Definition DdkGetIntercept (t : Z) (pDetour : option detptr) : D Z :=
  match pDetour with
  | None => fail (DdkFailed "Invalid detour")
  | Some d =>
      x ← detour_at d;
      if function x =? 0 then fail (DdkFailed "Invalid detour") else
      fuel ← entry_fuel;
      p ← select_loop fuel t (intercepts x) (trampoline x);
      _ ← modify (set_real <[t := trampoline x]>);
      mret (if p =? 0 then function x else p)
  end.

Definition DdkGetRealPointer (t : Z) : D Z :=
  s ← get;
  let v := default 0 (realpointer s !! t) in
  if v =? 0 then fail (DdkFailed "Real pointer not found") else
  _ ← modify (set_real <[t := 0]>);
  mret v.

End detours.
