(* ===== verification/DetoursInv.v ===== *)
(** * DetoursInv: what holds of the regions and detours between two calls

    [rinv] is the invariant of the regions, [tinv]
    that of the trampolines; [func] and [head_of] are what the intercepts see of them.
    The theorems on [DdkFreeDetour] and [DdkAllocateDetour] say how they change. *)

From S2P Require Import Prelude Detours.

(** ** Detours and what is at them *)

Definition nfree (l : list DETOUR) : Z := Z.of_nat (length (filter (fun x => function x = 0) l)).

Lemma nfree_insert l i x y :
  l !! i = Some x ->
  nfree (<[i := y]> l) =
    nfree l - (if function x =? 0 then 1 else 0) + (if function y =? 0 then 1 else 0).
Proof.
  unfold nfree. revert i. induction l as [|z l IH]; intros i E; [done |].
  destruct i as [|i]; simpl in E.
  - injection E as ->. simpl. rewrite !filter_cons. case_z; repeat case_decide; simpl; try done; lia.
  - simpl. rewrite !filter_cons. specialize (IH i E). case_decide; simpl; lia.
Qed.

Lemma nfree_bound l : 0 <= nfree l <= Z.of_nat (length l).
Proof. unfold nfree. pose proof (length_filter (fun x => function x = 0) l). lia. Qed.

Lemma nfree_all l x i : nfree l = Z.of_nat (length l) -> l !! i = Some x -> function x = 0.
Proof.
  intros F E. pose proof (nfree_insert l i x (mkDetour 0 0 0 0) E) as I. simpl in I.
  pose proof (nfree_bound (<[i := mkDetour 0 0 0 0]> l)) as B. rewrite length_insert in B.
  destruct (Z.eqb_spec (function x) 0); [done | lia].
Qed.

Section inv.
Context `{DETOURS}.

Definition lookup_detour (s : state) (d : detptr) : option DETOUR :=
  r ← regions s !! d.1; if 0 <=? d.2 then detours r !! Z.to_nat d.2 else None.

Definition func (s : state) (d : detptr) : Z := default 0 (function <$> lookup_detour s d).
Definition head_of (s : state) (d : detptr) : Z := default 0 (intercepts <$> lookup_detour s d).
Definition tramp (s : state) (d : detptr) : Z := default 0 (trampoline <$> lookup_detour s d).

Definition put_detour (d : detptr) (y : DETOUR) (s : state) : state :=
  set_regions (alter (fun r => set_detours (<[Z.to_nat d.2 := y]> (detours r)) r) d.1) s.

Lemma lookup_detour_inv s d x :
  lookup_detour s d = Some x ->
  exists r, regions s !! d.1 = Some r /\ 0 <= d.2 < Z.of_nat (length (detours r)) /\
    detours r !! Z.to_nat d.2 = Some x.
Proof.
  unfold lookup_detour. destruct (regions s !! d.1) as [r |]; [| done]. simpl.
  destruct (Z.leb_spec 0 d.2); [| done]. intros E. exists r. split; [done |]. split; [| done].
  apply lookup_lt_Some in E. lia.
Qed.

Lemma array_get_some {A} (l : list A) i x :
  0 <= i < Z.of_nat (length l) -> l !! Z.to_nat i = Some x -> array_get l i = Ok x.
Proof. intros B E. destruct (array_get_ok l i B) as (y & -> & E'). by simplify_eq. Qed.

Lemma detour_at_run s d x : lookup_detour s d = Some x -> detour_at d s = Ok (x, s).
Proof.
  intros (r & R & B & E)%lookup_detour_inv. unfold detour_at, region_at. mrun. rewrite R.
  by rewrite (array_get_some _ _ _ B E).
Qed.

Lemma change_detour_run s d x f :
  lookup_detour s d = Some x -> change_detour d f s = Ok (tt, put_detour d (f x) s).
Proof.
  intros (r & R & B & E)%lookup_detour_inv. unfold change_detour, region_at. mrun. rewrite R.
  rewrite (array_get_some _ _ _ B E), array_set_ok by done. unfold put_detour, set_regions. simpl.
  do 3 f_equal. apply map_eq. intros p. destruct (decide (p = d.1)) as [-> |].
  - by rewrite lookup_insert_eq, lookup_alter_eq, R.
  - by rewrite lookup_insert_ne, lookup_alter_ne.
Qed.

Lemma lookup_put s d x y d' :
  lookup_detour s d = Some x ->
  lookup_detour (put_detour d y s) d' = if decide (d' = d) then Some y else lookup_detour s d'.
Proof.
  intros (r & R & B & E)%lookup_detour_inv. unfold lookup_detour, put_detour, set_regions. simpl.
  destruct (decide (d' = d)) as [-> | N].
  - rewrite lookup_alter_eq, R. simpl. case_z; [| lia]. by rewrite list_lookup_insert_eq by lia.
  - destruct (decide (d.1 = d'.1)) as [F |]; [| by rewrite lookup_alter_ne].
    rewrite <- F, lookup_alter_eq, R. simpl. case_z; [| done].
    rewrite list_lookup_insert_ne; [done |]. intros G. apply N. destruct d, d'. simpl in *. f_equal; lia.
Qed.

Lemma region_at_run s p r : regions s !! p = Some r -> region_at p s = Ok (r, s).
Proof. intros E. unfold region_at. by rewrite E. Qed.

Lemma change_region_run s p r f :
  regions s !! p = Some r -> change_region p f s = Ok (tt, set_regions <[p := f r]> s).
Proof. intros E. unfold change_region. mrun. by rewrite (region_at_run _ _ _ E). Qed.

(** Replacing a region by one with the same detours. *)
Lemma lookup_same_detours s p r r' d :
  regions s !! p = Some r -> detours r' = detours r ->
  lookup_detour (set_regions <[p := r']> s) d = lookup_detour s d.
Proof.
  intros E F. unfold lookup_detour, set_regions. simpl.
  destruct (decide (p = d.1)) as [-> |]; [rewrite lookup_insert_eq, E | by rewrite lookup_insert_ne].
  simpl. by rewrite F.
Qed.

(** ** The invariant of the regions *)

(** [held]: [refcount] is 1. *)
Record region_ok (held : bool) (p : Z) (r : REGION) : Prop := {
  ok_count : 0 < count r < 2 ^ 64 /\ Z.of_nat (length (detours r)) = count r;
  ok_free : freecount r = nfree (detours r);
  ok_hwm : 0 <= hwm r <= count r;
  ok_above : forall i x, detours r !! i = Some x -> hwm r <= Z.of_nat i -> function x = 0;
  ok_region : forall i x, detours r !! i = Some x -> region x = p;
  ok_near : forall i x, detours r !! i = Some x -> function x <> 0 ->
    DdkIsRegionWithinJumpBounds p r (function x) 0 = true;
  ok_held : refcount r = if held then 1 else 0
}.

(** Every region in the list and nothing else; [held] has a reference, and it and [loose]
    may have no detour in use.  A function has at most one detour; a detour that is free
    has no intercepts. *)
Record rinv (held loose : Z) (s : state) (rs : list Z) : Prop := {
  inv_list : lseg r_next (regions s) (regionlist s) rs;
  inv_in_list : forall p, is_Some (regions s !! p) -> p ∈ rs;
  inv_ok : forall p r, regions s !! p = Some r -> region_ok (bool_decide (p = held)) p r;
  inv_used : forall p r, regions s !! p = Some r -> p <> held -> p <> loose -> freecount r <> count r;
  inv_unique : forall d d', func s d <> 0 -> func s d = func s d' -> d = d';
  inv_empty : forall d, func s d = 0 -> head_of s d = 0
}.

(** A detour in use has a trampoline, but for the one being attached. *)
Definition tinv (odd : option detptr) (s : state) : Prop :=
  forall d, Some d <> odd -> tramp s d = 0 <-> func s d = 0.

Lemma rinv_live held loose s rs p r : rinv held loose s rs -> regions s !! p = Some r -> p <> 0.
Proof. intros I E. eapply lseg_live; [apply (inv_list _ _ _ _ I) |]. apply (inv_in_list _ _ _ _ I). by eexists. Qed.

(** Only the trampoline or the intercepts of a detour change. *)
Lemma rinv_put held loose s rs d x y :
  rinv held loose s rs -> lookup_detour s d = Some x ->
  region y = region x -> function y = function x -> (function x = 0 -> intercepts y = 0) ->
  rinv held loose (put_detour d y s) rs.
Proof.
  intros [L I O U F E] Dx R Fn Z. pose proof (lookup_detour_inv _ _ _ Dx) as (r & Er & B & Ex).
  assert (forall d', func (put_detour d y s) d' = func s d') as Fs.
  { intros d'. unfold func. rewrite (lookup_put _ _ _ _ _ Dx).
    case_decide as E'; [| done]. subst. by rewrite Dx; simpl; rewrite Fn. }
  split; simpl.
  - eapply lseg_ext; [exact L |]. intros e _. destruct (decide (d.1 = e)) as [<- |].
    + by rewrite lookup_alter_eq, Er.
    + by rewrite lookup_alter_ne.
  - intros p Hp. apply I. destruct (decide (d.1 = p)) as [<- |]; [by rewrite Er; eexists |].
    by rewrite lookup_alter_ne in Hp.
  - intros p q Eq. destruct (decide (d.1 = p)) as [<- |]; [| rewrite lookup_alter_ne in Eq by done; by apply O].
    rewrite lookup_alter_eq, Er in Eq. injection Eq as <-. destruct (O _ _ Er) as [[C1 C2] Fr Hw Ab Re Ne He].
    split; simpl; rewrite ?length_insert; try done.
    + rewrite (nfree_insert _ _ _ _ Ex), Fn, Fr. lia.
    + intros i z [(<- & <- & _) | [N E']]%list_lookup_insert_Some Hi; [rewrite Fn; by eapply Ab | by eapply Ab].
    + intros i z [(<- & <- & _) | [N E']]%list_lookup_insert_Some; [rewrite R; by eapply Re | by eapply Re].
    + intros i z [(<- & <- & _) | [N E']]%list_lookup_insert_Some Hz; [| by eapply (Ne i)].
      rewrite Fn in *. by eapply (Ne (Z.to_nat d.2)).
  - intros p q Eq. destruct (decide (d.1 = p)) as [<- |]; [| rewrite lookup_alter_ne in Eq by done; by apply U].
    rewrite lookup_alter_eq, Er in Eq. injection Eq as <-. simpl. by apply U.
  - intros a b. rewrite !Fs. apply F.
  - intros a. rewrite Fs. intros Za. unfold head_of. rewrite (lookup_put _ _ _ _ _ Dx).
    case_decide as E'; [| by apply E]. subst a. simpl. apply Z. unfold func in Za. by rewrite Dx in Za.
Qed.


(** What the intercepts see is the same, and nothing but regions and the library changed. *)
Definition same_rest (s s' : state) : Prop :=
  entries s' = entries s /\ threads s' = threads s /\ realpointer s' = realpointer s.

Lemma unlink_region_run s pp pre p post r fuel :
  lseg r_next (regions s) (match pp with None => regionlist s | Some q => default 0 (r_next <$> regions s !! q) end)
    (pre ++ p :: post) ->
  (forall q, pp = Some q -> is_Some (regions s !! q)) ->
  regions s !! p = Some r -> p ∉ pre -> (length pre < fuel)%nat ->
  unlink_region fuel pp p s = write_pp (match last pre with None => pp | Some q => Some q end) (r_next r) s.
Proof.
  revert pp pre. induction fuel as [|fuel IH]; intros pp pre L Lv E Hp F; [lia |].
  assert (exists h, read_pp pp s = Ok (h, s) /\ lseg r_next (regions s) h (pre ++ p :: post)) as (h & R & Lh).
  { destruct pp as [q |]; [| by exists (regionlist s)]. destruct (Lv q eq_refl) as [rq Eq].
    exists (r_next rq). rewrite Eq in L. split; [| done]. unfold read_pp. mrun. by rewrite (region_at_run _ _ _ Eq). }
  simpl. mrun. rewrite R. destruct pre as [|q pre].
  - destruct Lh as (-> & N & _). rewrite (proj2 (Z.eqb_neq p 0)), Z.eqb_refl by done.
    by rewrite (region_at_run _ _ _ E).
  - destruct Lh as (-> & N & a & Ea & L'). apply not_elem_of_cons in Hp as [Hq Hp].
    rewrite (proj2 (Z.eqb_neq q 0)), (proj2 (Z.eqb_neq q p)) by done.
    rewrite (IH (Some q) pre); simpl in F; [| by rewrite Ea | naive_solver | done | done | lia].
    rewrite last_cons. by destruct (last pre).
Qed.

Lemma write_pp_run s pre v :
  (forall q, q ∈ pre -> is_Some (regions s !! q)) ->
  write_pp (last pre) v s =
    Ok (tt, mkState (relink set_r_next pre v (regions s)) (if pre is [] then v else regionlist s)
      (entries s) (threads s) (realpointer s) (library s)).
Proof.
  intros Lv. unfold relink. destruct (last pre) as [q |] eqn:La.
  - destruct (Lv q) as [r Er]; [by apply last_Some_elem_of |]. simpl.
    rewrite (change_region_run _ _ _ _ Er). destruct pre; [done |]. do 2 f_equal.
    unfold set_regions. f_equal. apply map_eq. intros e. destruct (decide (q = e)) as [-> |].
    + by rewrite lookup_insert_eq, lookup_alter_eq, Er.
    + by rewrite lookup_insert_ne, lookup_alter_ne.
  - apply last_None in La as ->. done.
Qed.


(** The state [unlink_region] leaves. *)
Definition unlinked (pre : list Z) (v : Z) (s : state) : state :=
  mkState (relink set_r_next pre v (regions s)) (if pre is [] then v else regionlist s)
    (entries s) (threads s) (realpointer s) (library s).

Lemma unlink_region_list s pre p post r :
  lseg r_next (regions s) (regionlist s) (pre ++ p :: post) -> regions s !! p = Some r ->
  unlink_region (S (size (regions s))) None p s = Ok (tt, unlinked pre (r_next r) s).
Proof.
  intros L E. pose proof (lseg_size _ _ _ _ L) as Sz. rewrite length_app in Sz. simpl in Sz.
  assert (p ∉ pre) as Np.
  { apply lseg_nodup, NoDup_app in L as (_ & Dj & _). intros Hp. apply (Dj p Hp). by left. }
  rewrite (unlink_region_run s None pre p post r); [| done | done | done | done | lia].
  replace (match last pre with Some q => Some q | None => None end) with (last pre) by by destruct (last pre).
  apply write_pp_run. intros q Hq. eapply lseg_live; [exact L |]. apply elem_of_app. by left.
Qed.

Lemma lookup_unlinked pre v p s d :
  lookup_detour (set_regions (delete p) (unlinked pre v s)) d =
    if decide (d.1 = p) then None else lookup_detour s d.
Proof.
  unfold lookup_detour, unlinked, set_regions. simpl. case_decide as C.
  - subst. by rewrite lookup_delete_eq.
  - rewrite lookup_delete_ne by done. unfold relink. destruct (last pre) as [q |]; [| done].
    destruct (decide (q = d.1)) as [-> |]; [| by rewrite lookup_alter_ne].
    rewrite lookup_alter_eq. by destruct (regions s !! d.1).
Qed.

(** A region with nothing in use. *)
Lemma unused_func s p r h d :
  regions s !! p = Some r -> region_ok h p r -> freecount r = count r -> d.1 = p -> func s d = 0.
Proof.
  intros E [[_ C] Fr _ _ _ _ _] G <-.
  unfold func, lookup_detour. rewrite E. simpl. destruct (0 <=? d.2); [| done].
  destruct (detours r !! Z.to_nat d.2) as [x |] eqn:Ex; [| done]. simpl.
  eapply nfree_all; [| exact Ex]. congruence.
Qed.

Lemma lookup_unlinked_region pre v p s q r :
  regions (set_regions (delete p) (unlinked pre v s)) !! q = Some r ->
  q <> p /\ exists r', regions s !! q = Some r' /\ (r = r' \/ r = set_r_next v r').
Proof.
  intros E. simpl in E. apply lookup_delete_Some in E as [Nq E]. split; [congruence |].
  exact (relink_inv set_r_next _ _ _ _ _ E).
Qed.

Lemma region_ok_next h p r v : region_ok h p r -> region_ok h p (set_r_next v r).
Proof. by intros []; split. Qed.

(** [DdkFreeRegion] unlinks and frees a region without detours and references, and does
    nothing to another. *)
Lemma DdkFreeRegion_run held s rs p r :
  rinv held p s rs -> tinv None s -> regions s !! p = Some r ->
  exists s' rs', DdkFreeRegion p s = Ok (tt, s') /\ rinv held 0 s' rs' /\ tinv None s' /\ same_rest s s' /\
    (forall d, func s' d = func s d /\ head_of s' d = head_of s d) /\
    (p = held -> s' = s /\ rs' = rs) /\
    exists pre post, rs = pre ++ p :: post /\ (rs' = rs \/ rs' = pre ++ post).
Proof.
  intros I T E. pose proof I as [L In O U F W]. pose proof (rinv_live _ _ _ _ _ _ I E) as N.
  assert (p ∈ rs) as (pre & post & ->)%list_elem_of_split by (apply In; by eexists).
  unfold DdkFreeRegion. rewrite (proj2 (Z.eqb_neq p 0)) by done.
  rewrite (bind_run _ _ _ _ _ (region_at_run _ _ _ E)).
  destruct (negb (refcount r =? 0) || negb (freecount r =? count r)) eqn:C.
  - exists s, (pre ++ p :: post). split; [done |].
    split; [| split_and!; eauto; done]. split; try done.
    intros q rq Eq Hq _. destruct (decide (q = p)) as [-> |]; [| by eapply U]. simplify_eq.
    destruct (O _ _ E) as [_ _ _ _ _ _ He]. rewrite bool_decide_eq_false_2 in He by done.
    rewrite He in C. simpl in C. intros G. rewrite G, Z.eqb_refl in C. done.
  - apply orb_false_iff in C as [C1 C2]. apply negb_false_iff, Z.eqb_eq in C1, C2.
    assert (p <> held) as Nh.
    { intros ->. destruct (O _ _ E) as [_ _ _ _ _ _ He]. rewrite bool_decide_eq_true_2 in He by done. lia. }
    rewrite (bind_run region_fuel _ s (S (size (regions s))) s) by done.
    rewrite (bind_run _ _ _ _ _ (unlink_region_list _ _ _ _ _ L E)).
    assert (forall d, func (set_regions (delete p) (unlinked pre (r_next r) s)) d = func s d /\
      head_of (set_regions (delete p) (unlinked pre (r_next r) s)) d = head_of s d /\
      tramp (set_regions (delete p) (unlinked pre (r_next r) s)) d = tramp s d) as Same.
    { intros d. unfold func at 1, head_of at 1, tramp at 1. rewrite lookup_unlinked. case_decide as Ed; [| done].
      pose proof (unused_func s p r _ d E (O _ _ E) C2 Ed) as Z0. rewrite Z0, (W d Z0).
      rewrite (proj2 (T d ltac:(done)) Z0). done. }
    eexists _, (pre ++ post). split; [reflexivity |]. split; [| split_and!; try done].
    + pose proof (lseg_nodup _ _ _ _ L) as ND. apply NoDup_app in ND as (_ & Dj & NDp).
      assert (p ∉ pre ++ post) as Np.
      { rewrite elem_of_app. intros [Hp | Hp]; [apply (Dj p Hp); by left | by apply NoDup_cons in NDp as []]. }
      split.
      * apply lseg_delete; [done |]. pose proof (lseg_remove r_next set_r_next ltac:(done) _ _ _ _ _ _ L E) as R.
        simpl. destruct pre as [|q pre]; [exact R |]. by destruct L as (-> & _).
      * intros q [rq (Hq & r' & E' & _)%lookup_unlinked_region].
        specialize (In q ltac:(by eexists)). rewrite elem_of_app, elem_of_cons in In. rewrite elem_of_app. tauto.
      * intros q rq (Hq & r' & E' & [-> | ->])%lookup_unlinked_region; [by apply O | by apply region_ok_next, O].
      * intros q rq (Hq & r' & E' & [-> | ->])%lookup_unlinked_region ? _; simpl; by eapply U.
      * intros a b. destruct (Same a) as (-> & _). destruct (Same b) as (-> & _). apply F.
      * intros a. destruct (Same a) as (-> & -> & _). apply W.
    + intros d Hd. destruct (Same d) as (-> & _ & ->). by apply T.
    + intros d. by destruct (Same d) as (-> & -> & _).
    + exists pre, post. auto.
Qed.


(** ** Attaching and detaching *)

Lemma set_regions_id s p r : regions s !! p = Some r -> set_regions <[p := r]> s = s.
Proof. destruct s. unfold set_regions. simpl. intros. by rewrite insert_id. Qed.

Lemma set_regions_twice s p r r' : set_regions <[p := r']> (set_regions <[p := r]> s) = set_regions <[p := r']> s.
Proof. destruct s. unfold set_regions. simpl. by rewrite insert_insert_eq. Qed.

Lemma lower_hwm_run fuel s p r :
  regions s !! p = Some r -> 0 <= hwm r <= Z.of_nat (length (detours r)) -> (Z.to_nat (hwm r) < fuel)%nat ->
  (forall i x, detours r !! i = Some x -> hwm r <= Z.of_nat i -> function x = 0) ->
  exists n, lower_hwm fuel p s = Ok (tt, set_regions <[p := set_hwm n r]> s) /\ 0 <= n <= hwm r /\
    forall i x, detours r !! i = Some x -> n <= Z.of_nat i -> function x = 0.
Proof.
  revert s r. induction fuel as [|fuel IH]; intros s r E B Fu Ab; [lia |].
  assert (set_regions <[p := set_hwm (hwm r) r]> s = s) as Id by (apply set_regions_id; rewrite E; by destruct r).
  simpl. rewrite (bind_run _ _ _ _ _ (region_at_run _ _ _ E)). destruct (Z.eqb_spec (hwm r) 0) as [Hz | Hz].
  { exists (hwm r). rewrite Id. split; [done |]. split; [lia | done]. }
  destruct (lookup_lt_is_Some_2 (detours r) (Z.to_nat (hwm r - 1))) as [x Ex]; [lia |].
  assert (lookup_detour s (p, hwm r - 1) = Some x) as Dx.
  { unfold lookup_detour. simpl. rewrite E. simpl. case_z; [done | lia]. }
  rewrite (bind_run _ _ _ _ _ (detour_at_run _ _ _ Dx)). destruct (Z.eqb_spec (function x) 0) as [Hf | Hf]; simpl.
  - rewrite (bind_run _ _ _ _ _ (change_region_run _ _ _ _ E)).
    destruct (IH (set_regions <[p := set_hwm (hwm r - 1) r]> s) (set_hwm (hwm r - 1) r)) as (n & R & Bn & An).
    + simpl. by rewrite lookup_insert_eq.
    + simpl. lia.
    + simpl. lia.
    + simpl. intros i y Ey Hi. destruct (Z.eq_dec (Z.of_nat i) (hwm r - 1)); [| apply (Ab i); [done | lia]].
      replace i with (Z.to_nat (hwm r - 1)) in Ey by lia. by simplify_eq.
    + exists n. rewrite R, set_regions_twice. split; [done |]. simpl in Bn. split; [lia | done].
  - exists (hwm r). rewrite Id. split; [done |]. split; [lia | done].
Qed.

Lemma invoke_loop_run hs s : exists rc l, invoke_loop hs s = Ok (rc, set_library l s).
Proof.
  revert s. induction hs as [|h hs IH]; intros s; simpl.
  - exists NO_ERROR, (library s). by destruct s.
  - unfold call. mrun. destruct (DetourUpdateThread h (library s)) as [rc l]. simpl.
    destruct (negb (rc =? NO_ERROR)); [by exists rc, l |].
    destruct (IH (set_library l s)) as (rc' & l' & ->). by exists rc', l'.
Qed.

Lemma put_detour_id s d x : lookup_detour s d = Some x -> put_detour d x s = s.
Proof.
  intros (r & R & B & E)%lookup_detour_inv. unfold put_detour, set_regions. destruct s. simpl in *. f_equal.
  apply map_eq. intros p. destruct (decide (p = d.1)) as [-> |]; [| by rewrite lookup_alter_ne].
  rewrite lookup_alter_eq, R. simpl. rewrite list_insert_id by done. by destruct r.
Qed.

Lemma put_detour_twice s d x y : put_detour d y (put_detour d x s) = put_detour d y s.
Proof.
  unfold put_detour, set_regions. destruct s as [m]. simpl. f_equal. apply map_eq. intros p.
  destruct (decide (d.1 = p)) as [<- |]; [| by rewrite !lookup_alter_ne].
  rewrite !lookup_alter_eq. destruct (m !! d.1); [| done]. simpl. unfold set_detours. simpl.
  by rewrite list_insert_insert_eq.
Qed.

Lemma set_trampoline_id x : set_trampoline (trampoline x) x = x.
Proof. by destruct x. Qed.

(** What the library stores is not [NULL]. *)
Class DETOURS_Laws : Prop :=
  commit_stores l rc t l' : DetourTransactionCommit l = (rc, Some t, l') -> t <> 0.
Context `{DETOURS_Laws}.

(** Whatever the library answers, only it and the trampoline can have changed. *)
Lemma DdkUpdateDetour_run s d x enable :
  lookup_detour s d = Some x ->
  exists rc l t, DdkUpdateDetour d enable s =
      Ok (DdkGetDetourStatus rc, put_detour d (set_trampoline t x) (set_library l s)) /\
    (t = trampoline x \/ t <> 0).
Proof.
  intros Dx. unfold DdkUpdateDetour, call.
  assert (forall rc l, exists rc' l' t, Ok (DdkGetDetourStatus rc, set_library l s) =
    Ok (DdkGetDetourStatus rc', put_detour d (set_trampoline t x) (set_library l' s)) /\ (t = trampoline x \/ t <> 0)) as Same.
  { intros rc l. exists rc, l, (trampoline x). split; [| by left].
    by rewrite set_trampoline_id, (put_detour_id (set_library l s)). }
  unfold mbind at 1, M_bind at 1. destruct (DetourTransactionBegin (library s)) as [rc l].
  destruct (negb (rc =? NO_ERROR)); [apply Same |].
  destruct (invoke_loop_run (threads s) (set_library l s)) as (rc2 & l2 & R).
  rewrite (bind_run DdkInvokeForAllThreads _ _ _ _ R).
  destruct (negb (rc2 =? NO_ERROR)); [apply Same |].
  rewrite (bind_run _ _ _ _ _ (detour_at_run (set_library l2 (set_library l s)) d x Dx)).
  unfold mbind at 1, M_bind at 1. destruct ((if enable then _ else _) _ _ _) as [rc3 l3].
  destruct (negb (rc3 =? NO_ERROR)); [apply Same |].
  unfold mbind at 1, M_bind at 1. simpl. destruct (DetourTransactionCommit l3) as [[rc4 stored] l4] eqn:C.
  destruct stored as [t |]; [| apply Same].
  rewrite (bind_run _ _ _ _ _ (change_detour_run (set_library l4 (set_library l3 (set_library l2 (set_library l s)))) d x _ Dx)).
  exists rc4, l4, t. split; [done |]. right. by eapply commit_stores.
Qed.


Lemma detour_status rc : succeeds (DdkGetDetourStatus rc) = (rc =? NO_ERROR).
Proof. unfold DdkGetDetourStatus. case_z; subst; done. Qed.

Lemma put_library d y l s : set_library l (put_detour d y s) = put_detour d y (set_library l s).
Proof. done. Qed.

Lemma lookup_put_same s d x y : lookup_detour s d = Some x -> lookup_detour (put_detour d y s) d = Some y.
Proof. intros E. rewrite (lookup_put _ _ _ _ _ E). by case_decide. Qed.

Lemma DdkAttachDetour_run s d x :
  lookup_detour s d = Some x -> trampoline x = 0 -> function x <> 0 ->
  exists st l t, DdkAttachDetour (Some d) s = Ok (st, put_detour d (set_trampoline t x) (set_library l s)) /\
    if succeeds st then t <> 0 else t = 0.
Proof.
  intros Dx T F. unfold DdkAttachDetour. rewrite (bind_run _ _ _ _ _ (detour_at_run _ _ _ Dx)), T. simpl.
  rewrite (bind_run _ _ _ _ _ (change_detour_run _ _ _ _ Dx)).
  destruct (DdkUpdateDetour_run _ d _ true (lookup_put_same s d x (set_trampoline (function x) x) Dx))
    as (rc & l & t & R & B).
  rewrite (bind_run _ _ _ _ _ R), put_library, put_detour_twice. simpl in B.
  destruct (succeeds (DdkGetDetourStatus rc)) eqn:S.
  - exists (DdkGetDetourStatus rc), l, t. rewrite S. split; [done |]. destruct B; congruence.
  - exists (DdkGetDetourStatus rc), l, 0. rewrite S. split; [| done].
    rewrite (bind_run _ _ _ _ _ (change_detour_run _ _ _ _ (lookup_put_same (set_library l s) d x _ Dx))).
    by rewrite put_detour_twice.
Qed.

Lemma DdkDetachDetour_run s d x :
  lookup_detour s d = Some x ->
  exists st l t, DdkDetachDetour (Some d) s = Ok (st, put_detour d (set_trampoline t x) (set_library l s)) /\
    (trampoline x = 0 -> t = 0).
Proof.
  intros Dx. unfold DdkDetachDetour. rewrite (bind_run _ _ _ _ _ (detour_at_run _ _ _ Dx)).
  destruct (Z.eqb_spec (trampoline x) 0) as [T | T].
  - exists STATUS_SUCCESS, (library s), 0. split; [| done]. rewrite <- T, set_trampoline_id.
    rewrite put_detour_id; by destruct s.
  - destruct (DdkUpdateDetour_run _ d _ false Dx) as (rc & l & t & R & B).
    rewrite (bind_run _ _ _ _ _ R). destruct (succeeds (DdkGetDetourStatus rc)) eqn:S.
    + exists (DdkGetDetourStatus rc), l, 0. split; [| done].
      rewrite (bind_run _ _ _ _ _ (change_detour_run _ _ _ _ (lookup_put_same (set_library l s) d x _ Dx))).
      by rewrite put_detour_twice.
    + exists (DdkGetDetourStatus rc), l, t. split; [done |]. done.
Qed.

(** Another record in the place of a region. *)
Lemma rinv_replace held loose s rs p r r' :
  rinv held loose s rs -> regions s !! p = Some r ->
  r_next r' = r_next r -> region_ok (bool_decide (p = held)) p r' ->
  (p <> held -> p <> loose -> freecount r' <> count r') ->
  (forall d d', func (set_regions <[p := r']> s) d <> 0 ->
     func (set_regions <[p := r']> s) d = func (set_regions <[p := r']> s) d' -> d = d') ->
  (forall d, func (set_regions <[p := r']> s) d = 0 -> head_of (set_regions <[p := r']> s) d = 0) ->
  rinv held loose (set_regions <[p := r']> s) rs.
Proof.
  intros [L I O U _ _] E N K Us F Z. split; [| | | | done | done]; simpl.
  - eapply lseg_ext; [exact L |]. intros e _. destruct (decide (p = e)) as [<- |].
    + by rewrite lookup_insert_eq, E; simpl; rewrite N.
    + by rewrite lookup_insert_ne.
  - intros q [rq [(<- & _) | (_ & Eq)]%lookup_insert_Some]; apply I; by eexists.
  - intros q rq [(<- & <-) | (_ & Eq)]%lookup_insert_Some; [done | by apply O].
  - intros q rq [(<- & <-) | (_ & Eq)]%lookup_insert_Some; [done | by apply U].
Qed.

Lemma func_same_detours s p r r' d :
  regions s !! p = Some r -> detours r' = detours r ->
  func (set_regions <[p := r']> s) d = func s d /\ head_of (set_regions <[p := r']> s) d = head_of s d /\
  tramp (set_regions <[p := r']> s) d = tramp s d.
Proof. intros E F. unfold func, head_of, tramp. by rewrite (lookup_same_detours _ _ _ _ _ E F). Qed.


Lemma get_put s d x y : lookup_detour s d = Some x ->
  forall d', func (put_detour d y s) d' = (if decide (d' = d) then function y else func s d') /\
    head_of (put_detour d y s) d' = (if decide (d' = d) then intercepts y else head_of s d') /\
    tramp (put_detour d y s) d' = (if decide (d' = d) then trampoline y else tramp s d').
Proof. intros E d'. unfold func, head_of, tramp. rewrite (lookup_put _ _ _ _ _ E). by case_decide. Qed.

(** Marking a detour free, as [DdkFreeDetour] does. *)
Definition release (i : Z) (x : DETOUR) (r : REGION) : REGION :=
  set_freecount (u64 (freecount r + 1)) (set_detours (<[Z.to_nat i := set_function 0 x]> (detours r)) r).

Lemma release_ok held p r i x :
  region_ok held p r -> detours r !! Z.to_nat i = Some x -> function x <> 0 -> region_ok held p (release i x r).
Proof.
  intros [[C1 C2] Fr Hw Ab Re Ne He] E N.
  pose proof (nfree_insert _ _ _ (set_function 0 x) E) as I. simpl in I.
  rewrite (proj2 (Z.eqb_neq _ _)) in I by done. simpl in I.
  pose proof (nfree_bound (<[Z.to_nat i := set_function 0 x]> (detours r))) as B. rewrite length_insert in B.
  split; simpl; rewrite ?length_insert; try done.
  - rewrite I, Fr. unfold u64. rewrite Z.mod_small; lia.
  - intros j z [(<- & <- & _) | [_ E']]%list_lookup_insert_Some Hj; [done | by eapply Ab].
  - intros j z [(<- & <- & _) | [_ E']]%list_lookup_insert_Some; [by eapply (Re _ x) | by eapply Re].
  - intros j z [(<- & <- & _) | [_ E']]%list_lookup_insert_Some Hz; [done | by eapply Ne].
Qed.

Lemma hwm_ok held p r n :
  region_ok held p r -> 0 <= n <= hwm r ->
  (forall i x, detours r !! i = Some x -> n <= Z.of_nat i -> function x = 0) -> region_ok held p (set_hwm n r).
Proof. intros [C Fr Hw Ab Re Ne He] B A. split; simpl; try done; lia. Qed.

(** What is left when a detour has been given back: [d] may be free, the rest is the same. *)
Record freed (d : detptr) (s s' : state) : Prop := {
  freed_rest : same_rest s s';
  freed_heads : forall d', head_of s' d' = head_of s d';
  freed_others : forall d', d' <> d -> func s' d' = func s d';
  freed_this : func s' d = func s d \/ func s' d = 0 /\ head_of s d = 0
}.

(** [hwm] of a region only goes down. *)
Definition lowered (p : Z) (s s' : state) : Prop :=
  forall r, regions s !! p = Some r ->
  exists r', regions s' !! p = Some r' /\ hwm r' <= hwm r /\ length (detours r') = length (detours r).

Lemma put_as_insert s d r z :
  regions s !! d.1 = Some r ->
  put_detour d z s = set_regions <[d.1 := set_detours (<[Z.to_nat d.2 := z]> (detours r)) r]> s.
Proof.
  intros E. unfold put_detour, set_regions. f_equal. apply map_eq. intros p.
  destruct (decide (d.1 = p)) as [<- |]; [by rewrite lookup_alter_eq, lookup_insert_eq, E |].
  by rewrite lookup_alter_ne, lookup_insert_ne.
Qed.

(** The middle of [DdkFreeDetour]: a detour without a trampoline becomes free. *)
Lemma release_detour_run held s rs d y :
  rinv held d.1 s rs -> tinv (Some d) s -> lookup_detour s d = Some y -> intercepts y = 0 ->
  (trampoline y <> 0 -> function y <> 0) ->
  exists r r', regions s !! d.1 = Some r /\ regions (set_regions <[d.1 := r']> s) !! d.1 = Some r' /\
    ((if (trampoline y =? 0) && negb (function y =? 0) then
        _ ← change_detour d (set_function 0);
        change_region d.1 (fun r => set_freecount (u64 (freecount r + 1)) r)
      else mret tt) s = Ok (tt, set_regions <[d.1 := r']> s)) /\
    rinv held d.1 (set_regions <[d.1 := r']> s) rs /\ tinv None (set_regions <[d.1 := r']> s) /\
    freed d s (set_regions <[d.1 := r']> s) /\ hwm r' = hwm r /\ length (detours r') = length (detours r) /\
    (trampoline y = 0 -> func (set_regions <[d.1 := r']> s) d = 0).
Proof.
  intros I T Dy Ez Tf. pose proof (lookup_detour_inv _ _ _ Dy) as (r & Er & B & Ey).
  exists r. destruct ((trampoline y =? 0) && negb (function y =? 0)) eqn:C.
  - apply andb_true_iff in C as [C1 C2]. apply Z.eqb_eq in C1. apply negb_true_iff, Z.eqb_neq in C2.
    exists (release d.2 y r). split; [done |]. split; [by simpl; rewrite lookup_insert_eq |].
    assert (set_regions <[d.1 := release d.2 y r]> s =
      set_regions <[d.1 := release d.2 y r]> (put_detour d (set_function 0 y) s)) as Eq.
    { by rewrite (put_as_insert _ _ _ _ Er), set_regions_twice. }
    assert (regions (put_detour d (set_function 0 y) s) !! d.1 =
      Some (set_detours (<[Z.to_nat d.2 := set_function 0 y]> (detours r)) r)) as Ep.
    { rewrite (put_as_insert _ _ _ _ Er). simpl. by rewrite lookup_insert_eq. }
    assert (forall d', func (set_regions <[d.1 := release d.2 y r]> s) d' = (if decide (d' = d) then 0 else func s d') /\
      head_of (set_regions <[d.1 := release d.2 y r]> s) d' = head_of s d' /\
      tramp (set_regions <[d.1 := release d.2 y r]> s) d' = tramp s d') as V.
    { intros d'. rewrite Eq. destruct (func_same_detours _ _ _ (release d.2 y r) d' Ep eq_refl) as (-> & -> & ->).
      destruct (get_put s d y (set_function 0 y) Dy d') as (-> & -> & ->).
      case_decide; [subst | done]. unfold head_of, tramp. by rewrite Dy. }
    pose proof I as [_ _ O _ F W].
    split; [| split; [| split; [| split; [| split; [done | split; [by simpl; rewrite length_insert |]]]]]].
    + rewrite (bind_run _ _ _ _ _ (change_detour_run _ _ _ _ Dy)).
      rewrite (change_region_run _ _ _ _ Ep). by rewrite Eq.
    + apply (rinv_replace held d.1 s rs d.1 r); try done.
      * by apply (release_ok _ _ _ _ _ (O _ _ Er) Ey).
      * intros a b. destruct (V a) as (-> & _), (V b) as (-> & _).
        destruct (decide (a = d)); [done |]. destruct (decide (b = d)); [congruence | apply F].
      * intros a. destruct (V a) as (-> & -> & _). case_decide as Ea; [| apply W]. intros _. subst. unfold head_of.
        by rewrite Dy.
    + intros d' _. destruct (V d') as (-> & _ & ->). case_decide as Ed; [| apply T; congruence].
      subst. unfold tramp. by rewrite Dy; simpl; rewrite C1.
    + split; [done | | |].
      * intros d'. apply V.
      * intros d' Hd. destruct (V d') as (-> & _). by case_decide.
      * right. destruct (V d) as (-> & _). case_decide; [| done]. split; [done |]. unfold head_of. by rewrite Dy.
    + intros _. destruct (V d) as (-> & _). by case_decide.
  - exists r. rewrite (set_regions_id _ _ _ Er). split; [done |]. split; [done |]. split; [done |].
    split; [done |]. split; [| split; [| split; [done | split; [done |]]]].
    + intros d' _. destruct (decide (d' = d)) as [-> |]; [| apply T; congruence].
      unfold tramp, func. rewrite Dy. simpl. destruct (Z.eqb_spec (trampoline y) 0), (Z.eqb_spec (function y) 0); naive_solver.
    + split; try done. by left.
    + intros E0. unfold func. rewrite Dy. simpl. rewrite E0 in C. simpl in C. by apply negb_false_iff, Z.eqb_eq in C.
Qed.


Lemma rinv_library held loose s rs l : rinv held loose s rs -> rinv held loose (set_library l s) rs.
Proof. by intros []. Qed.

Lemma same_rest_trans s1 s2 s3 : same_rest s1 s2 -> same_rest s2 s3 -> same_rest s1 s3.
Proof. intros (E1 & E2 & E3) (F1 & F2 & F3). split_and!; congruence. Qed.

Lemma freed_trans d s1 s2 s3 : freed d s1 s2 -> freed d s2 s3 -> freed d s1 s3.
Proof.
  intros [R1 H1 O1 T1] [R2 H2 O2 T2]. split.
  - by eapply same_rest_trans.
  - intros d'. by rewrite H2, H1.
  - intros d' Hd. by rewrite O2, O1.
  - rewrite <- H1. destruct T2 as [-> | T2]; [rewrite H1; exact T1 | by right].
Qed.

Lemma freed_same d s s' :
  same_rest s s' -> (forall d', func s' d' = func s d' /\ head_of s' d' = head_of s d') -> freed d s s'.
Proof. intros R V. split; [done | apply V | intros; apply V | left; apply V]. Qed.

Lemma tinv_same odd s s' :
  tinv odd s -> (forall d, func s' d = func s d /\ tramp s' d = tramp s d) -> tinv odd s'.
Proof. intros T V d Hd. destruct (V d) as [-> ->]. by apply T. Qed.

(** The rest of [DdkFreeDetour], once the detour is free: [hwm] and the region. *)
Lemma shrink_run held s rs p r :
  rinv held p s rs -> tinv None s -> regions s !! p = Some r ->
  exists s' rs', (forall st : Z, (_ ← lower_hwm (S (Z.to_nat (hwm r))) p; _ ← DdkFreeRegion p; mret st) s = Ok (st, s')) /\
    rinv held 0 s' rs' /\ tinv None s' /\ same_rest s s' /\
    (forall d, func s' d = func s d /\ head_of s' d = head_of s d) /\
    (p = held -> rs' = rs /\ lowered p s s').
Proof.
  intros I T E. pose proof I as [_ _ O _ F W].
  destruct (lower_hwm_run (S (Z.to_nat (hwm r))) s p r E) as (n & R & Bn & An).
  { rewrite (proj2 (ok_count _ _ _ (O _ _ E))). apply (ok_hwm _ _ _ (O _ _ E)). }
  { lia. }
  { apply (ok_above _ _ _ (O _ _ E)). }
  assert (forall d, func (set_regions <[p := set_hwm n r]> s) d = func s d /\
    head_of (set_regions <[p := set_hwm n r]> s) d = head_of s d /\
    tramp (set_regions <[p := set_hwm n r]> s) d = tramp s d) as V by (intros; by apply func_same_detours with r).
  destruct (DdkFreeRegion_run held (set_regions <[p := set_hwm n r]> s) rs p (set_hwm n r))
    as (s' & rs' & R' & I' & T' & S' & V' & Hh & _).
  - apply (rinv_replace held p s rs p r); try done.
    + by apply hwm_ok; [apply O | |].
    + intros a b. destruct (V a) as (-> & _), (V b) as (-> & _). apply F.
    + intros a. destruct (V a) as (-> & -> & _). apply W.
  - eapply tinv_same; [exact T |]. intros d. destruct (V d) as (-> & _ & ->). done.
  - simpl. by rewrite lookup_insert_eq.
  - exists s', rs'. split; [intros st; by rewrite (bind_run _ _ _ _ _ R), (bind_run _ _ _ _ _ R') |].
    split; [done |]. split; [done |]. split; [done |]. split.
    + intros d. destruct (V' d) as [-> ->]. by destruct (V d) as (-> & -> & _).
    + intros Eh. destruct (Hh Eh) as [-> ->]. split; [done |]. intros q Eq. simplify_eq.
      exists (set_hwm n r). simpl. rewrite lookup_insert_eq. split; [done |]. simpl. split; [lia | done].
Qed.

Lemma rinv_tighten held p s rs r :
  rinv held p s rs -> regions s !! p = Some r -> freecount r <> count r -> rinv held 0 s rs.
Proof.
  intros [L In O U F W] E N. split; try done.
  intros q rq Eq Hq _. destruct (decide (q = p)) as [-> |]; [congruence | by apply (U q)].
Qed.

Lemma DdkFreeDetour_run held s rs d x :
  rinv held d.1 s rs -> tinv (Some d) s -> lookup_detour s d = Some x ->
  (trampoline x <> 0 -> function x <> 0) -> (intercepts x <> 0 -> trampoline x <> 0) ->
  exists st s' rs', DdkFreeDetour (Some d) s = Ok (st, s') /\ rinv held 0 s' rs' /\ tinv None s' /\ freed d s s' /\
    (d.1 = held -> rs' = rs /\ lowered d.1 s s') /\ (trampoline x = 0 -> func s' d = 0).
Proof.
  intros I T Dx Tf Ti. pose proof (lookup_detour_inv _ _ _ Dx) as (r & Er & Br & Ex).
  pose proof I as [_ _ O U _ _]. unfold DdkFreeDetour. rewrite (bind_run _ _ _ _ _ (detour_at_run _ _ _ Dx)).
  rewrite (ok_region _ _ _ (O _ _ Er) _ _ Ex).
  destruct (Z.eqb_spec (intercepts x) 0) as [Ez | Ez]; simpl.
  - destruct (DdkDetachDetour_run s d x Dx) as (st & l & t & R & Bt).
    rewrite (bind_run _ _ _ _ _ R).
    pose proof (lookup_put_same (set_library l s) d x (set_trampoline t x) Dx) as Dy.
    rewrite (bind_run _ _ _ _ _ (detour_at_run _ _ _ Dy)).
    assert (forall d', func (put_detour d (set_trampoline t x) (set_library l s)) d' = func s d' /\
      head_of (put_detour d (set_trampoline t x) (set_library l s)) d' = head_of s d' /\
      (d' <> d -> tramp (put_detour d (set_trampoline t x) (set_library l s)) d' = tramp s d')) as V.
    { intros d'. destruct (get_put (set_library l s) d x (set_trampoline t x) Dx d') as (-> & -> & ->).
      case_decide; [subst | done]. unfold func, head_of. rewrite Dx. done. }
    destruct (release_detour_run held (put_detour d (set_trampoline t x) (set_library l s)) rs d (set_trampoline t x))
      as (r1 & r' & Er1 & Er' & R2 & I2 & T2 & F2 & Hw & Ln & Fz); [| | done | done | |].
    { eapply rinv_put; [by apply rinv_library | exact Dx | done | done | done]. }
    { intros d' Hd. destruct (V d') as (-> & _ & Vt). rewrite Vt by (intros ->; by apply Hd). by apply T. }
    { simpl. intros Ht. apply Tf. intros E0. apply Ht, Bt, E0. }
    rewrite (bind_run _ _ _ _ _ R2). rewrite (bind_run _ _ _ _ _ (region_at_run _ _ _ Er')).
    destruct (shrink_run held _ rs d.1 r' I2 T2 Er') as (s' & rs' & R3 & I3 & T3 & S3 & V3 & L3).
    exists st, s', rs'. split; [| split; [done | split; [done | split; [| split]]]].
    + apply R3.
    + eapply freed_trans; [| eapply freed_trans; [exact F2 | by apply freed_same]].
      apply freed_same; [done |]. intros d'. by destruct (V d') as (-> & -> & _).
    + intros Eh. destruct (L3 Eh) as [-> Lw]. split; [done |]. intros q Eq. simplify_eq.
      destruct (Lw r' Er') as (r3 & Er3 & Hr3 & Ln3). exists r3.
      rewrite (put_as_insert (set_library l s) d r (set_trampoline t x) Er) in Er1. simpl in Er1.
      rewrite lookup_insert_eq in Er1. injection Er1 as <-. simpl in Hw, Ln. rewrite length_insert in Ln.
      split; [done |]. split; [lia | congruence].
    + intros E0. destruct (V3 d) as [-> _]. by apply Fz, Bt.
  - exists STATUS_SUCCESS, s, rs. split; [done |]. split; [| split; [| split; [| split]]].
    + apply (rinv_tighten held d.1 s rs r); [done | done |].
      destruct (O _ _ Er) as [[_ C] Fr _ _ _ _ _]. rewrite Fr, <- C. intros G.
      apply (Tf (Ti Ez)). by eapply nfree_all.
    + intros d' _. destruct (decide (d' = d)) as [-> |]; [| apply T; congruence].
      unfold tramp, func. rewrite Dx. simpl. specialize (Ti Ez). specialize (Tf Ti). tauto.
    + by apply freed_same.
    + intros _. split; [done |]. intros q Eq. exists q. split; [done |]. split; [lia | done].
    + intros E0. by specialize (Ti Ez).
Qed.


(** ** Finding a detour *)

Lemma scan_run n l i f :
  0 <= i -> i + Z.of_nat n <= Z.of_nat (length l) ->
  (exists j x, scan n l i f = Ok (Some j) /\ i <= j < i + Z.of_nat n /\ l !! Z.to_nat j = Some x /\ function x = f) \/
  (scan n l i f = Ok None /\
   forall j x, i <= j < i + Z.of_nat n -> l !! Z.to_nat j = Some x -> function x <> f).
Proof.
  revert i. induction n as [|n IH]; intros i Hi Hn; simpl.
  - right. split; [done |]. lia.
  - destruct (lookup_lt_is_Some_2 l (Z.to_nat i)) as [x Ex]; [lia |].
    rewrite (array_get_some l i x) by (done || lia). simpl. destruct (Z.eqb_spec (function x) f) as [F | F].
    + left. exists i, x. split_and!; (done || lia).
    + destruct (IH (i + 1)) as [(j & y & -> & B & Ey & Fy) | (-> & No)]; [lia | lia | |].
      * left. exists j, y. split_and!; (done || lia).
      * right. split; [done |]. intros j y B Ey. destruct (Z.eq_dec j i) as [-> |]; [congruence | apply (No j); [lia | done]].
Qed.

Lemma func_some s d f : func s d = f -> f <> 0 -> exists x, lookup_detour s d = Some x /\ function x = f.
Proof. unfold func. destruct (lookup_detour s d) as [x |]; simpl; [eauto | congruence]. Qed.

Lemma find_loop_run held loose s rs0 rs p f fuel :
  rinv held loose s rs0 -> lseg r_next (regions s) p rs -> (length rs < fuel)%nat -> f <> 0 ->
  exists o, find_loop fuel p f s = Ok (o, s) /\
    match o with Some d => func s d = f | None => forall d, d.1 ∈ rs -> func s d <> f end.
Proof.
  intros I. revert fuel p. induction rs as [|q rs IH]; intros [|fuel] p L Fu N; simpl in Fu; try lia.
  - simpl in L. subst p. exists None. split; [done |]. intros d Hd. by apply not_elem_of_nil in Hd.
  - destruct L as (-> & Nq & r & Er & L). simpl. rewrite (proj2 (Z.eqb_neq q 0)) by done.
    rewrite (bind_run _ _ _ _ _ (region_at_run _ _ _ Er)).
    pose proof (inv_ok _ _ _ _ I _ _ Er) as [[_ C2] _ Hw Ab _ Ne _].
    destruct (IH fuel (r_next r) L ltac:(lia) N) as (o & R & P).
    assert (forall d, d.1 = q -> func s d = f -> exists x, detours r !! Z.to_nat d.2 = Some x /\ function x = f /\
      0 <= d.2 < hwm r) as Here.
    { intros d <- (x & Dx & Fx)%func_some; [| done]. apply lookup_detour_inv in Dx as (r' & Er' & B & Ex).
      simplify_eq. exists x. split; [done |]. split; [done |]. split; [lia |].
      destruct (Z.lt_ge_cases d.2 (hwm r)) as [? | G]; [done |]. destruct N. apply (Ab _ _ Ex). lia. }
    destruct (DdkIsRegionWithinJumpBounds q r f 0) eqn:J; simpl.
    + destruct (scan_run (Z.to_nat (hwm r)) (detours r) 0 f) as [(j & x & Sc & B & Ex & Fx) | (Sc & No)]; [lia | lia | |];
        unfold lift, mbind, M_bind; rewrite Sc.
      * exists (Some (q, j)). split; [done |]. unfold func, lookup_detour. simpl. rewrite Er. simpl.
        case_z; [| lia]. by rewrite Ex.
      * exists o. split; [done |]. destruct o as [d |]; [done |]. intros d [Hd | Hd]%elem_of_cons; [| by apply P].
        intros Fd. destruct (Here d Hd Fd) as (x & Ex & Fx & B). apply (No d.2 x); [lia | done | done].
    + exists o. split; [done |]. destruct o as [d |]; [done |]. intros d [Hd | Hd]%elem_of_cons; [| by apply P].
      intros Fd. destruct (Here d Hd Fd) as (x & Ex & Fx & B).
      rewrite <- Fx in N, J. pose proof (Ne _ _ Ex N) as J'. congruence.
Qed.

Lemma DdkFindDetour_run held loose s rs f :
  rinv held loose s rs -> f <> 0 ->
  exists o, DdkFindDetour f s = Ok (o, s) /\
    match o with Some d => func s d = f | None => forall d, func s d <> f end.
Proof.
  intros I N. pose proof (inv_list _ _ _ _ I) as L.
  destruct (find_loop_run held loose s rs rs (regionlist s) f (S (size (regions s))) I L) as (o & R & P); [| done |].
  { pose proof (lseg_size _ _ _ _ L). lia. }
  exists o. split; [exact R |]. destruct o; [done |]. intros d Fd.
  destruct (func_some s d f Fd N) as (x & Dx & _). apply lookup_detour_inv in Dx as (r & Er & _).
  apply (P d); [| done]. apply (inv_in_list _ _ _ _ I). by eexists.
Qed.

Lemma pick_loop_run s rs p f fuel :
  lseg r_next (regions s) p rs -> (length rs < fuel)%nat ->
  exists q, pick_loop fuel p f s = Ok (q, s) /\
    (q = 0 \/ q <> 0 /\ exists r, regions s !! q = Some r /\ freecount r <> 0 /\
      DdkIsRegionWithinJumpBounds q r f 0x100 = true).
Proof.
  revert fuel p. induction rs as [|q rs IH]; intros [|fuel] p L Fu; simpl in Fu; try lia.
  - simpl in L. subst p. exists 0. split; [done | by left].
  - destruct L as (-> & Nq & r & Er & L). simpl. rewrite (proj2 (Z.eqb_neq q 0)) by done.
    rewrite (bind_run _ _ _ _ _ (region_at_run _ _ _ Er)).
    destruct (negb (freecount r =? 0) && DdkIsRegionWithinJumpBounds q r f 256) eqn:C.
    + exists q. split; [done |]. right. apply andb_true_iff in C as [C1 C2].
      apply negb_true_iff, Z.eqb_neq in C1. eauto 6.
    + apply IH; [done | lia].
Qed.

(** A function near enough with slack is near enough. *)
Lemma bounds_slack p r f : DdkIsRegionWithinJumpBounds p r f 0x100 = true -> DdkIsRegionWithinJumpBounds p r f 0 = true.
Proof.
  unfold DdkIsRegionWithinJumpBounds, MAXIMUM_JUMP. rewrite !Z.geb_leb, !Z.gtb_ltb.
  change (u32 (2147483648 - 256)) with 2147483392. change (u32 (2147483648 - 0)) with 2147483648.
  rewrite !orb_true_iff, !andb_true_iff, !Z.leb_le, !Z.ltb_lt. lia.
Qed.

End inv.

(** * giving a function a detour

    [DdkAllocateRegion] and [DdkAllocateDetour] keep the invariants of DetoursInv; if
    they fail, everything is as it was. *)

Section alloc.
Context `{DETOURS} `{!DETOURS_Laws}.

(** What is asked of the memory [DetourAllocateRegionWithinJumpBounds] returns, if it is
    large enough: it is not in use, and near the function. *)
Definition alloc_ok (s : state) (alloc : Z * Z) (f : Z) : Prop :=
  alloc.1 <> 0 -> sizeof_REGION <= alloc.2 ->
  regions s !! alloc.1 = None /\ alloc.2 < 2 ^ 32 /\
  forall r, r_size r = alloc.2 -> DdkIsRegionWithinJumpBounds alloc.1 r f 0 = true.

Lemma nfree_replicate n p : nfree (replicate n (mkDetour p 0 0 0)) = Z.of_nat n.
Proof. unfold nfree. induction n as [|n IH]; [done |]. rewrite replicate_S, filter_cons_True by done. rewrite length_cons. lia. Qed.

Lemma nfree_none l : (forall j x, l !! j = Some x -> function x <> 0) -> nfree l = 0.
Proof.
  unfold nfree. induction l as [|y l IH]; [done |]. intros N.
  rewrite filter_cons_False by exact (N 0%nat y eq_refl). apply IH. intros j. apply (N (S j)).
Qed.

Lemma DdkAllocateRegion_run s rs alloc f :
  rinv 0 0 s rs -> tinv None s -> alloc_ok s alloc f ->
  DdkAllocateRegion alloc s = Ok ((STATUS_INSUFFICIENT_RESOURCES, 0), s) \/
  exists s', DdkAllocateRegion alloc s = Ok ((STATUS_SUCCESS, alloc.1), s') /\
    rinv 0 alloc.1 s' (alloc.1 :: rs) /\ tinv None s' /\ same_rest s s' /\
    (forall d, func s' d = func s d /\ head_of s' d = head_of s d) /\
    exists r, regions s' !! alloc.1 = Some r /\ freecount r <> 0 /\
      DdkIsRegionWithinJumpBounds alloc.1 r f 0 = true.
Proof.
  destruct alloc as [p size]. intros I T A. unfold alloc_ok, DdkAllocateRegion in *. simpl in *.
  destruct (Z.eqb_spec p 0) as [|Np]; [by left |]. destruct (Z.ltb_spec size sizeof_REGION) as [|Hs]; [by left |].
  right. simpl. destruct (A Np Hs) as (Fr & Sz & Near). pose proof I as [L In O U F W].
  set (n := u64 ((size - sizeof_REGION) / sizeof_DETOUR + 1)).
  assert (0 < n < 2 ^ 64) as Bn.
  { unfold n, u64, sizeof_REGION, sizeof_DETOUR in *. rewrite Z.mod_small; [| split];
      pose proof (Z.div_pos (size - 96) 56); pose proof (Z.div_le_upper_bound (size - 96) 56 (2 ^ 32)); lia. }
  set (r := mkRegion (regionlist s) size 0 n n 0 (replicate (Z.to_nat n) (mkDetour p 0 0 0))).
  set (s' := set_list p (set_regions <[p := r]> s)).
  assert (forall d, lookup_detour s' d = None \/ lookup_detour s' d = Some (mkDetour p 0 0 0) \/ d.1 <> p) as Here.
  { intros d. destruct (decide (d.1 = p)) as [<- |]; [| by right; right].
    unfold lookup_detour, s'. simpl. rewrite lookup_insert_eq. simpl. destruct (0 <=? d.2); [| by left].
    destruct (replicate _ _ !! _) eqn:E; [| by left]. apply lookup_replicate in E as [-> _]. by right; left. }
  assert (forall d, d.1 <> p -> lookup_detour s' d = lookup_detour s d) as There.
  { intros d Hd. unfold lookup_detour, s'. simpl. by rewrite lookup_insert_ne. }
  assert (forall d, d.1 = p -> lookup_detour s d = None) as Before.
  { intros d Hd. unfold lookup_detour. by rewrite Hd, Fr. }
  assert (forall d, func s' d = func s d /\ head_of s' d = head_of s d /\ tramp s' d = tramp s d) as V.
  { intros d. unfold func, head_of, tramp. destruct (decide (d.1 = p)) as [Hd | Hd]; [| by rewrite There].
    rewrite (Before d Hd). by destruct (Here d) as [-> | [-> | Hd']]. }
  assert (p ∉ rs) as Hp.
  { intros Hp. destruct (lseg_live _ _ _ _ _ L Hp) as [_ [r' E]]. congruence. }
  exists s'. split; [done |]. split; [| split; [| split; [done | split]]].
  - split; simpl.
    + split; [done |]. split; [done |]. exists r. rewrite lookup_insert_eq. split; [done |].
      by apply lseg_outside.
    + intros q Hq. destruct (decide (q = p)) as [-> |]; [by left |]. right. apply In.
      by rewrite lookup_insert_ne in Hq.
    + intros q rq [(<- & <-) | (_ & Eq)]%lookup_insert_Some; [| by apply O].
      rewrite bool_decide_eq_false_2 by done. split; simpl; try done.
      * rewrite length_replicate. lia.
      * rewrite nfree_replicate. lia.
      * lia.
      * by intros i x [-> _]%lookup_replicate.
      * by intros i x [-> _]%lookup_replicate.
      * by intros i x [-> _]%lookup_replicate.
    + intros q rq [(<- & <-) | (Nq & Eq)]%lookup_insert_Some Hq Hq'; [done |]. apply (U q); [done | done |].
      intros ->. destruct (lseg_live _ _ _ _ 0 L) as [[] _]; [| done]. apply In. by eexists.
    + intros a b. destruct (V a) as (-> & _), (V b) as (-> & _). apply F.
    + intros a. destruct (V a) as (-> & -> & _). apply W.
  - eapply tinv_same; [exact T |]. intros d. by destruct (V d) as (-> & _ & ->).
  - intros d. by destruct (V d) as (-> & -> & _).
  - exists r. unfold s'. simpl. rewrite lookup_insert_eq. split; [done |]. split; [simpl; lia | by apply Near].
Qed.

(** Taking a free detour, as [DdkAllocateDetour] does. *)
Definition claim (i f : Z) (x : DETOUR) (r : REGION) : REGION :=
  set_freecount (u64 (freecount r - 1)) (set_detours (<[Z.to_nat i := mkDetour (region x) f 0 0]> (detours r))
    (set_hwm (Z.max (hwm r) (i + 1)) r)).

Lemma claim_ok held p r i f x :
  region_ok held p r -> 0 <= i < count r -> detours r !! Z.to_nat i = Some x -> function x = 0 -> f <> 0 ->
  DdkIsRegionWithinJumpBounds p r f 0 = true ->
  region_ok held p (claim i f x r) /\ freecount (claim i f x r) <> count (claim i f x r).
Proof.
  intros [[C1 C2] Fr Hw Ab Re Ne He] Bi E Fx Nf J.
  pose proof (nfree_insert _ _ _ (mkDetour (region x) f 0 0) E) as I. simpl in I.
  rewrite Fx, (proj2 (Z.eqb_neq f 0)) in I by done. simpl in I.
  pose proof (nfree_bound (<[Z.to_nat i := mkDetour (region x) f 0 0]> (detours r))) as B.
  pose proof (nfree_bound (detours r)) as B'. rewrite length_insert in B.
  assert (u64 (freecount r - 1) = nfree (detours r) - 1) as Eu.
  { rewrite Fr. unfold u64. rewrite Z.mod_small; lia. }
  split; [| simpl; lia]. split; simpl; rewrite ?length_insert; try done; try lia.
  - intros j z [(<- & <- & _) | [_ E']]%list_lookup_insert_Some Hj; [lia | apply (Ab j); [done | lia]].
  - intros j z [(<- & <- & _) | [_ E']]%list_lookup_insert_Some; [by eapply (Re _ x) | by eapply Re].
  - intros j z [(<- & <- & _) | [_ E']]%list_lookup_insert_Some Hz; [exact J | by apply (Ne j)].
Qed.

Lemma claim_run s p r i f x (A : Type) (k : D A) :
  regions s !! p = Some r -> 0 <= i < Z.of_nat (length (detours r)) -> detours r !! Z.to_nat i = Some x ->
  0 <= hwm r ->
  (_ ← (if i >=? hwm r then change_region p (set_hwm (i + 1)) else mret tt);
   _ ← change_detour (p, i) (fun x => mkDetour (region x) f 0 0);
   _ ← change_region p (fun r => set_freecount (u64 (freecount r - 1)) r); k) s =
  k (set_regions <[p := claim i f x r]> s).
Proof.
  intros E B Ex Hw.
  assert ((if i >=? hwm r then change_region p (set_hwm (i + 1)) else mret tt) s =
    Ok (tt, set_regions <[p := set_hwm (Z.max (hwm r) (i + 1)) r]> s)) as R1.
  { rewrite Z.geb_leb. destruct (Z.leb_spec (hwm r) i).
    - rewrite (change_region_run _ _ _ _ E). by rewrite Z.max_r by lia.
    - rewrite Z.max_l by lia. rewrite set_regions_id; [done |]. rewrite E. by destruct r. }
  rewrite (bind_run _ _ _ _ _ R1).
  set (s1 := set_regions <[p := set_hwm (Z.max (hwm r) (i + 1)) r]> s).
  assert (regions s1 !! p = Some (set_hwm (Z.max (hwm r) (i + 1)) r)) as E1 by (simpl; by rewrite lookup_insert_eq).
  assert (lookup_detour s1 (p, i) = Some x) as D1.
  { unfold lookup_detour. cbn [fst snd]. rewrite E1. simpl. case_z; [done | lia]. }
  rewrite (bind_run _ _ _ _ _ (change_detour_run _ _ _ _ D1)).
  set (s2 := put_detour _ _ s1).
  assert (regions s2 !! p = Some (set_detours (<[Z.to_nat i := mkDetour (region x) f 0 0]> (detours r))
    (set_hwm (Z.max (hwm r) (i + 1)) r))) as E2.
  { unfold s2. rewrite (put_as_insert s1 (p, i) _ _ E1). simpl. by rewrite lookup_insert_eq. }
  rewrite (bind_run _ _ _ _ _ (change_region_run _ _ _ _ E2)).
  unfold s2. rewrite (put_as_insert _ (p, i) _ _ E1). unfold s1. cbn [fst snd].
  by rewrite !set_regions_twice.
Qed.

(** A detour that is claimed gets the function. *)
Lemma claim_view s p r i f x d :
  regions s !! p = Some r -> 0 <= i < Z.of_nat (length (detours r)) -> detours r !! Z.to_nat i = Some x ->
  lookup_detour (set_regions <[p := claim i f x r]> s) d =
    if decide (d = (p, i)) then Some (mkDetour (region x) f 0 0) else lookup_detour s d.
Proof.
  intros E B Ex. unfold lookup_detour, set_regions. simpl. destruct d as [q j]. simpl.
  destruct (decide (p = q)) as [<- |].
  - rewrite lookup_insert_eq, E. simpl. destruct (Z.leb_spec 0 j); [| case_decide; [simplify_eq; lia | done]].
    case_decide as C.
    + simplify_eq. rewrite list_lookup_insert_eq by lia. done.
    + rewrite list_lookup_insert_ne; [done |]. intros G. apply C. f_equal. lia.
  - rewrite lookup_insert_ne by done. case_decide; [congruence | done].
Qed.

(** The second half of [DdkAllocateDetour]: a region with a free detour. *)
Definition allocate_in (pRegion pFunction : Z) : D (Z * option detptr) :=
  r ← region_at pRegion;
  i ← lift (scan (Z.to_nat (count r)) (detours r) 0 0);
  match i with
  | None => fail (DdkFailed "Region has no free detours")
  | Some i =>
      _ ← (if i >=? hwm r then change_region pRegion (set_hwm (i + 1)) else mret tt);
      _ ← change_detour (pRegion, i) (fun x => mkDetour (region x) pFunction 0 0);
      _ ← change_region pRegion (fun r => set_freecount (u64 (freecount r - 1)) r);
      status ← DdkAttachDetour (Some (pRegion, i));
      if negb (succeeds status) then _ ← DdkFreeDetour (Some (pRegion, i)); mret (status, None)
      else mret (STATUS_SUCCESS, Some (pRegion, i))
  end.

(** What [DdkAllocateDetour] did: [o] is the detour of the function, or nothing changed. *)
Definition allocated (f : Z) (s : state) (st : Z) (o : option detptr) (s' : state) : Prop :=
  same_rest s s' /\ (forall d, head_of s' d = head_of s d) /\
  match o with
  | Some d => st = STATUS_SUCCESS /\ func s d = 0 /\ func s' d = f /\ is_Some (lookup_detour s' d) /\
      (forall d', d' <> d -> func s' d' = func s d')
  | None => succeeds st = false /\ (forall d, func s' d = func s d)
  end.

Lemma allocate_in_run s rs p r f :
  rinv 0 p s rs -> tinv None s -> f <> 0 -> (forall d, func s d <> f) ->
  regions s !! p = Some r -> freecount r <> 0 -> DdkIsRegionWithinJumpBounds p r f 0 = true ->
  exists st o s' rs', allocate_in p f s = Ok ((st, o), s') /\ rinv 0 0 s' rs' /\ tinv None s' /\ allocated f s st o s'.
Proof.
  intros I T Nf New E Fr J. pose proof I as [_ _ O _ F W]. pose proof (O _ _ E) as K.
  pose proof K as [[C1 C2] Fc Hw _ _ _ _]. unfold allocate_in.
  rewrite (bind_run _ _ _ _ _ (region_at_run _ _ _ E)).
  destruct (scan_run (Z.to_nat (count r)) (detours r) 0 0) as [(i & x & Sc & B & Ex & Fx) | (Sc & No)]; [lia | lia | |].
  2: { destruct Fr. rewrite Fc. apply nfree_none. intros j x Ex. apply (No (Z.of_nat j)); [| by rewrite Nat2Z.id].
       apply lookup_lt_Some in Ex. lia. }
  assert (lift (scan (Z.to_nat (count r)) (detours r) 0 0) s = Ok (Some i, s)) as Ls by (unfold lift; by rewrite Sc).
  rewrite (bind_run _ _ _ _ _ Ls).
  rewrite (claim_run s p r i f x) by (done || lia).
  set (s2 := set_regions <[p := claim i f x r]> s). set (y := mkDetour (region x) f 0 0).
  assert (forall d, lookup_detour s2 d = if decide (d = (p, i)) then Some y else lookup_detour s d) as V2
    by (intros; apply claim_view; done || lia).
  assert (lookup_detour s (p, i) = Some x) as Dx.
  { unfold lookup_detour. cbn [fst snd]. rewrite E. simpl. case_z; [done | lia]. }
  assert (forall d, func s2 d = (if decide (d = (p, i)) then f else func s d) /\ head_of s2 d = head_of s d /\
    (d <> (p, i) -> tramp s2 d = tramp s d)) as G2.
  { intros d. unfold func at 1, head_of at 1, tramp at 1. rewrite V2.
    destruct (decide (d = (p, i))) as [-> |]; [| done]. simpl.
    rewrite (W (p, i)) by (unfold func; by rewrite Dx). done. }
  destruct (claim_ok _ p r i f x K ltac:(lia) Ex Fx Nf J) as [K2 Fn2].
  assert (rinv 0 p s2 rs) as I2.
  { apply (rinv_replace 0 p s rs p r); try done.
    - intros a b. fold s2. destruct (G2 a) as (-> & _), (G2 b) as (-> & _).
      destruct (decide (a = (p, i))) as [-> |], (decide (b = (p, i))) as [-> |]; [done | | | apply F].
      + intros _ Eq. by destruct (New b).
      + intros _ Eq. by destruct (New a).
    - intros a. fold s2. destruct (G2 a) as (-> & -> & _). destruct (decide (a = (p, i))); [done | apply W]. }
  assert (tinv (Some (p, i)) s2) as T2.
  { intros d Hd. assert (d <> (p, i)) as Hd' by (intros ->; by apply Hd). destruct (G2 d) as (-> & _ & Vt).
    rewrite (Vt Hd'), decide_False by done. by apply T. }
  assert (lookup_detour s2 (p, i) = Some y) as Dy by (by rewrite V2, decide_True).
  destruct (DdkAttachDetour_run s2 (p, i) y Dy eq_refl Nf) as (st & l & t & R & Bt).
  rewrite (bind_run _ _ _ _ _ R). set (s3 := put_detour (p, i) (set_trampoline t y) (set_library l s2)) in *.
  assert (forall d, func s3 d = func s2 d /\ head_of s3 d = head_of s2 d /\
    tramp s3 d = (if decide (d = (p, i)) then t else tramp s2 d)) as G3.
  { intros d. unfold s3. destruct (get_put (set_library l s2) (p, i) y (set_trampoline t y) Dy d) as (-> & -> & ->).
    destruct (decide (d = (p, i))) as [-> |]; [| done]. unfold func, head_of. by rewrite Dy. }
  assert (rinv 0 p s3 rs) as I3 by (by apply (rinv_put 0 p (set_library l s2) rs (p, i) y); [apply rinv_library | ..]).
  destruct (succeeds st) eqn:S; simpl.
  - exists STATUS_SUCCESS, (Some (p, i)), s3, rs. split; [done |]. split; [| split; [| split; [done | split]]].
    + assert (regions (set_library l s2) !! p = Some (claim i f x r)) as E2 by (simpl; by rewrite lookup_insert_eq).
      eapply (rinv_tighten 0 p s3 rs); [done | |].
      * unfold s3. rewrite (put_as_insert _ (p, i) _ _ E2). simpl. by rewrite lookup_insert_eq.
      * exact Fn2.
    + intros d _. destruct (G3 d) as (-> & _ & ->). destruct (decide (d = (p, i))) as [-> | Hd].
      * destruct (G2 (p, i)) as (-> & _). rewrite decide_True by done. tauto.
      * apply T2. intros [= ->]. by apply Hd.
    + intros d. destruct (G3 d) as (_ & -> & _). apply G2.
    + split; [done |]. split; [unfold func; rewrite Dx; exact Fx |].
      split; [destruct (G3 (p, i)) as (-> & _), (G2 (p, i)) as (-> & _); by rewrite decide_True |].
      split; [by eexists; apply (lookup_put_same (set_library l s2) (p, i) y) |].
      intros d Hd. destruct (G3 d) as (-> & _), (G2 d) as (-> & _). by rewrite decide_False.
  - subst t. assert (lookup_detour s3 (p, i) = Some (set_trampoline 0 y)) as Dz
      by apply (lookup_put_same (set_library l s2) (p, i) y _ Dy).
    destruct (DdkFreeDetour_run 0 s3 rs (p, i) (set_trampoline 0 y)) as (st' & s' & rs' & R' & I' & T' & [Fr' Fh Fo Ft] & _ & Fz); try done.
    { intros d Hd. assert (d <> (p, i)) as Hd' by (intros ->; by apply Hd). destruct (G3 d) as (-> & _ & ->).
      rewrite decide_False by done. by apply T2. }
    rewrite (bind_run _ _ _ _ _ R'). exists st, None, s', rs'. split; [done |]. split; [done |]. split; [done |].
    split; [done |]. split; [| split; [done |]].
    + intros d. rewrite Fh. destruct (G3 d) as (_ & -> & _). apply G2.
    + intros d. destruct (decide (d = (p, i))) as [-> | Hd].
      * rewrite Fz by done. unfold func. by rewrite Dx.
      * rewrite Fo by done. destruct (G3 d) as (-> & _), (G2 d) as (-> & _). by rewrite decide_False.
Qed.

(** [DdkAllocateDetour] for a function that has none: it gets one, with a trampoline and
    no intercepts, or the call fails and no function has gained or lost one. *)
Lemma DdkAllocateDetour_run s rs alloc f :
  rinv 0 0 s rs -> tinv None s -> f <> 0 -> (forall d, func s d <> f) -> alloc_ok s alloc f ->
  exists st o s' rs', DdkAllocateDetour alloc f s = Ok ((st, o), s') /\
    rinv 0 0 s' rs' /\ tinv None s' /\ allocated f s st o s'.
Proof.
  intros I T Nf New A. unfold DdkAllocateDetour.
  rewrite (bind_run region_fuel _ s _ s eq_refl), (bind_run get _ s s s eq_refl).
  destruct (pick_loop_run s rs (regionlist s) f (S (size (regions s)))) as (p0 & R0 & Pick).
  { apply (inv_list _ _ _ _ I). }
  { pose proof (lseg_size _ _ _ _ (inv_list _ _ _ _ I)). lia. }
  rewrite (bind_run _ _ _ _ _ R0). destruct Pick as [-> | (Np & r & Er & Fr & J)].
  - destruct (DdkAllocateRegion_run s rs alloc f I T A) as [R | (s1 & R & I1 & T1 & S1 & V1 & r & Er & Fr & J)];
      rewrite Z.eqb_refl, (bind_run _ _ _ _ _ R).
    + exists STATUS_INSUFFICIENT_RESOURCES, None, s, rs. done.
    + destruct (allocate_in_run s1 (alloc.1 :: rs) alloc.1 r f) as (st & o & s' & rs' & R' & I' & T' & S' & Hd & Al); try done.
      { intros d. destruct (V1 d) as [-> _]. apply New. }
      exists st, o, s', rs'. split; [exact R' |]. split; [done |]. split; [done |].
      split; [by eapply same_rest_trans |]. split; [intros d; rewrite Hd; apply V1 |].
      destruct o as [d |].
      * destruct Al as (? & Fd & ? & ? & Fo). destruct (V1 d) as [E1 _]. split_and!; try done; [congruence |].
        intros d' Hd'. rewrite Fo by done. apply V1.
      * destruct Al as (? & Fo). split; [done |]. intros d. rewrite Fo. apply V1.
  - rewrite (proj2 (Z.eqb_neq p0 0)) by done. rewrite (bind_run _ _ s (STATUS_SUCCESS, p0) s) by done.
    apply (allocate_in_run s rs p0 r f); try done; [| by apply bounds_slack].
    destruct I as [L In O U F W]. split; try done. intros q rq Eq Hq _. apply (U q); [done | done |].
    intros ->. destruct (lseg_live _ _ _ _ 0 L) as [[] _]; [| done]. apply In. by eexists.
Qed.

End alloc.
