(* ===== verification/DetoursSpec.v ===== *)
(** * DetoursSpec: what attaching and detaching intercepts promises

    The abstract state is a map from functions to lists of intercepts, newest first.
    [rep] relates it to regions, detours and entries; [DdkAttachIntercept] adds to a list,
    [DdkDetachIntercept] and [DdkDetachAddressRange] filter the lists, and
    [DdkGetIntercept] chooses from one, whatever the library answers. *)

From S2P Require Import Prelude Detours DetoursInv.

Record hook := mkHook { h_intercept : Z; h_identity : Z; h_instance : Z; h_thread : Z }.

Definition info (n : INTERCEPT) : hook := mkHook (intercept n) (identity n) (instance n) (thread n).

(** All of an entry but its link. *)
Definition content (n : INTERCEPT) : option detptr * hook := (i_detour n, info n).

Section spec.
Context `{DETOURS} `{!DETOURS_Laws}.

(** The entries of each detour, which they point back to. *)
Record einv (s : state) (L : detptr -> list Z) : Prop := {
  ent_list : forall d, lseg i_next (entries s) (head_of s d) (L d);
  ent_owner : forall d e, e ∈ L d -> exists n, entries s !! e = Some n /\ i_detour n = Some d;
  ent_all : forall e n d, entries s !! e = Some n -> i_detour n = Some d -> e ∈ L d
}.

(** No entry is without a detour: none leaks. *)
Definition owned (s : state) : Prop := forall e n, entries s !! e = Some n -> i_detour n <> None.

Definition hooks_of (s : state) (l : list Z) : list hook := omap (fun e => info <$> entries s !! e) l.

(** [A f]: the intercepts of [f], newest first. *)
Definition rep (s : state) (A : Z -> list hook) : Prop :=
  exists rs L, rinv 0 0 s rs /\ tinv None s /\ einv s L /\ owned s /\
    (forall d, func s d <> 0 -> A (func s d) = hooks_of s (L d)) /\
    (forall f, f <> 0 -> (forall d, func s d <> f) -> A f = []).

(** ** Helpers *)

Lemma rinv_entries held loose s rs f : rinv held loose s rs -> rinv held loose (set_entries f s) rs.
Proof. by intros []. Qed.

Lemma einv_same s s' L :
  einv s L -> entries s' = entries s -> (forall d, head_of s' d = head_of s d) -> einv s' L.
Proof. intros [A B C] E F. split; rewrite ?E; [intros d; rewrite F; apply A | done | done]. Qed.

Lemma in_use held loose s rs L d e : rinv held loose s rs -> einv s L -> e ∈ L d ->
  exists x, lookup_detour s d = Some x /\ function x <> 0 /\ intercepts x <> 0.
Proof.
  intros I E He. assert (head_of s d <> 0) as Hh.
  { intros Z0. pose proof (ent_list _ _ E d) as Ls. rewrite Z0 in Ls.
    rewrite (lseg_zero _ _ _ Ls) in He. by apply not_elem_of_nil in He. }
  assert (func s d <> 0) as Hf by (intros Z0; by apply Hh, (inv_empty _ _ _ _ I)).
  unfold head_of, func in *. destruct (lookup_detour s d) as [x |]; [| done]. by exists x.
Qed.

Lemma entry_at_run s p n : entries s !! p = Some n -> entry_at p s = Ok (n, s).
Proof. intros E. unfold entry_at. by rewrite E. Qed.

Lemma change_entry_run s p n f :
  entries s !! p = Some n -> change_entry p f s = Ok (tt, set_entries <[p := f n]> s).
Proof. intros E. unfold change_entry. mrun. by rewrite (entry_at_run _ _ _ E). Qed.

Lemma lseg_head {A} (nxt : A -> Z) m p l : lseg nxt m p l -> p = hd 0 l.
Proof. destruct l; [done | by intros [-> _]]. Qed.

(** ** Freeing an entry *)

(** The state [unlink_entry] leaves. *)
Definition entry_unlinked (d : detptr) (x : DETOUR) (pre : list Z) (e : Z) (n : INTERCEPT) (s : state) : state :=
  set_entries (fun m => <[e := set_i_next 0 n]> (relink set_i_next pre (i_next n) m))
    (if pre is [] then put_detour d (set_intercepts (i_next n) x) s else s).

Lemma unlink_entry_run s d epp pre e post n x fuel :
  lookup_detour s d = Some x ->
  lseg i_next (entries s) (match epp with None => intercepts x | Some q => default 0 (i_next <$> entries s !! q) end)
    (pre ++ e :: post) ->
  (forall q, epp = Some q -> is_Some (entries s !! q) /\ q <> e) ->
  entries s !! e = Some n -> e ∉ pre -> (length pre < fuel)%nat ->
  unlink_entry fuel d epp e s =
    Ok (tt, match last pre, epp with
            | Some q, _ | None, Some q =>
                set_entries (fun m => <[e := set_i_next 0 n]> (alter (set_i_next (i_next n)) q m)) s
            | None, None => set_entries <[e := set_i_next 0 n]> (put_detour d (set_intercepts (i_next n) x) s)
            end).
Proof.
  intros Dx. revert epp pre. induction fuel as [|fuel IH]; intros epp pre Ls Lv E He F; [lia |].
  assert (exists h, read_epp d epp s = Ok (h, s) /\ lseg i_next (entries s) h (pre ++ e :: post)) as (h & R & Lh).
  { destruct epp as [q |].
    - destruct (Lv q eq_refl) as [[nq Eq] _]. exists (i_next nq). rewrite Eq in Ls. split; [| done].
      unfold read_epp. mrun. by rewrite (entry_at_run _ _ _ Eq).
    - exists (intercepts x). split; [| done]. unfold read_epp. mrun. by rewrite (detour_at_run _ _ _ Dx). }
  simpl. rewrite (bind_run _ _ _ _ _ R). destruct pre as [|q pre].
  - destruct Lh as (-> & N & _). rewrite (proj2 (Z.eqb_neq e 0)), Z.eqb_refl by done.
    rewrite (bind_run _ _ _ _ _ (entry_at_run _ _ _ E)). destruct epp as [q |]; simpl.
    + destruct (Lv q eq_refl) as [[nq Eq] Nq]. rewrite (bind_run _ _ _ _ _ (change_entry_run _ _ _ _ Eq)).
      rewrite (change_entry_run _ e n) by (simpl; by rewrite lookup_insert_ne).
      unfold set_entries. simpl. do 3 f_equal. f_equal. apply map_eq. intros p.
      destruct (decide (q = p)) as [<- |]; [by rewrite lookup_insert_eq, lookup_alter_eq, Eq |].
      by rewrite lookup_insert_ne, lookup_alter_ne.
    + rewrite (bind_run _ _ _ _ _ (change_detour_run _ _ _ _ Dx)).
      by rewrite (change_entry_run _ e n).
  - destruct Lh as (-> & N & a & Ea & L'). apply not_elem_of_cons in He as [Hq He].
    rewrite (proj2 (Z.eqb_neq q 0)), (proj2 (Z.eqb_neq q e)) by done.
    rewrite (IH (Some q) pre); simpl in F; [| by rewrite Ea | | done | done | lia].
    + rewrite last_cons. by destruct (last pre).
    + intros q' [= <-]. split; [by eexists | congruence].
Qed.

Lemma unlink_entry_list s d pre e post n x :
  lookup_detour s d = Some x -> lseg i_next (entries s) (intercepts x) (pre ++ e :: post) ->
  entries s !! e = Some n ->
  unlink_entry (S (size (entries s))) d None e s = Ok (tt, entry_unlinked d x pre e n s).
Proof.
  intros Dx Ls E. pose proof (lseg_size _ _ _ _ Ls) as Sz. rewrite length_app in Sz. simpl in Sz.
  assert (e ∉ pre) as Np.
  { apply lseg_nodup, NoDup_app in Ls as (_ & Dj & _). intros Hp. apply (Dj e Hp). by left. }
  rewrite (unlink_entry_run s d None pre e post n x) by (done || lia).
  unfold entry_unlinked, relink. destruct (last pre) as [q |] eqn:La; [by destruct pre |].
  apply last_None in La as ->. done.
Qed.


(** The entries of [R] are gone, and nothing else has changed, but that a detour with no
    entries left may be free. *)
Record swept (s : state) (L : detptr -> list Z) (s' : state) (L' : detptr -> list Z) (R : gset Z) : Prop := {
  sw_lists : forall d, L' d = filter (fun e => e ∉ R) (L d);
  sw_gone : forall e, e ∈ R -> entries s' !! e = None;
  sw_kept : forall e, e ∉ R -> content <$> entries s' !! e = content <$> entries s !! e;
  sw_func : forall d, func s' d = func s d \/ func s' d = 0 /\ L' d = [];
  sw_threads : threads s' = threads s /\ realpointer s' = realpointer s
}.

Lemma filter_true (l : list Z) (P : Z -> Prop) `{!forall x, Decision (P x)} : (forall e, e ∈ l -> P e) -> filter P l = l.
Proof.
  induction l as [|e l IH]; intros T; [done |]. rewrite filter_cons_True by (apply T; by left).
  f_equal. apply IH. intros x Hx. apply T. by right.
Qed.

Lemma swept_refl s L : swept s L s L ∅.
Proof. split; try done; [intros d; symmetry; apply filter_true; set_solver | by left]. Qed.

Lemma swept_trans s1 L1 s2 L2 s3 L3 R R' :
  swept s1 L1 s2 L2 R -> swept s2 L2 s3 L3 R' -> (forall e, e ∈ R -> entries s3 !! e = None) ->
  swept s1 L1 s3 L3 (R ∪ R').
Proof.
  intros [Li1 G1 K1 F1 T1] [Li2 G2 K2 F2 T2] Gone. split.
  - intros d. rewrite Li2, Li1, list_filter_filter. apply list_filter_iff. intros e. set_solver.
  - intros e. rewrite elem_of_union. intros [He | He]; [by apply Gone | by apply G2].
  - intros e. rewrite not_elem_of_union. intros [A B]. by rewrite K2, K1.
  - intros d. destruct (F2 d) as [-> | F]; [| by right].
    destruct (F1 d) as [-> | [F E]]; [by left |]. right. split; [done |]. rewrite Li2, E. done.
  - destruct T1, T2. split; congruence.
Qed.

(** What was freed stays freed. *)
Lemma swept_gone s1 L1 s2 L2 R e : swept s1 L1 s2 L2 R -> entries s1 !! e = None -> entries s2 !! e = None.
Proof.
  intros W E. destruct (decide (e ∈ R)); [by apply (sw_gone _ _ _ _ _ W) |].
  pose proof (sw_kept _ _ _ _ _ W e) as K. rewrite E in K. simpl in K.
  destruct (entries s2 !! e); [| done]. by specialize (K ltac:(done)).
Qed.

Lemma swept_union s1 L1 s2 L2 s3 L3 R R' :
  swept s1 L1 s2 L2 R -> swept s2 L2 s3 L3 R' -> swept s1 L1 s3 L3 (R ∪ R').
Proof.
  intros W W'. eapply swept_trans; [exact W | exact W' |]. intros e He.
  eapply swept_gone; [exact W' |]. by apply (sw_gone _ _ _ _ _ W).
Qed.

Lemma lowered_trans p s1 s2 s3 : lowered p s1 s2 -> lowered p s2 s3 -> lowered p s1 s3.
Proof.
  intros A B r E. destruct (A r E) as (r2 & E2 & H2 & Le2). destruct (B r2 E2) as (r3 & E3 & H3 & Le3).
  exists r3. split; [done |]. split; [lia | congruence].
Qed.

Lemma lowered_refl p s : lowered p s s.
Proof. intros r E. exists r. split; [done |]. split; [lia | done]. Qed.

(** Unlinking an entry of a list, and then freeing it, keeps the invariant of the entries. *)
Lemma einv_unlink s L d pre e post n x s2 :
  einv s L -> L d = pre ++ e :: post -> entries s !! e = Some n -> lookup_detour s d = Some x ->
  (forall d', head_of s2 d' = head_of (entry_unlinked d x pre e n s) d') ->
  entries s2 = entries (entry_unlinked d x pre e n s) ->
  einv (set_entries (delete e) s2) (fun d' => filter (fun q => q ∉ ({[e]} : gset Z)) (L d')) /\
  (forall q, q <> e -> content <$> delete e (entries s2) !! q = content <$> entries s !! q).
Proof.
  intros [Ls Ow Al] Ld E Dx Hh He. pose proof (Ls d) as Lsd. rewrite Ld in Lsd.
  pose proof (lseg_nodup _ _ _ _ Lsd) as ND. apply NoDup_app in ND as (NDp & Dj & [Nq NDq]%NoDup_cons).
  assert (e ∉ pre) as Np by (intros Hp; apply (Dj e Hp); by left).
  assert (filter (fun q => q ∉ ({[e]} : gset Z)) (L d) = pre ++ post) as Fd.
  { rewrite Ld, filter_app, filter_cons_False by set_solver. f_equal; apply filter_true; set_solver. }
  assert (forall d', d' <> d -> filter (fun q => q ∉ ({[e]} : gset Z)) (L d') = L d') as Fo.
  { intros d' Hd. apply filter_true. intros q Hq%Ow Hqe. apply elem_of_singleton in Hqe as ->.
    destruct Hq as (n' & E' & O'). destruct (Ow d e) as (n2 & E2 & O2); [rewrite Ld; set_solver |]. congruence. }
  assert (delete e (entries s2) = delete e (relink set_i_next pre (i_next n) (entries s))) as De.
  { rewrite He. unfold entry_unlinked. simpl. rewrite delete_insert_eq. by destruct pre. }
  assert (forall q, q <> e -> content <$> delete e (entries s2) !! q = content <$> entries s !! q) as Ct.
  { intros q Hq. rewrite De, lookup_delete_ne by done. unfold relink. destruct (last pre) as [z |]; [| done].
    destruct (decide (z = q)) as [-> |]; [| by rewrite lookup_alter_ne].
    rewrite lookup_alter_eq. by destruct (entries s !! q). }
  split; [| exact Ct]. split; simpl.
  - intros d'. change (head_of (set_entries (delete e) s2) d') with (head_of s2 d'). rewrite Hh, De. destruct (decide (d' = d)) as [-> | Hd].
    + rewrite Fd. apply lseg_delete; [set_solver |].
      pose proof (lseg_remove i_next set_i_next ltac:(done) _ _ _ _ _ _ Lsd E) as R.
      destruct pre as [|q pre].
      * unfold entry_unlinked, head_of. simpl. change (lookup_detour (set_entries _ ?s) d) with (lookup_detour s d).
        rewrite (lookup_put_same s d x _ Dx). exact R.
      * change (head_of (entry_unlinked d x (q :: pre) e n s) d) with (head_of s d).
        destruct Lsd as (-> & _). exact R.
    + rewrite Fo by done. eapply lseg_ext.
      * assert (head_of (entry_unlinked d x pre e n s) d' = head_of s d') as -> by (destruct pre; [| done];
          destruct (get_put s d x (set_intercepts (i_next n) x) Dx d') as (_ & G & _); rewrite decide_False in G by done; exact G).
        apply Ls.
      * intros q Hq. destruct (Ow d' q Hq) as (n' & E' & O').
        assert (q ∉ L d) as Nqd.
        { intros Hq'. destruct (Ow d q Hq') as (n2 & E2 & O2). congruence. }
        rewrite Ld in Nqd. rewrite lookup_delete_ne by set_solver. unfold relink. destruct (last pre) as [z |] eqn:La; [| done].
        rewrite lookup_alter_ne; [done |]. intros ->. apply Nqd, elem_of_app. left. by apply last_Some_elem_of.
  - intros d' q [Hq Hq']%list_elem_of_filter. destruct (Ow d' q Hq') as (n' & E' & O').
    assert (q <> e) as Hne by set_solver. pose proof (Ct q Hne) as C. rewrite E' in C. simpl in C.
    destruct (delete e (entries s2) !! q) as [n2 |]; [| done]. exists n2. split; [done |]. injection C. congruence.
  - intros q n' d' Eq Od. assert (q <> e) as Hne by (intros ->; by rewrite lookup_delete_eq in Eq).
    pose proof (Ct q Hne) as C. rewrite Eq in C. destruct (entries s !! q) as [n2 |] eqn:E2; [| done].
    apply list_elem_of_filter. split; [set_solver |]. apply (Al q n2); [done |]. injection C. congruence.
Qed.


(** The state while the region [p] has a reference: everything holds of it. *)
Record visiting (p : Z) (rs : list Z) (s : state) (L : detptr -> list Z) : Prop := {
  vi_rinv : rinv p 0 s rs;
  vi_tinv : tinv None s;
  vi_einv : einv s L
}.

Lemma DdkFreeIntercept_run p rs s L d e n :
  visiting p rs s L -> entries s !! e = Some n -> i_detour n = Some d -> d.1 = p ->
  exists st s' L', DdkFreeIntercept e s = Ok (st, s') /\ visiting p rs s' L' /\ swept s L s' L' {[e]} /\ lowered p s s'.
Proof.
  intros [I T E] En On <-. pose proof (ent_all _ _ E _ _ _ En On) as He.
  destruct (in_use _ _ _ _ _ _ _ I E He) as (x & Dx & Fx & Ix).
  pose proof (ent_list _ _ E d) as Ls. destruct (list_elem_of_split _ _ He) as (pre & post & Ld).
  rewrite Ld in Ls. unfold head_of in Ls. rewrite Dx in Ls. simpl in Ls.
  destruct (lseg_live _ _ _ _ e Ls) as [Ne _]; [set_solver |].
  unfold DdkFreeIntercept. rewrite (proj2 (Z.eqb_neq e 0)) by done.
  rewrite (bind_run _ _ _ _ _ (entry_at_run _ _ _ En)), On.
  set (s1 := entry_unlinked d x pre e n s).
  assert (exists y, lookup_detour s1 d = Some y /\ function y = function x /\ trampoline y = trampoline x) as (y & Dy & Fy & Ty).
  { unfold s1, entry_unlinked. destruct pre; [| by exists x].
    exists (set_intercepts (i_next n) x). split; [| done].
    change (lookup_detour (set_entries _ ?s0) d) with (lookup_detour s0 d). by eapply lookup_put_same. }
  assert (rinv d.1 d.1 s1 rs) as I1.
  { assert (rinv d.1 0 s1 rs) as [A B C D' F G].
    { unfold s1, entry_unlinked. apply rinv_entries. destruct pre; [by eapply rinv_put | done]. }
    split; try done. intros q r Eq Hq _. apply (D' q r); [done | done |].
    intros ->. destruct (lseg_live _ _ _ _ 0 A) as [[] _]; [| done]. apply B. by eexists. }
  assert (forall d', func s1 d' = func s d' /\ tramp s1 d' = tramp s d') as V.
  { intros d'. unfold s1, entry_unlinked. destruct pre; [| done].
    change (func (set_entries _ ?s0) d') with (func s0 d'). change (tramp (set_entries _ ?s0) d') with (tramp s0 d').
    destruct (get_put s d x (set_intercepts (i_next n) x) Dx d') as (-> & _ & ->).
    destruct (decide (d' = d)) as [-> |]; [| done]. unfold func, tramp. by rewrite Dx. }
  assert (trampoline x <> 0) as Tx.
  { intros Z0. apply Fx. pose proof (T d ltac:(done)) as Td. unfold tramp, func in Td. rewrite Dx in Td. by apply Td. }
  destruct (DdkFreeDetour_run d.1 s1 rs d y) as (st & s2 & rs2 & R & I2 & T2 & [(Fe & Ft & Fp) Fh Fo Fd] & Fl & _); try done.
  { eapply tinv_same; [| exact V]. intros d' _. by apply T. }
  { congruence. }
  { congruence. }
  destruct (Fl eq_refl) as [-> Lw].
  destruct (einv_unlink s L d pre e post n x s2 E Ld En Dx Fh Fe) as [E2 Ct].
  exists st, (set_entries (delete e) s2), (fun d' => filter (fun q => q ∉ ({[e]} : gset Z)) (L d')).
  split; [| split; [| split]].
  - rewrite (bind_run _ _ s st s2).
    + done.
    + rewrite (bind_run entry_fuel _ s (S (size (entries s))) s) by done.
      rewrite (bind_run _ _ _ _ _ (unlink_entry_list _ _ _ _ _ _ _ Dx Ls En)). exact R.
  - split; [by apply rinv_entries | done | done].
  - split; [done | | | |].
    + intros q ->%elem_of_singleton. simpl. by rewrite lookup_delete_eq.
    + intros q Hq. apply Ct. set_solver.
    + intros d'. change (func (set_entries _ s2) d') with (func s2 d'). destruct (V d') as [<- _].
      destruct (decide (d' = d)) as [-> | Hd]; [| left; by apply Fo].
      destruct Fd as [-> | [-> H0']]; [by left |]. right. split; [done |].
      pose proof (ent_list _ _ E2 d) as Lz. change (head_of (set_entries _ s2) d) with (head_of s2 d) in Lz.
      rewrite Fh, H0' in Lz. by apply lseg_zero in Lz.
    + simpl. rewrite Ft, Fp. unfold s1, entry_unlinked. by destruct pre.
  - apply (lowered_trans _ s s1); [| exact Lw]. unfold s1, entry_unlinked. destruct pre; [| exact (lowered_refl d.1 s)].
    intros r Er. exists (set_detours (<[Z.to_nat d.2 := set_intercepts (i_next n) x]> (detours r)) r).
    rewrite (put_as_insert _ _ _ _ Er). simpl. rewrite lookup_insert_eq. split; [done |].
    split; [lia | by rewrite length_insert].
Qed.


(** ** The loops *)

Section loops.
Context (matches : INTERCEPT -> bool) (hm : hook -> bool).
Hypothesis matches_info : forall n, matches n = hm (info n).

(** The entry is one to be freed. *)
Definition doomed (s : state) (e : Z) : Prop := exists n, entries s !! e = Some n /\ hm (info n) = true.

Lemma swept_doomed s L s' L' R e : swept s L s' L' R -> e ∉ R -> doomed s' e <-> doomed s e.
Proof.
  intros W He. pose proof (sw_kept _ _ _ _ _ W e He) as K. unfold doomed.
  destruct (entries s' !! e), (entries s !! e); simpl in K; try done.
  injection K as ? ? ? ? ?.
  split; intros (n & [= <-] & M); eexists; (split; [done |]); rewrite <- M; f_equal; unfold info; congruence.
Qed.

Lemma swept_outside s L s' L' R d e : swept s L s' L' R -> e ∈ L' d <-> e ∈ L d /\ e ∉ R.
Proof. intros W. rewrite (sw_lists _ _ _ _ _ W), list_elem_of_filter. tauto. Qed.

(** An entry is in the list of one detour only. *)
Lemma one_list s L d d' e : einv s L -> e ∈ L d -> e ∈ L d' -> d = d'.
Proof.
  intros E (n & En & On)%(ent_owner _ _ E) (n' & En' & On')%(ent_owner _ _ E). congruence.
Qed.

Lemma free_entries_run d p rs cur : forall pre s L fuel h status,
  visiting p rs s L -> L d = pre ++ cur -> d.1 = p -> lseg i_next (entries s) h cur -> (length cur < fuel)%nat ->
  exists st s' L' R, free_entries fuel matches h status s = Ok (st, s') /\ visiting p rs s' L' /\
    swept s L s' L' R /\ lowered p s s' /\ (forall e, e ∈ R <-> e ∈ cur /\ doomed s e).
Proof.
  induction cur as [|e cur IH]; intros pre s L [|fuel] h status V Ld Dp Ls F; simpl in F; try lia.
  - simpl in Ls. subst h. exists status, s, L, ∅. split; [done |]. split; [done |].
    split; [apply swept_refl | split; [apply lowered_refl | set_solver]].
  - pose proof (lseg_nodup _ _ _ _ Ls) as [Nc _]%NoDup_cons.
    destruct Ls as (-> & Ne & n & En & Ls). simpl. rewrite (proj2 (Z.eqb_neq e 0)) by done.
    rewrite (bind_run _ _ _ _ _ (entry_at_run _ _ _ En)), matches_info.
    destruct (hm (info n)) eqn:M.
    + assert (e ∈ L d) as He by (rewrite Ld; set_solver).
      destruct (ent_owner _ _ (vi_einv _ _ _ _ V) d e He) as (n' & En' & On). simplify_eq.
      destruct (DdkFreeIntercept_run d.1 rs s L d e n V En On eq_refl) as (rc & s1 & L1 & R1 & V1 & W1 & Lw1).
      rewrite (bind_run _ _ s (if succeeds rc then status else rc) s1) by (by rewrite (bind_run _ _ _ _ _ R1)).
      pose proof (ent_list _ _ (vi_einv _ _ _ _ V) d) as Lsd. pose proof (lseg_nodup _ _ _ _ Lsd) as ND.
      rewrite Ld in ND. apply NoDup_app in ND as (_ & Dj & _).
      assert (L1 d = pre ++ cur) as L1d.
      { rewrite (sw_lists _ _ _ _ _ W1), Ld, filter_app, filter_cons_False by set_solver.
        f_equal; apply filter_true; [| set_solver]. intros q Hq Hqe%elem_of_singleton. subst q. apply (Dj e Hq). by left. }
      assert (lseg i_next (entries s1) (i_next n) cur) as Ls1.
      { pose proof (ent_list _ _ (vi_einv _ _ _ _ V1) d) as Z1. rewrite L1d in Z1.
        destruct cur as [|q cur]; [exact Ls |]. destruct (lseg_suffix _ _ _ _ _ _ Z1) as (a & _ & _ & Zq).
        by destruct Ls as (-> & _). }
      destruct (IH pre s1 L1 fuel (i_next n) (if succeeds rc then status else rc) V1 L1d eq_refl Ls1 ltac:(lia))
        as (st & s2 & L2 & R2 & Rn & V2 & W2 & Lw2 & HR).
      exists st, s2, L2, ({[e]} ∪ R2). split; [exact Rn |]. split; [done |].
      split; [by eapply swept_union |]. split; [by eapply lowered_trans |].
      intros q. rewrite elem_of_union, elem_of_singleton, HR, elem_of_cons.
      split.
      * intros [-> | [Hq Dq]]; [split; [by left | by exists n] |]. split; [by right |].
        apply (swept_doomed _ _ _ _ _ q W1); [set_solver | done].
      * intros [[-> | Hq] Dq]; [by left |]. right. split; [done |].
        apply (swept_doomed _ _ _ _ _ q W1); [set_solver | done].
    + rewrite (bind_run _ _ s status s) by done.
      destruct (IH (pre ++ [e]) s L fuel (i_next n) status V) as (st & s2 & L2 & R2 & Rn & V2 & W2 & Lw2 & HR);
        [by rewrite <- (assoc_L (++)) | done | done | lia |].
      exists st, s2, L2, R2. split; [exact Rn |]. split; [done |]. split; [done |]. split; [done |].
      intros q. rewrite HR, elem_of_cons. split; [naive_solver |]. intros [[-> | Hq] Dq]; [| done].
      destruct Dq as (n' & En' & M'). congruence.
Qed.

Context (selects : DETOUR -> bool) (fsel : Z -> bool).
Hypothesis selects_function : forall x, selects x = fsel (function x).

(** A list that still has entries is of the same function. *)
Lemma swept_func s L s' L' R d e : swept s L s' L' R -> e ∈ L' d -> func s' d = func s d.
Proof.
  intros W He. destruct (sw_func _ _ _ _ _ W d) as [-> | [_ E]]; [done |].
  rewrite E in He. by apply not_elem_of_nil in He.
Qed.

(** What is left of a set of entries to free after some of the others are gone. *)
Lemma swept_left s L s' L' R d e :
  einv s L -> swept s L s' L' R -> e ∉ R ->
  e ∈ L' d /\ fsel (func s' d) = true /\ doomed s' e <-> e ∈ L d /\ fsel (func s d) = true /\ doomed s e.
Proof.
  intros E W He. rewrite (swept_outside _ _ _ _ _ d e W), (swept_doomed _ _ _ _ _ e W He).
  split.
  - intros ([Hd _] & F & D). rewrite (swept_func _ _ _ _ _ d e W) in F; [done |].
    by apply (swept_outside _ _ _ _ _ d e W).
  - intros (Hd & F & D). rewrite (swept_func _ _ _ _ _ d e W); [done |].
    by apply (swept_outside _ _ _ _ _ d e W).
Qed.

Lemma free_detours_run p rs fuel : forall i s L r status,
  visiting p rs s L -> regions s !! p = Some r -> 0 <= i -> (Z.to_nat (hwm r - i) < fuel)%nat ->
  exists st s' L' R, free_detours fuel selects matches p i status s = Ok (st, s') /\ visiting p rs s' L' /\
    swept s L s' L' R /\ lowered p s s' /\
    (forall e, e ∈ R <-> exists j, i <= j /\ e ∈ L (p, j) /\ fsel (func s (p, j)) = true /\ doomed s e).
Proof.
  induction fuel as [|fuel IH]; intros i s L r status V Er Hi F; [lia |]. pose proof V as [I T E].
  pose proof (inv_ok _ _ _ _ I _ _ Er) as [[C1 C2] _ Hw Ab _ _ _].
  simpl. rewrite (bind_run _ _ _ _ _ (region_at_run _ _ _ Er)). destruct (Z.ltb_spec i (hwm r)) as [Hlt | Hge]; simpl.
  - destruct (lookup_lt_is_Some_2 (detours r) (Z.to_nat i)) as [x Ex]; [lia |].
    assert (lookup_detour s (p, i) = Some x) as Dx.
    { unfold lookup_detour. cbn [fst snd]. rewrite Er. simpl. case_z; [done | lia]. }
    rewrite (bind_run _ _ _ _ _ (detour_at_run _ _ _ Dx)).
    assert (func s (p, i) = function x /\ head_of s (p, i) = intercepts x) as [Fx Hx] by (unfold func, head_of; by rewrite Dx).
    assert (exists st s1 L1 R1,
      (if selects x then n ← entry_fuel; free_entries n matches (intercepts x) status else mret status) s = Ok (st, s1) /\
      visiting p rs s1 L1 /\ swept s L s1 L1 R1 /\ lowered p s s1 /\
      (forall e, e ∈ R1 <-> e ∈ L (p, i) /\ fsel (func s (p, i)) = true /\ doomed s e))
      as (st & s1 & L1 & R1 & Rn1 & V1 & W1 & Lw1 & HR1).
    { rewrite selects_function, Fx. destruct (fsel (function x)) eqn:Sel.
      - rewrite (bind_run entry_fuel _ s (S (size (entries s))) s) by done.
        pose proof (ent_list _ _ E (p, i)) as Ls. rewrite Hx in Ls.
        destruct (free_entries_run (p, i) p rs (L (p, i)) [] s L (S (size (entries s))) (intercepts x) status)
          as (st & s1 & L1 & R1 & Rn & V1 & W1 & Lw1 & HR); try done.
        { pose proof (lseg_size _ _ _ _ Ls). lia. }
        exists st, s1, L1, R1. split_and!; try done. intros e. rewrite HR. naive_solver.
      - exists status, s, L, ∅. split; [done |]. split; [done |]. split; [apply swept_refl |].
        split; [apply lowered_refl |]. intros e. split; [set_solver | naive_solver]. }
    rewrite (bind_run _ _ _ _ _ Rn1). destruct (Lw1 r Er) as (r1 & Er1 & Hr1 & _).
    destruct (IH (i + 1) s1 L1 r1 st V1 Er1 ltac:(lia) ltac:(lia)) as (st' & s' & L' & R' & Rn' & V' & W' & Lw' & HR').
    exists st', s', L', (R1 ∪ R'). split; [exact Rn' |]. split; [done |]. split; [by eapply swept_union |].
    split; [by eapply lowered_trans |]. intros e. rewrite elem_of_union, HR1, HR'. split.
    + intros [He | (j & Hj & He)]; [by exists i |]. exists j. split; [lia |].
      apply (swept_left s L s1 L1 R1); [done | done | | done].
      destruct He as (He & _). by apply (swept_outside _ _ _ _ _ _ _ W1) in He as [_ ?].
    + intros (j & Hj & He). destruct (Z.eq_dec j i) as [-> |]; [by left |]. right. exists j. split; [lia |].
      apply (swept_left s L s1 L1 R1); [done | done | | done].
      intros HR. apply HR1 in HR as (He' & _). destruct He as (He & _).
      pose proof (one_list s L _ _ _ E He He') as [= ->]. done.
  - exists status, s, L, ∅. split; [done |]. split; [done |]. split; [apply swept_refl |].
    split; [apply lowered_refl |]. intros e. split; [set_solver |]. intros (j & Hj & He & _).
    destruct (in_use _ _ _ _ _ _ _ I E He) as (x & Dx & Nx & _).
    apply lookup_detour_inv in Dx as (r' & Er' & B & Ex). simpl in *. simplify_eq. destruct Nx.
    apply (Ab _ _ Ex). lia.
Qed.

(** Taking and giving back the reference to a region. *)
Lemma rinv_refcount held held' loose' s rs p r n :
  rinv held 0 s rs -> regions s !! p = Some r ->
  (forall q, q <> 0 -> q <> p -> q <> held /\ q <> held') ->
  n = (if bool_decide (p = held') then 1 else 0) ->
  (p <> held' -> p <> loose' -> freecount r <> count r) ->
  rinv held' loose' (set_regions <[p := set_refcount n r]> s) rs.
Proof.
  intros I Er Hq Hn Hf. pose proof I as [L In O U F W].
  assert (forall d, func (set_regions <[p := set_refcount n r]> s) d = func s d /\
    head_of (set_regions <[p := set_refcount n r]> s) d = head_of s d /\
    tramp (set_regions <[p := set_refcount n r]> s) d = tramp s d) as V by (intros; by apply func_same_detours with r).
  split; simpl.
  - eapply lseg_ext; [exact L |]. intros e _. destruct (decide (p = e)) as [<- |].
    + by rewrite lookup_insert_eq, Er.
    + by rewrite lookup_insert_ne.
  - intros q [rq [(<- & _) | (_ & Eq)]%lookup_insert_Some]; apply In; by eexists.
  - intros q rq [(<- & <-) | (Nq & Eq)]%lookup_insert_Some.
    + destruct (O _ _ Er). by split.
    + destruct (Hq q) as [A B]; [by eapply rinv_live | done |]. pose proof (O _ _ Eq) as K.
      rewrite bool_decide_eq_false_2 in K |- * by done. exact K.
  - intros q rq [(<- & <-) | (Nq & Eq)]%lookup_insert_Some Hq1 Hq2; [by apply Hf |].
    destruct (Hq q) as [A B]; [by eapply rinv_live | done |]. apply (U q); [done | done |]. by eapply rinv_live.
  - intros a b. destruct (V a) as (-> & _), (V b) as (-> & _). apply F.
  - intros a. destruct (V a) as (-> & -> & _). apply W.
Qed.

(** What holds between the calls. *)
Record idle (rs : list Z) (s : state) (L : detptr -> list Z) : Prop := {
  id_rinv : rinv 0 0 s rs;
  id_tinv : tinv None s;
  id_einv : einv s L
}.

Lemma swept_same s s' L :
  entries s' = entries s -> (forall d, func s' d = func s d) ->
  threads s' = threads s /\ realpointer s' = realpointer s -> swept s L s' L ∅.
Proof.
  intros E F T. destruct (swept_refl s L) as [A B C _ _]. split; try done; rewrite ?E; try done.
  intros d. left. apply F.
Qed.

Lemma DdkAddReference_run rs s L p r :
  idle rs s L -> regions s !! p = Some r ->
  exists s', DdkAddReference p s = Ok (tt, s') /\ visiting p rs s' L /\ swept s L s' L ∅ /\
    regions s' !! p = Some (set_refcount 1 r).
Proof.
  intros [I T E] Er. pose proof (rinv_live _ _ _ _ _ _ I Er) as Np.
  assert (refcount r = 0) as Rc.
  { rewrite (ok_held _ _ _ (inv_ok _ _ _ _ I _ _ Er)). by rewrite bool_decide_eq_false_2. }
  exists (set_regions <[p := set_refcount 1 r]> s).
  assert (forall d, func (set_regions <[p := set_refcount 1 r]> s) d = func s d /\
    head_of (set_regions <[p := set_refcount 1 r]> s) d = head_of s d /\
    tramp (set_regions <[p := set_refcount 1 r]> s) d = tramp s d) as V by (intros; by apply func_same_detours with r).
  split; [| split; [split | split]].
  - unfold DdkAddReference. by rewrite (change_region_run _ _ _ _ Er), Rc.
  - apply (rinv_refcount 0 p 0 s rs p r 1); try done. by rewrite bool_decide_eq_true_2.
  - eapply tinv_same; [exact T |]. intros d. by destruct (V d) as (-> & _ & ->).
  - eapply einv_same; [exact E | done |]. intros d. by destruct (V d) as (_ & -> & _).
  - apply swept_same; [done | | done]. intros d. by destruct (V d) as (-> & _).
  - simpl. by rewrite lookup_insert_eq.
Qed.

Lemma DdkDeleteReference_run rs s L p r :
  visiting p rs s L -> regions s !! p = Some r ->
  exists s' rs', DdkDeleteReference p s = Ok (tt, s') /\ idle rs' s' L /\ swept s L s' L ∅ /\
    exists pre post, rs = pre ++ p :: post /\ (rs' = rs \/ rs' = pre ++ post).
Proof.
  intros [I T E] Er. pose proof (rinv_live _ _ _ _ _ _ I Er) as Np.
  assert (refcount r = 1) as Rc.
  { rewrite (ok_held _ _ _ (inv_ok _ _ _ _ I _ _ Er)). by rewrite bool_decide_eq_true_2. }
  assert (forall d, func (set_regions <[p := set_refcount 0 r]> s) d = func s d /\
    head_of (set_regions <[p := set_refcount 0 r]> s) d = head_of s d /\
    tramp (set_regions <[p := set_refcount 0 r]> s) d = tramp s d) as V by (intros; by apply func_same_detours with r).
  destruct (DdkFreeRegion_run 0 (set_regions <[p := set_refcount 0 r]> s) rs p (set_refcount 0 r))
    as (s' & rs' & R & I' & T' & (S1 & S2 & S3) & V' & _ & Sp).
  - apply (rinv_refcount p 0 p s rs p r 0); try done. by rewrite bool_decide_eq_false_2.
  - eapply tinv_same; [exact T |]. intros d. by destruct (V d) as (-> & _ & ->).
  - simpl. by rewrite lookup_insert_eq.
  - exists s', rs'. split; [| split; [split; [done | done |] | split; [| done]]].
    + unfold DdkDeleteReference. rewrite (bind_run _ _ _ _ _ (change_region_run _ _ _ _ Er)), Rc. exact R.
    + eapply einv_same; [exact E | done |]. intros d. destruct (V' d) as [_ ->]. by destruct (V d) as (_ & -> & _).
    + apply swept_same; [done | | done]. intros d. destruct (V' d) as [-> _]. by destruct (V d) as (-> & _).
Qed.

(** The rest of the list is still there when the region before it has been freed. *)
Lemma rest_of_list s rs rs' pre p post h :
  lseg r_next (regions s) (regionlist s) rs' -> rs = pre ++ p :: post -> rs' = rs \/ rs' = pre ++ post ->
  h = hd 0 post -> lseg r_next (regions s) h post /\ exists pre', rs' = pre' ++ post.
Proof.
  intros L -> [-> | ->] ->.
  - split; [| exists (pre ++ [p]); by rewrite <- (assoc_L (++))].
    destruct (lseg_suffix _ _ _ _ _ _ L) as (a & _ & La & _). by rewrite <- (lseg_head _ _ _ _ La).
  - split; [| by exists pre]. destruct post as [|q post]; [done |].
    by destruct (lseg_suffix _ _ _ _ _ _ L) as (_ & _ & _ & Lq).
Qed.

Lemma nodup_split (p : Z) pre post pre' post' :
  pre ++ p :: post = pre' ++ p :: post' -> NoDup (pre ++ p :: post) -> pre = pre' /\ post = post'.
Proof.
  revert pre'. induction pre as [|q pre IH]; intros [|q' pre'] E ND; simpl in *.
  - by injection E.
  - injection E as -> ->. apply NoDup_cons in ND as [Np _]. destruct Np. apply elem_of_app. right. by left.
  - injection E as -> <-. apply NoDup_cons in ND as [Np _]. destruct Np. apply elem_of_app. right. by left.
  - injection E as -> E. apply NoDup_cons in ND as [_ ND]. by destruct (IH _ E ND) as [-> ->].
Qed.

Lemma free_regions_run post : forall rs pre s L fuel h status,
  idle rs s L -> rs = pre ++ post -> lseg r_next (regions s) h post -> (length post < fuel)%nat ->
  exists st s' L' R rs', free_regions fuel selects matches h status s = Ok (st, s') /\ idle rs' s' L' /\
    swept s L s' L' R /\
    (forall e, e ∈ R <-> exists d, d.1 ∈ post /\ e ∈ L d /\ fsel (func s d) = true /\ doomed s e).
Proof.
  induction post as [|p post IH]; intros rs pre s L [|fuel] h status Id Rs Ls F; simpl in F; try lia.
  - simpl in Ls. subst h. exists status, s, L, ∅, rs. split; [done |]. split; [done |]. split; [apply swept_refl |].
    intros e. split; [set_solver |]. intros (d & Hd & _). by apply not_elem_of_nil in Hd.
  - destruct Ls as (-> & Np & r & Er & Ls). simpl. rewrite (proj2 (Z.eqb_neq p 0)) by done.
    pose proof Id as [I T E].
    destruct (DdkAddReference_run rs s L p r Id Er) as (s1 & R1 & V1 & W1 & Er1). rewrite (bind_run _ _ _ _ _ R1).
    rewrite (bind_run _ _ _ _ _ (region_at_run _ _ _ Er1)).
    destruct (free_detours_run p rs (S (Z.to_nat (hwm (set_refcount 1 r)))) 0 s1 L (set_refcount 1 r) status V1 Er1)
      as (st & s2 & L2 & R & R2 & V2 & W2 & Lw2 & HR); [lia | lia |]. rewrite (bind_run _ _ _ _ _ R2).
    destruct (Lw2 _ Er1) as (r2 & Er2 & _). rewrite (bind_run _ _ _ _ _ (region_at_run _ _ _ Er2)).
    destruct (DdkDeleteReference_run rs s2 L2 p r2 V2 Er2) as (s3 & rs3 & R3 & Id3 & W3 & pre3 & post3 & Rs3 & C3).
    rewrite (bind_run _ _ _ _ _ R3).
    assert (pre3 = pre /\ post3 = post) as [-> ->].
    { pose proof (lseg_nodup _ _ _ _ (inv_list _ _ _ _ I)) as ND. rewrite Rs3 in Rs. rewrite Rs3 in ND.
      destruct (nodup_split _ _ _ _ _ Rs ND) as [-> ->]. done. }
    assert (r_next r2 = hd 0 post) as Hn.
    { pose proof (inv_list _ _ _ _ (vi_rinv _ _ _ _ V2)) as Lr. rewrite Rs in Lr.
      destruct (lseg_suffix _ _ _ _ _ _ Lr) as (a & Ea & La & _). simplify_eq. by eapply lseg_head. }
    destruct (rest_of_list s3 rs rs3 pre p post (r_next r2)) as [Ls3 [pre' Rs']]; try done.
    { apply (inv_list _ _ _ _ (id_rinv _ _ _ Id3)). }
    destruct (IH rs3 pre' s3 L2 fuel (r_next r2) st Id3 Rs' Ls3 ltac:(lia))
      as (st' & s' & L' & R' & rs' & R4 & Id' & W' & HR').
    exists st', s', L', (R ∪ R'), rs'. split; [exact R4 |]. split; [done |].
    assert (swept s L s3 L2 R) as W123.
    { pose proof (swept_union _ _ _ _ _ _ _ _ (swept_union _ _ _ _ _ _ _ _ W1 W2) W3) as W.
      by replace (∅ ∪ R ∪ ∅) with R in W by set_solver. }
    split; [by eapply swept_union |]. intros e. rewrite elem_of_union, HR, HR'.
    assert (forall d, e ∈ L d /\ fsel (func s1 d) = true /\ doomed s1 e <-> e ∈ L d /\ fsel (func s d) = true /\ doomed s e)
      as Here by (intros d; apply (swept_left s L s1 L ∅); [done | done | set_solver]).
    split.
    + intros [(j & _ & He%Here) | (d & Hd & He)].
      * exists (p, j). split; [by left | done].
      * exists d. split; [by right |]. apply (swept_left s L s3 L2 R); [done | done | | done].
        destruct He as (He & _). by apply (swept_outside _ _ _ _ _ _ _ W123) in He as [_ ?].
    + intros (d & [Hd | Hd]%elem_of_cons & He).
      * left. destruct (in_use _ _ _ _ _ _ _ I E (proj1 He)) as (x & Dx & _).
        apply lookup_detour_inv in Dx as (rr & _ & B & _). exists d.2. split; [clear - B; lia |]. clear B.
        destruct d as [q j]. simpl in *. subst q. by apply Here.
      * destruct (decide (e ∈ R)) as [HR1 | HR1]; [left; by apply HR |]. right. exists d. split; [done |].
        by apply (swept_left s L s3 L2 R).
Qed.

End loops.

(** ** Detaching *)

Lemma hooks_of_cons s e l n : entries s !! e = Some n -> hooks_of s (e :: l) = info n :: hooks_of s l.
Proof. intros E. unfold hooks_of. simpl. by rewrite E. Qed.

Lemma swept_owned s L s' L' R : swept s L s' L' R -> owned s -> owned s'.
Proof.
  intros W O e n E On. destruct (decide (e ∈ R)) as [He | He].
  - by rewrite (sw_gone _ _ _ _ _ W e He) in E.
  - pose proof (sw_kept _ _ _ _ _ W e He) as K. rewrite E in K. destruct (entries s !! e) as [n' |] eqn:E'; [| done].
    injection K as ?. apply (O e n' E'). congruence.
Qed.

(** The entries that stay, in the order they were in. *)
Lemma swept_hooks hm b s L s' L' R l :
  swept s L s' L' R -> (forall e, e ∈ l -> is_Some (entries s !! e)) ->
  (forall e, e ∈ l -> e ∈ R <-> b = true /\ doomed hm s e) ->
  hooks_of s' (filter (fun e => e ∉ R) l) = filter (fun h => b && hm h = false) (hooks_of s l).
Proof.
  intros W. induction l as [|e l IH]; intros Lv HR; [done |].
  destruct (Lv e) as [n En]; [by left |]. rewrite (hooks_of_cons _ _ _ _ En).
  assert (forall q, q ∈ l -> q ∈ e :: l) as Sub by (intros; by right).
  specialize (IH (fun q Hq => Lv q (Sub q Hq)) (fun q Hq => HR q (Sub q Hq))).
  specialize (HR e ltac:(by left)). destruct (decide (e ∈ R)) as [He | He].
  - rewrite filter_cons_False by tauto. apply HR in He as [-> (n' & En' & M)]. simplify_eq.
    rewrite filter_cons_False; [done |]. simpl. by rewrite M.
  - rewrite filter_cons_True by done. pose proof (sw_kept _ _ _ _ _ W e He) as K. rewrite En in K.
    destruct (entries s' !! e) as [n' |] eqn:En'; [| done]. rewrite (hooks_of_cons _ _ _ _ En').
    assert (info n' = info n) as -> by (injection K; intros; unfold info; congruence).
    rewrite filter_cons_True; [by rewrite IH |]. destruct (b && hm (info n)) eqn:Bm; [| done].
    apply andb_true_iff in Bm as [-> M]. destruct He. apply HR. split; [done | by exists n].
Qed.

Lemma rep_swept hm fsel rs s L A rs' s' L' R :
  idle rs s L -> owned s ->
  (forall d, func s d <> 0 -> A (func s d) = hooks_of s (L d)) ->
  (forall f, f <> 0 -> (forall d, func s d <> f) -> A f = []) ->
  idle rs' s' L' -> swept s L s' L' R ->
  (forall e, e ∈ R <-> exists d, e ∈ L d /\ fsel (func s d) = true /\ doomed hm s e) ->
  rep s' (fun f => filter (fun h => fsel f && hm h = false) (A f)).
Proof.
  intros [I T E] O A1 A2 [I' T' E'] W HR. exists rs', L'.
  assert (forall d, hooks_of s' (L' d) = filter (fun h => fsel (func s d) && hm h = false) (hooks_of s (L d))) as Hk.
  { intros d. rewrite (sw_lists _ _ _ _ _ W). apply (swept_hooks hm _ s L s' L' R); [done | |].
    - intros e He. destruct (ent_owner _ _ E d e He) as (n & En & _). by exists n.
    - intros e He. rewrite HR. split; [| naive_solver]. intros (d' & He' & F & D).
      by rewrite (one_list s L _ _ _ E He He'). }
  split; [done |]. split; [done |]. split; [done |]. split; [by eapply swept_owned |]. split.
  - intros d Nd. destruct (sw_func _ _ _ _ _ W d) as [F | [F _]]; [| congruence].
    rewrite Hk, F. rewrite <- A1; [done | congruence].
  - intros f Nf No. destruct (DdkFindDetour_run 0 0 s rs f I Nf) as ([d |] & _ & P).
    + destruct (sw_func _ _ _ _ _ W d) as [F | [F Ed]]; [destruct (No d); congruence |].
      specialize (Hk d). rewrite Ed, <- A1, P in Hk by congruence. exact (eq_sym Hk).
    + by rewrite (A2 f Nf P).
Qed.

Lemma rep_ext s A B : (forall f, f <> 0 -> A f = B f) -> rep s A -> rep s B.
Proof.
  intros X (rs & L & I & T & E & O & A1 & A2). exists rs, L. split_and!; try done.
  - intros d Nd. rewrite <- X by done. by apply A1.
  - intros f Nf No. rewrite <- X by done. by apply A2.
Qed.

(** Which hooks [DdkDetachIntercept] takes away. *)
Definition of_test (pId pThread : Z) (h : hook) : bool :=
  ((pThread =? 0) || (h_thread h =? pThread)) && ((pId =? 0) || (h_identity h =? pId) || (h_instance h =? pId)).

(** Which [DdkDetachAddressRange] takes away: those of functions in the range, and of
    these those that the module contains. *)
Definition in_range (pAddr len f : Z) : bool := negb (f =? 0) && ((pAddr <=? f) && (f <? pAddr + len)).
Definition in_module (module : option (Z * Z)) (h : hook) : bool :=
  match module with None => true | Some (base, n) => (base <=? h_intercept h) && (h_intercept h <? base + n) end.

(** Both detaching calls: the loops over everything. *)
Lemma detach_run hm fsel selects matches s A :
  rep s A -> (forall n, matches n = hm (info n)) -> (forall x, selects x = fsel (function x)) ->
  exists st s', (fuel ← region_fuel; free_regions fuel selects matches (regionlist s) STATUS_SUCCESS) s = Ok (st, s') /\
    rep s' (fun f => filter (fun h => fsel f && hm h = false) (A f)) /\
    threads s' = threads s /\ realpointer s' = realpointer s.
Proof.
  intros (rs & L & I & T & E & O & A1 & A2) Hm Hf.
  rewrite (bind_run region_fuel _ s (S (size (regions s))) s) by done.
  pose proof (inv_list _ _ _ _ I) as Ls.
  destruct (free_regions_run matches hm Hm selects fsel Hf rs rs [] s L (S (size (regions s))) (regionlist s) STATUS_SUCCESS)
    as (st & s' & L' & R & rs' & Rn & Id' & W & HR); try done.
  { pose proof (lseg_size _ _ _ _ Ls). lia. }
  exists st, s'. split; [done |]. split; [| apply (sw_threads _ _ _ _ _ W)].
  apply (rep_swept hm fsel rs s L A rs' s' L' R); try done.
  intros e. rewrite HR. split; [naive_solver |]. intros (d & He & Hd). exists d. split; [| done].
  destruct (in_use _ _ _ _ _ _ _ I E He) as (x & Dx & _). apply lookup_detour_inv in Dx as (r & Er & _).
  apply (inv_in_list _ _ _ _ I). by exists r.
Qed.

Lemma rep_no_regions s A : rep s A -> regionlist s = 0 -> forall f, f <> 0 -> A f = [].
Proof.
  intros (rs & L & I & T & E & O & A1 & A2) Z0 f Nf. apply A2; [done |]. intros d Fd.
  destruct (func_some s d f Fd Nf) as (x & Dx & _). apply lookup_detour_inv in Dx as (r & Er & _).
  pose proof (inv_list _ _ _ _ I) as Ls. rewrite Z0 in Ls. apply lseg_zero in Ls.
  assert (d.1 ∈ rs) as Hd by (apply (inv_in_list _ _ _ _ I); by exists r). rewrite Ls in Hd. by apply not_elem_of_nil in Hd.
Qed.

(** The end of a thread: the intercepts that are for it go. *)
Lemma detach_thread_run s A p : rep s A ->
  exists st s', DdkDetachIntercept 0 p s = Ok (st, s') /\ rep s' (fun f => filter (fun h => of_test 0 p h = false) (A f)).
Proof.
  intros Hr. unfold DdkDetachIntercept. rewrite (bind_run get _ s s s eq_refl).
  destruct (Z.eqb_spec (regionlist s) 0) as [Z0 | N0].
  - exists STATUS_SUCCESS, s. split; [done |]. eapply rep_ext; [| exact Hr]. intros f Nf. by rewrite (rep_no_regions s A Hr Z0 f Nf).
  - destruct (detach_run (of_test 0 p) (fun _ => true) _ _ s A Hr (fun _ => eq_refl) (fun _ => eq_refl)) as (st & s' & R & P & _). eauto.
Qed.

(** C2. [DdkDetachIntercept] returns, whatever the library answers, and the intercepts of
    each function are those it had, in their order, without the ones that are for
    [pThread] (any, if that is [NULL]) and have [pId] as identity or instance (any, if
    that is [NULL]).  Nothing that is freed is used again, and detours, entries and
    regions that are no longer needed are given back. *)
Theorem DdkDetachIntercept_spec s A pId pThread (Hr : rep s A) :
  exists st s', DdkDetachIntercept pId pThread s = Ok (st, s') /\
    rep s' (fun f => filter (fun h => of_test pId pThread h = false) (A f)) /\
    threads s' = threads s /\ realpointer s' = realpointer s.
Proof.
  unfold DdkDetachIntercept. rewrite (bind_run get _ s s s eq_refl).
  destruct (Z.eqb_spec (regionlist s) 0) as [Z0 | N0].
  - exists STATUS_SUCCESS, s. split; [done |]. split; [| done].
    eapply rep_ext; [| exact Hr]. intros f Nf. by rewrite (rep_no_regions s A Hr Z0 f Nf).
  - apply (detach_run (of_test pId pThread) (fun _ => true) _ _ s A Hr); done.
Qed.

(** [DdkDetachAddressRange] takes from the functions in the range the intercepts that
    lie in the module, or all if none is given, and leaves every other one. *)
Theorem DdkDetachAddressRange_spec s A pAddr len module (Hr : rep s A) :
  exists st s', DdkDetachAddressRange pAddr len module s = Ok (st, s') /\
    rep s' (fun f => filter (fun h => in_range pAddr len f && in_module module h = false) (A f)) /\
    threads s' = threads s /\ realpointer s' = realpointer s.
Proof.
  unfold DdkDetachAddressRange. rewrite (bind_run get _ s s s eq_refl).
  destruct (Z.eqb_spec (regionlist s) 0) as [Z0 | N0]; simpl.
  - exists STATUS_SUCCESS, s. split; [done |]. split; [| done].
    eapply rep_ext; [| exact Hr]. intros f Nf. by rewrite (rep_no_regions s A Hr Z0 f Nf).
  - destruct (Z.eqb_spec len 0) as [-> | Nl].
    + exists STATUS_SUCCESS, s. split; [done |]. split; [| done].
      eapply rep_ext; [| exact Hr]. intros f Nf. assert (in_range pAddr 0 f = false) as ->.
      { unfold in_range. case_z; simpl; try done; lia. }
      simpl. induction (A f) as [|h l IH]; [done |]. by rewrite filter_cons_True, <- IH.
    + apply (detach_run (in_module module) (in_range pAddr len) _ _ s A Hr); [| done].
      by intros n; destruct module as [[base sz] |].
Qed.

(** ** Attaching *)

Lemma hooks_of_same s s' l :
  (forall e, e ∈ l -> content <$> entries s' !! e = content <$> entries s !! e) -> hooks_of s' l = hooks_of s l.
Proof.
  induction l as [|e l IH]; intros K; [done |].
  assert (hooks_of s' l = hooks_of s l) as IHl by (apply IH; intros; apply K; by right).
  specialize (K e ltac:(by left)). unfold hooks_of in *. cbn [omap list_omap].
  destruct (entries s' !! e) as [n' |], (entries s !! e) as [n |]; simpl in K |- *; try done.
  assert (info n' = info n) as -> by (injection K; intros; unfold info; congruence). by rewrite IHl.
Qed.

(** A new entry at the head of the list of [d], whose function is [f]. *)
Lemma rep_push rs s L A d x f new n h :
  rinv 0 0 s rs -> tinv None s -> einv s L -> owned s ->
  (forall d, func s d <> 0 -> A (func s d) = hooks_of s (L d)) ->
  (forall f, f <> 0 -> (forall d, func s d <> f) -> A f = []) ->
  lookup_detour s d = Some x -> function x = f -> f <> 0 -> new <> 0 -> entries s !! new = None ->
  i_next n = intercepts x -> i_detour n = Some d -> info n = h ->
  rep (put_detour d (set_intercepts new x) (set_entries <[new := n]> s))
    (fun g => if g =? f then h :: A f else A g).
Proof.
  intros I T [Ls Ow Al] O A1 A2 Dx Fx Nf Nn Fr Nx Nd Nh.
  set (s' := put_detour d (set_intercepts new x) (set_entries <[new := n]> s)).
  assert (forall d', func s' d' = func s d' /\ head_of s' d' = (if decide (d' = d) then new else head_of s d') /\
    tramp s' d' = tramp s d') as V.
  { intros d'. destruct (get_put (set_entries <[new := n]> s) d x (set_intercepts new x) Dx d') as (F & Hh & Tr).
    unfold s'. rewrite F, Hh, Tr. destruct (decide (d' = d)) as [-> |]; [| done].
    unfold func, tramp. by rewrite Dx. }
  assert (forall d', new ∉ L d') as Nl.
  { intros d' (n' & En & _)%Ow. congruence. }
  assert (forall q, q <> new -> entries s' !! q = entries s !! q) as Eo by (intros; simpl; by rewrite lookup_insert_ne).
  assert (entries s' !! new = Some n) as En by (simpl; by rewrite lookup_insert_eq).
  assert (forall d', hooks_of s' (L d') = hooks_of s (L d')) as Hk.
  { intros d'. apply hooks_of_same. intros e He. rewrite Eo; [done |]. intros ->. by apply (Nl d'). }
  assert (head_of s d = intercepts x /\ func s d = f) as [Hd Fd] by (unfold head_of, func; by rewrite Dx).
  exists rs, (fun d' => if decide (d' = d) then new :: L d else L d').
  split; [| split; [| split; [| split; [| split]]]].
  - eapply rinv_put; [by apply rinv_entries | exact Dx | done | done | congruence].
  - eapply tinv_same; [exact T |]. intros d'. by destruct (V d') as (-> & _ & ->).
  - split.
    + intros d'. destruct (V d') as (_ & -> & _). destruct (decide (d' = d)) as [-> |].
      * split; [done |]. split; [done |]. exists n. split; [done |]. rewrite Nx, <- Hd.
        apply lseg_outside; [apply Nl | apply Ls].
      * apply lseg_outside; [apply Nl | apply Ls].
    + intros d' e He. destruct (decide (e = new)) as [-> | Ne].
      * exists n. split; [done |]. destruct (decide (d' = d)) as [-> |]; [done |]. by destruct (Nl d').
      * rewrite Eo by done. apply Ow. destruct (decide (d' = d)) as [-> |]; [| done].
        by apply elem_of_cons in He as [-> |].
    + intros e n' d' E' On. destruct (decide (e = new)) as [-> | Ne].
      * simplify_eq. rewrite decide_True by congruence. by left.
      * rewrite Eo in E' by done. pose proof (Al _ _ _ E' On). destruct (decide (d' = d)) as [-> |]; [by right | done].
  - intros e n' E'. destruct (decide (e = new)) as [-> | Ne]; [congruence |]. rewrite Eo in E' by done. by apply (O e).
  - intros d'. destruct (V d') as (-> & _). intros Nd'. destruct (decide (d' = d)) as [-> | Nd2].
    + rewrite Fd, Z.eqb_refl, (hooks_of_cons _ _ _ _ En), Nh, Hk, <- A1 by congruence. by rewrite Fd.
    + rewrite Hk, <- A1 by done. destruct (Z.eqb_spec (func s d') f) as [E' |]; [| done].
      destruct Nd2. apply (inv_unique _ _ _ _ I); [done | congruence].
  - intros g Ng No. destruct (Z.eqb_spec g f) as [-> |].
    + destruct (No d). by destruct (V d) as (-> & _).
    + apply A2; [done |]. intros d' Fd'. apply (No d'). by destruct (V d') as (-> & _).
Qed.

(** The end of [DdkAttachIntercept]: the entry, which is not in a list yet, is linked. *)
Lemma link_run s d x new n :
  lookup_detour s d = Some x -> entries s !! new = Some n ->
  (_ ← change_entry new (set_i_detour (Some d));
   x ← detour_at d;
   _ ← change_entry new (set_i_next (intercepts x));
   _ ← change_detour d (set_intercepts new);
   mret STATUS_SUCCESS) s =
  Ok (STATUS_SUCCESS, put_detour d (set_intercepts new x)
    (set_entries <[new := set_i_next (intercepts x) (set_i_detour (Some d) n)]> (set_entries (delete new) s))).
Proof.
  intros Dx En. rewrite (bind_run _ _ _ _ _ (change_entry_run _ _ _ _ En)).
  set (s1 := set_entries <[new := set_i_detour (Some d) n]> s).
  rewrite (bind_run _ _ _ _ _ (detour_at_run s1 d x Dx)).
  assert (entries s1 !! new = Some (set_i_detour (Some d) n)) as E1 by (simpl; by rewrite lookup_insert_eq).
  rewrite (bind_run _ _ _ _ _ (change_entry_run _ _ _ _ E1)).
  rewrite (bind_run _ _ _ _ _ (change_detour_run (set_entries _ s1) d x _ Dx)).
  unfold s1, put_detour, set_entries, set_regions, mret, M_ret. simpl. do 3 f_equal.
  by rewrite insert_insert_eq, insert_delete_eq.
Qed.

(** The invariant but for [new], which is in no list. *)
Lemma pending_einv s L new n0 s2 :
  einv s L -> entries s !! new = None -> entries s2 = <[new := n0]> (entries s) ->
  (forall d, head_of s2 d = head_of s d) ->
  entries (set_entries (delete new) s2) = entries s /\ einv (set_entries (delete new) s2) L.
Proof.
  intros E Fr Es Hh. assert (entries (set_entries (delete new) s2) = entries s) as Eb.
  { simpl. by rewrite Es, delete_insert_id. }
  split; [done |]. by eapply einv_same.
Qed.

(** Without the entry that was to be attached, everything is as before. *)
Lemma rep_pending rs s L A s2 :
  einv s L -> owned s ->
  (forall d, func s d <> 0 -> A (func s d) = hooks_of s (L d)) ->
  (forall f, f <> 0 -> (forall d, func s d <> f) -> A f = []) ->
  idle rs s2 L -> entries s2 = entries s -> (forall d, func s2 d = func s d) -> rep s2 A.
Proof.
  intros E O A1 A2 [I2 T2 E2] Eb Fo. exists rs, L. split; [done |]. split; [done |]. split; [done |].
  split; [intros e n; rewrite Eb; apply O |]. split.
  - intros d Nd. rewrite Fo in Nd |- *. unfold hooks_of. rewrite Eb. exact (A1 d Nd).
  - intros g Ng No. apply A2; [done |]. intros d Fd. apply (No d). by rewrite Fo.
Qed.

(** A function that had no detour got one. *)
Lemma rep_push_new rs s L A rs2 s2 d x f new n h :
  idle rs s L -> owned s ->
  (forall d, func s d <> 0 -> A (func s d) = hooks_of s (L d)) ->
  (forall f, f <> 0 -> (forall d, func s d <> f) -> A f = []) ->
  f <> 0 -> (forall d, func s d <> f) -> new <> 0 -> entries s !! new = None ->
  idle rs2 s2 L -> entries s2 = entries s -> lookup_detour s2 d = Some x ->
  func s d = 0 -> func s2 d = f -> (forall d', d' <> d -> func s2 d' = func s d') ->
  i_next n = intercepts x -> i_detour n = Some d -> info n = h ->
  rep (put_detour d (set_intercepts new x) (set_entries <[new := n]> s2))
    (fun g => if g =? f then h :: A f else A g).
Proof.
  intros [I T E] O A1 A2 Nf Pf Nn Fresh [I2 T2 E2] Eb Dx Fd0 Fd Fo Nx Nd Nh.
  assert (function x = f) as Fx by (unfold func in Fd; rewrite Dx in Fd; exact Fd).
  apply (rep_push rs2 s2 L A d x f new); try done.
  - intros e n'. rewrite Eb. apply O.
  - intros d' Hd'. assert (hooks_of s2 (L d') = hooks_of s (L d')) as -> by (unfold hooks_of; by rewrite Eb).
    destruct (decide (d' = d)) as [-> | Hd].
    + rewrite Fd, (A2 f Nf Pf). assert (L d = []) as ->; [| done].
      pose proof (ent_list _ _ E d) as Ls. rewrite (inv_empty _ _ _ _ I d Fd0) in Ls. by apply lseg_zero in Ls.
    + rewrite Fo in Hd' |- * by done. by apply A1.
  - intros g Ng No. apply A2; [done |]. intros d' Fd'.
    destruct (decide (d' = d)) as [-> | Hd]; [congruence |]. apply (No d'). by rewrite Fo.
  - by rewrite Eb.
Qed.

Lemma attach_rep s A new alloc f i id inst t
    (Hr : rep s A) (Fresh : new <> 0 -> entries s !! new = None) (Hm : alloc_ok s alloc f) :
  exists st s', DdkAttachIntercept new alloc f i id inst t s = Ok (st, s') /\
    (if succeeds st
     then f <> 0 /\ i <> 0 /\ rep s' (fun g => if g =? f then mkHook i id inst t :: A f else A g)
     else rep s' A) /\
    threads s' = threads s /\ realpointer s' = realpointer s.
Proof.
  unfold DdkAttachIntercept. destruct (Z.eqb_spec f 0) as [-> | Nf]; [by exists STATUS_INVALID_PARAMETER, s |].
  destruct (Z.eqb_spec i 0) as [-> | Ni]; [by exists STATUS_INVALID_PARAMETER, s |]. simpl.
  unfold DdkAllocateIntercept. destruct (Z.eqb_spec new 0) as [-> | Nn]; [by exists STATUS_INSUFFICIENT_RESOURCES, s |].
  specialize (Fresh Nn). destruct Hr as (rs & L & I & T & E & O & A1 & A2).
  set (n0 := mkIntercept 0 None i id inst t). set (s1 := set_entries <[new := n0]> s).
  rewrite (bind_run _ _ s (STATUS_SUCCESS, new) s1) by done. simpl.
  pose proof (rinv_entries _ _ _ _ <[new := n0]> I) as I1. fold s1 in I1.
  destruct (DdkFindDetour_run 0 0 s1 rs f I1 Nf) as (o & Rf & Pf). rewrite (bind_run _ _ _ _ _ Rf).
  assert (entries s1 !! new = Some n0) as E1 by (simpl; by rewrite lookup_insert_eq).
  destruct o as [d |].
  - destruct (func_some s1 d f Pf Nf) as (x & Dx & Fx). rewrite (bind_run _ _ s1 (STATUS_SUCCESS, Some d) s1) by done.
    rewrite (link_run s1 d x new n0 Dx E1).
    destruct (pending_einv s L new n0 s1 E Fresh eq_refl ltac:(done)) as [Eb Ib].
    eexists _, _. split; [reflexivity |]. split; [| done]. simpl. split; [done |]. split; [done |].
    apply (rep_push rs (set_entries (delete new) s1) L A d x f new); try done.
    + by apply rinv_entries.
    + intros e n. rewrite Eb. apply O.
    + intros d' Nd. unfold hooks_of. rewrite Eb. exact (A1 d' Nd).
    + rewrite Eb. done.
  - destruct (DdkAllocateDetour_run s1 rs alloc f I1 T Nf Pf Hm) as (st & o & s2 & rs2 & Ra & I2 & T2 & (Es & Et & Ep) & Hh & Al).
    rewrite (bind_run _ _ _ _ _ Ra).
    destruct (pending_einv s L new n0 s2 E Fresh Es Hh) as [Eb Ib].
    destruct o as [d |].
    + destruct Al as (-> & Fd0 & Fd & [x Dx] & Fo).
      assert (entries s2 !! new = Some n0) as E2 by (by rewrite Es).
      rewrite (link_run s2 d x new n0 Dx E2).
      eexists _, _. split; [reflexivity |]. split; [| split; [exact Et | exact Ep]]. split; [done |]. split; [done |].
      apply (rep_push_new rs s L A rs2 (set_entries (delete new) s2)); try done. split; [by apply rinv_entries | done | done].
    + destruct Al as (Sf & Fo). assert (entries s2 !! new = Some n0) as E2 by (by rewrite Es).
      exists st, (set_entries (delete new) s2). split; [| split; [| split; [exact Et | exact Ep]]].
      * unfold DdkFreeIntercept. rewrite (proj2 (Z.eqb_neq new 0)) by done.
        rewrite (bind_run _ _ s2 STATUS_SUCCESS (set_entries (delete new) s2)); [done |].
        rewrite (bind_run _ _ _ _ _ (entry_at_run _ _ _ E2)). done.
      * rewrite Sf. apply (rep_pending rs2 s L A); try done. split; [by apply rinv_entries | exact T2 | done].
Qed.

(** C10. [DdkAttachIntercept] either succeeds, and the new intercept is the first of the
    function's, before those it had, the other functions keeping theirs; or it returns
    an error, for a [NULL] argument, for lack of memory or because of the library, and
    then every function has what it had and nothing is left allocated. *)
Theorem DdkAttachIntercept_spec s A new alloc f i id inst t
    (Hr : rep s A) (Fresh : new <> 0 -> entries s !! new = None) (Hm : alloc_ok s alloc f) :
  exists st s', DdkAttachIntercept new alloc f i id inst t s = Ok (st, s') /\
    (if succeeds st
     then f <> 0 /\ i <> 0 /\ rep s' (fun g => if g =? f then mkHook i id inst t :: A f else A g)
     else rep s' A) /\
    threads s' = threads s /\ realpointer s' = realpointer s.
Proof. by apply attach_rep. Qed.

(** ** The intercept of a call *)

(** The newest of the thread's own; else the oldest that is for all threads; else the
    function itself, by its trampoline. *)
Definition choose (t : Z) (hs : list hook) (real : Z) : Z :=
  match list_find (fun h => h_thread h = t) hs with
  | Some (_, h) => h_intercept h
  | None => match last (filter (fun h => h_thread h = 0) hs) with Some h => h_intercept h | None => real end
  end.

Lemma select_loop_run t l : forall s p acc fuel,
  lseg i_next (entries s) p l -> (length l < fuel)%nat ->
  select_loop fuel t p acc s = Ok (choose t (hooks_of s l) acc, s).
Proof.
  induction l as [|e l IH]; intros s p acc [|fuel] Ls F; simpl in F; try lia.
  - simpl in Ls. by subst p.
  - destruct Ls as (-> & Ne & n & En & Ls). rewrite (hooks_of_cons _ _ _ _ En).
    simpl. rewrite (proj2 (Z.eqb_neq e 0)) by done. rewrite (bind_run _ _ _ _ _ (entry_at_run _ _ _ En)).
    unfold choose. cbn [list_find]. destruct (Z.eqb_spec (thread n) t) as [Ht | Ht].
    + by rewrite decide_True.
    + rewrite decide_False, (IH s _ _ _ Ls) by (done || lia). unfold choose.
      destruct (list_find _ (hooks_of s l)) as [[k h] |]; [done |]. simpl.
      destruct (Z.eqb_spec (thread n) 0) as [H0' | H0'].
      * rewrite filter_cons_True by done. rewrite last_cons.
        by destruct (last (filter _ (hooks_of s l))).
      * by rewrite filter_cons_False.
Qed.

(** [DdkGetIntercept], from the wrapper of a function with intercepts: the thread's
    own newest one is called; without one, the oldest of those for all threads; without
    any, the function.  [DdkGetRealPointer] then gives that thread, once, the way to the
    function itself. *)
Theorem DdkGetIntercept_spec s A t d (Hr : rep s A) (Hd : func s d <> 0) :
  exists s', let p := choose t (A (func s d)) (tramp s d) in
    DdkGetIntercept t (Some d) s = Ok (if p =? 0 then func s d else p, s') /\ rep s' A /\
    DdkGetRealPointer t s' = Ok (tramp s d, set_real <[t := 0]> s') /\
    DdkGetRealPointer t (set_real <[t := 0]> s') = Err (DdkFailed "Real pointer not found").
Proof.
  pose proof Hr as (rs & L & I & T & E & O & A1 & A2). exists (set_real <[t := tramp s d]> s). simpl.
  rewrite A1 by done. pose proof (ent_list _ _ E d) as Ls.
  assert (tramp s d <> 0) as Nt by (intros Z0; by apply Hd, T).
  unfold func, head_of, tramp in *. destruct (lookup_detour s d) as [x |] eqn:Dx; simpl in *; [| done].
  split; [| split; [| split]].
  - unfold DdkGetIntercept. rewrite (bind_run _ _ _ _ _ (detour_at_run _ _ _ Dx)).
    rewrite (proj2 (Z.eqb_neq (function x) 0)) by done.
    rewrite (bind_run entry_fuel _ s (S (size (entries s))) s) by done.
    pose proof (lseg_size _ _ _ _ Ls).
    rewrite (bind_run _ _ _ _ _ (select_loop_run t _ s _ (trampoline x) (S (size (entries s))) Ls ltac:(lia))). done.
  - exists rs, L. split_and!; try done; [by destruct I | by destruct E].
  - unfold DdkGetRealPointer. rewrite (bind_run get _ _ _ _ eq_refl). simpl. rewrite lookup_insert_eq. simpl.
    by rewrite (proj2 (Z.eqb_neq (trampoline x) 0)).
  - unfold DdkGetRealPointer. rewrite (bind_run get _ _ _ _ eq_refl). simpl. rewrite lookup_insert_eq. done.
Qed.

End spec.
