(* ===== verification/DetoursExamples.v ===== *)
(** * DetoursExamples: the theorems on detours at a concrete library and state

    A library whose transactions always succeed, one region, and a function with an
    intercept for all threads and one for the thread 7. *)

From S2P Require Import Prelude Detours DetoursInv DetoursSpec.

(** The state is what the commit will store. *)
Definition model_detours : DETOURS := {|
  lib := option Z;
  DetourTransactionBegin := fun _ => (NO_ERROR, None);
  DetourUpdateThread := fun _ l => (NO_ERROR, l);
  DetourAttach := fun p _ _ => (NO_ERROR, Some (p + 16));
  DetourDetach := fun p _ _ => (NO_ERROR, Some (p - 16));
  DetourTransactionCommit := fun l =>
    (NO_ERROR, match l with Some t => if t =? 0 then None else Some t | None => None end, None);
  DetourTransactionAbort := fun _ => None
|}.

#[local] Existing Instance model_detours.

#[local] Instance model_laws : DETOURS_Laws.
Proof.
  intros [t |] rc t' l'; [| done]. simpl. destruct (Z.eqb_spec t 0); [done |]. intros [= _ <- _]. done.
Defined.

Definition nothing : state := mkState ∅ 0 ∅ [1; 7] ∅ None.

Definition after {A} (r : result (A * state)) : state := match r with Ok (_, s) => s | Err _ => nothing end.

Definition near_memory : Z * Z := (0x10000, 0x1000).
Definition the_function : Z := 0x12340.

Definition one_intercept : state := after (DdkAttachIntercept 0x500 near_memory the_function 0xA0 1 2 0 nothing).
Definition two_intercepts : state := after (DdkAttachIntercept 0x600 (0, 0) the_function 0xB0 3 4 7 one_intercept).

Definition hook_a : hook := mkHook 0xA0 1 2 0.
Definition hook_b : hook := mkHook 0xB0 3 4 7.

Lemma rep_nothing : rep nothing (fun _ => []).
Proof.
  exists [], (fun _ => []). split; [| split; [| split; [| split; [| split]]]]; try done.
  - split; try done. intros p [r E]. done.
  - split; [done | |]; [intros d e He; by apply not_elem_of_nil in He | done].
Qed.

Lemma memory_ok : alloc_ok nothing near_memory the_function.
Proof.
  intros _ _. split; [done |]. split; [done |]. intros r Hr. unfold DdkIsRegionWithinJumpBounds. by rewrite Hr.
Qed.

Lemma attach_again s A new alloc f i id inst t s' :
  rep s A -> entries s !! new = None -> alloc_ok s alloc f ->
  DdkAttachIntercept new alloc f i id inst t s = Ok (STATUS_SUCCESS, s') ->
  rep s' (fun g => if g =? f then mkHook i id inst t :: A f else A g).
Proof.
  intros R F M E. destruct (attach_rep s A new alloc f i id inst t R ltac:(done) M) as (st & s2 & E2 & P & _).
  rewrite E in E2. injection E2 as <- <-. apply P.
Qed.

Lemma rep_one : rep one_intercept (fun g => if g =? the_function then [hook_a] else []).
Proof.
  apply (attach_again nothing (fun _ => []) 0x500 near_memory the_function 0xA0 1 2 0);
    [exact rep_nothing | done | exact memory_ok | by vm_compute].
Qed.

Lemma rep_two : rep two_intercepts (fun g => if g =? the_function then [hook_b; hook_a] else []).
Proof.
  eapply rep_ext; [| apply (attach_again one_intercept (fun g => if g =? the_function then [hook_a] else []) 0x600 (0, 0) the_function 0xB0 3 4 7);
    [exact rep_one | by vm_compute | done | by vm_compute]].
  intros f _. simpl. by destruct (f =? the_function).
Qed.

Lemma DdkAttachIntercept_spec_witness :
  rep two_intercepts (fun g => if g =? the_function then hook_b :: [hook_a] else if g =? the_function then [hook_a] else []).
Proof.
  destruct (DdkAttachIntercept_spec one_intercept (fun g => if g =? the_function then [hook_a] else [])
    0x600 (0, 0) the_function 0xB0 3 4 7) as (st & s' & E & P & _).
  - exact rep_one.
  - intros _. by vm_compute.
  - done.
  - assert (DdkAttachIntercept 0x600 (0, 0) the_function 0xB0 3 4 7 one_intercept = Ok (STATUS_SUCCESS, two_intercepts)) as E'
      by by vm_compute.
    rewrite E' in E. injection E as <- <-. apply P.
Defined.

(** Detaching what belongs to the test 3 leaves the other intercept. *)
Lemma DdkDetachIntercept_spec_witness :
  exists st s', DdkDetachIntercept 3 0 two_intercepts = Ok (st, s') /\
    rep s' (fun g => if g =? the_function then [hook_a] else []) /\
    threads s' = [1; 7] /\ realpointer s' = ∅.
Proof.
  destruct (DdkDetachIntercept_spec two_intercepts (fun g => if g =? the_function then [hook_b; hook_a] else []) 3 0 rep_two)
    as (st & s' & E & P & T & Q).
  exists st, s'. split; [done |]. split; [| split; [by rewrite T | by rewrite Q]].
  eapply rep_ext; [| exact P]. intros f _. simpl. by destruct (f =? the_function).
Defined.

(** Detaching everything of the function frees the detour, the entries and the region. *)
Lemma DdkDetachAddressRange_spec_witness :
  exists st s', DdkDetachAddressRange 0x12000 0x1000 None two_intercepts = Ok (st, s') /\
    rep s' (fun _ => []) /\ regionlist s' = 0 /\ size (entries s') = 0%nat.
Proof.
  destruct (DdkDetachAddressRange_spec two_intercepts (fun g => if g =? the_function then [hook_b; hook_a] else [])
    0x12000 0x1000 None rep_two) as (st & s' & E & P & _).
  exists st, s'. split; [done |]. split.
  - eapply rep_ext; [| exact P]. intros f _. simpl. destruct (Z.eqb_spec f the_function) as [-> |]; by vm_compute.
  - assert (s' = after (DdkDetachAddressRange 0x12000 0x1000 None two_intercepts)) as -> by by rewrite E.
    clear. split; vm_compute; reflexivity.
Defined.

(** The thread 7 gets its own intercept, the thread 9 the one for all. *)
Lemma DdkGetIntercept_spec_witness :
  func two_intercepts (0x10000, 0) = the_function /\
  (exists s', DdkGetIntercept 7 (Some (0x10000, 0)) two_intercepts = Ok (0xB0, s')) /\
  (exists s', DdkGetIntercept 9 (Some (0x10000, 0)) two_intercepts = Ok (0xA0, s')).
Proof.
  assert (func two_intercepts (0x10000, 0) = the_function) as F by by vm_compute.
  assert (tramp two_intercepts (0x10000, 0) = the_function + 16) as T by by vm_compute.
  split; [done |].
  split.
  - destruct (DdkGetIntercept_spec two_intercepts _ 7 (0x10000, 0) rep_two) as (s' & E & _); [by rewrite F |].
    exists s'. rewrite F, T in E. exact E.
  - destruct (DdkGetIntercept_spec two_intercepts _ 9 (0x10000, 0) rep_two) as (s' & E & _); [by rewrite F |].
    exists s'. rewrite F, T in E. exact E.
Defined.
