(* ===== verification/Bugcheck.v ===== *)
(** * Bugcheck: bug checks and their callbacks (error.cpp)

    Drivers register records with a callback each; a bug check calls them and stops the
    process.  The records are the driver's memory, with the state and checksum the code
    keeps in them; the two lists are those of the entries in the records, in order.  The
    interrupt level and the lock are those of Spinlock.  What the callbacks do is the
    class [BUGCHECK_CALLBACKS], with a state of the driver's own. *)

From S2P Require Import Prelude Spinlock.

(** [BufferEmpty], [BufferInserted] *)
Definition BufferEmpty : Z := 0.
Definition BufferInserted : Z := 1.

Definition KbCallbackSecondaryDumpData : Z := 2.
Definition KbCallbackDumpIo : Z := 3.
Definition KbCallbackAddPages : Z := 4.
Definition KbCallbackSecondaryMultiPartDumpData : Z := 5.
Definition KbCallbackRemovePages : Z := 6.
Definition KbCallbackTriageDumpData : Z := 7.

Definition KB_ADD_PAGES_FLAG_ADDITIONAL_RANGES_EXIST : Z := 0x80000000.
Definition KB_REMOVE_PAGES_FLAG_ADDITIONAL_RANGES_EXIST : Z := 0x80000000.

Definition STATUS_SEMAPHORE_LIMIT_EXCEEDED : Z := 0xC0000047.
Definition MAXIMUM_WAIT_OBJECTS_EXCEEDED : Z := 0x0C.
Definition MULTIPLE_IRP_COMPLETE_REQUESTS : Z := 0x44.
Definition NO_MORE_IRP_STACK_LOCATIONS : Z := 0x35.

Record KBUGCHECK_CALLBACK_RECORD := mkRecord {
  CallbackRoutine : Z;
  Buffer_ : Z;
  Length_ : Z;
  Component : Z;
  Checksum : Z;
  State : Z
}.

Record KBUGCHECK_REASON_CALLBACK_RECORD := mkReason {
  r_CallbackRoutine : Z;
  r_Component : Z;
  r_Checksum : Z;
  Reason : Z;
  r_State : Z
}.

(** [(ULONG_PTR)cb ^ (ULONG_PTR)cb->CallbackRoutine & (ULONG_PTR)cb->Component] *)
Definition BUGCHECK_CHECKSUM (cb routine component : Z) : Z := Z.lxor cb (Z.land routine component).

(** The calls a bug check makes. *)
Inductive call :=
  | PagesCall (routine reason record code : Z)
  | TriageCall (routine record code : Z) (params : Z * Z * Z * Z)
  | PlainCall (routine buffer length : Z).

(** [reason_routine]: the [Flags] the routine leaves. *)
Class BUGCHECK_CALLBACKS := {
  driver : Type;
  reason_routine : Z -> Z -> Z -> Z -> driver -> Z * driver;
  triage_routine : Z -> Z -> Z -> Z * Z * Z * Z -> driver -> driver;
  plain_routine : Z -> Z -> Z -> driver -> driver
}.

Section bugcheck.
Context `{SRWLOCK_API} `{BUGCHECK_CALLBACKS}.

Record bstate := mkB {
  spin : state;
  records : gmap Z KBUGCHECK_CALLBACK_RECORD;
  reasons : gmap Z KBUGCHECK_REASON_CALLBACK_RECORD;
  List : list Z;
  ReasonList : list Z;
  calls : list call;
  drv : driver
}.

Definition B := W bstate.

Definition set_records f s := mkB (spin s) (f (records s)) (reasons s) (List s) (ReasonList s) (calls s) (drv s).
Definition set_reasons f s := mkB (spin s) (records s) (f (reasons s)) (List s) (ReasonList s) (calls s) (drv s).
Definition set_List f s := mkB (spin s) (records s) (reasons s) (f (List s)) (ReasonList s) (calls s) (drv s).
Definition set_ReasonList f s := mkB (spin s) (records s) (reasons s) (List s) (f (ReasonList s)) (calls s) (drv s).
Definition set_spin x s := mkB x (records s) (reasons s) (List s) (ReasonList s) (calls s) (drv s).
Definition called c d s := mkB (spin s) (records s) (reasons s) (List s) (ReasonList s) (calls s ++ [c]) d.

(** A call of irql.cpp or spinlock.cpp. *)
Definition on_spin {A} (m : W state A) : B A := fun s =>
  match m (spin s) with
  | Ok (Some (a, x)) => Ok (Some (a, set_spin x s))
  | Ok None => Ok None
  | Err f => Err f
  end.

(** The address of the static [Lock]. *)
Definition Lock : Z := 1.

Definition DdkInitError : B unit :=
  _ ← on_spin (KeInitializeSpinLock Lock);
  _ ← wput (set_List (fun _ => []));
  wput (set_ReasonList (fun _ => [])).

Definition record_at (p : Z) : B KBUGCHECK_CALLBACK_RECORD := fun s =>
  match records s !! p with Some r => Ok (Some (r, s)) | None => Err (BadAccess p) end.

Definition reason_at (p : Z) : B KBUGCHECK_REASON_CALLBACK_RECORD := fun s =>
  match reasons s !! p with Some r => Ok (Some (r, s)) | None => Err (BadAccess p) end.

(** ** Bug checks *)

(** [do { ... } while (data.Flags & ...ADDITIONAL_RANGES_EXIST)]; both flags are one bit. *)
Fixpoint pages_loop (fuel : nat) (routine reason rp code : Z) : B unit :=
  match fuel with
  | O => wlift (Err NoFuel)
  | S fuel =>
      d ← wget drv;
      let '(flags, d) := reason_routine routine reason rp code d in
      _ ← wput (called (PagesCall routine reason rp code) d);
      if negb (Z.land flags KB_ADD_PAGES_FLAG_ADDITIONAL_RANGES_EXIST =? 0)
      then pages_loop fuel routine reason rp code else mret tt
  end.

Definition reason_callback (fuel : nat) (code : Z) (params : Z * Z * Z * Z) (rp : Z) : B unit :=
  r ← reason_at rp;
  if negb (r_Checksum r =? BUGCHECK_CHECKSUM rp (r_CallbackRoutine r) (r_Component r)) then mret tt
  else if Reason r =? KbCallbackAddPages then pages_loop fuel (r_CallbackRoutine r) (Reason r) rp code
  else if Reason r =? KbCallbackRemovePages then pages_loop fuel (r_CallbackRoutine r) (Reason r) rp code
  else if Reason r =? KbCallbackTriageDumpData then
    d ← wget drv;
    wput (called (TriageCall (r_CallbackRoutine r) rp code params)
      (triage_routine (r_CallbackRoutine r) rp code params d))
  else mret tt.

Definition plain_callback (rp : Z) : B unit :=
  r ← record_at rp;
  if Checksum r =? BUGCHECK_CHECKSUM rp (CallbackRoutine r) (Component r) then
    d ← wget drv;
    wput (called (PlainCall (CallbackRoutine r) (Buffer_ r) (Length_ r))
      (plain_routine (CallbackRoutine r) (Buffer_ r) (Length_ r) d))
  else mret tt.

Fixpoint each (f : Z -> B unit) (l : list Z) : B unit :=
  match l with
  | [] => mret tt
  | p :: l => _ ← f p; each f l
  end.

(** [fuel]: how often a routine may ask to be called again. *)
Definition BugCheckCallbacks (fuel : nat) (t code : Z) (params : Z * Z * Z * Z) : B unit :=
  irql ← on_spin (KeRaiseIrql t HIGH_LEVEL);
  _ ← on_spin (KeAcquireSpinLockAtDpcLevel t Lock);
  l ← wget ReasonList;
  _ ← each (reason_callback fuel code params) l;
  l ← wget List;
  _ ← each plain_callback l;
  _ ← on_spin (KeReleaseSpinLockFromDpcLevel t Lock);
  on_spin (KeLowerIrql t irql).

Definition BugCheckString (code : Z) : string :=
  if code =? STATUS_SEMAPHORE_LIMIT_EXCEEDED then "STATUS_SEMAPHORE_LIMIT_EXCEEDED"
  else if code =? MAXIMUM_WAIT_OBJECTS_EXCEEDED then "MAXIMUM_WAIT_OBJECTS_EXCEEDED"
  else if code =? MULTIPLE_IRP_COMPLETE_REQUESTS then "MULTIPLE_IRP_COMPLETE_REQUESTS"
  else if code =? NO_MORE_IRP_STACK_LOCATIONS then "NO_MORE_IRP_STACK_LOCATIONS"
  else "UNKNOWN".

(** The message is the text of the code; its numbers are left out. *)
Definition KeBugCheckEx (fuel : nat) (t code : Z) (params : Z * Z * Z * Z) : B unit :=
  _ ← BugCheckCallbacks fuel t code params;
  wlift (Err (DdkFailed (BugCheckString code))).

Definition KeBugCheck (fuel : nat) (t code : Z) : B unit := KeBugCheckEx fuel t code (0, 0, 0, 0).

(** ** Registration *)

Definition KeRegisterBugCheckCallback (t CallbackRecord Routine Buffer Length Comp : Z) : B bool :=
  if CallbackRecord =? 0 then mret false else
  irql ← on_spin (KeRaiseIrql t HIGH_LEVEL);
  _ ← on_spin (KeAcquireSpinLockAtDpcLevel t Lock);
  r ← record_at CallbackRecord;
  rc ← (if State r =? BufferEmpty then
          _ ← wput (set_records <[CallbackRecord := mkRecord Routine Buffer Length Comp
                (BUGCHECK_CHECKSUM CallbackRecord Routine Comp) BufferInserted]>);
          _ ← wput (set_List (fun l => l ++ [CallbackRecord]));
          mret true
        else mret false);
  _ ← on_spin (KeReleaseSpinLockFromDpcLevel t Lock);
  _ ← on_spin (KeLowerIrql t irql);
  mret rc.

Definition KeDeregisterBugCheckCallback (t CallbackRecord : Z) : B bool :=
  if CallbackRecord =? 0 then mret false else
  irql ← on_spin (KeRaiseIrql t HIGH_LEVEL);
  _ ← on_spin (KeAcquireSpinLockAtDpcLevel t Lock);
  r ← record_at CallbackRecord;
  rc ← (if State r =? BufferInserted then
          _ ← wput (set_List (filter (fun p => p <> CallbackRecord)));
          _ ← wput (set_records <[CallbackRecord := mkRecord (CallbackRoutine r) (Buffer_ r) (Length_ r)
                (Component r) (Checksum r) BufferEmpty]>);
          mret true
        else mret false);
  _ ← on_spin (KeReleaseSpinLockFromDpcLevel t Lock);
  _ ← on_spin (KeLowerIrql t irql);
  mret rc.

Definition KeRegisterBugCheckReasonCallback (t CallbackRecord Routine Why Comp : Z) : B bool :=
  if CallbackRecord =? 0 then mret false else
  irql ← on_spin (KeRaiseIrql t HIGH_LEVEL);
  _ ← on_spin (KeAcquireSpinLockAtDpcLevel t Lock);
  r ← reason_at CallbackRecord;
  rc ← (if r_State r =? BufferEmpty then
          _ ← wput (set_reasons <[CallbackRecord := mkReason Routine Comp
                (BUGCHECK_CHECKSUM CallbackRecord Routine Comp) Why BufferInserted]>);
          _ ← wput (set_ReasonList (fun l => l ++ [CallbackRecord]));
          mret true
        else mret false);
  _ ← on_spin (KeReleaseSpinLockFromDpcLevel t Lock);
  _ ← on_spin (KeLowerIrql t irql);
  mret rc.

Definition KeDeregisterBugCheckReasonCallback (t CallbackRecord : Z) : B bool :=
  if CallbackRecord =? 0 then mret false else
  irql ← on_spin (KeRaiseIrql t HIGH_LEVEL);
  _ ← on_spin (KeAcquireSpinLockAtDpcLevel t Lock);
  r ← reason_at CallbackRecord;
  rc ← (if r_State r =? BufferInserted then
          _ ← wput (set_ReasonList (filter (fun p => p <> CallbackRecord)));
          _ ← wput (set_reasons <[CallbackRecord := mkReason (r_CallbackRoutine r) (r_Component r) (r_Checksum r)
                (Reason r) BufferEmpty]>);
          mret true
        else mret false);
  _ ← on_spin (KeReleaseSpinLockFromDpcLevel t Lock);
  _ ← on_spin (KeLowerIrql t irql);
  mret rc.

End bugcheck.
