(* ===== verification/BugcheckSpec.v ===== *)
(** * BugcheckSpec: which callbacks a bug check makes

    [brep] relates the records and lists to two lists of what is registered; the calls
    that register and deregister do to these what their names say, and a bug check makes
    the calls of the lists, in order.  All of them leave the interrupt level and the lock
    as they were. *)

From S2P Require Import Prelude Spinlock SpinlockSpec Bugcheck.

(** What is registered: the record, the routine, and its buffer and length, or reason. *)
Record registered := mkRegistered {
  plain : list (Z * (Z * Z * Z));
  by_reason : list (Z * (Z * Z))
}.

Inductive op :=
  | Register (record routine buffer length component : Z)
  | Deregister (record : Z)
  | RegisterReason (record routine reason component : Z)
  | DeregisterReason (record : Z).

Definition absent {A} (p : Z) (l : list (Z * A)) : bool := bool_decide (p ∉ l.*1).

Definition op_spec (o : op) (A : registered) : bool * registered :=
  match o with
  | Register p f b n _ =>
      if negb (p =? 0) && absent p (plain A)
      then (true, mkRegistered (plain A ++ [(p, (f, b, n))]) (by_reason A)) else (false, A)
  | Deregister p =>
      if negb (p =? 0) && negb (absent p (plain A))
      then (true, mkRegistered (filter (fun e => e.1 <> p) (plain A)) (by_reason A)) else (false, A)
  | RegisterReason p f r _ =>
      if negb (p =? 0) && absent p (by_reason A)
      then (true, mkRegistered (plain A) (by_reason A ++ [(p, (f, r))])) else (false, A)
  | DeregisterReason p =>
      if negb (p =? 0) && negb (absent p (by_reason A))
      then (true, mkRegistered (plain A) (filter (fun e => e.1 <> p) (by_reason A))) else (false, A)
  end.

Fixpoint ops_spec (os : list op) (A : registered) : list bool * registered :=
  match os with
  | [] => ([], A)
  | o :: os => let '(b, A) := op_spec o A in let '(bs, A) := ops_spec os A in (b :: bs, A)
  end.

Section spec.
Context `{SRWLOCK_Laws} `{BUGCHECK_CALLBACKS}.

Definition op_exec (t : Z) (o : op) : B bool :=
  match o with
  | Register p f b n c => KeRegisterBugCheckCallback t p f b n c
  | Deregister p => KeDeregisterBugCheckCallback t p
  | RegisterReason p f r c => KeRegisterBugCheckReasonCallback t p f r c
  | DeregisterReason p => KeDeregisterBugCheckReasonCallback t p
  end.

Fixpoint ops_exec (t : Z) (os : list op) : B (list bool) :=
  match os with
  | [] => mret []
  | o :: os => b ← op_exec t o; bs ← ops_exec t os; mret (b :: bs)
  end.

(** The lock is free and the thread at [irql]. *)
Definition quiet (t irql : Z) (x : state) : Prop :=
  DdkCurrentIrql t x = irql /\ mode (spin_of x Lock) = Free.

(** The thread has the lock, at [HIGH_LEVEL]. *)
Definition locked (t : Z) (x : state) : Prop :=
  DdkCurrentIrql t x = HIGH_LEVEL /\ mode (spin_of x Lock) = Exclusive.

(** ** The lock around each call *)

Lemma on_spin_run {A} (m : W state A) s a x : m (spin s) = Ok (Some (a, x)) -> on_spin m s = Ok (Some (a, set_spin x s)).
Proof. unfold on_spin. by intros ->. Qed.

Lemma raise_run t n x :
  DdkCurrentIrql t x <= n -> KeRaiseIrql t n x = Ok (Some (DdkCurrentIrql t x, set_irqls <[t := n]> x)).
Proof.
  intros B. unfold KeRaiseIrql, KfRaiseIrql, KeGetCurrentIrql, wget, wassert, wlift, ddkassert, wput, mbind, W_bind, mret, W_ret.
  simpl. by replace (DdkCurrentIrql t x <=? n) with true by lia.
Qed.

Lemma lower_run t n x :
  n <= DdkCurrentIrql t x -> KeLowerIrql t n x = Ok (Some (tt, set_irqls <[t := n]> x)).
Proof.
  intros B. unfold KeLowerIrql, KeGetCurrentIrql, wget, wassert, wlift, ddkassert, wput, mbind, W_bind.
  simpl. rewrite Z.geb_leb. by replace (n <=? DdkCurrentIrql t x) with true by lia.
Qed.

Lemma set_spin_twice x y s : set_spin y (set_spin x s) = set_spin y s.
Proof. done. Qed.

Lemma acquire_dpc_run t x l :
  DdkCurrentIrql t x = HIGH_LEVEL -> AcquireSRWLockExclusive (spin_of x Lock) = Some l ->
  KeAcquireSpinLockAtDpcLevel t Lock x = Ok (Some (tt, set_spins <[Lock := l]> (set_irqls <[t := HIGH_LEVEL]> x))).
Proof.
  intros Ex Hl. unfold KeAcquireSpinLockAtDpcLevel, KeGetCurrentIrql.
  rewrite (wbind_run _ _ x _ _ eq_refl), Ex. rewrite (wbind_run _ _ x tt x) by done.
  rewrite (wbind_run _ _ x _ _ eq_refl), Ex.
  assert (AcquireSpinLock t Lock HIGH_LEVEL x =
    Ok (Some (HIGH_LEVEL, set_spins <[Lock := l]> (set_irqls <[t := HIGH_LEVEL]> x)))) as R.
  { unfold AcquireSpinLock. rewrite (wbind_run _ _ _ _ _ (raise_run t HIGH_LEVEL x ltac:(lia))), Ex.
    unfold wget, wwait, wput, mbind, W_bind, mret, W_ret.
    change (spin_of (set_irqls <[t := HIGH_LEVEL]> x) Lock) with (spin_of x Lock). by rewrite Hl. }
  by rewrite (wbind_run _ _ _ _ _ R).
Qed.

Lemma release_dpc_run t x :
  DdkCurrentIrql t x = HIGH_LEVEL ->
  KeReleaseSpinLockFromDpcLevel t Lock x =
    Ok (Some (tt, set_irqls <[t := HIGH_LEVEL]> (set_spins <[Lock := ReleaseSRWLockExclusive (spin_of x Lock)]> x))).
Proof.
  intros Ex. unfold KeReleaseSpinLockFromDpcLevel, KeGetCurrentIrql.
  rewrite (wbind_run _ _ x _ _ eq_refl), Ex. unfold KeReleaseSpinLock, KeGetCurrentIrql.
  rewrite (wbind_run _ _ x _ _ eq_refl), Ex. rewrite (wbind_run _ _ x tt x) by done.
  rewrite (wbind_run _ _ x _ _ eq_refl). rewrite (wbind_run _ _ x _ _ eq_refl).
  apply lower_run. change (DdkCurrentIrql t (set_spins ?f ?y)) with (DdkCurrentIrql t y). lia.
Qed.

Lemma irql_here t n x : DdkCurrentIrql t (set_irqls <[t := n]> x) = n.
Proof. rewrite irql_insert. by rewrite decide_True. Qed.

Lemma lock_run {A} t irql s (k : Z -> B A) :
  quiet t irql (spin s) -> irql <= HIGH_LEVEL ->
  exists x, (i ← on_spin (KeRaiseIrql t HIGH_LEVEL); _ ← on_spin (KeAcquireSpinLockAtDpcLevel t Lock); k i) s =
    k irql (set_spin x s) /\ locked t x.
Proof.
  intros [Q1 Q2] Hi. destruct (mode_free _ Q2) as [l Hl]. set (x := set_irqls <[t := HIGH_LEVEL]> (spin s)).
  exists (set_spins <[Lock := l]> (set_irqls <[t := HIGH_LEVEL]> x)). split.
  - rewrite (wbind_run _ _ _ _ _ (on_spin_run _ s _ _ (raise_run t HIGH_LEVEL (spin s) ltac:(lia)))), Q1.
    fold x. rewrite (wbind_run _ _ _ _ _ (on_spin_run _ (set_spin x s) _ _ (acquire_dpc_run t x l (irql_here _ _ _) Hl))).
    done.
  - split; [apply irql_here |]. rewrite spin_insert, decide_True by done. by apply mode_acquire in Hl as [_ ->].
Qed.

Lemma unlock_run {A} t irql s (k : B A) :
  locked t (spin s) -> irql <= HIGH_LEVEL ->
  exists x, (_ ← on_spin (KeReleaseSpinLockFromDpcLevel t Lock); _ ← on_spin (KeLowerIrql t irql); k) s =
    k (set_spin x s) /\ quiet t irql x.
Proof.
  intros [Q1 Q2] Hi.
  set (x := set_irqls <[t := HIGH_LEVEL]> (set_spins <[Lock := ReleaseSRWLockExclusive (spin_of (spin s) Lock)]> (spin s))).
  exists (set_irqls <[t := irql]> x). split.
  - rewrite (wbind_run _ _ _ _ _ (on_spin_run _ s _ _ (release_dpc_run t (spin s) Q1))). fold x.
    rewrite (wbind_run _ _ _ _ _ (on_spin_run _ (set_spin x s) _ _
      (lower_run t irql x ltac:(unfold x; rewrite irql_here; lia)))). done.
  - split; [apply irql_here |]. unfold x.
    change (spin_of (set_irqls ?f ?y) Lock) with (spin_of y Lock).
    change (spin_of (set_irqls ?f ?y) Lock) with (spin_of y Lock). rewrite spin_insert, decide_True by done.
    by apply mode_release.
Qed.

(** A registration call: its body, between the two halves of the lock. *)
Lemma locked_call {R} t irql s s1 (read : B R) (body : R -> B bool) r rc :
  quiet t irql (spin s) -> irql <= HIGH_LEVEL ->
  (forall x, read (set_spin x s) = Ok (Some (r, set_spin x s)) /\
    body r (set_spin x s) = Ok (Some (rc, set_spin x s1))) ->
  exists x, (i ← on_spin (KeRaiseIrql t HIGH_LEVEL); _ ← on_spin (KeAcquireSpinLockAtDpcLevel t Lock);
     r ← read; rc ← body r;
     _ ← on_spin (KeReleaseSpinLockFromDpcLevel t Lock); _ ← on_spin (KeLowerIrql t i); mret rc) s =
    Ok (Some (rc, set_spin x s1)) /\ quiet t irql x.
Proof.
  intros Q Hi Hb.
  destruct (lock_run t irql s (fun i => r ← read; rc ← body r;
     _ ← on_spin (KeReleaseSpinLockFromDpcLevel t Lock); _ ← on_spin (KeLowerIrql t i); mret rc) Q Hi) as (x & -> & L).
  destruct (Hb x) as [Hr Hc]. rewrite (wbind_run _ _ _ _ _ Hr), (wbind_run _ _ _ _ _ Hc).
  destruct (unlock_run t irql (set_spin x s1) (mret rc) L Hi) as (x' & -> & Q'). by exists x'.
Qed.

(** ** Registration *)

Record brep (s : bstate) (A : registered) : Prop := {
  b_list : List s = (plain A).*1;
  b_nodup : NoDup (plain A).*1;
  b_in : forall p f b n, (p, (f, b, n)) ∈ plain A ->
    exists c, records s !! p = Some (mkRecord f b n c (BUGCHECK_CHECKSUM p f c) BufferInserted);
  b_out : forall p r, records s !! p = Some r -> p ∉ (plain A).*1 -> State r = BufferEmpty;
  br_list : ReasonList s = (by_reason A).*1;
  br_nodup : NoDup (by_reason A).*1;
  br_in : forall p f w, (p, (f, w)) ∈ by_reason A ->
    exists c, reasons s !! p = Some (mkReason f c (BUGCHECK_CHECKSUM p f c) w BufferInserted);
  br_out : forall p r, reasons s !! p = Some r -> p ∉ (by_reason A).*1 -> r_State r = BufferEmpty
}.

(** The record of the call is there, if it is not [NULL]. *)
Definition op_live (s : bstate) (o : op) : Prop :=
  match o with
  | Register p _ _ _ _ | Deregister p => p <> 0 -> is_Some (records s !! p)
  | RegisterReason p _ _ _ | DeregisterReason p => p <> 0 -> is_Some (reasons s !! p)
  end.

Lemma fst_filter {X} (l : list (Z * X)) p : (filter (fun e => e.1 <> p) l).*1 = filter (fun q => q <> p) l.*1.
Proof.
  induction l as [|[q x] l IH]; [done |]. rewrite fmap_cons. destruct (decide (q = p)) as [-> | N].
  - by rewrite !filter_cons_False by (simpl; tauto).
  - rewrite !filter_cons_True by done. by rewrite fmap_cons, IH.
Qed.

Lemma record_at_run p s r : records s !! p = Some r -> record_at p s = Ok (Some (r, s)).
Proof. intros E. unfold record_at. by rewrite E. Qed.

Lemma reason_at_run p s r : reasons s !! p = Some r -> reason_at p s = Ok (Some (r, s)).
Proof. intros E. unfold reason_at. by rewrite E. Qed.

Lemma brep_spin s A x : brep s A -> brep (set_spin x s) A.
Proof. by intros []. Qed.

Lemma plain_state s A p r : brep s A -> records s !! p = Some r ->
  State r = if absent p (plain A) then BufferEmpty else BufferInserted.
Proof.
  intros R E. unfold absent. case_bool_decide as D; [by eapply b_out |].
  apply list_elem_of_fmap in D as ([q [[f b] n]] & -> & D).
  destruct (b_in _ _ R _ _ _ _ D) as (c & E'). simpl in *. by simplify_eq.
Qed.

Lemma reason_state s A p r : brep s A -> reasons s !! p = Some r ->
  r_State r = if absent p (by_reason A) then BufferEmpty else BufferInserted.
Proof.
  intros R E. unfold absent. case_bool_decide as D; [by eapply br_out |].
  apply list_elem_of_fmap in D as ([q [f w]] & -> & D).
  destruct (br_in _ _ R _ _ _ D) as (c & E'). simpl in *. by simplify_eq.
Qed.

(** What a call may change. *)
Definition untouched (s s' : bstate) : Prop :=
  calls s' = calls s /\ drv s' = drv s /\
  (forall p, is_Some (records s !! p) -> is_Some (records s' !! p)) /\
  (forall p, is_Some (reasons s !! p) -> is_Some (reasons s' !! p)).

Lemma still_there {X} (m : gmap Z X) p x q : is_Some (m !! q) -> is_Some (<[p := x]> m !! q).
Proof.
  intros I. destruct (decide (p = q)) as [-> |]; [by rewrite lookup_insert_eq | by rewrite lookup_insert_ne].
Qed.

Lemma register_run t irql s A p f b n c :
  brep s A -> quiet t irql (spin s) -> irql <= HIGH_LEVEL -> op_live s (Register p f b n c) ->
  exists s', op_exec t (Register p f b n c) s = Ok (Some ((op_spec (Register p f b n c) A).1, s')) /\
    brep s' (op_spec (Register p f b n c) A).2 /\ quiet t irql (spin s') /\ untouched s s'.
Proof.
  intros R Q Hi Lv. simpl. unfold KeRegisterBugCheckCallback. destruct (Z.eqb_spec p 0) as [-> | Np]; simpl; [by exists s |].
  destruct (Lv Np) as [r E]. pose proof (plain_state s A p r R E) as St.
  set (s1 := set_List (fun l => l ++ [p]) (set_records <[p := mkRecord f b n c (BUGCHECK_CHECKSUM p f c) BufferInserted]> s)).
  destruct (locked_call t irql s (if absent p (plain A) then s1 else s) (record_at p)
    (fun r => if State r =? BufferEmpty then
          _ ← wput (set_records <[p := mkRecord f b n c (BUGCHECK_CHECKSUM p f c) BufferInserted]>);
          _ ← wput (set_List (fun l => l ++ [p])); mret true
        else mret false) r (absent p (plain A)) Q Hi) as (x & -> & Q').
  { intros x. split; [by apply record_at_run |]. rewrite St. by destruct (absent p (plain A)). }
  unfold absent in *. case_bool_decide as D; eexists.
  - split; [reflexivity |]. split; [| split; [exact Q' | split; [done | split; [done | split]]]]; simpl.
    + apply brep_spin. destruct R as [L N I O Lr Nr Ir Or]. split; simpl; try done.
      * by rewrite L, fmap_app.
      * rewrite fmap_app. apply NoDup_app. split; [done |]. split; [| apply NoDup_singleton].
        intros q Hq ->%list_elem_of_singleton. done.
      * intros q f' b' n' [Hq | Hq%list_elem_of_singleton]%elem_of_app.
        -- rewrite lookup_insert_ne; [by apply I |]. intros ->. apply D. apply list_elem_of_fmap. by exists (q, (f', b', n')).
        -- injection Hq as -> -> -> ->. exists c. by rewrite lookup_insert_eq.
      * intros q rq. rewrite fmap_app, elem_of_app. simpl. intros Eq Hq.
        rewrite lookup_insert_ne in Eq; [apply (O q rq Eq); tauto |]. intros ->. apply Hq. right. by left.
    + intros q. apply still_there.
    + done.
  - split; [reflexivity |]. split; [by apply brep_spin | done].
Qed.

Lemma filter_nodup (l : list Z) p : NoDup l -> NoDup (filter (fun q => q <> p) l).
Proof. apply NoDup_filter. Qed.

Lemma in_filter_fst {X} (l : list (Z * X)) p q x : (q, x) ∈ filter (fun e => e.1 <> p) l <-> q <> p /\ (q, x) ∈ l.
Proof. by rewrite list_elem_of_filter. Qed.

Lemma deregister_run t irql s A p :
  brep s A -> quiet t irql (spin s) -> irql <= HIGH_LEVEL -> op_live s (Deregister p) ->
  exists s', op_exec t (Deregister p) s = Ok (Some ((op_spec (Deregister p) A).1, s')) /\
    brep s' (op_spec (Deregister p) A).2 /\ quiet t irql (spin s') /\ untouched s s'.
Proof.
  intros R Q Hi Lv. simpl. unfold KeDeregisterBugCheckCallback. destruct (Z.eqb_spec p 0) as [-> | Np]; simpl; [by exists s |].
  destruct (Lv Np) as [r E]. pose proof (plain_state s A p r R E) as St.
  set (s1 := set_records <[p := mkRecord (CallbackRoutine r) (Buffer_ r) (Length_ r) (Component r) (Checksum r) BufferEmpty]>
    (set_List (filter (fun q => q <> p)) s)).
  destruct (locked_call t irql s (if absent p (plain A) then s else s1) (record_at p)
    (fun r => if State r =? BufferInserted then
          _ ← wput (set_List (filter (fun q => q <> p)));
          _ ← wput (set_records <[p := mkRecord (CallbackRoutine r) (Buffer_ r) (Length_ r)
                (Component r) (Checksum r) BufferEmpty]>); mret true
        else mret false) r (negb (absent p (plain A))) Q Hi) as (x & -> & Q').
  { intros x. split; [by apply record_at_run |]. rewrite St. by destruct (absent p (plain A)). }
  unfold absent in *. case_bool_decide as D; eexists.
  - split; [reflexivity |]. split; [by apply brep_spin | done].
  - split; [reflexivity |]. split; [| split; [exact Q' | split; [done | split; [done | split]]]]; simpl.
    + apply brep_spin. destruct R as [L N I O Lr Nr Ir Or]. split; simpl; try done.
      * by rewrite L, fst_filter.
      * rewrite fst_filter. by apply filter_nodup.
      * intros q f b n [Hq Hin]%in_filter_fst. rewrite lookup_insert_ne by done. by apply I.
      * intros q rq Eq. rewrite fst_filter, list_elem_of_filter. intros Hq.
        destruct (decide (q = p)) as [-> | Nq]; [rewrite lookup_insert_eq in Eq; by injection Eq as <- |].
        rewrite lookup_insert_ne in Eq by done. apply (O q rq Eq). tauto.
    + intros q. apply still_there.
    + done.
Qed.

Lemma register_reason_run t irql s A p f w c :
  brep s A -> quiet t irql (spin s) -> irql <= HIGH_LEVEL -> op_live s (RegisterReason p f w c) ->
  exists s', op_exec t (RegisterReason p f w c) s = Ok (Some ((op_spec (RegisterReason p f w c) A).1, s')) /\
    brep s' (op_spec (RegisterReason p f w c) A).2 /\ quiet t irql (spin s') /\ untouched s s'.
Proof.
  intros R Q Hi Lv. simpl. unfold KeRegisterBugCheckReasonCallback. destruct (Z.eqb_spec p 0) as [-> | Np]; simpl; [by exists s |].
  destruct (Lv Np) as [r E]. pose proof (reason_state s A p r R E) as St.
  set (s1 := set_ReasonList (fun l => l ++ [p]) (set_reasons <[p := mkReason f c (BUGCHECK_CHECKSUM p f c) w BufferInserted]> s)).
  destruct (locked_call t irql s (if absent p (by_reason A) then s1 else s) (reason_at p)
    (fun r => if r_State r =? BufferEmpty then
          _ ← wput (set_reasons <[p := mkReason f c (BUGCHECK_CHECKSUM p f c) w BufferInserted]>);
          _ ← wput (set_ReasonList (fun l => l ++ [p])); mret true
        else mret false) r (absent p (by_reason A)) Q Hi) as (x & -> & Q').
  { intros x. split; [by apply reason_at_run |]. rewrite St. by destruct (absent p (by_reason A)). }
  unfold absent in *. case_bool_decide as D; eexists.
  - split; [reflexivity |]. split; [| split; [exact Q' | split; [done | split; [done | split]]]]; simpl.
    + apply brep_spin. destruct R as [L N I O Lr Nr Ir Or]. split; simpl; try done.
      * by rewrite Lr, fmap_app.
      * rewrite fmap_app. apply NoDup_app. split; [done |]. split; [| apply NoDup_singleton].
        intros q Hq ->%list_elem_of_singleton. done.
      * intros q f' w' [Hq | Hq%list_elem_of_singleton]%elem_of_app.
        -- rewrite lookup_insert_ne; [by apply Ir |]. intros ->. apply D. apply list_elem_of_fmap. by exists (q, (f', w')).
        -- injection Hq as -> -> ->. exists c. by rewrite lookup_insert_eq.
      * intros q rq. rewrite fmap_app, elem_of_app. simpl. intros Eq Hq.
        rewrite lookup_insert_ne in Eq; [apply (Or q rq Eq); tauto |]. intros ->. apply Hq. right. by left.
    + done.
    + intros q. apply still_there.
  - split; [reflexivity |]. split; [by apply brep_spin | done].
Qed.

Lemma deregister_reason_run t irql s A p :
  brep s A -> quiet t irql (spin s) -> irql <= HIGH_LEVEL -> op_live s (DeregisterReason p) ->
  exists s', op_exec t (DeregisterReason p) s = Ok (Some ((op_spec (DeregisterReason p) A).1, s')) /\
    brep s' (op_spec (DeregisterReason p) A).2 /\ quiet t irql (spin s') /\ untouched s s'.
Proof.
  intros R Q Hi Lv. simpl. unfold KeDeregisterBugCheckReasonCallback. destruct (Z.eqb_spec p 0) as [-> | Np]; simpl; [by exists s |].
  destruct (Lv Np) as [r E]. pose proof (reason_state s A p r R E) as St.
  set (s1 := set_reasons <[p := mkReason (r_CallbackRoutine r) (r_Component r) (r_Checksum r) (Reason r) BufferEmpty]>
    (set_ReasonList (filter (fun q => q <> p)) s)).
  destruct (locked_call t irql s (if absent p (by_reason A) then s else s1) (reason_at p)
    (fun r => if r_State r =? BufferInserted then
          _ ← wput (set_ReasonList (filter (fun q => q <> p)));
          _ ← wput (set_reasons <[p := mkReason (r_CallbackRoutine r) (r_Component r) (r_Checksum r)
                (Reason r) BufferEmpty]>); mret true
        else mret false) r (negb (absent p (by_reason A))) Q Hi) as (x & -> & Q').
  { intros x. split; [by apply reason_at_run |]. rewrite St. by destruct (absent p (by_reason A)). }
  unfold absent in *. case_bool_decide as D; eexists.
  - split; [reflexivity |]. split; [by apply brep_spin | done].
  - split; [reflexivity |]. split; [| split; [exact Q' | split; [done | split; [done | split]]]]; simpl.
    + apply brep_spin. destruct R as [L N I O Lr Nr Ir Or]. split; simpl; try done.
      * by rewrite Lr, fst_filter.
      * rewrite fst_filter. by apply filter_nodup.
      * intros q f w [Hq Hin]%in_filter_fst. rewrite lookup_insert_ne by done. by apply Ir.
      * intros q rq Eq. rewrite fst_filter, list_elem_of_filter. intros Hq.
        destruct (decide (q = p)) as [-> | Nq]; [rewrite lookup_insert_eq in Eq; by injection Eq as <- |].
        rewrite lookup_insert_ne in Eq by done. apply (Or q rq Eq). tauto.
    + done.
    + intros q. apply still_there.
Qed.

Lemma op_run t irql s A o :
  brep s A -> quiet t irql (spin s) -> irql <= HIGH_LEVEL -> op_live s o ->
  exists s', op_exec t o s = Ok (Some ((op_spec o A).1, s')) /\ brep s' (op_spec o A).2 /\
    quiet t irql (spin s') /\ untouched s s'.
Proof.
  destruct o; [apply register_run | apply deregister_run | apply register_reason_run | apply deregister_reason_run].
Qed.

Lemma op_live_mono s s' o : untouched s s' -> op_live s o -> op_live s' o.
Proof. intros (_ & _ & A & B). destruct o; simpl; auto. Qed.

Lemma ops_run t irql os s A
    (R : brep s A) (Q : quiet t irql (spin s)) (Hi : irql <= HIGH_LEVEL) (Lv : Forall (op_live s) os) :
  exists s', ops_exec t os s = Ok (Some ((ops_spec os A).1, s')) /\ brep s' (ops_spec os A).2 /\
    quiet t irql (spin s') /\ calls s' = calls s.
Proof.
  revert s A R Q Lv. induction os as [|o os IH]; intros s A R Q Lv; [by exists s |].
  apply Forall_cons in Lv as [Lo Lv]. destruct (op_run t irql s A o R Q Hi Lo) as (s1 & E1 & R1 & Q1 & U1).
  simpl. rewrite (wbind_run _ _ _ _ _ E1). destruct (op_spec o A) as [b A1]. simpl in R1 |- *.
  destruct (IH s1 A1 R1 Q1) as (s' & E' & R' & Q' & C').
  { eapply Forall_impl; [exact Lv |]. intros o'. by apply op_live_mono. }
  rewrite (wbind_run _ _ _ _ _ E'). destruct (ops_spec os A1) as [bs A']. exists s'. split; [done |].
  split; [done |]. split; [done |]. rewrite C'. apply U1.
Qed.

(** C33. Registering and deregistering, of both kinds: for every sequence of calls on
    records that exist, the results are those of two lists of what is registered (a
    record can be registered once, and deregistered while it is), the lists and records
    in memory are these lists afterwards, no callback runs, and the lock and the
    interrupt level are as before. *)
Theorem registration_refinement t irql os s A
    (R : brep s A) (Q : quiet t irql (spin s)) (Hi : irql <= HIGH_LEVEL) (Lv : Forall (op_live s) os) :
  exists s', ops_exec t os s = Ok (Some ((ops_spec os A).1, s')) /\ brep s' (ops_spec os A).2 /\
    quiet t irql (spin s') /\ calls s' = calls s.
Proof. by apply ops_run. Qed.

(** ** The calls of a bug check *)

(** How often a routine is called, and the driver's state after it: [None] if it asks for
    more than [fuel] calls. *)
Fixpoint rounds (fuel : nat) (f w p code : Z) (d : driver) : option (nat * driver) :=
  match fuel with
  | O => None
  | S fuel =>
      let '(flags, d) := reason_routine f w p code d in
      if Z.land flags KB_ADD_PAGES_FLAG_ADDITIONAL_RANGES_EXIST =? 0 then Some (1%nat, d)
      else '(k, d) ← rounds fuel f w p code d; Some (S k, d)
  end.

(** The calls of a routine for pages, from one state of the driver to another: until it
    leaves the flag clear. *)
Inductive pages_calls (f w p code : Z) : driver -> list call -> driver -> Prop :=
  | pages_last d flags d' :
      reason_routine f w p code d = (flags, d') ->
      Z.land flags KB_ADD_PAGES_FLAG_ADDITIONAL_RANGES_EXIST = 0 ->
      pages_calls f w p code d [PagesCall f w p code] d'
  | pages_more d flags d1 cs d' :
      reason_routine f w p code d = (flags, d1) ->
      Z.land flags KB_ADD_PAGES_FLAG_ADDITIONAL_RANGES_EXIST <> 0 ->
      pages_calls f w p code d1 cs d' ->
      pages_calls f w p code d (PagesCall f w p code :: cs) d'.

(** The calls for one reason callback. *)
Definition reason_calls (code : Z) (params : Z * Z * Z * Z) (e : Z * (Z * Z)) (d : driver) (cs : list call) (d' : driver) : Prop :=
  let '(p, (f, w)) := e in
  if (w =? KbCallbackAddPages) || (w =? KbCallbackRemovePages) then pages_calls f w p code d cs d'
  else if w =? KbCallbackTriageDumpData then cs = [TriageCall f p code params] /\ d' = triage_routine f p code params d
  else cs = [] /\ d' = d.

(** Those for all of them, in order. *)
Inductive all_reason_calls (code : Z) (params : Z * Z * Z * Z) : list (Z * (Z * Z)) -> driver -> list call -> driver -> Prop :=
  | reason_nil d : all_reason_calls code params [] d [] d
  | reason_cons e l d cs d1 cs' d' :
      reason_calls code params e d cs d1 -> all_reason_calls code params l d1 cs' d' ->
      all_reason_calls code params (e :: l) d (cs ++ cs') d'.

Definition plain_call (e : Z * (Z * Z * Z)) : call := let '(p, (f, b, n)) := e in PlainCall f b n.

Definition plain_after (d : driver) (e : Z * (Z * Z * Z)) : driver := let '(p, (f, b, n)) := e in plain_routine f b n d.

(** Only the calls made and the driver's state differ. *)
Definition made (cs : list call) (s s' : bstate) : Prop :=
  calls s' = calls s ++ cs /\ spin s' = spin s /\ records s' = records s /\ reasons s' = reasons s /\
  List s' = List s /\ ReasonList s' = ReasonList s.

Lemma made_trans cs cs' s1 s2 s3 : made cs s1 s2 -> made cs' s2 s3 -> made (cs ++ cs') s1 s3.
Proof.
  intros (A & B & C & D & E & F) (A' & B' & C' & D' & E' & F'). split_and!; try congruence.
  by rewrite A', A, (assoc_L (++)).
Qed.

Lemma made_brep cs s s' A : made cs s s' -> brep s A -> brep s' A.
Proof. intros (C & Sp & Re & Rs & L & Rl) []. split; rewrite ?Re, ?Rs, ?L, ?Rl; done. Qed.

Lemma pages_loop_run fuel f w p code : forall s k d,
  rounds fuel f w p code (drv s) = Some (k, d) ->
  exists s' cs, pages_loop fuel f w p code s = Ok (Some (tt, s')) /\ made cs s s' /\
    pages_calls f w p code (drv s) cs (drv s').
Proof.
  induction fuel as [|fuel IH]; intros s k d E; [done |]. simpl in *.
  rewrite (wbind_run _ _ s (drv s) s eq_refl). destruct (reason_routine f w p code (drv s)) as [flags d1] eqn:Er.
  rewrite (wbind_run _ _ s tt (called (PagesCall f w p code) d1 s) eq_refl).
  destruct (Z.eqb_spec (Z.land flags KB_ADD_PAGES_FLAG_ADDITIONAL_RANGES_EXIST) 0) as [Ef | Ef]; simpl.
  - eexists _, _. split; [done |]. split; [by split | by eapply pages_last].
  - destruct (rounds fuel f w p code d1) as [[k1 d2] |] eqn:E1; [| done].
    destruct (IH (called (PagesCall f w p code) d1 s) k1 d2 E1) as (s' & cs & -> & M & C).
    exists s', (PagesCall f w p code :: cs). split; [done |]. split; [| by eapply pages_more].
    apply (made_trans [_] _ s (called (PagesCall f w p code) d1 s)); [done | exact M].
Qed.

Section bugcheck.
Context (fuel : nat) (code : Z) (params : Z * Z * Z * Z).

(** Every routine for pages stops asking within [fuel] calls. *)
Hypothesis ends : forall f w p d, is_Some (rounds fuel f w p code d).

Lemma reason_callback_run s p f w c :
  reasons s !! p = Some (mkReason f c (BUGCHECK_CHECKSUM p f c) w BufferInserted) ->
  exists s' cs, reason_callback fuel code params p s = Ok (Some (tt, s')) /\ made cs s s' /\
    reason_calls code params (p, (f, w)) (drv s) cs (drv s').
Proof.
  intros E. unfold reason_callback. rewrite (wbind_run _ _ _ _ _ (reason_at_run _ _ _ E)). simpl.
  rewrite Z.eqb_refl. simpl. destruct (ends f w p (drv s)) as [[k d] Ed].
  destruct (pages_loop_run fuel f w p code s k d Ed) as (s' & cs & Rn & M & K).
  destruct (Z.eqb_spec w KbCallbackAddPages) as [-> | N1]; [by exists s', cs |].
  destruct (Z.eqb_spec w KbCallbackRemovePages) as [-> | N2]; [by exists s', cs |]. simpl.
  destruct (Z.eqb_spec w KbCallbackTriageDumpData) as [-> | N3].
  - eexists _, _. split; [reflexivity |]. by split.
  - exists s, []. split; [done |]. split; [| done]. split; [by rewrite app_nil_r | done].
Qed.

Lemma each_reason_run l : forall s,
  (forall p f w, (p, (f, w)) ∈ l -> exists c, reasons s !! p = Some (mkReason f c (BUGCHECK_CHECKSUM p f c) w BufferInserted)) ->
  exists s' cs, each (reason_callback fuel code params) l.*1 s = Ok (Some (tt, s')) /\ made cs s s' /\
    all_reason_calls code params l (drv s) cs (drv s').
Proof.
  induction l as [|[p [f w]] l IH]; intros s Hl.
  - exists s, []. split; [done |]. split; [| constructor]. split; [by rewrite app_nil_r | done].
  - destruct (Hl p f w) as [c Ec]; [by left |]. destruct (reason_callback_run s p f w c Ec) as (s1 & cs & R1 & M1 & C1).
    destruct (IH s1) as (s' & cs' & R' & M' & C').
    { intros q g u Hq. destruct (Hl q g u) as [c' E']; [by right |]. exists c'. destruct M1 as (_ & _ & _ & -> & _). done. }
    exists s', (cs ++ cs'). rewrite fmap_cons. cbn [each fst]. rewrite (wbind_run _ _ _ _ _ R1). split; [done |].
    split; [by apply (made_trans _ _ s s1) | by econstructor].
Qed.

Lemma each_plain_run l : forall s,
  (forall p f b n, (p, (f, b, n)) ∈ l -> exists c, records s !! p = Some (mkRecord f b n c (BUGCHECK_CHECKSUM p f c) BufferInserted)) ->
  exists s', each plain_callback l.*1 s = Ok (Some (tt, s')) /\ made (map plain_call l) s s' /\
    drv s' = fold_left plain_after l (drv s).
Proof.
  induction l as [|[p [[f b] n]] l IH]; intros s Hl.
  - exists s. split; [done |]. split; [| done]. split; [by rewrite app_nil_r | done].
  - destruct (Hl p f b n) as [c Ec]; [by left |].
    set (s1 := called (PlainCall f b n) (plain_routine f b n (drv s)) s).
    assert (plain_callback p s = Ok (Some (tt, s1))) as R1.
    { unfold plain_callback. rewrite (wbind_run _ _ _ _ _ (record_at_run _ _ _ Ec)). simpl. by rewrite Z.eqb_refl. }
    destruct (IH s1) as (s' & R' & M' & D').
    { intros q g b' n' Hq. apply Hl. by right. }
    exists s'. rewrite fmap_cons. cbn [each fst]. rewrite (wbind_run _ _ _ _ _ R1). split; [done |].
    split; [by apply (made_trans [_] _ s s1) | by rewrite D'].
Qed.

End bugcheck.

(** C34. A bug check calls what is registered, and nothing else, in the order of
    registration: first the reason callbacks, those for pages again and again until they
    ask for no more, those for triage data once and those for dumps not at all, then the
    plain ones with their buffers, each in the state the calls before have left the
    driver in.  It leaves the lock and the interrupt level as they were, and
    [KeBugCheckEx] then fails with the name of the code. *)
Theorem BugCheckCallbacks_spec fuel t irql code params s A
    (ends : forall f w p d, is_Some (rounds fuel f w p code d))
    (R : brep s A) (Q : quiet t irql (spin s)) (Hi : irql <= HIGH_LEVEL) :
  exists s' cs d, BugCheckCallbacks fuel t code params s = Ok (Some (tt, s')) /\
    all_reason_calls code params (by_reason A) (drv s) cs d /\
    calls s' = calls s ++ cs ++ map plain_call (plain A) /\ drv s' = fold_left plain_after (plain A) d /\
    brep s' A /\ quiet t irql (spin s') /\
    KeBugCheckEx fuel t code params s = Err (DdkFailed (BugCheckString code)).
Proof.
  assert (exists s' cs d, BugCheckCallbacks fuel t code params s = Ok (Some (tt, s')) /\
    all_reason_calls code params (by_reason A) (drv s) cs d /\
    calls s' = calls s ++ cs ++ map plain_call (plain A) /\ drv s' = fold_left plain_after (plain A) d /\
    brep s' A /\ quiet t irql (spin s')) as (s' & cs & d & E & Ca & C & D & R' & Q').
  { unfold BugCheckCallbacks.
    destruct (lock_run t irql s (fun i => l ← wget ReasonList; _ ← each (reason_callback fuel code params) l;
      l ← wget List; _ ← each plain_callback l; _ ← on_spin (KeReleaseSpinLockFromDpcLevel t Lock);
      on_spin (KeLowerIrql t i)) Q Hi) as (x & -> & Lx).
    pose proof (brep_spin _ _ x R) as Rx. set (s0 := set_spin x s) in *.
    rewrite (wbind_run _ _ s0 (by_reason A).*1 s0) by (unfold wget; by rewrite (br_list _ _ Rx)).
    destruct (each_reason_run fuel code params ends (by_reason A) s0 (br_in _ _ Rx)) as (s1 & cs & R1 & M1 & C1).
    rewrite (wbind_run _ _ _ _ _ R1). pose proof (made_brep _ _ _ _ M1 Rx) as B1.
    rewrite (wbind_run _ _ s1 (plain A).*1 s1) by (unfold wget; by rewrite (b_list _ _ B1)).
    destruct (each_plain_run (plain A) s1 (b_in _ _ B1)) as (s2 & R2 & M2 & D2). rewrite (wbind_run _ _ _ _ _ R2).
    pose proof (made_trans _ _ _ _ _ M1 M2) as M. pose proof (made_brep _ _ _ _ M Rx) as B2.
    assert (locked t (spin s2)) as L2 by (destruct M as (_ & -> & _); exact Lx).
    destruct (unlock_run t irql s2 (mret tt) L2 Hi) as (x' & Ex & Q').
    exists (set_spin x' s2), cs, (drv s1).
    split; [| split; [exact C1 | split; [apply M | split; [exact D2 | split; [by apply brep_spin | exact Q']]]]].
    revert Ex. unfold mbind, W_bind, mret, W_ret.
    destruct (on_spin (KeReleaseSpinLockFromDpcLevel t Lock) s2) as [[[? s3] |] |]; [| done | done].
    destruct (on_spin (KeLowerIrql t irql) s3) as [[[[] s4] |] |]; done. }
  exists s', cs, d. split_and!; try done. unfold KeBugCheckEx. by rewrite (wbind_run _ _ _ _ _ E).
Qed.

End spec.

(** ** Examples *)

#[local] Existing Instances mode_api mode_laws.

(** A driver that counts the calls for pages, and asks twice for more. *)
Definition model_callbacks : BUGCHECK_CALLBACKS := {|
  driver := nat;
  reason_routine := fun _ _ _ _ d => (if (d <? 2)%nat then KB_ADD_PAGES_FLAG_ADDITIONAL_RANGES_EXIST else 0, S d);
  triage_routine := fun _ _ _ _ d => d;
  plain_routine := fun _ _ _ d => d
|}.

#[local] Existing Instance model_callbacks.

Definition new_record : KBUGCHECK_CALLBACK_RECORD := mkRecord 0 0 0 0 0 BufferEmpty.
Definition new_reason : KBUGCHECK_REASON_CALLBACK_RECORD := mkReason 0 0 0 0 BufferEmpty.

Definition booted : bstate :=
  mkB (mkState ∅ ∅ ∅ ∅ 1 ∅ ∅) {[100 := new_record; 200 := new_record]} {[300 := new_reason]} [] [] [] 0%nat.

Definition some_ops : list op :=
  [Register 100 0x11 5 6 0x99; Register 200 0x22 7 8 0x99; RegisterReason 300 0x33 KbCallbackAddPages 0x99;
   Register 100 0x11 5 6 0x99; Deregister 100; Deregister 0].

Lemma brep_booted : brep booted (mkRegistered [] []).
Proof.
  split; simpl; try done; try constructor.
  - intros p f b n Hp. by apply elem_of_nil in Hp.
  - intros p r Hr _. unfold booted in Hr. simpl in Hr.
    apply lookup_insert_Some in Hr as [[_ <-] | [_ Hr]]; [done |]. by apply lookup_singleton_Some in Hr as [_ <-].
  - intros p f w Hp. by apply elem_of_nil in Hp.
  - intros p r Hr _. by apply lookup_singleton_Some in Hr as [_ <-].
Qed.

Lemma registration_refinement_witness :
  exists s', ops_exec 7 some_ops booted = Ok (Some ([true; true; true; false; true; false], s')) /\
    brep s' (mkRegistered [(200, (0x22, 7, 8))] [(300, (0x33, KbCallbackAddPages))]) /\
    quiet 7 0 (spin s') /\ calls s' = [].
Proof.
  apply (registration_refinement 7 0 some_ops booted (mkRegistered [] []) brep_booted); [done | done |].
  repeat (apply Forall_cons; split; [intros N; first [by destruct N | eexists; reflexivity] |]). by apply Forall_nil.
Defined.

Definition after_ops : bstate :=
  match ops_exec 7 some_ops booted with Ok (Some (_, s)) => s | _ => booted end.

Lemma brep_after :
  brep after_ops (mkRegistered [(200, (0x22, 7, 8))] [(300, (0x33, KbCallbackAddPages))]) /\ quiet 7 0 (spin after_ops).
Proof.
  destruct (ops_run 7 0 some_ops booted (mkRegistered [] []) brep_booted) as (s' & E & R & Q & _); [done | done | |].
  { repeat (apply Forall_cons; split; [intros N; first [by destruct N | eexists; reflexivity] |]). by apply Forall_nil. }
  assert (after_ops = s') as -> by (unfold after_ops; by rewrite E). split; [exact R | exact Q].
Qed.

Lemma rounds_end f w p d : is_Some (rounds 3 f w p 0x44 d).
Proof. simpl. destruct d as [|[|d]]; simpl; eauto. Qed.

(** The routine for pages is called three times. *)
Lemma demo_pages params cs d :
  all_reason_calls 0x44 params [(300, (0x33, KbCallbackAddPages))] 0%nat cs d ->
  pages_calls 0x33 KbCallbackAddPages 300 0x44 0%nat cs 3%nat /\ length cs = 3%nat.
Proof.
  assert (forall n cs d, pages_calls 0x33 KbCallbackAddPages 300 0x44 n cs d -> (n <= 2)%nat ->
    length cs = (3 - n)%nat /\ d = 3%nat) as Count.
  { intros n cs' d' Hc. induction Hc as [n flags d1 E Z0 | n flags d1 cs1 d2 E N0 _ IH];
      intros Hn; injection E as <- <-; (destruct n as [| [| [| n]]]; [.. | lia]); try done;
      (destruct IH as [L ->]; [lia |]); simpl; by rewrite L. }
  intros Ca. inversion Ca as [| ? ? ? cs1 d1 cs' ? C1 C2]; subst. inversion C2; subst. rewrite app_nil_r.
  destruct (Count 0%nat cs1 d C1) as [L1 ->]; [lia |]. by split.
Qed.

Lemma BugCheckCallbacks_spec_witness :
  exists s' cs, BugCheckCallbacks 3 7 0x44 (1, 2, 3, 4) after_ops = Ok (Some (tt, s')) /\
    pages_calls 0x33 KbCallbackAddPages 300 0x44 0%nat cs 3%nat /\ length cs = 3%nat /\
    calls s' = cs ++ [PlainCall 0x22 7 8] /\
    KeBugCheckEx 3 7 0x44 (1, 2, 3, 4) after_ops = Err (DdkFailed "MULTIPLE_IRP_COMPLETE_REQUESTS").
Proof.
  destruct (BugCheckCallbacks_spec 3 7 0 0x44 (1, 2, 3, 4) after_ops
    (mkRegistered [(200, (0x22, 7, 8))] [(300, (0x33, KbCallbackAddPages))])) as (s' & cs & d & E & Ca & C & D & _ & _ & F).
  - apply rounds_end.
  - apply brep_after.
  - apply brep_after.
  - done.
  - assert (drv after_ops = 0%nat) as E0 by (vm_compute; reflexivity).
    assert (calls after_ops = []) as E1 by (vm_compute; reflexivity).
    rewrite E0 in Ca. destruct (demo_pages _ _ _ Ca) as [P L]. rewrite E1 in C.
    exists s', cs. split; [exact E |]. split; [exact P |]. split; [exact L |]. split; [exact C | exact F].
Defined.
