(* ===== verification/Memory.v ===== *)
(** * Memory: the driver's memory, byte by byte

    The memory that the registry calls write into: a byte for each address that the
    driver has.  A number is stored low byte first.  A read or write of a byte that is
    not there is [BadAccess]. *)

From S2P Require Import Prelude.

Abbreviation mem := (gmap Z Z).

Fixpoint load (n : nat) (a : Z) (m : mem) : result (list Z) :=
  match n with
  | O => Ok []
  | S n =>
      match m !! a with
      | Some b => bs ← load n (a + 1) m; Ok (b :: bs)
      | None => Err (BadAccess a)
      end
  end.

Fixpoint store (a : Z) (bs : list Z) (m : mem) : result mem :=
  match bs with
  | [] => Ok m
  | b :: bs =>
      match m !! a with
      | Some _ => store (a + 1) bs (<[a := b]> m)
      | None => Err (BadAccess a)
      end
  end.

(** New memory at [a]. *)
Fixpoint fill (a : Z) (bs : list Z) (m : mem) : mem :=
  match bs with
  | [] => m
  | b :: bs => <[a := b]> (fill (a + 1) bs m)
  end.

Fixpoint le_split (n : nat) (z : Z) : list Z :=
  match n with
  | O => []
  | S n => z mod 256 :: le_split n (z / 256)
  end.

Fixpoint le_combine (bs : list Z) : Z :=
  match bs with
  | [] => 0
  | b :: bs => b + 256 * le_combine bs
  end.

(** The first [n] bytes of [bs], for [memcpy]; [n] is a [size_t]. *)
Definition bytes_of (bs : list Z) (n : Z) : result (list Z) :=
  if (0 <=? n) && (n <=? Z.of_nat (length bs)) then Ok (take (Z.to_nat n) bs) else Err (BadAccess n).

(** [memcpy(b + off, d, length d)] *)
Definition overlay (b : list Z) (off : Z) (d : list Z) : result (list Z) :=
  if (0 <=? off) && (off + Z.of_nat (length d) <=? Z.of_nat (length b)) then
    Ok (take (Z.to_nat off) b ++ d ++ drop (Z.to_nat off + length d) b)
  else Err (BadAccess off).

Definition in_range (a n x : Z) : Prop := a <= x < a + n.

(** Every byte of the range is there. *)
Definition mapped (m : mem) (a n : Z) : Prop := forall x, in_range a n x -> is_Some (m !! x).

(** Only bytes of the range have changed. *)
Definition only (a n : Z) (m m' : mem) : Prop := forall x, ~ in_range a n x -> m' !! x = m !! x.

(** ** Loads and stores *)

Lemma load_app n k a m : load (n + k) a m = (x ← load n a m; y ← load k (a + Z.of_nat n) m; Ok (x ++ y)).
Proof.
  revert a. induction n as [|n IH]; intros a.
  - simpl. rewrite Z.add_0_r. by destruct (load k a m).
  - cbn [load Nat.add]. destruct (m !! a) as [b |]; [| done]. rewrite IH.
    replace (a + Z.of_nat (S n)) with (a + 1 + Z.of_nat n) by lia.
    destruct (load n (a + 1) m); [| done]. simpl. by destruct (load k (a + 1 + Z.of_nat n) m).
Qed.

Lemma load_length n a m bs : load n a m = Ok bs -> length bs = n.
Proof.
  revert a bs. induction n as [|n IH]; intros a bs; cbn [load]; [by intros [= <-] |].
  destruct (m !! a); [| done]. destruct (load n (a + 1) m) as [l |] eqn:E; [| done]. simpl. intros [= <-].
  simpl. f_equal. by apply (IH (a + 1)).
Qed.

Lemma store_run bs a m : mapped m a (Z.of_nat (length bs)) ->
  exists m', store a bs m = Ok m' /\ load (length bs) a m' = Ok bs /\
    only a (Z.of_nat (length bs)) m m' /\ dom m' = dom m.
Proof.
  revert a m. induction bs as [|b bs IH]; intros a m Hm.
  - exists m. split; [done |]. split; [done |]. split; [| done]. by intros x _.
  - cbn [store length] in *. destruct (Hm a) as [c Hc]; [split; lia |]. rewrite Hc.
    destruct (IH (a + 1) (<[a := b]> m)) as (m' & -> & L & O & D).
    { intros x Hx. apply lookup_insert_is_Some. destruct (decide (a = x)); [by left | right]. split; [done |].
      apply Hm. unfold in_range in *. lia. }
    exists m'. split; [done |]. cbn [load].
    assert (m' !! a = Some b) as ->.
    { rewrite (O a) by (unfold in_range; lia). apply lookup_insert_eq. }
    rewrite L. split; [done |]. split.
    + intros x Hx. rewrite (O x) by (unfold in_range in *; lia).
      rewrite lookup_insert_ne; [done |]. unfold in_range in *. lia.
    + rewrite D. apply dom_insert_lookup_L. by eexists.
Qed.

Lemma mapped_dom m m' a n : dom m' = dom m -> mapped m a n -> mapped m' a n.
Proof. intros D Hm x Hx. apply elem_of_dom. rewrite D. by apply elem_of_dom, Hm. Qed.

Lemma load_mapped n a m : mapped m a (Z.of_nat n) -> exists bs, load n a m = Ok bs.
Proof.
  revert a. induction n as [|n IH]; intros a Hm; [by exists [] |]. cbn [load].
  destruct (Hm a) as [b ->]; [split; lia |].
  destruct (IH (a + 1)) as [bs ->]; [| by eexists]. intros x Hx. apply Hm. unfold in_range in *. lia.
Qed.

Lemma load_only n a m m' b k : only b k m m' -> (a + Z.of_nat n <= b \/ b + k <= a) -> load n a m' = load n a m.
Proof.
  revert a. induction n as [|n IH]; intros a O D; [done |]. cbn [load].
  rewrite (O a) by (unfold in_range; lia). rewrite IH by (auto; lia). done.
Qed.

Lemma only_refl a n m : only a n m m.
Proof. by intros x. Qed.

Lemma only_trans a n m m1 m2 : only a n m m1 -> only a n m1 m2 -> only a n m m2.
Proof. intros O1 O2 x Hx. by rewrite O2, O1. Qed.

Lemma only_weaken a n b k m m' : only b k m m' -> a <= b -> b + k <= a + n -> only a n m m'.
Proof. intros O L R x Hx. apply O. unfold in_range in *. lia. Qed.

(** ** Numbers *)

Lemma le_split_length n z : length (le_split n z) = n.
Proof. revert z. induction n as [|n IH]; intros z; simpl; [done | by rewrite IH]. Qed.

Lemma le_combine_split n z : le_combine (le_split n z) = z mod 256 ^ Z.of_nat n.
Proof.
  revert z. induction n as [|n IH]; intros z.
  - simpl. by rewrite Z.mod_1_r.
  - cbn [le_split le_combine]. rewrite IH.
    replace (Z.of_nat (S n)) with (Z.of_nat n + 1) by lia. rewrite Z.pow_add_r, Z.pow_1_r by lia.
    rewrite (Z.mul_comm (256 ^ Z.of_nat n)), Z.rem_mul_r by (try apply Z.pow_nonzero; lia). done.
Qed.

Lemma overlay_run b off d : 0 <= off -> off + Z.of_nat (length d) <= Z.of_nat (length b) ->
  overlay b off d = Ok (take (Z.to_nat off) b ++ d ++ drop (Z.to_nat off + length d) b).
Proof. intros. unfold overlay. by replace ((0 <=? off) && (off + Z.of_nat (length d) <=? Z.of_nat (length b))) with true by lia. Qed.

Lemma bytes_of_run bs n : 0 <= n <= Z.of_nat (length bs) -> bytes_of bs n = Ok (take (Z.to_nat n) bs).
Proof. intros. unfold bytes_of. by replace ((0 <=? n) && (n <=? Z.of_nat (length bs))) with true by lia. Qed.

Lemma fill_lookup bs a m x :
  fill a bs m !! x = if decide (in_range a (Z.of_nat (length bs)) x) then bs !! Z.to_nat (x - a) else m !! x.
Proof.
  revert a. induction bs as [|b bs IH]; intros a.
  - cbn [fill length]. rewrite decide_False; [done |]. unfold in_range. lia.
  - cbn [fill length]. destruct (decide (a = x)) as [-> | N].
    + rewrite lookup_insert_eq, decide_True by (unfold in_range; lia). by rewrite Z.sub_diag.
    + rewrite lookup_insert_ne by done. rewrite IH.
      destruct (decide (in_range (a + 1) (Z.of_nat (length bs)) x)) as [I | I]; unfold in_range in *.
      * rewrite decide_True by lia. by replace (Z.to_nat (x - a)) with (S (Z.to_nat (x - (a + 1)))) by lia.
      * rewrite decide_False by lia. done.
Qed.
