(* ===== verification/Registry.v ===== *)
(** * Registry: registry keys (registry.cpp)

    Keys are opened below the hive that stands for the kernel's registry.  The hive,
    the handles to keys and the values are the system's: the class [WINREG], with a state
    of its own.  A handle to a key object is one of Objects; the objects close
    their key when they are freed, and [on_kernel] hands that on to the system.  To use
    a key that is not open is the fault [BadAccess]. *)

From S2P Require Import Prelude Strings Objects Memory.

Definition ERROR_SUCCESS : Z := 0.
Definition ERROR_FILE_NOT_FOUND : Z := 2.
Definition ERROR_ACCESS_DENIED : Z := 5.
Definition ERROR_INVALID_HANDLE : Z := 6.
Definition ERROR_NOT_ENOUGH_MEMORY : Z := 8.
Definition ERROR_MORE_DATA : Z := 234.
Definition ERROR_NO_MORE_ITEMS : Z := 259.

Definition STATUS_NO_MORE_ENTRIES : Z := 0x8000001A.
Definition STATUS_UNSUCCESSFUL : Z := 0xC0000001.
Definition STATUS_ACCESS_DENIED : Z := 0xC0000022.

Definition RTL_REGISTRY_ABSOLUTE : Z := 0.
Definition RTL_REGISTRY_SERVICES : Z := 1.
Definition RTL_REGISTRY_CONTROL : Z := 2.
Definition RTL_REGISTRY_WINDOWS_NT : Z := 3.
Definition RTL_REGISTRY_DEVICEMAP : Z := 4.
Definition RTL_REGISTRY_USER : Z := 5.
Definition RTL_REGISTRY_HANDLE : Z := 0x40000000.
Definition RTL_REGISTRY_OPTIONAL : Z := 0x80000000.

Definition REG_NONE : Z := 0.
Definition REG_SZ : Z := 1.
Definition REG_EXPAND_SZ : Z := 2.
Definition REG_BINARY : Z := 3.
Definition REG_DWORD : Z := 4.
Definition REG_DWORD_BIG_ENDIAN : Z := 5.
Definition REG_MULTI_SZ : Z := 7.
Definition REG_QWORD : Z := 11.

(** [NT_SUCCESS] of an [NTSTATUS] kept as an unsigned number. *)
Definition NT_SUCCESS (status : Z) : bool := status <? 2 ^ 31.

Definition has (flags f : Z) : bool := negb (Z.land flags f =? 0).

(** A wide string: its characters, without the NUL. *)
Abbreviation wstring := (list Z).

(** [L"..."] *)
Definition L (s : string) : wstring := map (fun c => Z.of_N (Ascii.N_of_ascii c)) (String.list_ascii_of_string s).

Definition backslash : Z := 92.

(** The string at a pointer, up to its NUL. *)
Fixpoint wcs (m : list Z) : result wstring :=
  match m with
  | lo :: hi :: m => if (lo =? 0) && (hi =? 0) then Ok [] else s ← wcs m; Ok (lo + 256 * hi :: s)
  | _ => Err (BadAccess 0)
  end.

(** A call of a driver's query routine: [ValueData] is the memory from that pointer to
    the end of its buffer, [ValueLength] the length it is told. *)
Record query_call := mkCall {
  ValueName : option wstring;
  ValueType : Z;
  ValueData : list Z;
  ValueLength : Z;
  Context_ : Z;
  CallContext : Z
}.

(** The registry functions of Win32.  The results come first, an [LSTATUS] before all;
    a value's data is what is written to the buffer, followed by the size returned.  A
    buffer's size is [None] for no buffer.  [open_keys] are the handles that are open. *)
Class WINREG := {
  world : Type;
  open_keys : world -> gset Z;
  RegLoadAppKeyA : world -> Z * world;
  RegOpenKeyW : Z -> wstring -> world -> Z * Z * world;
  RegCreateKeyW : Z -> wstring -> world -> Z * Z * world;
  RegCreateKeyExW : Z -> wstring -> world -> Z * Z * Z * world;
  RegCloseKey : Z -> world -> world;
  RegSetValueExW : Z -> option wstring -> Z -> list Z -> world -> Z * world;
  RegQueryValueExW : Z -> option wstring -> option Z -> world -> Z * Z * list Z * Z;
  RegEnumValueW : Z -> Z -> Z -> option Z -> world -> Z * wstring * Z * list Z * Z;
  RegEnumKeyExW : Z -> Z -> Z -> Z -> world -> Z * wstring * wstring * Z;
  RegQueryInfoKeyW : Z -> world -> Z * (Z * Z * Z * Z * Z * Z);
  RegDeleteKeyW : Z -> wstring -> world -> Z * world;
  RegDeleteValueW : Z -> option wstring -> world -> Z * world;
  RegDeleteKeyValueW : Z -> wstring -> option wstring -> world -> Z * world;
  RegFlushKey : Z -> world -> Z * world
}.

(** What the query routines of drivers do to the drivers' own state. *)
Class QUERY_ROUTINES := {
  driver : Type;
  routine : Z -> query_call -> driver -> Z * driver
}.

Section registry.
Context `{Environment} `{WINREG} `{QUERY_ROUTINES}.

(** [bufs]: how many buffers of the C heap these functions have allocated and not
    freed.  [SystemThread]: whether the thread belongs to the system process. *)
Record rstate := mkR {
  kern : kernel;
  win : world;
  memory : mem;
  bufs : Z;
  SystemThread : bool;
  query_calls : list query_call;
  drv : driver
}.

Definition R := M rstate.

Definition set_kern k s := mkR k (win s) (memory s) (bufs s) (SystemThread s) (query_calls s) (drv s).
Definition set_win w s := mkR (kern s) w (memory s) (bufs s) (SystemThread s) (query_calls s) (drv s).
Definition set_memory m s := mkR (kern s) (win s) m (bufs s) (SystemThread s) (query_calls s) (drv s).
Definition set_bufs f s := mkR (kern s) (win s) (memory s) (f (bufs s)) (SystemThread s) (query_calls s) (drv s).
Definition called c d s := mkR (kern s) (win s) (memory s) (bufs s) (SystemThread s) (query_calls s ++ [c]) d.

Definition gets {A} (f : rstate -> A) : R A := fun s => Ok (f s, s).

(** ** The system's functions *)

Definition key_open (k : Z) : R unit :=
  w ← gets win;
  if decide (k ∈ open_keys w) then mret tt else fail (BadAccess k).

(** A function that reads a key, and one that changes the system's state. *)
Definition on_key {A} (k : Z) (f : world -> A) : R A := _ ← key_open k; gets (fun s => f (win s)).

Definition reg_change (k : Z) (f : world -> Z * world) : R Z :=
  _ ← key_open k;
  w ← gets win;
  let '(rc, w) := f w in
  _ ← modify (set_win w);
  mret rc.

Definition close_key (k : Z) : R unit :=
  _ ← key_open k; modify (fun s => set_win (RegCloseKey k (win s)) s).

(** [RegCreateKeyW] or [RegOpenKeyW]; a call that fails leaves its result alone. *)
Definition open_key (create : bool) (base : Z) (path : wstring) : R (Z * Z) :=
  _ ← key_open base;
  w ← gets win;
  let '(rc, k, w) := (if create then RegCreateKeyW else RegOpenKeyW) base path w in
  _ ← modify (set_win w);
  mret (rc, k).

Definition call_routine (f : Z) (c : query_call) : R Z :=
  d ← gets drv;
  let '(status, d) := routine f c d in
  _ ← modify (called c d);
  mret status.

(** The keys closed by what happens to objects. *)
Fixpoint close_logged (es : list event) : R unit :=
  match es with
  | [] => mret tt
  | Objects.RegCloseKey k :: es => _ ← close_key k; close_logged es
  | _ :: es => close_logged es
  end.

(** A call of object.cpp: the events it adds are the first of its list. *)
Definition on_kernel {A} (m : K A) : R A := fun s =>
  match m (kern s) with
  | Ok (a, k) =>
      let fresh := take (length (events k) - length (events (kern s))) (events k) in
      (_ ← close_logged (rev fresh); mret a) (set_kern k s)
  | Err f => Err f
  end.

(** [pKey->Key] *)
Definition key_of (p : Z) : R Z :=
  o ← on_kernel (object_at p);
  match contents o with Key k => mret k | _ => fail (BadAccess p) end.

(** [malloc] or [realloc] of a new buffer, and [free]. *)
Definition new_buf : R unit := modify (set_bufs (fun n => n + 1)).
Definition free_buf : R unit := modify (set_bufs (fun n => n - 1)).

Definition DdkGetRegistryStatus (rc : Z) : Z :=
  if rc =? ERROR_SUCCESS then STATUS_SUCCESS
  else if rc =? ERROR_ACCESS_DENIED then STATUS_ACCESS_DENIED
  else if rc =? ERROR_NOT_ENOUGH_MEMORY then STATUS_INSUFFICIENT_RESOURCES
  else if rc =? ERROR_INVALID_HANDLE then STATUS_INVALID_HANDLE
  else if rc =? ERROR_FILE_NOT_FOUND then STATUS_OBJECT_NAME_NOT_FOUND
  else if rc =? ERROR_MORE_DATA then STATUS_BUFFER_TOO_SMALL
  else if rc =? ERROR_NO_MORE_ITEMS then STATUS_NO_MORE_ENTRIES
  else STATUS_UNSUCCESSFUL.

(** ** Keys *)

Definition DdkGetRelativePath (RelativeTo : Z) : R wstring :=
  system ← gets SystemThread;
  let r := Z.land RelativeTo (u32 (Z.lnot RTL_REGISTRY_OPTIONAL)) in
  if r =? RTL_REGISTRY_ABSOLUTE then mret (L "")
  else if r =? RTL_REGISTRY_CONTROL then mret (L "\Registry\Machine\System\CurrentControlSet\Control")
  else if r =? RTL_REGISTRY_DEVICEMAP then mret (L "\Registry\Machine\Hardware\DeviceMap")
  else if r =? RTL_REGISTRY_SERVICES then mret (L "\Registry\Machine\System\CurrentControlSet\Services")
  else if r =? RTL_REGISTRY_USER then
    mret (if (system : bool) then L "\Registry\User\CurrentUser" else L "\Registry\User\.Default")
  else if r =? RTL_REGISTRY_WINDOWS_NT then mret (L "\Registry\Machine\Software\Microsoft\Windows NT\CurrentVersion")
  else fail (DdkFailed "Unknown RTL_REGISTRY value").

(** The parameter [Path]: a string, or a handle in its place. *)
Inductive where_ := AtPath (s : wstring) | AtHandle (h : Z).

(** [while ( *s == '\\') s++] *)
Fixpoint skip_slashes (s : wstring) : wstring :=
  match s with
  | c :: s' => if c =? backslash then skip_slashes s' else s
  | [] => []
  end.

Definition is_empty (s : wstring) : bool := match s with [] => true | _ => false end.

(** The part of [DdkGetRegistryKey] for a handle. *)
Definition key_of_handle (Path : where_) (create : bool) : R (Z * Z) :=
  if create then mret (STATUS_INVALID_PARAMETER, 0) else
  match Path with
  | AtPath _ => fail (BadAccess 0)
  | AtHandle h =>
      p ← on_kernel (FromHandle h);
      if p =? 0 then mret (STATUS_INVALID_HANDLE, 0) else
      k ← key_of p;
      if k =? 0 then mret (STATUS_INVALID_HANDLE, 0) else mret (STATUS_SUCCESS, k)
  end.

(** Returns the status and [*pHkey]. *)
Definition DdkGetRegistryKey (RelativeTo : Z) (Path : where_) (create : bool) : R (Z * Z) :=
  if has RelativeTo RTL_REGISTRY_HANDLE then key_of_handle Path create else
  rel ← DdkGetRelativePath RelativeTo;
  let rel := skip_slashes rel in
  match Path with
  | AtHandle _ => fail (BadAccess 0)
  | AtPath s =>
      let s := skip_slashes s in
      '(rc, base) ← (if is_empty rel then mret (ERROR_SUCCESS, hive) else open_key create hive rel);
      if negb (rc =? ERROR_SUCCESS) then mret (DdkGetRegistryStatus rc, 0) else
      '(status, key) ← (if is_empty s then mret (STATUS_SUCCESS, base) else
        '(rc, key) ← open_key create base s;
        mret (if negb (rc =? ERROR_SUCCESS) then (DdkGetRegistryStatus rc, 0) else (STATUS_SUCCESS, key)));
      _ ← (if negb (base =? key) && negb (base =? hive) then close_key base else mret tt);
      mret (status, key)
  end.

(** [if (key && key != hive) RegCloseKey(key)] *)
Definition close_unless_hive (key : Z) : R unit :=
  if negb (key =? 0) && negb (key =? hive) then close_key key else mret tt.

(** [if ((RelativeTo & RTL_REGISTRY_HANDLE) == 0) if (key != hive) RegCloseKey(key)] *)
Definition close_opened (RelativeTo key : Z) : R unit :=
  if has RelativeTo RTL_REGISTRY_HANDLE then mret tt
  else if negb (key =? hive) then close_key key else mret tt.

Definition DdkCreateRegistryKey (RelativeTo : Z) (Path : where_) : R unit :=
  '(_, key) ← DdkGetRegistryKey RelativeTo Path true;
  close_unless_hive key.

Definition DdkDeleteRegistryKey (RelativeTo : Z) (Path : where_) : R unit :=
  '(_, key) ← DdkGetRegistryKey RelativeTo Path false;
  _ ← (if key =? 0 then mret 0 else reg_change key (RegDeleteKeyW key []));
  if has RelativeTo RTL_REGISTRY_HANDLE then mret tt else close_unless_hive key.

(** [wcsrchr(s, L'\\')]: the string before the last backslash, or none. *)
Fixpoint before_last (s : wstring) : option wstring :=
  match s with
  | [] => None
  | c :: s' =>
      match before_last s' with
      | Some t => Some (c :: t)
      | None => if c =? backslash then Some [] else None
      end
  end.

(** [dup]: whether [_wcsdup] has memory for the copy. *)
Definition DdkCheckKeyExists (dup : bool) (RelativeTo : Z) (Path : where_) (parent : bool) : R bool :=
  if has RelativeTo RTL_REGISTRY_HANDLE then mret true else
  match Path with
  | AtHandle _ => fail (BadAccess 0)
  | AtPath s =>
      if parent && negb dup then mret false else
      _ ← (if parent then new_buf else mret tt);
      let s := if parent then default [] (before_last s) else s in
      '(_, key) ← DdkGetRegistryKey RelativeTo (AtPath s) false;
      _ ← close_unless_hive key;
      _ ← (if parent then free_buf else mret tt);
      mret (negb (key =? 0))
  end.

Definition RtlCreateRegistryKey (dup : bool) (RelativeTo : Z) (Path : where_) : R Z :=
  ok ← DdkCheckKeyExists dup RelativeTo Path true;
  if negb (ok : bool) then mret STATUS_OBJECT_NAME_NOT_FOUND else
  '(status, key) ← DdkGetRegistryKey RelativeTo Path true;
  if negb (NT_SUCCESS status) then mret status else
  _ ← (if negb (key =? hive) then close_key key else mret tt);
  mret STATUS_SUCCESS.

Definition RtlCheckRegistryKey (dup : bool) (RelativeTo : Z) (Path : where_) : R Z :=
  ok ← DdkCheckKeyExists dup RelativeTo Path false;
  mret (if ok : bool then STATUS_SUCCESS else STATUS_OBJECT_NAME_NOT_FOUND).

(** [ValueData] is the memory at the pointer. *)
Definition RtlWriteRegistryValue (RelativeTo : Z) (Path : where_) (ValueName : option wstring)
    (ValueType : Z) (ValueData : list Z) (ValueLength : Z) : R Z :=
  '(status, key) ← DdkGetRegistryKey RelativeTo Path false;
  if negb (NT_SUCCESS status) then mret status else
  d ← lift (bytes_of ValueData ValueLength);
  rc ← reg_change key (RegSetValueExW key ValueName ValueType d);
  _ ← close_opened RelativeTo key;
  mret (DdkGetRegistryStatus rc).

Definition RtlDeleteRegistryValue (RelativeTo : Z) (Path : where_) (ValueName : option wstring) : R Z :=
  '(status, key) ← DdkGetRegistryKey RelativeTo Path false;
  if negb (NT_SUCCESS status) then
    mret (if status =? STATUS_OBJECT_NAME_NOT_FOUND then STATUS_SUCCESS else status) else
  rc ← reg_change key (RegDeleteValueW key ValueName);
  _ ← close_opened RelativeTo key;
  mret (DdkGetRegistryStatus rc).

(** [L"..."] with its NUL, as bytes, and a [DWORD] *)
Definition L0 (s : string) : list Z := encode (L s ++ [0]).

Definition DdkRegistryInit : R unit :=
  w ← gets win;
  let '(rc, w) := RegLoadAppKeyA w in
  _ ← modify (set_win w);
  if negb (rc =? ERROR_SUCCESS) then fail (DdkFailed "Unable to create registry hive") else
  _ ← DdkCreateRegistryKey RTL_REGISTRY_CONTROL (AtPath (L ""));
  _ ← DdkCreateRegistryKey RTL_REGISTRY_DEVICEMAP (AtPath (L ""));
  _ ← DdkCreateRegistryKey RTL_REGISTRY_SERVICES (AtPath (L ""));
  _ ← DdkCreateRegistryKey RTL_REGISTRY_SERVICES (AtPath (L "Disk"));
  _ ← DdkCreateRegistryKey RTL_REGISTRY_SERVICES (AtPath (L "Tcpip\Parameters"));
  _ ← RtlWriteRegistryValue RTL_REGISTRY_SERVICES (AtPath (L "Tcpip\Parameters"))
        (Some (L "Hostname")) REG_SZ (L0 "UnitTest") (2 * 9);
  _ ← DdkCreateRegistryKey RTL_REGISTRY_WINDOWS_NT (AtPath (L ""));
  _ ← DdkCreateRegistryKey RTL_REGISTRY_ABSOLUTE (AtPath (L "\Registry\User\.Default"));
  _ ← DdkCreateRegistryKey RTL_REGISTRY_ABSOLUTE (AtPath (L "\Registry\User\CurrentUser"));
  _ ← DdkCreateRegistryKey RTL_REGISTRY_ABSOLUTE
        (AtPath (L "\Registry\Machine\System\CurrentControlSet\Control\ComputerName"));
  _ ← RtlWriteRegistryValue RTL_REGISTRY_ABSOLUTE
        (AtPath (L "\Registry\Machine\System\CurrentControlSet\Control\ComputerName"))
        (Some (L "ComputerName")) REG_SZ (L0 "UnitTest") (2 * 9);
  _ ← RtlWriteRegistryValue RTL_REGISTRY_WINDOWS_NT (AtPath (L "")) (Some (L "SystemRoot"))
        REG_SZ (L0 "C:\Windows") (2 * 11);
  _ ← RtlWriteRegistryValue RTL_REGISTRY_WINDOWS_NT (AtPath (L ""))
        (Some (L "CurrentMajorVersionNumber")) REG_DWORD (le_split 4 10) 4;
  _ ← RtlWriteRegistryValue RTL_REGISTRY_WINDOWS_NT (AtPath (L ""))
        (Some (L "CurrentMinorVersionNumber")) REG_DWORD (le_split 4 0) 4;
  mret tt.

Definition DdkRegistryDeinit : R unit :=
  if negb (hive =? 0) then close_key hive else mret tt.

End registry.
