(* ===== verification/RegistryQuery.v ===== *)
(** * RegistryQuery: query tables (RtlQueryRegistryValues in registry.cpp)

    A table asks for values by name, for all values of a key, or for those of a subkey,
    and has each given to a routine of the driver or stored in the driver's memory.
    [realloc] is the contents of a new buffer of a size, [pool] the address and contents
    of new pool memory, [None] for failure.  The [Environment] of a query can only be
    null or not: there is nothing that expands strings. *)

From S2P Require Import Prelude Strings Objects Memory Registry.

Definition PAGE_SIZE : Z := 4096.

Definition RTL_QUERY_REGISTRY_SUBKEY : Z := 0x1.
Definition RTL_QUERY_REGISTRY_TOPKEY : Z := 0x2.
Definition RTL_QUERY_REGISTRY_REQUIRED : Z := 0x4.
Definition RTL_QUERY_REGISTRY_NOVALUE : Z := 0x8.
Definition RTL_QUERY_REGISTRY_NOEXPAND : Z := 0x10.
Definition RTL_QUERY_REGISTRY_DIRECT : Z := 0x20.
Definition RTL_QUERY_REGISTRY_DELETE : Z := 0x40.
Definition RTL_QUERY_REGISTRY_TYPECHECK : Z := 0x100.
Definition RTL_QUERY_REGISTRY_TYPECHECK_SHIFT : Z := 24.

(** [QueryRoutine] is 0 for none, [DefaultData] the memory at that pointer. *)
Record RTL_QUERY_REGISTRY_TABLE := mkQuery {
  QueryRoutine : Z;
  Flags : Z;
  QueryName : option wstring;
  EntryContext : Z;
  DefaultType : Z;
  DefaultData : list Z;
  DefaultLength : Z
}.

Definition with_name (qp : RTL_QUERY_REGISTRY_TABLE) (n : wstring) : RTL_QUERY_REGISTRY_TABLE :=
  mkQuery (QueryRoutine qp) (Flags qp) (Some n) (EntryContext qp) (DefaultType qp) (DefaultData qp)
    (DefaultLength qp).

(** [sizeof(WCHAR) * 3] *)
Definition nullbytes : Z := 6.

(** The first round covers what fits in a page, the second what does not; a third is
    needed for a value between a page and the bytes for its end. *)
Definition read_fuel : nat := 3.

Section query.
Context `{Environment} `{WINREG} `{QUERY_ROUTINES}.
Context (realloc : Z -> option (list Z)) (pool : mem -> Z -> option (Z * list Z)).

(** [while (dp[i++] != L'\0')]: the new [i]. *)
Fixpoint skip_string (fuel : nat) (dp : list Z) (i : Z) : result Z :=
  match fuel with
  | O => Err NoFuel
  | S fuel => c ← wchar_at dp i; if c =? 0 then Ok (i + 1) else skip_string fuel dp (i + 1)
  end.

(** Every character takes two bytes, so this many are more than there are. *)
Definition fuel_of (dp : list Z) : nat := S (length dp).

Definition DdkExpandString (Environment_ : bool) : R unit :=
  if Environment_ then fail (DdkFailed "Unable to expand registry values") else mret tt.

(** ** Values for a routine *)

Definition query_call_of (qp : RTL_QUERY_REGISTRY_TABLE) (t : Z) (data : list Z) (bytes Context_ : Z) : query_call :=
  mkCall (QueryName qp) t data bytes Context_ (EntryContext qp).

Fixpoint strings_loop (fuel : nat) (qp : RTL_QUERY_REGISTRY_TABLE) (t : Z) (data : list Z)
    (Context_ : Z) (Environment_ : bool) (i status : Z) : R Z :=
  match fuel with
  | O => fail NoFuel
  | S fuel =>
      let base := i in
      i ← lift (skip_string (fuel_of data) data i);
      if i =? base + 1 then mret status else
      let len := u32 ((i - base - 1) * 2) in
      _ ← (if t =? REG_EXPAND_SZ then DdkExpandString Environment_ else mret tt);
      status ← call_routine (QueryRoutine qp)
        (query_call_of qp REG_SZ (drop (Z.to_nat (2 * base)) data) len Context_);
      if NT_SUCCESS status && (t =? REG_MULTI_SZ)
      then strings_loop fuel qp t data Context_ Environment_ i status else mret status
  end.

Definition DdkQueryCallback (qp : RTL_QUERY_REGISTRY_TABLE) (t : Z) (data : list Z) (bytes : Z)
    (Context_ : Z) (Environment_ : bool) : R Z :=
  if has (Flags qp) RTL_QUERY_REGISTRY_NOEXPAND || (negb (t =? REG_MULTI_SZ) && negb (t =? REG_EXPAND_SZ))
  then call_routine (QueryRoutine qp) (query_call_of qp t data bytes Context_)
  else strings_loop (fuel_of data) qp t data Context_ Environment_ 0 STATUS_SUCCESS.

(** ** Values stored in memory *)

Definition loadM (n : nat) (a : Z) : R (list Z) := m ← gets memory; lift (load n a m).

Definition storeM (a : Z) (bs : list Z) : R unit :=
  m ← gets memory; m ← lift (store a bs m); modify (set_memory m).

(** [u->Buffer = DdkAllocUnicodeBuffer(n)] *)
Definition alloc_buffer (n : Z) : R Z :=
  m ← gets memory;
  match pool m n with
  | None => fail (DdkFailed "Unable to allocate memory")
  | Some (a, bs) => _ ← modify (set_memory (fill a bs m)); mret a
  end.

(** [memcmp((char * )data + bytes - sizeof(WCHAR), L"\0", sizeof(WCHAR)) == 0] *)
Definition wchar_end (data : list Z) (bytes : Z) : result bool :=
  lo ← array_get data (bytes - 2);
  hi ← array_get data (bytes - 1);
  Ok ((lo =? 0) && (hi =? 0)).

(** The case of strings: [u] is the address of a [UNICODE_STRING]. *)
Definition store_string (u : Z) (data : list Z) (bytes : Z) : R unit :=
  last ← (if bytes >=? 2 then lift (wchar_end data bytes) else mret false);
  let bytes := if last : bool then bytes - 2 else bytes in
  b ← loadM 8 (u + 8);
  _ ← (if le_combine b =? 0 then
         a ← alloc_buffer (u32 (bytes + nullbytes));
         _ ← storeM (u + 8) (le_split 8 a);
         storeM (u + 2) (le_split 2 (u16 (bytes + nullbytes)))
       else mret tt);
  MaximumLength ← loadM 2 (u + 2);
  let n := Z.min (le_combine MaximumLength) bytes in
  _ ← storeM u (le_split 2 (u16 n));
  Buffer ← loadM 8 (u + 8);
  d ← lift (bytes_of data n);
  _ ← storeM (le_combine Buffer) d;
  storeM (le_combine Buffer + u16 n)
    (replicate (Z.to_nat (Z.min (le_combine MaximumLength - u16 n) nullbytes)) 0).

(** The case of numbers and bytes: [p] is the address of the data, or of its size. *)
Definition store_binary (p t : Z) (data : list Z) (bytes : Z) : R unit :=
  if bytes <=? 4 then
    d ← lift (bytes_of data bytes);
    storeM p d
  else
  size ← loadM 4 p;
  let size := s32 (le_combine size) in
  if size <? 0 then
    d ← lift (bytes_of data (u64 (Z.min (s32 (- size)) (s32 bytes))));
    storeM p d
  else
  let v := le_split 4 bytes ++ le_split 4 t in
  _ ← storeM p (take (Z.to_nat (Z.min size 8)) v);
  if size >? 8 then
    d ← lift (bytes_of data (Z.min (size - 8) bytes));
    storeM (p + 8) d
  else mret tt.

Definition DdkQueryDirect (qp : RTL_QUERY_REGISTRY_TABLE) (t : Z) (data : list Z) (bytes : Z)
    (Environment_ : bool) : R Z :=
  if EntryContext qp =? 0 then mret STATUS_INVALID_PARAMETER else
  if (t =? REG_MULTI_SZ) || (t =? REG_EXPAND_SZ) then
    if negb (has (Flags qp) RTL_QUERY_REGISTRY_NOEXPAND) && (t =? REG_MULTI_SZ)
    then mret STATUS_INVALID_PARAMETER else
    _ ← (if negb (has (Flags qp) RTL_QUERY_REGISTRY_NOEXPAND) then DdkExpandString Environment_ else mret tt);
    _ ← store_string (EntryContext qp) data bytes;
    mret STATUS_SUCCESS
  else if t =? REG_SZ then
    _ ← store_string (EntryContext qp) data bytes;
    mret STATUS_SUCCESS
  else if (t =? REG_DWORD) || (t =? REG_QWORD) || (t =? REG_BINARY) || (t =? REG_DWORD_BIG_ENDIAN) then
    _ ← store_binary (EntryContext qp) t data bytes;
    mret STATUS_SUCCESS
  else fail (DdkFailed "Unsupported type for registry value").

(** [do while (dp[i++] != L'\0') ; while (type == REG_MULTI_SZ && (i < 2 || dp[i-1] || dp[i-2]))] *)
Fixpoint default_loop (fuel : nat) (t : Z) (dp : list Z) (i : Z) : result Z :=
  match fuel with
  | O => Err NoFuel
  | S fuel =>
      i ← skip_string (fuel_of dp) dp i;
      if negb (t =? REG_MULTI_SZ) then Ok i
      else if i <? 2 then default_loop fuel t dp i
      else
        a ← wchar_at dp (i - 1);
        if negb (a =? 0) then default_loop fuel t dp i else
        b ← wchar_at dp (i - 2);
        if negb (b =? 0) then default_loop fuel t dp i else Ok i
  end.

(** Returns the type, the data and the number of bytes. *)
Definition DdkGetDefaultValue (qp : RTL_QUERY_REGISTRY_TABLE) : result (Z * list Z * Z) :=
  let t := Z.land (DefaultType qp) 0xff in
  if negb (DefaultLength qp =? 0) || (negb (t =? REG_SZ) && negb (t =? REG_EXPAND_SZ) && negb (t =? REG_MULTI_SZ))
  then Ok (t, DefaultData qp, DefaultLength qp)
  else
    i ← default_loop (fuel_of (DefaultData qp)) t (DefaultData qp) 0;
    Ok (t, DefaultData qp, u32 (i * 2)).

(** ** One value *)

(** The loop that reads the value; [None] when there is no memory.  [held]: whether
    [buffer] is already allocated. *)
Fixpoint read_loop (fuel : nat) (key : Z) (name : option wstring) (held : bool) (len bytes : Z)
    : R (option (Z * Z * list Z * Z)) :=
  match fuel with
  | O => fail NoFuel
  | S fuel =>
      let len := u32 (len + PAGE_SIZE) in
      let len := if bytes >? len then u32 (bytes + nullbytes) else len in
      match realloc len with
      | None => mret None
      | Some b =>
          _ ← (if held then mret tt else new_buf);
          '(rc, t, d, n) ← on_key key (RegQueryValueExW key name (Some (u32 (len - nullbytes))));
          b ← lift (overlay b 0 d);
          if rc =? ERROR_SUCCESS then
            b ← lift (overlay b n (replicate (Z.to_nat nullbytes) 0));
            mret (Some (rc, t, b, n))
          else if rc =? ERROR_MORE_DATA then read_loop fuel key name true len n
          else mret (Some (rc, t, b, n))
      end
  end.

(** From the comment "Return value as Direct data" on. *)
Definition query_direct (qp : RTL_QUERY_REGISTRY_TABLE) (rc t : Z) (b : list Z) (bytes : Z)
    (Environment_ : bool) : R Z :=
  if (rc =? ERROR_SUCCESS) && has (Flags qp) RTL_QUERY_REGISTRY_TYPECHECK &&
     negb (t =? Z.land (Z.shiftr (DefaultType qp) RTL_QUERY_REGISTRY_TYPECHECK_SHIFT) 0xff)
  then _ ← free_buf; mret STATUS_OBJECT_TYPE_MISMATCH
  else if (rc =? ERROR_FILE_NOT_FOUND) && (DefaultType qp =? REG_NONE) then
    _ ← free_buf;
    mret (if has (Flags qp) RTL_QUERY_REGISTRY_REQUIRED then STATUS_OBJECT_NAME_NOT_FOUND else STATUS_SUCCESS)
  else
  '(rc, t, data, bytes) ← (if rc =? ERROR_FILE_NOT_FOUND then
      '(t, data, bytes) ← lift (DdkGetDefaultValue qp); mret (ERROR_SUCCESS, t, data, bytes)
    else mret (rc, t, b, bytes));
  status ← (if negb (rc =? ERROR_SUCCESS) then mret (DdkGetRegistryStatus rc)
            else DdkQueryDirect qp t data bytes Environment_);
  _ ← free_buf;
  mret status.

Definition DdkQueryValue (key : Z) (qp : RTL_QUERY_REGISTRY_TABLE) (Context_ : Z) (Environment_ : bool) : R Z :=
  if Bool.eqb (negb (has (Flags qp) RTL_QUERY_REGISTRY_DIRECT)) (QueryRoutine qp =? 0)
  then mret STATUS_INVALID_PARAMETER else
  v ← read_loop read_fuel key (QueryName qp) false 0 0;
  match v with
  | None => mret STATUS_INSUFFICIENT_RESOURCES
  | Some (rc, t, b, bytes) =>
      if negb (has (Flags qp) RTL_QUERY_REGISTRY_DIRECT) then
        status ← (if negb (rc =? ERROR_SUCCESS) then mret (DdkGetRegistryStatus rc)
                  else DdkQueryCallback qp t b bytes Context_ Environment_);
        _ ← free_buf;
        mret status
      else query_direct qp rc t b bytes Environment_
  end.

(** ** All values of a key *)

(** [for (; NT_SUCCESS(status); index++, count++)]: the last status, and [count]. *)
Fixpoint enumerate_loop (fuel : nat) (key : Z) (qp : RTL_QUERY_REGISTRY_TABLE) (Context_ : Z)
    (Environment_ : bool) (index count status : Z) : R (Z * Z) :=
  if negb (NT_SUCCESS status) then mret (status, count) else
  match fuel with
  | O => fail NoFuel
  | S fuel =>
      '(rc, name, _, _, _) ← on_key key (RegEnumValueW key index 1024 None);
      if negb (rc =? ERROR_SUCCESS) then
        mret (if negb (rc =? ERROR_NO_MORE_ITEMS) then DdkGetRegistryStatus rc else status, count)
      else
      status ← DdkQueryValue key (with_name qp name) Context_ Environment_;
      deleted ← (if NT_SUCCESS status && has (Flags qp) RTL_QUERY_REGISTRY_DELETE
                 then reg_change key (RegDeleteKeyValueW key [] (Some name)) else mret (-1));
      let index := if deleted =? ERROR_SUCCESS then u32 (index - 1) else index in
      enumerate_loop fuel key qp Context_ Environment_ (u32 (index + 1)) (u32 (count + 1)) status
  end.

Definition DdkQueryEnumerateValues (fuel : nat) (key : Z) (qp : RTL_QUERY_REGISTRY_TABLE) (Context_ : Z)
    (Environment_ : bool) : R Z :=
  '(status, count) ← enumerate_loop fuel key qp Context_ Environment_ 0 0 STATUS_SUCCESS;
  mret (if has (Flags qp) RTL_QUERY_REGISTRY_REQUIRED && (count =? 0)
        then STATUS_OBJECT_NAME_NOT_FOUND else status).

(** ** Tables *)

(** How the loop over the table ends: by [break], or by [return]. *)
Inductive outcome := Broke (status key : Z) | Returned (status : Z).

(** The entry asks for a whole key. *)
Definition query_key (fuel : nat) (key : Z) (qp : RTL_QUERY_REGISTRY_TABLE) (Context_ : Z)
    (Environment_ : bool) (status : Z) (next : Z -> Z -> R outcome) : R outcome :=
  if QueryRoutine qp =? 0 then mret (Broke status key)
  else if has (Flags qp) RTL_QUERY_REGISTRY_DIRECT then mret (Returned STATUS_INVALID_PARAMETER)
  else if has (Flags qp) RTL_QUERY_REGISTRY_NOVALUE then
    status ← call_routine (QueryRoutine qp) (query_call_of qp REG_NONE [] 0 Context_);
    next status key
  else
    status ← DdkQueryEnumerateValues fuel key qp Context_ Environment_;
    next status key.

(** One entry of the table; [next] is the rest. *)
Definition query_entry (fuel : nat) (base key : Z) (qp : RTL_QUERY_REGISTRY_TABLE) (Context_ : Z)
    (Environment_ : bool) (status : Z) (next : Z -> Z -> R outcome) : R outcome :=
  key ← (if has (Flags qp) RTL_QUERY_REGISTRY_SUBKEY || has (Flags qp) RTL_QUERY_REGISTRY_TOPKEY then
           _ ← (if negb (key =? 0) && negb (key =? base) then close_key key else mret tt);
           mret base
         else mret key);
  if has (Flags qp) RTL_QUERY_REGISTRY_SUBKEY then
    match QueryName qp with
    | None => mret (Broke STATUS_INVALID_PARAMETER key)
    | Some n =>
        '(rc, k) ← open_key false base n;
        if negb (rc =? ERROR_SUCCESS) then mret (Broke (DdkGetRegistryStatus rc) key)
        else if QueryRoutine qp =? 0 then next status k
        else query_key fuel k qp Context_ Environment_ status next
    end
  else if bool_decide (QueryName qp = None) then query_key fuel key qp Context_ Environment_ status next
  else
    status ← DdkQueryValue key qp Context_ Environment_;
    _ ← (if NT_SUCCESS status && has (Flags qp) RTL_QUERY_REGISTRY_DELETE
         then reg_change key (RegDeleteKeyValueW key [] (QueryName qp)) else mret 0);
    next status key.

(** To run off the table is to read past its end. *)
Fixpoint query_loop (fuel : nat) (base : Z) (table : list RTL_QUERY_REGISTRY_TABLE) (Context_ : Z)
    (Environment_ : bool) (status key : Z) : R outcome :=
  if negb (NT_SUCCESS status) then mret (Broke status key) else
  match table with
  | [] => fail (BadAccess 0)
  | qp :: table =>
      query_entry fuel base key qp Context_ Environment_ status
        (query_loop fuel base table Context_ Environment_)
  end.

(** [fuel]: more than the number of values of each key. *)
Definition RtlQueryRegistryValues (fuel : nat) (RelativeTo : Z) (Path : where_)
    (QueryTable : list RTL_QUERY_REGISTRY_TABLE) (Context_ : Z) (Environment_ : bool) : R Z :=
  '(status, base) ← DdkGetRegistryKey RelativeTo Path false;
  if negb (NT_SUCCESS status) then mret status else
  r ← query_loop fuel base QueryTable Context_ Environment_ status base;
  match r with
  | Returned status => mret status
  | Broke status key =>
      _ ← (if negb (key =? 0) && negb (key =? base) then close_key key else mret tt);
      _ ← (if has RelativeTo RTL_REGISTRY_HANDLE then mret tt else close_unless_hive base);
      mret status
  end.

End query.
