(* ===== verification/RegistryZw.v ===== *)
(** * RegistryZw: keys as handles (the Zw functions of registry.cpp)

    A handle to a key is the handle of an object that holds it.  What is returned about
    values and keys is written into a structure in the driver's memory, field by field.
    [malloc] is the contents of new memory of a size, [calloc] the address of a new
    object, [None] for failure. *)

From S2P Require Import Prelude Strings Objects Memory Registry.

Definition KeyValueBasicInformation : Z := 0.
Definition KeyValueFullInformation : Z := 1.
Definition KeyValuePartialInformation : Z := 2.

Definition KeyBasicInformation : Z := 0.
Definition KeyNodeInformation : Z := 1.
Definition KeyFullInformation : Z := 2.

(** [ObjectName] is [None] for a null pointer. *)
Record OBJECT_ATTRIBUTES := mkAttributes { RootDirectory : Z; ObjectName : option UNICODE_STRING }.

Section zw.
Context `{Environment} `{WINREG} `{QUERY_ROUTINES}.
Context (malloc : Z -> option (list Z)).

Definition put32 (a v : Z) : R unit := m ← gets memory; m ← lift (store a (le_split 4 v) m); modify (set_memory m).
Definition put_bytes (a : Z) (bs : list Z) : R unit := m ← gets memory; m ← lift (store a bs m); modify (set_memory m).

(** The key of a handle, 0 for none. *)
Definition handle_key (KeyHandle : Z) : R Z :=
  p ← on_kernel (FromHandle KeyHandle);
  if p =? 0 then mret 0 else key_of p.

(** [DdkUnicodeToString(u, L'\\')], as the string at its result. *)
Definition to_string (u : option UNICODE_STRING) : R (option wstring) :=
  r ← lift (DdkUnicodeToString malloc u backslash);
  match r with
  | None => mret None
  | Some m => _ ← new_buf; s ← lift (wcs m); mret (Some s)
  end.

Definition free_string (s : option wstring) : R unit :=
  match s with Some _ => free_buf | None => mret tt end.

Definition length_ {A} (l : list A) : Z := Z.of_nat (length l).

(** ** Values *)

(** The cases of [KEY_VALUE_INFORMATION_CLASS]; [reread] is the call that reads the
    data, given the size of the buffer. *)
Definition value_basic (Info Length ResultLength t : Z) (name : wstring) : R Z :=
  let total := u32 (12 + 2 * length_ name) in
  _ ← put32 ResultLength total;
  if Info =? 0 then mret (DdkGetRegistryStatus ERROR_SUCCESS) else
  if Length <? total then mret STATUS_BUFFER_TOO_SMALL else
  _ ← put32 Info 0;
  _ ← put32 (Info + 4) t;
  _ ← put32 (Info + 8) (2 * length_ name);
  _ ← put_bytes (Info + 12) (encode name);
  mret (DdkGetRegistryStatus ERROR_SUCCESS).

Definition value_full (reread : Z -> R (Z * list Z * Z)) (Info Length ResultLength t : Z) (name : wstring)
    (datalen : Z) : R Z :=
  let total := u32 (20 + 2 * length_ name + datalen) in
  _ ← put32 ResultLength total;
  if Info =? 0 then mret (DdkGetRegistryStatus ERROR_SUCCESS) else
  if Length <? total then mret STATUS_BUFFER_TOO_SMALL else
  _ ← put32 Info 0;
  _ ← put32 (Info + 4) t;
  _ ← put32 (Info + 16) (2 * length_ name);
  _ ← put32 (Info + 8) (20 + 2 * length_ name);
  _ ← put_bytes (Info + 20) (encode name);
  '(rc, d, datalen) ← reread datalen;
  _ ← put_bytes (Info + 20 + 2 * length_ name) d;
  _ ← put32 (Info + 12) datalen;
  mret (DdkGetRegistryStatus rc).

Definition value_partial (reread : Z -> R (Z * list Z * Z)) (Info Length ResultLength t datalen : Z) : R Z :=
  let total := u32 (12 + datalen) in
  _ ← put32 ResultLength total;
  if Info =? 0 then mret (DdkGetRegistryStatus ERROR_SUCCESS) else
  if Length <? total then mret STATUS_BUFFER_TOO_SMALL else
  _ ← put32 Info 0;
  _ ← put32 (Info + 4) t;
  '(rc, d, datalen) ← reread datalen;
  _ ← put_bytes (Info + 12) d;
  _ ← put32 (Info + 8) datalen;
  mret (DdkGetRegistryStatus rc).

Definition value_information (reread : Z -> R (Z * list Z * Z)) (Class_ Info Length ResultLength t : Z)
    (name : wstring) (datalen : Z) : R Z :=
  if Class_ =? KeyValueBasicInformation then value_basic Info Length ResultLength t name
  else if Class_ =? KeyValueFullInformation then value_full reread Info Length ResultLength t name datalen
  else if Class_ =? KeyValuePartialInformation then value_partial reread Info Length ResultLength t datalen
  else mret STATUS_INVALID_PARAMETER.

(** [wcslen(name)] of a null pointer is an access to address 0. *)
Definition ZwQueryValueKey (KeyHandle : Z) (ValueName : option UNICODE_STRING)
    (KeyValueInformationClass KeyValueInformation Length ResultLength : Z) : R Z :=
  key ← handle_key KeyHandle;
  if key =? 0 then mret STATUS_INVALID_HANDLE else
  name ← to_string ValueName;
  match name with
  | None => fail (BadAccess 0)
  | Some name =>
      '(rc, t, _, datalen) ← on_key key (RegQueryValueExW key (Some name) None);
      if negb (rc =? ERROR_SUCCESS) then mret (DdkGetRegistryStatus rc) else
      value_information
        (fun cap => '(rc, _, d, n) ← on_key key (RegQueryValueExW key (Some name) (Some cap)); mret (rc, d, n))
        KeyValueInformationClass KeyValueInformation Length ResultLength t name datalen
  end.

Definition ZwEnumerateValueKey (KeyHandle Index KeyValueInformationClass KeyValueInformation Length
    ResultLength : Z) : R Z :=
  key ← handle_key KeyHandle;
  if key =? 0 then mret STATUS_INVALID_HANDLE else
  '(rc, name, t, _, datalen) ← on_key key (RegEnumValueW key Index 1024 None);
  if negb (rc =? ERROR_SUCCESS) then mret (DdkGetRegistryStatus rc) else
  value_information
    (fun cap => '(rc, _, _, d, n) ← on_key key (RegEnumValueW key Index 1024 (Some cap)); mret (rc, d, n))
    KeyValueInformationClass KeyValueInformation Length ResultLength t name datalen.

(** ** Keys below a key *)

Definition key_basic (Info Length ResultLength ftime : Z) (name : wstring) : R Z :=
  let total := u32 (16 + 2 * length_ name) in
  _ ← put32 ResultLength total;
  if Info =? 0 then mret (DdkGetRegistryStatus ERROR_SUCCESS) else
  if Length <? total then mret STATUS_BUFFER_TOO_SMALL else
  _ ← put_bytes Info (le_split 8 ftime);
  _ ← put32 (Info + 8) 0;
  _ ← put32 (Info + 12) (2 * length_ name);
  _ ← put_bytes (Info + 16) (encode name);
  mret (DdkGetRegistryStatus ERROR_SUCCESS).

Definition key_node (Info Length ResultLength ftime : Z) (name classname : wstring) : R Z :=
  let total := u32 (24 + 2 * length_ name + 2 * length_ classname) in
  _ ← put32 ResultLength total;
  if Info =? 0 then mret (DdkGetRegistryStatus ERROR_SUCCESS) else
  if Length <? total then mret STATUS_BUFFER_TOO_SMALL else
  _ ← put_bytes Info (le_split 8 ftime);
  _ ← put32 (Info + 8) 0;
  _ ← put32 (Info + 12) (24 + 2 * length_ name);
  _ ← put32 (Info + 16) (2 * length_ classname);
  _ ← put32 (Info + 20) (2 * length_ name);
  _ ← put_bytes (Info + 24) (encode name);
  _ ← put_bytes (Info + 24 + 2 * length_ name) (encode classname);
  mret (DdkGetRegistryStatus ERROR_SUCCESS).

(** [RegQueryInfoKeyW] writes its six numbers when it succeeds. *)
Definition key_full (base Info Length ResultLength ftime : Z) (name classname : wstring) : R Z :=
  let total := u32 (44 + 2 * length_ classname) in
  _ ← put32 ResultLength total;
  if Info =? 0 then mret (DdkGetRegistryStatus ERROR_SUCCESS) else
  if Length <? total then mret STATUS_BUFFER_TOO_SMALL else
  '(rc, key) ← open_key false base name;
  if negb (rc =? ERROR_SUCCESS) then mret (DdkGetRegistryStatus rc) else
  _ ← put_bytes Info (le_split 8 ftime);
  _ ← put32 (Info + 8) 0;
  _ ← put32 (Info + 12) 44;
  _ ← put32 (Info + 16) (2 * length_ classname);
  _ ← put_bytes (Info + 44) (encode classname);
  '(rc, (SubKeys, MaxNameLen, MaxClassLen, Values, MaxValueNameLen, MaxValueDataLen)) ←
    on_key key (RegQueryInfoKeyW key);
  _ ← (if rc =? ERROR_SUCCESS then
         _ ← put32 (Info + 20) SubKeys;
         _ ← put32 (Info + 24) MaxNameLen;
         _ ← put32 (Info + 28) MaxClassLen;
         _ ← put32 (Info + 32) Values;
         _ ← put32 (Info + 36) MaxValueNameLen;
         put32 (Info + 40) MaxValueDataLen
       else mret tt);
  _ ← close_key key;
  mret (DdkGetRegistryStatus rc).

Definition ZwEnumerateKey (KeyHandle Index KeyInformationClass KeyInformation Length ResultLength : Z) : R Z :=
  key ← handle_key KeyHandle;
  if key =? 0 then mret STATUS_INVALID_HANDLE else
  '(rc, name, classname, ftime) ← on_key key (RegEnumKeyExW key Index 1024 1024);
  if negb (rc =? ERROR_SUCCESS) then mret (DdkGetRegistryStatus rc)
  else if KeyInformationClass =? KeyBasicInformation then key_basic KeyInformation Length ResultLength ftime name
  else if KeyInformationClass =? KeyNodeInformation then
    key_node KeyInformation Length ResultLength ftime name classname
  else if KeyInformationClass =? KeyFullInformation then
    key_full key KeyInformation Length ResultLength ftime name classname
  else mret STATUS_INVALID_PARAMETER.

(** ** Changes *)

(** [Data] is the memory at the pointer. *)
Definition ZwSetValueKey (KeyHandle : Z) (ValueName : option UNICODE_STRING) (Type_ : Z) (Data : list Z)
    (DataSize : Z) : R Z :=
  key ← handle_key KeyHandle;
  if key =? 0 then mret STATUS_INVALID_HANDLE else
  name ← to_string ValueName;
  d ← lift (bytes_of Data DataSize);
  rc ← reg_change key (RegSetValueExW key name Type_ d);
  _ ← free_string name;
  mret (DdkGetRegistryStatus rc).

Definition ZwFlushKey (KeyHandle : Z) : R Z :=
  key ← handle_key KeyHandle;
  if key =? 0 then mret STATUS_INVALID_HANDLE else
  rc ← reg_change key (RegFlushKey key);
  mret (DdkGetRegistryStatus rc).

Definition ZwDeleteValueKey (KeyHandle : Z) (ValueName : option UNICODE_STRING) : R Z :=
  key ← handle_key KeyHandle;
  if key =? 0 then mret STATUS_INVALID_HANDLE else
  name ← to_string ValueName;
  rc ← reg_change key (RegDeleteValueW key name);
  _ ← free_string name;
  mret (DdkGetRegistryStatus rc).

Definition ZwDeleteKey (KeyHandle : Z) : R Z :=
  key ← handle_key KeyHandle;
  if key =? 0 then mret STATUS_INVALID_HANDLE else
  rc ← reg_change key (RegDeleteKeyW key []);
  mret (DdkGetRegistryStatus rc).

(** ** Objects for keys *)

(** [RegOpenKeyW], or [RegCreateKeyExW] when the disposition is asked for. *)
Definition open_object_key (create : bool) (base : Z) (path : wstring) : R (Z * Z * Z) :=
  if create then
    _ ← key_open base;
    w ← gets win;
    let '(rc, k, disposition, w) := RegCreateKeyExW base path w in
    _ ← modify (set_win w);
    mret (rc, k, disposition)
  else '(rc, k) ← open_key false base path; mret (rc, k, 0).

(** Returns the status, [*ppKey] and [*pDisposition]; [create]: [pDisposition] is not null. *)
Definition DdkGetRegistryObject (calloc : option Z) (ObjectAttributes : option OBJECT_ATTRIBUTES)
    (create : bool) : R (Z * Z * Z) :=
  match ObjectAttributes with
  | None => mret (STATUS_INVALID_PARAMETER, 0, 0)
  | Some a =>
      match ObjectName a with
      | None => fail (BadAccess 0)
      | Some u =>
          if bool_decide (Buffer u = None) then mret (STATUS_INVALID_PARAMETER, 0, 0) else
          base ← (if RootDirectory a =? 0 then mret hive else handle_key (RootDirectory a));
          if negb (RootDirectory a =? 0) && (base =? 0) then mret (STATUS_INVALID_HANDLE, 0, 0) else
          path ← to_string (Some u);
          let path := default [] path in
          '(rc, key, disposition) ← (if is_empty path then mret (ERROR_SUCCESS, base, 0)
                                     else open_object_key create base path);
          _ ← free_buf;
          if negb (rc =? ERROR_SUCCESS) then mret (DdkGetRegistryStatus rc, 0, 0) else
          pKey ← on_kernel (DdkAllocObject calloc KeyType (Key 0) true);
          match pKey with
          | None =>
              _ ← (if negb (key =? base) then close_key key else mret tt);
              mret (STATUS_INSUFFICIENT_RESOURCES, 0, 0)
          | Some p =>
              o ← on_kernel (object_at p);
              _ ← on_kernel (put_object p (mkObject (type o) (alloc o) (refcount o) (h o) (Key key)));
              mret (STATUS_SUCCESS, p, disposition)
          end
      end
  end.

(** Returns the status and [*KeyHandle], if it is stored; [KeyHandle]: it is not null. *)
Definition ZwOpenKeyEx (calloc : option Z) (KeyHandle : bool) (ObjectAttributes : option OBJECT_ATTRIBUTES)
    : R (Z * option Z) :=
  if negb KeyHandle then mret (STATUS_INVALID_PARAMETER, None) else
  '(status, pKey, _) ← DdkGetRegistryObject calloc ObjectAttributes false;
  mret (status, if NT_SUCCESS status then Some (ToHandle pKey) else None).

Definition ZwOpenKey (calloc : option Z) (KeyHandle : bool) (ObjectAttributes : option OBJECT_ATTRIBUTES)
    : R (Z * option Z) := ZwOpenKeyEx calloc KeyHandle ObjectAttributes.

(** And [*Disposition]. *)
Definition ZwCreateKey (calloc : option Z) (KeyHandle : bool) (ObjectAttributes : option OBJECT_ATTRIBUTES)
    : R (Z * option (Z * Z)) :=
  if negb KeyHandle then mret (STATUS_INVALID_PARAMETER, None) else
  '(status, pKey, disposition) ← DdkGetRegistryObject calloc ObjectAttributes true;
  mret (status, if NT_SUCCESS status then Some (ToHandle pKey, disposition) else None).

(** [ZwClose] of object.cpp, here with the key it may close. *)
Definition close_key_handle `{Locale} (Handle : Z) : R Z := on_kernel (ZwClose Handle).

End zw.
