(* ===== verification/RegistrySpec.v ===== *)
(** * RegistrySpec: what the registry functions rely on

    [WINREG_Laws] is what is documented of the registry functions of Win32: a key that
    is opened has a handle of its own, except that the empty path gives the handle of
    the key itself, and values and their names are read as they are.  The contents of
    the registry are the [tree]; handles refer to its nodes.  The names of a key's values
    have an order, in which they are listed until there is a change, but a change may
    bring another; deleting a value removes one name, which is the one given in whatever
    case ([same_name]). *)

From S2P Require Import Prelude Strings Objects Memory Registry RegistryQuery.

Section laws.
Context `{Environment} `{WINREG}.

(** The handles after a call that opens the path [p] of [b]. *)
Definition handles_after (w w' : world) (b : Z) (p : wstring) (rc k : Z) : Prop :=
  if decide (rc = ERROR_SUCCESS) then
    if is_empty p then k = b /\ open_keys w' = open_keys w
    else k ∉ open_keys w /\ k <> 0 /\ open_keys w' = {[k]} ∪ open_keys w
  else open_keys w' = open_keys w.

(** The same node behind each handle that is open before and after. *)
Definition same_nodes {N} (node_of : world -> Z -> N) (w w' : world) : Prop :=
  forall h, h ∈ open_keys w -> h ∈ open_keys w' -> node_of w' h = node_of w h.

Class WINREG_Laws := {
  tree : Type;
  node : Type;
  node_dec :: EqDecision node;
  tree_of : world -> tree;
  node_of : world -> Z -> node;
  child : tree -> node -> wstring -> Z + node;
  lookup_value : tree -> node -> option wstring -> Z + (Z * list Z);
  names : tree -> node -> list wstring;
  same_name : wstring -> wstring -> Prop;
  delete_value : tree -> node -> option wstring -> option tree;
  child_empty t n : child t n [] = inr n;
  child_error t n p e : child t n p = inl e -> e <> ERROR_SUCCESS;
  value_error t n v e : lookup_value t n v = inl e -> e <> ERROR_SUCCESS /\ e <> ERROR_MORE_DATA;
  delete_names t n v t' m : delete_value t n v = Some t' ->
    (m <> n -> names t' m ≡ₚ names t m) /\
    (m = n -> exists x, same_name x (default [] v) /\ names t n ≡ₚ x :: names t' n);
  delete_lookup t n v t' m u x : delete_value t n v = Some t' -> lookup_value t' m u = inr x ->
    lookup_value t m u = inr x;
  open_law w b p : b ∈ open_keys w ->
    exists rc k w', RegOpenKeyW b p w = (rc, k, w') /\ handles_after w w' b p rc k /\
      same_nodes node_of w w' /\ tree_of w' = tree_of w /\
      match child (tree_of w) (node_of w b) p with
      | inl e => rc = e
      | inr n => rc = ERROR_SUCCESS /\ node_of w' k = n
      end;
  create_law w b p : b ∈ open_keys w ->
    exists rc k w', RegCreateKeyW b p w = (rc, k, w') /\ handles_after w w' b p rc k /\
      same_nodes node_of w w' /\
      (forall n q m, child (tree_of w) n q = inr m -> child (tree_of w') n q = inr m) /\
      (rc = ERROR_SUCCESS -> child (tree_of w') (node_of w b) p = inr (node_of w' k));
  close_law w k : k ∈ open_keys w ->
    open_keys (RegCloseKey k w) = open_keys w ∖ {[k]} /\ same_nodes node_of w (RegCloseKey k w) /\
    tree_of (RegCloseKey k w) = tree_of w;
  query_law w k n cap : k ∈ open_keys w -> 0 <= cap ->
    exists rc t d b, RegQueryValueExW k n (Some cap) w = (rc, t, d, b) /\ Z.of_nat (length d) <= cap /\
      match lookup_value (tree_of w) (node_of w k) n with
      | inl e => rc = e
      | inr (t', d') =>
          b = Z.of_nat (length d') /\
          if Z.of_nat (length d') <=? cap then rc = ERROR_SUCCESS /\ t = t' /\ d = d' else rc = ERROR_MORE_DATA
      end;
  size_law w k n : k ∈ open_keys w ->
    exists rc t d b, RegQueryValueExW k n None w = (rc, t, d, b) /\
      match lookup_value (tree_of w) (node_of w k) n with
      | inl e => rc = e
      | inr (t', d') => rc = ERROR_SUCCESS /\ t = t' /\ b = Z.of_nat (length d')
      end;
  enum_law w k i : k ∈ open_keys w -> 0 <= i ->
    exists rc n t d b, RegEnumValueW k i 1024 None w = (rc, n, t, d, b) /\
      match names (tree_of w) (node_of w k) !! Z.to_nat i with
      | Some n' => if Z.of_nat (length n') <? 1024 then rc = ERROR_SUCCESS /\ n = n' else rc = ERROR_MORE_DATA
      | None => rc = ERROR_NO_MORE_ITEMS
      end;
  delete_law w k n : k ∈ open_keys w ->
    exists rc w', RegDeleteKeyValueW k [] n w = (rc, w') /\ open_keys w' = open_keys w /\
      same_nodes node_of w w' /\
      match delete_value (tree_of w) (node_of w k) n with
      | Some t => rc = ERROR_SUCCESS /\ tree_of w' = t
      | None => rc <> ERROR_SUCCESS /\ tree_of w' = tree_of w
      end;
  set_law w k n t d : k ∈ open_keys w ->
    exists rc w', RegSetValueExW k n t d w = (rc, w') /\ open_keys w' = open_keys w /\
      same_nodes node_of w w' /\ child (tree_of w') = child (tree_of w) /\
      (rc = ERROR_SUCCESS -> lookup_value (tree_of w') (node_of w k) n = inr (t, d));
  remove_law w k n : k ∈ open_keys w ->
    exists rc w', RegDeleteValueW k n w = (rc, w') /\ open_keys w' = open_keys w /\ same_nodes node_of w w' /\
      child (tree_of w') = child (tree_of w);
  remove_key_law w k : k ∈ open_keys w ->
    exists rc w', RegDeleteKeyW k [] w = (rc, w') /\ open_keys w' = open_keys w /\ same_nodes node_of w w'
}.

End laws.

Section run.
Context `{Environment} `{WINREG} `{!WINREG_Laws} `{QUERY_ROUTINES}.

(** ** Runs *)

Lemma gets_run {A} (f : rstate -> A) s : gets f s = Ok (f s, s).
Proof. done. Qed.

Lemma lift_run {A} (r : result A) a s : r = Ok a -> (lift r : R A) s = Ok (a, s).
Proof. by intros ->. Qed.

Definition is_open (s : rstate) (k : Z) : Prop := k ∈ open_keys (win s).

(** The tree that a state has, and the node of a handle in it. *)
Definition tree_in (s : rstate) : tree := tree_of (win s).
Definition node_in (s : rstate) (k : Z) : node := node_of (win s) k.

Lemma key_open_run s k : is_open s k -> key_open k s = Ok (tt, s).
Proof. intros O. unfold key_open. rewrite (bind_run _ _ _ _ _ (gets_run win s)). by rewrite decide_True. Qed.

Lemma on_key_run {A} s k (f : world -> A) : is_open s k -> on_key k f s = Ok (f (win s), s).
Proof. intros O. unfold on_key. by rewrite (bind_run _ _ _ _ _ (key_open_run s k O)). Qed.

Lemma reg_change_run s k f rc w : is_open s k -> f (win s) = (rc, w) -> reg_change k f s = Ok (rc, set_win w s).
Proof.
  intros O E. unfold reg_change. rewrite (bind_run _ _ _ _ _ (key_open_run s k O)).
  rewrite (bind_run _ _ _ _ _ (gets_run win s)). by rewrite E.
Qed.

Lemma close_key_run s k : is_open s k ->
  exists w, close_key k s = Ok (tt, set_win w s) /\ open_keys w = open_keys (win s) ∖ {[k]} /\
    same_nodes node_of (win s) w /\ tree_of w = tree_of (win s).
Proof.
  intros O. unfold close_key. rewrite (bind_run _ _ _ _ _ (key_open_run s k O)).
  eexists. split; [reflexivity | by apply close_law].
Qed.

Lemma open_key_run s (create : bool) b p : is_open s b ->
  exists rc k w, open_key create b p s = Ok ((rc, k), set_win w s) /\ handles_after (win s) w b p rc k /\
    same_nodes node_of (win s) w /\
    (if create then (forall n q m, child (tree_in s) n q = inr m -> child (tree_of w) n q = inr m) /\
       (rc = ERROR_SUCCESS -> child (tree_of w) (node_in s b) p = inr (node_of w k))
     else tree_of w = tree_of (win s) /\
       match child (tree_in s) (node_in s b) p with
       | inl e => rc = e
       | inr n => rc = ERROR_SUCCESS /\ node_of w k = n
       end).
Proof.
  intros O. unfold open_key. destruct create.
  - destruct (create_law (win s) b p O) as (rc & k & w & E & Hh & Sn & C). exists rc, k, w.
    rewrite (bind_run _ _ _ _ _ (key_open_run s b O)), (bind_run _ _ _ _ _ (gets_run win s)), E. done.
  - destruct (open_law (win s) b p O) as (rc & k & w & E & Hh & Sn & T & C). exists rc, k, w.
    rewrite (bind_run _ _ _ _ _ (key_open_run s b O)), (bind_run _ _ _ _ _ (gets_run win s)), E. done.
Qed.

Lemma set_win_twice w w' s : set_win w (set_win w' s) = set_win w s.
Proof. done. Qed.

Lemma same_nodes_refl w : same_nodes node_of w w.
Proof. by intros h. Qed.

(** By way of a world that has more handles open. *)
Lemma same_nodes_trans w w1 w2 : open_keys w ⊆ open_keys w1 ->
  same_nodes node_of w w1 -> same_nodes node_of w1 w2 -> same_nodes node_of w w2.
Proof. intros Sub S1 S2 h Hh Hh2. rewrite (S2 h) by set_solver. apply S1; set_solver. Qed.

(** *** Opening below a handle and closing again *)

(** After opening, the handle is there, and the old ones too. *)
Lemma handles_open w w' b p k : b ∈ open_keys w -> handles_after w w' b p ERROR_SUCCESS k ->
  k ∈ open_keys w' /\ open_keys w ⊆ open_keys w' /\ (k = b \/ k ∉ open_keys w) /\ (k <> b -> open_keys w' = {[k]} ∪ open_keys w).
Proof.
  intros O. unfold handles_after. rewrite decide_True by done.
  destruct (is_empty p); [intros [-> ->]; naive_solver | intros (N & Z & ->); set_solver].
Qed.

Lemma handles_error w w' b p rc k : rc <> ERROR_SUCCESS -> handles_after w w' b p rc k -> open_keys w' = open_keys w.
Proof. intros N. unfold handles_after. by rewrite decide_False. Qed.

End run.

(** * opening, creating and changing keys

    A path leads from the hive to a node; the calls with a path reach that node, and
    leave no handle and no buffer behind. *)

Section spec.
Context `{Environment} `{WINREG} `{!WINREG_Laws} `{QUERY_ROUTINES}.

(** The node at a path relative to one of the registry's own keys. *)
Definition resolve (t : tree) (root : node) (rel p : wstring) : Z + node :=
  match child t root (skip_slashes rel) with
  | inl e => inl e
  | inr n => child t n (skip_slashes p)
  end.

(** Calls of the kernel's objects that have no effect outside of it. *)
Lemma on_kernel_quiet {A} (m : K A) s a k : m (kern s) = Ok (a, k) -> events k = events (kern s) ->
  on_kernel m s = Ok (a, set_kern k s).
Proof. intros E Ev. unfold on_kernel. rewrite E, Ev, Nat.sub_diag. done. Qed.

Lemma on_kernel_same {A} (m : K A) s a : m (kern s) = Ok (a, kern s) -> on_kernel m s = Ok (a, s).
Proof. intros E. rewrite (on_kernel_quiet m s a (kern s) E eq_refl). by destruct s. Qed.

(** The hive is open. *)
Definition ready (s : rstate) : Prop := is_open s hive /\ hive <> 0.

(** The handle [k] is the hive, or new. *)
Definition new_handle (w w' : world) (k : Z) : Prop :=
  k = hive /\ open_keys w' = open_keys w \/
  k ∉ open_keys w /\ k <> 0 /\ k <> hive /\ open_keys w' = {[k]} ∪ open_keys w.

(** [b] is the hive, or [b] has just been opened. *)
Lemma open_step w w1 b p k : hive ∈ open_keys w -> hive <> 0 -> b = hive -> w1 = w ->
  forall w', handles_after w1 w' b p ERROR_SUCCESS k -> new_handle w w' k.
Proof.
  intros Oh N -> -> w'. unfold handles_after. rewrite decide_True by done. unfold new_handle.
  destruct (is_empty p); [intros [-> ->]; by left | intros (Nk & Z & Ek)]. right. set_solver.
Qed.

(** The second half of [DdkGetRegistryKey], from the key [base] on. *)
Definition get_below (create : bool) (base : Z) (p : wstring) : R (Z * Z) :=
  '(status, key) ← (if is_empty p then mret (STATUS_SUCCESS, base) else
    '(rc, key) ← open_key create base p;
    mret (if negb (rc =? ERROR_SUCCESS) then (DdkGetRegistryStatus rc, 0) else (STATUS_SUCCESS, key)));
  _ ← (if negb (base =? key) && negb (base =? hive) then close_key base else mret tt);
  mret (status, key).

Lemma status_error e : e <> ERROR_SUCCESS -> NT_SUCCESS (DdkGetRegistryStatus e) = false.
Proof.
  intros N. unfold DdkGetRegistryStatus.
  destruct (Z.eqb_spec e ERROR_SUCCESS); [done |]. by repeat destruct (_ =? _).
Qed.

(** What [get_below] and [DdkGetRegistryKey] leave, for the node [target] looked for. *)
Definition got (create : bool) (w w' : world) (target : tree -> Z + node) (status k : Z) : Prop :=
  same_nodes node_of w w' /\
  (if create then forall n q m, child (tree_of w) n q = inr m -> child (tree_of w') n q = inr m
   else tree_of w' = tree_of w) /\
  (status = STATUS_SUCCESS /\ new_handle w w' k /\ target (tree_of w') = inr (node_of w' k) \/
   NT_SUCCESS status = false /\ k = 0 /\ open_keys w' = open_keys w /\
   (create = false -> exists e, target (tree_of w) = inl e /\ status = DdkGetRegistryStatus e)).

Lemma get_below_hive create s p : ready s ->
  exists status k w, get_below create hive p s = Ok ((status, k), set_win w s) /\
    got create (win s) w (fun t => child t (node_in s hive) p) status k.
Proof.
  intros [O N]. unfold get_below. destruct (is_empty p) eqn:Ep.
  { destruct p; [| done]. exists STATUS_SUCCESS, hive, (win s).
    rewrite (bind_run _ _ _ _ _ (eq_refl : _ = Ok ((STATUS_SUCCESS, hive), s))).
    rewrite Z.eqb_refl. simpl. split; [by destruct s |]. split; [apply same_nodes_refl |]. split; [by destruct create |].
    left. split; [done |]. split; [by left |]. apply child_empty. }
  destruct (open_key_run s create hive p O) as (rc & k & w & E & Hh & Sn & C).
  rewrite (bind_run _ _ s (if negb (rc =? ERROR_SUCCESS) then (DdkGetRegistryStatus rc, 0) else (STATUS_SUCCESS, k)) (set_win w s))
    by (by rewrite (bind_run _ _ _ _ _ E)).
  destruct (Z.eqb_spec rc ERROR_SUCCESS) as [-> | Nr]; cbn [negb].
  - rewrite Z.eqb_refl, andb_false_r. exists STATUS_SUCCESS, k, w. split; [done |]. split; [done |].
    pose proof (open_step _ _ _ _ _ O N eq_refl eq_refl _ Hh) as Hn.
    destruct create; [destruct C as [Cm C]; split; [exact Cm |] | destruct C as [Ct C]; split; [exact Ct |]].
    + left. split; [done |]. split; [done |]. by apply C.
    + left. split; [done |]. split; [done |]. rewrite Ct. unfold tree_in in C.
      destruct (child (tree_of (win s)) (node_in s hive) p) as [e | n] eqn:Ec; [| naive_solver].
      subst e. apply child_error in Ec. done.
  - rewrite Z.eqb_refl, andb_false_r. exists (DdkGetRegistryStatus rc), 0, w. split; [done |]. split; [done |].
    destruct create; [destruct C as [Cm C]; split; [exact Cm |] | destruct C as [Ct C]; split; [exact Ct |]]; right;
      (split; [by apply status_error |]); (split; [done |]); (split; [by apply (handles_error _ _ _ _ _ _ Nr Hh) |]); [done |].
    intros _. unfold tree_in in C. destruct (child (tree_of (win s)) (node_in s hive) p) as [e | n]; [| naive_solver].
    subst e. by exists rc.
Qed.

Lemma swap_key (S W : gset Z) b k : b ∉ S -> k ∉ {[b]} ∪ S -> W = ({[k]} ∪ ({[b]} ∪ S)) ∖ {[b]} ->
  k ∉ S /\ W = {[k]} ∪ S.
Proof. set_solver. Qed.

Lemma back_key (S W : gset Z) b : b ∉ S -> W = ({[b]} ∪ S) ∖ {[b]} -> W = S.
Proof. set_solver. Qed.

(** From a key that has just been opened: it is closed again unless it is the result. *)
Lemma get_below_new create s p b S : ready s -> is_open s b -> b <> hive -> open_keys (win s) = {[b]} ∪ S ->
  b ∉ S -> b <> 0 -> hive ∈ S ->
  exists status k w, get_below create b p s = Ok ((status, k), set_win w s) /\
    same_nodes node_of (win s) w /\
    (if create then forall n q m, child (tree_in s) n q = inr m -> child (tree_of w) n q = inr m
     else tree_of w = tree_in s) /\
    (status = STATUS_SUCCESS /\ (k ∉ S /\ k <> 0 /\ k <> hive /\ open_keys w = {[k]} ∪ S) /\
       child (tree_of w) (node_in s b) p = inr (node_of w k) \/
     NT_SUCCESS status = false /\ k = 0 /\ open_keys w = S /\
       (create = false -> exists e, child (tree_in s) (node_in s b) p = inl e /\ status = DdkGetRegistryStatus e)).
Proof.
  intros [Oh N] O Nb ES NS N0 HS. unfold get_below. destruct (is_empty p) eqn:Ep.
  { destruct p; [| done]. exists STATUS_SUCCESS, b, (win s).
    rewrite (bind_run _ _ _ _ _ (eq_refl : _ = Ok ((STATUS_SUCCESS, b), s))). rewrite Z.eqb_refl. simpl.
    split; [by destruct s |]. split; [apply same_nodes_refl |]. split; [by destruct create |].
    left. split; [done |]. split; [done |]. apply child_empty. }
  destruct (open_key_run s create b p O) as (rc & k & w1 & E & Hh & Sn & C).
  rewrite (bind_run _ _ s (if negb (rc =? ERROR_SUCCESS) then (DdkGetRegistryStatus rc, 0) else (STATUS_SUCCESS, k)) (set_win w1 s))
    by (by rewrite (bind_run _ _ _ _ _ E)).
  unfold handles_after in Hh. rewrite Ep in Hh.
  assert (is_open (set_win w1 s) b) as O1.
  { unfold is_open in *. simpl. destruct (decide (rc = ERROR_SUCCESS)); [destruct Hh as (_ & _ & ->) | by rewrite Hh]. by apply elem_of_union_r. }
  destruct (close_key_run (set_win w1 s) b O1) as (w & Ec & Eo & Sn' & Et). cbn [win set_win] in *.
  assert (open_keys (win s) ⊆ open_keys w1) as Sub
    by (destruct (decide (rc = ERROR_SUCCESS)); [destruct Hh as (_ & _ & ->); apply union_subseteq_r | by rewrite Hh]).
  destruct (Z.eqb_spec rc ERROR_SUCCESS) as [-> | Nr]; cbn [negb].
  - rewrite decide_True in Hh by done. destruct Hh as (Nk & N0k & Ek).
    assert (b <> k) as Nbk by (intros <-; by apply Nk).
    apply Z.eqb_neq in Nbk as ->. apply Z.eqb_neq in Nb as ->. simpl. rewrite (bind_run _ _ _ _ _ Ec).
    exists STATUS_SUCCESS, k, w. split; [done |]. split; [by apply (same_nodes_trans _ w1) |].
    rewrite ES in Nk, Ek. rewrite Ek in Eo. destruct (swap_key _ _ _ _ NS Nk Eo) as [NkS EkS].
    assert (node_of w k = node_of w1 k) as Ek'.
    { apply Sn'; [rewrite Ek | rewrite EkS]; by apply elem_of_union_l, elem_of_singleton. }
    assert (k <> hive) as Nkh by (intros ->; by apply NkS).
    destruct create; [destruct C as [Cm C] | destruct C as [Ct C]].
    + split; [intros n q m; rewrite Et; apply Cm |]. left. split; [done |]. split; [done |].
      rewrite Et, Ek'. by apply C.
    + split; [by rewrite Et |]. left. split; [done |]. split; [done |]. rewrite Et, Ek', Ct. unfold tree_in in *.
      destruct (child (tree_of (win s)) (node_in s b) p) as [e | n] eqn:Ec'; [| naive_solver].
      subst e. apply child_error in Ec'. done.
  - rewrite decide_False in Hh by done. rewrite Hh, ES in Eo.
    apply Z.eqb_neq in N0 as ->. apply Z.eqb_neq in Nb as ->. simpl. rewrite (bind_run _ _ _ _ _ Ec).
    exists (DdkGetRegistryStatus rc), 0, w. split; [done |]. split; [by apply (same_nodes_trans _ w1) |].
    destruct create; [destruct C as [Cm C]; split; [intros n q m; rewrite Et; apply Cm |]
      | destruct C as [Ct C]; split; [by rewrite Et |]]; right;
      (split; [by apply status_error |]); (split; [done |]); (split; [by apply (back_key _ _ b NS) |]); [done |].
    intros _. unfold tree_in in C. destruct (child (tree_of (win s)) (node_in s b) p) as [e | n] eqn:Ec'; [| naive_solver].
    subst e. exists rc. done.
Qed.

Lemma get_key_unfold create s r p rel :
  has r RTL_REGISTRY_HANDLE = false -> DdkGetRelativePath r s = Ok (rel, s) ->
  DdkGetRegistryKey r (AtPath p) create s =
    ('(rc, base) ← (if is_empty (skip_slashes rel) then mret (ERROR_SUCCESS, hive)
                    else open_key create hive (skip_slashes rel));
     if negb (rc =? ERROR_SUCCESS) then mret (DdkGetRegistryStatus rc, 0)
     else get_below create base (skip_slashes p)) s.
Proof. intros Hr Er. unfold DdkGetRegistryKey. rewrite Hr. by rewrite (bind_run _ _ _ _ _ Er). Qed.

Lemma get_key_run create s r p rel : ready s -> has r RTL_REGISTRY_HANDLE = false ->
  DdkGetRelativePath r s = Ok (rel, s) ->
  exists status k w, DdkGetRegistryKey r (AtPath p) create s = Ok ((status, k), set_win w s) /\
    got create (win s) w (fun t => resolve t (node_in s hive) rel p) status k.
Proof.
  intros Rd Hr Er. rewrite (get_key_unfold _ _ _ _ _ Hr Er). unfold resolve.
  destruct (is_empty (skip_slashes rel)) eqn:Ep.
  { destruct (skip_slashes rel); [| done]. rewrite (bind_run _ _ _ _ _ (eq_refl : _ = Ok ((ERROR_SUCCESS, hive), s))).
    destruct (get_below_hive create s (skip_slashes p) Rd) as (status & k & w & E & Sn & C & G).
    exists status, k, w. split; [exact E |]. split; [done |]. split; [done |].
    destruct G as [(? & ? & G) | (? & ? & ? & G)]; [left | right]; (split; [done |]); (split; [done |]);
      [| split; [done |]; intros Hc; destruct (G Hc) as (e & ? & ?); exists e; split; [| done]]; by rewrite child_empty. }
  pose proof Rd as [O N]. destruct (open_key_run s create hive (skip_slashes rel) O) as (rc & k1 & w1 & E & Hh & Sn & C).
  rewrite (bind_run _ _ _ _ _ E). unfold handles_after in Hh. rewrite Ep in Hh.
  destruct (Z.eqb_spec rc ERROR_SUCCESS) as [-> | Nr]; cbn [negb].
  - rewrite decide_True in Hh by done. destruct Hh as (Nk & N0 & Ek).
    assert (k1 <> hive) as Nh by (intros ->; by apply Nk).
    assert (hive ∈ open_keys w1) as O1 by (rewrite Ek; by apply elem_of_union_r).
    destruct (get_below_new create (set_win w1 s) (skip_slashes p) k1 (open_keys (win s))) as
      (status & k & w & E2 & Sn2 & C2 & G); try done.
    { unfold is_open. simpl. rewrite Ek. by apply elem_of_union_l, elem_of_singleton. }
    exists status, k, w. split; [exact E2 |].
    split; [apply (same_nodes_trans _ w1); [rewrite Ek; apply union_subseteq_r | done | done] |].
    assert (if create then forall n q m, child (tree_of (win s)) n q = inr m -> child (tree_of w) n q = inr m
            else tree_of w = tree_of (win s)) as Cw.
    { destruct create; [destruct C as [Cm _]; intros n q m Hq; by apply C2, Cm | destruct C as [Ct _]; by rewrite C2]. }
    split; [exact Cw |].
    assert (child (tree_of w) (node_in s hive) (skip_slashes rel) = inr (node_of w1 k1)) as Ew.
    { destruct create; [apply C2, C; done |]. destruct C as [Ct C]. rewrite C2. unfold tree_in. simpl. rewrite Ct.
      destruct (child _ _ _) as [e |] eqn:Ec in C; [| destruct C as [_ <-]; exact Ec]. subst e. by apply child_error in Ec. }
    destruct G as [(? & (? & ? & ? & ?) & G) | (? & ? & ? & G)].
    + left. split; [done |]. split; [by right |]. by rewrite Ew.
    + right. split; [done |]. split; [done |]. split; [done |]. intros ->. destruct (G eq_refl) as (e & Ge & ?). exists e.
      split; [| done]. rewrite <- Cw, Ew, C2. exact Ge.
  - rewrite decide_False in Hh by done. exists (DdkGetRegistryStatus rc), 0, w1. split; [done |]. split; [done |].
    split; [by destruct create; [apply C | destruct C] |]. right. split; [by apply status_error |]. split; [done |]. split; [done |].
    intros ->. destruct C as [_ C]. exists rc. unfold tree_in in C. destruct (child _ _ _) as [e |]; [by subst | naive_solver].
Qed.

(** ** Calls with a path *)

(** Every handle there was, and no other. *)
Definition restored (w w' : world) : Prop := open_keys w' = open_keys w /\ same_nodes node_of w w'.

Lemma restored_ready s w : restored (win s) w -> ready s -> ready (set_win w s).
Proof. intros [E _] [O N]. split; [| done]. unfold is_open in *. simpl. by rewrite E. Qed.

Lemma restored_node s w : ready s -> restored (win s) w -> node_of w hive = node_in s hive.
Proof. intros [O _] [E Sn]. apply Sn; [done | by rewrite E]. Qed.

Lemma restored_trans w w1 w2 : restored w w1 -> restored w1 w2 -> restored w w2.
Proof.
  intros [E1 S1] [E2 S2]. split; [by rewrite E2 |]. apply (same_nodes_trans _ w1); [by rewrite E1 | done | done].
Qed.

Lemma new_handle_open w w' k : hive ∈ open_keys w -> new_handle w w' k -> k ∈ open_keys w'.
Proof. intros O [(-> & ->) | (_ & _ & _ & ->)]; [done | by apply elem_of_union_l, elem_of_singleton]. Qed.

Lemma new_handle_sub w w' k : new_handle w w' k -> open_keys w ⊆ open_keys w'.
Proof. intros [(_ & ->) | (_ & _ & _ & ->)]; [done | apply union_subseteq_r]. Qed.

Lemma new_handle_nonzero w w' k : hive <> 0 -> new_handle w w' k -> k <> 0.
Proof. intros N [(-> & _) | (_ & N0 & _)]; done. Qed.

Lemma back_key' (S W : gset Z) k : k ∉ S -> W = ({[k]} ∪ S) ∖ {[k]} -> W = S.
Proof. set_solver. Qed.

(** Closing the key that [DdkGetRegistryKey] has found, after a change that leaves the
    handles alone. *)
Lemma close_found s w w1 k : ready s -> new_handle (win s) w k -> same_nodes node_of (win s) w ->
  open_keys w1 = open_keys w -> same_nodes node_of w w1 ->
  exists w2, (if negb (k =? hive) then close_key k else mret tt) (set_win w1 s) = Ok (tt, set_win w2 s) /\
    restored (win s) w2 /\ tree_of w2 = tree_of w1.
Proof.
  intros [O N] Hn Sn Eo S1.
  assert (same_nodes node_of (win s) w1) as S01 by (apply (same_nodes_trans _ w); [by eapply new_handle_sub | done | done]).
  destruct Hn as [(-> & Ek) | (Nk & N0 & Nh & Ek)].
  - rewrite Z.eqb_refl. exists w1. split; [done |]. split; [| done]. split; [congruence | done].
  - apply Z.eqb_neq in Nh as ->. cbn [negb].
    destruct (close_key_run (set_win w1 s) k) as (w2 & E2 & Eo2 & Sn2 & Et2).
    { unfold is_open. simpl. rewrite Eo, Ek. by apply elem_of_union_l, elem_of_singleton. }
    exists w2. split; [exact E2 |]. split; [| done]. cbn [win set_win] in *. rewrite Eo, Ek in Eo2.
    split; [by apply (back_key' _ _ k) |].
    apply (same_nodes_trans _ w1); [rewrite Eo, Ek; apply union_subseteq_r | done | done].
Qed.

(** The same, where the code also asks whether the key is null. *)
Lemma close_unless_found s w k : ready s -> new_handle (win s) w k -> same_nodes node_of (win s) w ->
  exists w2, close_unless_hive k (set_win w s) = Ok (tt, set_win w2 s) /\ restored (win s) w2 /\ tree_of w2 = tree_of w.
Proof.
  intros R Hn Sn. unfold close_unless_hive. destruct (Z.eqb_spec k 0) as [-> | _]; cbn [negb andb].
  - destruct R as [_ N]. by destruct (new_handle_nonzero _ _ _ N Hn).
  - destruct (close_found s w w k R Hn Sn eq_refl (same_nodes_refl w)) as (w2 & E & ?). by exists w2.
Qed.

Lemma close_unless_zero (s : rstate) : close_unless_hive 0 s = Ok (tt, s).
Proof. done. Qed.

Lemma create_key_run s r p rel : ready s -> has r RTL_REGISTRY_HANDLE = false ->
  DdkGetRelativePath r s = Ok (rel, s) ->
  exists w, DdkCreateRegistryKey r (AtPath p) s = Ok (tt, set_win w s) /\ restored (win s) w.
Proof.
  intros Rd Hr Er. unfold DdkCreateRegistryKey.
  destruct (get_key_run true s r p rel Rd Hr Er) as (status & k & w & E & Sn & C & G).
  rewrite (bind_run _ _ _ _ _ E). destruct G as [(_ & Hn & _) | (_ & -> & Eo & _)].
  - destruct (close_unless_found s w k Rd Hn Sn) as (w2 & E2 & R2 & _). by exists w2.
  - exists w. split; [apply close_unless_zero |]. by split.
Qed.

(** [DdkCheckKeyExists] without a copy of the path. *)
Lemma check_run s r p rel : ready s -> has r RTL_REGISTRY_HANDLE = false -> DdkGetRelativePath r s = Ok (rel, s) ->
  exists w, ('(_, key) ← DdkGetRegistryKey r (AtPath p) false;
     _ ← close_unless_hive key; mret (negb (key =? 0))) s =
      Ok (match resolve (tree_in s) (node_in s hive) rel p with inl _ => false | inr _ => true end, set_win w s) /\
    restored (win s) w /\ tree_of w = tree_in s.
Proof.
  intros Rd Hr Er. destruct (get_key_run false s r p rel Rd Hr Er) as (status & k & w & E & Sn & C & G).
  rewrite (bind_run _ _ _ _ _ E). destruct G as [(_ & Hn & Gt) | (_ & -> & Eo & Ge)].
  - destruct (close_unless_found s w k Rd Hn Sn) as (w2 & E2 & R2 & T2). rewrite (bind_run _ _ _ _ _ E2).
    exists w2. rewrite C in Gt. unfold tree_in. rewrite Gt. destruct Rd as [_ N].
    pose proof (new_handle_nonzero _ _ _ N Hn) as N0. apply Z.eqb_neq in N0 as ->. by rewrite T2, C.
  - rewrite (bind_run _ _ _ _ _ (close_unless_zero _)). exists w.
    destruct (Ge eq_refl) as (e & Ee & _). unfold tree_in. rewrite Ee. by split.
Qed.

Lemma check_key_run dup s r p rel : ready s -> has r RTL_REGISTRY_HANDLE = false -> DdkGetRelativePath r s = Ok (rel, s) ->
  exists w, RtlCheckRegistryKey dup r (AtPath p) s =
      Ok (match resolve (tree_in s) (node_in s hive) rel p with
          | inl _ => STATUS_OBJECT_NAME_NOT_FOUND | inr _ => STATUS_SUCCESS end, set_win w s) /\
    restored (win s) w /\ tree_of w = tree_in s.
Proof.
  intros Rd Hr Er. destruct (check_run s r p rel Rd Hr Er) as (w & E & R & T). exists w. split; [| done].
  unfold RtlCheckRegistryKey, DdkCheckKeyExists. rewrite Hr. cbn [andb].
  revert E. unfold mbind, M_bind, mret, M_ret.
  destruct (DdkGetRegistryKey r (AtPath p) false s) as [[[st k] s1] |]; [| done].
  destruct (close_unless_hive k s1) as [[[] s2] |]; [| done]. intros [= -> ->]. by destruct (resolve _ _ _ _).
Qed.

(** The path of a call does not depend on anything but the thread. *)
Lemma relative_path_run r s s1 rel : DdkGetRelativePath r s = Ok (rel, s) -> SystemThread s1 = SystemThread s ->
  DdkGetRelativePath r s1 = Ok (rel, s1).
Proof.
  unfold DdkGetRelativePath, mbind, M_bind, gets, mret, M_ret, fail. intros E ->. revert E.
  repeat match goal with |- context [if ?b then _ else _] => destruct b end; intros [= <-]; done.
Qed.

(** RtlCreateRegistryKey, whatever comes of it: no handle and no buffer is left. *)
Lemma create_registry_key_run dup s r p rel : ready s -> has r RTL_REGISTRY_HANDLE = false ->
  DdkGetRelativePath r s = Ok (rel, s) ->
  exists st w, RtlCreateRegistryKey dup r (AtPath p) s = Ok (st, set_win w s) /\ restored (win s) w.
Proof.
  intros Rd Hr Er. unfold RtlCreateRegistryKey.
  assert (exists b w, DdkCheckKeyExists dup r (AtPath p) true s = Ok (b, set_win w s) /\ restored (win s) w) as (b & w & E & Rw).
  { unfold DdkCheckKeyExists. rewrite Hr. cbn [andb]. destruct (negb dup).
    { exists false, (win s). split; [by destruct s |]. split; [done | apply same_nodes_refl]. }
    set (s1 := set_bufs (fun n => n + 1) s). rewrite (bind_run _ _ s tt s1) by done.
    assert (ready s1) as Rd1 by exact Rd.
    destruct (check_run s1 r (default [] (before_last p)) rel Rd1 Hr (relative_path_run _ _ s1 _ Er eq_refl))
      as (w & E & Rw & _). revert E. unfold mbind, M_bind, mret, M_ret.
    destruct (DdkGetRegistryKey r _ false s1) as [[[st k] s2] |]; [| done].
    destruct (close_unless_hive k s2) as [[[] s3] |]; [| done]. intros [= -> ->].
    eexists _, w. split; [| exact Rw]. unfold free_buf, modify. do 2 f_equal. destruct s. unfold set_bufs, set_win, s1. simpl. f_equal. lia. }
  rewrite (bind_run _ _ _ _ _ E). destruct b; cbn [negb]; [| by exists STATUS_OBJECT_NAME_NOT_FOUND, w].
  pose proof (restored_ready s w Rw Rd) as Rd1.
  destruct (get_key_run true (set_win w s) r p rel Rd1 Hr (relative_path_run _ _ (set_win w s) _ Er eq_refl))
    as (st & k & w1 & E1 & Sn & C & G). rewrite (bind_run _ _ _ _ _ E1).
  destruct G as [(-> & Hk & _) | (Es & -> & Eo & _)].
  - change (negb (NT_SUCCESS STATUS_SUCCESS)) with false. cbn iota.
    destruct (close_found (set_win w s) w1 w1 k Rd1 Hk Sn eq_refl (same_nodes_refl w1)) as (w2 & E2 & R2 & _).
    rewrite set_win_twice in E2. rewrite set_win_twice. rewrite (bind_run _ _ _ _ _ E2).
    exists STATUS_SUCCESS, w2. split; [done |]. by apply (restored_trans _ w).
  - rewrite Es. cbn [negb]. exists st, w1. split; [done |]. apply (restored_trans _ w); [done |]. by split.
Qed.

Lemma close_opened_run s w w1 r k : ready s -> has r RTL_REGISTRY_HANDLE = false -> new_handle (win s) w k ->
  same_nodes node_of (win s) w -> open_keys w1 = open_keys w -> same_nodes node_of w w1 ->
  exists w2, close_opened r k (set_win w1 s) = Ok (tt, set_win w2 s) /\ restored (win s) w2 /\ tree_of w2 = tree_of w1.
Proof. intros R Hr. unfold close_opened. rewrite Hr. by apply close_found. Qed.

(** What writing a value leaves. *)
Definition written (s : rstate) (rel p : wstring) (v : option wstring) (t : Z) (d : list Z) (status : Z) (w : world) : Prop :=
  restored (win s) w /\
  match resolve (tree_in s) (node_in s hive) rel p with
  | inl e => status = DdkGetRegistryStatus e /\ tree_of w = tree_in s
  | inr n => child (tree_of w) = child (tree_in s) /\
      (status = STATUS_SUCCESS -> lookup_value (tree_of w) n v = inr (t, d))
  end.

Lemma status_success rc : DdkGetRegistryStatus rc = STATUS_SUCCESS -> rc = ERROR_SUCCESS.
Proof.
  unfold DdkGetRegistryStatus. destruct (Z.eqb_spec rc ERROR_SUCCESS); [done |]. by repeat destruct (_ =? _).
Qed.

Lemma write_run s r p rel v t data n : ready s -> has r RTL_REGISTRY_HANDLE = false ->
  DdkGetRelativePath r s = Ok (rel, s) -> 0 <= n <= Z.of_nat (length data) ->
  exists status w, RtlWriteRegistryValue r (AtPath p) v t data n s = Ok (status, set_win w s) /\
    written s rel p v t (take (Z.to_nat n) data) status w.
Proof.
  intros Rd Hr Er Hn. unfold RtlWriteRegistryValue, written.
  destruct (get_key_run false s r p rel Rd Hr Er) as (status & k & w & E & Sn & C & G).
  rewrite (bind_run _ _ _ _ _ E). destruct G as [(-> & Hk & Gt) | (Es & -> & Eo & Ge)].
  - cbn [NT_SUCCESS]. change (negb (NT_SUCCESS STATUS_SUCCESS)) with false. cbn iota.
    rewrite (bind_run _ _ _ _ _ (lift_run _ _ (set_win w s) (bytes_of_run _ _ Hn))).
    assert (k ∈ open_keys w) as Ok' by (apply (new_handle_open (win s)); [apply Rd | done]).
    destruct (set_law w k v t (take (Z.to_nat n) data) Ok') as (rc & w1 & Ew & Eo & S1 & Ch & Lv).
    rewrite (bind_run _ _ _ _ _ (reg_change_run (set_win w s) k _ rc w1 Ok' Ew)).
    destruct (close_opened_run s w w1 r k Rd Hr Hk Sn Eo S1) as (w2 & E2 & R2 & T2).
    rewrite set_win_twice. rewrite (bind_run _ _ _ _ _ E2). eexists _, w2. split; [reflexivity |]. split; [done |].
    rewrite C in Gt. unfold tree_in. rewrite Gt, T2. split; [by rewrite Ch, C |]. intros Hs. by apply Lv, status_success.
  - rewrite Es. cbn [negb]. exists status, w. split; [done |]. split; [by split |].
    destruct (Ge eq_refl) as (e & Ee & ->). unfold tree_in. rewrite Ee. by rewrite C.
Qed.

(** Writing a value by path reaches the key at that path: if there is none the
    call fails with that error and nothing changes, otherwise a call that succeeds
    leaves the value with its type and the bytes given, and no key appears or goes.  In
    every case the handles open are those before. *)
Theorem RtlWriteRegistryValue_spec s r p rel v t data n (Rd : ready s)
    (Hr : has r RTL_REGISTRY_HANDLE = false) (Er : DdkGetRelativePath r s = Ok (rel, s))
    (Hn : 0 <= n <= Z.of_nat (length data)) :
  exists status w, RtlWriteRegistryValue r (AtPath p) v t data n s = Ok (status, set_win w s) /\
    written s rel p v t (take (Z.to_nat n) data) status w.
Proof. exact (write_run s r p rel v t data n Rd Hr Er Hn). Qed.

Lemma delete_value_run s r p rel v : ready s -> has r RTL_REGISTRY_HANDLE = false ->
  DdkGetRelativePath r s = Ok (rel, s) ->
  exists status w, RtlDeleteRegistryValue r (AtPath p) v s = Ok (status, set_win w s) /\ restored (win s) w /\
    (resolve (tree_in s) (node_in s hive) rel p = inl ERROR_FILE_NOT_FOUND -> status = STATUS_SUCCESS).
Proof.
  intros Rd Hr Er. unfold RtlDeleteRegistryValue.
  destruct (get_key_run false s r p rel Rd Hr Er) as (status & k & w & E & Sn & C & G).
  rewrite (bind_run _ _ _ _ _ E). destruct G as [(-> & Hk & Gt) | (Es & -> & Eo & Ge)].
  - change (negb (NT_SUCCESS STATUS_SUCCESS)) with false. cbn iota.
    assert (k ∈ open_keys w) as Ok' by (apply (new_handle_open (win s)); [apply Rd | done]).
    destruct (remove_law w k v Ok') as (rc & w1 & Ew & Eo & S1 & _).
    rewrite (bind_run _ _ _ _ _ (reg_change_run (set_win w s) k _ rc w1 Ok' Ew)).
    destruct (close_opened_run s w w1 r k Rd Hr Hk Sn Eo S1) as (w2 & E2 & R2 & T2).
    rewrite set_win_twice. rewrite (bind_run _ _ _ _ _ E2). eexists _, w2. split; [reflexivity |]. split; [done |].
    unfold tree_in. rewrite C in Gt. by rewrite Gt.
  - rewrite Es. cbn [negb]. eexists _, w. split; [reflexivity |]. split; [by split |]. intros Hf.
    destruct (Ge eq_refl) as (e & Ee & ->). unfold tree_in in Hf. rewrite Ee in Hf. by injection Hf as ->.
Qed.

End spec.
