(* ===== verification/RegistryRead.v ===== *)
(** * RegistryRead: reading a value and taking it apart

    The loop that reads a value ends within three rounds, whatever its size, with the
    data in a buffer that has room for three more characters.  The strings in such a
    buffer are found without reading past its end, also when the data has an odd length
    or no NUL. *)

From S2P Require Import Prelude Strings StringsOps Objects Memory Registry RegistryQuery RegistrySpec.

Definition is_byte (b : Z) : Prop := 0 <= b < 256.

(** The characters of some bytes; half a character at the end is completed with 0. *)
Fixpoint wchars (d : list Z) : wstring :=
  match d with
  | lo :: hi :: d => lo + 256 * hi :: wchars d
  | [lo] => [lo]
  | [] => []
  end.

(** The strings in a list of characters: each ends with a NUL or the list, and the list
    of them with an empty one. *)
Fixpoint multi (acc ws : wstring) : list wstring :=
  match ws with
  | [] => if is_empty acc then [] else [acc]
  | c :: ws =>
      if c =? 0 then (if is_empty acc then [] else acc :: multi [] ws) else multi (acc ++ [c]) ws
  end.

Fixpoint first_string (ws : wstring) : wstring :=
  match ws with
  | [] => []
  | c :: ws => if c =? 0 then [] else c :: first_string ws
  end.

(** ** Characters in a buffer *)

Definition nonzero (s : wstring) : Prop := Forall (fun c => c <> 0) s.

Lemma encode_cons c s : encode (c :: s) = c mod 256 :: c / 256 :: encode s.
Proof. done. Qed.

(** From character [i] on, the buffer has the characters [ws]. *)
Definition has_chars (b : list Z) (i : nat) (ws : wstring) : Prop :=
  exists post, drop (2 * i) b = encode ws ++ post.

Lemma has_chars_drop b i s ws : has_chars b i (s ++ ws) -> has_chars b (i + length s) ws.
Proof.
  intros [post E]. exists post. replace (2 * (i + length s))%nat with (2 * i + length (encode s))%nat by (rewrite encode_length; lia).
  rewrite <- drop_drop, E, encode_app, <- app_assoc. by rewrite drop_app_length.
Qed.

Lemma has_chars_next b i s c ws : has_chars b i (s ++ c :: ws) -> has_chars b (i + length s + 1) ws.
Proof. intros Hb. by apply (has_chars_drop b (i + length s) [c]), has_chars_drop. Qed.

Lemma has_chars_take b i s ws : has_chars b i (s ++ ws) -> has_chars b i s.
Proof. intros [post E]. exists (encode ws ++ post). by rewrite E, encode_app, app_assoc. Qed.

Lemma has_chars_bytes b i s : has_chars b i s -> take (2 * length s) (drop (2 * i) b) = encode s.
Proof. intros [post ->]. rewrite <- encode_length. by rewrite take_app_length. Qed.

Lemma array_get_at {A} (b : list A) i x : b !! i = Some x -> array_get b (Z.of_nat i) = Ok x.
Proof.
  intros E. unfold array_get. pose proof (lookup_lt_Some _ _ _ E).
  replace ((0 <=? Z.of_nat i) && (Z.of_nat i <? Z.of_nat (length b))) with true by lia. by rewrite Nat2Z.id, E.
Qed.

Lemma wchar_at_has b i c ws : has_chars b i (c :: ws) -> wchar_at b (Z.of_nat i) = Ok c.
Proof.
  intros [post E]. rewrite encode_cons in E. unfold wchar_at.
  assert (b !! (2 * i)%nat = Some (c mod 256)) as E0.
  { rewrite <- (Nat.add_0_r (2 * i)), <- lookup_drop, E. done. }
  assert (b !! (2 * i + 1)%nat = Some (c / 256)) as E1 by (rewrite <- lookup_drop, E; done).
  replace (2 * Z.of_nat i + 1) with (Z.of_nat (2 * i + 1)) by lia. replace (2 * Z.of_nat i) with (Z.of_nat (2 * i)) by lia.
  rewrite (array_get_at _ _ _ E0), bind_ok, (array_get_at _ _ _ E1), bind_ok.
  f_equal. pose proof (Z.div_mod c 256). lia.
Qed.

Lemma skip_string_run b s : forall fuel i ws, nonzero s -> has_chars b i (s ++ 0 :: ws) -> (length s < fuel)%nat ->
  skip_string fuel b (Z.of_nat i) = Ok (Z.of_nat (i + length s + 1)).
Proof.
  induction s as [|c s IH]; intros [|fuel] i ws Ns Hb Hf; simpl in Hf; try lia; cbn [skip_string].
  - rewrite (wchar_at_has _ _ _ _ Hb). simpl. f_equal. lia.
  - inversion Ns as [|? ? Nc Ns']; subst. rewrite (wchar_at_has _ _ _ _ Hb). simpl.
    apply Z.eqb_neq in Nc as ->. replace (Z.of_nat i + 1) with (Z.of_nat (i + 1)) by lia.
    rewrite (IH fuel (i + 1)%nat ws Ns'); [| by apply (has_chars_drop b i [c]) | lia]. f_equal. simpl. lia.
Qed.

Lemma has_chars_length b i ws : has_chars b i ws -> (2 * length ws <= length b)%nat.
Proof.
  intros [post E]. apply (f_equal length) in E. rewrite length_drop, length_app, encode_length in E. lia.
Qed.

(** A list without NUL, or up to the first one. *)
Lemma first_nul ws : nonzero ws \/ exists s ws', ws = s ++ 0 :: ws' /\ nonzero s.
Proof.
  induction ws as [|c ws IH]; [left; constructor |]. destruct (decide (c = 0)) as [-> | N].
  - right. exists [], ws. by split; [| constructor].
  - destruct IH as [IH | (s & ws' & -> & Ns)]; [left; by constructor |]. right. exists (c :: s), ws'. by split; [| constructor].
Qed.

Lemma multi_nonzero s : forall acc, nonzero s -> multi acc s = if is_empty (acc ++ s) then [] else [acc ++ s].
Proof.
  induction s as [|c s IH]; intros acc Ns; cbn [multi].
  - by rewrite app_nil_r.
  - inversion Ns as [|? ? Nc Ns']; subst. apply Z.eqb_neq in Nc as ->. rewrite (IH _ Ns'). by rewrite <- app_assoc.
Qed.

Lemma multi_nul s ws : forall acc, nonzero s ->
  multi acc (s ++ 0 :: ws) = if is_empty (acc ++ s) then [] else (acc ++ s) :: multi [] ws.
Proof.
  induction s as [|c s IH]; intros acc Ns.
  - by rewrite app_nil_r.
  - inversion Ns as [|? ? Nc Ns']; subst. cbn [app multi]. apply Z.eqb_neq in Nc as ->. rewrite (IH _ Ns'). by rewrite <- app_assoc.
Qed.

Lemma first_string_nonzero s : nonzero s -> first_string s = s.
Proof. induction 1 as [|c s Nc Ns IH]; [done |]. simpl. apply Z.eqb_neq in Nc as ->. by rewrite IH. Qed.

Lemma first_string_nul s ws : nonzero s -> first_string (s ++ 0 :: ws) = s.
Proof. induction 1 as [|c s Nc Ns IH]; [done |]. simpl. apply Z.eqb_neq in Nc as ->. by rewrite IH. Qed.

(** Data followed by three characters of zeros has its own characters and two NULs. *)
Lemma chars_ind (P : list Z -> Prop) : P [] -> (forall x, P [x]) -> (forall x y l, P l -> P (x :: y :: l)) -> forall l, P l.
Proof.
  intros P0 P1 P2 l. enough (P l /\ forall x, P (x :: l)) by tauto. induction l as [|x l [IH1 IH2]]; [done |].
  split; [apply IH2 | intros y; by apply P2].
Qed.

Lemma chars_encode d : Forall is_byte d -> exists pad, encode (wchars d) = d ++ pad /\ (pad = [] \/ pad = [0]).
Proof.
  induction d as [|x|x y d IH] using chars_ind; intros Hd.
  - exists []. split; [done | by left].
  - exists [0]. inversion Hd as [|? ? Hx]; subst. split; [| by right]. simpl. unfold encode. simpl.
    rewrite Z.mod_small, Z.div_small by done. done.
  - inversion Hd as [|? ? Hx Hd']; subst. inversion Hd' as [|? ? Hy Hd'']; subst. unfold is_byte in *.
    destruct (IH Hd'') as (pad & E & Hp). exists pad. split; [| done]. cbn [wchars]. rewrite encode_cons, E.
    rewrite (Z.mul_comm 256), Z.mod_add, Z.div_add, Z.mod_small, Z.div_small by lia. done.
Qed.

Definition zeros6 : list Z := [0; 0; 0; 0; 0; 0].

Lemma data_chars d rest : Forall is_byte d -> has_chars (d ++ zeros6 ++ rest) 0 (wchars d ++ [0; 0]).
Proof.
  intros Hd. destruct (chars_encode d Hd) as (pad & E & Hp). unfold has_chars. rewrite Nat.mul_0_r, drop_0.
  rewrite encode_app, E. destruct Hp as [-> | ->].
  - exists ([0; 0] ++ rest). by rewrite app_nil_r, <- app_assoc.
  - exists ([0] ++ rest). by rewrite <- !app_assoc.
Qed.

(** ** The calls of a routine *)

Section read.
Context `{Environment} `{WINREG} `{!WINREG_Laws} `{QUERY_ROUTINES}.
Context (realloc : Z -> option (list Z)).

(** A routine is told of this much of a call: the data, and a NUL after it. *)
Definition trim (c : query_call) : query_call :=
  mkCall (ValueName c) (ValueType c) (take (Z.to_nat (ValueLength c) + 2) (ValueData c)) (ValueLength c)
    (Context_ c) (CallContext c).

(** Routines read no more than they are told of. *)
Class QUERY_Laws := routine_trim f c d : routine f c d = routine f (trim c) d.
Context `{!QUERY_Laws}.

(** The calls made of those in a list, until one fails: the status, what becomes of the
    driver, and the calls. *)
Fixpoint run_calls (f : Z) (cs : list query_call) (status : Z) (d : driver) : Z * driver * list query_call :=
  match cs with
  | [] => (status, d, [])
  | c :: cs =>
      let '(status, d) := routine f c d in
      if NT_SUCCESS status then let '(status, d, made) := run_calls f cs status d in (status, d, c :: made)
      else (status, d, [c])
  end.

(** From [s] to [s'] these calls have been made, and nothing else has happened. *)
Record delivered (s s' : rstate) (cs : list query_call) (d : driver) : Prop := {
  dl_kern : kern s' = kern s;
  dl_win : win s' = win s;
  dl_memory : memory s' = memory s;
  dl_bufs : bufs s' = bufs s;
  dl_thread : SystemThread s' = SystemThread s;
  dl_drv : drv s' = d;
  dl_calls : map trim (query_calls s') = map trim (query_calls s) ++ cs
}.

Lemma delivered_refl s : delivered s s [] (drv s).
Proof. split; try done. by rewrite app_nil_r. Qed.

Lemma delivered_trans s s1 s2 cs1 cs2 d1 d2 :
  delivered s s1 cs1 d1 -> delivered s1 s2 cs2 d2 -> delivered s s2 (cs1 ++ cs2) d2.
Proof. intros [] []. split; try congruence. rewrite app_assoc. congruence. Qed.

Lemma call_routine_run f c s :
  exists s', call_routine f c s = Ok ((routine f (trim c) (drv s)).1, s') /\
    delivered s s' [trim c] (routine f (trim c) (drv s)).2.
Proof.
  unfold call_routine. rewrite (bind_run _ _ _ _ _ (gets_run drv s)). rewrite (routine_trim f c).
  destruct (routine f (trim c) (drv s)) as [st d]. eexists. split; [reflexivity |]. split; try done. simpl. by rewrite map_app.
Qed.

Definition value_call (qp : RTL_QUERY_REGISTRY_TABLE) (ctx t : Z) (d : list Z) : query_call :=
  mkCall (QueryName qp) t (d ++ [0; 0]) (Z.of_nat (length d)) ctx (EntryContext qp).

Definition string_call (qp : RTL_QUERY_REGISTRY_TABLE) (ctx : Z) (s : wstring) : query_call :=
  value_call qp ctx REG_SZ (encode s).

Lemma trim_string qp ctx b i s ws : has_chars b i (s ++ 0 :: ws) ->
  trim (query_call_of qp REG_SZ (drop (2 * i) b) (Z.of_nat (2 * length s)) ctx) = string_call qp ctx s.
Proof.
  intros Hb. unfold trim, string_call, value_call, query_call_of.
  cbn [ValueName ValueType ValueData ValueLength Context_ CallContext]. rewrite encode_length. f_equal.
  rewrite Nat2Z.id. replace (s ++ 0 :: ws) with ((s ++ [0]) ++ ws) in Hb by (by rewrite <- app_assoc).
  apply has_chars_take, has_chars_bytes in Hb. rewrite length_app in Hb. cbn [length] in Hb.
  replace (2 * length s + 2)%nat with (2 * (length s + 1))%nat by lia. rewrite Hb. by rewrite encode_app.
Qed.

(** One round of the loop: it ends at an empty string, and otherwise calls the routine. *)
Lemma strings_stop fuel qp t b ctx i status s ws : has_chars b i (0 :: ws) ->
  strings_loop (S fuel) qp t b ctx false (Z.of_nat i) status s = Ok (status, s).
Proof.
  intros Hb. cbn [strings_loop].
  rewrite (bind_run _ _ _ _ _ (lift_run _ _ s (skip_string_run b [] (fuel_of b) i ws ltac:(constructor) Hb ltac:(unfold fuel_of; simpl; lia)))).
  simpl. replace (i + 0 + 1)%nat with (i + 1)%nat by lia. replace (Z.of_nat (i + 1)) with (Z.of_nat i + 1) by lia.
  by rewrite Z.eqb_refl.
Qed.

Lemma strings_step fuel qp t b ctx i status s x ws : has_chars b i (x ++ 0 :: ws) -> nonzero x -> x <> [] ->
  Z.of_nat (length b) < 2 ^ 32 ->
  exists s', delivered s s' [string_call qp ctx x] (routine (QueryRoutine qp) (string_call qp ctx x) (drv s)).2 /\
    strings_loop (S fuel) qp t b ctx false (Z.of_nat i) status s =
      (let st := (routine (QueryRoutine qp) (string_call qp ctx x) (drv s)).1 in
       if NT_SUCCESS st && (t =? REG_MULTI_SZ)
       then strings_loop fuel qp t b ctx false (Z.of_nat (i + length x + 1)) st s' else Ok (st, s')).
Proof.
  intros Hb Nx Ex Bl. cbn [strings_loop]. pose proof (has_chars_length _ _ _ Hb) as Lb.
  rewrite length_app in Lb. simpl in Lb.
  rewrite (bind_run _ _ _ _ _ (lift_run _ _ s (skip_string_run b x (fuel_of b) i ws Nx Hb ltac:(unfold fuel_of; lia)))).
  assert (0 < length x)%nat as Px by (destruct x; [done | simpl; lia]).
  replace (Z.of_nat (i + length x + 1) =? Z.of_nat i + 1) with false by (symmetry; apply Z.eqb_neq; lia).
  rewrite (bind_run _ _ _ tt s) by (by destruct (t =? REG_EXPAND_SZ)).
  replace (u32 ((Z.of_nat (i + length x + 1) - Z.of_nat i - 1) * 2)) with (Z.of_nat (2 * length x))
    by (rewrite u32_id; lia).
  replace (Z.to_nat (2 * Z.of_nat i)) with (2 * i)%nat by lia.
  destruct (call_routine_run (QueryRoutine qp) (query_call_of qp REG_SZ (drop (2 * i) b) (Z.of_nat (2 * length x)) ctx) s)
    as (s' & E & D).
  rewrite (trim_string _ _ _ _ _ _ Hb) in E, D. exists s'. split; [exact D |]. rewrite (bind_run _ _ _ _ _ E). simpl.
  by destruct (NT_SUCCESS _ && _).
Qed.

Lemma multi_run qp b ctx : Z.of_nat (length b) < 2 ^ 32 -> forall n ws fuel i status s,
  (length ws <= n)%nat -> (n < fuel)%nat -> has_chars b i (ws ++ [0; 0]) ->
  exists status' d made s',
    run_calls (QueryRoutine qp) (map (string_call qp ctx) (multi [] ws)) status (drv s) = (status', d, made) /\
    strings_loop fuel qp REG_MULTI_SZ b ctx false (Z.of_nat i) status s = Ok (status', s') /\ delivered s s' made d.
Proof.
  intros Bl. induction n as [|n IH]; intros ws [|fuel] i status s Lw Lf Hb; try lia.
  { destruct ws; [| simpl in Lw; lia]. exists status, (drv s), [], s. split; [done |].
    split; [by apply (strings_stop _ _ _ _ _ _ _ _ [0]) | apply delivered_refl]. }
  destruct (first_nul ws) as [Nw | (x & ws' & -> & Nx)].
  - destruct ws as [|c ws].
    { exists status, (drv s), [], s. split; [done |]. split; [by apply (strings_stop _ _ _ _ _ _ _ _ [0]) | apply delivered_refl]. }
    set (x := c :: ws) in *. rewrite (multi_nonzero _ _ Nw). cbn [app is_empty x map].
    destruct (strings_step fuel qp REG_MULTI_SZ b ctx i status s x [0] Hb Nw ltac:(done) Bl) as (s1 & D1 & E1).
    rewrite E1. cbn [run_calls]. destruct (routine (QueryRoutine qp) (string_call qp ctx x) (drv s)) as [st d] eqn:Er.
    cbn [fst snd] in *. rewrite Z.eqb_refl, andb_true_r. destruct (NT_SUCCESS st); [| by exists st, d, [string_call qp ctx x], s1].
    exists st, d, [string_call qp ctx x], s1. split; [done |]. split; [| done].
    destruct fuel as [|fuel]; [lia |]. apply (strings_stop _ _ _ _ _ _ _ _ []).
    by apply (has_chars_next _ _ _ 0).
  - rewrite <- app_assoc in Hb. cbn [app] in Hb. destruct x as [|c x].
    { exists status, (drv s), [], s. split; [done |]. split; [by apply (strings_stop _ _ _ _ _ _ _ _ (ws' ++ [0; 0])) | apply delivered_refl]. }
    rewrite (multi_nul _ _ _ Nx). set (y := c :: x) in *. cbn [app is_empty y map]. fold y.
    destruct (strings_step fuel qp REG_MULTI_SZ b ctx i status s y (ws' ++ [0; 0]) Hb Nx ltac:(done) Bl) as (s1 & D1 & E1).
    rewrite E1. cbn [run_calls]. destruct (routine (QueryRoutine qp) (string_call qp ctx y) (drv s)) as [st d] eqn:Er.
    cbn [fst snd] in *. rewrite Z.eqb_refl, andb_true_r. destruct (NT_SUCCESS st); [| by exists st, d, [string_call qp ctx y], s1].
    rewrite length_app in Lw. simpl in Lw.
    destruct (IH ws' fuel (i + length y + 1)%nat st s1) as (st' & d' & made & s' & Er' & El & Dl); [lia | lia | |].
    { by apply (has_chars_next _ _ _ 0). }
    rewrite <- (dl_drv _ _ _ _ D1), Er'. eexists _, _, _, s'. split; [reflexivity |]. split; [exact El |].
    by apply (delivered_trans _ s1 _ [_] _ d).
Qed.
(** What a value is delivered as. *)
Definition value_calls (qp : RTL_QUERY_REGISTRY_TABLE) (ctx t : Z) (data : list Z) : list query_call :=
  if has (Flags qp) RTL_QUERY_REGISTRY_NOEXPAND || (negb (t =? REG_MULTI_SZ) && negb (t =? REG_EXPAND_SZ))
  then [value_call qp ctx t data]
  else if t =? REG_MULTI_SZ then map (string_call qp ctx) (multi [] (wchars data))
  else let s := first_string (wchars data) in if is_empty s then [] else [string_call qp ctx s].

Lemma run_one f c status d : run_calls f [c] status d = ((routine f c d).1, (routine f c d).2, [c]).
Proof. simpl. destruct (routine f c d) as [st d']. by destruct (NT_SUCCESS st). Qed.

Lemma expand_run fuel qp b ctx ws s : has_chars b 0 (ws ++ [0; 0]) -> Z.of_nat (length b) < 2 ^ 32 ->
  exists status d made s',
    run_calls (QueryRoutine qp) (if is_empty (first_string ws) then [] else [string_call qp ctx (first_string ws)])
      STATUS_SUCCESS (drv s) = (status, d, made) /\
    strings_loop (S fuel) qp REG_EXPAND_SZ b ctx false 0 STATUS_SUCCESS s = Ok (status, s') /\ delivered s s' made d.
Proof.
  intros Hb Bl.
  assert (exists x ws', has_chars b 0 (x ++ 0 :: ws') /\ nonzero x /\ first_string ws = x) as (x & ws' & Hx & Nx & ->).
  { destruct (first_nul ws) as [Nw | (x & ws' & -> & Nx)].
    - exists ws, [0]. split; [exact Hb |]. split; [done | by apply first_string_nonzero].
    - exists x, (ws' ++ [0; 0]). rewrite <- app_assoc in Hb. split; [exact Hb |]. split; [done | by apply first_string_nul]. }
  change (strings_loop (S fuel) qp REG_EXPAND_SZ b ctx false 0) with
    (strings_loop (S fuel) qp REG_EXPAND_SZ b ctx false (Z.of_nat 0)).
  destruct x as [|c x].
  - exists STATUS_SUCCESS, (drv s), [], s. split; [done |]. split; [by apply (strings_stop _ _ _ _ _ _ _ _ ws') | apply delivered_refl].
  - destruct (strings_step fuel qp REG_EXPAND_SZ b ctx 0 STATUS_SUCCESS s (c :: x) ws' Hx Nx ltac:(done) Bl) as (s1 & D1 & E1).
    rewrite E1. cbn [is_empty]. rewrite run_one. change (REG_EXPAND_SZ =? REG_MULTI_SZ) with false. rewrite andb_false_r.
    eexists _, _, _, s1. done.
Qed.

Lemma chars_length d : (length (wchars d) <= length d)%nat.
Proof. induction d as [| | x y d IH] using chars_ind; simpl; lia. Qed.

Lemma callback_run qp t data rest ctx s : Forall is_byte data ->
  Z.of_nat (length (data ++ zeros6 ++ rest)) < 2 ^ 32 ->
  exists status d made s',
    run_calls (QueryRoutine qp) (value_calls qp ctx t data) STATUS_SUCCESS (drv s) = (status, d, made) /\
    DdkQueryCallback qp t (data ++ zeros6 ++ rest) (Z.of_nat (length data)) ctx false s = Ok (status, s') /\
    delivered s s' made d.
Proof.
  intros Hd Bl. unfold DdkQueryCallback, value_calls.
  destruct (has (Flags qp) RTL_QUERY_REGISTRY_NOEXPAND || (negb (t =? REG_MULTI_SZ) && negb (t =? REG_EXPAND_SZ))) eqn:Et.
  - set (c := query_call_of qp t (data ++ zeros6 ++ rest) (Z.of_nat (length data)) ctx).
    assert (trim c = value_call qp ctx t data) as Ec.
    { unfold trim, c, value_call, query_call_of. cbn [ValueName ValueType ValueData ValueLength Context_ CallContext].
      f_equal. rewrite Nat2Z.id, take_app_ge by lia. by replace (length data + 2 - length data)%nat with 2%nat by lia. }
    destruct (call_routine_run (QueryRoutine qp) c s) as (s' & E & D). rewrite Ec in E, D. rewrite run_one.
    eexists _, _, _, s'. done.
  - pose proof (data_chars data rest Hd) as Hb. apply orb_false_iff in Et as [_ Et].
    destruct (Z.eqb_spec t REG_MULTI_SZ) as [-> | Nm].
    + apply (multi_run _ _ _ Bl (length (wchars data)) _ _ 0%nat); [lia | | exact Hb].
      unfold fuel_of. rewrite length_app. pose proof (chars_length data). lia.
    + destruct (Z.eqb_spec t REG_EXPAND_SZ) as [-> | Ne]; [| done]. apply expand_run; [exact Hb | exact Bl].
Qed.

(** ** The loop that reads a value *)

(** The memory there is: as many bytes as asked for. *)
Definition enough_memory : Prop := forall n, 0 <= n -> exists b, realloc n = Some b /\ Z.of_nat (length b) = n.

(** The buffer after the value has been read into it. *)
Definition read_buffer (data b : list Z) : Prop :=
  exists rest, b = data ++ zeros6 ++ rest /\ Z.of_nat (length b) < 2 ^ 32.

(** One round, with a buffer of [len] bytes. *)
Definition read_round (fuel : nat) (key : Z) (name : option wstring) (held : bool) (len : Z)
    : R (option (Z * Z * list Z * Z)) :=
  match realloc len with
  | None => mret None
  | Some b =>
      _ ← (if held then mret tt else new_buf);
      '(rc, t, d, n) ← on_key key (RegQueryValueExW key name (Some (u32 (len - nullbytes))));
      b ← lift (overlay b 0 d);
      if rc =? ERROR_SUCCESS then
        b ← lift (overlay b n (replicate (Z.to_nat nullbytes) 0));
        mret (Some (rc, t, b, n))
      else if rc =? ERROR_MORE_DATA then read_loop realloc fuel key name true len n
      else mret (Some (rc, t, b, n))
  end.

Lemma read_unfold fuel key name held len bytes :
  read_loop realloc (S fuel) key name held len bytes =
    read_round fuel key name held
      (if bytes >? u32 (len + PAGE_SIZE) then u32 (bytes + nullbytes) else u32 (len + PAGE_SIZE)).
Proof. done. Qed.

Definition hold (held : bool) (s : rstate) : rstate := if held then s else set_bufs (fun n => n + 1) s.

Lemma overlay_value b d : Z.of_nat (length d) + 6 <= Z.of_nat (length b) ->
  overlay b 0 d = Ok (d ++ drop (length d) b) /\
  overlay (d ++ drop (length d) b) (Z.of_nat (length d)) zeros6 = Ok (d ++ zeros6 ++ drop (length d + 6) b).
Proof.
  intros Lb. split; [rewrite overlay_run by lia; done |].
  rewrite overlay_run by (rewrite ?length_app, ?length_drop; simpl; lia). f_equal. rewrite Nat2Z.id, take_app_length. f_equal. f_equal.
  rewrite drop_app_ge by lia. rewrite drop_drop. f_equal. simpl. lia.
Qed.

Lemma read_fits fuel key name held len s t data : is_open s key -> enough_memory ->
  lookup_value (tree_in s) (node_in s key) name = inr (t, data) ->
  Z.of_nat (length data) + 6 <= len < 2 ^ 32 ->
  exists b, read_round fuel key name held len s = Ok (Some (ERROR_SUCCESS, t, b, Z.of_nat (length data)), hold held s) /\
    read_buffer data b.
Proof.
  intros O Mem Lv Ll. unfold read_round. destruct (Mem len) as (b & -> & Lb); [lia |].
  rewrite (bind_run _ _ s tt (hold held s)) by (by destruct held).
  destruct (query_law (win s) key name (u32 (len - nullbytes)) O) as (rc & t' & d & n & Eq & Ld & M); [apply u32_range |].
  unfold tree_in, node_in in Lv. rewrite Lv in M. destruct M as [-> M].
  rewrite (u32_id (len - nullbytes)) in M by (unfold nullbytes; lia).
  rewrite (proj2 (Z.leb_le _ _)) in M by (unfold nullbytes; lia). destruct M as (-> & -> & ->).
  assert (is_open (hold held s) key) as O' by (by destruct held).
  assert (win (hold held s) = win s) as Ew by (by destruct held).
  rewrite (bind_run _ _ _ _ _ (on_key_run _ _ _ O')), Ew, Eq.
  destruct (overlay_value b data ltac:(lia)) as [E1 E2].
  rewrite (bind_run _ _ _ _ _ (lift_run _ _ _ E1)). rewrite Z.eqb_refl.
  rewrite (bind_run _ _ _ _ _ (lift_run _ _ _ E2)). eexists. split; [reflexivity |]. eexists. split; [reflexivity |].
  rewrite !length_app, length_drop. simpl. lia.
Qed.

Lemma read_more fuel key name held len s t data : is_open s key -> enough_memory ->
  lookup_value (tree_in s) (node_in s key) name = inr (t, data) ->
  6 <= len < 2 ^ 32 -> len < Z.of_nat (length data) + 6 ->
  read_round fuel key name held len s =
    read_loop realloc fuel key name true len (Z.of_nat (length data)) (hold held s).
Proof.
  intros O Mem Lv Ll Nf. unfold read_round. destruct (Mem len) as (b & -> & Lb); [lia |].
  rewrite (bind_run _ _ s tt (hold held s)) by (by destruct held).
  destruct (query_law (win s) key name (u32 (len - nullbytes)) O) as (rc & t' & d & n & Eq & Ld & M); [apply u32_range |].
  unfold tree_in, node_in in Lv. rewrite Lv in M. destruct M as [-> M].
  rewrite (u32_id (len - nullbytes)) in M, Ld by (unfold nullbytes; lia).
  rewrite (proj2 (Z.leb_gt _ _)) in M by (unfold nullbytes; lia). subst rc.
  assert (is_open (hold held s) key) as O' by (by destruct held).
  assert (win (hold held s) = win s) as Ew by (by destruct held).
  rewrite (bind_run _ _ _ _ _ (on_key_run _ _ _ O')), Ew, Eq.
  rewrite (bind_run _ _ _ _ _ (lift_run _ _ _ (overlay_run b 0 d ltac:(lia) ltac:(unfold nullbytes in *; lia)))). done.
Qed.

(** Three rounds are enough, and the buffer counts once. *)
Lemma read_run key name s t data : is_open s key -> enough_memory ->
  lookup_value (tree_in s) (node_in s key) name = inr (t, data) -> Z.of_nat (length data) < 2 ^ 31 ->
  exists b, read_loop realloc read_fuel key name false 0 0 s =
      Ok (Some (ERROR_SUCCESS, t, b, Z.of_nat (length data)), set_bufs (fun n => n + 1) s) /\ read_buffer data b.
Proof.
  intros O Mem Lv Ld. set (n := Z.of_nat (length data)) in *. unfold read_fuel. rewrite read_unfold.
  change (if 0 >? u32 (0 + PAGE_SIZE) then u32 (0 + nullbytes) else u32 (0 + PAGE_SIZE)) with 4096.
  destruct (Z.le_gt_cases (n + 6) 4096).
  { apply (read_fits 2 key name false 4096 s t data); done || lia. }
  rewrite (read_more 2 key name false 4096 s t data) by (done || lia). fold n. cbn [hold].
  set (s1 := set_bufs (fun n => n + 1) s). rewrite read_unfold. change (u32 (4096 + PAGE_SIZE)) with 8192.
  assert (exists b, read_round 1 key name true (if n >? 8192 then u32 (n + nullbytes) else 8192) s1 =
      Ok (Some (ERROR_SUCCESS, t, b, n), s1) /\ read_buffer data b); [| done].
  destruct (Z.gtb_spec n 8192).
  { apply (read_fits 1 key name true _ s1 t data); done || (rewrite u32_id; unfold nullbytes; lia). }
  destruct (Z.le_gt_cases (n + 6) 8192).
  { apply (read_fits 1 key name true 8192 s1 t data); done || lia. }
  rewrite (read_more 1 key name true 8192 s1 t data) by (done || lia). fold n. rewrite read_unfold.
  change (u32 (8192 + PAGE_SIZE)) with 12288. destruct (Z.gtb_spec n 12288); [lia |].
  apply (read_fits 0 key name true 12288 s1 t data); done || lia.
Qed.

Lemma read_error key name s e : is_open s key -> enough_memory ->
  lookup_value (tree_in s) (node_in s key) name = inl e ->
  exists t b n, read_loop realloc read_fuel key name false 0 0 s = Ok (Some (e, t, b, n), set_bufs (fun n => n + 1) s).
Proof.
  intros O Mem Lv. unfold read_fuel. rewrite read_unfold.
  change (if 0 >? u32 (0 + PAGE_SIZE) then u32 (0 + nullbytes) else u32 (0 + PAGE_SIZE)) with 4096.
  unfold read_round. destruct (Mem 4096) as (b & -> & Lb); [lia |].
  rewrite (bind_run _ _ s tt (set_bufs (fun n => n + 1) s)) by done.
  destruct (query_law (win s) key name (u32 (4096 - nullbytes)) O) as (rc & t' & d & n & Eq & Ld & M); [apply u32_range |].
  unfold tree_in, node_in in Lv. rewrite Lv in M. subst rc.
  rewrite (bind_run _ _ (set_bufs (fun n => n + 1) s) (e, t', d, n) (set_bufs (fun n => n + 1) s))
    by (rewrite on_key_run by exact O; simpl; by rewrite Eq).
  destruct (value_error _ _ _ _ Lv) as [N1 N2]. change (u32 (4096 - nullbytes)) with 4090 in Ld.
  rewrite (bind_run _ _ _ _ _ (lift_run _ _ _ (overlay_run b 0 d ltac:(lia) ltac:(lia)))).
  apply Z.eqb_neq in N1 as ->. apply Z.eqb_neq in N2 as ->. by eexists _, _, _.
Qed.

End read.
