(* ===== verification/RegistryQuerySpec.v ===== *)
(** * RegistryQuerySpec: what a query table asks for

    [query_spec] is the meaning of a table on the tree of the registry: which calls the
    routines of the driver get, in which order, with what data, and what is deleted.  It
    knows no handles, buffers, indices or NULs.  RtlQueryRegistryValues refines it, for
    tables that do not store values themselves, and leaves nothing open or allocated. *)

From S2P Require Import Prelude Strings StringsOps Objects Memory Registry RegistryQuery RegistrySpec RegistryRead.

Section spec.
Context `{Environment} `{WINREG} `{!WINREG_Laws} `{QUERY_ROUTINES} `{!QUERY_Laws}.
Context (realloc : Z -> option (list Z)) (pool : mem -> Z -> option (Z * list Z)).

(** ** The meaning of a table *)

Definition value_spec (qp : RTL_QUERY_REGISTRY_TABLE) (ctx : Z) (t : tree) (n : node) (d : driver)
    : Z * driver * list query_call :=
  if QueryRoutine qp =? 0 then (STATUS_INVALID_PARAMETER, d, []) else
  match lookup_value t n (QueryName qp) with
  | inl e => (DdkGetRegistryStatus e, d, [])
  | inr (ty, data) => run_calls (QueryRoutine qp) (value_calls qp ctx ty data) STATUS_SUCCESS d
  end.

(** The tree after a value has been delivered. *)
Definition deleted (qp : RTL_QUERY_REGISTRY_TABLE) (status : Z) (t : tree) (n : node) (v : option wstring) : tree :=
  if NT_SUCCESS status && has (Flags qp) RTL_QUERY_REGISTRY_DELETE then default t (delete_value t n v) else t.

(** All values of a list, until one fails; with the number of them. *)
Fixpoint each_spec (qp : RTL_QUERY_REGISTRY_TABLE) (ctx : Z) (t : tree) (n : node) (vs : list wstring) (status : Z)
    (d : driver) : Z * driver * list query_call * nat :=
  if negb (NT_SUCCESS status) then (status, d, [], 0%nat) else
  match vs with
  | [] => (status, d, [], 0%nat)
  | v :: vs =>
      if negb (Z.of_nat (length v) <? 1024) then (DdkGetRegistryStatus ERROR_MORE_DATA, d, [], 0%nat) else
      let '(st, d, cs) := value_spec (with_name qp v) ctx t n d in
      let '(st, d, cs', k) := each_spec qp ctx t n vs st d in (st, d, cs ++ cs', S k)
  end.

(** The first value of a key, as it then lists them, again and again until there is none
    or one fails, each deleted when it has been delivered; [k] is the number of values.
    What is done when a value cannot be deleted is not said: [None]. *)
Fixpoint drain_spec (qp : RTL_QUERY_REGISTRY_TABLE) (ctx : Z) (n : node) (k : nat) (status : Z) (t : tree) (d : driver)
    : option (Z * tree * driver * list query_call * nat) :=
  if negb (NT_SUCCESS status) then Some (status, t, d, [], 0%nat) else
  match names t n, k with
  | [], _ => Some (status, t, d, [], 0%nat)
  | _ :: _, O => None
  | v :: _, S k =>
      if negb (Z.of_nat (length v) <? 1024) then Some (DdkGetRegistryStatus ERROR_MORE_DATA, t, d, [], 0%nat) else
      let '(st, d, cs) := value_spec (with_name qp v) ctx t n d in
      match (if NT_SUCCESS st then delete_value t n (Some v) else Some t) with
      | None => None
      | Some t =>
          match drain_spec qp ctx n k st t d with
          | Some (st, t, d, cs', m) => Some (st, t, d, cs ++ cs', S m)
          | None => None
          end
      end
  end.

(** A required key must have values. *)
Definition required (qp : RTL_QUERY_REGISTRY_TABLE) (k : nat) (st : Z) : Z :=
  if has (Flags qp) RTL_QUERY_REGISTRY_REQUIRED && (k =? 0)%nat then STATUS_OBJECT_NAME_NOT_FOUND else st.

Definition all_spec (qp : RTL_QUERY_REGISTRY_TABLE) (ctx : Z) (n : node) (t : tree) (d : driver)
    : option (Z * tree * driver * list query_call) :=
  if has (Flags qp) RTL_QUERY_REGISTRY_DELETE then
    match drain_spec qp ctx n (length (names t n)) STATUS_SUCCESS t d with
    | Some (st, t, d, cs, k) => Some (required qp k st, t, d, cs)
    | None => None
    end
  else let '(st, d, cs, k) := each_spec qp ctx t n (names t n) STATUS_SUCCESS d in Some (required qp k st, t, d, cs).

(** The call for a key as such. *)
Definition key_call (qp : RTL_QUERY_REGISTRY_TABLE) (ctx : Z) : query_call :=
  mkCall (QueryName qp) REG_NONE [] 0 ctx (EntryContext qp).

Definition key_spec (qp : RTL_QUERY_REGISTRY_TABLE) (ctx : Z) (n : node) (t : tree) (d : driver)
    : option (Z * tree * driver * list query_call) :=
  if has (Flags qp) RTL_QUERY_REGISTRY_NOVALUE then
    let '(st, d) := routine (QueryRoutine qp) (key_call qp ctx) d in Some (st, t, d, [key_call qp ctx])
  else all_spec qp ctx n t d.

Definition then_calls (cs : list query_call) (r : option (Z * tree * driver * list query_call)) :=
  match r with Some (st, t, d, cs') => Some (st, t, d, cs ++ cs') | None => None end.

(** [nb] is the key the query starts from, [n] the key of the last subkey entry; [None]
    if the table has no end, or a whole key is to be deleted and cannot be. *)
Fixpoint query_spec (nb : node) (ctx : Z) (table : list RTL_QUERY_REGISTRY_TABLE) (status : Z) (n : node) (t : tree)
    (d : driver) : option (Z * tree * driver * list query_call) :=
  if negb (NT_SUCCESS status) then Some (status, t, d, []) else
  match table with
  | [] => None
  | qp :: table =>
      let n := if has (Flags qp) RTL_QUERY_REGISTRY_SUBKEY || has (Flags qp) RTL_QUERY_REGISTRY_TOPKEY then nb else n in
      let whole n :=
        if QueryRoutine qp =? 0 then Some (status, t, d, []) else
        match key_spec qp ctx n t d with
        | Some (st, t, d, cs) => then_calls cs (query_spec nb ctx table st n t d)
        | None => None
        end in
      if has (Flags qp) RTL_QUERY_REGISTRY_SUBKEY then
        match QueryName qp with
        | None => Some (STATUS_INVALID_PARAMETER, t, d, [])
        | Some p =>
            match child t nb p with
            | inl e => Some (DdkGetRegistryStatus e, t, d, [])
            | inr n => if QueryRoutine qp =? 0 then query_spec nb ctx table status n t d else whole n
            end
        end
      else if bool_decide (QueryName qp = None) then whole n
      else
        let '(st, d, cs) := value_spec qp ctx t n d in
        then_calls cs (query_spec nb ctx table st n (deleted qp st t n (QueryName qp)) d)
  end.

(** ** States *)

(** No key has too many values, and values are bytes and not too long for the code. *)
Record tree_ok (fuel : nat) (t : tree) : Prop := {
  ok_length n : (length (names t n) < fuel)%nat /\ Z.of_nat (length (names t n)) < 2 ^ 32;
  ok_value n v ty data : lookup_value t n v = inr (ty, data) ->
    Forall is_byte data /\ Z.of_nat (length data) < 2 ^ 31
}.

Lemma filter_length_le {A} (P : A -> Prop) `{!forall x, Decision (P x)} (l : list A) : (length (filter P l) <= length l)%nat.
Proof. induction l as [|x l IH]; [done |]. rewrite filter_cons. destruct (decide (P x)); simpl; lia. Qed.

Lemma delete_length t n v t' m : delete_value t n v = Some t' ->
  length (names t m) = ((if decide (m = n) then 1 else 0) + length (names t' m))%nat.
Proof.
  intros E. destruct (delete_names t n v t' m E) as [N1 N2]. destruct (decide (m = n)) as [-> | Hm].
  - destruct (N2 eq_refl) as (x & _ & ->). done.
  - by rewrite (N1 Hm).
Qed.

Lemma tree_ok_delete fuel t n v t' : tree_ok fuel t -> delete_value t n v = Some t' -> tree_ok fuel t'.
Proof.
  intros [Ol Ov] E. split.
  - intros m. specialize (Ol m). rewrite (delete_length t n v t' m E) in Ol. lia.
  - intros m u ty data Hl. apply (Ov m u ty data). by apply (delete_lookup t n v t').
Qed.

(** From [s] to [s'] the calls have been made and the tree has become [t]; the handles
    in [S] are the same keys. *)
Record did (S : gset Z) (s s' : rstate) (t : tree) (d : driver) (cs : list query_call) : Prop := {
  di_kern : kern s' = kern s;
  di_memory : memory s' = memory s;
  di_bufs : bufs s' = bufs s;
  di_thread : SystemThread s' = SystemThread s;
  di_tree : tree_in s' = t;
  di_nodes h : h ∈ S -> node_in s' h = node_in s h;
  di_drv : drv s' = d;
  di_calls : map trim (query_calls s') = map trim (query_calls s) ++ cs
}.

Lemma did_refl S s : did S s s (tree_in s) (drv s) [].
Proof. split; try done. by rewrite app_nil_r. Qed.

Lemma did_trans S s s1 s2 t1 t2 d1 d2 cs1 cs2 :
  did S s s1 t1 d1 cs1 -> did S s1 s2 t2 d2 cs2 -> did S s s2 t2 d2 (cs1 ++ cs2).
Proof.
  intros [] []. split; try congruence.
  - intros h Hh. rewrite di_nodes1 by done. by apply di_nodes0.
  - rewrite app_assoc. congruence.
Qed.

Lemma did_sub S S' s s' t d cs : S' ⊆ S -> did S s s' t d cs -> did S' s s' t d cs.
Proof. intros Sub []. split; try done. intros h Hh. apply di_nodes0. by apply Sub. Qed.

Lemma did_delivered S s s' cs d : delivered s s' cs d -> did S s s' (tree_in s) d cs.
Proof. intros []. split; try done; unfold tree_in, node_in; by rewrite dl_win. Qed.

Lemma did_set_win s w : restored (win s) w -> did (open_keys (win s)) s (set_win w s) (tree_of w) (drv s) [].
Proof. intros [Eo Sn]. split; try done; [| by rewrite app_nil_r]. intros h Hh. apply Sn; [done |]. by rewrite Eo. Qed.

(** ** One value *)

Hypothesis Mem : enough_memory realloc.

Lemma free_buf_run s : free_buf s = Ok (tt, set_bufs (fun n => n - 1) s).
Proof. done. Qed.

Lemma delivered_freed s s1 cs d : delivered (set_bufs (fun n => n + 1) s) s1 cs d ->
  delivered s (set_bufs (fun n => n - 1) s1) cs d.
Proof. intros []. split; try done. simpl in *. lia. Qed.

Lemma query_value_run fuel key qp ctx s : is_open s key -> has (Flags qp) RTL_QUERY_REGISTRY_DIRECT = false ->
  tree_ok fuel (tree_in s) ->
  exists st d cs s', value_spec qp ctx (tree_in s) (node_in s key) (drv s) = (st, d, cs) /\
    DdkQueryValue realloc pool key qp ctx false s = Ok (st, s') /\ delivered s s' cs d.
Proof.
  intros O Nd Tok. unfold value_spec, DdkQueryValue. rewrite Nd. cbn [negb].
  destruct (QueryRoutine qp =? 0); cbn [Bool.eqb].
  { eexists _, _, _, s. split; [reflexivity |]. split; [done | apply delivered_refl]. }
  destruct (lookup_value (tree_in s) (node_in s key) (QueryName qp)) as [e | [ty data]] eqn:Lv.
  - destruct (read_error realloc key (QueryName qp) s e O Mem Lv) as (t & b & n & E). rewrite (bind_run _ _ _ _ _ E).
    destruct (value_error _ _ _ _ Lv) as [N1 _]. apply Z.eqb_neq in N1 as ->. cbn [negb].
    eexists _, _, _, _. split; [reflexivity |]. split; [reflexivity |]. apply delivered_freed. exact (delivered_refl (set_bufs _ s)).
  - destruct (ok_value _ _ Tok _ _ _ _ Lv) as [Hb Hl].
    destruct (read_run realloc key (QueryName qp) s ty data O Mem Lv Hl) as (b & E & rest & -> & Lb).
    rewrite (bind_run _ _ _ _ _ E). rewrite Z.eqb_refl. cbn [negb].
    destruct (callback_run qp ty data rest ctx (set_bufs (fun n => n + 1) s) Hb Lb) as (st & d & cs & s1 & Er & Ec & D).
    rewrite (bind_run _ _ _ _ _ Ec), (bind_run _ _ _ _ _ (free_buf_run s1)).
    eexists st, d, cs, _. split; [exact Er |]. split; [reflexivity |]. by apply delivered_freed.
Qed.

(** The deletion that may follow: the tree, and the code that says whether there was one. *)
Lemma delete_run fuel (m : option wstring) (none : Z) qp key st s v : m = Some v -> is_open s key ->
  tree_ok fuel (tree_in s) ->
  exists rc s', (if NT_SUCCESS st && has (Flags qp) RTL_QUERY_REGISTRY_DELETE
       then reg_change key (RegDeleteKeyValueW key [] m) else mret none) s = Ok (rc, s') /\
    did (open_keys (win s)) s s' (deleted qp st (tree_in s) (node_in s key) m) (drv s) [] /\
    open_keys (win s') = open_keys (win s) /\
    tree_ok fuel (tree_in s') /\
    (if NT_SUCCESS st && has (Flags qp) RTL_QUERY_REGISTRY_DELETE
     then match delete_value (tree_in s) (node_in s key) m with Some t' => rc = ERROR_SUCCESS /\ tree_in s' = t'
          | None => rc <> ERROR_SUCCESS /\ tree_in s' = tree_in s end
     else rc = none /\ tree_in s' = tree_in s).
Proof.
  intros -> O Tok. unfold deleted. destruct (NT_SUCCESS st && has (Flags qp) RTL_QUERY_REGISTRY_DELETE).
  - destruct (delete_law (win s) key (Some v) O) as (rc & w & E & Eo & Sn & M). exists rc, (set_win w s).
    rewrite (reg_change_run s key _ rc w O E). split; [done |]. unfold tree_in, node_in in *.
    destruct (delete_value (tree_of (win s)) (node_of (win s) key) (Some v)) as [t' |] eqn:Ed; destruct M as [-> <-] || destruct M as [Nr Et].
    + split; [by apply did_set_win |]. split; [done |]. split; [by eapply tree_ok_delete |]. done.
    + simpl. rewrite <- Et. split; [by apply did_set_win |]. split; [done |]. by rewrite Et.
  - exists none, s. split; [done |]. split; [apply did_refl |]. done.
Qed.

(** ** All values of a key *)

Lemma enum_run s key i : is_open s key -> 0 <= i ->
  exists rc n x, on_key key (RegEnumValueW key i 1024 None) s = Ok ((rc, n, x.1.1, x.1.2, x.2), s) /\
    match names (tree_in s) (node_in s key) !! Z.to_nat i with
    | Some n' => if Z.of_nat (length n') <? 1024 then rc = ERROR_SUCCESS /\ n = n' else rc = ERROR_MORE_DATA
    | None => rc = ERROR_NO_MORE_ITEMS
    end.
Proof.
  intros O Hi. destruct (enum_law (win s) key i O Hi) as (rc & n & t & d & b & E & M). exists rc, n, (t, d, b).
  split; [| exact M]. rewrite on_key_run by done. by rewrite E.
Qed.

Lemma loop_failed fuel key qp ctx index count status s : NT_SUCCESS status = false ->
  enumerate_loop realloc pool fuel key qp ctx false index count status s = Ok ((status, count), s).
Proof. intros E. destruct fuel; cbn [enumerate_loop]; by rewrite E. Qed.

(** The end of the loop at an index without a name. *)
Lemma loop_end fuel key qp ctx i count status s : is_open s key -> NT_SUCCESS status = true ->
  names (tree_in s) (node_in s key) !! i = None ->
  enumerate_loop realloc pool (S fuel) key qp ctx false (Z.of_nat i) count status s = Ok ((status, count), s).
Proof.
  intros O Ns En. cbn [enumerate_loop]. rewrite Ns. cbn [negb].
  destruct (enum_run s key (Z.of_nat i) O ltac:(lia)) as (rc & n & x & E & M).
  rewrite Nat2Z.id, En in M. subst rc. by rewrite (bind_run _ _ _ _ _ E).
Qed.

(** A name that is too long, and one that is not: its value is delivered. *)
Lemma loop_long fuel key qp ctx i count status s v : is_open s key -> NT_SUCCESS status = true ->
  names (tree_in s) (node_in s key) !! i = Some v -> (Z.of_nat (length v) <? 1024) = false ->
  enumerate_loop realloc pool (S fuel) key qp ctx false (Z.of_nat i) count status s =
    Ok ((DdkGetRegistryStatus ERROR_MORE_DATA, count), s).
Proof.
  intros O Ns En Hl. cbn [enumerate_loop]. rewrite Ns. cbn [negb].
  destruct (enum_run s key (Z.of_nat i) O ltac:(lia)) as (rc & n & x & E & M).
  rewrite Nat2Z.id, En, Hl in M. subst rc. by rewrite (bind_run _ _ _ _ _ E).
Qed.

Lemma loop_value fuel fuel' key qp ctx i count status s v : is_open s key -> NT_SUCCESS status = true ->
  has (Flags qp) RTL_QUERY_REGISTRY_DIRECT = false -> tree_ok fuel' (tree_in s) ->
  names (tree_in s) (node_in s key) !! i = Some v -> (Z.of_nat (length v) <? 1024) = true ->
  exists st d cs rd s', value_spec (with_name qp v) ctx (tree_in s) (node_in s key) (drv s) = (st, d, cs) /\
    enumerate_loop realloc pool (S fuel) key qp ctx false (Z.of_nat i) count status s =
      enumerate_loop realloc pool fuel key qp ctx false
        (u32 ((if rd =? ERROR_SUCCESS then u32 (Z.of_nat i - 1) else Z.of_nat i) + 1)) (u32 (count + 1)) st s' /\
    did (open_keys (win s)) s s' (deleted qp st (tree_in s) (node_in s key) (Some v)) d cs /\
    open_keys (win s') = open_keys (win s) /\ tree_ok fuel' (tree_in s') /\
    (if NT_SUCCESS st && has (Flags qp) RTL_QUERY_REGISTRY_DELETE
     then delete_value (tree_in s) (node_in s key) (Some v) <> None -> rd = ERROR_SUCCESS
     else rd = -1).
Proof.
  intros O Ns Nd Tok En Hl. cbn [enumerate_loop]. rewrite Ns. cbn [negb].
  destruct (enum_run s key (Z.of_nat i) O ltac:(lia)) as (rc & n & x & E & M).
  rewrite Nat2Z.id, En, Hl in M. destruct M as [-> ->]. rewrite (bind_run _ _ _ _ _ E), Z.eqb_refl. cbn [negb].
  destruct (query_value_run fuel' key (with_name qp v) ctx s O Nd Tok) as (st & d & cs & s1 & Ev & Eq & Dl).
  rewrite (bind_run _ _ _ _ _ Eq).
  assert (win s1 = win s) as Ew by apply Dl.
  assert (is_open s1 key) as O1 by (unfold is_open; by rewrite Ew).
  assert (tree_in s1 = tree_in s) as Et1 by (unfold tree_in; by rewrite Ew).
  assert (node_in s1 key = node_in s key) as En1 by (unfold node_in; by rewrite Ew).
  destruct (delete_run fuel' (Some v) (-1) qp key st s1 v eq_refl O1 ltac:(by rewrite Et1)) as (rd & s2 & Ed & D2 & Eo2 & Tok2 & M2).
  rewrite (bind_run _ _ _ _ _ Ed). rewrite Ew in Eo2. rewrite Et1, En1 in *. rewrite (dl_drv _ _ _ _ Dl) in D2.
  pose proof (did_trans _ _ _ _ _ _ _ _ _ _ (did_delivered (open_keys (win s)) _ _ _ _ Dl) ltac:(rewrite <- Ew; exact D2)) as D02.
  rewrite app_nil_r in D02. exists st, d, cs, rd, s2. do 5 (split; [done |]).
  destruct (NT_SUCCESS st && has (Flags qp) RTL_QUERY_REGISTRY_DELETE); [| by destruct M2].
  destruct (delete_value _ _ _); [by destruct M2 | done].
Qed.

Lemma next_index i (rd : Z) : rd <> ERROR_SUCCESS -> Z.of_nat i + 1 < 2 ^ 32 ->
  u32 ((if rd =? ERROR_SUCCESS then u32 (Z.of_nat i - 1) else Z.of_nat i) + 1) = Z.of_nat (S i).
Proof. intros N%Z.eqb_neq Hi. rewrite N, u32_id; lia. Qed.

(** The values of a key that are not deleted, from number [i] on. *)
Lemma each_run vs : forall fuel fuel' key qp ctx i count status s, is_open s key ->
  has (Flags qp) RTL_QUERY_REGISTRY_DIRECT = false -> has (Flags qp) RTL_QUERY_REGISTRY_DELETE = false ->
  tree_ok fuel' (tree_in s) -> (length vs < fuel)%nat ->
  drop i (names (tree_in s) (node_in s key)) = vs -> Z.of_nat (count + length vs) < 2 ^ 32 ->
  exists st d cs k s', each_spec qp ctx (tree_in s) (node_in s key) vs status (drv s) = (st, d, cs, k) /\
    enumerate_loop realloc pool fuel key qp ctx false (Z.of_nat i) (Z.of_nat count) status s =
      Ok ((st, Z.of_nat (count + k)), s') /\
    did (open_keys (win s)) s s' (tree_in s) d cs /\ open_keys (win s') = open_keys (win s).
Proof.
  induction vs as [|v vs IH]; intros [|fuel] fuel' key qp ctx i count status s O Nd Ndel Tok Lf En Lc; simpl in Lf; try lia;
    cbn [each_spec]; destruct (NT_SUCCESS status) eqn:Ns; cbn [negb];
    try (eexists _, _, _, 0%nat, s; split; [reflexivity |]; rewrite Nat.add_0_r; split;
      [by apply loop_failed | split; [apply did_refl | done]]).
  - eexists _, _, _, 0%nat, s. split; [reflexivity |]. rewrite Nat.add_0_r. split; [| split; [apply did_refl | done]].
    apply loop_end; [done | done |]. apply lookup_ge_None_2. apply (f_equal length) in En. rewrite length_drop in En. simpl in En. lia.
  - assert (names (tree_in s) (node_in s key) !! i = Some v) as Ev
      by (by rewrite <- (Nat.add_0_r i), <- lookup_drop, En).
    destruct (Z.of_nat (length v) <? 1024) eqn:Hl; cbn [negb].
    2: { eexists _, _, _, 0%nat, s. split; [reflexivity |]. rewrite Nat.add_0_r.
         split; [by apply (loop_long _ _ _ _ _ _ _ _ v) | split; [apply did_refl | done]]. }
    destruct (loop_value fuel fuel' key qp ctx i (Z.of_nat count) status s v O Ns Nd Tok Ev Hl)
      as (st & d & cs & rd & s2 & Es & -> & D & Eo2 & Tok2 & Mr). rewrite Es.
    rewrite Ndel, andb_false_r in Mr. unfold deleted in D. rewrite Ndel, andb_false_r in D.
    pose proof (di_tree _ _ _ _ _ _ D) as Et2. pose proof (di_nodes _ _ _ _ _ _ D key O) as En2.
    destruct (ok_length _ _ Tok (node_in s key)) as [_ Lk]. pose proof (lookup_lt_Some _ _ _ Ev) as Li.
    rewrite next_index by (subst rd; done || lia).
    replace (u32 (Z.of_nat count + 1)) with (Z.of_nat (S count)) by (simpl in Lc; rewrite u32_id; lia).
    destruct (IH fuel fuel' key qp ctx (S i) (S count) st s2) as (st' & d' & cs' & k & s' & Es' & El & D' & Eo'); try done.
    { unfold is_open. by rewrite Eo2. }
    { lia. }
    { rewrite Et2, En2. by rewrite (drop_S _ _ _ Ev) in En; injection En. }
    { simpl in Lc. lia. }
    rewrite Et2, En2, (di_drv _ _ _ _ _ _ D) in Es'. rewrite Es'. eexists st', d', (cs ++ cs'), (S k), s'. split; [done |].
    split; [rewrite El; do 3 f_equal; lia |]. rewrite Eo2, Et2 in *. split; [by eapply did_trans | done].
Qed.

(** The values of a key that are deleted: always the first. *)
Lemma drain_run k : forall fuel fuel' key qp ctx count status s st t d cs m, is_open s key ->
  has (Flags qp) RTL_QUERY_REGISTRY_DIRECT = false -> has (Flags qp) RTL_QUERY_REGISTRY_DELETE = true ->
  tree_ok fuel' (tree_in s) -> (k < fuel)%nat -> Z.of_nat (count + k) < 2 ^ 32 ->
  drain_spec qp ctx (node_in s key) k status (tree_in s) (drv s) = Some (st, t, d, cs, m) ->
  exists s', enumerate_loop realloc pool fuel key qp ctx false 0 (Z.of_nat count) status s = Ok ((st, Z.of_nat (count + m)), s') /\
    did (open_keys (win s)) s s' t d cs /\ open_keys (win s') = open_keys (win s) /\ tree_ok fuel' t.
Proof.
  induction k as [| k IH]; intros [| fuel] fuel' key qp ctx count status s st t d cs m O Nd Hdel Tok Lf Lc; try lia;
    cbn [drain_spec]; destruct (NT_SUCCESS status) eqn:Ns; cbn [negb];
    try (intros [= <- <- <- <- <-]; exists s; rewrite Nat.add_0_r; split;
      [by apply loop_failed | split; [apply did_refl | done]]);
    destruct (names (tree_in s) (node_in s key)) as [| v vs] eqn:En; try done;
    try (intros [= <- <- <- <- <-]; exists s; rewrite Nat.add_0_r; split;
      [apply (loop_end _ _ _ _ 0); [done | done | by rewrite En] | split; [apply did_refl | done]]).
  assert (names (tree_in s) (node_in s key) !! 0%nat = Some v) as Ev by by rewrite En.
  destruct (Z.of_nat (length v) <? 1024) eqn:Hl; cbn [negb].
  2: { intros [= <- <- <- <- <-]. exists s. rewrite Nat.add_0_r.
       split; [by apply (loop_long _ _ _ _ 0 _ _ _ v) | split; [apply did_refl | done]]. }
  destruct (loop_value fuel fuel' key qp ctx 0 (Z.of_nat count) status s v O Ns Nd Tok Ev Hl)
    as (st1 & d1 & cs1 & rd & s2 & Es & Estep & D & Eo2 & Tok2 & Mr).
  change (Z.of_nat 0) with 0 in Estep. rewrite Es, Estep. rewrite Hdel, andb_true_r in Mr. unfold deleted in D.
  rewrite Hdel, andb_true_r in D.
  replace (u32 (Z.of_nat count + 1)) with (Z.of_nat (S count)) by (rewrite u32_id; lia).
  pose proof (di_tree _ _ _ _ _ _ D) as Et2. pose proof (di_nodes _ _ _ _ _ _ D key O) as En2.
  pose proof (di_drv _ _ _ _ _ _ D) as Ed2.
  destruct (NT_SUCCESS st1) eqn:Ns1.
  - destruct (delete_value (tree_in s) (node_in s key) (Some v)) as [t1 |] eqn:Edel; [| done]. simpl in D, Et2.
    rewrite Mr by done. change (u32 ((if ERROR_SUCCESS =? ERROR_SUCCESS then u32 (0 - 1) else 0) + 1)) with 0.
    destruct (drain_spec qp ctx (node_in s key) k st1 t1 d1) as [[[[[st' t'] d'] cs'] m'] |] eqn:Er; [| done].
    intros [= <- <- <- <- <-].
    destruct (IH fuel fuel' key qp ctx (S count) st1 s2 st' t' d' cs' m') as (s' & El & D' & Eo' & Tok'); try done.
    { unfold is_open. by rewrite Eo2. }
    { lia. }
    { lia. }
    { by rewrite En2, Et2, Ed2. }
    exists s'. split; [rewrite El; do 3 f_equal; lia |]. rewrite Eo2 in *. split; [by eapply did_trans | done].
  - rewrite loop_failed by done. intros Er. exists s2.
    assert ((st, t, d, cs, m) = (st1, tree_in s, d1, cs1 ++ [], 1%nat)) as [= -> -> -> -> ->].
    { destruct k; cbn [drain_spec] in Er; rewrite Ns1 in Er; cbn [negb] in Er; by injection Er as <- <- <- <- <-. }
    rewrite app_nil_r. split; [do 3 f_equal; lia | done].
Qed.

Lemma all_run fuel key qp ctx s st t d cs : is_open s key -> has (Flags qp) RTL_QUERY_REGISTRY_DIRECT = false ->
  tree_ok fuel (tree_in s) -> all_spec qp ctx (node_in s key) (tree_in s) (drv s) = Some (st, t, d, cs) ->
  exists s', DdkQueryEnumerateValues realloc pool fuel key qp ctx false s = Ok (st, s') /\
    did (open_keys (win s)) s s' t d cs /\ open_keys (win s') = open_keys (win s) /\ tree_ok fuel t.
Proof.
  intros O Nd Tok. destruct (ok_length _ _ Tok (node_in s key)) as [Lf Lk].
  assert (forall k st0, (if has (Flags qp) RTL_QUERY_REGISTRY_REQUIRED && (Z.of_nat (0 + k) =? 0)
    then STATUS_OBJECT_NAME_NOT_FOUND else st0) = required qp k st0) as Hreq.
  { intros k st0. unfold required. simpl. destruct k; [done |].
    replace (Z.of_nat (S k) =? 0) with false; [done |]. symmetry. apply Z.eqb_neq. clear. lia. }
  unfold all_spec, DdkQueryEnumerateValues. destruct (has (Flags qp) RTL_QUERY_REGISTRY_DELETE) eqn:Hdel.
  - destruct (drain_spec _ _ _ _ _ _ _) as [[[[[st1 t1] d1] cs1] k] |] eqn:Es; [| done]. intros [= <- <- <- <-].
    destruct (drain_run _ fuel fuel key qp ctx 0 STATUS_SUCCESS s st1 t1 d1 cs1 k O Nd Hdel Tok Lf ltac:(simpl; lia) Es)
      as (s' & El & R). change (Z.of_nat 0) with 0 in El. rewrite (bind_run _ _ _ _ _ El). exists s'.
    split; [| exact R]. unfold mret, M_ret. do 2 f_equal. apply Hreq.
  - destruct (each_run _ fuel fuel key qp ctx 0 0 STATUS_SUCCESS s O Nd Hdel Tok Lf eq_refl ltac:(simpl; lia))
      as (st1 & d1 & cs1 & k & s' & Es & El & D & Eo). rewrite Es. intros [= <- <- <- <-].
    change (Z.of_nat 0) with 0 in El. rewrite (bind_run _ _ _ _ _ El). exists s'.
    split; [| done]. unfold mret, M_ret. do 2 f_equal. apply Hreq.
Qed.

(** ** The table *)

(** Where the loop over the table is: at the key [n], with the handles [S] open and
    perhaps one more. *)
Record at_key (S : gset Z) (nb : node) (s : rstate) (base key : Z) (n : node) : Prop := {
  ak_base : base ∈ S;
  ak_zero : base <> 0;
  ak_root : node_in s base = nb;
  ak_node : node_in s key = n;
  ak_open : key = base /\ open_keys (win s) = S \/ key ∉ S /\ key <> 0 /\ open_keys (win s) = {[key]} ∪ S
}.

Lemma at_key_open S nb s base key n : at_key S nb s base key n -> is_open s key /\ S ⊆ open_keys (win s).
Proof.
  intros [Ob _ _ _ Ok']. unfold is_open. destruct Ok' as [[-> ->] | (_ & _ & ->)]; [done |].
  split; [by apply elem_of_union_l, elem_of_singleton | apply union_subseteq_r].
Qed.

Lemma at_key_did S nb s s' base key n t d cs : at_key S nb s base key n -> did (open_keys (win s)) s s' t d cs ->
  open_keys (win s') = open_keys (win s) -> at_key S nb s' base key n.
Proof.
  intros A D Eo. destruct (at_key_open _ _ _ _ _ _ A) as [Ok' Sub]. destruct A. split; try done; try (by rewrite Eo).
  - rewrite (di_nodes _ _ _ _ _ _ D); [done | by apply Sub].
  - rewrite (di_nodes _ _ _ _ _ _ D); [done | exact Ok'].
Qed.

(** Going back to the key the query starts from. *)
Lemma back_run S nb s base key n : at_key S nb s base key n ->
  exists s', (if negb (key =? 0) && negb (key =? base) then close_key key else mret tt) s = Ok (tt, s') /\
    did S s s' (tree_in s) (drv s) [] /\ at_key S nb s' base base nb.
Proof.
  intros A. destruct (at_key_open _ _ _ _ _ _ A) as [Ok' Sub]. destruct A. destruct ak_open0 as [[-> Eo] | (Nk & Nz & Eo)].
  - rewrite Z.eqb_refl, andb_false_r. exists s. split; [done |]. split; [apply did_refl |]. split; try done. by left.
  - replace (negb (key =? 0) && negb (key =? base)) with true.
    2: { symmetry. apply andb_true_iff. split; apply negb_true_iff, Z.eqb_neq; [done | intros ->; by apply Nk]. }
    destruct (close_key_run s key Ok') as (w & E & Ew & Sn & Et). exists (set_win w s). split; [exact E |].
    assert (open_keys w = S) as EwS by (apply (back_key' _ _ key Nk); by rewrite <- Eo).
    assert (forall h, h ∈ S -> node_of w h = node_in s h) as Hn by (intros h Hh; apply Sn; [by apply Sub | by rewrite EwS]).
    split; [split; try done; by rewrite app_nil_r |]. split; try done; simpl; [by rewrite <- ak_root0; apply Hn | by rewrite <- ak_root0; apply Hn | by left].
Qed.

(** Opening a key below the one the query starts from. *)
Lemma sub_run S nb s base p : at_key S nb s base base nb ->
  exists rc k s', open_key false base p s = Ok ((rc, k), s') /\ did S s s' (tree_in s) (drv s) [] /\
    match child (tree_in s) nb p with
    | inl e => rc = e /\ rc <> ERROR_SUCCESS /\ at_key S nb s' base base nb
    | inr n => rc = ERROR_SUCCESS /\ at_key S nb s' base k n
    end.
Proof.
  intros A. destruct (at_key_open _ _ _ _ _ _ A) as [Ok' _]. destruct A.
  assert (open_keys (win s) = S) as Eo by (destruct ak_open0 as [[_ Eo] | (Nb & _)]; done).
  destruct (open_key_run s false base p Ok') as (rc & k & w & E & Hh & Sn & Et & C).
  exists rc, k, (set_win w s). split; [exact E |].
  assert (forall h, h ∈ S -> h ∈ open_keys w) as Keep.
  { intros h Hh'. unfold handles_after in Hh. rewrite Eo in Hh. destruct (decide (rc = ERROR_SUCCESS)); [| by rewrite Hh].
    destruct (is_empty p); [destruct Hh as [_ ->] | destruct Hh as (_ & _ & ->); apply elem_of_union_r]; done. }
  assert (forall h, h ∈ S -> node_of w h = node_in s h) as Hn by (intros h Hh'; apply Sn; [by rewrite Eo | by apply Keep]).
  split; [split; try done; by rewrite app_nil_r |].
  rewrite ak_root0 in C. destruct (child (tree_in s) nb p) as [e | n] eqn:Ec.
  - subst rc. pose proof (child_error _ _ _ _ Ec) as Ne. split; [done |]. split; [done |].
    pose proof (handles_error _ _ _ _ _ _ Ne Hh) as Ew. rewrite Eo in Ew.
    split; try done; unfold node_in; cbn [win set_win]; [by rewrite Hn | by rewrite Hn | by left].
  - destruct C as [-> Ek]. split; [done |]. unfold handles_after in Hh. rewrite decide_True, Eo in Hh by done.
    split; try done; unfold node_in; cbn [win set_win]; [by rewrite Hn |]. destruct (is_empty p); [left | right]; done.
Qed.

(** An entry for a key: the rest goes on at the same key. *)
Lemma key_run fuel key qp ctx status s (next : Z -> Z -> R outcome) st t d cs : is_open s key ->
  has (Flags qp) RTL_QUERY_REGISTRY_DIRECT = false -> tree_ok fuel (tree_in s) -> (QueryRoutine qp =? 0) = false ->
  key_spec qp ctx (node_in s key) (tree_in s) (drv s) = Some (st, t, d, cs) ->
  exists s', query_key realloc pool fuel key qp ctx false status next s = next st key s' /\
    did (open_keys (win s)) s s' t d cs /\ open_keys (win s') = open_keys (win s) /\ tree_ok fuel t.
Proof.
  intros O Nd Tok Nr. unfold key_spec, query_key. rewrite Nr, Nd. destruct (has (Flags qp) RTL_QUERY_REGISTRY_NOVALUE).
  - destruct (call_routine_run (QueryRoutine qp) (query_call_of qp REG_NONE [] 0 ctx) s) as (s' & E & D).
    change (trim (query_call_of qp REG_NONE [] 0 ctx)) with (key_call qp ctx) in *. rewrite (bind_run _ _ _ _ _ E).
    destruct (routine (QueryRoutine qp) (key_call qp ctx) (drv s)) as [st1 d1]. intros [= <- <- <- <-]. exists s'.
    split; [done |]. split; [by apply did_delivered |]. split; [by rewrite (dl_win _ _ _ _ D) | done].
  - intros Es. destruct (all_run fuel key qp ctx s st t d cs O Nd Tok Es) as (s' & El & R).
    rewrite (bind_run _ _ _ _ _ El). by exists s'.
Qed.

Definition no_direct (qp : RTL_QUERY_REGISTRY_TABLE) : Prop := has (Flags qp) RTL_QUERY_REGISTRY_DIRECT = false.

(** What the rest of the table does, for the proof of an entry. *)
Definition goes_on (S : gset Z) (nb : node) (fuel : nat) (base ctx : Z) (table : list RTL_QUERY_REGISTRY_TABLE) : Prop :=
  forall s key n status st t d cs, at_key S nb s base key n -> tree_ok fuel (tree_in s) ->
    query_spec nb ctx table status n (tree_in s) (drv s) = Some (st, t, d, cs) ->
    exists key' n' s', query_loop realloc pool fuel base table ctx false status key s = Ok (Broke st key', s') /\
      did S s s' t d cs /\ at_key S nb s' base key' n'.

Lemma goes_on_after S nb fuel base ctx table s s1 key n st t1 d1 cs1 r : goes_on S nb fuel base ctx table ->
  at_key S nb s1 base key n -> tree_ok fuel t1 -> did S s s1 t1 d1 cs1 ->
  then_calls cs1 (query_spec nb ctx table st n t1 d1) = Some r ->
  exists key' n' s', query_loop realloc pool fuel base table ctx false st key s1 = Ok (Broke r.1.1.1 key', s') /\
    did S s s' r.1.1.2 r.1.2 r.2 /\ at_key S nb s' base key' n'.
Proof.
  intros G A Tok D E. destruct (query_spec nb ctx table st n t1 d1) as [[[[st' t'] d'] cs'] |] eqn:Eq; [| done]. injection E as <-.
  rewrite <- (di_tree _ _ _ _ _ _ D), <- (di_drv _ _ _ _ _ _ D) in Eq. rewrite <- (di_tree _ _ _ _ _ _ D) in Tok.
  destruct (G s1 key n st st' t' d' cs' A Tok Eq) as (key' & n' & s' & El & D' & A'). exists key', n', s'.
  split; [exact El |]. split; [by eapply did_trans | exact A'].
Qed.

(** The entry for a whole key, in the table. *)
Lemma whole_run S nb fuel base ctx table qp status s s1 key n r : goes_on S nb fuel base ctx table -> no_direct qp ->
  at_key S nb s1 base key n -> tree_ok fuel (tree_in s1) -> did S s s1 (tree_in s) (drv s) [] ->
  (if QueryRoutine qp =? 0 then Some (status, tree_in s, drv s, []) else
   match key_spec qp ctx n (tree_in s) (drv s) with
   | Some (st, t, d, cs) => then_calls cs (query_spec nb ctx table st n t d)
   | None => None
   end) = Some r ->
  exists key' n' s', query_key realloc pool fuel key qp ctx false status
      (query_loop realloc pool fuel base table ctx false) s1 = Ok (Broke r.1.1.1 key', s') /\
    did S s s' r.1.1.2 r.1.2 r.2 /\ at_key S nb s' base key' n'.
Proof.
  intros G Nd A Tok D E. destruct (QueryRoutine qp =? 0) eqn:Er.
  - injection E as <-. unfold query_key. rewrite Er. by exists key, n, s1.
  - destruct (at_key_open _ _ _ _ _ _ A) as [Ok' Sub].
    destruct (key_spec qp ctx n (tree_in s) (drv s)) as [[[[st t] d] cs] |] eqn:Es; [| done].
    rewrite <- (ak_node _ _ _ _ _ _ A), <- (di_tree _ _ _ _ _ _ D), <- (di_drv _ _ _ _ _ _ D) in Es.
    destruct (key_run fuel key qp ctx status s1 (query_loop realloc pool fuel base table ctx false) st t d cs Ok' Nd Tok Er Es)
      as (s2 & Eq & D2 & Eo & Tok2). rewrite Eq.
    apply (goes_on_after S nb fuel base ctx table s s2 key n st t d cs r G); try done; [by eapply at_key_did |].
    apply (did_trans S s s1 s2 (tree_in s) t (drv s) d [] cs D). by apply (did_sub (open_keys (win s1))).
Qed.

(** The start of an entry. *)
Lemma start_run S nb s base key n (b : bool) : at_key S nb s base key n ->
  exists s1, (if b then _ ← (if negb (key =? 0) && negb (key =? base) then close_key key else mret tt); mret base
              else mret key) s = Ok (if b then base else key, s1) /\
    did S s s1 (tree_in s) (drv s) [] /\ at_key S nb s1 base (if b then base else key) (if b then nb else n).
Proof.
  intros A. destruct b; [| exists s; split; [done |]; split; [apply did_refl | done]].
  destruct (back_run _ _ _ _ _ _ A) as (s1 & E & D & A1). exists s1. by rewrite (bind_run _ _ _ _ _ E).
Qed.

Lemma did_nil_trans S s s1 s2 t d cs : did S s s1 (tree_in s) (drv s) [] -> did S s1 s2 t d cs -> did S s s2 t d cs.
Proof. intros D1 D2. exact (did_trans S s s1 s2 (tree_in s) t (drv s) d [] cs D1 D2). Qed.

(** An entry for a subkey. *)
Lemma subkey_run S nb fuel base ctx table qp status s s1 p r : goes_on S nb fuel base ctx table -> no_direct qp ->
  at_key S nb s1 base base nb -> tree_ok fuel (tree_in s1) -> did S s s1 (tree_in s) (drv s) [] ->
  (match child (tree_in s) nb p with
   | inl e => Some (DdkGetRegistryStatus e, tree_in s, drv s, [])
   | inr n => if QueryRoutine qp =? 0 then query_spec nb ctx table status n (tree_in s) (drv s) else
       if QueryRoutine qp =? 0 then Some (status, tree_in s, drv s, []) else
       match key_spec qp ctx n (tree_in s) (drv s) with
       | Some (st, t, d, cs) => then_calls cs (query_spec nb ctx table st n t d)
       | None => None
       end
   end) = Some r ->
  exists key' n' s', ('(rc, k) ← open_key false base p;
      if negb (rc =? ERROR_SUCCESS) then mret (Broke (DdkGetRegistryStatus rc) base)
      else if QueryRoutine qp =? 0 then query_loop realloc pool fuel base table ctx false status k
      else query_key realloc pool fuel k qp ctx false status (query_loop realloc pool fuel base table ctx false)) s1 =
      Ok (Broke r.1.1.1 key', s') /\
    did S s s' r.1.1.2 r.1.2 r.2 /\ at_key S nb s' base key' n'.
Proof.
  intros G Nd A Tok D E. destruct (sub_run _ _ _ _ p A) as (rc & k & s2 & Eo & D2 & M). rewrite (bind_run _ _ _ _ _ Eo).
  rewrite (di_tree _ _ _ _ _ _ D) in M. pose proof (did_nil_trans _ _ _ _ _ _ _ D D2) as D02.
  assert (tree_in s2 = tree_in s) as Et by (rewrite (di_tree _ _ _ _ _ _ D2); apply (di_tree _ _ _ _ _ _ D)).
  assert (drv s2 = drv s) as Ed by (rewrite (di_drv _ _ _ _ _ _ D2); apply (di_drv _ _ _ _ _ _ D)).
  rewrite (di_tree _ _ _ _ _ _ D) in D02, Tok. rewrite (di_drv _ _ _ _ _ _ D) in D02. rewrite <- Et in Tok.
  destruct (child (tree_in s) nb p) as [e | n].
  - destruct M as (-> & Ne & A2). apply Z.eqb_neq in Ne as ->. injection E as <-. by exists base, nb, s2.
  - destruct M as [-> A2]. rewrite Z.eqb_refl. cbn [negb]. destruct (QueryRoutine qp =? 0) eqn:Er.
    + apply (goes_on_after S nb fuel base ctx table s s2 k n status (tree_in s) (drv s) [] r G A2); try done; [by rewrite <- Et |].
      rewrite E. by destruct r as [[[? ?] ?] ?].
    + apply (whole_run S nb fuel base ctx table qp status s s2 k n r G Nd A2 Tok D02). by rewrite Er.
Qed.

(** An entry for a value. *)
Lemma value_run S nb fuel base ctx table qp s s1 key n v r : goes_on S nb fuel base ctx table -> no_direct qp ->
  at_key S nb s1 base key n -> tree_ok fuel (tree_in s1) -> did S s s1 (tree_in s) (drv s) [] ->
  QueryName qp = Some v ->
  (let '(st, d, cs) := value_spec qp ctx (tree_in s) n (drv s) in
   then_calls cs (query_spec nb ctx table st n (deleted qp st (tree_in s) n (QueryName qp)) d)) = Some r ->
  exists key' n' s', (status ← DdkQueryValue realloc pool key qp ctx false;
      _ ← (if NT_SUCCESS status && has (Flags qp) RTL_QUERY_REGISTRY_DELETE
           then reg_change key (RegDeleteKeyValueW key [] (QueryName qp)) else mret 0);
      query_loop realloc pool fuel base table ctx false status key) s1 = Ok (Broke r.1.1.1 key', s') /\
    did S s s' r.1.1.2 r.1.2 r.2 /\ at_key S nb s' base key' n'.
Proof.
  intros G Nd A Tok D Ev E. destruct (at_key_open _ _ _ _ _ _ A) as [Ok' Sub].
  destruct (query_value_run fuel key qp ctx s1 Ok' Nd Tok) as (st & d & cs & s2 & Es & Eq & Dl).
  rewrite (ak_node _ _ _ _ _ _ A), (di_tree _ _ _ _ _ _ D), (di_drv _ _ _ _ _ _ D) in Es. rewrite Es in E.
  rewrite (bind_run _ _ _ _ _ Eq).
  assert (win s2 = win s1) as Ew by apply Dl.
  assert (is_open s2 key) as O2 by (unfold is_open; by rewrite Ew).
  assert (tree_in s2 = tree_in s) as Et by (unfold tree_in; rewrite Ew; apply (di_tree _ _ _ _ _ _ D)).
  assert (node_in s2 key = n) as En by (unfold node_in; rewrite Ew; apply (ak_node _ _ _ _ _ _ A)).
  destruct (delete_run fuel (QueryName qp) 0 qp key st s2 v Ev O2) as (rd & s3 & Ed & D3 & Eo3 & Tok3 & _).
  { unfold tree_in. rewrite Ew. exact Tok. }
  rewrite (bind_run _ _ _ _ _ Ed). rewrite Et, En, (dl_drv _ _ _ _ Dl), Ew in D3. rewrite Ew in Eo3.
  pose proof (did_trans _ _ _ _ _ _ _ _ _ _ (did_delivered (open_keys (win s1)) _ _ _ _ Dl) D3) as D13. rewrite app_nil_r in D13.
  rewrite (di_tree _ _ _ _ _ _ D13) in Tok3.
  apply (goes_on_after S nb fuel base ctx table s s3 key n st (deleted qp st (tree_in s) n (QueryName qp)) d cs r G);
    try done; [by eapply at_key_did |].
  apply (did_nil_trans S s s1 s3 _ _ _ D). by apply (did_sub (open_keys (win s1))).
Qed.

Lemma loop_run S nb fuel base ctx table : Forall no_direct table -> goes_on S nb fuel base ctx table.
Proof.
  induction table as [|qp table IH]; intros Hd s key n status st t d cs A Tok E; cbn [query_spec query_loop] in *;
    destruct (NT_SUCCESS status); cbn [negb] in *; try done;
    [injection E as <- <- <- <-; exists key, n, s; split; [done |]; split; [apply did_refl | done] | |
     injection E as <- <- <- <-; exists key, n, s; split; [done |]; split; [apply did_refl | done]].
  inversion Hd as [|? ? Nd Hd']; subst. specialize (IH Hd').
  set (b := has (Flags qp) RTL_QUERY_REGISTRY_SUBKEY || has (Flags qp) RTL_QUERY_REGISTRY_TOPKEY) in *.
  unfold query_entry. fold b. destruct (start_run S nb s base key n b A) as (s1 & Es & D1 & A1).
  rewrite (bind_run _ _ _ _ _ Es). cbn beta.
  assert (tree_ok fuel (tree_in s1)) as Tok1 by (by rewrite (di_tree _ _ _ _ _ _ D1)).
  destruct (has (Flags qp) RTL_QUERY_REGISTRY_SUBKEY) eqn:Esub.
  - destruct (QueryName qp) as [p |].
    + exact (subkey_run S nb fuel base ctx table qp status s s1 p (st, t, d, cs) IH Nd A1 Tok1 D1 E).
    + injection E as <- <- <- <-. exists base, nb, s1. done.
  - destruct (QueryName qp) as [v |] eqn:Ev; cbn [bool_decide].
    + rewrite bool_decide_false in E |- * by done. rewrite <- Ev in E |- *.
      exact (value_run S nb fuel base ctx table qp s s1 _ _ v (st, t, d, cs) IH Nd A1 Tok1 D1 Ev E).
    + rewrite bool_decide_true in E |- * by done.
      exact (whole_run S nb fuel base ctx table qp status s s1 _ _ (st, t, d, cs) IH Nd A1 Tok1 D1 E).
Qed.

(** ** The call *)

(** The calls made and the tree left, with the handles that were open. *)
Definition finished (s s' : rstate) (t : tree) (d : driver) (cs : list query_call) : Prop :=
  did (open_keys (win s)) s s' t d cs /\ open_keys (win s') = open_keys (win s).

(** Closing the key the query starts from, at the end. *)
Lemma close_start w0 s k : hive ∈ open_keys w0 -> hive <> 0 -> new_handle w0 (win s) k ->
  exists s', close_unless_hive k s = Ok (tt, s') /\ did (open_keys w0) s s' (tree_in s) (drv s) [] /\
    open_keys (win s') = open_keys w0.
Proof.
  intros Oh N Hn. unfold close_unless_hive. destruct Hn as [(-> & Eo) | (Nk & Nz & Nh & Eo)].
  - rewrite Z.eqb_refl, andb_false_r. exists s. split; [done |]. split; [apply did_refl | done].
  - apply Z.eqb_neq in Nz as ->. apply Z.eqb_neq in Nh as ->. cbn [negb andb].
    destruct (close_key_run s k) as (w & E & Ew & Sn & Et).
    { unfold is_open. rewrite Eo. by apply elem_of_union_l, elem_of_singleton. }
    assert (open_keys w = open_keys w0) as Ew0 by (apply (back_key' _ _ k Nk); by rewrite <- Eo).
    exists (set_win w s). split; [exact E |]. split; [| done]. split; try done; [| by rewrite app_nil_r].
    intros h Hh. apply Sn; [rewrite Eo; by apply elem_of_union_r | by rewrite Ew0].
Qed.

Lemma query_run fuel s r p rel table ctx : ready s -> has r RTL_REGISTRY_HANDLE = false ->
  DdkGetRelativePath r s = Ok (rel, s) -> Forall no_direct table -> tree_ok fuel (tree_in s) ->
  match resolve (tree_in s) (node_in s hive) rel p with
  | inl e => exists s', RtlQueryRegistryValues realloc pool fuel r (AtPath p) table ctx false s =
        Ok (DdkGetRegistryStatus e, s') /\ finished s s' (tree_in s) (drv s) []
  | inr nb => forall st t d cs, query_spec nb ctx table STATUS_SUCCESS nb (tree_in s) (drv s) = Some (st, t, d, cs) ->
      exists s', RtlQueryRegistryValues realloc pool fuel r (AtPath p) table ctx false s = Ok (st, s') /\
        finished s s' t d cs
  end.
Proof.
  intros Rd Hr Er Hd Tok. unfold RtlQueryRegistryValues. pose proof Rd as [Oh N].
  destruct (get_key_run false s r p rel Rd Hr Er) as (status & k & w & E & Sn & C & G).
  rewrite (bind_run _ _ _ _ _ E). destruct G as [(-> & Hk & Gt) | (Es & -> & Eo & Ge)].
  - rewrite C in Gt. fold (tree_in s) in Gt. rewrite Gt. intros st t d cs Eq. change (negb (NT_SUCCESS STATUS_SUCCESS)) with false. cbn iota.
    assert (is_open s hive -> at_key (open_keys w) (node_of w k) (set_win w s) k k (node_of w k)) as A.
    { intros _. split; try done; [by apply (new_handle_open (win s)) | by apply (new_handle_nonzero (win s) w) | by left]. }
    specialize (A Oh). assert (tree_in (set_win w s) = tree_in s) as Ew by exact C.
    destruct (loop_run (open_keys w) (node_of w k) fuel k ctx table Hd (set_win w s) k _ STATUS_SUCCESS st t d cs A)
      as (key' & n' & s2 & El & D2 & A2); [by rewrite Ew | by rewrite Ew |].
    rewrite (bind_run _ _ _ _ _ El). cbn iota. destruct (back_run _ _ _ _ _ _ A2) as (s3 & E3 & D3 & A3).
    rewrite (bind_run _ _ _ _ _ E3), Hr.
    assert (open_keys (win s3) = open_keys w) as Eo3 by (destruct (ak_open _ _ _ _ _ _ A3) as [[_ Eo] | (Nb & _)]; [done | by destruct Nb; apply A3]).
    destruct (close_start (win s) s3 k Oh N) as (s4 & E4 & D4 & Eo4).
    { unfold new_handle in *. by rewrite Eo3. }
    rewrite (bind_run _ _ _ _ _ E4). exists s4. split; [done |]. split; [| done].
    assert (did (open_keys (win s)) s (set_win w s) (tree_in s) (drv s) []) as D1.
    { split; try done; [| by rewrite app_nil_r]. intros h Hh. apply Sn; [done |]. by apply (new_handle_sub _ _ _ Hk). }
    pose proof (did_sub _ (open_keys (win s)) _ _ _ _ _ (new_handle_sub _ _ _ Hk) (did_trans _ _ _ _ _ _ _ _ _ _ D2 D3)) as D23.
    pose proof (did_trans _ _ _ _ _ _ _ _ _ _ (did_trans _ _ _ _ _ _ _ _ _ _ D1 D23) D4) as D.
    rewrite !app_nil_r in D. rewrite (di_tree _ _ _ _ _ _ D3), (di_drv _ _ _ _ _ _ D3) in D.
    rewrite (di_tree _ _ _ _ _ _ D2), (di_drv _ _ _ _ _ _ D2) in D. exact D.
  - destruct (Ge eq_refl) as (e & Ee & Est). fold (tree_in s) in Ee. rewrite Ee, Es. cbn [negb].
    exists (set_win w s). split; [by rewrite Est |]. split; [| exact Eo].
    pose proof (did_set_win s w (conj Eo Sn)) as D. rewrite C in D. exact D.
Qed.

End spec.

(** C11. RtlQueryRegistryValues does what the table means: the routines get the calls of
    [query_spec], in that order and with that data, until one fails; what is to be
    deleted is deleted; and the result is its status.  If there is no key at the path,
    that is the result.  The values may have any size, names and strings any contents,
    with or without NULs.  An entry that deletes all values of a key delivers and deletes
    the first that the key lists, whatever the order after a deletion, until none is left
    or one fails; nothing is said if a deletion fails.  Afterwards the handles open are
    those before, every buffer is freed, and the driver's memory is as it was. *)
Theorem RtlQueryRegistryValues_refines `{Environment} `{WINREG} `{!WINREG_Laws} `{QUERY_ROUTINES} `{!QUERY_Laws} realloc pool fuel s r p rel table ctx
    (Mem : enough_memory realloc) (Rd : ready s) (Hr : has r RTL_REGISTRY_HANDLE = false)
    (Er : DdkGetRelativePath r s = Ok (rel, s)) (Hd : Forall no_direct table) (Tok : tree_ok fuel (tree_in s)) :
  match resolve (tree_in s) (node_in s hive) rel p with
  | inl e => exists s', RtlQueryRegistryValues realloc pool fuel r (AtPath p) table ctx false s =
        Ok (DdkGetRegistryStatus e, s') /\ finished s s' (tree_in s) (drv s) []
  | inr nb => forall st t d cs, query_spec nb ctx table STATUS_SUCCESS nb (tree_in s) (drv s) = Some (st, t, d, cs) ->
      exists s', RtlQueryRegistryValues realloc pool fuel r (AtPath p) table ctx false s = Ok (st, s') /\
        finished s s' t d cs
  end.
Proof. exact (query_run realloc pool Mem fuel s r p rel table ctx Rd Hr Er Hd Tok). Qed.

(** An entry for a whole key that also asks for its values to be stored is refused,
    but by a return that skips the end of the function: the key at the path stays open. *)
Theorem direct_without_name_leaks `{Environment} `{WINREG} `{!WINREG_Laws} `{QUERY_ROUTINES} realloc pool fuel s r p rel
    qp table ctx nb (Rd : ready s) (Hr : has r RTL_REGISTRY_HANDLE = false)
    (Er : DdkGetRelativePath r s = Ok (rel, s)) (En : resolve (tree_in s) (node_in s hive) rel p = inr nb)
    (Hq : QueryName qp = None /\ QueryRoutine qp <> 0 /\ has (Flags qp) RTL_QUERY_REGISTRY_SUBKEY = false)
    (Hd : has (Flags qp) RTL_QUERY_REGISTRY_DIRECT = true) :
  exists k s', RtlQueryRegistryValues realloc pool fuel r (AtPath p) (qp :: table) ctx false s =
      Ok (STATUS_INVALID_PARAMETER, s') /\
    new_handle (win s) (win s') k /\ node_in s' k = nb.
Proof.
  unfold RtlQueryRegistryValues. destruct (get_key_run false s r p rel Rd Hr Er) as (status & k & w & E & Sn & C & G).
  rewrite (bind_run _ _ _ _ _ E). exists k, (set_win w s).
  destruct G as [(-> & Hk & Gt) | (_ & _ & _ & Ge)].
  - rewrite C in Gt. unfold tree_in in En. rewrite En in Gt. injection Gt as Gt. cbn iota.
    change (negb (NT_SUCCESS STATUS_SUCCESS)) with false. cbn iota.
    rewrite (bind_run _ _ (set_win w s) (Returned STATUS_INVALID_PARAMETER) (set_win w s)); [done |].
    cbn [query_loop]. change (negb (NT_SUCCESS STATUS_SUCCESS)) with false. cbn iota.
    unfold query_entry. destruct Hq as (Qn & Qr & Qs). rewrite Qs. cbn [orb].
    rewrite (bind_run _ _ (set_win w s) k (set_win w s)).
    2: { destruct (has (Flags qp) RTL_QUERY_REGISTRY_TOPKEY); [| done]. rewrite Z.eqb_refl, andb_false_r.
         by rewrite (bind_run _ _ (set_win w s) tt (set_win w s)). }
    rewrite bool_decide_true by done. unfold query_key. apply Z.eqb_neq in Qr as ->. by rewrite Hd.
  - destruct (Ge eq_refl) as (e & Ee & _). unfold tree_in in En. by rewrite En in Ee.
Qed.
