(* ===== verification/RegistryDirect.v ===== *)
(** * RegistryDirect: values stored in the driver's memory

    A query entry can name a place for its value.  A string goes into the buffer of the
    UNICODE_STRING there, cut to its size; numbers and bytes go to the place itself, whose
    first four bytes may give its size.  What is written stays within that size. *)

From S2P Require Import Prelude Strings Objects Memory Registry RegistryQuery RegistrySpec RegistryRead.

Section direct.
Context `{Environment} `{WINREG} `{!WINREG_Laws} `{QUERY_ROUTINES}.
Context (realloc : Z -> option (list Z)) (pool : mem -> Z -> option (Z * list Z)).

Lemma storeM_run s a bs m : store a bs (memory s) = Ok m -> storeM a bs s = Ok (tt, set_memory m s).
Proof. intros E. unfold storeM. rewrite (bind_run _ _ _ _ _ (gets_run memory s)). by rewrite (bind_run _ _ _ _ _ (lift_run _ _ s E)). Qed.

Lemma loadM_run s n a bs : load n a (memory s) = Ok bs -> loadM n a s = Ok (bs, s).
Proof. intros E. unfold loadM. rewrite (bind_run _ _ _ _ _ (gets_run memory s)). by rewrite (lift_run _ _ s E). Qed.

(** ** Numbers and bytes *)

(** How much of the place at [p] is written for [bytes] bytes, in the memory [m]. *)
Definition extent (m : mem) (p bytes : Z) : Z :=
  if bytes <=? 4 then bytes else
  match load 4 p m with
  | Ok b =>
      let size := s32 (le_combine b) in
      if size <? 0 then Z.min (- size) bytes else Z.min size (bytes + 8)
  | Err _ => 0
  end.

(** What is written there. *)
Definition stored_bytes (m : mem) (p t : Z) (data : list Z) (bytes : Z) : list Z :=
  match load 4 p m with
  | Ok b =>
      if (bytes <=? 4) || (s32 (le_combine b) <? 0) then data
      else le_split 4 bytes ++ le_split 4 t ++ data
  | Err _ => data
  end.

(** The place has the size it says. *)
Definition place (m : mem) (p bytes : Z) : Prop :=
  if bytes <=? 4 then mapped m p bytes else
  exists b, load 4 p m = Ok b /\ - 2 ^ 31 < s32 (le_combine b) /\
    mapped m p (Z.abs (s32 (le_combine b))).

(** A store of the first bytes of a list. *)
Lemma store_take s p bs k : 0 <= k <= Z.of_nat (length bs) -> mapped (memory s) p k ->
  exists m, store p (take (Z.to_nat k) bs) (memory s) = Ok m /\ load (Z.to_nat k) p m = Ok (take (Z.to_nat k) bs) /\
    only p k (memory s) m /\ dom m = dom (memory s).
Proof.
  intros Hk Hm. assert (length (take (Z.to_nat k) bs) = Z.to_nat k) as Lt by (rewrite length_take; lia).
  destruct (store_run (take (Z.to_nat k) bs) p (memory s)) as (m & E & Ld & O & D).
  { rewrite Lt. by rewrite Z2Nat.id by lia. }
  exists m. rewrite Lt in Ld, O. rewrite Z2Nat.id in O by lia. done.
Qed.

Lemma mapped_sub m a n b k : mapped m a n -> a <= b -> b + k <= a + n -> mapped m b k.
Proof. intros Hm L R x Hx. apply Hm. unfold in_range in *. lia. Qed.

(** Two stores next to each other are one. *)
Lemma load_two m n k a x y : load n a m = Ok x -> load k (a + Z.of_nat n) m = Ok y -> load (n + k) a m = Ok (x ++ y).
Proof. intros E1 E2. rewrite load_app, E1, bind_ok, E2. done. Qed.

Lemma store_binary_run s p t data bytes : 0 <= bytes < 2 ^ 31 -> bytes <= Z.of_nat (length data) ->
  place (memory s) p bytes ->
  exists m, store_binary p t data bytes s = Ok (tt, set_memory m s) /\
    load (Z.to_nat (extent (memory s) p bytes)) p m =
      Ok (take (Z.to_nat (extent (memory s) p bytes)) (stored_bytes (memory s) p t data bytes)) /\
    only p (extent (memory s) p bytes) (memory s) m /\ dom m = dom (memory s).
Proof.
  intros Hb Ld. unfold place, store_binary, extent, stored_bytes. destruct (Z.leb_spec bytes 4) as [L4 | G4]; cbn [orb].
  - intros Hm. rewrite (bind_run _ _ _ _ _ (lift_run _ _ s (bytes_of_run data bytes ltac:(lia)))).
    destruct (store_take s p data bytes ltac:(lia) Hm) as (m & E & R). exists m. rewrite (storeM_run _ _ _ _ E). split; [done |].
    by destruct (load 4 p (memory s)).
  - intros (b & Eb & Hs & Hm). rewrite Eb. rewrite (bind_run _ _ _ _ _ (loadM_run _ _ _ _ Eb)).
    pose proof (s32_range (le_combine b)) as Rs. set (size := s32 (le_combine b)) in *.
    destruct (Z.ltb_spec size 0) as [Ng | Ps].
    + rewrite (s32_id (- size)), (s32_id bytes) by lia. replace (u64 (Z.min (- size) bytes)) with (Z.min (- size) bytes)
        by (unfold u64; rewrite Z.mod_small; lia).
      rewrite (bind_run _ _ _ _ _ (lift_run _ _ s (bytes_of_run data (Z.min (- size) bytes) ltac:(lia)))).
      destruct (store_take s p data (Z.min (- size) bytes) ltac:(lia)) as (m & E & R).
      { apply (mapped_sub _ p (Z.abs size)); [exact Hm | lia | lia]. }
      exists m. by rewrite (storeM_run _ _ _ _ E).
    + set (v := le_split 4 bytes ++ le_split 4 t). assert (length v = 8%nat) as Lv by done.
      destruct (store_take s p v (Z.min size 8) ltac:(lia)) as (m1 & E1 & L1 & O1 & D1).
      { apply (mapped_sub _ p (Z.abs size)); [exact Hm | lia | lia]. }
      rewrite (bind_run _ _ _ _ _ (storeM_run _ _ _ _ E1)). rewrite app_assoc. fold v.
      destruct (Z.gtb_spec size 8) as [G8 | L8].
      * rewrite (bind_run _ _ _ _ _ (lift_run _ _ (set_memory m1 s) (bytes_of_run data (Z.min (size - 8) bytes) ltac:(lia)))).
        destruct (store_take (set_memory m1 s) (p + 8) data (Z.min (size - 8) bytes) ltac:(lia)) as (m & E & L2 & O2 & D2).
        { apply (mapped_dom (memory s)); [exact D1 |]. apply (mapped_sub _ p (Z.abs size)); [exact Hm | lia | lia]. }
        exists m. rewrite (storeM_run _ _ _ _ E). split; [done |]. cbn [memory set_memory] in *.
        replace (Z.min size 8) with 8 in * by lia. split; [| split; [| congruence]].
        -- replace (Z.to_nat (Z.min size (bytes + 8))) with (8 + Z.to_nat (Z.min (size - 8) bytes))%nat by lia.
           rewrite take_app_ge by lia. rewrite Lv. replace (8 + Z.to_nat (Z.min (size - 8) bytes) - 8)%nat with (Z.to_nat (Z.min (size - 8) bytes)) by lia.
           apply load_two; [| exact L2]. rewrite (load_only _ _ _ _ _ _ O2) by lia. change (Z.to_nat 8) with 8%nat in L1.
           rewrite L1. rewrite <- Lv. by rewrite firstn_all.
        -- apply (only_trans _ _ _ m1); eapply only_weaken; [exact O1 | lia | lia | exact O2 | lia | lia].
      * exists m1. split; [done |]. replace (Z.min size 8) with size in * by lia. replace (Z.min size (bytes + 8)) with size by lia.
        split; [| done]. rewrite take_app_le by lia. exact L1.
Qed.

(** ** Strings *)

(** The bytes of a string without the NUL at its end, if there is one. *)
Definition text_length (data : list Z) (bytes : Z) : Z :=
  match wchar_end data bytes with
  | Ok true => if bytes >=? 2 then bytes - 2 else bytes
  | _ => bytes
  end.

(** A UNICODE_STRING at [u] that has a buffer of [n] bytes at [b]. *)
Record string_at (m : mem) (u b n : Z) : Prop := {
  sa_header : mapped m u 16;
  sa_buffer : mapped m b n;
  sa_apart : u + 16 <= b \/ b + n <= u;
  sa_max : exists x, load 2 (u + 2) m = Ok x /\ le_combine x = n;
  sa_pointer : exists x, load 8 (u + 8) m = Ok x /\ le_combine x = b;
  sa_range : 0 <= n < 2 ^ 16 /\ b <> 0
}.

(** How many bytes of the text there is room for, and how many zeros follow them. *)
Definition room (n text : Z) : Z := Z.min n text.
Definition zeros_after (n text : Z) : Z := Z.min (n - room n text) nullbytes.

Lemma array_get_total (data : list Z) i : 0 <= i < Z.of_nat (length data) -> exists x, array_get data i = Ok x.
Proof.
  intros Hi. destruct (lookup_lt_is_Some_2 data (Z.to_nat i) ltac:(lia)) as [x Hx]. exists x.
  rewrite <- (Z2Nat.id i) by lia. by apply array_get_at.
Qed.

Lemma wchar_end_run data bytes : 2 <= bytes <= Z.of_nat (length data) -> exists b, wchar_end data bytes = Ok b.
Proof.
  intros Hb. unfold wchar_end. destruct (array_get_total data (bytes - 2) ltac:(lia)) as [lo ->].
  destruct (array_get_total data (bytes - 1) ltac:(lia)) as [hi ->]. by eexists.
Qed.

Lemma text_run (s : rstate) data bytes : 0 <= bytes <= Z.of_nat (length data) ->
  exists last, (if bytes >=? 2 then lift (wchar_end data bytes) else mret false : R bool) s = Ok (last, s) /\
    (if last then bytes - 2 else bytes) = text_length data bytes /\ 0 <= text_length data bytes <= bytes.
Proof.
  intros Hb. unfold text_length. destruct (Z.geb_spec bytes 2).
  - destruct (wchar_end_run data bytes ltac:(lia)) as [b Eb]. rewrite Eb. exists b. split; [done |]. destruct b; split; lia.
  - exists false. split; [done |]. destruct (wchar_end data bytes) as [[] |]; split; lia.
Qed.

(** The writes: the length, the text and the zeros. *)
Lemma string_writes s u b n text data : string_at (memory s) u b n -> 0 <= text <= Z.of_nat (length data) ->
  exists m, (_ ← storeM u (le_split 2 (u16 (room n text)));
      Buffer ← loadM 8 (u + 8);
      d ← lift (bytes_of data (room n text));
      _ ← storeM (le_combine Buffer) d;
      storeM (le_combine Buffer + u16 (room n text))
        (replicate (Z.to_nat (Z.min (n - u16 (room n text)) nullbytes)) 0)) s = Ok (tt, set_memory m s) /\
    load 2 u m = Ok (le_split 2 (room n text)) /\
    load (Z.to_nat (room n text + zeros_after n text)) b m =
      Ok (take (Z.to_nat (room n text)) data ++ replicate (Z.to_nat (zeros_after n text)) 0) /\
    (forall x, ~ in_range u 2 x -> ~ in_range b (room n text + zeros_after n text) x -> m !! x = memory s !! x).
Proof.
  intros [Hh Hb Ap _ [p [Ep Ecp]] [Hn N0]] Ht. unfold zeros_after. set (k := room n text).
  assert (0 <= k <= n /\ k <= text) as Hk by (unfold k, room; lia). rewrite (u16_id k) by lia.
  set (z := Z.min (n - k) nullbytes). assert (0 <= z <= n - k) as Hz by (unfold z, nullbytes; lia).
  destruct (store_run (le_split 2 k) u (memory s)) as (m1 & E1 & L1 & O1 & D1); [by apply (mapped_sub _ u 16); [| simpl; lia..] |].
  rewrite (bind_run _ _ _ _ _ (storeM_run _ _ _ _ E1)). simpl (Z.of_nat _) in O1.
  assert (load 8 (u + 8) m1 = Ok p) as Ep1 by (rewrite <- Ep; apply (load_only _ _ _ _ _ _ O1); lia).
  rewrite (bind_run _ _ _ _ _ (loadM_run (set_memory m1 s) _ _ _ Ep1)), Ecp.
  rewrite (bind_run _ _ _ _ _ (lift_run _ _ (set_memory m1 s) (bytes_of_run data k ltac:(lia)))).
  destruct (store_take (set_memory m1 s) b data k ltac:(lia)) as (m2 & E2 & L2 & O2 & D2).
  { apply (mapped_dom (memory s)); [exact D1 |]. apply (mapped_sub _ b n); [exact Hb | lia | lia]. }
  rewrite (bind_run _ _ _ _ _ (storeM_run _ _ _ _ E2)). cbn [memory set_memory] in *.
  destruct (store_run (replicate (Z.to_nat z) 0) (b + k) m2) as (m3 & E3 & L3 & O3 & D3).
  { rewrite length_replicate, Z2Nat.id by lia. apply (mapped_dom (memory s)); [congruence |]. apply (mapped_sub _ b n); [exact Hb | lia | lia]. }
  rewrite length_replicate in L3, O3. rewrite Z2Nat.id in O3 by lia.
  exists m3. split; [by apply (storeM_run (set_memory m2 (set_memory m1 s))) |]. split; [| split].
  - rewrite (load_only _ _ _ _ _ _ O3) by lia. rewrite (load_only _ _ _ _ _ _ O2) by lia. exact L1.
  - rewrite Z2Nat.inj_add by lia. apply load_two; [| by rewrite Z2Nat.id by lia].
    rewrite (load_only _ _ _ _ _ _ O3) by lia. exact L2.
  - intros x Nu Nb. rewrite (O3 x), (O2 x), (O1 x); unfold in_range in *; [done | lia | lia | lia].
Qed.

Lemma store_string_run s u b n data bytes : string_at (memory s) u b n -> 0 <= bytes <= Z.of_nat (length data) ->
  exists m, store_string pool u data bytes s = Ok (tt, set_memory m s) /\
    load 2 u m = Ok (le_split 2 (room n (text_length data bytes))) /\
    load (Z.to_nat (room n (text_length data bytes) + zeros_after n (text_length data bytes))) b m =
      Ok (take (Z.to_nat (room n (text_length data bytes))) data ++
          replicate (Z.to_nat (zeros_after n (text_length data bytes))) 0) /\
    (forall x, ~ in_range u 2 x -> ~ in_range b (room n (text_length data bytes) + zeros_after n (text_length data bytes)) x ->
       m !! x = memory s !! x).
Proof.
  intros Sa Hb. unfold store_string. destruct (text_run s data bytes Hb) as (last & E & Et & Rt).
  rewrite (bind_run _ _ _ _ _ E). cbn beta zeta. rewrite Et.
  destruct (sa_pointer _ _ _ _ Sa) as [p [Ep Ecp]]. destruct (sa_range _ _ _ _ Sa) as [_ N0].
  rewrite (bind_run _ _ _ _ _ (loadM_run _ _ _ _ Ep)), Ecp. apply Z.eqb_neq in N0 as ->.
  rewrite (bind_run _ _ s tt s) by done. destruct (sa_max _ _ _ _ Sa) as [x [Ex <-]].
  rewrite (bind_run _ _ _ _ _ (loadM_run _ _ _ _ Ex)). apply string_writes; [exact Sa | lia].
Qed.

(** ** A value of the registry *)

Definition is_string (qp : RTL_QUERY_REGISTRY_TABLE) (t : Z) : bool :=
  (t =? REG_SZ) || (t =? REG_EXPAND_SZ) || ((t =? REG_MULTI_SZ) && has (Flags qp) RTL_QUERY_REGISTRY_NOEXPAND).

Definition is_binary (t : Z) : bool :=
  (t =? REG_DWORD) || (t =? REG_QWORD) || (t =? REG_BINARY) || (t =? REG_DWORD_BIG_ENDIAN).

(** The entry gives the type it expects, and this is another. *)
Definition wrong_type (qp : RTL_QUERY_REGISTRY_TABLE) (t : Z) : bool :=
  has (Flags qp) RTL_QUERY_REGISTRY_TYPECHECK &&
  negb (t =? Z.land (Z.shiftr (DefaultType qp) RTL_QUERY_REGISTRY_TYPECHECK_SHIFT) 0xff).

(** The memory after the value has been stored at [p]. *)
Definition stored_string (m m' : mem) (p b n : Z) (data : list Z) : Prop :=
  let k := room n (text_length data (Z.of_nat (length data))) in
  let z := zeros_after n (text_length data (Z.of_nat (length data))) in
  load 2 p m' = Ok (le_split 2 k) /\
  load (Z.to_nat (k + z)) b m' = Ok (take (Z.to_nat k) data ++ replicate (Z.to_nat z) 0) /\
  forall x, ~ in_range p 2 x -> ~ in_range b (k + z) x -> m' !! x = m !! x.

Definition stored_binary (m m' : mem) (p t : Z) (data : list Z) : Prop :=
  let n := extent m p (Z.of_nat (length data)) in
  load (Z.to_nat n) p m' = Ok (take (Z.to_nat n) (stored_bytes m p t data (Z.of_nat (length data)))) /\ only p n m m'.

Lemma array_get_app (a b : list Z) i : i < Z.of_nat (length a) -> array_get (a ++ b) i = array_get a i.
Proof.
  intros Hi. unfold array_get. rewrite length_app. destruct (Z.leb_spec 0 i); [| done]. cbn [andb].
  rewrite !(proj2 (Z.ltb_lt _ _)) by lia.
  by rewrite lookup_app_l by lia.
Qed.

Lemma text_length_app data x : text_length (data ++ x) (Z.of_nat (length data)) = text_length data (Z.of_nat (length data)).
Proof. unfold text_length, wchar_end. by rewrite !array_get_app by lia. Qed.

Lemma bufs_back m s : set_bufs (fun n => n - 1) (set_memory m (set_bufs (fun n => n + 1) s)) = set_memory m s.
Proof. destruct s. unfold set_bufs, set_memory. simpl. f_equal. lia. Qed.

Lemma bufs_back' s : set_bufs (fun n => n - 1) (set_bufs (fun n => n + 1) s) = s.
Proof. destruct s. unfold set_bufs. simpl. f_equal. lia. Qed.

Lemma take_front (data rest : list Z) k : (k <= length data)%nat -> take k (data ++ rest) = take k data.
Proof. intros. by rewrite take_app_le. Qed.

Lemma direct_string_run s qp p t data rest b n : EntryContext qp = p -> p <> 0 -> is_string qp t = true ->
  string_at (memory s) p b n ->
  exists m, DdkQueryDirect pool qp t (data ++ rest) (Z.of_nat (length data)) false s = Ok (STATUS_SUCCESS, set_memory m s) /\
    stored_string (memory s) m p b n data.
Proof.
  intros Ep Np Is Sa. unfold DdkQueryDirect. rewrite Ep. apply Z.eqb_neq in Np as ->.
  destruct (store_string_run s p b n (data ++ rest) (Z.of_nat (length data)) Sa) as (m & E & L1 & L2 & O).
  { rewrite length_app. lia. }
  rewrite text_length_app in *. rewrite take_front in L2.
  2: { unfold room. pose proof (text_run s data (Z.of_nat (length data)) ltac:(lia)) as (? & _ & _ & ?).
       destruct (sa_range _ _ _ _ Sa) as [? _]. lia. }
  exists m. split; [| by split; [| split]].
  unfold is_string in Is. destruct (Z.eqb_spec t REG_SZ) as [-> | Ns].
  { change ((REG_SZ =? REG_MULTI_SZ) || (REG_SZ =? REG_EXPAND_SZ)) with false. cbn iota.
    by rewrite (bind_run _ _ _ _ _ E). }
  destruct (Z.eqb_spec t REG_EXPAND_SZ) as [-> | Ne].
  - change (REG_EXPAND_SZ =? REG_MULTI_SZ) with false. rewrite andb_false_r. cbn [orb].
    rewrite (bind_run _ _ s tt s) by (by destruct (has _ _)). by rewrite (bind_run _ _ _ _ _ E).
  - cbn [orb] in Is. apply andb_true_iff in Is as [-> ->]. cbn [orb negb andb]. cbn iota.
    rewrite (bind_run _ _ s tt s) by done. by rewrite (bind_run _ _ _ _ _ E).
Qed.

Lemma direct_binary_run s qp p t data rest : EntryContext qp = p -> p <> 0 -> is_binary t = true ->
  Z.of_nat (length data) < 2 ^ 31 -> place (memory s) p (Z.of_nat (length data)) ->
  exists m, DdkQueryDirect pool qp t (data ++ rest) (Z.of_nat (length data)) false s = Ok (STATUS_SUCCESS, set_memory m s) /\
    stored_binary (memory s) m p t data.
Proof.
  intros Ep Np Is Ld Pl. unfold DdkQueryDirect. rewrite Ep. apply Z.eqb_neq in Np as ->.
  destruct (store_binary_run s p t (data ++ rest) (Z.of_nat (length data)) ltac:(lia) ltac:(rewrite length_app; lia) Pl)
    as (m & E & L1 & O & _).
  exists m. split.
  - unfold is_binary in Is. replace ((t =? REG_MULTI_SZ) || (t =? REG_EXPAND_SZ)) with false.
    2: { symmetry. apply orb_false_iff. split; apply Z.eqb_neq; intros ->; done. }
    destruct (Z.eqb_spec t REG_SZ) as [-> | _]; [done |]. rewrite Is. by rewrite (bind_run _ _ _ _ _ E).
  - split; [| exact O]. rewrite L1. f_equal. unfold extent, stored_bytes, place in *.
    destruct (Z.leb_spec (Z.of_nat (length data)) 4).
    + cbn [orb]. destruct (load 4 p (memory s)); apply take_front; lia.
    + destruct Pl as (x & -> & ? & ?). cbn [orb]. destruct (Z.ltb_spec (s32 (le_combine x)) 0); [apply take_front; lia |].
      rewrite !app_assoc. apply take_front. rewrite length_app. simpl. lia.
Qed.

(** The value has been read: it is stored, or the entry expects another type. *)
Lemma query_direct_run key qp ctx s t data : is_open s key -> enough_memory realloc ->
  has (Flags qp) RTL_QUERY_REGISTRY_DIRECT = true -> QueryRoutine qp = 0 ->
  lookup_value (tree_in s) (node_in s key) (QueryName qp) = inr (t, data) -> Z.of_nat (length data) < 2 ^ 31 ->
  exists rest, DdkQueryValue realloc pool key qp ctx false s =
    if wrong_type qp t then Ok (STATUS_OBJECT_TYPE_MISMATCH, s) else
    match DdkQueryDirect pool qp t (data ++ rest) (Z.of_nat (length data)) false (set_bufs (fun n => n + 1) s) with
    | Ok (st, s') => Ok (st, set_bufs (fun n => n - 1) s')
    | Err f => Err f
    end.
Proof.
  intros O Mem Hd Hr Lv Ld. unfold DdkQueryValue. rewrite Hd, Hr. cbn [negb Z.eqb Bool.eqb].
  destruct (read_run realloc key (QueryName qp) s t data O Mem Lv Ld) as (b & E & rest & -> & Lb).
  exists (zeros6 ++ rest). rewrite (bind_run _ _ _ _ _ E). unfold query_direct, wrong_type. rewrite Z.eqb_refl. cbn [andb].
  destruct (has (Flags qp) RTL_QUERY_REGISTRY_TYPECHECK && _).
  - rewrite (bind_run _ _ _ tt s) by (unfold free_buf, modify; by rewrite bufs_back'). done.
  - change (ERROR_SUCCESS =? ERROR_FILE_NOT_FOUND) with false. cbn [andb]. cbn iota. unfold mbind, M_bind, mret, M_ret.
    cbn iota beta. rewrite Z.eqb_refl. cbn [negb].
    by destruct (DdkQueryDirect pool qp t _ _ false _) as [[st s'] |].
Qed.

End direct.

(** C25. A query entry that names a place for its value: a value of another type than
    the entry expects is refused and nothing is written; a string is copied to the
    buffer of the UNICODE_STRING there, without the NUL it ends with, up to the size of
    the buffer, followed by up to three NULs if there is room; a number of up to four
    bytes is copied as it is; longer data up to the size found at the place, with a
    header of length and type if that size is positive.  Nothing else is written, and
    the buffer the value was read into is freed. *)
Theorem DdkQueryValue_direct `{Environment} `{WINREG} `{!WINREG_Laws} `{QUERY_ROUTINES} realloc pool key qp ctx s t data p b n
    (O : is_open s key) (Mem : enough_memory realloc)
    (Hd : has (Flags qp) RTL_QUERY_REGISTRY_DIRECT = true) (Hr : QueryRoutine qp = 0)
    (Lv : lookup_value (tree_in s) (node_in s key) (QueryName qp) = inr (t, data))
    (Ld : Z.of_nat (length data) < 2 ^ 31) (Ep : EntryContext qp = p) (Np : p <> 0)
    (Hs : is_string qp t = true -> string_at (memory s) p b n)
    (Hb : is_binary t = true -> place (memory s) p (Z.of_nat (length data))) :
  (wrong_type qp t = true -> DdkQueryValue realloc pool key qp ctx false s = Ok (STATUS_OBJECT_TYPE_MISMATCH, s)) /\
  (wrong_type qp t = false -> is_string qp t = true ->
    exists m, DdkQueryValue realloc pool key qp ctx false s = Ok (STATUS_SUCCESS, set_memory m s) /\
      stored_string (memory s) m p b n data) /\
  (wrong_type qp t = false -> is_binary t = true ->
    exists m, DdkQueryValue realloc pool key qp ctx false s = Ok (STATUS_SUCCESS, set_memory m s) /\
      stored_binary (memory s) m p t data).
Proof.
  destruct (query_direct_run realloc pool key qp ctx s t data O Mem Hd Hr Lv Ld) as (rest & ->).
  split; [by intros -> |]. split; intros -> Is.
  - destruct (direct_string_run pool (set_bufs (fun n => n + 1) s) qp p t data rest b n Ep Np Is (Hs Is)) as (m & -> & R).
    exists m. by rewrite bufs_back.
  - destruct (direct_binary_run pool (set_bufs (fun n => n + 1) s) qp p t data rest Ep Np Is Ld (Hb Is)) as (m & -> & R).
    exists m. by rewrite bufs_back.
Qed.

(** A value that is not there, for an entry that gives the type it expects and no
    default: the check for no default looks at the whole field, the type is taken from
    its low byte, and the query stops the process - even if the value is not required. *)
Theorem missing_typed_value `{Environment} `{WINREG} `{!WINREG_Laws} `{QUERY_ROUTINES} realloc pool key qp ctx s
    (O : is_open s key) (Mem : enough_memory realloc)
    (Hd : has (Flags qp) RTL_QUERY_REGISTRY_DIRECT = true) (Hr : QueryRoutine qp = 0) (Np : EntryContext qp <> 0)
    (Lv : lookup_value (tree_in s) (node_in s key) (QueryName qp) = inl ERROR_FILE_NOT_FOUND)
    (Ht : Z.land (DefaultType qp) 0xff = REG_NONE) (Hn : DefaultType qp <> REG_NONE) :
  DdkQueryValue realloc pool key qp ctx false s = Err (DdkFailed "Unsupported type for registry value").
Proof.
  unfold DdkQueryValue. rewrite Hd, Hr. cbn [negb Z.eqb Bool.eqb].
  destruct (read_error realloc key (QueryName qp) s _ O Mem Lv) as (t & b & n & E). rewrite (bind_run _ _ _ _ _ E).
  unfold query_direct. change (ERROR_FILE_NOT_FOUND =? ERROR_SUCCESS) with false. cbn [andb].
  apply Z.eqb_neq in Hn as ->. rewrite Z.eqb_refl. cbn [andb].
  set (s1 := set_bufs (fun n => n + 1) s).
  rewrite (bind_run _ _ s1 (ERROR_SUCCESS, REG_NONE, DefaultData qp, DefaultLength qp) s1).
  2: { unfold DdkGetDefaultValue. cbv zeta. rewrite Ht. cbn [Z.eqb negb andb]. change (REG_NONE =? REG_SZ) with false.
       change (REG_NONE =? REG_EXPAND_SZ) with false. change (REG_NONE =? REG_MULTI_SZ) with false. cbn [negb andb].
       by rewrite orb_true_r. }
  unfold mbind, M_bind. cbn iota beta. change (ERROR_SUCCESS =? ERROR_SUCCESS) with true. cbn [negb].
  unfold DdkQueryDirect. apply Z.eqb_neq in Np as ->. done.
Qed.
