(* ===== verification/RegistryZwSpec.v ===== *)
(** * RegistryZwSpec: what the Zw functions return

    The structures that describe a value are laid out in the caller's buffer, without a
    gap and within its length, or not at all. *)

From S2P Require Import Prelude Strings StringsOps Objects Memory Registry RegistryQuery RegistryZw RegistrySpec RegistryDirect.

(** ** Writes to memory *)

(** The bytes [bs] are at [a]. *)
Definition block (m : mem) (a : Z) (bs : list Z) : Prop := load (length bs) a m = Ok bs.

Lemma block_app m a x y : block m a x -> block m (a + Z.of_nat (length x)) y -> block m a (x ++ y).
Proof. unfold block. intros Bx By. rewrite length_app. by apply load_two. Qed.

(** Two writes do not overlap. *)
Definition apart (x y : Z * list Z) : Prop :=
  x.1 + Z.of_nat (length x.2) <= y.1 \/ y.1 + Z.of_nat (length y.2) <= x.1.

Section zw.
Context `{Environment} `{WINREG} `{!WINREG_Laws} `{QUERY_ROUTINES}.

(** From [s0] to [s] these bytes have been written, and no others. *)
Definition wrote (ws : list (Z * list Z)) (s0 s : rstate) : Prop :=
  exists m, s = set_memory m s0 /\ dom m = dom (memory s0) /\
    (forall a bs, (a, bs) ∈ ws -> block m a bs) /\
    (forall x, (forall a bs, (a, bs) ∈ ws -> ~ in_range a (Z.of_nat (length bs)) x) -> m !! x = memory s0 !! x).

Lemma wrote_none s : wrote [] s s.
Proof.
  exists (memory s). split; [by destruct s |]. split; [done |]. split; [| done]. intros a bs Hi. by apply elem_of_nil in Hi.
Qed.

Lemma wrote_step ws s0 s a bs : wrote ws s0 s -> mapped (memory s0) a (Z.of_nat (length bs)) ->
  Forall (fun w => apart w (a, bs)) ws ->
  exists s', put_bytes a bs s = Ok (tt, s') /\ wrote ((a, bs) :: ws) s0 s'.
Proof.
  intros (m & -> & D & B & O) Hm Ap.
  destruct (store_run bs a m) as (m' & E & L & O' & D'); [by apply (mapped_dom (memory s0)) |].
  exists (set_memory m' s0). split.
  - unfold put_bytes. rewrite (bind_run _ _ _ _ _ (gets_run memory (set_memory m s0))).
    by rewrite (bind_run _ _ _ _ _ (lift_run _ _ (set_memory m s0) E)).
  - exists m'. split; [done |]. split; [congruence |]. split.
    + intros b cs [[= -> ->] | Hi]%elem_of_cons; [exact L |]. unfold block.
      rewrite (load_only _ _ _ _ _ _ O'); [by apply B |]. rewrite Forall_forall in Ap. specialize (Ap _ Hi).
      unfold apart in Ap. simpl in Ap. lia.
    + intros x Hx. rewrite (O' x) by (apply Hx; by left). apply O. intros b cs Hi. apply Hx. by right.
Qed.

Lemma put32_is_bytes a v : put32 a v = put_bytes a (le_split 4 v).
Proof. done. Qed.

Lemma wrote_block ws s0 s a bs : wrote ws s0 s -> (a, bs) ∈ ws -> block (memory s) a bs.
Proof. intros (m & -> & _ & B & _) Hi. by apply B. Qed.

(** All writes but the first are in the [n] bytes at [a]. *)
Lemma wrote_only ws r rs a n s0 s : wrote (ws ++ [(r, rs)]) s0 s ->
  Forall (fun w => a <= w.1 /\ w.1 + Z.of_nat (length w.2) <= a + n) ws ->
  exists m, s = set_memory m s0 /\ block m r rs /\
    forall x, ~ in_range r (Z.of_nat (length rs)) x -> ~ in_range a n x -> m !! x = memory s0 !! x.
Proof.
  intros (m & -> & _ & B & O) F. exists m. split; [done |]. split; [apply B; apply elem_of_app; right; by left |].
  intros x Nr Na. apply O. intros b cs [Hi | Hi]%elem_of_app.
  - rewrite Forall_forall in F. specialize (F _ Hi). unfold in_range in *. simpl in F. lia.
  - apply list_elem_of_singleton in Hi as [= -> ->]. exact Nr.
Qed.

End zw.

(** The next write of a run, at an offset of a structure. *)
Ltac write W :=
  rewrite ?put32_is_bytes;
  match type of W with wrote ?ws ?s0 ?s =>
    match goal with |- context [put_bytes ?a ?bs] =>
      let s' := fresh "s" in let E := fresh "E" in let W' := fresh "W" in
      destruct (wrote_step ws s0 s a bs W) as (s' & E & W');
      [| | rewrite (bind_run _ _ _ _ _ E); clear E W; rename W' into W]
    end
  end.

Definition len {A} (l : list A) : Z := Z.of_nat (length l).

Lemma mapped_in m a n b k : mapped m a n -> a <= b -> b + k <= a + n -> mapped m b k.
Proof. intros Hm ? ?. by apply (mapped_sub m a n). Qed.

(** A block that one of the writes has left. *)
Ltac in_list := repeat (apply elem_of_cons; (left; reflexivity) || right).
Ltac find_write W :=
  match goal with |- block _ ?a ?bs =>
    match type of W with wrote ?ws _ _ =>
      match ws with context [(?a', bs)] =>
        replace a with a' by (rewrite ?encode_length, ?le_split_length; unfold len in *; simpl; lia);
        apply (wrote_block _ _ _ _ _ W); in_list
      end
    end
  end.

(** The side conditions of a write: it is in the buffer, and apart from the others. *)
Ltac in_buffer Info n := apply (mapped_in _ Info n); [done | rewrite ?encode_length; unfold len in *; simpl; lia..].
Ltac all_apart :=
  repeat (apply Forall_cons; split; [unfold apart; simpl; rewrite ?encode_length; unfold len in *; simpl; lia |]); by apply Forall_nil.

Section layouts.
Context `{Environment} `{WINREG} `{!WINREG_Laws} `{QUERY_ROUTINES}.

(** ** The structures *)

Definition basic_layout (t : Z) (name : wstring) : list Z :=
  le_split 4 0 ++ le_split 4 t ++ le_split 4 (2 * len name) ++ encode name.

Definition full_layout (t : Z) (name : wstring) (d : list Z) : list Z :=
  le_split 4 0 ++ le_split 4 t ++ le_split 4 (20 + 2 * len name) ++ le_split 4 (len d) ++
  le_split 4 (2 * len name) ++ encode name ++ d.

Definition partial_layout (t : Z) (d : list Z) : list Z :=
  le_split 4 0 ++ le_split 4 t ++ le_split 4 (len d) ++ d.

Definition layout (Class_ t : Z) (name : wstring) (d : list Z) : option (list Z) :=
  if Class_ =? KeyValueBasicInformation then Some (basic_layout t name)
  else if Class_ =? KeyValueFullInformation then Some (full_layout t name d)
  else if Class_ =? KeyValuePartialInformation then Some (partial_layout t d)
  else None.

Lemma layout_length t name d :
  len (basic_layout t name) = 12 + 2 * len name /\ len (full_layout t name d) = 20 + 2 * len name + len d /\
  len (partial_layout t d) = 12 + len d.
Proof. unfold len, basic_layout, full_layout, partial_layout. rewrite !length_app, !encode_length, !le_split_length. lia. Qed.

(** The caller's memory: a place for the length, and a buffer of [n] bytes if it is not null. *)
Definition buffers (m : mem) (RL Info n : Z) : Prop :=
  mapped m RL 4 /\ (Info <> 0 -> mapped m Info n /\ (RL + 4 <= Info \/ Info + n <= RL)).

(** The structure [l] is returned: its length always, itself if there is room for it. *)
Definition returned (s : rstate) (RL Info n : Z) (l : list Z) (r : result (Z * rstate)) : Prop :=
  exists m, r = Ok (if Info =? 0 then STATUS_SUCCESS else if n <? len l then STATUS_BUFFER_TOO_SMALL else STATUS_SUCCESS,
      set_memory m s) /\
    block m RL (le_split 4 (len l)) /\
    (if (Info =? 0) || (n <? len l) then forall x, ~ in_range RL 4 x -> m !! x = memory s !! x
     else block m Info l /\ forall x, ~ in_range RL 4 x -> ~ in_range Info (len l) x -> m !! x = memory s !! x).

(** After the length has been written: there is nothing more to write, or room for all. *)
Lemma returned_cases s RL Info n l (k : R Z) : 0 <= len l < 2 ^ 32 -> buffers (memory s) RL Info n ->
  (forall s1, Info <> 0 -> len l <= n -> wrote [(RL, le_split 4 (len l))] s s1 ->
     exists ws s2, k s1 = Ok (STATUS_SUCCESS, s2) /\ wrote (ws ++ [(RL, le_split 4 (len l))]) s s2 /\
       Forall (fun w => Info <= w.1 /\ w.1 + len w.2 <= Info + len l) ws /\ block (memory s2) Info l) ->
  returned s RL Info n l ((_ ← put32 RL (len l);
    if Info =? 0 then mret (DdkGetRegistryStatus ERROR_SUCCESS) else
    if n <? len l then mret STATUS_BUFFER_TOO_SMALL else k) s).
Proof.
  intros Ll [Hr Hi] K. rewrite put32_is_bytes.
  destruct (wrote_step [] s s RL (le_split 4 (len l)) (wrote_none s)) as (s1 & E & W); [exact Hr | by apply Forall_nil |].
  rewrite (bind_run _ _ _ _ _ E). unfold returned.
  pose proof (wrote_only [] RL (le_split 4 (len l)) 0 0 s s1 W ltac:(by apply Forall_nil)) as (m & Es & B & O).
  assert (forall x, ~ in_range RL 4 x -> m !! x = memory s !! x) as O' by (intros x Nx; apply O; [done | unfold in_range; lia]).
  destruct (Z.eqb_spec Info 0) as [-> | Ni]; [exists m; by rewrite Es |].
  destruct (Z.ltb_spec n (len l)); [exists m; by rewrite Es |].
  destruct (K s1 Ni ltac:(done) W) as (ws & s2 & E2 & W2 & F & Bl).
  destruct (wrote_only ws RL (le_split 4 (len l)) Info (len l) s s2 W2 F) as (m2 & Es2 & B2 & O2).
  exists m2. rewrite E2, Es2. split; [done |]. split; [done |]. cbn [orb]. split; [by rewrite Es2 in Bl |]. exact O2.
Qed.

(** [reread] gives the data, whatever is in memory. *)
Definition rereads (s : rstate) (reread : Z -> R (Z * list Z * Z)) (d : list Z) : Prop :=
  forall s1, win s1 = win s -> reread (len d) s1 = Ok ((ERROR_SUCCESS, d, len d), s1).

Lemma wrote_win ws s0 s : wrote ws s0 s -> win s = win s0.
Proof. by intros (m & -> & _). Qed.

Lemma partial_run reread s RL Info n t d : rereads s reread d -> 0 <= len d -> 12 + len d < 2 ^ 32 ->
  buffers (memory s) RL Info n ->
  returned s RL Info n (partial_layout t d) (value_partial reread Info n RL t (len d) s).
Proof.
  intros Rr L0 Ll Hb. pose proof (proj2 (proj2 (layout_length t [] d))) as El. unfold value_partial.
  rewrite (u32_id (12 + len d)) by lia. rewrite <- El. apply returned_cases; [lia | done |].
  intros s1 Ni Hn W. destruct Hb as [_ Hb]. destruct (Hb Ni) as [Hm Ap]. rewrite El in *.
  write W; [in_buffer Info n | all_apart |].
  write W; [in_buffer Info n | all_apart |].
  rewrite (bind_run _ _ _ _ _ (Rr s2 (wrote_win _ _ _ W))).
  write W; [in_buffer Info n | all_apart |].
  write W; [in_buffer Info n | all_apart |].
  eexists [_; _; _; _], _. split; [reflexivity |]. split; [exact W |]. split.
  - repeat (apply Forall_cons; split; [unfold len in *; simpl; lia |]); by apply Forall_nil.
  - unfold partial_layout. repeat apply block_app; find_write W.
Qed.

Lemma full_run reread s RL Info n t name d : rereads s reread d -> 20 + 2 * len name + len d < 2 ^ 32 ->
  buffers (memory s) RL Info n ->
  returned s RL Info n (full_layout t name d) (value_full reread Info n RL t name (len d) s).
Proof.
  intros Rr Ll Hb. pose proof (proj1 (proj2 (layout_length t name d))) as El. unfold value_full.
  change (length_ name) with (len name).
  rewrite (u32_id (20 + 2 * len name + len d)) by (unfold len in *; lia). rewrite <- El.
  apply returned_cases; [unfold len in *; lia | done |].
  intros s1 Ni Hn W. destruct Hb as [_ Hb]. destruct (Hb Ni) as [Hm Ap]. rewrite El in *.
  write W; [in_buffer Info n | all_apart |].
  write W; [in_buffer Info n | all_apart |].
  write W; [in_buffer Info n | all_apart |].
  write W; [in_buffer Info n | all_apart |].
  write W; [in_buffer Info n | all_apart |].
  rewrite (bind_run _ _ _ _ _ (Rr _ (wrote_win _ _ _ W))).
  write W; [in_buffer Info n | all_apart |].
  write W; [in_buffer Info n | all_apart |].
  eexists [_; _; _; _; _; _; _], _. split; [reflexivity |]. split; [exact W |]. split.
  - repeat (apply Forall_cons; split; [simpl; unfold len; rewrite ?encode_length; unfold len in *; simpl; lia |]); by apply Forall_nil.
  - unfold full_layout. repeat apply block_app; find_write W.
Qed.

Lemma basic_run s RL Info n t name : 12 + 2 * len name < 2 ^ 32 -> buffers (memory s) RL Info n ->
  returned s RL Info n (basic_layout t name) (value_basic Info n RL t name s).
Proof.
  intros Ll Hb. pose proof (proj1 (layout_length t name [])) as El. unfold value_basic.
  change (length_ name) with (len name).
  rewrite (u32_id (12 + 2 * len name)) by (unfold len in *; lia). rewrite <- El.
  apply returned_cases; [unfold len in *; lia | done |].
  intros s1 Ni Hn W. destruct Hb as [_ Hb]. destruct (Hb Ni) as [Hm Ap]. rewrite El in *.
  write W; [in_buffer Info n | all_apart |].
  write W; [in_buffer Info n | all_apart |].
  write W; [in_buffer Info n | all_apart |].
  write W; [in_buffer Info n | all_apart |].
  eexists [_; _; _; _], _. split; [reflexivity |]. split; [exact W |]. split.
  - repeat (apply Forall_cons; split; [simpl; unfold len; rewrite ?encode_length; unfold len in *; simpl; lia |]); by apply Forall_nil.
  - unfold basic_layout. repeat apply block_app; find_write W.
Qed.

Lemma information_run reread s Class_ RL Info n t name d : rereads s reread d -> 20 + 2 * len name + len d < 2 ^ 32 ->
  buffers (memory s) RL Info n ->
  match layout Class_ t name d with
  | Some l => returned s RL Info n l (value_information reread Class_ Info n RL t name (len d) s)
  | None => value_information reread Class_ Info n RL t name (len d) s = Ok (STATUS_INVALID_PARAMETER, s)
  end.
Proof.
  intros Rr Ll Hb. unfold layout, value_information.
  destruct (Class_ =? KeyValueBasicInformation); [apply basic_run; [unfold len in *; lia | done] |].
  destruct (Class_ =? KeyValueFullInformation); [by apply full_run |].
  destruct (Class_ =? KeyValuePartialInformation); [by apply partial_run; [| unfold len in *; lia.. |] | done].
Qed.

(** ** ZwQueryValueKey *)

Lemma query_again (s s1 : rstate) key name t d : is_open s key -> win s1 = win s ->
  lookup_value (tree_in s) (node_in s key) name = inr (t, d) ->
  ('(rc, _, d, n) ← on_key key (RegQueryValueExW key name (Some (len d))); mret (rc, d, n) : R (Z * list Z * Z)) s1 =
    Ok ((ERROR_SUCCESS, d, len d), s1).
Proof.
  intros O E Lv. assert (is_open s1 key) as O1 by (unfold is_open; by rewrite E).
  destruct (query_law (win s) key name (len d) O) as (rc & t' & d' & b & Eq & _ & M); [unfold len; lia |].
  unfold tree_in, node_in in Lv. rewrite Lv in M. destruct M as [-> M].
  rewrite (proj2 (Z.leb_le _ _)) in M by (unfold len; lia). destruct M as (-> & -> & ->).
  by rewrite (bind_run _ _ s1 (ERROR_SUCCESS, t, d, Z.of_nat (length d)) s1) by (rewrite on_key_run by done; by rewrite E, Eq).
Qed.

End layouts.

(** ZwQueryValueKey for a value of a key: the length that is needed is returned in
    every case, the structure of the class asked for only if the buffer is there and has
    room for all of it - then it holds the type, the lengths, the name and the data of
    the value, without a gap - and nothing else is written.  A value that is not there,
    and a class that is not known, give an error and write nothing.  In all cases the
    copy of the name is never freed. *)
Theorem ZwQueryValueKey_spec `{Environment} `{WINREG} `{!WINREG_Laws} `{QUERY_ROUTINES} malloc s Handle key u m name
    Class_ Info n RL
    (Hk : handle_key Handle s = Ok (key, s)) (N0 : key <> 0) (O : is_open s key)
    (Hu : DdkUnicodeToString malloc (Some u) backslash = Ok (Some m)) (Hn : wcs m = Ok name)
    (Hb : buffers (memory s) RL Info n)
    (Ll : forall t d, lookup_value (tree_in s) (node_in s key) (Some name) = inr (t, d) -> 20 + 2 * len name + len d < 2 ^ 32) :
  let s1 := set_bufs (fun k => k + 1) s in
  let r := ZwQueryValueKey malloc Handle (Some u) Class_ Info n RL s in
  match lookup_value (tree_in s) (node_in s key) (Some name) with
  | inl e => r = Ok (DdkGetRegistryStatus e, s1)
  | inr (t, d) =>
      match layout Class_ t name d with
      | Some l => returned s1 RL Info n l r
      | None => r = Ok (STATUS_INVALID_PARAMETER, s1)
      end
  end.
Proof.
  intros s1 r. unfold r, ZwQueryValueKey. rewrite (bind_run _ _ _ _ _ Hk). apply Z.eqb_neq in N0 as ->.
  rewrite (bind_run _ _ s (Some name) s1).
  2: { unfold to_string. rewrite (bind_run _ _ _ _ _ (lift_run _ _ s Hu)). rewrite (bind_run _ _ s tt s1) by done.
       by rewrite (bind_run _ _ _ _ _ (lift_run _ _ s1 Hn)). }
  assert (is_open s1 key) as O1 by exact O.
  destruct (size_law (win s) key (Some name) O) as (rc & t & d & b & E & M). fold (tree_in s) (node_in s key) in M.
  rewrite (bind_run _ _ s1 (rc, t, d, b) s1) by (rewrite on_key_run by exact O1; cbn [win set_bufs s1]; by rewrite E).
  destruct (lookup_value (tree_in s) (node_in s key) (Some name)) as [e | [t' d']] eqn:Lv.
  - subst rc. apply value_error in Lv as [Ne _]. by apply Z.eqb_neq in Ne as ->.
  - destruct M as (-> & -> & ->). rewrite Z.eqb_refl. cbn [negb].
    apply information_run; [| by apply (Ll t' d') | done].
    intros s2 E2. by apply (query_again s1 s2 key (Some name) t' d' O1).
Qed.
