(* ===== verification/RegistryKeys.v ===== *)
(** * RegistryKeys: handles to keys, opened and closed

    A key object owns the key it was made for: closing its last handle closes that key,
    once.  A second object made for the same key closes it again. *)

From S2P Require Import Prelude Strings StringsOps Objects Names ObjectsInv ObjectsSpec HandleSpec.
From S2P Require Import Memory Registry RegistryQuery RegistryZw RegistrySpec.

Section keys.
Context `{Environment} `{Locale}.

(** ** The object *)

Definition key_object (n k : Z) : OBJECT := mkObject KeyType true n 0 (Key k).

(** An address that [calloc] gives, with no name for it. *)
Record good_address (s : kernel) (p : Z) : Prop := {
  ga_range : 0 < p < 2 ^ 64;
  ga_even : Z.even p = true;
  ga_names : forall e, e ∈ DdkNameList s -> Object e <> p;
  ga_nodup : NoDup (addr <$> DdkNameList s);
  ga_irql : CurrentIrql s = PASSIVE_LEVEL
}.

Lemma key_valid s p n k : 0 < p -> objects s !! p = Some (key_object n k) -> isValidObject s p = true.
Proof.
  intros Hp E. unfold isValidObject, type_at. rewrite E. destruct (Z.eqb_spec p 0); [lia | done].
Qed.

Lemma key_from_handle s p n k : good_address s p -> objects s !! p = Some (key_object n k) -> 0 < n ->
  FromHandle (ToHandle p) s = Ok (p, s).
Proof.
  intros [Hp He _ _ _] E Hn. unfold FromHandle, ToHandle. destruct (clear_low_bit p Hp He) as [_ ->].
  rewrite (kbind _ _ s true s); [done |]. unfold isHandleObject. rewrite (key_valid s p n k) by (done || lia).
  rewrite (kbind _ _ s (key_object n k) s) by (by apply object_at_run). cbn [refcount key_object type].
  by replace (n >? 0) with true by (symmetry; apply Z.gtb_lt; lia).
Qed.

Lemma key_from_pointer s p n k : good_address s p -> objects s !! p = Some (key_object n k) -> 0 < n ->
  FromPointer p s = Ok (p, s).
Proof.
  intros [Hp _ _ _ _] E Hn. unfold FromPointer. rewrite (key_valid s p n k) by (done || lia). rewrite andb_false_r.
  destruct (Z.eqb_spec p 0); [lia |]. rewrite (key_valid s p n k) by (done || lia). cbn [negb orb].
  rewrite (kbind _ _ s (key_object n k) s) by (by apply object_at_run). cbn [refcount key_object].
  replace (n <=? 0) with false by (symmetry; apply Z.leb_gt; lia). by rewrite Z.eqb_refl.
Qed.

(** What freeing the object of key [k] does to the world, last first. *)
Definition freed_events (p k : Z) : list event :=
  Freed p :: (if negb (k =? 0) && negb (k =? hive) then [Objects.RegCloseKey k] else []).

Definition without (s : kernel) (p k : Z) : kernel :=
  mkKernel (delete p (objects s)) (DdkNameList s) (CurrentIrql s) (freed_events p k ++ events s).

Lemma free_key s p k : good_address s p -> objects s !! p = Some (key_object 0 k) ->
  DdkFreeObject free_depth p s = Ok (tt, without s p k).
Proof.
  intros [_ _ Nm Nd _] E. unfold free_depth. cbn [DdkFreeObject].
  rewrite (kbind _ _ s (key_object 0 k) s) by (by apply object_at_run). cbn [type key_object].
  set (s1 := if negb (k =? 0) && negb (k =? hive) then log (Objects.RegCloseKey k) s else s).
  assert (objects s1 = objects s /\ DdkNameList s1 = DdkNameList s /\ CurrentIrql s1 = CurrentIrql s) as (Eo & En & Ei)
    by (unfold s1; by destruct (negb (k =? 0) && negb (k =? hive))).
  set (s2 := put_at s1 p (key_object 0 0)).
  change (KeyType =? IoFileType) with false. change (KeyType =? IoDriverType) with false.
  change (KeyType =? IoDeviceType) with false. change (KeyType =? KeyType) with true. cbn iota.
  rewrite (kbind _ _ s tt s2).
  2: { unfold DdkFreeKeyObject. rewrite (kbind _ _ s (key_object 0 k) s) by (by apply object_at_run). cbn [contents key_object].
       rewrite (kbind _ _ s tt s1) by (unfold s1; by destruct (negb (k =? 0) && negb (k =? hive))). done. }
  assert (objects s2 !! p = Some (key_object 0 0)) as E2 by (unfold s2; simpl; apply lookup_insert_eq).
  rewrite (kbind _ _ s2 tt s2).
  2: { unfold close_handle. by rewrite (kbind _ _ s2 (key_object 0 0) s2) by (by apply object_at_run). }
  rewrite (kbind _ _ s2 tt s2).
  2: { unfold remove_object_name, remove_names. rewrite (kbind _ _ s2 (length (DdkNameList s2)) s2) by done.
       apply (remove_loop_none _ _ (DdkNameList s2) s2 []); try done; unfold s2; simpl; rewrite En; done. }
  rewrite (kbind _ _ s2 (key_object 0 0) s2) by (by apply object_at_run). cbn [alloc key_object].
  unfold modify. do 2 f_equal. unfold log, set_objects, without, freed_events, s2. simpl. rewrite Eo, En, Ei.
  rewrite delete_insert_eq. f_equal. f_equal. unfold s1. by destruct (negb (k =? 0) && negb (k =? hive)).
Qed.

Lemma close_key_object s p k : good_address s p -> objects s !! p = Some (key_object 1 k) ->
  ZwClose (ToHandle p) s = Ok (STATUS_SUCCESS, without s p k).
Proof.
  intros G E. pose proof G as [Hp _ _ _ Irql]. unfold ZwClose. rewrite (kbind _ _ _ _ _ (key_from_handle s p 1 k G E ltac:(lia))).
  destruct (Z.eqb_spec p 0); [lia |].
  rewrite (kbind _ _ s tt s) by (unfold at_passive, assert_irql; by rewrite (kbind _ _ s _ s (irql_run s _ Irql))).
  rewrite (kbind _ _ s 0 (without s p k)); [done |].
  unfold ObfDereferenceObject, ObfDereferenceObjectWithTag.
  rewrite (kbind _ _ _ _ _ (key_from_pointer s p 1 k G E ltac:(lia))).
  rewrite (kbind _ _ s tt s) by (unfold at_dispatch, assert_irql; by rewrite (kbind _ _ s _ s (irql_run s _ Irql))).
  set (s1 := put_at s p (key_object 0 k)).
  rewrite (kbind _ _ s 0 s1).
  2: { unfold InterlockedDecrement. by rewrite (kbind _ _ s (key_object 1 k) s) by (by apply object_at_run). }
  cbn [Z.eqb negb]. rewrite (kbind _ _ s1 tt (without s p k)); [done |].
  rewrite (free_key s1 p k); [| split; apply G | unfold s1; simpl; apply lookup_insert_eq].
  unfold without, s1. simpl. by rewrite delete_insert_eq.
Qed.

End keys.

Section handles.
Context `{Environment} `{Locale} `{WINREG} `{!WINREG_Laws} `{QUERY_ROUTINES}.

(** ** The handle *)

(** The state has a key object at [p], with one handle. *)
Definition has_key_object (s : rstate) (p k : Z) : Prop :=
  good_address (kern s) p /\ objects (kern s) !! p = Some (key_object 1 k).

Lemma handle_key_run s p k : has_key_object s p k -> handle_key (ToHandle p) s = Ok (k, s).
Proof.
  intros [G E]. unfold handle_key.
  rewrite (bind_run _ _ _ _ _ (on_kernel_same _ s p (key_from_handle _ p 1 k G E ltac:(lia)))).
  destruct G as [Hp _ _ _ _]. destruct (Z.eqb_spec p 0); [lia |]. unfold key_of.
  by rewrite (bind_run _ _ _ _ _ (on_kernel_same _ s (key_object 1 k) (object_at_run _ _ _ E))).
Qed.

(** The kernel with the new object. *)
Definition with_key (s : kernel) (p k : Z) : kernel := put_at s p (key_object 1 k).

Lemma good_put s p o : good_address s p -> good_address (put_at s p o) p.
Proof. by intros []. Qed.

(** [DdkGetRegistryObject] from the object on. *)
Definition make_object (p key disposition : Z) : R (Z * Z * Z) :=
  o ← on_kernel (object_at p);
  _ ← on_kernel (put_object p (mkObject (type o) (alloc o) (refcount o) (h o) (Key key)));
  mret (STATUS_SUCCESS, p, disposition).

Lemma make_object_run (none : R (Z * Z * Z)) s p key disposition :
  (pKey ← on_kernel (DdkAllocObject (Some p) KeyType (Key 0) true);
   match pKey with None => none | Some p => make_object p key disposition end) s =
    Ok ((STATUS_SUCCESS, p, disposition), set_kern (with_key (kern s) p key) s).
Proof.
  rewrite (bind_run _ _ s (Some p) (set_kern (with_key (kern s) p 0) s)) by (by apply on_kernel_quiet).
  set (s1 := set_kern (with_key (kern s) p 0) s). unfold make_object.
  rewrite (bind_run _ _ s1 (key_object 1 0) s1).
  2: { apply on_kernel_same, object_at_run. unfold s1. simpl. apply lookup_insert_eq. }
  rewrite (bind_run _ _ s1 tt (set_kern (with_key (kern s) p key) s)); [done |].
  rewrite (on_kernel_quiet _ s1 tt (put_at (kern s1) p (key_object 1 key))) by done.
  unfold s1, with_key, put_at. simpl. rewrite insert_insert_eq. done.
Qed.

(** Closing the last handle of a key object closes its key, if that is open. *)
Lemma close_handle_key s p k : has_key_object s p k -> k <> 0 -> k <> hive ->
  close_key_handle (ToHandle p) s =
    match close_key k (set_kern (without (kern s) p k) s) with
    | Ok (_, s') => Ok (STATUS_SUCCESS, s')
    | Err f => Err f
    end.
Proof.
  intros [G E] Nz Nh. unfold close_key_handle, on_kernel. rewrite (close_key_object _ _ _ G E).
  unfold without at 1 2. cbn [events]. unfold freed_events. apply Z.eqb_neq in Nz as ->. apply Z.eqb_neq in Nh as ->. cbn [negb andb app length].
  replace (S (S (length (events (kern s)))) - length (events (kern s)))%nat with 2%nat by (clear; lia).
  change (rev (take 2 (Freed p :: Objects.RegCloseKey k :: events (kern s)))) with [Objects.RegCloseKey k; Freed p].
  cbn [close_logged]. unfold mbind, M_bind. by destruct (close_key k _) as [[[] s'] |].
Qed.

(** What a key is opened from: the hive, or the key of the handle given. *)
Definition root_key (a : OBJECT_ATTRIBUTES) : R Z := if RootDirectory a =? 0 then mret hive else handle_key (RootDirectory a).

(** The attributes name the path [path] below [base]. *)
Record names_path (malloc : Z -> option (list Z)) (s : rstate) (a : OBJECT_ATTRIBUTES) (base : Z) (path : wstring) : Prop := {
  np_root : root_key a s = Ok (base, s);
  np_base : base <> 0 /\ is_open s base;
  np_name : exists u m, ObjectName a = Some u /\ Buffer u <> None /\
    DdkUnicodeToString malloc (Some u) backslash = Ok (Some m) /\ wcs m = Ok path
}.

Lemma bufs_win s w : set_bufs (fun n => n - 1) (set_win w (set_bufs (fun n => n + 1) s)) = set_win w s.
Proof. destruct s. unfold set_bufs, set_win. simpl. f_equal. lia. Qed.

(** The part of [DdkGetRegistryObject] before the object, with the key it finds. *)
Lemma get_object_run malloc s a base path p k w : names_path malloc s a base path ->
  (if is_empty path then mret (ERROR_SUCCESS, base, 0) else open_object_key false base path) (set_bufs (fun n => n + 1) s) =
    Ok ((ERROR_SUCCESS, k, 0), set_win w (set_bufs (fun n => n + 1) s)) ->
  ZwOpenKey malloc (Some p) true (Some a) s =
    Ok ((STATUS_SUCCESS, Some (ToHandle p)), set_kern (with_key (kern s) p k) (set_win w s)).
Proof.
  intros [Er [N0 O] (u & m & Eu & Nb & Em & Ep)] Eo. unfold ZwOpenKey, ZwOpenKeyEx. cbn [negb].
  rewrite (bind_run _ _ s (STATUS_SUCCESS, p, 0) (set_kern (with_key (kern s) p k) (set_win w s))); [done |].
  unfold DdkGetRegistryObject. rewrite Eu. rewrite bool_decide_false by done. unfold root_key in Er.
  rewrite (bind_run _ _ _ _ _ Er). apply Z.eqb_neq in N0. rewrite N0, andb_false_r.
  set (s1 := set_bufs (fun n => n + 1) s) in *.
  rewrite (bind_run _ _ s (Some path) s1).
  2: { unfold to_string. rewrite (bind_run _ _ _ _ _ (lift_run _ _ s Em)). rewrite (bind_run _ _ s tt s1) by done.
       by rewrite (bind_run _ _ _ _ _ (lift_run _ _ s1 Ep)). }
  cbn [default]. cbv zeta. rewrite (bind_run _ _ _ _ _ Eo).
  rewrite (bind_run _ _ _ tt (set_win w s)) by (unfold free_buf, modify, s1; by rewrite bufs_win).
  rewrite Z.eqb_refl. cbn [negb].
  exact (make_object_run (_ ← (if negb (k =? base) then close_key k else mret tt); mret (STATUS_INSUFFICIENT_RESOURCES, 0, 0))
    (set_win w s) p k 0).
Qed.

(** A key handle: opening a path gives a handle to a new object that holds the key
    at that path, by a handle of its own; closing it closes exactly that key and frees
    the object, and everything is as before - whatever other keys are open. *)
Theorem key_handle_roundtrip malloc s a base path p n
  (Np : names_path malloc s a base path) (Ne : path <> []) (R : ready s)
  (Cn : child (tree_in s) (node_in s base) path = inr n)
  (G : good_address (kern s) p) (Fr : objects (kern s) !! p = None) :
  exists k s1 s2, ZwOpenKey malloc (Some p) true (Some a) s = Ok ((STATUS_SUCCESS, Some (ToHandle p)), s1) /\
    handle_key (ToHandle p) s1 = Ok (k, s1) /\ node_in s1 k = n /\
    k ∉ open_keys (win s) /\ open_keys (win s1) = {[k]} ∪ open_keys (win s) /\
    close_key_handle (ToHandle p) s1 = Ok (STATUS_SUCCESS, s2) /\
    restored (win s) (win s2) /\ objects (kern s2) = objects (kern s) /\ bufs s2 = bufs s /\ memory s2 = memory s.
Proof.
  pose proof (np_base _ _ _ _ _ Np) as [N0 O]. set (sb := set_bufs (fun n => n + 1) s).
  destruct (open_key_run sb false base path O) as (rc & k & w & E & Hh & Sn & Et & C).
  change (tree_in sb) with (tree_in s) in C. change (node_in sb base) with (node_in s base) in C. rewrite Cn in C.
  destruct C as [-> En]. assert (is_empty path = false) as Ee by (by destruct path).
  unfold handles_after in Hh. rewrite decide_True, Ee in Hh by done. destruct Hh as (Nk & Nz & Ek). cbn [win sb set_bufs] in *.
  destruct R as [Oh Nh]. assert (k <> hive) as Nkh by (intros ->; by apply Nk).
  assert (ZwOpenKey malloc (Some p) true (Some a) s =
    Ok ((STATUS_SUCCESS, Some (ToHandle p)), set_kern (with_key (kern s) p k) (set_win w s))) as E1.
  { apply (get_object_run malloc s a base path p k w Np). rewrite Ee. unfold open_object_key. by rewrite (bind_run _ _ _ _ _ E). }
  set (s1 := set_kern (with_key (kern s) p k) (set_win w s)) in *.
  assert (has_key_object s1 p k) as Ko by (split; [by apply good_put | unfold s1; simpl; apply lookup_insert_eq]).
  pose proof (close_handle_key s1 p k Ko Nz Nkh) as Ec.
  destruct (close_key_run (set_kern (without (kern s1) p k) s1) k) as (w2 & E2 & Eo2 & Sn2 & Et2).
  { unfold is_open, s1. simpl. rewrite Ek. by apply elem_of_union_l, elem_of_singleton. }
  rewrite E2 in Ec. unfold s1 in Eo2, Sn2. cbn [win set_kern set_win] in Eo2, Sn2. rewrite Ek in Eo2.
  eexists k, s1, _. split; [exact E1 |]. split; [by apply handle_key_run |]. split; [exact En |]. split; [exact Nk |].
  split; [exact Ek |]. split; [exact Ec |]. split; [split; [by apply (back_key' _ _ k Nk) |] |].
  - apply (same_nodes_trans _ w); [rewrite Ek; apply union_subseteq_r | done | done].
  - split; [| done]. unfold s1. simpl. rewrite delete_insert_eq. by apply delete_id.
Qed.

(** Opening the empty path below a key handle makes a second object that owns the
    same key: closing one handle closes the key, and closing the other closes a key
    that is not open. *)
Theorem key_closed_twice malloc s a p k q
  (Kp : has_key_object s p k) (Nk : k <> 0 /\ k <> hive) (Np : names_path malloc s a k [])
  (G : good_address (kern s) q) (Nq : q <> p) (O : is_open s k) :
  exists s1 s2, ZwOpenKey malloc (Some q) true (Some a) s = Ok ((STATUS_SUCCESS, Some (ToHandle q)), s1) /\
    close_key_handle (ToHandle p) s1 = Ok (STATUS_SUCCESS, s2) /\ ~ is_open s2 k /\
    close_key_handle (ToHandle q) s2 = Err (BadAccess k).
Proof.
  destruct Nk as [Nz Nh]. destruct Kp as [Gp Ep].
  pose proof (get_object_run malloc s a k [] q k (win s) Np eq_refl) as E1.
  set (s1 := set_kern (with_key (kern s) q k) (set_win (win s) s)) in *.
  assert (has_key_object s1 p k) as K1.
  { split; [by destruct Gp |]. unfold s1. simpl. by rewrite lookup_insert_ne. }
  destruct (close_key_run (set_kern (without (kern s1) p k) s1) k O) as (w & E2 & Eo & _ & _).
  pose proof (close_handle_key s1 p k K1 Nz Nh) as Ec. rewrite E2 in Ec.
  set (s2 := set_win w (set_kern (without (kern s1) p k) s1)) in *.
  assert (~ is_open s2 k) as N2 by (unfold is_open, s2; simpl; rewrite Eo; set_solver).
  exists s1, s2. split; [exact E1 |]. split; [exact Ec |]. split; [exact N2 |].
  rewrite (close_handle_key s2 q k); [| | done | done].
  - unfold close_key, key_open. cbn [gets]. unfold mbind, M_bind, gets. simpl. by rewrite decide_False.
  - split; [by destruct G |]. unfold s2, s1. simpl. rewrite lookup_delete_ne by done. apply lookup_insert_eq.
Qed.

End handles.
