(* ===== verification/RegistryExamples.v ===== *)
(** * RegistryExamples: a small registry, and the theorems on it

    A tree of keys with values, and a table of handles: it has all of [WINREG_Laws]. *)

From S2P Require Import Prelude Strings StringsSpec Objects ObjectsInv Memory Registry RegistryQuery RegistryZw RegistrySpec.
From S2P Require Import RegistryRead RegistryQuerySpec RegistryDirect RegistryZwSpec RegistryKeys.

#[local] Instance env : Environment :=
  {| stray := fun _ => 0; GetCurrentProcess := 2 ^ 64 - 1; hive := 1 |}.

(** The components of a path. *)
Fixpoint components (p : wstring) : list wstring :=
  match p with
  | [] => [[]]
  | c :: p =>
      match components p with
      | x :: xs => if c =? backslash then [] :: x :: xs else (c :: x) :: xs
      | [] => []
      end
  end.

Definition mnode : Type := list wstring.

Definition below (n : mnode) (p : wstring) : mnode := if is_empty p then n else n ++ components p.

(** The keys, and the values with the key, the name, and the type and data. *)
Record mtree := mkTree { mkeys : list mnode; mvalues : list (mnode * wstring * (Z * list Z)) }.

Record mworld := mkWorld { contents_ : mtree; handles : gmap Z mnode }.

Definition has_key (t : mtree) (n : mnode) : bool := bool_decide (n = []) || bool_decide (n ∈ mkeys t).

Definition mchild (t : mtree) (n : mnode) (p : wstring) : Z + mnode :=
  if is_empty p then inr n
  else if has_key t (below n p) then inr (below n p) else inl ERROR_FILE_NOT_FOUND.

Definition named (n : mnode) (v : option wstring) (e : mnode * wstring * (Z * list Z)) : bool :=
  bool_decide (e.1 = (n, default [] v)).

Definition mlookup (t : mtree) (n : mnode) (v : option wstring) : Z + (Z * list Z) :=
  match list_find (named n v) (mvalues t) with
  | Some (_, e) => inr e.2
  | None => inl ERROR_FILE_NOT_FOUND
  end.

Definition entries (t : mtree) (n : mnode) : list wstring :=
  (filter (fun e : mnode * wstring * (Z * list Z) => e.1.1 = n) (mvalues t)).*1.*2.

Definition mnames (t : mtree) (n : mnode) : list wstring := remove_dups (entries t n).

Definition mdelete (t : mtree) (n : mnode) (v : option wstring) : option mtree :=
  match list_find (named n v) (mvalues t) with
  | Some _ => Some (mkTree (mkeys t) (filter (fun e => e.1 <> (n, default [] v)) (mvalues t)))
  | None => None
  end.

Definition mset (t : mtree) (n : mnode) (v : option wstring) (x : Z * list Z) : mtree :=
  mkTree (mkeys t) ((n, default [] v, x) :: filter (fun e => e.1 <> (n, default [] v)) (mvalues t)).

Definition node_at (w : mworld) (h : Z) : mnode := default [] (handles w !! h).

(** A new handle to [n], or the handle [b] itself for the empty path. *)
Definition give (t : mtree) (w : mworld) (b : Z) (p : wstring) (n : mnode) : Z * Z * mworld :=
  if is_empty p then (ERROR_SUCCESS, b, mkWorld t (handles w)) else
  let k := fresh (dom (handles w) ∪ {[0]}) in (ERROR_SUCCESS, k, mkWorld t (<[k := n]> (handles w))).

Definition mopen (b : Z) (p : wstring) (w : mworld) : Z * Z * mworld :=
  match mchild (contents_ w) (node_at w b) p with
  | inl e => (e, 0, w)
  | inr n => give (contents_ w) w b p n
  end.

Definition mcreate (b : Z) (p : wstring) (w : mworld) : Z * Z * mworld :=
  let n := below (node_at w b) p in
  give (mkTree (n :: mkeys (contents_ w)) (mvalues (contents_ w))) w b p n.

Definition mquery (k : Z) (v : option wstring) (cap : option Z) (w : mworld) : Z * Z * list Z * Z :=
  match mlookup (contents_ w) (node_at w k) v with
  | inl e => (e, 0, [], 0)
  | inr (t, d) =>
      match cap with
      | None => (ERROR_SUCCESS, t, [], Z.of_nat (length d))
      | Some c => if Z.of_nat (length d) <=? c then (ERROR_SUCCESS, t, d, Z.of_nat (length d))
                  else (ERROR_MORE_DATA, t, [], Z.of_nat (length d))
      end
  end.

Definition menum (k i cap : Z) (dcap : option Z) (w : mworld) : Z * wstring * Z * list Z * Z :=
  match mnames (contents_ w) (node_at w k) !! Z.to_nat i with
  | Some n =>
      if Z.of_nat (length n) <? cap then
        let '(rc, t, d, b) := mquery k (Some n) dcap w in
        (match dcap with None => ERROR_SUCCESS | Some _ => rc end, n, t, d, b)
      else (ERROR_MORE_DATA, [], 0, [], 0)
  | None => (ERROR_NO_MORE_ITEMS, [], 0, [], 0)
  end.

Definition mdelete_value (k : Z) (v : option wstring) (w : mworld) : Z * mworld :=
  match mdelete (contents_ w) (node_at w k) v with
  | Some t => (ERROR_SUCCESS, mkWorld t (handles w))
  | None => (ERROR_FILE_NOT_FOUND, w)
  end.

(** Of the functions no theorem looks at, only the handles matter. *)
#[local] Instance model_registry : WINREG := {|
  world := mworld;
  open_keys w := dom (handles w);
  RegLoadAppKeyA w := (ERROR_SUCCESS, mkWorld (contents_ w) (<[1 := []]> (handles w)));
  RegOpenKeyW := mopen;
  RegCreateKeyW := mcreate;
  RegCreateKeyExW b p w := let '(rc, k, w) := mcreate b p w in (rc, k, 1, w);
  RegCloseKey k w := mkWorld (contents_ w) (delete k (handles w));
  RegSetValueExW k v t d w := (ERROR_SUCCESS, mkWorld (mset (contents_ w) (node_at w k) v (t, d)) (handles w));
  RegQueryValueExW := mquery;
  RegEnumValueW := menum;
  RegEnumKeyExW k i c1 c2 w := (ERROR_NO_MORE_ITEMS, [], [], 0);
  RegQueryInfoKeyW k w := (ERROR_SUCCESS, (0, 0, 0, 0, 0, 0));
  RegDeleteKeyW k p w := (ERROR_SUCCESS, w);
  RegDeleteValueW := mdelete_value;
  RegDeleteKeyValueW k p := mdelete_value k;
  RegFlushKey k w := (ERROR_SUCCESS, w)
|}.

Lemma give_law t w b p n :
  exists rc k w', give t w b p n = (rc, k, w') /\ rc = ERROR_SUCCESS /\ handles_after w w' b p rc k /\
    same_nodes node_at w w' /\ contents_ w' = t /\ (is_empty p = false -> node_at w' k = n).
Proof.
  unfold give, handles_after. destruct (is_empty p).
  - eexists _, _, _. split; [reflexivity |]. split; [done |]. rewrite decide_True by done. by split_and!.
  - set (k := fresh (dom (handles w) ∪ {[0]})).
    assert (k ∉ dom (handles w) ∪ {[0]}) as Nk by apply is_fresh.
    eexists _, _, _. split; [reflexivity |]. split; [done |]. rewrite decide_True by done.
    split; [split; [set_solver |]; split; [set_solver |]; cbn [open_keys model_registry handles]; by rewrite dom_insert_L |].
    split; [| split; [done |]].
    + intros h Hh _. unfold node_at. simpl. rewrite lookup_insert_ne; [done |]. intros <-. apply Nk.
      by apply elem_of_union_l.
    + intros _. unfold node_at. simpl. by rewrite lookup_insert_eq.
Qed.

Lemma mquery_law w k v cap : 0 <= cap ->
  exists rc t d b, mquery k v (Some cap) w = (rc, t, d, b) /\ Z.of_nat (length d) <= cap /\
    match mlookup (contents_ w) (node_at w k) v with
    | inl e => rc = e
    | inr (t', d') => b = Z.of_nat (length d') /\
        if Z.of_nat (length d') <=? cap then rc = ERROR_SUCCESS /\ t = t' /\ d = d' else rc = ERROR_MORE_DATA
    end.
Proof.
  intros Hc. unfold mquery. destruct (mlookup _ _ v) as [e | [t d]].
  - eexists _, _, _, _. split; [reflexivity |]. by split.
  - destruct (Z.leb_spec (Z.of_nat (length d)) cap); eexists _, _, _, _; (split; [reflexivity |]); by split.
Qed.

Lemma mdelete_law w k v : exists rc w', mdelete_value k v w = (rc, w') /\ dom (handles w') = dom (handles w) /\
    same_nodes node_at w w' /\ mkeys (contents_ w') = mkeys (contents_ w) /\
    match mdelete (contents_ w) (node_at w k) v with
    | Some t => rc = ERROR_SUCCESS /\ contents_ w' = t
    | None => rc <> ERROR_SUCCESS /\ contents_ w' = contents_ w
    end.
Proof.
  unfold mdelete_value. destruct (mdelete _ _ v) as [t |] eqn:E; eexists _, _; (split; [reflexivity |]); split_and!; try done.
  unfold mdelete in E. destruct (list_find _ _); [| done]. by injection E as <-.
Qed.

Lemma mkeys_add n t m : has_key t m = true -> has_key (mkTree (n :: mkeys t) (mvalues t)) m = true.
Proof.
  unfold has_key. simpl. intros Hm. apply orb_true_iff in Hm as [-> | Hm]; [done |].
  apply bool_decide_eq_true in Hm. apply orb_true_iff. right. apply bool_decide_eq_true. by right.
Qed.

Lemma mchild_add n t m q x : mchild t m q = inr x -> mchild (mkTree (n :: mkeys t) (mvalues t)) m q = inr x.
Proof.
  unfold mchild. destruct (is_empty q); [done |]. destruct (has_key t (below m q)) eqn:Hk; [| done].
  by rewrite (mkeys_add n).
Qed.

Lemma mchild_new n t m q : n = below m q -> mchild (mkTree (n :: mkeys t) (mvalues t)) m q = inr n.
Proof.
  intros ->. unfold mchild. destruct (is_empty q) eqn:Eq; [unfold below; by rewrite Eq |].
  unfold has_key. simpl. rewrite (bool_decide_true (_ ∈ _)) by (by left). by rewrite orb_true_r.
Qed.

Lemma entries_delete t n v m :
  let t' := mkTree (mkeys t) (filter (fun e => e.1 <> (n, v)) (mvalues t)) in
  (m <> n -> entries t' m = entries t m) /\ (m = n -> entries t' m = filter (fun x => x <> v) (entries t m)).
Proof.
  unfold entries. simpl.
  induction (mvalues t) as [|[[k x] y] l IH]; [done |]. rewrite !filter_cons. simpl. split; intros Hm.
  - destruct IH as [IH _]. destruct (decide (k = m)) as [-> | Nk].
    + rewrite decide_True by (intros [= -> _]; by apply Hm). rewrite filter_cons, decide_True by done.
      rewrite !fmap_cons. by rewrite IH.
    + destruct (decide ((k, x) <> (n, v))); [rewrite filter_cons, decide_False by done |]; by apply IH.
  - destruct IH as [_ IH]. subst m. destruct (decide (k = n)) as [-> | Nk].
    + rewrite !fmap_cons, filter_cons. simpl. destruct (decide (x = v)) as [-> | Nx].
      * rewrite decide_False by (intros N; by apply N). rewrite (decide_False (P := v <> v)) by (intros N; by apply N). by apply IH.
      * rewrite decide_True by (intros [= ->]; by apply Nx). rewrite (decide_True (P := x <> v)) by done.
        rewrite filter_cons, decide_True by done. rewrite !fmap_cons. f_equal. by apply IH.
    + rewrite decide_True by (intros [= -> _]; by apply Nk). rewrite filter_cons, decide_False by done. by apply IH.
Qed.

Lemma mnames_delete t n v t' m : mdelete t n v = Some t' ->
  (m <> n -> mnames t' m ≡ₚ mnames t m) /\
  (m = n -> exists x, x = default [] v /\ mnames t n ≡ₚ x :: mnames t' n).
Proof.
  unfold mdelete. destruct (list_find _ _) as [[i e] |] eqn:Ef; [| done]. intros [= <-].
  destruct (entries_delete t n (default [] v) m) as [E1 E2]. unfold mnames. split.
  - intros Hm. by rewrite E1.
  - intros ->. rewrite E2 by done. eexists. split; [done |].
    apply list_find_Some in Ef as (Hi & Hn & _). unfold named in Hn. apply Is_true_true, bool_decide_eq_true in Hn.
    assert (default [] v ∈ entries t n) as Hv.
    { unfold entries. apply list_elem_of_fmap. exists e.1. split; [by rewrite Hn |]. apply list_elem_of_fmap.
      exists e. split; [done |]. apply list_elem_of_filter. split; [by rewrite Hn | by eapply list_elem_of_lookup_2]. }
    apply NoDup_Permutation; [apply NoDup_remove_dups | |].
    + apply NoDup_cons. split; [| apply NoDup_remove_dups]. rewrite elem_of_remove_dups, list_elem_of_filter. tauto.
    + intros x. rewrite elem_of_cons, !elem_of_remove_dups, list_elem_of_filter.
      destruct (decide (x = default [] v)) as [-> |]; tauto.
Qed.

Lemma find_filter {A} (P Q : A -> Prop) `{!forall x, Decision (P x)} `{!forall x, Decision (Q x)} l i e :
  list_find P (filter Q l) = Some (i, e) -> (forall x, P x -> ~ Q x -> P e -> False) -> exists j, list_find P l = Some (j, e).
Proof.
  revert i. induction l as [|x l IH]; intros i E F; [done |]. rewrite filter_cons in E. simpl.
  destruct (decide (P x)) as [Px | Nx].
  - destruct (decide (Q x)) as [Qx | NQ]; [simpl in E; rewrite decide_True in E by done; injection E as <- <-; by eexists |].
    exfalso. apply (F x Px NQ). apply list_find_Some in E. by destruct E as (_ & Pe & _).
  - assert (exists k, list_find P (filter Q l) = Some (k, e)) as [k Ek].
    { destruct (decide (Q x)); [| by exists i]. simpl in E. rewrite decide_False in E by done.
      destruct (list_find P (filter Q l)) as [[k e'] |]; [| done]. injection E as <- <-. by exists k. }
    destruct (IH k Ek F) as [j ->]. by exists (S j).
Qed.

Lemma mlookup_delete t n v t' m u x : mdelete t n v = Some t' -> mlookup t' m u = inr x -> mlookup t m u = inr x.
Proof.
  unfold mdelete, mlookup. destruct (list_find (named n v) (mvalues t)); [| done]. intros [= <-]. simpl.
  destruct (list_find (named m u) (filter _ (mvalues t))) as [[i e] |] eqn:E; [| done]. intros [= <-].
  pose proof E as Hin. apply list_find_Some in Hin as (Hi & Pe & _). apply list_elem_of_lookup_2, list_elem_of_filter in Hi as [Ne _].
  destruct (find_filter (named m u) (fun e => e.1 <> (n, default [] v)) (mvalues t) i e) as [j ->]; [exact E | | done].
  intros y Py Ny _. apply Ny. intros Ey. apply Ne.
  unfold named in *. rewrite Is_true_true, bool_decide_eq_true in Py, Pe. congruence.
Qed.

Lemma mlookup_set t n v x : mlookup (mset t n v x) n v = inr x.
Proof. unfold mlookup, mset. simpl. rewrite decide_True; [done |]. apply Is_true_true, bool_decide_eq_true. done. Qed.

#[local] Instance model_registry_laws : WINREG_Laws.
Proof.
  refine {| tree := mtree; node := mnode; node_dec := list_eq_dec; tree_of := contents_; node_of := node_at; child := mchild;
    lookup_value := mlookup; names := mnames; same_name := eq; delete_value := mdelete |}.
  - done.
  - intros t n p e. unfold mchild. destruct (is_empty p); [done |]. destruct (has_key _ _); [done |]. by intros [= <-].
  - intros t n v e. unfold mlookup. destruct (list_find _ _) as [[? ?] |]; [done |]. by intros [= <-].
  - apply mnames_delete.
  - apply mlookup_delete.
  - intros w b p _. cbn [RegOpenKeyW model_registry]. unfold mopen.
    destruct (mchild (contents_ w) (node_at w b) p) as [e | n] eqn:E.
    + exists e, 0, w. split; [done |]. unfold mchild in E. destruct (is_empty p); [done |].
      destruct (has_key _ _); [done |]. injection E as <-. split; [| done]. unfold handles_after. by rewrite decide_False.
    + destruct (give_law (contents_ w) w b p n) as (rc & k & w' & Eg & -> & Hh & Sn & Ec & En).
      exists ERROR_SUCCESS, k, w'. split; [done |]. split; [done |]. split; [done |]. split; [done |]. split; [done |].
      unfold handles_after in Hh. rewrite decide_True in Hh by done. destruct (is_empty p) eqn:Ep; [| by apply En].
      destruct Hh as [-> _]. unfold give in Eg. rewrite Ep in Eg. injection Eg as <-. unfold mchild in E. rewrite Ep in E.
      by injection E.
  - intros w b p _. cbn [RegCreateKeyW model_registry]. unfold mcreate.
    destruct (give_law (mkTree (below (node_at w b) p :: mkeys (contents_ w)) (mvalues (contents_ w))) w b p
      (below (node_at w b) p)) as (rc & k & w' & Eg & -> & Hh & Sn & Ec & En).
    exists ERROR_SUCCESS, k, w'. split; [done |]. split; [done |]. split; [done |]. rewrite Ec. split; [intros; by apply mchild_add |].
    intros _. rewrite mchild_new by done. destruct (is_empty p) eqn:Ep; [| by rewrite En].
    unfold handles_after in Hh. rewrite decide_True, Ep in Hh by done. destruct Hh as [-> _].
    unfold give in Eg. rewrite Ep in Eg. injection Eg as <-. unfold below. by rewrite Ep.
  - intros w k Hk. simpl. split; [by rewrite dom_delete_L |]. split; [| done]. intros h _ Hh. unfold node_at. simpl in *.
    rewrite lookup_delete_ne; [done |]. intros ->. apply elem_of_dom in Hh. by rewrite lookup_delete_eq in Hh; destruct Hh.
  - intros w k n cap _ Hc. by apply mquery_law.
  - intros w k n _. cbn [RegQueryValueExW model_registry]. unfold mquery.
    destruct (mlookup _ _ n) as [e | [t d]]; eexists _, _, _, _; split; reflexivity || done.
  - intros w k i _ Hi. cbn [RegEnumValueW model_registry]. unfold menum.
    destruct (mnames (contents_ w) (node_at w k) !! Z.to_nat i) as [n |]; [| by eexists _, _, _, _, _].
    destruct (Z.of_nat (length n) <? 1024); [| by eexists _, _, _, _, _].
    destruct (mquery k (Some n) None w) as [[[rc t] d] b]. by eexists _, _, _, _, _.
  - intros w k n _. destruct (mdelete_law w k n) as (rc & w' & E & D & Sn & _ & M). by exists rc, w'.
  - intros w k n t d _. eexists _, _. split; [reflexivity |]. split; [done |]. split; [done |]. split; [done |]. intros _.
    apply mlookup_set.
  - intros w k n _. destruct (mdelete_law w k n) as (rc & w' & E & D & Sn & Ck & M). exists rc, w'.
    split; [done |]. split; [done |]. split; [done |]. unfold mchild, has_key. by rewrite Ck.
  - intros w k _. by eexists _, _.
Defined.

(** ** Keys *)

(** Query routines that fail for the name "bad", and count the calls. *)
#[local] Instance model_routines : QUERY_ROUTINES :=
  {| driver := nat; routine f c d := (if bool_decide (ValueName c = Some (L "bad")) then STATUS_UNSUCCESSFUL else 0, S d) |}.

Definition services : mnode := components (L "Registry\Machine\System\CurrentControlSet\Services").

Definition mtree0 : mtree := mkTree [services; services ++ [L "Disk"]]
  [(services ++ [L "Disk"], L "Size", (REG_DWORD, [1; 2; 0; 0]))].

Definition start : rstate :=
  mkR (mkKernel ∅ [] PASSIVE_LEVEL []) (mkWorld mtree0 {[1 := []]}) ∅ 0 false [] 0%nat.

Lemma ready_start : ready start.
Proof. split; [| done]. unfold is_open. simpl. set_solver. Qed.

Definition rel_services : wstring := L "\Registry\Machine\System\CurrentControlSet\Services".

Definition status_of (r : result (Z * rstate)) : Z := match r with Ok (a, _) => a | Err _ => -1 end.

Lemma RtlWriteRegistryValue_spec_witness :
  exists w, RtlWriteRegistryValue RTL_REGISTRY_SERVICES (AtPath (L "Disk")) (Some (L "Name")) REG_SZ (L0 "sda") 8 start =
      Ok (STATUS_SUCCESS, set_win w start) /\
    open_keys w = {[1]} /\ mlookup (contents_ w) (services ++ [L "Disk"]) (Some (L "Name")) = inr (REG_SZ, L0 "sda").
Proof.
  destruct (RtlWriteRegistryValue_spec start RTL_REGISTRY_SERVICES (L "Disk") rel_services (Some (L "Name")) REG_SZ
    (L0 "sda") 8 ready_start) as (status & w & E & [Eo _] & M); [reflexivity | reflexivity | split; reflexivity || discriminate |].
  exists w. assert (resolve (tree_in start) (node_in start hive) rel_services (L "Disk") = inr (services ++ [L "Disk"])) as Er
    by (vm_compute; reflexivity).
  rewrite Er in M. destruct M as [_ M].
  assert (status = STATUS_SUCCESS) as ->.
  { apply (f_equal status_of) in E. clear - E. vm_compute in E. symmetry. exact E. }
  split; [exact E |]. split; [rewrite Eo; set_solver | by apply M].
Defined.

(** ** Query tables *)

#[local] Instance model_query_laws : QUERY_Laws.
Proof. by intros f c d. Qed.

Lemma model_tree_ok fuel t : (length (mvalues t) < fuel)%nat -> Z.of_nat fuel < 2 ^ 32 ->
  Forall (fun e => Forall is_byte e.2.2 /\ Z.of_nat (length e.2.2) < 2 ^ 31) (mvalues t) -> tree_ok fuel t.
Proof.
  intros Lf Lk Fb.
  assert (forall n, (length (mnames t n) <= length (mvalues t))%nat) as Ln.
  { intros n. transitivity (length (entries t n)).
    - apply submseteq_length, NoDup_submseteq; [apply NoDup_remove_dups |]. intros x. apply elem_of_remove_dups.
    - unfold entries. rewrite !length_fmap. apply filter_length_le. }
  split.
  - intros n. simpl. specialize (Ln n). lia.
  - intros n v ty data. simpl. unfold mlookup. destruct (list_find _ _) as [[i e] |] eqn:Ef; [| done]. intros [= Ee].
    apply list_find_Some in Ef as (Ei & _ & _). rewrite Forall_lookup in Fb. specialize (Fb i e Ei). by rewrite Ee in Fb.
Qed.

Definition disk : mnode := services ++ [L "Disk"].

Definition mtree1 : mtree := mkTree [services; disk; disk ++ [L "Sub"]]
  [(disk, L "Paths", (REG_MULTI_SZ, encode (L "a" ++ [0] ++ L "bc" ++ [0]) ++ [100])); (disk, L "Size", (REG_DWORD, [1; 2; 0; 0]));
   (disk ++ [L "Sub"], L "x", (REG_SZ, L0 "ex")); (disk ++ [L "Sub"], L "y", (REG_BINARY, [9]))].

Definition before : rstate :=
  mkR (mkKernel ∅ [] PASSIVE_LEVEL []) (mkWorld mtree1 {[1 := []]}) ∅ 0 false [] 0%nat.

(** The strings of a value, all values of a subkey, which are deleted, and a value of
    the key again. *)
Definition table1 : list RTL_QUERY_REGISTRY_TABLE :=
  [mkQuery 7 0 (Some (L "Paths")) 70 0 [] 0;
   mkQuery 8 (RTL_QUERY_REGISTRY_SUBKEY + RTL_QUERY_REGISTRY_DELETE) (Some (L "Sub")) 80 0 [] 0;
   mkQuery 9 RTL_QUERY_REGISTRY_TOPKEY (Some (L "Size")) 90 0 [] 0;
   mkQuery 0 0 None 0 0 [] 0].

Definition malloc_ones (n : Z) : option (list Z) := Some (replicate (Z.to_nat n) 1).

Lemma malloc_ones_enough : enough_memory malloc_ones.
Proof. intros n Hn. eexists. split; [reflexivity |]. rewrite length_replicate. lia. Qed.

Lemma ready_before : ready before.
Proof. split; [| done]. unfold is_open. simpl. set_solver. Qed.

Lemma tree_ok_before : tree_ok 5 (tree_in before).
Proof.
  apply (model_tree_ok 5 mtree1); [simpl; lia | done |].
  apply (bool_decide_unpack (Forall _ _)). vm_compute. exact I.
Qed.

Lemma RtlQueryRegistryValues_refines_witness :
  exists s', RtlQueryRegistryValues malloc_ones (fun _ _ => None) 5 RTL_REGISTRY_SERVICES (AtPath (L "Disk")) table1 3 false before =
      Ok (STATUS_SUCCESS, s') /\
    mnames (tree_in s') disk = [L "Paths"; L "Size"] /\ mnames (tree_in s') (disk ++ [L "Sub"]) = [] /\
    map trim (query_calls s') =
      [mkCall (Some (L "Paths")) REG_SZ (L0 "a") 2 3 70; mkCall (Some (L "Paths")) REG_SZ (L0 "bc") 4 3 70;
       mkCall (Some (L "Paths")) REG_SZ (L0 "d") 2 3 70; mkCall (Some (L "x")) REG_SZ (L0 "ex" ++ [0; 0]) 6 3 80;
       mkCall (Some (L "y")) REG_BINARY [9; 0; 0] 1 3 80; mkCall (Some (L "Size")) REG_DWORD [1; 2; 0; 0; 0; 0] 4 3 90] /\
    open_keys (win s') = {[1]} /\ bufs s' = 0.
Proof.
  pose proof (RtlQueryRegistryValues_refines malloc_ones (fun _ _ => None) 5 before RTL_REGISTRY_SERVICES (L "Disk")
    rel_services table1 3 malloc_ones_enough ready_before eq_refl eq_refl) as T.
  assert (resolve (tree_in before) (node_in before hive) rel_services (L "Disk") = inr disk) as Er by (vm_compute; reflexivity).
  rewrite Er in T.
  assert (exists t cs, query_spec disk 3 table1 STATUS_SUCCESS disk (tree_in before) (drv before) = Some (STATUS_SUCCESS, t, 6%nat, cs) /\
    mnames t disk = [L "Paths"; L "Size"] /\ mnames t (disk ++ [L "Sub"]) = [] /\ cs =
      [mkCall (Some (L "Paths")) REG_SZ (L0 "a") 2 3 70; mkCall (Some (L "Paths")) REG_SZ (L0 "bc") 4 3 70;
       mkCall (Some (L "Paths")) REG_SZ (L0 "d") 2 3 70; mkCall (Some (L "x")) REG_SZ (L0 "ex" ++ [0; 0]) 6 3 80;
       mkCall (Some (L "y")) REG_BINARY [9; 0; 0] 1 3 80; mkCall (Some (L "Size")) REG_DWORD [1; 2; 0; 0; 0; 0] 4 3 90])
    as (t & cs & Eq & N1 & N2 & ->) by (eexists _, _; split; [vm_compute; reflexivity | vm_compute; done]).
  destruct (T ltac:(repeat (apply Forall_cons; split; [reflexivity |]); apply Forall_nil; done) tree_ok_before _ _ _ _ Eq)
    as (s' & E & [D1 D2 D3 D4 D5 D6 D7 D8] & Eo).
  exists s'. split; [exact E |]. rewrite D5, D8, Eo, D3. split; [exact N1 |]. split; [exact N2 |]. split; [done |].
  split; [simpl; set_solver | done].
Defined.

(** ** Values stored directly *)

Lemma mapped_check m a n : forallb (fun x => bool_decide (is_Some (m !! x))) (seqZ a n) = true -> mapped m a n.
Proof.
  intros Hf x Hx. rewrite forallb_forall in Hf. apply (bool_decide_unpack (is_Some (m !! x))), Is_true_true, Hf.
  apply list_elem_of_In, elem_of_seqZ. unfold in_range in Hx. lia.
Qed.

(** A UNICODE_STRING at 0x100 with a buffer of 6 bytes at 0x200, and 8 bytes at 0x300. *)
Definition header : list Z := le_split 2 0 ++ le_split 2 6 ++ [0; 0; 0; 0] ++ le_split 8 0x200.
Definition memory0 : mem := fill 0x100 header (fill 0x200 (replicate 6 7) (fill 0x300 (le_split 4 8 ++ le_split 4 0) ∅)).

Definition opened : rstate :=
  mkR (mkKernel ∅ [] PASSIVE_LEVEL []) (mkWorld mtree1 {[1 := []; 5 := disk ++ [L "Sub"]]}) memory0 0 false [] 0%nat.

Definition store_x : RTL_QUERY_REGISTRY_TABLE := mkQuery 0 RTL_QUERY_REGISTRY_DIRECT (Some (L "x")) 0x100 0 [] 0.

Lemma open_5 : is_open opened 5.
Proof. unfold is_open. simpl. set_solver. Qed.

Lemma string_at_100 : string_at (memory opened) 0x100 0x200 6.
Proof.
  split; [by apply mapped_check | by apply mapped_check | lia | | | lia];
    eexists; (split; [vm_compute; reflexivity | vm_compute; reflexivity]).
Qed.

Lemma DdkQueryValue_direct_witness :
  exists m, DdkQueryValue malloc_ones (fun _ _ => None) 5 store_x 0 false opened = Ok (STATUS_SUCCESS, set_memory m opened) /\
    load 2 0x100 m = Ok [4; 0] /\ load 6 0x200 m = Ok (L0 "ex") /\ m !! 0x300 = Some 8.
Proof.
  destruct (DdkQueryValue_direct malloc_ones (fun _ _ => None) 5 store_x 0 opened REG_SZ (L0 "ex") 0x100 0x200 6 open_5
    malloc_ones_enough) as (_ & T & _).
  - reflexivity.
  - reflexivity.
  - vm_compute. reflexivity.
  - vm_compute. reflexivity.
  - reflexivity.
  - discriminate.
  - intros _. exact string_at_100.
  - discriminate.
  - destruct (T eq_refl eq_refl) as (m & E & Ll & Lb & O). exists m. split; [exact E |]. split; [exact Ll |]. split; [exact Lb |].
    rewrite O; [vm_compute; reflexivity | intros [? ?]; lia | intros [? B]; revert B; vm_compute; discriminate].
Defined.

Definition ask_typed : RTL_QUERY_REGISTRY_TABLE :=
  mkQuery 0 (RTL_QUERY_REGISTRY_DIRECT + RTL_QUERY_REGISTRY_TYPECHECK) (Some (L "none")) 0x300 (Z.shiftl REG_DWORD 24) [] 0.

Lemma missing_typed_value_witness :
  DdkQueryValue malloc_ones (fun _ _ => None) 5 ask_typed 0 false opened = Err (DdkFailed "Unsupported type for registry value").
Proof.
  apply missing_typed_value.
  - exact open_5.
  - exact malloc_ones_enough.
  - reflexivity.
  - reflexivity.
  - discriminate.
  - vm_compute. reflexivity.
  - reflexivity.
  - discriminate.
Defined.

Definition direct_no_name : RTL_QUERY_REGISTRY_TABLE := mkQuery 7 RTL_QUERY_REGISTRY_DIRECT None 0 0 [] 0.

Lemma leaks_node :
  match RtlQueryRegistryValues malloc_ones (fun _ _ => None) 5 RTL_REGISTRY_SERVICES (AtPath (L "Disk")) [direct_no_name] 0
      false before with
  | Ok (_, s) => node_of (win s) 1 = []
  | Err _ => False
  end.
Proof. vm_compute. reflexivity. Qed.

Lemma direct_without_name_leaks_witness :
  exists k s', RtlQueryRegistryValues malloc_ones (fun _ _ => None) 5 RTL_REGISTRY_SERVICES (AtPath (L "Disk"))
      [direct_no_name] 0 false before = Ok (STATUS_INVALID_PARAMETER, s') /\
    k <> 1 /\ open_keys (win s') = {[k]} ∪ {[1]}.
Proof.
  destruct (@direct_without_name_leaks _ _ model_registry_laws _ malloc_ones (fun _ _ => None) 5 before RTL_REGISTRY_SERVICES (L "Disk") rel_services
    direct_no_name [] 0 disk ready_before) as (k & s' & E & Hn & En).
  - reflexivity.
  - reflexivity.
  - vm_compute. reflexivity.
  - split; [reflexivity |]. split; [discriminate | reflexivity].
  - reflexivity.
  - exists k, s'. split; [exact E |]. destruct Hn as [(-> & Eo) | (_ & _ & Nh & Eo)].
    + exfalso. pose proof leaks_node as N. rewrite E in N. simpl in N, En. rewrite En in N. discriminate N.
    + split; [exact Nh |]. rewrite Eo. simpl. set_solver.
Defined.

(** ** Keys as handles *)

#[local] Instance example_locale : Locale := c_locale.

(** A UNICODE_STRING with the characters of [s]. *)
Definition ustr (s : wstring) : UNICODE_STRING := mkStr (2 * len s) (2 * len s) (Some (encode s)).

(** The key 5 has an object at 4096. *)
Definition with_handle : rstate :=
  mkR (mkKernel {[4096 := key_object 1 5]} [] PASSIVE_LEVEL []) (win opened) memory0 0 false [] 0%nat.

Lemma good_4096 s : DdkNameList s = [] -> CurrentIrql s = PASSIVE_LEVEL -> good_address s 4096.
Proof. intros En Ei. split; [lia | reflexivity | rewrite En; intros e He; by apply elem_of_nil in He | rewrite En; constructor | done]. Qed.

Lemma key_at_4096 : has_key_object with_handle 4096 5.
Proof. split; [by apply good_4096 | reflexivity]. Qed.

Lemma open_with_handle : is_open with_handle 5.
Proof. exact open_5. Qed.

Lemma lookup_x : lookup_value (tree_in with_handle) (node_in with_handle 5) (Some (L "x")) = inr (REG_SZ, L0 "ex").
Proof. vm_compute. reflexivity. Qed.

(** The value "x" needs 12 + 6 bytes: it is written at 0x200 if there are 18, and not if there are 6. *)
Lemma ZwQueryValueKey_spec_witness :
  exists m, ZwQueryValueKey malloc_ones 4097 (Some (ustr (L "x"))) KeyValuePartialInformation 0x200 6 0x100 with_handle =
      Ok (STATUS_BUFFER_TOO_SMALL, set_memory m (set_bufs (fun k => k + 1) with_handle)) /\
    block m 0x100 (le_split 4 18) /\ m !! 0x200 = Some 7.
Proof.
  pose proof (ZwQueryValueKey_spec malloc_ones with_handle 4097 5 (ustr (L "x")) (encode (L "x") ++ [0; 0]) (L "x")
    KeyValuePartialInformation 0x200 6 0x100 (handle_key_run with_handle 4096 5 key_at_4096) ltac:(discriminate) open_with_handle
    eq_refl eq_refl) as T.
  destruct T as (m & E & B & O).
  - split; [by apply mapped_check |]. intros _. split; [by apply mapped_check | lia].
  - intros t d. rewrite lookup_x. intros [= <- <-]. vm_compute. reflexivity.
  - exists m. split; [rewrite E; do 2 f_equal |]. split; [exact B |].
    rewrite O; [vm_compute; reflexivity | unfold in_range; lia].
Defined.

Lemma names_path_sub s base (O : base <> 0 /\ is_open s base) (Hk : handle_key 4097 s = Ok (base, s)) p m
  (E : DdkUnicodeToString malloc_ones (Some (ustr p)) backslash = Ok (Some m)) (Ew : wcs m = Ok p) :
  names_path malloc_ones s (mkAttributes 4097 (Some (ustr p))) base p.
Proof. split; [exact Hk | exact O |]. exists (ustr p), m. split; [done |]. split; [done |]. by split. Qed.

(** A handle to the key "Services\Disk", below which "Sub" is opened. *)
Definition at_disk : rstate :=
  mkR (mkKernel {[4096 := key_object 1 5]} [] PASSIVE_LEVEL []) (mkWorld mtree1 {[1 := []; 5 := disk]}) memory0 0 false [] 0%nat.

Lemma at_disk_key : has_key_object at_disk 4096 5.
Proof. split; [by apply good_4096 | reflexivity]. Qed.

Lemma at_disk_open : is_open at_disk 5.
Proof. unfold is_open. simpl. set_solver. Qed.

Lemma at_disk_base : 5 <> 0 /\ is_open at_disk 5.
Proof. split; [discriminate | exact at_disk_open]. Qed.

Lemma key_handle_roundtrip_witness :
  exists k s1 s2, ZwOpenKey malloc_ones (Some 8192) true (Some (mkAttributes 4097 (Some (ustr (L "Sub"))))) at_disk =
      Ok ((STATUS_SUCCESS, Some 8193), s1) /\
    handle_key 8193 s1 = Ok (k, s1) /\ open_keys (win s1) = {[k; 1; 5]} /\
    close_key_handle 8193 s1 = Ok (STATUS_SUCCESS, s2) /\ open_keys (win s2) = {[1; 5]} /\ objects (kern s2) !! 8192 = None.
Proof.
  destruct (@key_handle_roundtrip _ _ _ model_registry_laws _ malloc_ones at_disk (mkAttributes 4097 (Some (ustr (L "Sub")))) 5 (L "Sub") 8192 (disk ++ [L "Sub"]))
    as (k & s1 & s2 & E & Hk & _ & _ & Ek & Ec & [Eo _] & Ej & _).
  - apply (names_path_sub at_disk 5 at_disk_base (handle_key_run _ _ _ at_disk_key) _ (encode (L "Sub") ++ [0; 0]));
      vm_compute; reflexivity.
  - discriminate.
  - split; [unfold is_open; simpl; set_solver | done].
  - vm_compute. reflexivity.
  - split; [lia | reflexivity | intros e He; by apply elem_of_nil in He | constructor | done].
  - vm_compute. reflexivity.
  - exists k, s1, s2. split; [exact E |]. split; [exact Hk |]. rewrite Ek, Eo, Ej. simpl open_keys.
    split; [set_solver |]. split; [exact Ec |]. split; [set_solver | reflexivity].
Defined.

Lemma key_closed_twice_witness :
  exists s1 s2, ZwOpenKey malloc_ones (Some 8192) true (Some (mkAttributes 4097 (Some (ustr [])))) at_disk =
      Ok ((STATUS_SUCCESS, Some 8193), s1) /\
    close_key_handle 4097 s1 = Ok (STATUS_SUCCESS, s2) /\ close_key_handle 8193 s2 = Err (BadAccess 5).
Proof.
  destruct (key_closed_twice malloc_ones at_disk (mkAttributes 4097 (Some (ustr []))) 4096 5 8192 at_disk_key)
    as (s1 & s2 & E & E1 & _ & E2).
  - split; discriminate.
  - apply (names_path_sub at_disk 5 at_disk_base (handle_key_run _ _ _ at_disk_key) _ [0; 0]); vm_compute; reflexivity.
  - split; [lia | reflexivity | intros e He; by apply elem_of_nil in He | constructor | done].
  - discriminate.
  - exact at_disk_open.
  - exists s1, s2. split; [exact E |]. split; [exact E1 | exact E2].
Defined.
