(* ===== verification/DeviceObjects.v ===== *)
(** * DeviceObjects: devices of drivers (device.cpp and driver.cpp)

    Creating and deleting devices, over the heap of Objects and the names of Names.  The
    type, the characteristics and the extensions of a device are for its driver alone and
    left out, as is [DeviceName], which only device interfaces use; the depth of its stack
    is in Device.  [UniqueId] is the counter for names that are generated: the calls take
    it and return it. *)

From Stdlib Require Import Ascii.
From S2P Require Import Prelude Strings Objects Names StringsOps StringsSpec NamesPath ObjectsInv ObjectsSpec NamesSpec SymlinkSpec.

(** The characters of a literal. *)
Fixpoint wide (s : string) : list Z :=
  match s with
  | EmptyString => []
  | String a s => Z.of_nat (nat_of_ascii a) :: wide s
  end.

Definition FILE_AUTOGENERATED_DEVICE_NAME : Z := 0x80.

(** A digit of [%x], and the [n] lowest digits of [z]. *)
Definition hex_digit (d : Z) : Z := if d <? 10 then 48 + d else 87 + d.

Fixpoint hex_digits (n : nat) (z : Z) : list Z :=
  match n with
  | O => []
  | S n => hex_digits n (z / 16) ++ [hex_digit (z mod 16)]
  end.

(** [swprintf(buf, 30, L"\\Device\\%08x", id)] *)
Definition generated_name (id : Z) : list Z := wide "\Device\" ++ hex_digits 8 (u32 id).

Section devices.
Context `{Environment} `{Locale}.

Definition GetDevice (p : Z) : K Z :=
  if p =? 0 then fail (DdkFailed "Invalid device specified") else
  o ← object_at p;
  if negb (type o =? IoDeviceType) then fail (DdkFailed "Invalid device specified") else mret p.

(** At the end of the driver's list. *)
Definition DdkAddDevice (DriverObject DeviceObject : Z) : K unit :=
  q ← FromPointer DriverObject;
  p ← GetDriver q;
  '(_, ds) ← driver_body p;
  _ ← set_devices p (ds ++ [DeviceObject]);
  DdkReferenceObject p.

(** [pDevice->Device.DriverObject = DriverObject] *)
Definition set_driver (p DriverObject : Z) : K unit :=
  o ← object_at p;
  put_object p (mkObject (type o) (alloc o) (refcount o) (h o) (Device DriverObject)).

(** [obj] and [entry] are what [calloc] gives for the device and for its name.  Returns
    the status and [*DeviceObject], if it is stored, and [UniqueId]. *)
Definition IoCreateDevice (malloc : Z -> option (list Z)) (obj entry : option Z) (UniqueId DriverObject : Z)
    (DeviceName : option (list Z)) (DeviceCharacteristics : Z) : K (Z * option Z * Z) :=
  _ ← assert_irql (fun i => i <=? APC_LEVEL) "KeGetCurrentIrql() <= APC_LEVEL";
  p ← DdkAllocObject obj IoDeviceType (Device 0) true;
  match p with
  | None => mret (STATUS_INSUFFICIENT_RESOURCES, None, UniqueId)
  | Some p =>
      _ ← ddkassertM (negb (DriverObject =? 0)) "DriverObject";
      _ ← set_driver p DriverObject;
      let generate := negb (Z.land DeviceCharacteristics FILE_AUTOGENERATED_DEVICE_NAME =? 0) in
      let id := s32 (UniqueId + 1) in
      let '(name, UniqueId) := match DeviceName with
        | Some n => (Some n, UniqueId)
        | None => if generate then (Some (generated_name id), id) else (None, UniqueId)
        end in
      ok ← match name with
           | Some n => DdkInsertName malloc entry (Some n) p (Some (wide "\Device"))
           | None => mret true
           end;
      if negb (ok : bool) then mret (STATUS_OBJECT_NAME_EXISTS, None, UniqueId) else
      d ← ToPointer p;
      _ ← DdkAddDevice DriverObject d;
      mret (STATUS_SUCCESS, Some d, UniqueId)
  end.

Definition IoDeleteDevice (DeviceObject : Z) : K unit :=
  _ ← assert_irql (fun i => i <=? APC_LEVEL) "KeGetCurrentIrql() <= APC_LEVEL";
  q ← FromPointer DeviceObject;
  p ← GetDevice q;
  _ ← DdkRemoveObjectName p;
  DdkDereferenceObject p.

End devices.

(** * devices keep the accounts of the counts *)

Section spec.
Context `{Environment} `{Locale} `{LL : !LocaleLaws}.

(** ** A new object of a public type *)

(** An address for an object that drivers see past its header. *)
Record fresh_public (s : kernel) (p : Z) : Prop := {
  fp_fresh : fresh s p;
  fp_hidden : objects s !! (p + sizeof_OBJECT) = None /\ isValidObject s (p + sizeof_OBJECT) = false
}.

Lemma valid_new s p o a : a <> p -> isValidObject (put_at s p o) a = isValidObject s a.
Proof. intros Hn. unfold isValidObject, type_at. simpl. by rewrite lookup_insert_ne. Qed.

(** The pointer to a public object, without the invariant. *)
Lemma from_public_at s p o :
  0 < p -> objects s !! p = Some o -> is_public_type (type o) = true -> 0 < refcount o ->
  isValidObject s (p + sizeof_OBJECT) = false -> FromPointer (p + sizeof_OBJECT) s = Ok (p, s).
Proof.
  intros Hp Ep Ht Hc Hi. pose proof (public_valid _ Ht) as Hv.
  unfold FromPointer. rewrite Hi. unfold sizeof_OBJECT. destruct (Z.eqb_spec (p + 16) 0); [lia |]. simpl.
  rewrite Z.add_simpl_r. destruct (Z.eqb_spec p 0); [lia |].
  assert (isValidObject s p = true) as ->.
  { unfold isValidObject, type_at. rewrite Ep. destruct (Z.eqb_spec p 0); [lia |]. simpl. by rewrite Z.gtb_ltb. }
  simpl. rewrite (kbind _ _ s o s) by by apply object_at_run.
  assert (isPublicObject s p = true) as ->.
  { unfold isPublicObject, type_at. rewrite Ep, Ht. by destruct (Z.eqb_spec p 0); [lia |]. }
  destruct (Z.leb_spec (refcount o) 0); [lia |]. by rewrite andb_false_r.
Qed.

Lemma to_public_at s p o : 0 < p -> objects s !! p = Some o -> is_public_type (type o) = true ->
  ToPointer p s = Ok (p + sizeof_OBJECT, s).
Proof.
  intros Hp Ep Ht. unfold ToPointer, isPublicObject, type_at. rewrite Ep, Ht. by destruct (Z.eqb_spec p 0); [lia |].
Qed.

(** ** A device in the list of its driver *)

Definition new_device (q n : Z) : OBJECT := mkObject IoDeviceType true n 0 (Device (q + sizeof_OBJECT)).

Definition enlist (p : Z) (o : OBJECT) : OBJECT :=
  match contents o with
  | Driver i ds => mkObject (type o) (alloc o) (refcount o + 1) (h o) (Driver i (ds ++ [p + sizeof_OBJECT]))
  | _ => o
  end.

(** [q] is a driver with the devices [ds]. *)
Record driver_of (s : kernel) (q : Z) (o : OBJECT) (i : Z) (ds : list Z) : Prop := {
  d_at : objects s !! q = Some o;
  d_contents : contents o = Driver i ds;
  d_count : 0 < refcount o < 2 ^ 31 - 1
}.

Definition with_device (s : kernel) (p q : Z) (o : OBJECT) : kernel :=
  put_at (put_at s p (new_device q 1)) q (enlist p o).

Section adding.
Context (s : kernel) (p q : Z) (o : OBJECT) (i : Z) (ds : list Z).
Context (I : kinv s) (F : fresh_public s p) (D : driver_of s q o i ds).

Lemma new_not_driver : p <> q.
Proof. destruct F as [(_ & Hn & _) _], D. congruence. Qed.

Lemma driver_type : type o = IoDriverType.
Proof. destruct D. pose proof (o_typed _ _ _ (k_objects _ I q o d_at0)) as Ht. unfold well_typed in Ht. by rewrite d_contents0 in Ht. Qed.

Lemma enlist_fields : type (enlist p o) = type o /\ h (enlist p o) = h o /\ refcount (enlist p o) = refcount o + 1 /\
  contents (enlist p o) = Driver i (ds ++ [p + sizeof_OBJECT]).
Proof. unfold enlist. by rewrite (d_contents _ _ _ _ _ D). Qed.

Lemma enlist_alloc : alloc (enlist p o) = alloc o.
Proof. unfold enlist. by rewrite (d_contents _ _ _ _ _ D). Qed.

Lemma new_not_listed : p + sizeof_OBJECT ∉ ds.
Proof.
  intros Hin. destruct D. destruct (o_devices _ _ _ (k_objects _ I q o d_at0) _ _ d_contents0) as [_ Hd].
  destruct (Hd _ Hin) as (x & Ex & _). rewrite Z.add_simpl_r in Ex. destruct F as [(_ & Hn & _) _]. congruence.
Qed.

Lemma with_device_cases a x : objects (with_device s p q o) !! a = Some x ->
  (a = p /\ x = new_device q 1) \/ (a = q /\ x = enlist p o) \/ (a <> p /\ a <> q /\ objects s !! a = Some x).
Proof.
  unfold with_device. simpl. intros [[<- <-] | [Hn Ex]]%lookup_insert_Some; [tauto |].
  apply lookup_insert_Some in Ex as [[<- <-] | [Hp Ex]]; [tauto |]. right. right. auto.
Qed.

Lemma with_device_at : objects (with_device s p q o) !! p = Some (new_device q 1) /\
  objects (with_device s p q o) !! q = Some (enlist p o).
Proof.
  pose proof new_not_driver. unfold with_device. simpl.
  rewrite lookup_insert_ne by done. by rewrite !lookup_insert_eq.
Qed.

Lemma with_device_other a : a <> p -> a <> q -> objects (with_device s p q o) !! a = objects s !! a.
Proof. intros. unfold with_device. simpl. by rewrite !lookup_insert_ne. Qed.

Lemma with_device_refs a : refs (with_device s p q o) a = refs s a + one (a = q).
Proof.
  destruct D. pose proof new_not_driver as Hpq. pose proof with_device_at as [Ep Eq].
  destruct F as [(Hp & Hn & _) _]. unfold refs.
  pose proof (filed_insert (objects s) p (new_device q 1) a) as F1. rewrite Hn in F1. unfold opening in F1.
  rewrite decide_False in F1 by (by intros [? _]).
  pose proof (filed_insert (<[p := new_device q 1]> (objects s)) q (enlist p o) a) as F2.
  rewrite lookup_insert_ne, d_at0 in F2 by done. unfold opening in F2.
  rewrite !decide_False in F2 by (unfold opens, enlist; rewrite d_contents0; by intros [? _]).
  assert (filed (objects (with_device s p q o)) a = filed (objects s) a) as -> by (unfold with_device; simpl; lia).
  change (DdkNameList (with_device s p q o)) with (DdkNameList s). unfold listed, one. case_decide as Ca.
  - subst a. rewrite Eq, d_at0. destruct enlist_fields as (_ & _ & _ & ->). rewrite d_contents0, length_app. simpl. lia.
  - destruct (decide (a = p)) as [-> |]; [rewrite Ep, Hn; simpl; lia |]. rewrite with_device_other by done. lia.
Qed.

Lemma with_device_client a : client (with_device s p q o) a = client s a + one (a = p).
Proof.
  destruct D. pose proof with_device_at as [Ep Eq]. pose proof new_not_driver. pose proof (fresh_refs s p I (fp_fresh _ _ F)) as R.
  destruct F as [(_ & Hn & _) _]. unfold client. rewrite with_device_refs.
  destruct (decide (a = p)) as [-> | Np]; [| destruct (decide (a = q)) as [-> | Nq]].
  - rewrite Ep, Hn, (one_no (p = q)), one_yes by done. simpl. lia.
  - rewrite Eq, d_at0, (one_yes (q = q)), one_no by done. destruct enlist_fields as (_ & _ & -> & _). lia.
  - rewrite with_device_other, !one_no by done. destruct (objects s !! a); lia.
Qed.

Lemma with_device_device a drv : device_of s a drv -> device_of (with_device s p q o) a drv.
Proof.
  intros (x & Ex & Hx). exists x. split; [| done]. rewrite with_device_other; [done | |].
  - intros ->. destruct F as [(_ & Hn & _) _]. congruence.
  - intros ->. destruct D. congruence.
Qed.

Lemma with_device_lists q' a : lists s q' a -> lists (with_device s p q o) q' a.
Proof.
  intros (x & i' & ds' & Ex & Hx & Hin). destruct (decide (q' = q)) as [-> | Hn].
  - destruct D. assert (x = o) as -> by congruence. assert (ds' = ds) as -> by congruence. exists (enlist p o), i, (ds ++ [p + sizeof_OBJECT]).
    split; [apply with_device_at |]. split; [apply enlist_fields |]. apply elem_of_app. by left.
  - exists x, i', ds'. split; [| done]. rewrite with_device_other; [done | | done].
    intros ->. destruct F as [(_ & Hp & _) _]. congruence.
Qed.

Lemma with_device_valid a : a <> p -> isValidObject (with_device s p q o) a = isValidObject s a.
Proof.
  intros Hn. destruct D. unfold with_device.
  rewrite (valid_put _ q o); [by apply valid_new | | by destruct enlist_fields].
  simpl. by rewrite lookup_insert_ne by apply new_not_driver.
Qed.

Lemma with_device_hidden a : a <> p -> objects s !! a = None /\ isValidObject s a = false ->
  objects (with_device s p q o) !! a = None /\ isValidObject (with_device s p q o) a = false.
Proof.
  intros Hn [En Hv]. rewrite with_device_valid by done. split; [| done].
  rewrite with_device_other; [done | done |]. intros ->. destruct D. congruence.
Qed.

Lemma with_device_ok : kinv (with_device s p q o).
Proof.
  pose proof with_device_at as [Ep Eq]. pose proof enlist_fields as (Et & Eh & Ec & Ek).
  pose proof (d_at _ _ _ _ _ D) as Dq. pose proof (k_objects _ I q o Dq) as Oq.
  destruct F as [Fr Hid]. pose proof Fr as (Hp & Hn & Hpub). split; [| apply (k_entries _ I) |].
  - intros a x [[-> ->] | [[-> ->] | (Hap & Haq & Ex)]]%with_device_cases.
    + split; try done.
      * intros _. apply with_device_hidden; [unfold sizeof_OBJECT; lia | done].
      * rewrite with_device_refs, (fresh_refs s p I Fr), one_no by apply new_not_driver. simpl. lia.
      * intros drv [= <-] _. exists q. split; [done |]. exists (enlist p o), i, (ds ++ [p + sizeof_OBJECT]).
        split; [done |]. split; [done |]. apply elem_of_app. right. by left.
    + destruct Oq. split.
      * done.
      * unfold well_typed in *. rewrite Ek, Et. apply driver_type.
      * intros _. apply with_device_hidden; [apply not_eq_sym, (Hpub q o Dq); by rewrite driver_type |].
        apply o_hidden. by rewrite driver_type.
      * rewrite with_device_refs, Ec, one_yes by done. pose proof (d_count _ _ _ _ _ D). lia.
      * by rewrite Eh.
      * intros i' ds' Hi. rewrite Ek in Hi. injection Hi as <- <-.
        destruct (o_devices _ _ (d_contents _ _ _ _ _ D)) as [Nd Hd]. split.
        -- apply NoDup_app. split; [done |]. split; [| apply NoDup_singleton].
           intros d Hin ->%list_elem_of_singleton. by apply new_not_listed.
        -- intros d [Hin | ->%list_elem_of_singleton]%elem_of_app; [by apply with_device_device, Hd |].
           rewrite Z.add_simpl_r. by exists (new_device q 1).
      * intros drv Hv. congruence.
      * intros d Hv. congruence.
    + destruct (k_objects _ I a x Ex). split; try done.
      * intros Hpb. apply with_device_hidden; [by apply not_eq_sym, (Hpub a x) | by apply o_hidden].
      * rewrite with_device_refs, one_no by done. lia.
      * intros i' ds' Hi. destruct (o_devices i' ds' Hi). split; [done |]. intros. by apply with_device_device; auto.
      * intros drv Hv Hc. destruct (o_listed drv Hv Hc) as (q' & -> & Hq). exists q'. split; [done |]. by apply with_device_lists.
      * intros d Hv Hd Hc. destruct (o_opened d Hv Hd Hc) as (q' & drv & -> & Hq). exists q', drv. split; [done |].
        by apply with_device_device.
  - intros e He. change (DdkNameList (with_device s p q o)) with (DdkNameList s) in He.
    destruct (k_named _ I e He) as [x Ex]. destruct (decide (Object e = q)) as [-> |]; [by rewrite Eq |].
    rewrite with_device_other; [done | congruence | done].
Qed.

End adding.

(** ** The steps of IoCreateDevice *)

Lemma find_name_put u l s p x : (forall e, e ∈ l -> Object e <> p) ->
  find_name u l (put_at s p x) =
    match find_name u l s with Ok (r, _) => Ok (r, put_at s p x) | Err f => Err f end.
Proof.
  induction l as [| e l IH]; intros Hn; [done |]. cbn [find_name].
  assert (forall t, same_name u e t = match RtlCompareUnicodeString (CurrentIrql t) u (Objects.Name e) true with
    | Ok rc => Ok (rc =? 0, t) | Err f => Err f end) as Es.
  { intros t. unfold same_name. rewrite (kbind _ _ t (CurrentIrql t) t) by done. unfold mbind, M_bind, lift, mret, M_ret.
    by destruct (RtlCompareUnicodeString _ _ _ _). }
  unfold mbind, M_bind. rewrite !Es. change (CurrentIrql (put_at s p x)) with (CurrentIrql s).
  destruct (RtlCompareUnicodeString _ _ _ _) as [rc | f]; [| done].
  assert (forall e', e' ∈ l -> Object e' <> p) as Hl by (intros; apply Hn; by right).
  destruct (rc =? 0); [| by apply IH]. unfold object_at. simpl.
  rewrite lookup_insert_ne by (apply not_eq_sym, Hn; by left).
  destruct (objects s !! Object e) as [y |]; [| done]. destruct (negb (refcount y =? 0)); [done | by apply IH].
Qed.

(** Looking up a name does not look at an object that has none. *)
Lemma find_put s p x u cs d : kinv s -> CurrentIrql s = 0 -> names_as d s -> holds u cs -> plain cs ->
  Z.of_nat (length cs) < 2 ^ 15 -> objects s !! p = None ->
  exists found, DdkFindName u (put_at s p x) = Ok (found, put_at s p x) /\ found_as d cs found.
Proof.
  intros I Hi Hd Hu Hp Hl Hn. destruct (DdkFindName_run s u cs d I Hi Hd Hu Hp Hl) as (found & E & Hf).
  exists found. split; [| done]. unfold DdkFindName in *.
  rewrite (kbind _ _ _ (DdkNameList s) (put_at s p x)) by done. rewrite (kbind _ _ s (DdkNameList s) s) in E by done.
  rewrite find_name_put, E; [done |]. intros e He <-. destruct (k_named _ I e He). congruence.
Qed.

Lemma add_device_run s q o i ds d :
  0 < q -> driver_of s q o i ds -> type o = IoDriverType -> isValidObject s (q + sizeof_OBJECT) = false ->
  DdkAddDevice (q + sizeof_OBJECT) d s =
    Ok (tt, put_at s q (mkObject (type o) (alloc o) (refcount o + 1) (h o) (Driver i (ds ++ [d])))).
Proof.
  intros Hq [Eq Ec Hc] Ht Hv. unfold DdkAddDevice.
  rewrite (kbind _ _ s q s) by (apply (from_public_at s q o); try done; [by rewrite Ht | lia]).
  rewrite (kbind _ _ s q s).
  2: { unfold GetDriver. destruct (Z.eqb_spec q 0); [lia |]. rewrite (kbind _ _ s o s) by by apply object_at_run.
       by rewrite Ht. }
  rewrite (kbind _ _ s (i, ds) s)
    by (unfold driver_body; rewrite (kbind _ _ s o s) by (by apply object_at_run); by rewrite Ec).
  set (o1 := mkObject (type o) (alloc o) (refcount o) (h o) (Driver i (ds ++ [d]))).
  rewrite (kbind _ _ s tt (put_at s q o1))
    by (unfold set_devices; rewrite (kbind _ _ s o s) by (by apply object_at_run); by rewrite Ec).
  unfold DdkReferenceObject. rewrite (kbind _ _ _ (refcount o + 1) (put_at (put_at s q o1) q (with_count o1 (refcount o + 1)))).
  2: { apply (increment_run _ q o1); [apply lookup_insert_eq | simpl; lia]. }
  by rewrite put_put.
Qed.

Lemma apc_run s c : CurrentIrql s = 0 -> assert_irql (fun i => i <=? APC_LEVEL) c s = Ok (tt, s).
Proof. intros Hi. unfold assert_irql, KeGetCurrentIrql, mbind, M_bind. by rewrite Hi. Qed.

Lemma same_kernel (s t : kernel) : DdkNameList t = DdkNameList s -> CurrentIrql t = CurrentIrql s -> events t = events s ->
  set_objects (objects s) t = s.
Proof. destruct s, t. simpl. by intros -> -> ->. Qed.

(** A device that is in no list is freed: its driver is not touched. *)
Lemma free_unlisted s p q o i ds n :
  0 < p -> objects s !! p = Some (new_device q 0) -> 0 < q -> driver_of s q o i ds -> type o = IoDriverType ->
  isValidObject s (q + sizeof_OBJECT) = false -> p + sizeof_OBJECT ∉ ds ->
  (forall e, e ∈ DdkNameList s -> Object e <> p) -> NoDup (addr <$> DdkNameList s) ->
  DdkFreeObject (S n) p s = Ok (tt, log (Freed p) (delete_at s p)).
Proof.
  intros Hp Ep Hq [Eq Ec Hc] Ht Hv Hds Hn Nd. cbn [DdkFreeObject].
  rewrite (kbind _ _ s (new_device q 0) s) by by apply object_at_run. cbn [type new_device].
  change (IoDeviceType =? IoFileType) with false. change (IoDeviceType =? IoDriverType) with false.
  change (IoDeviceType =? IoDeviceType) with true. cbn iota.
  rewrite (kbind _ _ s tt s).
  2: { unfold DdkFreeDeviceObject. rewrite (kbind _ _ s (new_device q 0) s) by by apply object_at_run.
       rewrite (kbind _ _ s (p + sizeof_OBJECT) s) by by apply (to_public_at s p (new_device q 0)).
       cbn [contents new_device]. unfold DdkRemoveDevice.
       rewrite (kbind _ _ s q s) by (apply (from_public_at s q o); try done; [by rewrite Ht | lia]).
       rewrite (kbind _ _ s q s).
       2: { unfold GetDriver. destruct (Z.eqb_spec q 0); [lia |]. rewrite (kbind _ _ s o s) by by apply object_at_run.
            by rewrite Ht. }
       rewrite (kbind _ _ s (i, ds) s)
         by (unfold driver_body; rewrite (kbind _ _ s o s) by (by apply object_at_run); by rewrite Ec).
       destruct (existsb (Z.eqb (p + sizeof_OBJECT)) ds) eqn:Ex; [| done].
       apply existsb_exists in Ex as (x & Hx & Hxe). apply Z.eqb_eq in Hxe as <-. by apply list_elem_of_In in Hx. }
  rewrite (kbind _ _ s tt s)
    by (unfold close_handle; by rewrite (kbind _ _ s (new_device q 0) s) by (by apply object_at_run)).
  rewrite (kbind _ _ s tt s).
  2: { unfold remove_object_name, remove_names. rewrite (kbind _ _ s (length (DdkNameList s)) s) by done.
       by apply (remove_loop_none _ _ (DdkNameList s) s []). }
  by rewrite (kbind _ _ s (new_device q 0) s) by by apply object_at_run.
Qed.

Lemma driver_is s q o i ds : kinv s -> driver_of s q o i ds ->
  0 < q /\ type o = IoDriverType /\ isValidObject s (q + sizeof_OBJECT) = false /\ objects s !! (q + sizeof_OBJECT) = None.
Proof.
  intros I D. pose proof (driver_type s q o i ds I D) as Ht. pose proof (k_objects _ I q o (d_at _ _ _ _ _ D)) as [Hq _ Hh _ _ _ _ _].
  rewrite Ht in Hh. by destruct (Hh eq_refl).
Qed.

(** ** A name for an object that has just been made *)

Section fresh_name.
Context (malloc : Z -> option (list Z)) (Dir : option (list Z)) (Name cs : list Z) (P : path_of malloc Dir Name cs).
Context (s : kernel) (p a : Z) (d : directory).
Context (I : kinv s) (Irql : CurrentIrql s = 0) (Nd : names_as d s) (F : fresh s p).

Lemma new_unnamed : forall e, e ∈ DdkNameList s -> Object e <> p.
Proof. intros e He <-. destruct (k_named _ I e He). destruct F as (_ & Hn & _). congruence. Qed.

(** [DdkCreateName] up to the search of the list. *)
Lemma create_new_name : exists nm, entry_is (mkName a p nm) (cs, p) /\ exists found, found_as d cs found /\
  forall x, DdkCreateName malloc (Some a) (Some Name) p Dir (put_at s p x) =
    match found with
    | Some (pLookup, path) =>
        (_ ← DdkReferenceObject pLookup; _ ← DdkDereferenceObject p; mret (pLookup, path)) (put_at s p x)
    | None =>
        (_ ← DdkReferenceObject p; mret (p, nm)) (set_names (mkName a p nm :: DdkNameList s) (put_at s p x))
    end.
Proof.
  destruct (create_path_ok _ _ _ _ P) as (Hp & H0c & u & Eu & Hu). pose proof (p_size _ _ _ _ P) as Hs.
  destruct (new_entry_ok a p u cs Hu Hp H0c Hs) as (nm & En & Hnm). exists nm.
  split; [split; [done | split; [done | split; [simpl; lia | done]]] |].
  destruct F as (Hp0 & Hn & _). unshelve epose proof (DdkFindName_run s nm cs d I Irql Nd Hnm Hp _) as (found & Ef & Hf); [lia |].
  exists found. split; [done |]. intros x.
  destruct (find_put s p x nm cs d I Irql Nd Hnm Hp ltac:(lia) Hn) as (found' & E & Hf').
  assert (found' = found) as ->.
  { unfold DdkFindName in *. rewrite (kbind _ _ _ (DdkNameList s) (put_at s p x)) in E by done.
    rewrite (kbind _ _ s (DdkNameList s) s) in Ef by done. rewrite find_name_put, Ef in E by apply new_unnamed. congruence. }
  set (s1 := put_at s p x) in *. unfold DdkCreateName.
  rewrite (kbind _ _ s1 Name s1) by (destruct (Z.eqb_spec p 0); [lia | done]).
  rewrite (kbind _ _ s1 tt s1).
  2: { pose proof (p_some _ _ _ _ P). destruct Name; [done |]. unfold ddkassertM, lift, ddkassert.
       by replace (2 * Z.of_nat (length (z :: l)) >=? 2) with true
         by (symmetry; rewrite Z.geb_leb; apply Z.leb_le; cbn [length]; lia). }
  rewrite (kbind _ _ s1 u s1) by (unfold lift; by rewrite Eu).
  rewrite (kbind _ _ s1 (mkName a p nm) s1) by (unfold lift; by rewrite En). cbn [Objects.Name].
  rewrite (kbind _ _ s1 found s1 E). by destruct found as [[y path] |].
Qed.

End fresh_name.

Section naming.
Context (malloc : Z -> option (list Z)) (Name cs : list Z) (P : path_of malloc (Some (wide "\Device")) Name cs).
Context (s : kernel) (p a q : Z) (o : OBJECT) (i : Z) (ds : list Z) (d : directory).
Context (I : kinv s) (Irql : CurrentIrql s = 0) (Nd : names_as d s) (Rm : room 2 s).
Context (F : fresh_public s p) (D : driver_of s q o i ds) (Fa : a ∉ (addr <$> DdkNameList s)).

Definition named_device (nm : UNICODE_STRING) : kernel :=
  put_at (set_names (mkName a p nm :: DdkNameList s) (with_device s p q o)) p (new_device q 2).

Lemma insert_new : dlookup d cs = None ->
  exists nm, DdkInsertName malloc (Some a) (Some Name) p (Some (wide "\Device")) (put_at s p (new_device q 1)) =
      Ok (true, put_at (set_names (mkName a p nm :: DdkNameList s) s) p (new_device q 2)) /\
    account (with_device s p q o) (named_device nm) ((cs, p) :: d) 1 (fun _ => 0).
Proof.
  intros Hd. destruct (create_new_name _ _ _ _ P s p a d I Irql Nd (fp_fresh _ _ F)) as (nm & He & found & Hf & E). exists nm.
  unfold found_as in Hf. rewrite Hd in Hf. subst found. split.
  - unfold DdkInsertName. set (s2 := set_names (mkName a p nm :: DdkNameList s) (put_at s p (new_device q 1))).
    assert (objects s2 !! p = Some (new_device q 1)) as Ep by apply lookup_insert_eq.
    rewrite (kbind _ _ (put_at s p (new_device q 1)) (p, nm) (put_at s2 p (new_device q 2))).
    + rewrite Z.eqb_refl. cbn [negb]. unfold s2, put_at, set_names, set_objects. simpl. by rewrite insert_insert_eq.
    + rewrite E. fold s2. unfold DdkReferenceObject.
      rewrite (kbind _ _ s2 tt (put_at s2 p (new_device q 2))); [done |].
      by rewrite (kbind _ _ s2 2 (put_at s2 p (new_device q 2)))
        by by apply (increment_run s2 p (new_device q 1)).
  - set (w := with_device s p q o) in *. pose proof (with_device_ok s p q o i ds I F D) as Iw. fold w in Iw.
    pose proof (with_device_client s p q o i ds I F D p) as Cw. fold w in Cw. rewrite one_yes in Cw by done.
    pose proof (client_nonneg s p I).
    pose proof (enter_run w p (mkName a p nm) cs d Iw Nd ltac:(lia) Fa He) as A1.
    set (w1 := set_names (mkName a p nm :: DdkNameList w) w) in A1.
    assert (objects w1 !! p = Some (new_device q 1)) as Ep by apply (with_device_at s p q o i ds F D).
    destruct (refer_run w1 p (new_device q 1) _ (a_inv _ _ _ _ _ A1) (a_names _ _ _ _ _ A1) Ep ltac:(done)) as (w2 & E2 & A2).
    assert (w2 = named_device nm) as ->.
    { unfold DdkReferenceObject in E2. rewrite (kbind _ _ w1 2 (put_at w1 p (new_device q 2))) in E2
        by by apply (increment_run w1 p (new_device q 1)). by injection E2 as <-. }
    eapply account_ext; [| apply (account_trans _ _ _ _ _ _ _ _ _ A1 A2)]. intros b. simpl. lia.
Qed.

(** The name is another object's: it gets a reference and loses it, and the device is freed. *)
Lemma insert_taken x : dlookup d cs = Some x ->
  exists s', DdkInsertName malloc (Some a) (Some Name) p (Some (wide "\Device")) (put_at s p (new_device q 1)) = Ok (false, s') /\
    account s s' d 1 (fun _ => 0) /\ objects s' !! p = None.
Proof.
  intros Hd. destruct (create_new_name _ _ _ _ P s p a d I Irql Nd (fp_fresh _ _ F)) as (nm & _ & found & Hf & E).
  unfold found_as in Hf. rewrite Hd in Hf. destruct Hf as (path & -> & _).
  destruct (dlookup_object d cs x s I Nd Hd) as (ox & Ex & Hx & _).
  pose proof (new_not_driver s p q o i ds F D) as Npq. pose proof (driver_is s q o i ds I D) as (Hq & Ht & Hv & _).
  pose proof F as [(Hp & Hn & Hpub) _]. assert (x.2 <> p) as Nxp by congruence.
  pose proof (Rm x.2 ox Ex) as Hc. set (y := with_count ox (refcount ox + 1)).
  destruct (refer_run s x.2 ox d I Nd Ex ltac:(lia)) as (s1 & E1 & A1).
  assert (s1 = put_at s x.2 y) as ->.
  { unfold DdkReferenceObject in E1. rewrite (kbind _ _ s _ _ (increment_run s x.2 ox Ex ltac:(lia))) in E1.
    by injection E1 as <-. }
  set (s1 := put_at s x.2 y) in *. set (s2 := put_at s1 p (new_device q 0)).
  assert (forall n, put_at (put_at s p (new_device q n)) x.2 y = put_at s1 p (new_device q n)) as Sw.
  { intros n. unfold s1, put_at, set_objects. simpl. by rewrite insert_insert_ne by congruence. }
  assert (exists oq, driver_of s2 q oq i ds /\ type oq = IoDriverType) as (oq & Dq & Htq).
  { destruct D as [Dq Dc Dn]. destruct (decide (x.2 = q)) as [Exq | Nxq].
    - assert (ox = o) as -> by congruence. exists y. split; [split |]; try done.
      + unfold s2, s1. simpl. rewrite lookup_insert_ne by done. rewrite <- Exq. apply lookup_insert_eq.
      + simpl. lia.
    - exists o. split; [split |]; try done. unfold s2, s1. simpl. by rewrite !lookup_insert_ne. }
  set (s3 := log (Freed p) s1).
  assert (DdkDereferenceObject p (put_at s1 p (new_device q 1)) = Ok (tt, s3)) as Ed.
  { unfold DdkDereferenceObject, dereference. rewrite (kbind _ _ _ 0 s2).
    2: { rewrite (decrement_run _ p (new_device q 1)) by (try apply lookup_insert_eq; simpl; lia).
         unfold s2. by rewrite put_put. }
    change (0 =? 0) with true. cbn iota. unfold free_depth.
    rewrite (free_unlisted s2 p q oq i ds); try done.
    - unfold s3, s2, delete_at, log, put_at, set_objects. simpl. rewrite delete_insert_eq, delete_id; [done |].
      unfold s1. simpl. by rewrite lookup_insert_ne.
    - apply lookup_insert_eq.
    - unfold s2. rewrite valid_new by (apply not_eq_sym, (Hpub q o (d_at _ _ _ _ _ D)); by rewrite Ht).
      unfold s1. by rewrite (valid_put s x.2 ox).
    - apply (new_not_listed s p q o i ds I F D).
    - apply (new_unnamed s p I (fp_fresh _ _ F)).
    - apply (k_entries _ I). }
  assert (account s s3 d 1 (fun b => one (b = x.2))) as A3.
  { destruct A1. split; try done. by apply kinv_log. }
  destruct (drop_run s3 x.2 d (a_inv _ _ _ _ _ A3) (a_names _ _ _ _ _ A3)) as (s4 & E4 & A4).
  { rewrite (a_client _ _ _ _ _ A3), one_yes by done. pose proof (client_nonneg s x.2 I). lia. }
  exists s4. split; [| split].
  - unfold DdkInsertName. rewrite (kbind _ _ (put_at s p (new_device q 1)) (x.2, path) s3).
    + destruct (Z.eqb_spec x.2 p); [done |]. cbn [negb]. by rewrite (kbind _ _ _ _ _ E4).
    + rewrite E. rewrite (kbind _ _ _ tt (put_at s1 p (new_device q 1))).
      * by rewrite (kbind _ _ _ _ _ Ed).
      * unfold DdkReferenceObject. rewrite (kbind _ _ _ (refcount ox + 1) (put_at s1 p (new_device q 1))); [done |].
        rewrite <- Sw. apply increment_run; [simpl; by rewrite lookup_insert_ne by congruence | lia].
  - eapply account_ext; [| apply (account_trans _ _ _ _ _ _ _ _ _ A3 A4)]. intros b. simpl. lia.
  - destruct (objects s4 !! p) as [z |] eqn:Ez; [| done].
    destruct (a_types _ _ _ _ _ A4 p z Ez) as (z' & Ez' & _). exfalso. revert Ez'. unfold s3, s1. simpl.
    rewrite lookup_insert_ne by done. congruence.
Qed.

(** [IoCreateDevice] up to the name. *)
Definition generates (chr : Z) : bool := negb (Z.land chr FILE_AUTOGENERATED_DEVICE_NAME =? 0).

Definition requested (DeviceName : option (list Z)) (chr id : Z) : option (list Z) * Z :=
  match DeviceName with
  | Some n => (Some n, id)
  | None => if generates chr then (Some (generated_name (s32 (id + 1))), s32 (id + 1)) else (None, id)
  end.

Definition device_state : kernel := put_at s p (new_device q 1).

Lemma create_device_run DeviceName chr id : 
  IoCreateDevice malloc (Some p) (Some a) id (q + sizeof_OBJECT) DeviceName chr s =
    (ok ← match (requested DeviceName chr id).1 with
          | Some n => DdkInsertName malloc (Some a) (Some n) p (Some (wide "\Device"))
          | None => mret true
          end;
     if negb (ok : bool) then mret (STATUS_OBJECT_NAME_EXISTS, None, (requested DeviceName chr id).2) else
     d ← ToPointer p;
     _ ← DdkAddDevice (q + sizeof_OBJECT) d;
     mret (STATUS_SUCCESS, Some d, (requested DeviceName chr id).2)) device_state.
Proof.
  pose proof (driver_is s q o i ds I D) as (Hq & _). unfold IoCreateDevice.
  rewrite (kbind _ _ s tt s) by (by apply apc_run).
  set (o0 := mkObject IoDeviceType true 1 0 (Device 0)).
  rewrite (kbind _ _ s (Some p) (put_at s p o0)) by done. cbn iota.
  rewrite (kbind _ _ _ tt (put_at s p o0)) by (unfold sizeof_OBJECT; by destruct (Z.eqb_spec (q + 16) 0); [lia |]).
  rewrite (kbind _ _ _ tt device_state).
  2: { unfold set_driver. rewrite (kbind _ _ _ o0 (put_at s p o0)) by (apply object_at_run, lookup_insert_eq).
       change (Ok (tt, put_at (put_at s p o0) p (new_device q 1)) = Ok (tt, device_state)). by rewrite put_put. }
  unfold requested, generates. destruct DeviceName as [n |]; [done |].
  cbv zeta. by destruct (negb (Z.land chr FILE_AUTOGENERATED_DEVICE_NAME =? 0)).
Qed.

Lemma finish_create (s1 : kernel) n (id : Z) : 0 < p -> objects s1 !! p = Some (new_device q n) -> objects s1 !! q = Some o ->
  isValidObject s1 (q + sizeof_OBJECT) = false ->
  (d ← ToPointer p; _ ← DdkAddDevice (q + sizeof_OBJECT) d; mret (STATUS_SUCCESS, Some d, id) : K (Z * option Z * Z)) s1 =
    Ok ((STATUS_SUCCESS, Some (p + sizeof_OBJECT), id), put_at s1 q (enlist p o)).
Proof.
  intros Hp Ep Eq Hv. pose proof (driver_is s q o i ds I D) as (Hq & Ht & _).
  rewrite (kbind _ _ s1 (p + sizeof_OBJECT) s1) by by apply (to_public_at s1 p (new_device q n)).
  rewrite (kbind _ _ s1 tt (put_at s1 q (enlist p o))); [done |].
  destruct D as [_ Dc Dn]. rewrite (add_device_run s1 q o i ds (p + sizeof_OBJECT)); [| done | by split | done | done].
  unfold enlist. by rewrite Dc.
Qed.

(** ** Deleting what was created *)

Lemma remove_last x (l : list Z) : x ∉ l -> remove_first x (l ++ [x]) = l.
Proof.
  induction l as [| y l IH]; intros Hx; simpl; [by rewrite Z.eqb_refl |].
  apply not_elem_of_cons in Hx as [Hxy Hx]. destruct (Z.eqb_spec y x); [done |]. by rewrite IH.
Qed.

Lemma same_driver : mkObject (type o) (alloc o) (refcount o) (h o) (Driver i ds) = o.
Proof. destruct D as [_ Dc _]. destruct o. simpl in *. by subst. Qed.

(** [DdkRemoveDevice] in the state the new device is freed in. *)
Lemma remove_new_device t free : objects t !! q = Some (enlist p o) -> isValidObject t (q + sizeof_OBJECT) = false ->
  DdkRemoveDevice free (q + sizeof_OBJECT) (p + sizeof_OBJECT) t = Ok (tt, put_at t q o).
Proof.
  intros Eq Hv. pose proof (driver_is s q o i ds I D) as (Hq & Ht & _).
  pose proof (enlist_fields s p q o i ds D) as (Et & Eh & Ec & Ek). pose proof (d_count _ _ _ _ _ D) as Hc.
  unfold DdkRemoveDevice.
  rewrite (kbind _ _ t q t) by (apply (from_public_at t q (enlist p o)); try done; [by rewrite Et, Ht | lia]).
  rewrite (kbind _ _ t q t).
  2: { unfold GetDriver. destruct (Z.eqb_spec q 0); [lia |]. rewrite (kbind _ _ t (enlist p o) t) by by apply object_at_run.
       by rewrite Et, Ht. }
  rewrite (kbind _ _ t (i, ds ++ [p + sizeof_OBJECT]) t)
    by (unfold driver_body; rewrite (kbind _ _ t (enlist p o) t) by (by apply object_at_run); by rewrite Ek).
  assert (existsb (Z.eqb (p + sizeof_OBJECT)) (ds ++ [p + sizeof_OBJECT]) = true) as ->.
  { rewrite existsb_app. simpl. rewrite Z.eqb_refl. apply orb_true_r. }
  rewrite remove_last by apply (new_not_listed s p q o i ds I F D).
  set (o1 := mkObject (type o) (alloc o) (refcount o + 1) (h o) (Driver i ds)).
  rewrite (kbind _ _ t tt (put_at t q o1)).
  2: { unfold set_devices. rewrite (kbind _ _ t (enlist p o) t) by (by apply object_at_run). rewrite Ek, Et, Eh, Ec.
       by rewrite (enlist_alloc s p q o i ds D). }
  unfold dereference. rewrite (kbind _ _ _ (refcount o) (put_at t q o)).
  - by destruct (Z.eqb_spec (refcount o) 0); [lia |].
  - rewrite (decrement_run _ q o1) by (try apply lookup_insert_eq; simpl; lia). rewrite put_put. simpl.
    replace (refcount o + 1 - 1) with (refcount o) by lia. unfold with_count. simpl.
    replace (refcount o + 1 - 1) with (refcount o) by lia. by rewrite same_driver.
Qed.

Lemma free_new_device t n : objects t !! p = Some (new_device q 0) -> objects t !! q = Some (enlist p o) ->
  isValidObject t (q + sizeof_OBJECT) = false -> DdkNameList t = DdkNameList s ->
  DdkFreeObject (S n) p t = Ok (tt, log (Freed p) (delete_at (put_at t q o) p)).
Proof.
  intros Ep Eq Hv En. pose proof F as [(Hp & _) _]. pose proof (new_not_driver s p q o i ds F D) as Npq. cbn [DdkFreeObject].
  rewrite (kbind _ _ t (new_device q 0) t) by by apply object_at_run. cbn [type new_device].
  change (IoDeviceType =? IoFileType) with false. change (IoDeviceType =? IoDriverType) with false.
  change (IoDeviceType =? IoDeviceType) with true. cbn iota.
  set (t1 := put_at t q o).
  assert (objects t1 !! p = Some (new_device q 0)) as Ep1 by (unfold t1; simpl; by rewrite lookup_insert_ne).
  rewrite (kbind _ _ t tt t1).
  2: { unfold DdkFreeDeviceObject. rewrite (kbind _ _ t (new_device q 0) t) by by apply object_at_run.
       rewrite (kbind _ _ t (p + sizeof_OBJECT) t) by by apply (to_public_at t p (new_device q 0)).
       cbn [contents new_device]. by apply remove_new_device. }
  rewrite (kbind _ _ t1 tt t1)
    by (unfold close_handle; by rewrite (kbind _ _ t1 (new_device q 0) t1) by (by apply object_at_run)).
  rewrite (kbind _ _ t1 tt t1).
  2: { unfold remove_object_name, remove_names. rewrite (kbind _ _ t1 (length (DdkNameList t1)) t1) by done.
       apply (remove_loop_none _ _ (DdkNameList t1) t1 []); try done; change (DdkNameList t1) with (DdkNameList t); rewrite En.
       - apply (k_entries _ I).
       - apply (new_unnamed s p I (fp_fresh _ _ F)). }
  by rewrite (kbind _ _ t1 (new_device q 0) t1) by by apply object_at_run.
Qed.

(** The last step of [IoDeleteDevice], in the state after creation. *)
Lemma drop_new_device t : objects t = objects (with_device s p q o) -> DdkNameList t = DdkNameList s ->
  DdkDereferenceObject p t = Ok (tt, log (Freed p) (set_objects (objects s) t)).
Proof.
  intros Eo En. pose proof (with_device_at s p q o i ds F D) as [Ep Eq]. rewrite <- Eo in Ep, Eq.
  pose proof (new_not_driver s p q o i ds F D) as Npq. pose proof F as [(Hp & Hn & Hpub) _].
  pose proof (driver_is s q o i ds I D) as (_ & Ht & Hv & _).
  unfold DdkDereferenceObject, dereference. set (t1 := put_at t p (new_device q 0)).
  rewrite (kbind _ _ t 0 t1) by by rewrite (decrement_run t p (new_device q 1) Ep).
  change (0 =? 0) with true. cbn iota. unfold free_depth. rewrite (free_new_device t1).
  - unfold t1, delete_at, log, put_at, set_objects. simpl. rewrite Eo. unfold with_device. simpl. do 4 f_equal.
    apply map_eq. intros x. destruct (decide (x = p)) as [-> | Nx]; [by rewrite lookup_delete_eq, Hn |].
    rewrite lookup_delete_ne by done. destruct (decide (x = q)) as [-> |]; [rewrite lookup_insert_eq; by destruct D |].
    by rewrite !lookup_insert_ne.
  - apply lookup_insert_eq.
  - unfold t1. simpl. by rewrite lookup_insert_ne.
  - unfold isValidObject, type_at, t1. simpl.
    rewrite lookup_insert_ne by (apply (Hpub q o); [by destruct D | by rewrite Ht]). rewrite Eo.
    assert (q + sizeof_OBJECT <> p) as N by (apply not_eq_sym, (Hpub q o); [by destruct D | by rewrite Ht]).
    pose proof (with_device_valid s p q o i ds F D _ N) as Hw. unfold isValidObject, type_at in Hw. rewrite Hw.
    exact Hv.
  - exact En.
Qed.

Lemma from_new_device t n : objects t !! p = Some (new_device q n) -> 0 < n ->
  (forall x, x <> p -> objects t !! x = None <-> objects s !! x = None) ->
  FromPointer (p + sizeof_OBJECT) t = Ok (p, t).
Proof.
  intros Ep Hn0 Ho. pose proof F as [(Hp & _) [Hh Hi]]. apply (from_public_at t p (new_device q n)); try done.
  unfold isValidObject, type_at in *. rewrite Hh in Hi.
  rewrite (proj2 (Ho (p + sizeof_OBJECT) ltac:(unfold sizeof_OBJECT; lia)) Hh). exact Hi.
Qed.

Lemma with_device_none x : x <> p -> objects (with_device s p q o) !! x = None <-> objects s !! x = None.
Proof.
  intros Hx. destruct (decide (x = q)) as [-> |]; [| by rewrite with_device_other].
  rewrite (proj2 (with_device_at s p q o i ds F D)). rewrite (d_at _ _ _ _ _ D). done.
Qed.

Lemma delete_unnamed : IoDeleteDevice (p + sizeof_OBJECT) (with_device s p q o) = Ok (tt, log (Freed p) s).
Proof.
  set (t := with_device s p q o). pose proof (with_device_at s p q o i ds F D) as [Ep _]. pose proof F as [(Hp & _) _].
  unfold IoDeleteDevice.
  rewrite (kbind _ _ t tt t) by (by apply apc_run).
  rewrite (kbind _ _ t p t) by (apply (from_new_device t 1); [done | lia | exact with_device_none]).
  rewrite (kbind _ _ t p t).
  2: { unfold GetDevice. destruct (Z.eqb_spec p 0); [lia |]. by rewrite (kbind _ _ t (new_device q 1) t) by by apply object_at_run. }
  rewrite (kbind _ _ t tt t).
  2: { unfold DdkRemoveObjectName, remove_object_name, remove_names. rewrite (kbind _ _ t (length (DdkNameList t)) t) by done.
       apply (remove_loop_none _ _ (DdkNameList t) t []); try done; [apply (k_entries _ I) | apply (new_unnamed s p I (fp_fresh _ _ F))]. }
  rewrite drop_new_device by done. by destruct s.
Qed.

Lemma delete_named nm : IoDeleteDevice (p + sizeof_OBJECT) (named_device nm) = Ok (tt, log (Freed p) s).
Proof.
  set (t := named_device nm). pose proof (with_device_at s p q o i ds F D) as [Ep0 _]. pose proof F as [(Hp & _) _].
  assert (objects t !! p = Some (new_device q 2)) as Ep by apply lookup_insert_eq.
  unfold IoDeleteDevice.
  rewrite (kbind _ _ t tt t) by (by apply apc_run).
  rewrite (kbind _ _ t p t).
  2: { apply (from_new_device t 2); [done | lia |]. intros x Hx. unfold t, named_device. simpl.
       rewrite lookup_insert_ne by done. by apply with_device_none. }
  rewrite (kbind _ _ t p t).
  2: { unfold GetDevice. destruct (Z.eqb_spec p 0); [lia |]. by rewrite (kbind _ _ t (new_device q 2) t) by by apply object_at_run. }
  set (t1 := put_at (set_names (DdkNameList s) t) p (new_device q 1)).
  rewrite (kbind _ _ t tt t1).
  - rewrite drop_new_device; [by rewrite (same_kernel s t1) | | done]. unfold t1, t, named_device. simpl. rewrite insert_insert_eq.
    by apply insert_id.
  - unfold DdkRemoveObjectName, remove_object_name, remove_names. rewrite (kbind _ _ t (S (length (DdkNameList s))) t) by done.
    cbn [remove_loop]. rewrite (kbind _ _ t (Some (mkName a p nm)) t) by done. cbn [Object addr]. cbn iota.
    rewrite (kbind _ _ t true t) by (unfold mret, M_ret; by rewrite Z.eqb_refl).
    rewrite (kbind _ _ t tt (set_names (DdkNameList s) t)).
    2: { unfold modify. do 2 f_equal. unfold t, named_device. simpl. f_equal. rewrite filter_cons_False by (simpl; tauto).
         apply filter_id. intros x Hx Hxa. apply Fa. rewrite <- Hxa. by apply list_elem_of_fmap_2. }
    rewrite (kbind _ _ _ tt t1).
    + apply (remove_loop_none _ _ (DdkNameList s) t1 []); try done; [apply (k_entries _ I) | apply (new_unnamed s p I (fp_fresh _ _ F))].
    + unfold dereference. set (t0 := set_names (DdkNameList s) t).
      assert (InterlockedDecrement p t0 = Ok (1, t1)) as Ei by by rewrite (decrement_run t0 p (new_device q 2) Ep).
      by rewrite (kbind _ _ _ _ _ Ei).
Qed.

(** What a call of [IoCreateDevice] leaves, if it makes a device. *)
Record device_created (s1 : kernel) (d1 : directory) : Prop := {
  dc_inv : kinv s1;
  dc_names : names_as d1 s1;
  dc_irql : CurrentIrql s1 = 0;
  dc_client : forall b, client s1 b = client s b + one (b = p);
  dc_driver : exists o1, objects s1 !! q = Some o1 /\ contents o1 = Driver i (ds ++ [p + sizeof_OBJECT]);
  dc_device : device_of s1 p (q + sizeof_OBJECT)
}.

Lemma with_device_created : device_created (with_device s p q o) d.
Proof.
  pose proof (with_device_at s p q o i ds F D) as [Ep Eq]. split; try done.
  - by apply (with_device_ok s p q o i ds).
  - by apply (with_device_client s p q o i ds).
  - exists (enlist p o). split; [done |]. apply (enlist_fields s p q o i ds D).
  - by exists (new_device q 1).
Qed.

Lemma named_device_created nm : account (with_device s p q o) (named_device nm) ((cs, p) :: d) 1 (fun _ => 0) ->
  device_created (named_device nm) ((cs, p) :: d).
Proof.
  intros A. pose proof (with_device_at s p q o i ds F D) as [Ep Eq].
  pose proof (new_not_driver s p q o i ds F D) as Npq. split; try apply A.
  - by rewrite (a_irql _ _ _ _ _ A).
  - intros b. rewrite (a_client _ _ _ _ _ A), (with_device_client s p q o i ds I F D). lia.
  - exists (enlist p o). split; [unfold named_device; simpl; by rewrite lookup_insert_ne |]. apply (enlist_fields s p q o i ds D).
  - exists (new_device q 2). split; [apply lookup_insert_eq | done].
Qed.

End naming.

(** The call makes a device: it has no name, or a new one. *)
Lemma create_device_ok malloc cs s p a q o i ds d DeviceName chr id
  (I : kinv s) (Irql : CurrentIrql s = 0) (Nd : names_as d s) (Rm : room 2 s)
  (F : fresh_public s p) (D : driver_of s q o i ds) (Fa : a ∉ (addr <$> DdkNameList s))
  (P : forall n, (requested DeviceName chr id).1 = Some n -> path_of malloc (Some (wide "\Device")) n cs /\ dlookup d cs = None) :
  let named := bool_decide (is_Some (requested DeviceName chr id).1) in
  exists t, IoCreateDevice malloc (Some p) (Some a) id (q + sizeof_OBJECT) DeviceName chr s =
      Ok ((STATUS_SUCCESS, Some (p + sizeof_OBJECT), (requested DeviceName chr id).2), t) /\
    device_created s p q i ds t (if named then (cs, p) :: d else d) /\
    IoDeleteDevice (p + sizeof_OBJECT) t = Ok (tt, log (Freed p) s).
Proof.
  pose proof (create_device_run malloc s p a q o i ds I Irql D DeviceName chr id) as E.
  pose proof (driver_is s q o i ds I D) as (Hq & Ht & Hv & _). pose proof F as [(Hp & Hn & Hpub) _].
  pose proof (new_not_driver s p q o i ds F D) as Npq.
  assert (q + sizeof_OBJECT <> p) as Nqp by (apply not_eq_sym, (Hpub q o); [by destruct D | by rewrite Ht]).
  destruct (requested DeviceName chr id) as [[n |] id'] eqn:Er; cbn [fst snd] in *; rewrite E; clear E.
  - destruct (P n eq_refl) as [Pn Ex]. rewrite bool_decide_true by done.
    destruct (insert_new malloc n cs Pn s p a q o i ds d I Irql Nd F D Fa Ex) as (nm & E1 & A).
    exists (named_device s p a q o nm). split; [| split].
    + rewrite (kbind _ _ _ _ _ E1). cbn [negb]. set (t := put_at _ p _).
      rewrite (finish_create s p q o i ds I D t 2); [| done | apply lookup_insert_eq | | unfold t; rewrite valid_new by done; exact Hv].
      * do 2 f_equal. unfold t, named_device, with_device, put_at, set_names, set_objects. simpl. f_equal.
        rewrite (insert_insert_ne _ p q) by done. by rewrite insert_insert_eq.
      * unfold t. simpl. rewrite lookup_insert_ne by done. by destruct D.
    + by apply (named_device_created cs s p a q o i ds d I Irql F D).
    + by apply (delete_named s p a q o i ds I Irql F D Fa).
  - rewrite bool_decide_false by (by intros [? ?]). exists (with_device s p q o). split; [| split].
    + rewrite (kbind _ _ _ true (device_state s p q)) by done. cbn [negb].
      rewrite (finish_create s p q o i ds I D (device_state s p q) 1); [done | done | apply lookup_insert_eq | |].
      * unfold device_state. simpl. rewrite lookup_insert_ne by done. by destruct D.
      * unfold device_state. rewrite valid_new by done. exact Hv.
    + by eapply with_device_created.
    + by eapply delete_unnamed.
Qed.

(** IoCreateDevice: with no name, or one that is new, the device is the last of its
    driver's list, holds its driver, and its creator has one reference to it, whatever
    else there is; no other reference changes hands.  If the name is taken there is no
    device, the driver and the one that has the name have the references they had, and
    nothing is left behind.  The generated name is the next of the counter. *)
Theorem IoCreateDevice_spec malloc cs s p a q o i ds d DeviceName chr id
  (I : kinv s) (Irql : CurrentIrql s = 0) (Nd : names_as d s) (Rm : room 2 s)
  (F : fresh_public s p) (D : driver_of s q o i ds) (Fa : a ∉ (addr <$> DdkNameList s))
  (P : forall n, (requested DeviceName chr id).1 = Some n -> path_of malloc (Some (wide "\Device")) n cs) :
  let (name, id') := requested DeviceName chr id in
  let r := IoCreateDevice malloc (Some p) (Some a) id (q + sizeof_OBJECT) DeviceName chr s in
  if name then
    if dlookup d cs then
      exists s', r = Ok ((STATUS_OBJECT_NAME_EXISTS, None, id'), s') /\ account s s' d 1 (fun _ => 0) /\ objects s' !! p = None
    else exists s', r = Ok ((STATUS_SUCCESS, Some (p + sizeof_OBJECT), id'), s') /\
      device_created s p q i ds s' ((cs, p) :: d)
  else exists s', r = Ok ((STATUS_SUCCESS, Some (p + sizeof_OBJECT), id'), s') /\ device_created s p q i ds s' d.
Proof.
  pose proof (create_device_ok malloc cs s p a q o i ds d DeviceName chr id I Irql Nd Rm F D Fa) as C.
  pose proof (create_device_run malloc s p a q o i ds I Irql D DeviceName chr id) as E.
  destruct (requested DeviceName chr id) as [[n |] id'] eqn:Er; cbn [fst snd] in *; cbv zeta; cbn iota.
  - specialize (P n eq_refl). destruct (dlookup d cs) as [x |] eqn:Ex.
    + destruct (insert_taken malloc n cs P s p a q o i ds d I Irql Nd Rm F D x Ex) as (s1 & E1 & A & En).
      exists s1. by rewrite E, (kbind _ _ _ _ _ E1).
    + destruct C as (t & Et & Ct & _); [by intros m [= <-] |]. by exists t.
  - destruct C as (t & Et & Ct & _); [done |]. by exists t.
Qed.

(** A device that is created and deleted again leaves nothing: every object, every
    count, the list of the driver and the names are exactly as before, with or without
    a name, given or generated. *)
Theorem device_roundtrip malloc cs s p a q o i ds d DeviceName chr id
  (I : kinv s) (Irql : CurrentIrql s = 0) (Nd : names_as d s) (Rm : room 2 s)
  (F : fresh_public s p) (D : driver_of s q o i ds) (Fa : a ∉ (addr <$> DdkNameList s))
  (P : forall n, (requested DeviceName chr id).1 = Some n -> path_of malloc (Some (wide "\Device")) n cs /\ dlookup d cs = None) :
  ('(status, device, _) ← IoCreateDevice malloc (Some p) (Some a) id (q + sizeof_OBJECT) DeviceName chr;
   match device with
   | Some x => _ ← IoDeleteDevice x; mret status
   | None => mret status
   end) s = Ok (STATUS_SUCCESS, log (Freed p) s).
Proof.
  destruct (create_device_ok malloc cs s p a q o i ds d DeviceName chr id I Irql Nd Rm F D Fa P) as (t & E & _ & Ed).
  rewrite (kbind _ _ _ _ _ E). cbn iota. by rewrite (kbind _ _ _ _ _ Ed).
Qed.

(** IoDeleteDevice of a device its creator has: its names go, and the creator's
    reference; the device stays as long as files are open on it. *)
Theorem IoDeleteDevice_spec s p o drv (I : kinv s) (Irql : CurrentIrql s = 0) (Ep : objects s !! p = Some o)
  (Ec : contents o = Device drv) (Hc : 1 <= client s p) :
  exists s', IoDeleteDevice (p + sizeof_OBJECT) s = Ok (tt, s') /\ kinv s' /\
    DdkNameList s' = filter (fun e => Object e <> p) (DdkNameList s) /\
    (forall a, client s' a = client s a - one (a = p)) /\ (forall a, dead s' a -> dead s a).
Proof.
  pose proof (k_objects _ I p o Ep) as Ok. pose proof (o_typed _ _ _ Ok) as Ht. unfold well_typed in Ht. rewrite Ec in Ht.
  pose proof (o_address _ _ _ Ok) as Hp. pose proof (refs_nonneg s p) as Hr. unfold client in Hc. rewrite Ep in Hc.
  unfold IoDeleteDevice. rewrite (kbind _ _ s tt s) by by apply apc_run.
  rewrite (kbind _ _ s p s) by (apply (from_public_run s p o); try done; [by rewrite Ht | lia]).
  rewrite (kbind _ _ s p s).
  2: { unfold GetDevice. destruct (Z.eqb_spec p 0); [lia |]. rewrite (kbind _ _ s o s) by by apply object_at_run. by rewrite Ht. }
  destruct (remove_object_name_run s p I) as (s1 & E1 & I1 & N1 & _ & D1 & C1). rewrite (kbind _ _ _ _ _ E1).
  destruct (drop_object s1 p I1) as (s2 & E2 & I2 & F2 & D2 & C2).
  { rewrite C1. unfold client. rewrite Ep. lia. }
  exists s2. split; [exact E2 |]. split; [done |]. split; [by rewrite (f_names _ _ _ F2) |].
  split; [intros b; by rewrite C2, C1 | auto].
Qed.

End spec.
