(* ===== verification/Driver.v ===== *)
(** * Driver: drivers and plug and play (driver.cpp and pnp.cpp)

    Drivers that are linked with their test: created when first initialised, counted by
    [loadcount], taken apart by the last unload.  What driver.cpp keeps besides the
    header of an object is in [drivers], by the object's address; the list of devices is
    in the object.  The routines of drivers, and what a stack of devices makes of a
    plug and play request, are the class [DRIVER_ROUTINES]: they may change everything.
    Loading an image from a file, and the delay-load hooks, are left out. *)

From S2P Require Import Prelude Strings Objects Names Memory Registry.
From S2P Require Device.
From S2P Require Import DeviceObjects.

Definition IRP_MJ_MAXIMUM_FUNCTION : Z := 0x1b.
Definition IRP_MN_START_DEVICE : Z := 0x00.
Definition IRP_MN_QUERY_REMOVE_DEVICE : Z := 0x01.
Definition IRP_MN_REMOVE_DEVICE : Z := 0x02.
Definition IRP_MN_CANCEL_REMOVE_DEVICE : Z := 0x03.
Definition IRP_MN_SURPRISE_REMOVAL : Z := 0x17.
Definition MAX_PATH : Z := 260.

(** [DRIVER] after the header: [Driver], [Extension], [loadcount] and [Name]. *)
Record DRIVER := mkDriver {
  DriverInit : Z;
  DriverUnload : Z;
  AddDevice : Z;
  MajorFunction : list Z;
  loadcount : Z;
  DriverName : list Z
}.

Definition set_loadcount (n : Z) (d : DRIVER) : DRIVER :=
  mkDriver (DriverInit d) (DriverUnload d) (AddDevice d) (MajorFunction d) n (DriverName d).

Definition set_major (l : list Z) (d : DRIVER) : DRIVER :=
  mkDriver (DriverInit d) (DriverUnload d) (AddDevice d) l (loadcount d) (DriverName d).

(** A request sent to the top of a device's stack. *)
Record request := mkRequest { Device_ : Z; Minor : Z }.

Section state.
Context `{Environment} `{WINREG} `{QUERY_ROUTINES}.

(** [stacks]: how the devices are attached, by pointer; [load_lock]: how often the load
    lock is held; [requests]: the plug and play requests sent, in order. *)
Record dsys := mkSys {
  reg : rstate;
  drivers : gmap Z DRIVER;
  stacks : gmap Z Device.devobj;
  UniqueId : Z;
  load_lock : Z;
  DdkPnpManager : Z;
  requests : list request
}.

Definition set_reg r s := mkSys r (drivers s) (stacks s) (UniqueId s) (load_lock s) (DdkPnpManager s) (requests s).
Definition set_drivers f s := mkSys (reg s) (f (drivers s)) (stacks s) (UniqueId s) (load_lock s) (DdkPnpManager s) (requests s).
Definition set_stacks f s := mkSys (reg s) (drivers s) (f (stacks s)) (UniqueId s) (load_lock s) (DdkPnpManager s) (requests s).
Definition set_unique n s := mkSys (reg s) (drivers s) (stacks s) n (load_lock s) (DdkPnpManager s) (requests s).
Definition set_lock f s := mkSys (reg s) (drivers s) (stacks s) (UniqueId s) (f (load_lock s)) (DdkPnpManager s) (requests s).
Definition set_manager p s := mkSys (reg s) (drivers s) (stacks s) (UniqueId s) (load_lock s) p (requests s).
Definition sent r s := mkSys (reg s) (drivers s) (stacks s) (UniqueId s) (load_lock s) (DdkPnpManager s) (requests s ++ [r]).

Definition D := M dsys.

Definition on_reg {A} (m : R A) : D A := fun s =>
  match m (reg s) with Ok (a, r) => Ok (a, set_reg r s) | Err f => Err f end.

Definition on_kern {A} (m : K A) : D A := on_reg (on_kernel m).

Definition dget {A} (f : dsys -> A) : D A := fun s => Ok (f s, s).

End state.

(** The routines of drivers, by address: [DriverEntry], [DriverUnload] and [AddDevice]; the
    final status of a plug and play request; and where the library's own routines are. *)
Class DRIVER_ROUTINES `{Environment} `{WINREG} `{QUERY_ROUTINES} := {
  entry_routine : Z -> Z -> list Z -> D Z;
  unload_routine : Z -> Z -> D unit;
  add_device_routine : Z -> Z -> Z -> D Z;
  pnp_request : Z -> Z -> D Z;
  default_dispatch : Z;
  pnp_entry : Z;
  pnp_unload : Z;
  pnp_dispatch : Z
}.

Section drivers.
Context `{Environment} `{Locale} `{WINREG} `{QUERY_ROUTINES} `{!DRIVER_ROUTINES}.
Context (malloc : Z -> option (list Z)).

(** ** The lock of load.cpp *)

Definition DdkLoadLock : D unit := modify (set_lock (fun n => n + 1)).
Definition DdkLoadUnlock : D unit := modify (set_lock (fun n => n - 1)).

(** ** Drivers *)

(** The driver at an address; one that has been freed is not there. *)
Definition driver_at (p : Z) : D DRIVER :=
  _ ← on_kern (object_at p);
  s ← dget (fun s => drivers s !! p);
  match s with Some d => mret d | None => fail (BadAccess p) end.

Definition change_driver (p : Z) (f : DRIVER -> DRIVER) : D unit :=
  d ← driver_at p; modify (set_drivers <[p := f d]>).

(** [pDriver->Image] *)
Definition image_of (p : Z) : D Z := '(i, _) ← on_kern (driver_body p); mret i.

(** [swprintf] into a buffer of [n] characters: a text that has no room is cut. *)
Definition swprintf (n : Z) (cs : list Z) : list Z := take (Z.to_nat (n - 1)) cs.

(** [%S]: a character that cannot be converted leaves the buffer as it was, unset. *)
Fixpoint widen (s : list Z) : result (list Z) :=
  match s with
  | [] => Ok []
  | c :: s =>
      match mbtowc c with
      | Some w => s ← widen s; Ok (w :: s)
      | None => Err (BadAccess 0)
      end
  end.

(** [DdkLookupName(PWCH, PWCH)] and [DdkLookupName(char *, PWCH)] *)
Definition DdkLookupNameW (Name : list Z) (Dir : option (list Z)) : K Z :=
  u ← lift (RtlInitUnicodeString (Some (encode (Name ++ [0]))));
  cs ← lift (chars u);
  DdkLookupName malloc cs Dir.

Definition DdkLookupNameA (Name : list Z) (Dir : option (list Z)) : K Z :=
  wname ← lift (widen Name);
  DdkLookupNameW (swprintf 256 wname) Dir.

Definition DdkReferenceDriver (p : Z) (loaded : bool) : D Z :=
  p ← on_kern (GetDriver p);
  i ← image_of p;
  if negb (Bool.eqb (negb (i =? 0)) loaded)
  then fail (DdkFailed "DdkReferenceDriver: Driver linked statically and dynamically") else
  _ ← change_driver p (fun d => set_loadcount (s32 (loadcount d + 1)) d);
  mret STATUS_SUCCESS.

Definition services_path (name : list Z) : list Z :=
  swprintf (MAX_PATH + 1) (wide "\Registry\Machine\System\CurrentControlSet\Services\" ++ name).

(** The entry and the unload routine of the manager. *)
Definition DdkPnpDriverEntry (DriverObject : Z) : D Z :=
  _ ← change_driver (DriverObject - sizeof_OBJECT) (fun d => mkDriver (DriverInit d) pnp_unload (AddDevice d)
        (replicate (Z.to_nat (IRP_MJ_MAXIMUM_FUNCTION + 1)) pnp_dispatch) (loadcount d) (DriverName d));
  _ ← modify (set_manager DriverObject);
  mret STATUS_SUCCESS.

Definition DdkPnpDriverUnload : D unit := modify (set_manager 0).

(** A call of a routine of either kind. *)
Definition call_entry (f DriverObject : Z) (path : list Z) : D Z :=
  if f =? pnp_entry then DdkPnpDriverEntry DriverObject else entry_routine f DriverObject path.

Definition call_unload (f DriverObject : Z) : D unit :=
  if f =? pnp_unload then DdkPnpDriverUnload else unload_routine f DriverObject.

(** [p]: the address of the driver's object. *)
Definition DdkDriverEntry (p : Z) : D Z :=
  d ← driver_at p;
  rc ← call_entry (DriverInit d) (p + sizeof_OBJECT) (services_path (DriverName d));
  if negb (rc =? STATUS_SUCCESS) then fail (DdkFailed "DriverEntry failed") else mret STATUS_SUCCESS.

(** ** Plug and play *)

(** A call of device.cpp about attachment: only devices that are there can be looked at,
    and the references it takes are taken. *)
Definition on_stacks {A} (m : Device.DS A) : D A := fun s =>
  let there := filter (fun kv : Z * Device.devobj => is_Some (objects (kern (reg s)) !! (kv.1 - sizeof_OBJECT))) (stacks s) in
  match m (Device.mkDevs there []) with
  | Ok (a, t) =>
      (foldr (fun p k => _ ← on_kern (ObReferenceObject p); k) (mret a) (Device.references t))
        (set_stacks (fun m => Device.devs t ∪ m) s)
  | Err f => Err f
  end.

(** [IoCreateDevice], with the attachment of the new device. *)
Definition create_device (obj entry : option Z) (DriverObject : Z) (DeviceName : option (list Z)) (chr : Z) : D (Z * option Z) :=
  id ← dget UniqueId;
  '(status, device, id) ← on_kern (IoCreateDevice malloc obj entry id DriverObject DeviceName chr);
  _ ← modify (set_unique id);
  _ ← match device with
      | Some x => modify (set_stacks <[x := Device.mkDev 1 0 0 0]>)
      | None => mret tt
      end;
  mret (status, device).

(** [DdkSynchronousIrp] of Irp carries the request to the device at the top. *)
Definition DdkPnpIssueRequest (DeviceObject Request : Z) : D Z :=
  d ← on_stacks (Device.IoGetAttachedDevice DeviceObject);
  _ ← modify (sent (mkRequest d Request));
  pnp_request d Request.

Definition NT_SUCCESS (status : Z) : bool := status <? 2 ^ 31.

Definition DdkPnpRemoveDevice (DeviceObject : Z) (force : bool) : D Z :=
  status ← DdkPnpIssueRequest DeviceObject IRP_MN_QUERY_REMOVE_DEVICE;
  if negb (NT_SUCCESS status) && negb force then
    _ ← DdkPnpIssueRequest DeviceObject IRP_MN_CANCEL_REMOVE_DEVICE;
    mret status
  else
    _ ← (if negb (NT_SUCCESS status) then DdkPnpIssueRequest DeviceObject IRP_MN_SURPRISE_REMOVAL else mret 0);
    DdkPnpIssueRequest DeviceObject IRP_MN_REMOVE_DEVICE.

(** [irp]: whether [IoAllocateIrp] has memory. *)
Definition DdkPnpStartDevice (irp : bool) (DeviceObject : Z) : D Z :=
  _ ← on_stacks (Device.dev_at DeviceObject);
  if negb irp then mret STATUS_INSUFFICIENT_RESOURCES else
  status ← DdkPnpIssueRequest DeviceObject IRP_MN_START_DEVICE;
  _ ← (if negb (NT_SUCCESS status) then DdkPnpIssueRequest DeviceObject IRP_MN_REMOVE_DEVICE else mret 0);
  mret status.

(** [p]: the address of the driver's object; [obj] and [entry] are for the device. *)
Definition DdkPnpCreateDevice (obj entry : option Z) (irp : bool) (p : Z) : D Z :=
  d ← driver_at p;
  if AddDevice d =? 0 then mret STATUS_SUCCESS else
  manager ← dget DdkPnpManager;
  '(status, device) ← create_device obj entry manager None FILE_AUTOGENERATED_DEVICE_NAME;
  match device with
  | None => mret status
  | Some x =>
      status ← add_device_routine (AddDevice d) (p + sizeof_OBJECT) x;
      if negb (NT_SUCCESS status) then _ ← on_kern (IoDeleteDevice x); mret status else
      top ← on_stacks (Device.IoGetAttachedDevice x);
      DdkPnpStartDevice irp top
  end.

(** [pDevice->DriverObject] *)
Definition driver_of_device (DeviceObject : Z) : D Z :=
  o ← on_kern (object_at (DeviceObject - sizeof_OBJECT));
  match contents o with Objects.Device drv => mret drv | _ => fail (BadAccess DeviceObject) end.

(** The first device of a driver, and the one after [x]; 0 for none. *)
Definition first_device (p : Z) : D Z := '(_, ds) ← on_kern (driver_body p); mret (hd 0 ds).

Fixpoint after (x : Z) (ds : list Z) : Z :=
  match ds with
  | [] => 0
  | y :: ds => if y =? x then hd 0 ds else after x ds
  end.

Definition next_device (x : Z) : D Z :=
  drv ← driver_of_device x;
  '(_, ds) ← on_kern (driver_body (drv - sizeof_OBJECT));
  mret (after x ds).

Fixpoint pnp_unload_loop (fuel : nat) (p DeviceObject : Z) : D unit :=
  if DeviceObject =? 0 then mret tt else
  match fuel with
  | O => fail NoFuel
  | S fuel =>
      b ← on_stacks (Device.IoGetDeviceAttachmentBaseRef DeviceObject);
      drv ← driver_of_device b;
      manager ← dget DdkPnpManager;
      next ← (if drv =? manager then
                _ ← DdkPnpRemoveDevice DeviceObject true;
                first_device p
              else next_device DeviceObject);
      _ ← on_kern (ObDereferenceObject b);
      pnp_unload_loop fuel p next
  end.

Definition DdkPnpUnload (fuel : nat) (p : Z) : D unit :=
  x ← first_device p; pnp_unload_loop fuel p x.

(** ** Creating, loading and unloading *)

(** What [calloc] and [IoAllocateIrp] give a call that creates a driver: for the driver,
    its name, and the device it is given and the name of that. *)
Record memory_for := mkMemory { for_driver : option Z; for_name : option Z; for_device : option Z;
  for_device_name : option Z; for_irp : bool; for_dup : bool }.

(** [pName]: the bytes of the name, without the NUL.  The object is zeroed. *)
Definition DdkCreateDriver (m : memory_for) (pName : list Z) (Init Image : Z) : D Z :=
  p ← on_kern (DdkAllocObject (for_driver m) IoDriverType (Driver 0 []) false);
  match p with
  | None => fail (DdkFailed "Unable to allocate object")
  | Some p =>
      if Init =? 0 then fail (AssertFailed "pName && DriverInit") else
      o ← on_kern (object_at p);
      _ ← on_kern (put_object p (mkObject (type o) (alloc o) (refcount o) (h o) (Driver Image [])));
      _ ← modify (set_drivers <[p := mkDriver Init 0 0 [] 0 pName]>);
      u ← on_kern (lift (RtlInitUnicodeString (Some (encode (pName ++ [0])))));
      cs ← on_kern (lift (chars u));
      ok ← on_kern (DdkInsertName malloc (for_name m) (Some cs) p (Some (wide "\Driver")));
      if negb (ok : bool) then
        _ ← on_kern (DdkDereferenceObject p);
        mret STATUS_OBJECT_NAME_EXISTS
      else
      _ ← change_driver p (set_major (replicate (Z.to_nat (IRP_MJ_MAXIMUM_FUNCTION + 1)) default_dispatch));
      let params := swprintf (MAX_PATH + 1) (pName ++ wide "\Parameters") in
      _ ← on_reg (RtlCreateRegistryKey (for_dup m) RTL_REGISTRY_SERVICES (AtPath pName));
      _ ← on_reg (RtlCreateRegistryKey (for_dup m) RTL_REGISTRY_SERVICES (AtPath params));
      rc ← DdkDriverEntry p;
      if negb (NT_SUCCESS rc) then _ ← on_kern (DdkDereferenceObject p); mret rc else
      _ ← change_driver p (fun d => set_loadcount (s32 (loadcount d + 1)) d);
      d ← driver_at p;
      _ ← (if negb (AddDevice d =? 0) then DdkPnpCreateDevice (for_device m) (for_device_name m) (for_irp m) p else mret 0);
      mret STATUS_SUCCESS
  end.

Definition DdkInitDriver (m : memory_for) (pName : list Z) (Init : Z) : D Z :=
  _ ← DdkLoadLock;
  p ← on_kern (DdkLookupNameA pName (Some (wide "\Driver")));
  if negb (p =? 0) then
    rc ← DdkReferenceDriver p false;
    _ ← DdkLoadUnlock;
    mret rc
  else
  rc ← DdkCreateDriver m pName Init 0;
  _ ← DdkLoadUnlock;
  mret rc.

(** Nobody gives up a reference while [DdkWaitLastReference] polls: it ends at once or
    after its time. *)
Definition DdkWaitLastReference (p count : Z) : K bool :=
  o ← object_at p; mret (refcount o <=? count).

(** Without a delay-load hook. *)
Definition DdkUnloadDriver (fuel : nat) (pName : list Z) : D unit :=
  _ ← DdkLoadLock;
  p ← on_kern (DdkLookupNameA pName (Some (wide "\Driver")));
  if p =? 0 then DdkLoadUnlock else
  p ← on_kern (GetDriver p);
  d ← driver_at p;
  last ← (if loadcount d =? 0 then mret false else
          _ ← change_driver p (set_loadcount (s32 (loadcount d - 1)));
          mret (s32 (loadcount d - 1) =? 0));
  _ ← (if last : bool then
         _ ← DdkPnpUnload fuel p;
         d ← driver_at p;
         _ ← (if negb (DriverUnload d =? 0) then call_unload (DriverUnload d) (p + sizeof_OBJECT) else mret tt);
         _ ← on_kern (DdkRemoveObjectName p);
         ok ← on_kern (DdkWaitLastReference p 2);
         if negb (ok : bool) then fail (DdkFailed "Timeout unloading driver") else mret tt
       else mret tt);
  _ ← on_kern (DdkDereferenceObject p);
  _ ← on_kern (DdkDereferenceObject p);
  DdkLoadUnlock.

(** [DdkInitDriver] with the entry routine of the manager. *)
Definition DdkPnpInit (m : memory_for) : D unit :=
  rc ← DdkInitDriver m (wide "PnpManager") pnp_entry;
  if negb (NT_SUCCESS rc) then fail (DdkFailed "Unable to create PnP Manager") else mret tt.

End drivers.
