(* ===== verification/DriverSpec.v ===== *)
(** * DriverSpec: drivers and their load counts *)

From S2P Require Import Prelude Strings StringsOps StringsSpec Objects Names NamesPath.
From S2P Require Import ObjectsInv ObjectsSpec NamesSpec SymlinkSpec ResolveSpec.
From S2P Require Import Memory Registry RegistryQuery RegistrySpec.
From S2P Require Device.
From S2P Require Import DeviceObjects Driver.

Section spec.
Context `{Environment} `{Locale} `{LL : !LocaleLaws} `{WINREG} `{!WINREG_Laws} `{QUERY_ROUTINES} `{!DRIVER_ROUTINES}.
Context (malloc : Z -> option (list Z)).
Context (pool : forall n, 0 <= n -> exists m, malloc n = Some m /\ Z.of_nat (length m) = n).

(** ** Calls of the kernel *)

Definition heap (s : dsys) : kernel := kern (reg s).

Definition set_heap (k : kernel) (s : dsys) : dsys := set_reg (set_kern k (reg s)) s.

(** What the kernel does outside is nothing the registry sees. *)
Definition quiet (e : event) : Prop := match e with Objects.RegCloseKey _ => False | _ => True end.

Lemma close_quiet es (r : rstate) : Forall quiet es -> close_logged es r = Ok (tt, r).
Proof. induction es as [| e es IH]; [done |]. intros [He Hes]%Forall_cons. by destruct e; try apply IH. Qed.

Lemma on_kern_run {A} (m : K A) (s : dsys) a k es : m (heap s) = Ok (a, k) -> events k = es ++ events (heap s) ->
  Forall quiet es -> on_kern m s = Ok (a, set_heap k s).
Proof.
  intros E Ee Q. unfold on_kern, on_reg, on_kernel, heap in *. rewrite E, Ee, length_app, Nat.add_sub, take_app_length.
  by rewrite (bind_run _ _ _ _ _ (close_quiet (rev es) _ (Forall_rev Q))).
Qed.

Lemma on_kern_still {A} (m : K A) (s : dsys) a k : m (heap s) = Ok (a, k) -> events k = events (heap s) ->
  on_kern m s = Ok (a, set_heap k s).
Proof. intros E Ee. by apply (on_kern_run m s a k []). Qed.

Lemma set_heap_same (s : dsys) : set_heap (heap s) s = s.
Proof. by destruct s as [[] ? ? ? ? ? ?]. Qed.

Lemma on_kern_same {A} (m : K A) (s : dsys) a : m (heap s) = Ok (a, heap s) -> on_kern m s = Ok (a, s).
Proof. intros E. rewrite (on_kern_still m s a _ E eq_refl). by rewrite set_heap_same. Qed.

(** ** The name of a driver *)

(** Names as drivers have them: characters of one byte, no path. *)
Record driver_name (n : list Z) : Prop := {
  dn_some : n <> [];
  dn_plain : plain n;
  dn_short : Z.of_nat (length n) <= 200;
  dn_relative : hd 0 n <> BACKSLASH;
  dn_bytes : Forall (fun c => mbtowc c = Some c) n
}.

(** Where the name list has the driver [n]. *)
Definition driver_path (n : list Z) : list Z := path_text (Some (wide "\Driver")) None n.

Lemma plain_dir : plain (wide "\Driver").
Proof. split; [repeat constructor; unfold is_wchar; lia |]. unfold no_nul. repeat constructor; discriminate. Qed.

Lemma driver_path_cons n : driver_name n -> driver_path n = wide "\Driver" ++ [BACKSLASH] ++ n.
Proof.
  intros [N0 _ _ Nr _]. destruct n as [| c n]; [done |]. unfold driver_path, path_text, path_prefix. simpl in Nr.
  rewrite bool_decide_false by (simpl; congruence). done.
Qed.

Lemma driver_path_of n : driver_name n -> path_of malloc (Some (wide "\Driver")) n (driver_path n).
Proof.
  intros N. pose proof N as [N0 Np Nl Nr _]. split; try done; [apply plain_dir |].
  rewrite (driver_path_cons n N), !length_app. simpl. lia.
Qed.

Lemma widen_same n : Forall (fun c => mbtowc c = Some c) n -> widen n = Ok n.
Proof. induction n as [| c n IH]; [done |]. intros [Hc Hn]%Forall_cons. simpl. rewrite Hc. by rewrite (IH Hn). Qed.

(** A string that has a NUL after it. *)
Lemma init_chars n : plain n -> Z.of_nat (length n) <= 32766 ->
  exists u, RtlInitUnicodeString (Some (encode (n ++ [0]))) = Ok u /\ chars u = Ok n.
Proof.
  intros Hp Hl. rewrite encode_app. change (encode [0]) with [0; 0]. rewrite (wide_init_ok n [] Hp Hl).
  eexists. split; [reflexivity |]. apply chars_ok. split; [done |]. split; [apply Hp |]. by exists [0; 0].
Qed.

Lemma lookup_driver n k d : driver_name n -> kinv k -> CurrentIrql k = 0 -> names_as d k -> room 1 k ->
  DdkLookupNameA malloc n (Some (wide "\Driver")) k =
    Ok (match dlookup d (driver_path n) with Some x => (x.2, referenced k x.2) | None => (0, k) end).
Proof.
  intros N I Hi Hd Rm. pose proof N as [_ Np Nl _ Nb]. unfold DdkLookupNameA, DdkLookupNameW, swprintf.
  rewrite (kbind _ _ k n k) by (unfold lift; by rewrite (widen_same n Nb)). rewrite take_ge by lia.
  destruct (init_chars n Np ltac:(lia)) as (u & Eu & Ec).
  rewrite (kbind _ _ k u k) by (unfold lift; by rewrite Eu). rewrite (kbind _ _ k n k) by (unfold lift; by rewrite Ec).
  by apply (lookup_raw malloc _ _ _ k d (driver_path_of n N)).
Qed.

(** ** A driver that is loaded *)

(** A driver that is linked, not loaded from a file. *)
Record present (s : dsys) (p : Z) (D : DRIVER) (o : OBJECT) (ds : list Z) : Prop := {
  pr_at : objects (heap s) !! p = Some o;
  pr_contents : contents o = Driver 0 ds;
  pr_driver : drivers s !! p = Some D;
  pr_object : alloc o = true /\ h o = 0
}.

(** Each load holds one reference, and nobody else any. *)
Record loaded (s : dsys) (p : Z) (D : DRIVER) (o : OBJECT) (ds : list Z) : Prop := {
  lo_present : present s p D o ds;
  lo_count : 1 <= loadcount D < 2 ^ 30;
  lo_client : client (heap s) p = loadcount D
}.

Lemma present_type s p D o ds : kinv (heap s) -> present s p D o ds -> type o = IoDriverType /\ 0 < p.
Proof.
  intros I [Ep Ec _ _]. pose proof (k_objects _ I p o Ep) as Ok. pose proof (o_typed _ _ _ Ok) as Ht.
  unfold well_typed in Ht. rewrite Ec in Ht. split; [done | apply (o_address _ _ _ Ok)].
Qed.

Lemma driver_at_run (s : dsys) p o D : objects (heap s) !! p = Some o -> drivers s !! p = Some D ->
  driver_at p s = Ok (D, s).
Proof.
  intros Ep Ed. unfold driver_at. rewrite (bind_run _ _ _ _ _ (on_kern_same _ s o (object_at_run _ _ _ Ep))).
  rewrite (bind_run _ _ s (Some D) s) by (unfold dget; by rewrite Ed). done.
Qed.

Lemma change_driver_run (s : dsys) p o D f : objects (heap s) !! p = Some o -> drivers s !! p = Some D ->
  change_driver p f s = Ok (tt, set_drivers <[p := f D]> s).
Proof. intros Ep Ed. unfold change_driver. by rewrite (bind_run _ _ _ _ _ (driver_at_run s p o D Ep Ed)). Qed.

Lemma get_driver_run (s : dsys) p o : 0 < p -> objects (heap s) !! p = Some o -> type o = IoDriverType ->
  on_kern (GetDriver p) s = Ok (p, s).
Proof.
  intros Hp Ep Ht. apply on_kern_same. unfold GetDriver. destruct (Z.eqb_spec p 0); [lia |].
  rewrite (kbind _ _ _ _ _ (object_at_run _ _ _ Ep)). by rewrite Ht.
Qed.

Lemma driver_body_run (s : dsys) p o i ds : objects (heap s) !! p = Some o -> contents o = Driver i ds ->
  on_kern (driver_body p) s = Ok ((i, ds), s).
Proof.
  intros Ep Ec. apply on_kern_same. unfold driver_body. rewrite (kbind _ _ _ _ _ (object_at_run _ _ _ Ep)). by rewrite Ec.
Qed.

(** [DdkReferenceDriver] of a driver that was linked. *)
Lemma reference_driver_run (s : dsys) p D o ds : 0 < p -> objects (heap s) !! p = Some o -> type o = IoDriverType ->
  contents o = Driver 0 ds -> drivers s !! p = Some D -> 0 <= loadcount D < 2 ^ 31 - 1 ->
  DdkReferenceDriver p false s = Ok (STATUS_SUCCESS, set_drivers <[p := set_loadcount (loadcount D + 1) D]> s).
Proof.
  intros Hp Ep Ht Ec Ed Hc. unfold DdkReferenceDriver. rewrite (bind_run _ _ _ _ _ (get_driver_run s p o Hp Ep Ht)).
  rewrite (bind_run _ _ s 0 s) by (unfold image_of; by rewrite (bind_run _ _ _ _ _ (driver_body_run s p o 0 ds Ep Ec))).
  cbn [negb Z.eqb Bool.eqb]. rewrite (bind_run _ _ _ _ _ (change_driver_run s p o D _ Ep Ed)). by rewrite s32_id by lia.
Qed.

Section calls.
Context (s : dsys) (d : directory) (n : list Z).
Context (I : kinv (heap s)) (Irql : CurrentIrql (heap s) = 0) (Nd : names_as d (heap s)) (Rm : room 4 (heap s)).
Context (N : driver_name n).

Lemma lock_back (t : dsys) : set_lock (fun n => n - 1) (set_lock (fun n => n + 1) t) = t.
Proof. destruct t. unfold set_lock. simpl. f_equal. lia. Qed.

Lemma room1 : room 1 (heap s).
Proof. by apply (room_less 4). Qed.

(** A driver that is loaded already: one more load, which holds one more reference. *)
Lemma init_again m Init x D o ds : dlookup d (driver_path n) = Some x -> loaded s x.2 D o ds ->
  DdkInitDriver malloc m n Init s = Ok (STATUS_SUCCESS,
    set_drivers <[x.2 := set_loadcount (loadcount D + 1) D]> (set_heap (put_at (heap s) x.2 (with_count o (refcount o + 1))) s)).
Proof.
  intros Ex L. destruct L as [Pr Hc _]. pose proof (present_type s x.2 D o ds I Pr) as [Ht Hp]. destruct Pr as [Ep Ec Ed _].
  unfold DdkInitDriver. set (s1 := set_lock (fun n => n + 1) s). rewrite (bind_run _ _ s tt s1) by done.
  set (k1 := put_at (heap s) x.2 (with_count o (refcount o + 1))).
  assert (on_kern (DdkLookupNameA malloc n (Some (wide "\Driver"))) s1 = Ok (x.2, set_heap k1 s1)) as E1.
  { apply on_kern_still; [| done]. change (heap s1) with (heap s). rewrite (lookup_driver n _ d N I Irql Nd room1), Ex.
    by rewrite (referenced_at _ _ o Ep). }
  rewrite (bind_run _ _ _ _ _ E1). destruct (Z.eqb_spec x.2 0); [lia |]. cbn [negb].
  rewrite (bind_run _ _ _ _ _ (reference_driver_run (set_heap k1 s1) x.2 D (with_count o (refcount o + 1)) ds Hp
    (lookup_insert_eq _ _ _) Ht Ec Ed ltac:(lia))).
  rewrite (bind_run _ _ _ tt (set_drivers <[x.2 := set_loadcount (loadcount D + 1) D]> (set_heap k1 s))); [done |].
  unfold DdkLoadUnlock, modify. do 2 f_equal. destruct s. unfold s1, set_lock, set_drivers, set_heap, set_reg. simpl. f_equal. lia.
Qed.

(** Nothing of that name: nothing happens. *)
Lemma unload_none fuel : dlookup d (driver_path n) = None -> DdkUnloadDriver malloc fuel n s = Ok (tt, s).
Proof.
  intros Ex. unfold DdkUnloadDriver. set (s1 := set_lock (fun n => n + 1) s). rewrite (bind_run _ _ s tt s1) by done.
  assert (on_kern (DdkLookupNameA malloc n (Some (wide "\Driver"))) s1 = Ok (0, s1)) as E1.
  { apply on_kern_same. change (heap s1) with (heap s). by rewrite (lookup_driver n _ d N I Irql Nd room1), Ex. }
  rewrite (bind_run _ _ _ _ _ E1). cbn [Z.eqb]. unfold DdkLoadUnlock, modify. do 2 f_equal. apply lock_back.
Qed.

(** Two references given up, of more than two. *)
Lemma drop_counted k p o : objects k !! p = Some o -> 2 <= refcount o < 2 ^ 31 ->
  DdkDereferenceObject p k = Ok (tt, put_at k p (with_count o (refcount o - 1))).
Proof.
  intros Ep Hc. unfold DdkDereferenceObject, dereference. rewrite (kbind _ _ _ _ _ (decrement_run k p o Ep ltac:(lia))).
  by destruct (Z.eqb_spec (refcount o - 1) 0); [lia |].
Qed.

(** One of several loads is taken back, with its reference. *)
Lemma unload_more fuel x D o ds : dlookup d (driver_path n) = Some x -> loaded s x.2 D o ds -> 2 <= loadcount D ->
  DdkUnloadDriver malloc fuel n s = Ok (tt,
    set_drivers <[x.2 := set_loadcount (loadcount D - 1) D]> (set_heap (put_at (heap s) x.2 (with_count o (refcount o - 1))) s)).
Proof.
  intros Ex L Hc2. destruct L as [Pr Hc Hl]. pose proof (present_type s x.2 D o ds I Pr) as [Ht Hp]. destruct Pr as [Ep Ec Ed _].
  unfold client in Hl. rewrite Ep in Hl. pose proof (refs_nonneg (heap s) x.2). pose proof (Rm x.2 o Ep).
  unfold DdkUnloadDriver. set (s1 := set_lock (fun n => n + 1) s). rewrite (bind_run _ _ s tt s1) by done.
  set (o1 := with_count o (refcount o + 1)). set (k1 := put_at (heap s) x.2 o1).
  assert (on_kern (DdkLookupNameA malloc n (Some (wide "\Driver"))) s1 = Ok (x.2, set_heap k1 s1)) as E1.
  { apply on_kern_still; [| done]. change (heap s1) with (heap s). rewrite (lookup_driver n _ d N I Irql Nd room1), Ex.
    by rewrite (referenced_at _ _ o Ep). }
  rewrite (bind_run _ _ _ _ _ E1). destruct (Z.eqb_spec x.2 0); [lia |].
  set (s2 := set_heap k1 s1). assert (objects (heap s2) !! x.2 = Some o1) as Ep1 by apply lookup_insert_eq.
  rewrite (bind_run _ _ _ _ _ (get_driver_run s2 x.2 o1 Hp Ep1 Ht)).
  rewrite (bind_run _ _ _ _ _ (driver_at_run s2 x.2 o1 D Ep1 Ed)).
  destruct (Z.eqb_spec (loadcount D) 0); [lia |]. rewrite s32_id by lia.
  set (s3 := set_drivers <[x.2 := set_loadcount (loadcount D - 1) D]> s2).
  rewrite (bind_run _ _ s2 false s3).
  2: { rewrite (bind_run _ _ _ _ _ (change_driver_run s2 x.2 o1 D _ Ep1 Ed)).
       by destruct (Z.eqb_spec (loadcount D - 1) 0); [lia |]. }
  rewrite (bind_run _ _ s3 tt s3) by done.
  set (o2 := with_count o1 (refcount o)). set (k2 := put_at k1 x.2 o2).
  assert (on_kern (DdkDereferenceObject x.2) s3 = Ok (tt, set_heap k2 s3)) as E2.
  { apply on_kern_still; [| done]. change (heap s3) with k1. rewrite (drop_counted k1 x.2 o1 Ep1 ltac:(simpl; lia)).
    simpl. by replace (refcount o + 1 - 1) with (refcount o) by lia. }
  rewrite (bind_run _ _ _ _ _ E2).
  assert (on_kern (DdkDereferenceObject x.2) (set_heap k2 s3) =
    Ok (tt, set_heap (put_at k2 x.2 (with_count o2 (refcount o - 1))) (set_heap k2 s3))) as E3.
  { apply on_kern_still; [| done]. change (heap (set_heap k2 s3)) with k2.
    by rewrite (drop_counted k2 x.2 o2 (lookup_insert_eq _ _ _) ltac:(simpl; lia)). }
  rewrite (bind_run _ _ _ _ _ E3). unfold DdkLoadUnlock, modify. do 2 f_equal.
  unfold k2, k1. rewrite !put_put. destruct s. unfold s3, s2, s1, set_lock, set_drivers, set_heap, set_reg. simpl. f_equal. lia.
Qed.

End calls.
End spec.
