(* ===== verification/DriverLoads.v ===== *)
(** * DriverLoads: the first load of a driver and the last unload *)

From S2P Require Import Prelude Strings StringsOps StringsSpec Objects Names NamesPath.
From S2P Require Import ObjectsInv ObjectsSpec NamesSpec SymlinkSpec ResolveSpec.
From S2P Require Import Memory Registry RegistryQuery RegistrySpec.
From S2P Require Device.
From S2P Require Import DeviceObjects Driver DriverSpec.

Section spec.
Context `{Environment} `{Locale} `{LL : !LocaleLaws} `{WINREG} `{!WINREG_Laws} `{QUERY_ROUTINES} `{!DRIVER_ROUTINES}.
Context (malloc : Z -> option (list Z)).
Context (pool : forall n, 0 <= n -> exists m, malloc n = Some m /\ Z.of_nat (length m) = n).

(** ** Plug and play finds nothing to remove *)

(** The devices of a driver are attached to nothing. *)
Record legacy (s : dsys) (p : Z) (ds : list Z) : Prop := {
  lg_manager : DdkPnpManager s <> p + sizeof_OBJECT;
  lg_devices : forall x, x ∈ ds -> x <> 0 /\
    (exists v, stacks s !! x = Some v /\ Device.AttachedTo v = 0) /\
    (exists o, objects (heap s) !! (x - sizeof_OBJECT) = Some o /\ contents o = Objects.Device (p + sizeof_OBJECT) /\
       1 <= refcount o < 2 ^ 31 - 1)
}.

Lemma referenced_back k p o : objects k !! p = Some o ->
  put_at (put_at k p (with_count o (refcount o + 1))) p (with_count o (refcount o)) = k.
Proof.
  intros Ep. rewrite put_put. destruct k. unfold put_at, set_objects. simpl in *. f_equal. apply insert_id.
  rewrite Ep. by destruct o.
Qed.

Section device.
Context (s : dsys) (p x : Z) (o : OBJECT) (v : Device.devobj).
Context (I : kinv (heap s)) (Irql : CurrentIrql (heap s) = 0).
Context (Nx : x <> 0) (Ev : stacks s !! x = Some v) (Av : Device.AttachedTo v = 0).
Context (Eo : objects (heap s) !! (x - sizeof_OBJECT) = Some o) (Ec : contents o = Objects.Device (p + sizeof_OBJECT)).
Context (Hc : 1 <= refcount o < 2 ^ 31 - 1).

Let q := x - sizeof_OBJECT.

Lemma device_here : type o = IoDeviceType /\ 0 < q /\ objects (heap s) !! (q + sizeof_OBJECT) = None /\
  isValidObject (heap s) (q + sizeof_OBJECT) = false.
Proof.
  destruct (k_objects _ I _ o Eo) as [Ha Ht Hh _ _ _ _ _]. unfold well_typed in Ht. rewrite Ec in Ht.
  rewrite Ht in Hh. by destruct (Hh eq_refl).
Qed.

Lemma from_device k n : objects k = objects (put_at (heap s) q (with_count o n)) -> 0 < n ->
  FromPointer x k = Ok (q, k).
Proof.
  intros Ek Hn. pose proof device_here as (Ht & Hq & Hnone & Hv).
  replace x with (q + sizeof_OBJECT) by (unfold q; lia). apply (from_public_at k q (with_count o n)); try done.
  - rewrite Ek. apply lookup_insert_eq.
  - simpl. by rewrite Ht.
  - unfold isValidObject, type_at in *. rewrite Ek. simpl. rewrite lookup_insert_ne by (unfold sizeof_OBJECT; lia). exact Hv.
Qed.

Lemma at_dispatch_run k : CurrentIrql k = 0 -> at_dispatch k = Ok (tt, k).
Proof. intros Hi. unfold at_dispatch, assert_irql, KeGetCurrentIrql, mbind, M_bind. by rewrite Hi. Qed.

(** The state while the device has one more reference. *)
Definition held : dsys := set_heap (put_at (heap s) q (with_count o (refcount o + 1))) s.

Lemma base_held : on_stacks (Device.IoGetDeviceAttachmentBaseRef x) s = Ok (x, held).
Proof.
  unfold on_stacks. set (there := filter _ _). assert (there !! x = Some v) as Et.
  { apply map_lookup_filter_Some. split; [done |]. simpl. fold (heap s). by exists o. }
  assert (Device.IoGetDeviceAttachmentBaseRef x (Device.mkDevs there []) = Ok (x, Device.mkDevs there [x])) as ->.
  { unfold Device.IoGetDeviceAttachmentBaseRef, Device.stack_fuel.
    assert (size there <> 0%nat) as Hz by (intros E0%map_size_empty_iff; by rewrite E0 in Et).
    destruct (size there) as [| f] eqn:Ef; [done |].
    unfold mbind, M_bind, get, mret, M_ret. cbn [Device.devs]. rewrite Ef. cbn [Device.base_loop].
    unfold Device.dev_at, mbind, M_bind, mret, M_ret. cbn [Device.devs]. rewrite Et, Av. simpl.
    unfold Device.reference, Device.dev_at, mbind, M_bind, modify. cbn [Device.devs]. by rewrite Et. }
  cbn [Device.devs Device.references foldr].
  assert (there ∪ stacks s = stacks s) as Eu by (apply map_subseteq_union, map_filter_subseteq).
  assert (set_stacks (fun m => there ∪ m) s = s) as -> by (unfold set_stacks; rewrite Eu; by destruct s).
  rewrite (bind_run _ _ s 0 held); [done |]. apply on_kern_still; [| done].
  unfold ObReferenceObject, ObfReferenceObjectWithTag.
  rewrite (kbind _ _ _ q (heap s)).
  2: { apply (from_device (heap s) (refcount o)); [| lia]. simpl. rewrite insert_id; [done |].
       unfold q. rewrite Eo. by destruct o. }
  rewrite (kbind _ _ _ _ _ (at_dispatch_run _ Irql)).
  by rewrite (kbind _ _ _ _ _ (increment_run (heap s) q o Eo ltac:(lia))).
Qed.

Lemma release_held : on_kern (ObDereferenceObject x) held = Ok (0, s).
Proof.
  assert (on_kern (ObDereferenceObject x) held = Ok (0, set_heap (heap s) held)) as ->.
  2: { do 2 f_equal. unfold held. by destruct s as [[] ? ? ? ? ? ?]. }
  apply on_kern_still; [| done]. change (heap held) with (put_at (heap s) q (with_count o (refcount o + 1))).
  set (k := put_at _ _ _). unfold ObDereferenceObject, ObfDereferenceObjectWithTag.
  rewrite (kbind _ _ _ q k) by (apply (from_device k (refcount o + 1)); [done | lia]).
  rewrite (kbind _ _ _ _ _ (at_dispatch_run k Irql)).
  rewrite (kbind _ _ k (refcount o) (heap s)).
  - by destruct (Z.eqb_spec (refcount o) 0); [lia |].
  - rewrite (decrement_run k q (with_count o (refcount o + 1)) (lookup_insert_eq _ _ _) ltac:(simpl; lia)). simpl.
    replace (refcount o + 1 - 1) with (refcount o) by lia. unfold k. rewrite <- (referenced_back (heap s) q o Eo) at 2.
    reflexivity.
Qed.

End device.

Lemma after_middle pre x post : NoDup (pre ++ x :: post) -> after x (pre ++ x :: post) = hd 0 post.
Proof.
  induction pre as [| y pre IH]; simpl; intros Nd; [by rewrite Z.eqb_refl |].
  apply NoDup_cons in Nd as [Hy Nd]. destruct (Z.eqb_spec y x) as [-> |]; [| by apply IH].
  destruct Hy. apply elem_of_app. right. by left.
Qed.

Lemma pnp_loop_legacy s p o ds : kinv (heap s) -> CurrentIrql (heap s) = 0 ->
  objects (heap s) !! p = Some o -> contents o = Driver 0 ds -> NoDup ds -> legacy s p ds ->
  forall post pre fuel, ds = pre ++ post -> (length post < fuel)%nat ->
  pnp_unload_loop fuel p (hd 0 post) s = Ok (tt, s).
Proof.
  intros I Irql Ep Ec Nd [Lm Ld] post. induction post as [| x post IH]; intros pre fuel E Hf;
    (destruct fuel as [| fuel]; [simpl in Hf; lia |]); cbn [pnp_unload_loop hd]; [done |].
  destruct (Ld x) as (Nx & (v & Ev & Av) & (ox & Ex & Cx & Hc)); [rewrite E; apply elem_of_app; right; by left |].
  destruct (Z.eqb_spec x 0); [done |].
  rewrite (bind_run _ _ _ _ _ (base_held s p x ox v I Irql Ev Av Ex Cx Hc)). set (t := held s x ox).
  set (ox1 := with_count ox (refcount ox + 1)).
  assert (objects (heap t) !! (x - sizeof_OBJECT) = Some ox1) as Ext by apply lookup_insert_eq.
  assert (driver_of_device x t = Ok (p + sizeof_OBJECT, t)) as Ed.
  { unfold driver_of_device. rewrite (bind_run _ _ _ _ _ (on_kern_same _ t ox1 (object_at_run _ _ _ Ext))).
    change (contents ox1) with (contents ox). by rewrite Cx. }
  rewrite (bind_run _ _ _ _ _ Ed). rewrite (bind_run _ _ t (DdkPnpManager s) t) by done.
  destruct (Z.eqb_spec (p + sizeof_OBJECT) (DdkPnpManager s)); [by destruct Lm |].
  assert (x - sizeof_OBJECT <> p) as Nxp by (intros Exp; rewrite Exp in Ex; congruence).
  assert (next_device x t = Ok (hd 0 post, t)) as En.
  { unfold next_device. rewrite (bind_run _ _ _ _ _ Ed). rewrite Z.add_simpl_r.
    assert (objects (heap t) !! p = Some o) as Ept by (unfold t, held; simpl; by rewrite lookup_insert_ne).
    rewrite (bind_run _ _ _ _ _ (driver_body_run t p o 0 ds Ept Ec)). rewrite E at 1. by rewrite after_middle by by rewrite <- E. }
  rewrite (bind_run _ _ _ _ _ En).
  rewrite (bind_run _ _ _ _ _ (release_held s p x ox v I Irql Ev Ex Cx Hc)).
  apply (IH (pre ++ [x])); [by rewrite <- app_assoc | simpl in Hf; lia].
Qed.

(** [DdkPnpUnload] of a driver without plug and play. *)
Lemma pnp_unload_legacy s p o ds fuel : kinv (heap s) -> CurrentIrql (heap s) = 0 ->
  objects (heap s) !! p = Some o -> contents o = Driver 0 ds -> legacy s p ds -> (length ds < fuel)%nat ->
  DdkPnpUnload fuel p s = Ok (tt, s).
Proof.
  intros I Irql Ep Ec L Hf. unfold DdkPnpUnload, first_device.
  rewrite (bind_run _ _ s (hd 0 ds) s) by by rewrite (bind_run _ _ _ _ _ (driver_body_run s p o 0 ds Ep Ec)).
  apply (pnp_loop_legacy s p o ds I Irql Ep Ec) with (pre := []); try done.
  by destruct (o_devices _ _ _ (k_objects _ I p o Ep) 0 ds Ec).
Qed.

(** ** The last references *)

Lemma put_same k p o : objects k !! p = Some o ->
  put_at (set_names (DdkNameList k) k) p (with_count o (refcount o - Z.of_nat 0)) = k.
Proof.
  intros Ep. destruct k. unfold put_at, set_names, set_objects. simpl in *. f_equal. apply insert_id. rewrite Ep, Z.sub_0_r.
  by destruct o.
Qed.

(** All names of an object that has other references too. *)
Lemma remove_names_raw p post : forall k o pre pp fuel,
  DdkNameList k = pre ++ post -> NoDup (addr <$> DdkNameList k) -> stands pp pre ->
  objects k !! p = Some o -> Z.of_nat (named post p) < refcount o < 2 ^ 31 -> (length post <= fuel)%nat ->
  remove_loop fuel (fun e => mret (Object e =? p)) (DdkFreeObject free_depth) pp k =
    Ok (tt, put_at (set_names (pre ++ filter (fun e => Object e <> p) post) k) p (with_count o (refcount o - Z.of_nat (named post p)))).
Proof.
  induction post as [| e post IH]; intros k o pre pp fuel E Nd Hp Eo Hc Hf;
    pose proof (entry_after_stands pp pre _ ltac:(rewrite <- E; exact Nd) Hp) as Hr; rewrite <- E in Hr.
  - change (named [] p) with 0%nat. change (filter (fun e => Object e <> p) []) with (@nil NAME). rewrite <- E.
    rewrite put_same by done. by destruct fuel; cbn [remove_loop]; rewrite (kbind _ _ k None k) by (by rewrite Hr).
  - destruct fuel as [| fuel]; simpl in Hf; [lia |]. cbn [remove_loop]. rewrite (kbind _ _ k (Some e) k) by (by rewrite Hr).
    rewrite (kbind _ _ k (Object e =? p) k) by done. rewrite filter_cons. unfold named in *. rewrite filter_cons in *.
    destruct (Z.eqb_spec (Object e) p) as [He | He].
    + rewrite (decide_True (P := Object e = p)) in * by done. rewrite decide_False by tauto. simpl in Hc.
      set (k1 := set_names (pre ++ post) k).
      rewrite (kbind _ _ k tt k1).
      2: { unfold modify. do 2 f_equal. unfold k1. f_equal. rewrite E. apply remove_addr. by rewrite <- E. }
      set (k2 := put_at k1 p (with_count o (refcount o - 1))).
      rewrite (kbind _ _ k1 tt k2).
      2: { unfold dereference. rewrite He. rewrite (kbind _ _ _ _ _ (decrement_run k1 p o Eo ltac:(lia))).
           by destruct (Z.eqb_spec (refcount o - 1) 0); [lia |]. }
      rewrite (IH k2 (with_count o (refcount o - 1)) pre); try done; [| | apply lookup_insert_eq | simpl; lia | lia].
      * do 2 f_equal. unfold k2, k1, put_at, set_names, set_objects. simpl. f_equal.
        rewrite insert_insert_eq. f_equal. unfold with_count. simpl. f_equal. lia.
      * change (DdkNameList k2) with (pre ++ post). rewrite E, fmap_app, fmap_cons in Nd. rewrite fmap_app.
        apply NoDup_app in Nd as (Na & Nb & [Nc Nf]%NoDup_cons). apply NoDup_app. split; [done |]. split; [| done].
        intros y Hy Hy'. apply (Nb y Hy). by right.
    + rewrite (decide_False (P := Object e = p)) in * by done. rewrite decide_True by done.
      rewrite (IH k o (pre ++ [e])); try done; [by rewrite <- app_assoc | by rewrite <- app_assoc | by exists pre, e | lia].
Qed.

(** A driver's object without references or names. *)
Lemma free_driver k p o ds n : 0 < p -> objects k !! p = Some o -> contents o = Driver 0 ds -> type o = IoDriverType ->
  alloc o = true -> h o = 0 -> (forall e, e ∈ DdkNameList k -> Object e <> p) -> NoDup (addr <$> DdkNameList k) ->
  DdkFreeObject (S n) p k = Ok (tt, log (Freed p) (delete_at k p)).
Proof.
  intros Hp Ep Ec Ht Ha Hh Hn Nd. cbn [DdkFreeObject].
  rewrite (kbind _ _ _ _ _ (object_at_run k p o Ep)). rewrite Ht.
  change (IoDriverType =? IoFileType) with false. change (IoDriverType =? IoDriverType) with true. cbn iota.
  rewrite (kbind _ _ k tt k).
  2: { unfold DdkFreeDriverObject. rewrite (kbind _ _ k p k).
       - rewrite (kbind _ _ k (0, ds) k); [done |]. unfold driver_body. rewrite (kbind _ _ _ _ _ (object_at_run k p o Ep)). by rewrite Ec.
       - unfold GetDriver. destruct (Z.eqb_spec p 0); [lia |]. rewrite (kbind _ _ _ _ _ (object_at_run k p o Ep)). by rewrite Ht. }
  rewrite (kbind _ _ k tt k) by (unfold close_handle; rewrite (kbind _ _ _ _ _ (object_at_run k p o Ep)); by rewrite Hh).
  rewrite (kbind _ _ k tt k).
  2: { unfold remove_object_name, remove_names. rewrite (kbind _ _ k (length (DdkNameList k)) k) by done.
       by apply (remove_loop_none _ _ (DdkNameList k) k []). }
  rewrite (kbind _ _ _ _ _ (object_at_run k p o Ep)). by rewrite Ha.
Qed.

(** ** What routines of drivers may do *)

Definition distinct (d : directory) : Prop := NoDup ((fun x => map towlower x.1) <$> d).

Record sane (s : dsys) : Prop := {
  sn_inv : kinv (heap s);
  sn_irql : CurrentIrql (heap s) = 0;
  sn_ready : ready (reg s)
}.

(** They give back what they take of the drivers' references, and leave the names of
    drivers alone. *)
Record served (s s' : dsys) : Prop := {
  sv_sane : sane s';
  sv_lock : load_lock s' = load_lock s;
  sv_present : forall p D o ds, present s p D o ds -> exists D' o' ds', present s' p D' o' ds' /\
    loadcount D' = loadcount D /\ DriverName D' = DriverName D /\ AddDevice D' = AddDevice D /\
    client (heap s') p = client (heap s) p;
  sv_names : forall d, names_as d (heap s) -> distinct d -> exists d', names_as d' (heap s') /\ distinct d' /\
    forall n, driver_name n -> dlookup d' (driver_path n) = dlookup d (driver_path n)
}.

Context (unload_law : forall f x s, sane s -> exists s', unload_routine f x s = Ok (tt, s') /\ served s s').

(** What is not looked at may change. *)
Lemma served_ext s s' : sane s -> reg s' = reg s -> drivers s' = drivers s -> load_lock s' = load_lock s -> served s s'.
Proof.
  intros [S1 S2 S3] Er Ed El. assert (heap s' = heap s) as Eh by (unfold heap; by rewrite Er). split; try done.
  - split; by rewrite ?Eh, ?Er.
  - intros p D o ds [P1 P2 P3 P4]. exists D, o, ds. split; [split; by rewrite ?Eh, ?Ed | by rewrite Eh].
  - intros d Nd Dd. exists d. by rewrite Eh.
Qed.

Lemma call_unload_run f x s : sane s -> exists s', call_unload f x s = Ok (tt, s') /\ served s s'.
Proof.
  intros S. unfold call_unload. destruct (f =? pnp_unload); [| by apply unload_law].
  exists (set_manager 0 s). split; [done |]. by apply served_ext.
Qed.

Lemma dlookup_filter d p cs : distinct d -> 
  dlookup (filter (fun x => x.2 <> p) d) cs =
    match dlookup d cs with Some x => if decide (x.2 = p) then None else Some x | None => None end.
Proof.
  intros Dd. induction d as [| x d IH]; [done |]. unfold distinct in Dd. rewrite fmap_cons in Dd.
  apply NoDup_cons in Dd as [Hx Dd]. rewrite filter_cons. simpl. destruct (same_text cs x.1) eqn:Es.
  - destruct (decide (x.2 <> p)) as [Hp | Hp]; simpl; [rewrite Es; by rewrite decide_False |].
    rewrite decide_True by (destruct (decide (x.2 = p)); tauto). rewrite (IH Dd).
    destruct (dlookup d cs) as [y |] eqn:Ey; [| done]. exfalso. apply Hx.
    assert (y ∈ d /\ same_text cs y.1 = true) as [Hy Hs].
    { clear - Ey. induction d as [| z d IH]; [done |]. simpl in Ey. destruct (same_text cs z.1) eqn:Ez.
      - injection Ey as ->. split; [by left | done].
      - destruct (IH Ey). split; [by right | done]. }
    unfold same_text in Es, Hs. apply bool_decide_eq_true in Es, Hs. rewrite <- Es, Hs.
    by apply (list_elem_of_fmap_2 (fun x => map towlower x.1)).
  - destruct (decide (x.2 <> p)); simpl; [rewrite Es |]; by apply IH.
Qed.

Lemma distinct_filter d p : distinct d -> distinct (filter (fun x => x.2 <> p) d).
Proof.
  unfold distinct. induction d as [| x d IH]; [done |]. rewrite fmap_cons. intros [Hx Dd]%NoDup_cons. rewrite filter_cons.
  destruct (decide _); [| by apply IH]. rewrite fmap_cons. apply NoDup_cons. split; [| by apply IH].
  intros Hin. apply Hx. apply list_elem_of_fmap in Hin as (y & -> & [_ Hy]%list_elem_of_filter).
  by apply (list_elem_of_fmap_2 (fun x => map towlower x.1)).
Qed.

(** The end of [DdkUnloadDriver], after the driver's routine: names and the last two
    references go, or the driver still has devices. *)
Definition finish_unload (p : Z) : D unit :=
  _ ← on_kern (DdkRemoveObjectName p);
  ok ← on_kern (DdkWaitLastReference p 2);
  _ ← (if negb (ok : bool) then fail (DdkFailed "Timeout unloading driver") else mret tt);
  _ ← on_kern (DdkDereferenceObject p);
  _ ← on_kern (DdkDereferenceObject p);
  DdkLoadUnlock.

Definition gone (k : kernel) (p : Z) : kernel :=
  log (Freed p) (delete_at (set_names (filter (fun e => Object e <> p) (DdkNameList k)) k) p).

Lemma filed_driver k p o : kinv k -> objects k !! p = Some o -> type o = IoDriverType -> filed (objects k) p = 0%nat.
Proof.
  intros I Ep Ht. unfold filed. apply map_size_empty_iff, map_empty. intros q. apply map_lookup_filter_None. right.
  intros x Eq [Hx Hr]. pose proof (o_address _ _ _ (k_objects _ I p o Ep)).
  destruct (o_opened _ _ _ (k_objects _ I q x Eq) _ Hx) as (q' & drv & E & (y & Ey & Hy)); [unfold sizeof_OBJECT; lia | done |].
  assert (q' = p) as -> by (unfold sizeof_OBJECT in *; lia). assert (y = o) as -> by congruence.
  pose proof (o_typed _ _ _ (k_objects _ I p o Ep)) as Hw. unfold well_typed in Hw. rewrite Hy, Ht in Hw. discriminate Hw.
Qed.

(** After [DdkRemoveObjectName]: [n] references are left. *)
Definition unnamed (k : kernel) (p : Z) (o : OBJECT) (n : Z) : kernel :=
  put_at (set_names (filter (fun e => Object e <> p) (DdkNameList k)) k) p (with_count o n).

Lemma unname_run k p o n : kinv k -> objects k !! p = Some o -> refcount o = Z.of_nat (named (DdkNameList k) p) + n -> 0 < n ->
  DdkRemoveObjectName p k = Ok (tt, unnamed k p o n).
Proof.
  intros I Ep Hc Hn. pose proof (o_count _ _ _ (k_objects _ I p o Ep)).
  unfold DdkRemoveObjectName, remove_object_name, remove_names.
  rewrite (kbind _ _ k (length (DdkNameList k)) k) by done.
  rewrite (remove_names_raw p (DdkNameList k) k o []); try done; [| apply (k_entries _ I) | lia].
  unfold unnamed. do 4 f_equal. lia.
Qed.

Lemma unnamed_unnamed k p o n : forall e, e ∈ DdkNameList (unnamed k p o n) -> Object e <> p.
Proof. intros e He. simpl in He. by apply list_elem_of_filter in He as [? _]. Qed.

Section finish.
Context (t : dsys) (p : Z) (D : DRIVER) (o : OBJECT) (ds : list Z).
Context (S : sane t) (Pr : present t p D o ds) (C2 : client (heap t) p = 2).

Let K := heap t.

Lemma finish_count : refcount o = Z.of_nat (named (DdkNameList K) p) + (2 + Z.of_nat (length ds)) /\ type o = IoDriverType /\ 0 < p.
Proof.
  pose proof (present_type t p D o ds (sn_inv _ S) Pr) as [Ht Hp]. destruct Pr as [Ep Ec _ _].
  pose proof (filed_driver _ _ _ (sn_inv _ S) Ep Ht) as Hf. revert C2. unfold client, refs, listed. rewrite Ep, Ec, Hf. unfold K. lia.
Qed.

Lemma finish_busy : ds <> [] -> finish_unload p t = Err (DdkFailed "Timeout unloading driver").
Proof.
  intros Nds. destruct finish_count as (Hc & Ht & Hp). pose proof (pr_at _ _ _ _ _ Pr) as Ep. unfold finish_unload.
  set (n := 2 + Z.of_nat (length ds)). set (k1 := unnamed K p o n).
  assert (2 < n) as Hn by (unfold n; destruct ds; [done | simpl; lia]).
  assert (on_kern (DdkRemoveObjectName p) t = Ok (tt, set_heap k1 t)) as E1.
  { apply on_kern_still; [| done]. apply (unname_run _ p o n (sn_inv _ S) Ep Hc). lia. }
  rewrite (bind_run _ _ _ _ _ E1).
  assert (on_kern (DdkWaitLastReference p 2) (set_heap k1 t) = Ok (false, set_heap k1 t)) as E2.
  { apply on_kern_same. unfold DdkWaitLastReference.
    rewrite (kbind _ _ _ _ _ (object_at_run k1 p (with_count o n) (lookup_insert_eq _ _ _))). simpl.
    by destruct (Z.leb_spec n 2); [lia |]. }
  by rewrite (bind_run _ _ _ _ _ E2).
Qed.

Lemma finish_ok : ds = [] ->
  finish_unload p t = Ok (tt, set_lock (fun n => n - 1) (set_heap (gone K p) t)) /\ kinv (gone K p) /\
  forall a, a <> p -> client (gone K p) a = client K a.
Proof.
  intros Eds. destruct finish_count as (Hc & Ht & Hp). rewrite Eds in Hc. pose proof (pr_at _ _ _ _ _ Pr) as Ep.
  destruct (pr_object _ _ _ _ _ Pr) as [Ha Hh]. pose proof (pr_contents _ _ _ _ _ Pr) as Ec.
  set (k1 := unnamed K p o 2). set (k2 := unnamed K p o 1). set (k3 := unnamed K p o 0).
  assert (DdkRemoveObjectName p K = Ok (tt, k1)) as E1 by (apply (unname_run _ p o 2 (sn_inv _ S) Ep); [exact Hc | lia]).
  assert (DdkDereferenceObject p k1 = Ok (tt, k2)) as E2.
  { rewrite (drop_counted k1 p (with_count o 2) (lookup_insert_eq _ _ _) ltac:(simpl; lia)). unfold k1, unnamed. by rewrite put_put. }
  assert (NoDup (addr <$> DdkNameList k3)) as Nd.
  { simpl. pose proof (k_entries _ (sn_inv _ S)) as Nd. unfold K. clear - Nd. induction (DdkNameList (heap t)) as [| e l IH]; [done |].
    rewrite fmap_cons in Nd. apply NoDup_cons in Nd as [He Nd]. rewrite filter_cons. destruct (decide _); [| by apply IH].
    rewrite fmap_cons. apply NoDup_cons. split; [| by apply IH]. intros Hin. apply He.
    apply list_elem_of_fmap in Hin as (x & -> & [_ Hx]%list_elem_of_filter). by apply list_elem_of_fmap_2. }
  assert (DdkDereferenceObject p k2 = Ok (tt, gone K p)) as E3.
  { unfold DdkDereferenceObject, dereference.
    assert (InterlockedDecrement p k2 = Ok (0, k3)) as Ei.
    { rewrite (decrement_run k2 p (with_count o 1) (lookup_insert_eq _ _ _) ltac:(simpl; lia)). unfold k2, unnamed. by rewrite put_put. }
    rewrite (kbind _ _ _ _ _ Ei). change (0 =? 0) with true. cbn iota. unfold free_depth.
    rewrite (free_driver k3 p (with_count o 0) ds); try done; [| apply lookup_insert_eq | apply unnamed_unnamed].
    unfold gone, k3, unnamed, delete_at, put_at, log, set_objects, set_names. simpl. by rewrite delete_insert_eq. }
  destruct (remove_object_name_run K p (sn_inv _ S)) as (k1' & E1' & I1 & _ & _ & _ & C1).
  assert (k1' = k1) as -> by congruence.
  destruct (drop_object k1 p I1) as (k2' & E2' & I2 & _ & _ & Cl2).
  { rewrite C1. unfold K. rewrite C2. lia. }
  assert (k2' = k2) as -> by (unfold DdkDereferenceObject in E2; congruence).
  destruct (drop_object k2 p I2) as (k3' & E3' & I3 & _ & _ & Cl3).
  { rewrite Cl2, C1, one_yes by done. unfold K. rewrite C2. lia. }
  assert (k3' = gone K p) as -> by (unfold DdkDereferenceObject in E3; congruence).
  split; [| split; [exact I3 |]].
  - unfold finish_unload.
    assert (on_kern (DdkRemoveObjectName p) t = Ok (tt, set_heap k1 t)) as F1 by by apply on_kern_still.
    rewrite (bind_run _ _ _ _ _ F1).
    assert (on_kern (DdkWaitLastReference p 2) (set_heap k1 t) = Ok (true, set_heap k1 t)) as F2.
    { apply on_kern_same. unfold DdkWaitLastReference.
      by rewrite (kbind _ _ _ _ _ (object_at_run k1 p (with_count o 2) (lookup_insert_eq _ _ _))). }
    rewrite (bind_run _ _ _ _ _ F2). cbn [negb]. rewrite (bind_run _ _ _ tt (set_heap k1 t)) by done.
    assert (on_kern (DdkDereferenceObject p) (set_heap k1 t) = Ok (tt, set_heap k2 t)) as F3.
    { rewrite (on_kern_still _ (set_heap k1 t) tt k2 E2 eq_refl). done. }
    rewrite (bind_run _ _ _ _ _ F3).
    assert (on_kern (DdkDereferenceObject p) (set_heap k2 t) = Ok (tt, set_heap (gone K p) t)) as F4.
    { rewrite (on_kern_run _ (set_heap k2 t) tt (gone K p) [Freed p] E3 eq_refl); [done |]. by repeat constructor. }
    by rewrite (bind_run _ _ _ _ _ F4).
  - intros a Na. rewrite Cl3, Cl2, C1, !one_no by done. lia.
Qed.

End finish.
End spec.
