(* ===== verification/DriverCounts.v ===== *)
(** * DriverCounts: drivers are a table of load counts *)

From S2P Require Import Prelude Strings StringsOps StringsSpec Objects Names NamesPath.
From S2P Require Import ObjectsInv ObjectsSpec NamesSpec SymlinkSpec ResolveSpec.
From S2P Require Import Memory Registry RegistryQuery RegistrySpec.
From S2P Require Device.
From S2P Require Import DeviceObjects Driver DriverSpec DriverLoads.

Section spec.
Context `{Environment} `{Locale} `{LL : !LocaleLaws} `{WINREG} `{!WINREG_Laws} `{QUERY_ROUTINES} `{!DRIVER_ROUTINES}.
Context (malloc : Z -> option (list Z)).
Context (pool : forall n, 0 <= n -> exists m, malloc n = Some m /\ Z.of_nat (length m) = n).
Context (entry_law : forall f x path s, sane s -> exists rc s', entry_routine f x path s = Ok (rc, s') /\ served s s').

(** ** The first load *)

Definition new_driver (n : Z) : OBJECT := mkObject IoDriverType true n 0 (Driver 0 []).

(** The part of [DdkCreateDriver] after the name has been entered. *)
Definition start_driver (m : memory_for) (pName : list Z) (p : Z) : D Z :=
  _ ← change_driver p (set_major (replicate (Z.to_nat (IRP_MJ_MAXIMUM_FUNCTION + 1)) default_dispatch));
  let params := swprintf (MAX_PATH + 1) (pName ++ wide "\Parameters") in
  _ ← on_reg (RtlCreateRegistryKey (for_dup m) RTL_REGISTRY_SERVICES (AtPath pName));
  _ ← on_reg (RtlCreateRegistryKey (for_dup m) RTL_REGISTRY_SERVICES (AtPath params));
  rc ← DdkDriverEntry p;
  if negb (NT_SUCCESS rc) then _ ← on_kern (DdkDereferenceObject p); mret rc else
  _ ← change_driver p (fun d => set_loadcount (s32 (loadcount d + 1)) d);
  d ← driver_at p;
  _ ← (if negb (AddDevice d =? 0) then DdkPnpCreateDevice malloc (for_device m) (for_device_name m) (for_irp m) p else mret 0);
  mret STATUS_SUCCESS.

Section first.
Context (s : dsys) (d : directory) (n : list Z) (p a Init : Z) (m : memory_for).
Context (S : sane s) (Nd : names_as d (heap s)) (N : driver_name n).
Context (F : fresh_public (heap s) p) (Fa : a ∉ (addr <$> DdkNameList (heap s))).
Context (Mp : for_driver m = Some p) (Ma : for_name m = Some a) (Hi : Init <> 0).

Definition entered (nm : UNICODE_STRING) : kernel :=
  put_at (set_names (mkName a p nm :: DdkNameList (heap s)) (heap s)) p (new_driver 2).

Definition blank_driver : DRIVER := mkDriver Init 0 0 [] 0 n.

Lemma new_driver_object : new_object (heap s) p (new_driver 1).
Proof. split; try done. intros _. apply (fp_hidden _ _ F). Qed.

(** Up to the name. *)
Lemma create_until_name : DdkCreateDriver malloc m n Init 0 s =
  (ok ← on_kern (DdkInsertName malloc (Some a) (Some n) p (Some (wide "\Driver")));
   if negb (ok : bool) then _ ← on_kern (DdkDereferenceObject p); mret STATUS_OBJECT_NAME_EXISTS else start_driver m n p)
  (set_heap (put_at (heap s) p (new_driver 1)) (set_drivers <[p := blank_driver]> s)).
Proof.
  pose proof N as [_ Np Nl _ _]. destruct (fp_fresh _ _ F) as (Hp & Hn & _). set (k1 := put_at (heap s) p (new_driver 1)).
  unfold DdkCreateDriver. rewrite Mp, Ma.
  assert (on_kern (DdkAllocObject (Some p) IoDriverType (Driver 0 []) false) s = Ok (Some p, set_heap k1 s)) as Ea
    by by apply on_kern_still.
  rewrite (bind_run _ _ _ _ _ Ea). apply Z.eqb_neq in Hi as ->.
  assert (on_kern (object_at p) (set_heap k1 s) = Ok (new_driver 1, set_heap k1 s)) as Eo
    by (apply on_kern_same, object_at_run; apply lookup_insert_eq).
  rewrite (bind_run _ _ _ _ _ Eo).
  assert (on_kern (put_object p (mkObject (type (new_driver 1)) (alloc (new_driver 1)) (refcount (new_driver 1))
    (h (new_driver 1)) (Driver 0 []))) (set_heap k1 s) = Ok (tt, set_heap k1 s)) as Eq.
  { rewrite (on_kern_still _ (set_heap k1 s) tt k1); [done | | done].
    change (Ok (tt, put_at k1 p (new_driver 1)) = Ok (tt, k1)). unfold k1. by rewrite put_put. }
  rewrite (bind_run _ _ _ _ _ Eq). set (s2 := set_drivers <[p := blank_driver]> (set_heap k1 s)).
  rewrite (bind_run _ _ _ tt s2) by done. destruct (init_chars n Np ltac:(lia)) as (u & Eu & Ec).
  rewrite (bind_run _ _ s2 u s2) by (apply on_kern_same; unfold lift; by rewrite Eu).
  by rewrite (bind_run _ _ s2 n s2) by (apply on_kern_same; unfold lift; by rewrite Ec).
Qed.

(** The name is entered, and the object and its record are there. *)
Lemma create_driver_run : dlookup d (driver_path n) = None -> exists nm,
  DdkCreateDriver malloc m n Init 0 s = start_driver m n p (set_heap (entered nm) (set_drivers <[p := blank_driver]> s)) /\
  kinv (entered nm) /\ names_as ((driver_path n, p) :: d) (entered nm) /\
  (forall b, client (entered nm) b = client (heap s) b + one (b = p)).
Proof.
  intros New. destruct S as [I Irql Rd].
  destruct (create_new_name malloc (Some (wide "\Driver")) n (driver_path n) (driver_path_of malloc pool n N) (heap s) p a d
    I Irql Nd (fp_fresh _ _ F)) as (nm & He & found & Hf & E).
  unfold found_as in Hf. rewrite New in Hf. subst found. exists nm.
  destruct (kinv_new_object (heap s) p (new_driver 1) I (fp_fresh _ _ F) new_driver_object) as [I1 C1].
  destruct (fp_fresh _ _ F) as (Hp & Hn & _).
  set (k1 := put_at (heap s) p (new_driver 1)) in *.
  set (k2 := set_names (mkName a p nm :: DdkNameList k1) k1).
  assert (client k1 p = 1) as Ck by (rewrite C1, one_yes by done; unfold client; by rewrite Hn).
  pose proof (enter_run k1 p (mkName a p nm) (driver_path n) d I1 Nd ltac:(lia) Fa He) as A1. fold k2 in A1.
  assert (objects k2 !! p = Some (new_driver 1)) as Ep by apply lookup_insert_eq.
  destruct (refer_run k2 p (new_driver 1) _ (a_inv _ _ _ _ _ A1) (a_names _ _ _ _ _ A1) Ep ltac:(done)) as (k3 & E3 & A2).
  assert (DdkReferenceObject p k2 = Ok (tt, put_at k2 p (new_driver 2))) as E3'.
  { unfold DdkReferenceObject. by rewrite (kbind _ _ _ _ _ (increment_run k2 p (new_driver 1) Ep ltac:(done))). }
  assert (put_at k2 p (new_driver 2) = entered nm) as Ek.
  { unfold entered, k2, k1, put_at, set_names, set_objects. simpl. by rewrite insert_insert_eq. }
  assert (k3 = entered nm) as -> by congruence.
  split; [| split; [apply A2 | split; [apply A2 |]]].
  2: { intros b. rewrite (a_client _ _ _ _ _ A2), (a_client _ _ _ _ _ A1), C1. lia. }
  rewrite create_until_name. set (s2 := set_heap _ _).
  assert (on_kern (DdkInsertName malloc (Some a) (Some n) p (Some (wide "\Driver"))) s2 = Ok (true, set_heap (entered nm) s2)) as Ei.
  { apply on_kern_still; [| done]. change (heap s2) with k1. unfold DdkInsertName.
    rewrite (kbind _ _ k1 (p, nm) (entered nm)); [by rewrite Z.eqb_refl |]. unfold k1. rewrite E. fold k1. fold k2.
    rewrite (kbind _ _ k2 tt (entered nm)); [done |]. by rewrite E3', Ek. }
  by rewrite (bind_run _ _ _ _ _ Ei).
Qed.

(** The name is taken: the one that has it gets a reference and loses it, and the new
    driver, which [DdkCreateName] has given up, is gone. *)
Lemma driver_taken x : dlookup d (driver_path n) = Some x -> room 4 (heap s) -> exists k', 
  DdkInsertName malloc (Some a) (Some n) p (Some (wide "\Driver")) (put_at (heap s) p (new_driver 1)) = Ok (false, k') /\
  objects k' !! p = None /\ events k' = [Freed p] ++ events (heap s).
Proof.
  intros Ex Rm. destruct S as [I Irql Rd].
  destruct (create_new_name malloc (Some (wide "\Driver")) n (driver_path n) (driver_path_of malloc pool n N) (heap s) p a d
    I Irql Nd (fp_fresh _ _ F)) as (nm & He & found & Hf & E).
  unfold found_as in Hf. rewrite Ex in Hf. destruct Hf as (path & -> & _).
  destruct (dlookup_object d _ x (heap s) I Nd Ex) as (ox & Eo & Hx & _). pose proof (Rm x.2 ox Eo) as Hc.
  destruct (fp_fresh _ _ F) as (Hp & Hn & _). assert (x.2 <> p) as Nxp by congruence.
  set (y := with_count ox (refcount ox + 1)). set (k1 := put_at (heap s) p (new_driver 1)) in *.
  set (k2 := put_at k1 x.2 y). set (k3 := put_at k2 p (new_driver 0)). set (k4 := log (Freed p) (delete_at k3 p)).
  assert (objects k1 !! x.2 = Some ox) as Eo1 by (unfold k1; simpl; by rewrite lookup_insert_ne).
  assert (objects k2 !! p = Some (new_driver 1)) as Ep2.
  { unfold k2, k1. simpl. rewrite lookup_insert_ne by done. apply lookup_insert_eq. }
  assert (objects k4 !! x.2 = Some y) as Ey.
  { unfold k4, k3, k2. simpl. rewrite lookup_delete_ne, lookup_insert_ne by done. apply lookup_insert_eq. }
  exists (put_at k4 x.2 (with_count y (refcount ox))). split; [| split].
  - unfold DdkInsertName. rewrite (kbind _ _ k1 (x.2, path) k4).
    + destruct (Z.eqb_spec x.2 p); [done |]. cbn [negb]. rewrite (kbind _ _ k4 tt (put_at k4 x.2 (with_count y (refcount ox)))); [done |].
      rewrite (drop_counted k4 x.2 y Ey ltac:(simpl; lia)). simpl. by replace (refcount ox + 1 - 1) with (refcount ox) by lia.
    + unfold k1. rewrite E. fold k1. rewrite (kbind _ _ k1 tt k2).
      2: { unfold DdkReferenceObject. by rewrite (kbind _ _ _ _ _ (increment_run k1 x.2 ox Eo1 ltac:(lia))). }
      rewrite (kbind _ _ k2 tt k4); [done |]. unfold DdkDereferenceObject, dereference.
      rewrite (kbind _ _ _ _ _ (decrement_run k2 p (new_driver 1) Ep2 ltac:(simpl; lia))). cbn [Z.eqb refcount new_driver Z.sub Z.add Z.opp Z.pos_sub].
      apply (free_driver k3 p (new_driver 0) []); try done; [apply lookup_insert_eq | | apply (k_entries _ I)].
      apply (new_unnamed (heap s) p I (fp_fresh _ _ F)).
  - unfold k4. simpl. rewrite lookup_insert_ne by done. apply lookup_delete_eq.
  - done.
Qed.

(** C36. Creating a driver whose name is taken uses memory that has been freed: the new
    driver is given up once by [DdkInsertName], which frees it, and once more by
    [DdkCreateDriver]. *)
Theorem DdkCreateDriver_taken x (Ex : dlookup d (driver_path n) = Some x) (Rm : room 4 (heap s)) :
  DdkCreateDriver malloc m n Init 0 s = Err (BadAccess p).
Proof.
  destruct (driver_taken x Ex Rm) as (k' & E & Ep & Ev). rewrite create_until_name. set (s2 := set_heap _ _).
  assert (on_kern (DdkInsertName malloc (Some a) (Some n) p (Some (wide "\Driver"))) s2 = Ok (false, set_heap k' s2)) as Ei.
  { apply (on_kern_run _ s2 false k' [Freed p] E Ev). by repeat constructor. }
  rewrite (bind_run _ _ _ _ _ Ei). cbn [negb].
  assert (DdkDereferenceObject p k' = Err (BadAccess p)) as Ed.
  { unfold DdkDereferenceObject, dereference, InterlockedDecrement, object_at, mbind, M_bind. by rewrite Ep. }
  unfold mbind, M_bind, on_kern, on_reg, on_kernel. change (kern (reg (set_heap k' s2))) with k'. by rewrite Ed.
Qed.

(** A call of the registry that gives back what it opens. *)
Lemma registry_run dup path t : sane t ->
  exists st t', on_reg (RtlCreateRegistryKey dup RTL_REGISTRY_SERVICES (AtPath path)) t = Ok (st, t') /\ sane t' /\
    heap t' = heap t /\ drivers t' = drivers t /\ load_lock t' = load_lock t.
Proof.
  intros [I Irql Rd].
  destruct (create_registry_key_run dup (reg t) RTL_REGISTRY_SERVICES path
    (L "\Registry\Machine\System\CurrentControlSet\Services") Rd eq_refl eq_refl) as (st & w & E & Rw).
  exists st, (set_reg (set_win w (reg t)) t). split; [unfold on_reg; by rewrite E |].
  split; [split; [exact I | exact Irql | by apply restored_ready] | done].
Qed.

Context (Np : Init <> pnp_entry).

Definition entered_driver : DRIVER :=
  mkDriver Init 0 0 (replicate (Z.to_nat (IRP_MJ_MAXIMUM_FUNCTION + 1)) default_dispatch) 0 n.

(** The keys of the driver, and of its parameters. *)
Definition keys_created (t u : dsys) : Prop := exists st1 u1 st2,
  on_reg (RtlCreateRegistryKey (for_dup m) RTL_REGISTRY_SERVICES (AtPath n)) t = Ok (st1, u1) /\
  on_reg (RtlCreateRegistryKey (for_dup m) RTL_REGISTRY_SERVICES
    (AtPath (swprintf (MAX_PATH + 1) (n ++ wide "\Parameters")))) u1 = Ok (st2, u).

(** What comes of the status of the entry routine. *)
Definition after_entry (rc : Z) (t : dsys) (D : DRIVER) : result (Z * dsys) :=
  if rc =? STATUS_SUCCESS then Ok (STATUS_SUCCESS, set_drivers <[p := set_loadcount 1 D]> t)
  else Err (DdkFailed "DriverEntry failed").

Lemma keys_run t : sane t -> exists u, keys_created t u /\ sane u /\
  heap u = heap t /\ drivers u = drivers t /\ load_lock u = load_lock t.
Proof.
  intros St. destruct (registry_run (for_dup m) n t St) as (st1 & u1 & E1 & S1 & H1' & D1 & L1).
  destruct (registry_run (for_dup m) (swprintf (MAX_PATH + 1) (n ++ wide "\Parameters")) u1 S1)
    as (st2 & u2 & E2 & S2 & H2' & D2 & L2).
  exists u2. split; [by exists st1, u1, st2 |]. split; [done |]. by rewrite H2', D2, L2.
Qed.

Lemma driver_entry_run u o : present u p entered_driver o [] -> sane u -> exists rc t,
  entry_routine Init (p + sizeof_OBJECT) (services_path n) u = Ok (rc, t) /\ served u t /\
  DdkDriverEntry p u =
    if rc =? STATUS_SUCCESS then Ok (STATUS_SUCCESS, t) else Err (DdkFailed "DriverEntry failed").
Proof.
  intros Pu Su. destruct (entry_law Init (p + sizeof_OBJECT) (services_path n) u Su) as (rc & t & Et & Sv).
  exists rc, t. split; [done |]. split; [done |]. unfold DdkDriverEntry.
  rewrite (bind_run _ _ _ _ _ (driver_at_run u p o _ (pr_at _ _ _ _ _ Pu) (pr_driver _ _ _ _ _ Pu))).
  change (DriverInit entered_driver) with Init. change (DriverName entered_driver) with n. unfold call_entry.
  destruct (Z.eqb_spec Init pnp_entry); [done |]. rewrite (bind_run _ _ _ _ _ Et). by destruct (rc =? STATUS_SUCCESS).
Qed.

Lemma start_driver_run t o : sane t -> present t p blank_driver o [] -> client (heap t) p = 1 ->
  exists u rc t2 D o' ds, keys_created (set_drivers <[p := entered_driver]> t) u /\
    sane u /\ heap u = heap t /\ drivers u = <[p := entered_driver]> (drivers t) /\ load_lock u = load_lock t /\
    entry_routine Init (p + sizeof_OBJECT) (services_path n) u = Ok (rc, t2) /\ served u t2 /\
    present t2 p D o' ds /\ DriverName D = n /\ loadcount D = 0 /\ client (heap t2) p = 1 /\
    start_driver m n p t = after_entry rc t2 D.
Proof.
  intros St Pr Cl. pose proof Pr as [Ep Ec Ed Eo]. set (t0 := set_drivers <[p := entered_driver]> t).
  destruct (keys_run t0 ltac:(by destruct St)) as (u & K & Su & Hu & Du & Lu). pose proof K as (st1 & u1 & st2 & E1 & E2).
  assert (present u p entered_driver o []) as Pu
    by (split; rewrite ?Hu, ?Du; [done | done | apply lookup_insert_eq | done]).
  destruct (driver_entry_run u o Pu Su) as (rc & t2 & Et & Sv & E3).
  destruct (sv_present _ _ Sv p entered_driver o [] Pu) as (D & o' & ds & P2 & Lc & Ln & La & Cp).
  exists u, rc, t2, D, o', ds. do 9 (split; [done |]). split; [done |]. split; [by rewrite Cp, Hu |].
  unfold start_driver. rewrite (bind_run _ _ _ _ _ (change_driver_run t p o blank_driver _ Ep Ed)).
  change (set_major _ blank_driver) with entered_driver. cbv zeta. fold t0.
  rewrite (bind_run _ _ _ _ _ E1), (bind_run _ _ _ _ _ E2). unfold after_entry.
  destruct (rc =? STATUS_SUCCESS).
  2: { unfold mbind, M_bind. by rewrite E3. }
  rewrite (bind_run _ _ _ _ _ E3). change (negb (NT_SUCCESS STATUS_SUCCESS)) with false. cbn iota.
  pose proof P2 as [Ep2 _ Ed2 _]. rewrite (bind_run _ _ _ _ _ (change_driver_run t2 p o' D _ Ep2 Ed2)).
  rewrite Lc. change (s32 (loadcount entered_driver + 1)) with 1. set (t3 := set_drivers _ t2).
  rewrite (bind_run _ _ _ _ _ (driver_at_run t3 p o' (set_loadcount 1 D) Ep2 (lookup_insert_eq _ _ _))).
  change (AddDevice (set_loadcount 1 D)) with (AddDevice D). rewrite La. change (AddDevice entered_driver) with 0.
  cbn [Z.eqb negb]. by rewrite (bind_run _ _ t3 0 t3).
Qed.

End first.

(** ** A table of counts *)

Definition same_driver_name (a b : list Z) : bool := same_text (driver_path a) (driver_path b).

(** What the name list says of a driver's count. *)
Definition tabled (T : list Z -> Z) (s : dsys) (d : directory) : Prop := forall n, driver_name n ->
  match dlookup d (driver_path n) with
  | None => T n = 0
  | Some x => exists D o ds, loaded s x.2 D o ds /\ T n = loadcount D /\ same_driver_name n (DriverName D) = true
  end.

(** [T n]: how often the driver [n] has been loaded and not unloaded. *)
Record counted (T : list Z -> Z) (s : dsys) : Prop := {
  ct_sane : sane s;
  ct_names : exists d, names_as d (heap s) /\ distinct d /\ tabled T s d
}.

Lemma same_text_trans a b c : same_text a b = true -> same_text b c = true -> same_text a c = true.
Proof. unfold same_text. rewrite !bool_decide_eq_true. congruence. Qed.

Lemma same_text_sym a b : same_text a b = same_text b a.
Proof. unfold same_text. apply bool_decide_ext. split; congruence. Qed.

Lemma dlookup_same d a b : same_text a b = true -> dlookup d a = dlookup d b.
Proof.
  intros E. induction d as [| x d IH]; [done |]. simpl. rewrite IH. unfold same_text in *.
  apply bool_decide_eq_true in E. by rewrite E.
Qed.

(** Another driver is where it was after a change to one. *)
Lemma loaded_other (s s' : dsys) q D o ds : loaded s q D o ds ->
  objects (heap s') !! q = objects (heap s) !! q -> drivers s' !! q = drivers s !! q ->
  client (heap s') q = client (heap s) q -> loaded s' q D o ds.
Proof. intros [[P1 P2 P3 P4] L1 L2] Eo Ed Ec. split; [split; by rewrite ?Eo, ?Ed | done | by rewrite Ec]. Qed.

(** The count of a driver's object is changed by its loads alone. *)
Lemma recount k p o ds n : kinv k -> objects k !! p = Some o -> contents o = Driver 0 ds -> 0 < refcount o ->
  refs k p <= n < 2 ^ 31 -> 0 < n ->
  let k' := put_at k p (with_count o n) in
  kinv k' /\ forall q, client k' q = client k q + (if decide (q = p) then n - refcount o else 0).
Proof.
  intros I Ep Ec Hp Hn H0n k'.
  assert (similar o (with_count o n)) as Si by by apply similar_count.
  split; [apply (kinv_put k p o); simpl; try done; lia |]. intros q. unfold k'.
  rewrite (client_put k p o) by done. simpl.
  rewrite (one_no (opens q o /\ _)) by (intros [[Hx _] _]; congruence). by destruct (objects k !! q); lia.
Qed.

(** The table with the count of one name changed. *)
Definition with_driver (T : list Z -> Z) (n : list Z) (c : Z) : list Z -> Z :=
  fun n' => if same_driver_name n' n then c else T n'.

(** Two names of one driver are the same name. *)
Lemma one_driver s n n' p D o ds D' o' ds' : loaded s p D o ds -> loaded s p D' o' ds' ->
  same_driver_name n (DriverName D) = true -> same_driver_name n' (DriverName D') = true -> same_driver_name n' n = true.
Proof.
  intros [P _ _] [P' _ _] Hn Hn'. pose proof (pr_driver _ _ _ _ _ P). pose proof (pr_driver _ _ _ _ _ P').
  assert (D' = D) as -> by congruence. apply (same_text_trans _ (driver_path (DriverName D))); [done |].
  by rewrite same_text_sym.
Qed.

Lemma counted_change T s n d x D o ds c : sane s -> names_as d (heap s) -> distinct d -> room 4 (heap s) ->
  tabled T s d ->
  dlookup d (driver_path n) = Some x -> loaded s x.2 D o ds -> same_driver_name n (DriverName D) = true ->
  1 <= c < 2 ^ 30 -> c <= loadcount D + 1 ->
  counted (with_driver T n c) (set_drivers <[x.2 := set_loadcount c D]>
    (set_heap (put_at (heap s) x.2 (with_count o (refcount o + (c - loadcount D)))) s)).
Proof.
  intros S Nd Dd Rm Tb Ex L Sn Hc Hc1. pose proof L as [[Ep Ec Ed Eo] Lc Lk]. pose proof S as [I Irql Rd].
  pose proof (Rm x.2 o Ep) as Ho. pose proof (refs_nonneg (heap s) x.2). unfold client in Lk. rewrite Ep in Lk.
  set (o' := with_count o (refcount o + (c - loadcount D))).
  destruct (recount (heap s) x.2 o ds (refcount o + (c - loadcount D)) I Ep Ec) as [I' C']; [lia.. |]. fold o' in I', C'.
  set (s' := set_drivers _ _). assert (heap s' = put_at (heap s) x.2 o') as Eh by done.
  split; [by split |]. exists d. split; [done |]. split; [done |]. intros n' N'. specialize (Tb n' N'). unfold with_driver.
  destruct (same_driver_name n' n) eqn:Es.
  - rewrite (dlookup_same d _ _ Es), Ex. exists (set_loadcount c D), o', ds. split; [| split; [done |]].
    + split; [split | done |].
      * apply lookup_insert_eq.
      * done.
      * apply lookup_insert_eq.
      * done.
      * rewrite Eh, C'. rewrite decide_True by done. unfold client. rewrite Ep. simpl. lia.
    + by apply (same_text_trans _ (driver_path n)).
  - destruct (dlookup d (driver_path n')) as [x' |] eqn:Ex'; [| done].
    destruct Tb as (D' & o1 & ds' & L' & Ht & Hs). exists D', o1, ds'. split; [| done].
    assert (x'.2 <> x.2) as Nx.
    { intros Exx. rewrite Exx in L'. by rewrite (one_driver s n n' x.2 D o ds D' o1 ds' L L' Sn Hs) in Es. }
    apply (loaded_other s s'); [done | simpl; by rewrite lookup_insert_ne | simpl; by rewrite lookup_insert_ne |].
    rewrite Eh, C'. rewrite decide_False by done. lia.
Qed.

(** A lock more or less is no matter. *)
Lemma tabled_lock T f s d : tabled T s d -> tabled T (set_lock f s) d.
Proof.
  intros Tb n N. specialize (Tb n N). destruct (dlookup d (driver_path n)) as [x |]; [| done].
  destruct Tb as (D & o & ds & [[P1 P2 P3 P4] L1 L2] & Ht & Hs). by exists D, o, ds.
Qed.

Lemma sane_lock f s : sane s -> sane (set_lock f s).
Proof. by intros [S1 S2 S3]. Qed.

Lemma counted_lock T f s : counted T s -> counted T (set_lock f s).
Proof.
  intros [S (d & Nd & Dd & Tb)]. split; [by apply sane_lock |]. exists d. split; [done |]. split; [done |]. by apply tabled_lock.
Qed.

(** What a routine leaves of a driver that is loaded. *)
Lemma served_loaded s s' q D o ds : served s s' -> loaded s q D o ds ->
  exists D' o' ds', loaded s' q D' o' ds' /\ loadcount D' = loadcount D /\ DriverName D' = DriverName D.
Proof.
  intros Sv [P Lc Lk]. destruct (sv_present _ _ Sv q D o ds P) as (D' & o' & ds' & P' & Hc & Hn & _ & Hk).
  exists D', o', ds'. split; [| done]. split; [done | by rewrite Hc | by rewrite Hk, Hc].
Qed.

Lemma distinct_cons d cs p : distinct d -> dlookup d cs = None -> distinct ((cs, p) :: d).
Proof.
  intros Dd Hn. apply NoDup_cons. split; [| done]. simpl. clear Dd. induction d as [| x d IH]; [by intros ?%not_elem_of_nil |].
  simpl in Hn. destruct (same_text cs x.1) eqn:Es; [done |]. simpl. intros [E | Hin]%elem_of_cons; [| by apply IH].
  unfold same_text in Es. by apply bool_decide_eq_false in Es.
Qed.

(** Where the entry routine of a new driver is run: the driver is in the name list, its
    record is filled in, and its keys have been created in the registry of before. *)
Record entry_state (s : dsys) (d : directory) (m : memory_for) (n : list Z) (Init p : Z) (u : dsys) : Prop := {
  es_lock : load_lock u = load_lock s;
  es_names : names_as ((driver_path n, p) :: d) (heap u);
  es_objects : objects (heap u) = <[p := new_driver 2]> (objects (heap s));
  es_drivers : drivers u = <[p := entered_driver n Init]> (drivers s);
  es_keys : exists t, win (reg t) = win (reg s) /\ keys_created n m t u
}.

Lemma after_entry_counted T s d n p Init m u t2 D o ds :
  names_as d (heap s) -> distinct d -> tabled T s d -> driver_name n -> dlookup d (driver_path n) = None ->
  objects (heap s) !! p = None -> entry_state s d m n Init p u ->
  (forall b, b <> p -> client (heap u) b = client (heap s) b) ->
  served u t2 -> present t2 p D o ds -> DriverName D = n -> client (heap t2) p = 1 ->
  load_lock (set_drivers <[p := set_loadcount 1 D]> t2) = load_lock s /\
  counted (with_driver T n 1) (set_drivers <[p := set_loadcount 1 D]> t2).
Proof.
  intros Nd Dd Tb N Ex Hn [L1 Nu Ou Du _] Cu Sv P2 Dn C3. split; [simpl; by rewrite (sv_lock _ _ Sv), L1 |].
  set (t3 := set_drivers _ t2). assert (sane t3) as S3 by by destruct (sv_sane _ _ Sv).
  split; [done |]. destruct (sv_names _ _ Sv ((driver_path n, p) :: d)) as (d' & Nd' & Dd' & Ed').
  { done. }
  { by apply distinct_cons. }
  exists d'. split; [done |]. split; [done |]. intros n' N'. rewrite (Ed' n' N'). specialize (Tb n' N').
  unfold with_driver. cbn [dlookup fst]. change (same_text (driver_path n') (driver_path n)) with (same_driver_name n' n).
  destruct (same_driver_name n' n) eqn:Es.
  - exists (set_loadcount 1 D), o, ds. split; [| split; [done |]].
    + pose proof P2 as [Q1 Q2 Q3 Q4]. split; [split | simpl; lia | exact C3]; try done. apply lookup_insert_eq.
    + unfold same_driver_name. simpl. by rewrite Dn.
  - destruct (dlookup d (driver_path n')) as [x |]; [| done]. destruct Tb as (D' & o' & ds' & Lx & Ht & Hs).
    assert (x.2 <> p) as Nx by (intros E; pose proof (pr_at _ _ _ _ _ (lo_present _ _ _ _ _ Lx)); congruence).
    assert (loaded u x.2 D' o' ds') as Lx1.
    { apply (loaded_other s); [done | rewrite Ou; by rewrite lookup_insert_ne | by rewrite Du, lookup_insert_ne |].
      by apply Cu. }
    destruct (served_loaded _ _ _ _ _ _ Sv Lx1) as (D'' & o'' & ds'' & L2 & Hc & Hd). exists D'', o'', ds''.
    split; [| by rewrite Hc, Hd]. apply (loaded_other t2); try done. simpl. by rewrite lookup_insert_ne.
Qed.

Lemma create_counted T s d n p a Init m :
  sane s -> names_as d (heap s) -> distinct d ->
  tabled T s d ->
  driver_name n -> dlookup d (driver_path n) = None -> fresh_public (heap s) p -> a ∉ (addr <$> DdkNameList (heap s)) ->
  for_driver m = Some p -> for_name m = Some a -> Init <> 0 -> Init <> pnp_entry ->
  exists u rc t D, entry_state s d m n Init p u /\
    entry_routine Init (p + sizeof_OBJECT) (services_path n) u = Ok (rc, t) /\ drivers t !! p = Some D /\
    DdkCreateDriver malloc m n Init 0 s = after_entry p rc t D /\
    let s' := set_drivers <[p := set_loadcount 1 D]> t in
    load_lock s' = load_lock s /\ counted (with_driver T n 1) s'.
Proof.
  intros S Nd Dd Tb N Ex F Fa Mp Ma Hi Np. pose proof S as [I Irql Rd].
  destruct (create_driver_run s d n p a Init m S Nd N F Fa Mp Ma Hi Ex) as (nm & E2 & I2 & Nd2 & C2).
  set (k := entered s p a nm) in *. set (t := set_heap k (set_drivers <[p := blank_driver n Init]> s)) in *.
  destruct (fp_fresh _ _ F) as (Hp & Hn & _).
  assert (present t p (blank_driver n Init) (new_driver 2) []) as Pt by (split; try done; apply lookup_insert_eq).
  assert (client (heap t) p = 1) as Ct by (change (heap t) with k; rewrite C2, one_yes by done; unfold client; by rewrite Hn).
  destruct (start_driver_run n p Init m Np t (new_driver 2) ltac:(by split) Pt Ct)
    as (u & rc & t2 & D & o & ds & K & Su & Hu & Du & Lu & Et & Sv & P2 & Dn & Dc & C3 & E3).
  assert (entry_state s d m n Init p u) as Es.
  { split; [by rewrite Lu | by rewrite Hu | by rewrite Hu | |].
    - rewrite Du. simpl. by rewrite insert_insert_eq.
    - by exists (set_drivers <[p := entered_driver n Init]> t). }
  exists u, rc, t2, D. split; [done |]. split; [done |]. split; [apply (pr_driver _ _ _ _ _ P2) |].
  split; [by rewrite E2, E3 |]. apply (after_entry_counted T s d n p Init m u t2 D o ds); try done.
  intros b Hb. rewrite Hu. change (heap t) with k. rewrite C2, one_no by done. lia.
Qed.

(** C30. Loading a driver that is linked with its test, and is not a plug and play driver.

    A driver that has been loaded is given one more reference, adds one to its count and
    to no other, whatever the case of the letters of its name, and is not entered again.
    Otherwise the driver is made, its entry routine is run once, under the lock, with
    the path of its key, where the driver has its name, its record and its registry
    keys; and when that has succeeded the system is what the routine has left, with the
    count 1.  A routine that fails ends the test. *)
Theorem DdkInitDriver_spec T s n Init m
  (C : counted T s) (Rm : room 4 (heap s)) (N : driver_name n) (Ht : T n < 2 ^ 30 - 1)
  (Hi : Init <> 0 /\ Init <> pnp_entry)
  (Hm : T n = 0 -> exists p a, for_driver m = Some p /\ for_name m = Some a /\ fresh_public (heap s) p /\
    a ∉ (addr <$> DdkNameList (heap s))) :
  (T n <> 0 -> exists p D o ds, loaded s p D o ds /\ same_driver_name n (DriverName D) = true /\
    let s' := set_drivers <[p := set_loadcount (loadcount D + 1) D]>
      (set_heap (put_at (heap s) p (with_count o (refcount o + 1))) s) in
    DdkInitDriver malloc m n Init s = Ok (STATUS_SUCCESS, s') /\ counted (with_driver T n (T n + 1)) s') /\
  (T n = 0 -> exists p d u rc t D, for_driver m = Some p /\ names_as d (heap s) /\
    entry_state (set_lock (fun k => k + 1) s) d m n Init p u /\
    entry_routine Init (p + sizeof_OBJECT) (services_path n) u = Ok (rc, t) /\ drivers t !! p = Some D /\
    if rc =? STATUS_SUCCESS then
      let s' := set_lock (fun k => k - 1) (set_drivers <[p := set_loadcount 1 D]> t) in
      DdkInitDriver malloc m n Init s = Ok (STATUS_SUCCESS, s') /\ load_lock s' = load_lock s /\
      counted (with_driver T n 1) s'
    else DdkInitDriver malloc m n Init s = Err (DdkFailed "DriverEntry failed")).
Proof.
  destruct C as [S (d & Nd & Dd & Tb)]. pose proof S as [I Irql Rd]. pose proof (Tb n N) as Tn.
  destruct (dlookup d (driver_path n)) as [x |] eqn:Ex.
  - destruct Tn as (D & o & ds & L & Tn & Sn). pose proof (lo_count _ _ _ _ _ L). split; [| lia]. intros _.
    exists x.2, D, o, ds. split; [done |]. split; [done |]. cbv zeta.
    split; [by apply (init_again malloc pool s d n I Irql Nd Rm N m Init x D o ds Ex L) |].
    rewrite Tn. pose proof (counted_change T s n d x D o ds (loadcount D + 1) S Nd Dd Rm Tb Ex L Sn ltac:(lia) ltac:(lia)) as Cc.
    by replace (refcount o + (loadcount D + 1 - loadcount D)) with (refcount o + 1) in Cc by lia.
  - split; [done |]. intros _. destruct (Hm Tn) as (p & a & Mp & Ma & F & Fa). destruct Hi as [Hi Np].
    set (s1 := set_lock (fun n => n + 1) s).
    destruct (create_counted T s1 d n p a Init m (sane_lock _ s S) Nd Dd (tabled_lock T _ s d Tb) N Ex F Fa Mp Ma Hi Np)
      as (u & rc & t & D & Es & Et & Ed & E2 & L2 & C2).
    exists p, d, u, rc, t, D. do 5 (split; [done |]).
    assert (on_kern (DdkLookupNameA malloc n (Some (wide "\Driver"))) s1 = Ok (0, s1)) as E1.
    { apply on_kern_same. change (heap s1) with (heap s).
      by rewrite (lookup_driver malloc pool n _ d N I Irql Nd (room_less 4 1 _ ltac:(lia) Rm)), Ex. }
    unfold DdkInitDriver. rewrite (bind_run _ _ s tt s1) by done. rewrite (bind_run _ _ _ _ _ E1).
    change (negb (0 =? 0)) with false. cbn iota. unfold after_entry in E2. destruct (rc =? STATUS_SUCCESS).
    + rewrite (bind_run _ _ _ _ _ E2). split; [done |]. cbv zeta in *.
      split; [simpl in *; rewrite L2; simpl; lia | by apply counted_lock].
    + unfold mbind, M_bind. by rewrite E2.
Qed.

End spec.
