(* ===== verification/DriverUnloads.v ===== *)
(** * DriverUnloads: the last unload of a driver *)

From S2P Require Import Prelude Strings StringsOps StringsSpec Objects Names NamesPath.
From S2P Require Import ObjectsInv ObjectsSpec NamesSpec SymlinkSpec ResolveSpec.
From S2P Require Import Memory Registry RegistryQuery RegistrySpec.
From S2P Require Device.
From S2P Require Import DeviceObjects Driver DriverSpec DriverLoads DriverCounts.

Section spec.
Context `{Environment} `{Locale} `{LL : !LocaleLaws} `{WINREG} `{!WINREG_Laws} `{QUERY_ROUTINES} `{!DRIVER_ROUTINES}.
Context (malloc : Z -> option (list Z)).
Context (pool : forall n, 0 <= n -> exists m, malloc n = Some m /\ Z.of_nat (length m) = n).
Context (unload_law : forall f x s, sane s -> exists s', unload_routine f x s = Ok (tt, s') /\ served s s').

Lemma bind_after {St A B C} (m : M St A) (f : A -> M St B) (g : B -> M St C) s :
  (b ← (a ← m; f a); g b) s = (a ← m; b ← f a; g b) s.
Proof. unfold mbind, M_bind. by destruct (m s) as [[]|]. Qed.

Lemma bind_ext {St A B} (m : M St A) (f g : A -> M St B) s : (forall a t, f a t = g a t) -> (m ≫= f) s = (m ≫= g) s.
Proof. intros E. unfold mbind, M_bind. by destruct (m s) as [[]|]. Qed.

(** The routine of the driver, if it has one. *)
Definition leave (p : Z) : D unit :=
  d ← driver_at p;
  if negb (DriverUnload d =? 0) then call_unload (DriverUnload d) (p + sizeof_OBJECT) else mret tt.

Section last.
Context (s : dsys) (d : directory) (n : list Z) (x : list Z * Z) (D : DRIVER) (o : OBJECT) (ds : list Z) (fuel : nat).
Context (S : sane s) (Nd : names_as d (heap s)) (Rm : room 4 (heap s)) (N : driver_name n).
Context (Ex : dlookup d (driver_path n) = Some x) (L : loaded s x.2 D o ds) (One : loadcount D = 1).

(** The driver is taken apart in this state. *)
Definition last_state : dsys := set_drivers <[x.2 := set_loadcount 0 D]>
  (set_heap (put_at (heap s) x.2 (with_count o (refcount o + 1))) (set_lock (fun n => n + 1) s)).

Lemma last_present : present last_state x.2 (set_loadcount 0 D) (with_count o (refcount o + 1)) ds.
Proof. destruct L as [[Ep Ec Ed Eo] _ _]. split; try done; apply lookup_insert_eq. Qed.

Lemma last_sane : sane last_state /\ forall q, client (heap last_state) q = client (heap s) q + one (q = x.2).
Proof.
  destruct S as [I Irql Rd]. destruct L as [[Ep Ec Ed Eo] Lc Lk]. pose proof (Rm x.2 o Ep). pose proof (refs_nonneg (heap s) x.2).
  unfold client in Lk. rewrite Ep in Lk.
  destruct (recount (heap s) x.2 o ds (refcount o + 1) I Ep Ec) as [I' C']; [lia.. |]. split; [by split |].
  intros q. change (heap last_state) with (put_at (heap s) x.2 (with_count o (refcount o + 1))). rewrite C'.
  unfold one. destruct (decide (q = x.2)); lia.
Qed.

Lemma last_legacy : legacy s x.2 ds -> legacy last_state x.2 ds.
Proof.
  intros [Lm Ld]. split; [done |]. intros y Hy. destruct (Ld y Hy) as (Ny & Hv & (oy & Ey & Cy & Hc)).
  split; [done |]. split; [done |]. exists oy. split; [| done]. simpl. rewrite lookup_insert_ne; [done |].
  intros E. destruct L as [[Ep Ec _ _] _ _]. rewrite E in Ep. congruence.
Qed.

Lemma last_run : legacy s x.2 ds -> (length ds < fuel)%nat ->
  DdkUnloadDriver malloc fuel n s = (_ ← leave x.2; finish_unload x.2) last_state.
Proof.
  intros Lg Hf. destruct S as [I Irql Rd]. pose proof (lo_present _ _ _ _ _ L) as Pr.
  pose proof (present_type s x.2 D o ds I Pr) as [Ht Hp]. destruct Pr as [Ep Ec Ed _].
  unfold DdkUnloadDriver. set (s1 := set_lock (fun n => n + 1) s). rewrite (bind_run _ _ s tt s1) by done.
  set (o1 := with_count o (refcount o + 1)). set (k1 := put_at (heap s) x.2 o1).
  assert (on_kern (DdkLookupNameA malloc n (Some (wide "\Driver"))) s1 = Ok (x.2, set_heap k1 s1)) as E1.
  { apply on_kern_still; [| done]. change (heap s1) with (heap s).
    rewrite (lookup_driver malloc pool n _ d N I Irql Nd (room_less 4 1 _ ltac:(lia) Rm)), Ex. by rewrite (referenced_at _ _ o Ep). }
  rewrite (bind_run _ _ _ _ _ E1). destruct (Z.eqb_spec x.2 0); [lia |].
  set (s2 := set_heap k1 s1). assert (objects (heap s2) !! x.2 = Some o1) as Ep1 by apply lookup_insert_eq.
  rewrite (bind_run _ _ _ _ _ (get_driver_run s2 x.2 o1 Hp Ep1 Ht)).
  rewrite (bind_run _ _ _ _ _ (driver_at_run s2 x.2 o1 D Ep1 Ed)). rewrite One. change (1 =? 0) with false. cbn iota.
  rewrite (bind_run _ _ s2 true last_state).
  2: { by rewrite (bind_run _ _ _ _ _ (change_driver_run s2 x.2 o1 D _ Ep1 Ed)). }
  cbn iota. etransitivity; [apply bind_after |]. destruct last_sane as [[I1 Irql1 _] _]. pose proof last_present as [Ep2 Ec2 _ _].
  rewrite (bind_run _ _ _ _ _ (pnp_unload_legacy last_state x.2 _ ds fuel I1 Irql1 Ep2 Ec2 (last_legacy Lg) Hf)).
  unfold leave. etransitivity; [apply bind_after |]. etransitivity; [| symmetry; apply bind_after]. apply bind_ext. intros d' t.
  etransitivity; [apply bind_after |]. apply bind_ext. intros [] t1. unfold finish_unload.
  etransitivity; [apply bind_after |]. apply bind_ext. intros [] t2.
  etransitivity; [apply bind_after |]. apply bind_ext. by intros ok t3.
Qed.

(** After the routine: the driver is as it was, but for its devices. *)
Lemma leave_run : exists t D' o' ds', leave x.2 last_state = Ok (tt, t) /\ served last_state t /\
  present t x.2 D' o' ds' /\ client (heap t) x.2 = 2 /\
  (if DriverUnload D =? 0 then ds' = ds else call_unload (DriverUnload D) (x.2 + sizeof_OBJECT) last_state = Ok (tt, t)).
Proof.
  destruct last_sane as [Sl Cl]. pose proof last_present as Pl.
  assert (client (heap last_state) x.2 = 2) as C2.
  { rewrite Cl, one_yes by done. rewrite (lo_client _ _ _ _ _ L). lia. }
  unfold leave. rewrite (bind_run _ _ _ _ _ (driver_at_run _ _ _ _ (pr_at _ _ _ _ _ Pl) (pr_driver _ _ _ _ _ Pl))).
  change (DriverUnload (set_loadcount 0 D)) with (DriverUnload D). destruct (DriverUnload D =? 0); cbn [negb].
  - exists last_state, (set_loadcount 0 D), (with_count o (refcount o + 1)), ds. split; [done |].
    split; [by apply served_ext | done].
  - destruct (call_unload_run unload_law (DriverUnload D) (x.2 + sizeof_OBJECT) last_state Sl) as (t & E & Sv).
    destruct (sv_present _ _ Sv x.2 _ _ _ Pl) as (D' & o' & ds' & P' & _ & _ & _ & C'). exists t, D', o', ds'.
    by rewrite C'.
Qed.

End last.

Lemma tabled_none T s d n : tabled T s d -> dlookup d (driver_path n) = None -> tabled (with_driver T n 0) s d.
Proof.
  intros Tb Hn n' N'. specialize (Tb n' N'). unfold with_driver. destruct (same_driver_name n' n) eqn:Es; [| done].
  by rewrite (dlookup_same d _ _ Es), Hn in *.
Qed.

(** The table after the last unload. *)
Lemma last_counted T s d n x D o ds t D' o' ds' :
  sane s -> names_as d (heap s) -> distinct d -> room 4 (heap s) -> tabled T s d -> dlookup d (driver_path n) = Some x ->
  loaded s x.2 D o ds -> loadcount D = 1 -> same_driver_name n (DriverName D) = true ->
  served (last_state s x D o) t -> present t x.2 D' o' ds' -> client (heap t) x.2 = 2 -> ds' = [] ->
  finish_unload x.2 t = Ok (tt, set_lock (fun n => n - 1) (set_heap (gone (heap t) x.2) t)) /\
  counted (with_driver T n 0) (set_lock (fun n => n - 1) (set_heap (gone (heap t) x.2) t)).
Proof.
  intros S Nd Dd Rm Tb Ex L One Sn Sv P2 C2 E0.
  destruct (finish_ok t x.2 D' o' ds' (sv_sane _ _ Sv) P2 C2 E0) as (E & Ig & Cg). split; [done |].
  destruct (last_sane s x D o ds S Rm L One) as [Sl Cl].
  destruct (sv_names _ _ Sv d Nd Dd) as (d' & Nd' & Dd' & Ed'). destruct (sv_sane _ _ Sv) as [I2 Irql2 Rd2].
  apply counted_lock. split; [by split |]. exists (filter (fun y => y.2 <> x.2) d'). split; [by apply (names_filter x.2 (heap t)) |].
  split; [by apply distinct_filter |]. intros n' N'. rewrite (dlookup_filter d' _ _ Dd'), (Ed' n' N'). unfold with_driver.
  destruct (same_driver_name n' n) eqn:Es.
  - rewrite (dlookup_same d _ _ Es), Ex. by rewrite decide_True.
  - specialize (Tb n' N'). destruct (dlookup d (driver_path n')) as [x' |]; [| done].
    destruct Tb as (D1 & o1 & ds1 & L1 & Ht & Hs).
    assert (x'.2 <> x.2) as Nx.
    { intros Exx. rewrite Exx in L1. by rewrite (one_driver s n n' x.2 D o ds D1 o1 ds1 L L1 Sn Hs) in Es. }
    rewrite decide_False by done.
    assert (loaded (last_state s x D o) x'.2 D1 o1 ds1) as L2.
    { apply (loaded_other s); [done | simpl; by rewrite lookup_insert_ne | simpl; by rewrite lookup_insert_ne |].
      rewrite Cl, one_no by done. lia. }
    destruct (served_loaded _ _ _ _ _ _ Sv L2) as (D2 & o2 & ds2 & L3 & Hc & Hd). exists D2, o2, ds2.
    split; [| by rewrite Hc, Hd]. apply (loaded_other t); [done | simpl; by rewrite lookup_delete_ne | done | by apply Cg].
Qed.

(** ** Unloading *)

(** No device is left after the driver's routine. *)
Definition lets_go (p : Z) (D : DRIVER) (ds : list Z) : Prop :=
  if DriverUnload D =? 0 then ds = [] else
  forall t t' D' o' ds', call_unload (DriverUnload D) (p + sizeof_OBJECT) t = Ok (tt, t') -> present t' p D' o' ds' -> ds' = [].

(** C29. Unloading a driver: [DdkUnloadDriver] takes one from the count of that name,
    whatever the case of its letters, and from no other; a name that has no driver is
    left alone; and with the last load the driver itself goes - its devices by its own
    routine, then its names and its references - and its memory is freed.  It is about
    systems where no device of a loaded driver is attached to another ([legacy]):
    there [DdkPnpUnload] looks at the devices and removes none. *)
Theorem DdkUnloadDriver_spec T s n fuel
  (C : counted T s) (Rm : room 4 (heap s)) (N : driver_name n)
  (Lg : forall p D o ds, loaded s p D o ds -> legacy s p ds /\ (length ds < fuel)%nat /\ lets_go p D ds) :
  exists s', DdkUnloadDriver malloc fuel n s = Ok (tt, s') /\ load_lock s' = load_lock s /\
    counted (with_driver T n (Z.max 0 (T n - 1))) s' /\
    (T n = 1 -> exists p D o ds, loaded s p D o ds /\ same_driver_name n (DriverName D) = true /\ objects (heap s') !! p = None).
Proof.
  destruct C as [S (d & Nd & Dd & Tb)]. pose proof S as [I Irql Rd]. pose proof (Tb n N) as Tn.
  destruct (dlookup d (driver_path n)) as [x |] eqn:Ex.
  - destruct Tn as (D & o & ds & L & Tn & Sn). pose proof (lo_count _ _ _ _ _ L). destruct (Lg x.2 D o ds L) as (Lx & Hf & Go).
    destruct (Z.eqb_spec (loadcount D) 1) as [One | Many].
    + destruct (leave_run s x D o ds S Rm L One) as (t & D' & o' & ds' & El & Sv & P2 & C2 & Ho).
      assert (ds' = []) as E0.
      { unfold lets_go in Go. destruct (DriverUnload D =? 0); [congruence | by apply (Go _ _ _ _ _ Ho P2)]. }
      destruct (last_counted T s d n x D o ds t D' o' ds') as [Ef Cf]; try done.
      eexists. split; [rewrite (last_run s d n x D o ds fuel); try done; by rewrite (bind_run _ _ _ _ _ El) |].
      split; [simpl; rewrite (sv_lock _ _ Sv); simpl; lia |]. rewrite Tn, One. split; [done |]. intros _.
      exists x.2, D, o, ds. split; [done |]. split; [done |]. apply lookup_delete_eq.
    + rewrite (unload_more malloc pool s d n I Irql Nd Rm N fuel x D o ds Ex L) by lia. eexists. split; [done |].
      split; [done |]. split; [| lia]. rewrite Tn, Z.max_r by lia.
      pose proof (counted_change T s n d x D o ds (loadcount D - 1) S Nd Dd Rm Tb Ex L Sn ltac:(lia) ltac:(lia)) as Cc.
      by replace (refcount o + (loadcount D - 1 - loadcount D)) with (refcount o - 1) in Cc by lia.
  - rewrite (unload_none malloc pool s d n I Irql Nd Rm N fuel Ex). exists s. split; [done |]. split; [done |].
    rewrite Tn. split; [| lia]. split; [done |]. exists d. split; [done |]. split; [done |]. by apply tabled_none.
Qed.

(** A driver that has no unload routine but has devices cannot be unloaded: with its
    last load gone its devices still refer to it, and [DdkUnloadDriver] gives up. *)
Theorem DdkUnloadDriver_timeout T s n fuel p D o ds
  (C : counted T s) (Rm : room 4 (heap s)) (N : driver_name n) (L : loaded s p D o ds) (Lg : legacy s p ds)
  (Hf : (length ds < fuel)%nat) (Hn : exists d, names_as d (heap s) /\ option_map snd (dlookup d (driver_path n)) = Some p)
  (One : loadcount D = 1) (No : DriverUnload D = 0) (Ds : ds <> []) :
  DdkUnloadDriver malloc fuel n s = Err (DdkFailed "Timeout unloading driver").
Proof.
  destruct C as [S _]. destruct Hn as (d & Nd & Hx). destruct (dlookup d (driver_path n)) as [x |] eqn:Ex; [| done].
  injection Hx as <-. rewrite (last_run s d n x D o ds fuel) by done.
  destruct (leave_run s x D o ds S Rm L One) as (t & D' & o' & ds' & El & Sv & P2 & C2 & Ho). rewrite No in Ho. simpl in Ho. subst ds'.
  rewrite (bind_run _ _ _ _ _ El). by apply (finish_busy t x.2 D' o' ds (sv_sane _ _ Sv) P2 C2 Ds).
Qed.

End spec.
