(* ===== verification/DriverExamples.v ===== *)
(** * DriverExamples: a driver that is loaded, and the theorems on it *)

From S2P Require Import Prelude Strings StringsOps StringsSpec Objects Names NamesPath.
From S2P Require Import ObjectsInv ObjectsSpec NamesSpec SymlinkSpec ResolveSpec.
From S2P Require Import Memory Registry RegistryQuery RegistrySpec.
From S2P Require Device ObjectsExamples RegistryExamples.
From S2P Require Import DeviceObjects Driver DriverSpec DriverLoads DriverCounts DriverUnloads.

#[local] Existing Instances RegistryExamples.env RegistryExamples.model_registry RegistryExamples.model_registry_laws.
#[local] Existing Instance RegistryExamples.model_routines.
#[local] Instance locale : Locale := c_locale.
#[local] Instance locale_laws : LocaleLaws := c_locale_laws.

(** ** Devices *)

Section devices.
Import ObjectsExamples.
#[local] Existing Instances ObjectsExamples.env ObjectsExamples.locale ObjectsExamples.locale_laws.

Lemma demo_fresh_public : fresh_public demo 5000.
Proof. split; [apply demo_fresh | by vm_compute]. Qed.

Lemma demo_driver : driver_of demo 1000 (mkObject IoDriverType true 1 0 (Objects.Driver 77 [2016])) 77 [2016].
Proof. by split. Qed.

Lemma demo_room2 : room 2 demo.
Proof. apply (room_less 1002); [done | apply demo_room]. Qed.

Definition nameN : list Z := generated_name 1.

Lemma nameN_path n : (requested None FILE_AUTOGENERATED_DEVICE_NAME 0).1 = Some n -> path_of zeros (Some (wide "\Device")) n nameN.
Proof.
  intros [= <-]. split; try done; [apply zeros_ok | by apply plain_of | by apply plain_of].
Qed.

Lemma demo_entry : 600 ∉ (addr <$> DdkNameList demo).
Proof. apply (bool_decide_unpack _). by vm_compute. Qed.

(** A second device of the driver, with a name of its own. *)
Lemma IoCreateDevice_spec_witness :
  exists s', IoCreateDevice zeros (Some 5000) (Some 600) 0 1016 None FILE_AUTOGENERATED_DEVICE_NAME demo =
      Ok ((STATUS_SUCCESS, Some 5016, 1), s') /\
    device_created demo 5000 1000 77 [2016] s' ((nameN, 5000) :: demo_names).
Proof.
  pose proof (IoCreateDevice_spec zeros nameN demo 5000 600 1000 _ 77 [2016] demo_names None FILE_AUTOGENERATED_DEVICE_NAME 0
    demo_kinv eq_refl demo_named demo_room2 demo_fresh_public demo_driver demo_entry nameN_path) as W.
  exact W.
Defined.

Lemma device_roundtrip_witness :
  ('(status, device, _) ← IoCreateDevice zeros (Some 5000) (Some 600) 0 1016 None FILE_AUTOGENERATED_DEVICE_NAME;
   match device with
   | Some x => _ ← IoDeleteDevice x; mret status
   | None => mret status
   end) demo = Ok (STATUS_SUCCESS, log (Freed 5000) demo).
Proof.
  apply (device_roundtrip zeros nameN demo 5000 600 1000 _ 77 [2016] demo_names None FILE_AUTOGENERATED_DEVICE_NAME 0
    demo_kinv eq_refl demo_named demo_room2 demo_fresh_public demo_driver demo_entry).
  intros n E. split; [by apply nameN_path | done].
Defined.

End devices.

(** ** Drivers *)

Lemma plain_all cs : forallb (fun c => (0 <? c) && (c <? 2 ^ 16)) cs = true -> plain cs.
Proof. apply ObjectsExamples.plain_of. Qed.

(** Routines that do nothing; the entry routine at 7009 fails. *)
#[local] Instance idle : DRIVER_ROUTINES := {|
  entry_routine f x path s := Ok (if f =? 7009 then STATUS_INSUFFICIENT_RESOURCES else STATUS_SUCCESS, s);
  unload_routine f x s := Ok (tt, s);
  add_device_routine f x d s := Ok (STATUS_SUCCESS, s);
  pnp_request d r s := Ok (STATUS_SUCCESS, s);
  default_dispatch := 101;
  pnp_entry := 102;
  pnp_unload := 103;
  pnp_dispatch := 104
|}.

Lemma idle_entry f x path s : sane s -> exists rc s', entry_routine f x path s = Ok (rc, s') /\ served s s'.
Proof. intros S. exists (if f =? 7009 then STATUS_INSUFFICIENT_RESOURCES else STATUS_SUCCESS), s. split; [done | by apply served_ext]. Qed.

Lemma idle_unload f x s : sane s -> exists s', unload_routine f x s = Ok (tt, s') /\ served s s'.
Proof. intros S. exists s. split; [done | by apply served_ext]. Qed.

Definition foo : list Z := wide "Foo".
Definition FOO : list Z := wide "FOO".
Definition bar : list Z := wide "Bar".

(** The driver [Foo] at 1000, loaded [n] times, and a device of it at 2000 or none. *)
Definition driver_object (n : Z) (ds : list Z) : OBJECT := mkObject IoDriverType true n 0 (Objects.Driver 0 ds).
Definition device_object : OBJECT := mkObject IoDeviceType true 1 0 (Objects.Device 1016).
Definition foo_names : list NAME := [mkName 500 1000 (ObjectsExamples.str (driver_path foo))].
Definition foo_directory : directory := [(driver_path foo, 1000)].

Definition plain_heap : kernel := mkKernel {[1000 := driver_object 2 []]} foo_names PASSIVE_LEVEL [].
Definition busy_heap : kernel :=
  mkKernel (list_to_map [(1000, driver_object 3 [2016]); (2000, device_object)]) foo_names PASSIVE_LEVEL [].

Definition foo_driver : DRIVER := mkDriver 7001 0 0 [] 1 foo.

Definition system_of (k : kernel) : dsys :=
  mkSys (set_kern k RegistryExamples.start) {[1000 := foo_driver]} {[2016 := Device.mkDev 1 0 0 0]} (-1) 0 0 [].

Definition foo_once : list Z -> Z := fun n => if same_driver_name n foo then 1 else 0.

Lemma name_of n : forallb (fun c => (0 <? c) && (c <? 128) && negb (c =? BACKSLASH)) n = true -> n <> [] ->
  Z.of_nat (length n) <= 200 -> driver_name n.
Proof.
  intros Hf N0 Nl. rewrite forallb_forall in Hf.
  assert (forall c, c ∈ n -> 0 < c < 128 /\ c <> BACKSLASH) as Hc.
  { intros c Hc%list_elem_of_In%Hf. lia. }
  split; try done.
  - apply plain_all, forallb_forall. intros c Hi%list_elem_of_In%Hc. lia.
  - destruct n as [| c n]; [done |]. apply (Hc c). by left.
  - apply Forall_forall. intros c Hi%Hc. simpl. case_match; [done | lia].
Qed.

Lemma foo_name : driver_name FOO.
Proof. by apply name_of. Qed.

Lemma bar_name : driver_name bar.
Proof. by apply name_of. Qed.

Lemma plain_cases p o : objects plain_heap !! p = Some o -> p = 1000 /\ o = driver_object 2 [].
Proof. intros E. unfold plain_heap in E. cbn [objects] in E. by apply lookup_singleton_Some in E as [<- <-]. Qed.

Lemma plain_kinv : kinv plain_heap.
Proof.
  split.
  - intros p o [-> ->]%plain_cases. split; try done; simpl contents; try (by intros ? ?); try (by vm_compute).
    intros i ds [= <- <-]. split; [apply NoDup_nil_2 | by intros d ?%not_elem_of_nil].
  - apply NoDup_singleton.
  - intros e ->%list_elem_of_singleton. by eexists.
Qed.

Lemma busy_cases p o : objects busy_heap !! p = Some o ->
  (p = 1000 /\ o = driver_object 3 [2016]) \/ (p = 2000 /\ o = device_object).
Proof.
  intros E. apply elem_of_list_to_map_2 in E. rewrite !elem_of_cons, elem_of_nil in E.
  destruct E as [[= -> ->] | [[= -> ->] | []]]; tauto.
Qed.

Lemma busy_kinv : kinv busy_heap.
Proof.
  split.
  - intros p o Ep. destruct (busy_cases p o Ep) as [[-> ->] | [-> ->]].
    all: split; try done; simpl contents; try (by intros ? ?); try (by vm_compute).
    + intros i ds [= <- <-]. split; [apply NoDup_singleton |]. intros d ->%list_elem_of_singleton. by exists device_object.
    + intros drv [= <-] _. exists 1000. split; [done |]. exists (driver_object 3 [2016]), 0, [2016].
      split; [done |]. split; [done | by left].
  - apply NoDup_singleton.
  - intros e ->%list_elem_of_singleton. by eexists.
Qed.

Lemma foo_named k : DdkNameList k = foo_names -> names_as foo_directory k.
Proof.
  intros E. unfold names_as. rewrite E. constructor; [| constructor]. split; [| by split; [apply plain_all |]].
  by apply ObjectsExamples.holds_str, plain_all.
Qed.

Section foo.
Context (k : kernel) (n : Z) (ds : list Z).
Context (I : kinv k) (Irql : CurrentIrql k = 0) (Nk : DdkNameList k = foo_names).
Context (Ek : objects k !! 1000 = Some (driver_object n ds)) (Ck : client k 1000 = 1).

Lemma foo_sane : sane (system_of k).
Proof. split; [done | done |]. split; [| done]. unfold is_open. simpl. set_solver. Qed.

Lemma foo_loaded : loaded (system_of k) 1000 foo_driver (driver_object n ds) ds.
Proof. split; [by split | done | done]. Qed.

Lemma only_foo p D o es : loaded (system_of k) p D o es -> p = 1000 /\ D = foo_driver /\ es = ds.
Proof.
  intros [[Ep Ec Ed _] _ _]. unfold system_of in Ed. cbn [drivers] in Ed. apply lookup_singleton_Some in Ed as [<- <-]. change (heap (system_of k)) with k in Ep.
  assert (o = driver_object n ds) as -> by congruence. by injection Ec as <-.
Qed.

Lemma foo_counted : counted foo_once (system_of k).
Proof.
  split; [apply foo_sane |]. exists foo_directory. split; [by apply foo_named |].
  split; [by apply NoDup_singleton |]. intros m _. unfold foo_directory, foo_once, same_driver_name. cbn [dlookup fst].
  destruct (same_text (driver_path m) (driver_path foo)) eqn:E; [| done].
  exists foo_driver, (driver_object n ds), ds. split; [apply foo_loaded | done].
Qed.

End foo.

Lemma plain_room : room 4 plain_heap.
Proof. by intros p o [-> ->]%plain_cases. Qed.

Lemma busy_room : room 4 busy_heap.
Proof. intros p o Ep. by destruct (busy_cases p o Ep) as [[-> ->] | [-> ->]]. Qed.

Definition for_bar : memory_for := mkMemory (Some 3000) (Some 600) None None true true.

Lemma bar_fresh : fresh_public plain_heap 3000.
Proof.
  split; [| by vm_compute]. split; [done |]. split; [done |].
  intros q o Eq. by destruct (plain_cases q o Eq) as [-> ->].
Qed.

Lemma bar_memory : foo_once bar = 0 -> exists p a, for_driver for_bar = Some p /\ for_name for_bar = Some a /\
  fresh_public (heap (system_of plain_heap)) p /\ a ∉ (addr <$> DdkNameList (heap (system_of plain_heap))).
Proof.
  intros _. exists 3000, 600. split; [done |]. split; [done |]. split; [apply bar_fresh |]. by apply (bool_decide_unpack _).
Qed.

Lemma plain_counted : counted foo_once (system_of plain_heap).
Proof. by apply (foo_counted plain_heap 2 []); [apply plain_kinv | ..]. Qed.

Lemma busy_counted : counted foo_once (system_of busy_heap).
Proof. by apply (foo_counted busy_heap 3 [2016]); [apply busy_kinv | ..]. Qed.

(** [Bar] is new: its entry routine is run and it is loaded once, or ends the test. *)
Lemma DdkInitDriver_spec_witness : foo_once bar = 0 /\
  (exists s', DdkInitDriver zeros for_bar bar 7002 (system_of plain_heap) = Ok (STATUS_SUCCESS, s') /\
    load_lock s' = 0 /\ counted (with_driver foo_once bar 1) s') /\
  DdkInitDriver zeros for_bar bar 7009 (system_of plain_heap) = Err (DdkFailed "DriverEntry failed").
Proof.
  split; [done |]. split.
  - destruct (DdkInitDriver_spec zeros zeros_ok idle_entry foo_once (system_of plain_heap) bar 7002 for_bar
      plain_counted plain_room bar_name ltac:(done) ltac:(done) bar_memory) as [_ W].
    destruct (W eq_refl) as (p & d & u & rc & t & D & _ & _ & _ & E & _ & W'). injection E as <- <-.
    destruct W' as (W1 & W2 & W3). eexists. split; [exact W1 |]. split; [exact W2 | exact W3].
  - destruct (DdkInitDriver_spec zeros zeros_ok idle_entry foo_once (system_of plain_heap) bar 7009 for_bar
      plain_counted plain_room bar_name ltac:(done) ltac:(done) bar_memory) as [_ W].
    destruct (W eq_refl) as (p & d & u & rc & t & D & _ & _ & _ & E & _ & W'). injection E as <- <-. exact W'.
Defined.

Lemma foo_goes p D o ds : loaded (system_of plain_heap) p D o ds -> legacy (system_of plain_heap) p ds /\ (length ds < 1)%nat /\ lets_go p D ds.
Proof.
  intros L. destruct (only_foo plain_heap 2 [] eq_refl p D o ds L) as (-> & -> & ->).
  split; [split; [done | by intros x ?%not_elem_of_nil] |]. split; [simpl; lia | done].
Qed.

(** [FOO] is [Foo], and goes. *)
Lemma DdkUnloadDriver_spec_witness : foo_once FOO = 1 /\
  exists s', DdkUnloadDriver zeros 1 FOO (system_of plain_heap) = Ok (tt, s') /\ load_lock s' = 0 /\
    counted (with_driver foo_once FOO (Z.max 0 (foo_once FOO - 1))) s' /\
    (foo_once FOO = 1 -> exists p D o ds, loaded (system_of plain_heap) p D o ds /\
      same_driver_name FOO (DriverName D) = true /\ objects (heap s') !! p = None).
Proof.
  split; [done |].
  apply (DdkUnloadDriver_spec zeros zeros_ok idle_unload foo_once (system_of plain_heap) FOO 1
    plain_counted plain_room foo_name foo_goes).
Defined.

Lemma busy_legacy : legacy (system_of busy_heap) 1000 [2016].
Proof.
  split; [done |]. intros x ->%list_elem_of_singleton. split; [done |]. split; [by exists (Device.mkDev 1 0 0 0) |].
  by exists device_object.
Qed.

Lemma busy_named : exists d, names_as d (heap (system_of busy_heap)) /\ option_map snd (dlookup d (driver_path foo)) = Some 1000.
Proof. exists foo_directory. by split; [apply foo_named |]. Qed.

Lemma foo_plain_name : driver_name foo.
Proof. by apply name_of. Qed.

Lemma DdkUnloadDriver_timeout_witness :
  DdkUnloadDriver zeros 2 foo (system_of busy_heap) = Err (DdkFailed "Timeout unloading driver").
Proof.
  apply (DdkUnloadDriver_timeout zeros zeros_ok idle_unload foo_once (system_of busy_heap) foo 2 1000 foo_driver
    (driver_object 3 [2016]) [2016] busy_counted busy_room foo_plain_name
    (foo_loaded busy_heap 3 [2016] eq_refl eq_refl) busy_legacy ltac:(simpl; lia) busy_named eq_refl eq_refl ltac:(done)).
Defined.

(** A driver [Foo], where there is one. *)
Lemma DdkCreateDriver_taken_witness :
  DdkCreateDriver zeros for_bar foo 7002 0 (system_of plain_heap) = Err (BadAccess 3000).
Proof.
  apply (DdkCreateDriver_taken zeros zeros_ok (system_of plain_heap) foo_directory foo 3000 600 7002 for_bar
    (foo_sane plain_heap plain_kinv eq_refl) (foo_named plain_heap eq_refl) foo_plain_name bar_fresh eq_refl eq_refl ltac:(done)
    (driver_path foo, 1000) eq_refl plain_room).
Defined.
