(* ===== verification/LocalPath.v ===== *)
(** * LocalPath: where the files of drivers are (local.cpp)

    The files a driver opens are below a directory of the process, [TempDir]: the path
    is put there without its drive, and the directories on the way are made.  A buffer
    is what has been written of it; to read on past that is [BadAccess].  The name of the
    directory has characters of one byte only, which [%S] widens to themselves, so that
    its [strlen] is its length in the wide path too. *)

From S2P Require Import Prelude Names StringsOps NamesPath.

Definition FILE_SUPERSEDE : Z := 0.
Definition FILE_OPEN : Z := 1.
Definition FILE_CREATE : Z := 2.
Definition FILE_OPEN_IF : Z := 3.
Definition FILE_OVERWRITE : Z := 4.
Definition FILE_OVERWRITE_IF : Z := 5.

Definition FILE_SUPERSEDED : Z := 0.
Definition FILE_OPENED : Z := 1.
Definition FILE_CREATED : Z := 2.
Definition FILE_OVERWRITTEN : Z := 3.
Definition FILE_EXISTS : Z := 4.
Definition FILE_DOES_NOT_EXIST : Z := 5.

Definition CREATE_NEW : Z := 1.
Definition CREATE_ALWAYS : Z := 2.
Definition OPEN_EXISTING : Z := 3.
Definition OPEN_ALWAYS : Z := 4.
Definition TRUNCATE_EXISTING : Z := 5.

Definition FILE_DIRECTORY_FILE : Z := 0x1.
Definition FILE_WRITE_THROUGH : Z := 0x2.
Definition FILE_NO_INTERMEDIATE_BUFFERING : Z := 0x8.
Definition FILE_DELETE_ON_CLOSE : Z := 0x1000.

Definition FILE_FLAG_WRITE_THROUGH : Z := 0x80000000.
Definition FILE_FLAG_NO_BUFFERING : Z := 0x20000000.
Definition FILE_FLAG_DELETE_ON_CLOSE : Z := 0x04000000.
Definition FILE_FLAG_BACKUP_SEMANTICS : Z := 0x02000000.

Definition flag (flags f : Z) : bool := negb (Z.land flags f =? 0).

(** The disposition of [CreateFile], and [*pInfo] if it is stored. *)
Definition DdkGetFileDisposition (Disposition : Z) : Z * option Z :=
  if Disposition =? FILE_SUPERSEDE then (CREATE_ALWAYS, Some FILE_SUPERSEDED)
  else if Disposition =? FILE_CREATE then (CREATE_NEW, Some FILE_CREATED)
  else if Disposition =? FILE_OPEN then (OPEN_EXISTING, Some FILE_OPENED)
  else if Disposition =? FILE_OPEN_IF then (OPEN_ALWAYS, Some FILE_OPENED)
  else if Disposition =? FILE_OVERWRITE then (TRUNCATE_EXISTING, Some FILE_OVERWRITTEN)
  else if Disposition =? FILE_OVERWRITE_IF then (CREATE_ALWAYS, Some FILE_OVERWRITTEN)
  else (u32 (-1), None).

Definition DdkGetFileFlags (CreateOptions : Z) : Z :=
  let flags := 0 in
  let flags := if flag CreateOptions FILE_WRITE_THROUGH then Z.lor flags FILE_FLAG_WRITE_THROUGH else flags in
  let flags := if flag CreateOptions FILE_NO_INTERMEDIATE_BUFFERING then Z.lor flags FILE_FLAG_NO_BUFFERING else flags in
  let flags := if flag CreateOptions FILE_DELETE_ON_CLOSE then Z.lor flags FILE_FLAG_DELETE_ON_CLOSE else flags in
  if flag CreateOptions FILE_DIRECTORY_FILE then Z.lor flags FILE_FLAG_BACKUP_SEMANTICS else flags.

(** ** Paths *)

Definition is_slash (c : Z) : bool := c =? BACKSLASH.
Definition is_separator (c : Z) : bool := (c =? BACKSLASH) || (c =? 47).

(** [while (wp < ep && ...) wp++] *)
Fixpoint skip (test : Z -> bool) (cs : list Z) : list Z :=
  match cs with
  | [] => []
  | c :: r => if test c then skip test r else cs
  end.

(** [wcsncmp(wp, L"??\\", 3) == 0] *)
Definition skip_dos (cs : list Z) : list Z :=
  match cs with
  | a :: b :: c :: r => if (a =? 63) && (b =? 63) && (c =? BACKSLASH) then r else cs
  | _ => cs
  end.

Definition has_drive (cs : list Z) : bool :=
  match cs with
  | _ :: c :: _ => c =? 58
  | _ => false
  end.

Definition skip_drive (cs : list Z) : list Z := if has_drive cs then drop 2 cs else cs.

(** [path]: the characters of the string. *)
Definition DdkIsFilePath (path : list Z) : bool := has_drive (skip_dos (skip is_slash path)).

Definition local_part (path : list Z) : list Z := skip is_separator (skip_drive (skip_dos (skip is_slash path))).

(** [wcscspn] of the two separators: up to one of them or the NUL. *)
Fixpoint span_separator (cs : list Z) : result Z :=
  match cs with
  | [] => Err (BadAccess 0)
  | c :: cs => if (c =? 0) || is_separator c then Ok 0 else n ← span_separator cs; Ok (n + 1)
  end.

(** The string in a buffer. *)
Fixpoint cstring (buffer : list Z) : result (list Z) :=
  match buffer with
  | [] => Err (BadAccess 0)
  | c :: cs => if c =? 0 then Ok [] else s ← cstring cs; Ok (c :: s)
  end.

Section local.
Context {S : Type} (CreateDirectory : list Z -> M S unit).

(** [i < n && (i += wcscspn(&buffer[i])) < n], and the body. *)
Fixpoint directories (fuel : nat) (create : bool) (i n : Z) (buffer : list Z) : M S (list Z) :=
  if negb (create && (i <? n)) then mret buffer else
  match fuel with
  | O => fail NoFuel
  | Datatypes.S fuel =>
      k ← lift (span_separator (drop (Z.to_nat i) buffer));
      let i := i + k in
      if negb (i <? n) then mret buffer else
      path ← lift (cstring (<[Z.to_nat i := 0]> buffer));
      _ ← CreateDirectory path;
      directories fuel create (i + 1) n (<[Z.to_nat i := BACKSLASH]> buffer)
  end.

(** Bytes, and, as [%S] of them, the wide characters with the same codes. *)
Context (TempDir : list Z).

(** [_snwprintf]: with no room for the NUL there is none, and with no room for the text
    the result is negative. *)
Definition snwprintf (len : Z) (text : list Z) : list Z * Z :=
  let n := Z.of_nat (length text) in
  if n <? len then (text ++ [0], n)
  else if n =? len then (text, n)
  else (take (Z.to_nat len) text, -1).

(** [DdkGetLocalPath(WCHAR *, ...)].  Returns the buffer. *)
Definition DdkGetLocalPathW (len : Z) (path : list Z) (create : bool) : M S (list Z) :=
  let '(buffer, n) := snwprintf len (TempDir ++ until_nul (local_part path)) in
  let n := if n >? len - 1 then len - 1 else n in
  directories (length buffer) create (Z.of_nat (length TempDir)) n buffer.

(** [snprintf] always ends the string, and returns how long it would be. *)
Definition snprintf (len : Z) (text : list Z) : list Z * Z :=
  (take (Z.to_nat (len - 1)) text ++ [0], Z.of_nat (length text)).

(** [DdkGetLocalPath(char *, ...)]: [path], [file] and [suffix] without their NULs. *)
Definition DdkGetLocalPathA (len : Z) (path file suffix : list Z) : M S (list Z) :=
  let '(buffer, n) := snprintf len
    (TempDir ++ local_part path ++ (match file with [] => [] | _ => [BACKSLASH] end) ++ file ++ suffix) in
  let n := if n >? len - 1 then len - 1 else n in
  directories (length buffer) true (Z.of_nat (length TempDir)) n buffer.

End local.

(** * the path of a local file, and the directories on the way *)

(** The directories above a file whose path is [pre ++ rest]; separators become backslashes. *)
Definition as_backslash (c : Z) : Z := if is_separator c then BACKSLASH else c.

Fixpoint ancestors (pre rest : list Z) : list (list Z) :=
  match rest with
  | [] => []
  | c :: rest => (if is_separator c then [pre] else []) ++ ancestors (pre ++ [as_backslash c]) rest
  end.

Lemma separator_back : is_separator BACKSLASH = true.
Proof. done. Qed.

Lemma span_run seg c rest : Forall (fun c => c <> 0 /\ is_separator c = false) seg -> (c =? 0) || is_separator c = true ->
  span_separator (seg ++ c :: rest) = Ok (Z.of_nat (length seg)).
Proof.
  intros Hs Hc. induction Hs as [| x seg [Hx Hn] Hs IH]; simpl; [by rewrite Hc |].
  apply Z.eqb_neq in Hx as ->. rewrite Hn. simpl. rewrite IH. simpl. f_equal. lia.
Qed.

Lemma span_off seg : Forall (fun c => c <> 0 /\ is_separator c = false) seg -> span_separator seg = Err (BadAccess 0).
Proof.
  intros Hs. induction Hs as [| x seg [Hx Hn] Hs IH]; [done |]. simpl. apply Z.eqb_neq in Hx as ->. rewrite Hn. simpl. by rewrite IH.
Qed.

Lemma cstring_run cs rest : no_nul cs -> cstring (cs ++ 0 :: rest) = Ok cs.
Proof.
  intros Hs. induction Hs as [| x cs Hx Hs IH]; [done |]. simpl. apply Z.eqb_neq in Hx as ->. by rewrite IH.
Qed.

Lemma cstring_off cs : no_nul cs -> cstring cs = Err (BadAccess 0).
Proof. intros Hs. induction Hs as [| x cs Hx Hs IH]; [done |]. simpl. apply Z.eqb_neq in Hx as ->. by rewrite IH. Qed.

Lemma back_nul c : c <> 0 -> as_backslash c <> 0.
Proof. unfold as_backslash. by destruct (is_separator c). Qed.

Section directories.
Context {S : Type} (CreateDirectory : list Z -> M S unit) (mk : list Z -> S -> S).
Context (total : forall p s, CreateDirectory p s = Ok (tt, mk p s)).

Definition make_all (ps : list (list Z)) (s : S) : S := foldl (fun s p => mk p s) s ps.

(** The step of the loop at a separator. *)
Lemma directories_step pre seg c post fuel n s :
  no_nul (pre ++ seg) -> Forall (fun c => c <> 0 /\ is_separator c = false) seg -> is_separator c = true ->
  Z.of_nat (length (pre ++ seg)) < n ->
  directories CreateDirectory (Datatypes.S fuel) true (Z.of_nat (length pre)) n (pre ++ seg ++ c :: post) s =
  directories CreateDirectory fuel true (Z.of_nat (length (pre ++ seg ++ [BACKSLASH]))) n ((pre ++ seg ++ [BACKSLASH]) ++ post) (mk (pre ++ seg) s).
Proof.
  intros Hn Hs Hc Hl. rewrite length_app in Hl. cbn [directories]. replace (Z.of_nat (length pre) <? n) with true by lia. cbn [andb negb].
  rewrite Nat2Z.id, drop_app_length.
  rewrite (bind_run _ _ s (Z.of_nat (length seg)) s) by (unfold lift; by rewrite span_run by (done || by rewrite Hc, orb_true_r)).
  cbv zeta. replace (Z.of_nat (length pre) + Z.of_nat (length seg) <? n) with true by lia. cbn [negb].
  rewrite <- Nat2Z.inj_add, Nat2Z.id, <- length_app, (app_assoc pre seg (c :: post)).
  rewrite !insert_app_r_alt, !Nat.sub_diag by lia. cbn [insert list_insert].
  rewrite (bind_run _ _ s (pre ++ seg) s) by (unfold lift; by rewrite cstring_run).
  rewrite (bind_run _ _ s tt (mk (pre ++ seg) s)) by apply total.
  rewrite <- !app_assoc. simpl. do 2 f_equal. rewrite !length_app. simpl. lia.
Qed.

Lemma directories_run pre rest fuel s : forall seg,
  no_nul (pre ++ seg ++ rest) -> Forall (fun c => c <> 0 /\ is_separator c = false) seg -> (length rest < fuel)%nat ->
  directories CreateDirectory fuel true (Z.of_nat (length pre)) (Z.of_nat (length (pre ++ seg ++ rest))) (pre ++ seg ++ rest ++ [0]) s =
  Ok (pre ++ seg ++ map as_backslash rest ++ [0], make_all (ancestors (pre ++ seg) rest) s).
Proof.
  revert pre fuel s. induction rest as [| c rest IH]; intros pre fuel s seg Hn Hs Hf; (destruct fuel as [| fuel]; [simpl in Hf; lia |]).
  - rewrite app_nil_r in *. simpl. destruct (Z.ltb_spec (Z.of_nat (length pre)) (Z.of_nat (length (pre ++ seg)))); cbn [andb negb]; [| done].
    rewrite Nat2Z.id, drop_app_length.
    rewrite (bind_run _ _ s (Z.of_nat (length seg)) s) by (unfold lift; by rewrite span_run).
    cbv zeta. rewrite length_app, Nat2Z.inj_add. by rewrite Z.ltb_irrefl.
  - destruct (is_separator c) eqn:Ec.
    + assert (no_nul (pre ++ seg)) as Hps by (rewrite app_assoc in Hn; by apply Forall_app in Hn as [? _]).
      change ((c :: rest) ++ [0]) with (c :: rest ++ [0]).
      rewrite directories_step by (try done; rewrite !length_app; simpl; lia).
      assert (length (pre ++ seg ++ c :: rest) = length ((pre ++ seg ++ [BACKSLASH]) ++ [] ++ rest)) as -> by (rewrite !length_app; simpl; lia).
      change (rest ++ [0]) with ([] ++ rest ++ [0]). rewrite IH; [| | done | simpl in Hf; lia].
      * simpl. unfold as_backslash at 3. rewrite Ec. simpl. rewrite app_nil_r. rewrite <- !app_assoc. simpl.
        replace (as_backslash c) with BACKSLASH by (unfold as_backslash; by rewrite Ec). done.
      * rewrite app_assoc in Hn. apply Forall_app in Hn as [_ [_ Hr]%Forall_cons]. simpl.
        rewrite app_assoc. apply Forall_app. split; [| done]. apply Forall_app. split; [done |]. by repeat constructor.
    + specialize (IH pre (Datatypes.S fuel) s (seg ++ [c])). rewrite <- !app_assoc in IH. simpl in IH.
      assert (as_backslash c = c) as Eb by (unfold as_backslash; by rewrite Ec). simpl. rewrite Eb, Ec. simpl.
      rewrite IH; [by rewrite <- app_assoc | done | | simpl in Hf; lia].
      apply Forall_app. split; [done |]. constructor; [| constructor]. split; [| done].
      rewrite app_assoc in Hn. by apply Forall_app in Hn as [_ [? _]%Forall_cons].
Qed.

End directories.

(** ** A buffer that is too short *)

Lemma span_cases cs : no_nul cs -> span_separator cs = Err (BadAccess 0) \/ exists k, span_separator cs = Ok k /\ 0 <= k.
Proof.
  induction 1 as [| c cs Hc _ IH]; [by left |]. simpl. apply Z.eqb_neq in Hc as ->. destruct (is_separator c); simpl.
  - right. exists 0. split; [done | lia].
  - destruct IH as [-> | (k & -> & Hk)]; [by left | right]. exists (k + 1). split; [done | lia].
Qed.

Lemma cstring_cut j b : no_nul b -> (j < length b)%nat -> cstring (<[j := 0]> b) = Ok (take j b).
Proof.
  intros Hb. revert j. induction Hb as [| c b Hc _ IH]; intros j Hj; [simpl in Hj; lia |].
  destruct j as [| j]; [done |]. simpl in *. apply Z.eqb_neq in Hc as ->. by rewrite IH by lia.
Qed.

Section local.
Context {S : Type} (CreateDirectory : list Z -> M S unit) (mk : list Z -> S -> S).
Context (total : forall p s, CreateDirectory p s = Ok (tt, mk p s)).

(** With no NUL in it the string in the buffer has no end. *)
Lemma directories_off fuel : forall create i n b s, no_nul b -> 0 <= i -> n <= Z.of_nat (length b) -> n - i < Z.of_nat fuel ->
  (b ← directories CreateDirectory fuel create i n b; lift (cstring b)) s = Err (BadAccess 0).
Proof.
  induction fuel as [| fuel IH]; intros create i n b s Hb Hi Hn Hf; cbn [directories].
  - destruct (Z.ltb_spec i n); [lia |]. rewrite andb_false_r. cbn [negb].
    rewrite (bind_run _ _ s b s) by done. unfold lift. by rewrite cstring_off.
  - destruct (create && (i <? n)) eqn:Ec; cbn [negb].
    2: { rewrite (bind_run _ _ s b s) by done. unfold lift. by rewrite cstring_off. }
    apply andb_prop in Ec as [-> Hlt]. apply Z.ltb_lt in Hlt.
    assert (no_nul (drop (Z.to_nat i) b)) as Hd by by apply Forall_drop.
    unfold mbind at 1, M_bind at 1. destruct (span_cases _ Hd) as [E | (k & E & Hk)].
    { unfold mbind, M_bind, lift. by rewrite E. }
    rewrite (bind_run _ _ s k s) by (unfold lift; by rewrite E). cbv zeta. destruct (Z.ltb_spec (i + k) n) as [Hl |]; cbn [negb].
    2: { unfold mret, M_ret, lift. by rewrite cstring_off. }
    rewrite (bind_run _ _ s (take (Z.to_nat (i + k)) b) s) by (unfold lift; by rewrite cstring_cut by (done || lia)).
    rewrite (bind_run _ _ s tt (mk (take (Z.to_nat (i + k)) b) s)) by apply total.
    apply (IH true (i + k + 1) n (<[Z.to_nat (i + k) := BACKSLASH]> b)); [| lia | by rewrite length_insert | lia].
    by apply Forall_insert.
Qed.

Context (TempDir : list Z) (Ht : no_nul TempDir).

Lemma until_nul_no_nul cs : no_nul (until_nul cs).
Proof.
  induction cs as [| c cs IH]; [constructor |]. simpl. destruct (Z.eqb_spec c 0); [constructor | by constructor].
Qed.

(** C38. The path of a local file: the directory of the process followed by the path of
    the driver, without drive and leading separators, in a string that ends inside the
    buffer; each directory above the file is made, the outermost first, and its
    separator becomes a backslash.  Without room for that the string in the buffer has no
    end, and to use it reads past the buffer. *)
Theorem DdkGetLocalPath_spec len path create s (Hlen : 0 < len) :
  let rest := until_nul (local_part path) in
  (buffer ← DdkGetLocalPathW CreateDirectory TempDir len path create; lift (cstring buffer)) s =
    if Z.of_nat (length (TempDir ++ rest)) <? len then
      Ok (TempDir ++ (if create then map as_backslash rest else rest),
          if create then make_all mk (ancestors TempDir rest) s else s)
    else Err (BadAccess 0).
Proof.
  intros rest. assert (no_nul rest) as Hr by apply until_nul_no_nul.
  assert (no_nul (TempDir ++ rest)) as Hn by by apply Forall_app.
  unfold DdkGetLocalPathW. fold rest. unfold snwprintf. destruct (Z.ltb_spec (Z.of_nat (length (TempDir ++ rest))) len) as [Hl | Hl].
  - replace (Z.of_nat (length (TempDir ++ rest)) >? len - 1) with false by lia. destruct create.
    + pose proof (directories_run CreateDirectory mk total TempDir rest (length ((TempDir ++ rest) ++ [0])) s []) as E.
      simpl in E. rewrite app_assoc in E. rewrite (bind_run _ _ s _ _ (E Hn ltac:(constructor) ltac:(rewrite !length_app; simpl; lia))).
      rewrite app_nil_r. unfold lift. rewrite (app_assoc TempDir). rewrite cstring_run; [done |].
      apply Forall_app. split; [done |]. apply Forall_map. apply (Forall_impl _ _ _ Hr). apply back_nul.
    + rewrite (bind_run _ _ s ((TempDir ++ rest) ++ [0]) s) by by destruct ((TempDir ++ rest) ++ [0]).
      unfold lift. by rewrite cstring_run.
  - destruct (Z.eqb_spec (Z.of_nat (length (TempDir ++ rest))) len) as [He | He].
    + replace (Z.of_nat (length (TempDir ++ rest)) >? len - 1) with true by lia. apply directories_off; [done | lia..].
    + replace (-1 >? len - 1) with false by lia. apply directories_off; [by apply Forall_take | lia | |].
      * lia.
      * lia.
Qed.

End local.
