(* ===== verification/Files.v ===== *)
(** * Files: files and their handles (file.cpp)

    A file is open on a device of the kernel or on a file of the system.  The header of
    its object is in Objects; [positions] has [CurrentByteOffset], which only this file
    uses, by the object's address.  The file functions of the system are the class
    [WINFILE] over a state of its own; a call that fails gives its error, which is then
    [GetLastError].  Status blocks are by their address, and the routines a driver asks
    to be called at the end are noted, not run. *)

From S2P Require Import Prelude Strings Objects Names Memory LocalPath.

Definition STATUS_STOPPED_ON_SYMLINK : Z := 0x8000002D.
Definition STATUS_UNSUCCESSFUL : Z := 0xC0000001.
Definition STATUS_ACCESS_VIOLATION : Z := 0xC0000005.
Definition STATUS_END_OF_FILE : Z := 0xC0000011.
Definition STATUS_ACCESS_DENIED : Z := 0xC0000022.
Definition STATUS_OBJECT_NAME_COLLISION : Z := 0xC0000035.
Definition STATUS_OBJECT_PATH_NOT_FOUND : Z := 0xC000003A.
Definition STATUS_SHARING_VIOLATION : Z := 0xC0000043.
Definition STATUS_NOT_SUPPORTED : Z := 0xC00000BB.

Definition ERROR_SUCCESS : Z := 0.
Definition ERROR_FILE_NOT_FOUND : Z := 2.
Definition ERROR_PATH_NOT_FOUND : Z := 3.
Definition ERROR_ACCESS_DENIED : Z := 5.
Definition ERROR_INVALID_HANDLE : Z := 6.
Definition ERROR_NOT_ENOUGH_MEMORY : Z := 8.
Definition ERROR_SHARING_VIOLATION : Z := 32.
Definition ERROR_HANDLE_EOF : Z := 38.
Definition ERROR_FILE_EXISTS : Z := 80.
Definition ERROR_INVALID_PARAMETER : Z := 87.
Definition ERROR_ALREADY_EXISTS : Z := 183.
Definition ERROR_MORE_DATA : Z := 234.
Definition ERROR_NOACCESS : Z := 998.

Definition INVALID_HANDLE_VALUE : Z := 2 ^ 64 - 1.
Definition IO_STOP_ON_SYMLINK : Z := 0x8.
Definition MAX_PATH : Z := 260.

Definition FileBasicInformation : Z := 4.
Definition FileStandardInformation : Z := 5.
Definition FilePositionInformation : Z := 14.

(** [ByteOffset] of [FILE_USE_FILE_POINTER_POSITION]. *)
Definition USE_FILE_POINTER_POSITION : Z := -2.

Record OBJECT_ATTRIBUTES := mkAttributes { RootDirectory : Z; ObjectName : option UNICODE_STRING }.

(** [handles]: the handles that are open.  [CreateFileW] gives a handle and the last error;
    [ReadFile] and [WriteFile] get the handle, the buffer, its length and the offset, and give
    the error and how many bytes they moved. *)
Class WINFILE := {
  world : Type;
  handles : world -> gset Z;
  CreateEvent : bool -> bool -> world -> Z * world;
  CreateDirectoryW : list Z -> world -> Z * world;
  CreateFileW : list Z -> Z -> Z -> Z -> Z -> world -> Z * Z * world;
  DeleteFileW : list Z -> world -> Z * world;
  FlushFileBuffers : Z -> world -> Z * world;
  ReadFile : Z -> Z -> Z -> Z -> mem * world -> Z * Z * (mem * world);
  WriteFile : Z -> Z -> Z -> Z -> mem * world -> Z * Z * (mem * world);
  GetFileInformationByHandleEx : Z -> Z -> Z -> Z -> mem * world -> Z * (mem * world);
  CloseHandle : Z -> world -> world
}.

Definition NT_SUCCESS (status : Z) : bool := status <? 2 ^ 31.

Definition DdkGetFileStatus (rc : Z) : Z :=
  if rc =? ERROR_SUCCESS then STATUS_SUCCESS
  else if rc =? ERROR_ACCESS_DENIED then STATUS_ACCESS_DENIED
  else if rc =? ERROR_NOT_ENOUGH_MEMORY then STATUS_INSUFFICIENT_RESOURCES
  else if rc =? ERROR_INVALID_HANDLE then STATUS_INVALID_HANDLE
  else if rc =? ERROR_FILE_NOT_FOUND then STATUS_OBJECT_NAME_NOT_FOUND
  else if rc =? ERROR_FILE_EXISTS then STATUS_OBJECT_NAME_COLLISION
  else if rc =? ERROR_SHARING_VIOLATION then STATUS_SHARING_VIOLATION
  else if rc =? ERROR_MORE_DATA then STATUS_BUFFER_TOO_SMALL
  else if rc =? ERROR_INVALID_PARAMETER then STATUS_INVALID_PARAMETER
  else if rc =? ERROR_NOACCESS then STATUS_ACCESS_VIOLATION
  else if rc =? ERROR_HANDLE_EOF then STATUS_END_OF_FILE
  else if rc =? ERROR_PATH_NOT_FOUND then STATUS_OBJECT_PATH_NOT_FOUND
  else STATUS_UNSUCCESSFUL.

Section files.
Context `{Environment} `{Locale} `{WINFILE}.

Record fstate := mkF {
  fkern : kernel;
  fworld : world;
  positions : gmap Z Z;
  blocks : gmap Z (Z * Z);
  fmem : mem;
  apcs : list (Z * Z * Z)
}.

Definition set_fkern k s := mkF k (fworld s) (positions s) (blocks s) (fmem s) (apcs s).
Definition set_fworld w s := mkF (fkern s) w (positions s) (blocks s) (fmem s) (apcs s).
Definition set_positions f s := mkF (fkern s) (fworld s) (f (positions s)) (blocks s) (fmem s) (apcs s).
Definition set_blocks f s := mkF (fkern s) (fworld s) (positions s) (f (blocks s)) (fmem s) (apcs s).
Definition set_outside (mw : mem * world) s := mkF (fkern s) (mw.2) (positions s) (blocks s) (mw.1) (apcs s).
Definition set_apcs f s := mkF (fkern s) (fworld s) (positions s) (blocks s) (fmem s) (f (apcs s)).

Definition F := M fstate.

Definition fget {A} (f : fstate -> A) : F A := fun s => Ok (f s, s).

(** What the kernel's objects close, the first last. *)
Fixpoint close_all (es : list event) (w : world) : world :=
  match es with
  | [] => w
  | Objects.CloseHandle k :: es => CloseHandle k (close_all es w)
  | _ :: es => close_all es w
  end.

Definition on_kernel {A} (m : K A) : F A := fun s =>
  match m (fkern s) with
  | Ok (a, k) =>
      let fresh := take (length (events k) - length (events (fkern s))) (events k) in
      Ok (a, set_fworld (close_all fresh (fworld s)) (set_fkern k s))
  | Err f => Err f
  end.

(** A call of the system. *)
Definition call {A} (f : world -> A * world) : F A := fun s =>
  let '(a, w) := f (fworld s) in Ok (a, set_fworld w s).

Definition call_memory {A} (f : mem * world -> A * (mem * world)) : F A := fun s =>
  let '(a, mw) := f (fmem s, fworld s) in Ok (a, set_outside mw s).

Definition GetFile (p : Z) : K Z :=
  if p =? 0 then fail (DdkFailed "Invalid file object specified") else
  o ← object_at p;
  if negb (type o =? IoFileType) then fail (DdkFailed "Invalid file object specified") else mret p.

(** 0 for [NULL]. *)
Definition GetFileFromHandle (h : Z) : K Z :=
  p ← FromHandle h;
  if p =? 0 then mret 0 else
  o ← object_at p;
  mret (if negb (type o =? IoFileType) then 0 else p).

Definition SetStatus (IoStatusBlock status info : Z) : F Z :=
  b ← fget (fun s => blocks s !! IoStatusBlock);
  match b with
  | None => fail (BadAccess IoStatusBlock)
  | Some _ => _ ← modify (set_blocks <[IoStatusBlock := (status, info)]>); mret status
  end.

(** [KeInitializeEvent] for an event inside of the file. *)
Definition initialize_event (manual initial : bool) : F unit :=
  h ← call (CreateEvent manual initial);
  if h =? 0 then fail (DdkFailed "Unable to initialize Event") else mret tt.

Definition DdkAllocFile (calloc : option Z) : F (option Z) :=
  p ← on_kernel (DdkAllocObject calloc IoFileType (File 0) true);
  match p with
  | None => mret None
  | Some p =>
      _ ← modify (set_positions <[p := 0]>);
      _ ← initialize_event false true;
      _ ← initialize_event true false;
      mret (Some p)
  end.

(** [pFile->File.DeviceObject = d], and [pFile->h = h]. *)
Definition set_device (p d : Z) : K unit :=
  o ← object_at p;
  put_object p (mkObject (type o) (alloc o) (refcount o) (h o) (File d)).

Definition set_handle (p k : Z) : K unit :=
  o ← object_at p;
  put_object p (mkObject (type o) (alloc o) (refcount o) k (contents o)).

Definition object_type (p : Z) : K Z := o ← object_at p; mret (type o).

Context (malloc : Z -> option (list Z)) (TempDir : list Z).

(** ** Opening *)

(** [path]: the characters of the name.  Returns the status and [*ppFile], if it is stored. *)
Definition DdkIoCreateDevice (calloc : option Z) (path : list Z) (IoStatusBlock Options : Z) : F (Z * option Z) :=
  p ← on_kernel (DdkLookupName malloc path None);
  t ← on_kernel (if p =? 0 then mret 0 else object_type p);
  let link := negb (p =? 0) && (t =? IoSymbolicLinkType) in
  if link && flag Options IO_STOP_ON_SYMLINK then
    status ← SetStatus IoStatusBlock STATUS_STOPPED_ON_SYMLINK FILE_DOES_NOT_EXIST;
    mret (status, None)
  else
  p ← on_kernel (if link then DdkResolveSymbolicLink malloc p else mret p);
  t ← on_kernel (if p =? 0 then mret 0 else object_type p);
  if (p =? 0) || negb (t =? IoDeviceType) then
    status ← SetStatus IoStatusBlock STATUS_OBJECT_NAME_NOT_FOUND FILE_DOES_NOT_EXIST;
    mret (status, None)
  else
  f ← DdkAllocFile calloc;
  match f with
  | None =>
      _ ← on_kernel (DdkDereferenceObject p);
      status ← SetStatus IoStatusBlock STATUS_INSUFFICIENT_RESOURCES FILE_EXISTS;
      mret (status, None)
  | Some f =>
      d ← on_kernel (ToPointer p);
      _ ← on_kernel (set_device f d);
      status ← SetStatus IoStatusBlock STATUS_SUCCESS FILE_OPENED;
      mret (status, Some f)
  end.

(** Returns the status, and [*pDisp] and [*pCreated] where they are stored. *)
Definition DdkIoCreateDir (path : list Z) (Disposition disp : Z) : F (Z * Z * bool) :=
  if negb (Disposition =? FILE_CREATE) && negb (Disposition =? FILE_OPEN) && negb (Disposition =? FILE_OPEN_IF)
  then mret (STATUS_INVALID_PARAMETER, disp, true)
  else if Disposition =? FILE_OPEN then mret (STATUS_SUCCESS, disp, true) else
  let disp := (DdkGetFileDisposition FILE_OPEN).1 in
  rc ← call (CreateDirectoryW path);
  if rc =? ERROR_SUCCESS then mret (STATUS_SUCCESS, disp, true)
  else if rc =? ERROR_ALREADY_EXISTS then
    mret (if negb (Disposition =? FILE_CREATE) then STATUS_SUCCESS else STATUS_OBJECT_NAME_COLLISION, disp, false)
  else mret (DdkGetFileStatus rc, disp, true).

Definition make_directory (path : list Z) : F unit := _ ← call (CreateDirectoryW path); mret tt.

(** [info] of a disposition that there is not is not set; it is not used then. *)
Definition DdkIoCreateFile (calloc : option Z) (DesiredAccess : Z) (ObjectName : list Z) (IoStatusBlock FileAttributes
    ShareAccess Disposition CreateOptions : Z) : F (Z * option Z) :=
  path ← DdkGetLocalPathW make_directory TempDir (MAX_PATH + 1) ObjectName
    (negb (Disposition =? FILE_OPEN) && negb (Disposition =? FILE_OVERWRITE));
  let '(disp, info) := DdkGetFileDisposition Disposition in
  '(status, disp, created) ← (if flag CreateOptions FILE_DIRECTORY_FILE then
       name ← lift (cstring path);
       DdkIoCreateDir name Disposition disp
     else mret (STATUS_SUCCESS, disp, true));
  if negb (NT_SUCCESS status) then status ← SetStatus IoStatusBlock status 0; mret (status, None) else
  name ← lift (cstring path);
  '(h, rc) ← call (CreateFileW name DesiredAccess ShareAccess disp (Z.lor FileAttributes (DdkGetFileFlags CreateOptions)));
  if h =? INVALID_HANDLE_VALUE then
    status ← SetStatus IoStatusBlock (DdkGetFileStatus rc) (if rc =? ERROR_FILE_EXISTS then FILE_EXISTS else FILE_DOES_NOT_EXIST);
    mret (status, None)
  else
  let may_create := (Disposition =? FILE_SUPERSEDE) || (Disposition =? FILE_OPEN_IF) || (Disposition =? FILE_OVERWRITE_IF) in
  let info := if may_create && negb (rc =? ERROR_ALREADY_EXISTS) && created then Some FILE_CREATED else info in
  f ← DdkAllocFile calloc;
  match f with
  | None =>
      _ ← call (fun w => (tt, CloseHandle h w));
      status ← SetStatus IoStatusBlock STATUS_INSUFFICIENT_RESOURCES FILE_EXISTS;
      mret (status, None)
  | Some f =>
      _ ← on_kernel (set_handle f h);
      match info with
      | None => fail (BadAccess 0)
      | Some info => status ← SetStatus IoStatusBlock STATUS_SUCCESS info; mret (status, Some f)
      end
  end.

(** Returns the status and [*FileHandle], if it is stored. *)
Definition IoCreateFileEx (calloc : option Z) (DesiredAccess : Z) (ObjectAttributes : option OBJECT_ATTRIBUTES)
    (IoStatusBlock FileAttributes ShareAccess Disposition CreateOptions Options : Z) : F (Z * option Z) :=
  match ObjectAttributes with
  | None => mret (STATUS_INVALID_PARAMETER, None)
  | Some a =>
      match ObjectName a with
      | None => mret (STATUS_INVALID_PARAMETER, None)
      | Some u =>
          if IoStatusBlock =? 0 then mret (STATUS_INVALID_PARAMETER, None) else
          _ ← ddkassertM (RootDirectory a =? 0) "!ObjectAttributes->RootDirectory";
          path ← lift (chars u);
          '(status, f) ← (if negb (DdkIsFilePath path) then DdkIoCreateDevice calloc path IoStatusBlock Options
                          else DdkIoCreateFile calloc DesiredAccess path IoStatusBlock FileAttributes ShareAccess
                                 Disposition CreateOptions);
          if negb (NT_SUCCESS status) then mret (status, None) else
          match f with
          | None => fail (BadAccess 0)
          | Some f => mret (status, Some (ToHandle f))
          end
      end
  end.

Definition IoCreateFile := IoCreateFileEx.

Definition ZwOpenFile (calloc : option Z) (DesiredAccess : Z) (ObjectAttributes : option OBJECT_ATTRIBUTES)
    (IoStatusBlock ShareAccess OpenOptions : Z) : F (Z * option Z) :=
  IoCreateFileEx calloc DesiredAccess ObjectAttributes IoStatusBlock 0 ShareAccess FILE_OPEN OpenOptions 0.

Definition ZwCreateFile (calloc : option Z) (DesiredAccess : Z) (ObjectAttributes : option OBJECT_ATTRIBUTES)
    (IoStatusBlock FileAttributes ShareAccess CreateDisposition CreateOptions : Z) : F (Z * option Z) :=
  IoCreateFileEx calloc DesiredAccess ObjectAttributes IoStatusBlock FileAttributes ShareAccess
    CreateDisposition CreateOptions 0.

(** ** Reading and writing *)

(** [ByteOffset]: the number it points to.  The parts of the offset are given as one number. *)
Definition DdkReadWriteFile (FileHandle Event ApcRoutine ApcContext IoStatusBlock Buffer Length : Z)
    (ByteOffset : option Z) (write : bool) : F Z :=
  if (IoStatusBlock =? 0) || (Buffer =? 0) then mret STATUS_INVALID_PARAMETER else
  if negb (Event =? 0) then mret STATUS_NOT_SUPPORTED else
  p ← on_kernel (GetFileFromHandle FileHandle);
  if p =? 0 then mret STATUS_INVALID_HANDLE else
  o ← on_kernel (object_at p);
  here ← fget (fun s => default 0 (positions s !! p));
  let offset := match ByteOffset with
    | None => here
    | Some b => if b =? USE_FILE_POINTER_POSITION then here else b
    end in
  '(rc, bytes) ← call_memory ((if write then WriteFile else ReadFile) (h o) Buffer Length (u64 offset));
  let status := if rc =? ERROR_SUCCESS then STATUS_SUCCESS else DdkGetFileStatus rc in
  _ ← modify (set_positions <[p := s64 (offset + bytes)]>);
  _ ← SetStatus IoStatusBlock status bytes;
  _ ← (if negb (ApcRoutine =? 0) then modify (set_apcs (fun l => l ++ [(ApcRoutine, ApcContext, IoStatusBlock)])) else mret tt);
  mret status.

Definition ZwReadFile (FileHandle Event ApcRoutine ApcContext IoStatusBlock Buffer Length : Z) (ByteOffset : option Z) : F Z :=
  DdkReadWriteFile FileHandle Event ApcRoutine ApcContext IoStatusBlock Buffer Length ByteOffset false.

Definition ZwWriteFile (FileHandle Event ApcRoutine ApcContext IoStatusBlock Buffer Length : Z) (ByteOffset : option Z) : F Z :=
  DdkReadWriteFile FileHandle Event ApcRoutine ApcContext IoStatusBlock Buffer Length ByteOffset true.

Definition ZwFlushBuffersFile (FileHandle IoStatusBlock : Z) : F Z :=
  p ← on_kernel (GetFileFromHandle FileHandle);
  if p =? 0 then mret STATUS_INVALID_HANDLE else
  o ← on_kernel (object_at p);
  rc ← call (FlushFileBuffers (h o));
  SetStatus IoStatusBlock (if rc =? ERROR_SUCCESS then STATUS_SUCCESS else DdkGetFileStatus rc) 0.

(** ** Information *)

(** [sizeof(FILE_BASIC_INFO)] and [sizeof(FILE_STANDARD_INFO)], and the classes of the
    system.  Returns the error, [ERROR_SUCCESS] for [TRUE], and the bytes copied. *)
Definition DdkGetFileInfo (k FileInformationClass buffer Length InfoSize : Z) : F (Z * Z) :=
  if FileInformationClass =? 4 then
    _ ← ddkassertM (40 =? InfoSize) "sizeof(FILE_BASIC_INFO) == InfoSize";
    rc ← call_memory (GetFileInformationByHandleEx k 0 buffer Length);
    mret (rc, if rc =? ERROR_SUCCESS then InfoSize else 0)
  else if FileInformationClass =? 5 then
    _ ← ddkassertM (24 =? InfoSize) "sizeof(FILE_STANDARD_INFO) == InfoSize";
    rc ← call_memory (GetFileInformationByHandleEx k 1 buffer Length);
    mret (rc, if rc =? ERROR_SUCCESS then InfoSize else 0)
  else mret (ERROR_INVALID_PARAMETER, 0).

Definition sizeof_info (FileInformationClass : Z) : Z := if FileInformationClass =? FileBasicInformation then 40 else 24.

Definition ZwQueryInformationFile (FileHandle IoStatusBlock FileInformation Length FileInformationClass : Z) : F Z :=
  p ← on_kernel (GetFileFromHandle FileHandle);
  if p =? 0 then mret STATUS_INVALID_HANDLE else
  if (IoStatusBlock =? 0) || (FileInformation =? 0) then mret STATUS_INVALID_PARAMETER else
  if (FileInformationClass =? FileBasicInformation) || (FileInformationClass =? FileStandardInformation) then
    o ← on_kernel (object_at p);
    '(rc, bytes) ← DdkGetFileInfo (h o) FileInformationClass FileInformation Length (sizeof_info FileInformationClass);
    SetStatus IoStatusBlock (if rc =? ERROR_SUCCESS then STATUS_SUCCESS else DdkGetFileStatus rc) bytes
  else if FileInformationClass =? FilePositionInformation then
    if Length <? 8 then SetStatus IoStatusBlock STATUS_BUFFER_TOO_SMALL 0 else
    here ← fget (fun s => default 0 (positions s !! p));
    m ← fget fmem;
    m ← lift (store FileInformation (le_split 8 (u64 here)) m);
    w ← fget fworld;
    _ ← modify (set_outside (m, w));
    SetStatus IoStatusBlock STATUS_SUCCESS 8
  else SetStatus IoStatusBlock STATUS_NOT_SUPPORTED 0.

Definition ZwDeleteFile (ObjectAttributes : option OBJECT_ATTRIBUTES) : F Z :=
  match ObjectAttributes with
  | None => mret STATUS_INVALID_PARAMETER
  | Some a =>
      match ObjectName a with
      | None => fail (BadAccess 0)
      | Some u =>
          name ← lift (chars u);
          path ← DdkGetLocalPathW make_directory TempDir (MAX_PATH + 1) name false;
          path ← lift (cstring path);
          rc ← call (DeleteFileW path);
          mret (if rc =? ERROR_SUCCESS then STATUS_SUCCESS else DdkGetFileStatus rc)
      end
  end.

Definition ZwQueryDirectoryFile : F Z := mret STATUS_OBJECT_NAME_NOT_FOUND.

Definition DdkGetFilePointer (FileHandle : Z) : K Z :=
  p ← FromHandle FileHandle;
  p ← GetFile p;
  ToPointer p.

End files.
