(* ===== verification/FilesSpec.v ===== *)
(** * FilesSpec: opening files on devices *)

From S2P Require Import Prelude Strings StringsOps StringsSpec Objects Names NamesPath.
From S2P Require Import ObjectsInv ObjectsSpec NamesSpec SymlinkSpec ResolveSpec HandleSpec DeviceObjects.
From S2P Require Import Memory LocalPath Files.

Section object.
Context `{Environment} `{Locale} `{LL : !LocaleLaws}.

Definition file_object (n k d : Z) : OBJECT := mkObject IoFileType true n k (File d).

(** What a new file is open on: a file of the system, or a device whose caller gives the
    file a reference. *)
Definition opened_on (s : kernel) (d : Z) : Prop :=
  d = 0 \/ exists q o drv, d = q + sizeof_OBJECT /\ objects s !! q = Some o /\ contents o = Device drv /\ 1 <= client s q.

Lemma refs_new_file s p k d a : objects s !! p = None ->
  refs (put_at s p (file_object 1 k d)) a = refs s a + one (d = a + sizeof_OBJECT).
Proof.
  intros Hn. unfold refs. simpl. pose proof (filed_insert (objects s) p (file_object 1 k d) a) as F. rewrite Hn in F. unfold opening in F.
  assert (listed (<[p := file_object 1 k d]> (objects s)) a = listed (objects s) a) as ->.
  { unfold listed. destruct (decide (a = p)) as [-> |]; [by rewrite lookup_insert_eq, Hn | by rewrite lookup_insert_ne]. }
  unfold one. destruct (decide (opens a (file_object 1 k d))) as [[Ho _] | Ho]; case_decide as Hd; try lia.
  - simpl in Ho. congruence.
  - destruct Ho. split; [by rewrite Hd | done].
Qed.

Lemma kinv_new_file s p k d : kinv s -> fresh_public s p -> opened_on s d -> (k <> 0 -> k <> GetCurrentProcess) ->
  kinv (put_at s p (file_object 1 k d)) /\
  forall a, client (put_at s p (file_object 1 k d)) a = client s a + one (a = p) - one (d = a + sizeof_OBJECT /\ d <> 0).
Proof.
  intros I [F Hid] Od Hk. pose proof (fresh_refs s p I F) as R. destruct F as (Hp & Hn & Hh).
  assert (forall a drv, device_of s a drv -> device_of (put_at s p (file_object 1 k d)) a drv) as Ldev.
  { intros a drv (y & Ey & Hy). exists y. simpl. rewrite lookup_insert_ne; [done | congruence]. }
  assert (forall q a, lists s q a -> lists (put_at s p (file_object 1 k d)) q a) as Llist.
  { intros q a (y & i & ds & Ey & Hy). exists y, i, ds. simpl. rewrite lookup_insert_ne; [done | congruence]. }
  assert (forall a, a <> p -> objects s !! a = None /\ isValidObject s a = false ->
    objects (put_at s p (file_object 1 k d)) !! a = None /\ isValidObject (put_at s p (file_object 1 k d)) a = false) as Lhid.
  { intros a Na [Ea Ev]. unfold isValidObject, type_at in *. simpl. rewrite lookup_insert_ne by done. done. }
  assert (d <> p + sizeof_OBJECT) as Ndp.
  { destruct Od as [-> | (q & o & drv & -> & Eq & _)]; unfold sizeof_OBJECT; [lia | intros E; assert (q = p) as -> by lia; congruence]. }
  split.
  - split; [| apply (k_entries _ I) |].
    + simpl. intros a y [[<- <-] | [Hne Ey]]%lookup_insert_Some.
      * split; try done.
        -- intros _. apply Lhid; [unfold sizeof_OBJECT; lia | done].
        -- rewrite refs_new_file, one_no by done. simpl. lia.
        -- intros d' [= <-] Nd _. destruct Od as [-> | (q & o & drv & -> & Eq & Ec & _)]; [done |].
           exists q, drv. split; [done |]. apply Ldev. by exists o.
      * destruct (k_objects _ I a y Ey) as []. split; try done.
        -- intros Hpub. apply Lhid; [by apply not_eq_sym, (Hh a y) | by apply o_hidden].
        -- split; [lia |]. rewrite refs_new_file by done. unfold one. case_decide as Hd; [| lia].
           destruct Od as [-> | (q & o & drv & E & Eq & _ & Hc)]; [unfold sizeof_OBJECT in Hd; lia |].
           assert (q = a) as -> by (unfold sizeof_OBJECT in *; lia). assert (o = y) as -> by congruence.
           unfold client in Hc. rewrite Ey in Hc. lia.
        -- intros i ds Hi. destruct (o_devices i ds Hi). split; auto.
        -- intros drv Hv Hc. destruct (o_listed drv Hv Hc) as (q & -> & Hq). exists q. auto.
        -- intros d' Hd Hd0 Hc. destruct (o_opened d' Hd Hd0 Hc) as (q & drv & -> & Hq). exists q, drv. auto.
    + intros e He. simpl. destruct (k_named _ I e He). rewrite lookup_insert_ne; [done | congruence].
  - intros a. unfold client. rewrite refs_new_file by done. simpl. destruct (decide (a = p)) as [-> | Na].
    + rewrite lookup_insert_eq, Hn, (one_yes (p = p)), !one_no by tauto. simpl. lia.
    + rewrite lookup_insert_ne, (one_no (a = p)) by done. destruct (objects s !! a) as [y |] eqn:Ey.
      * pose proof (o_address _ _ _ (k_objects _ I a y Ey)). unfold one, sizeof_OBJECT. repeat case_decide; lia.
      * rewrite one_no; [lia |]. intros [E Nd]. destruct Od as [-> | (q & o & drv & E' & Eq & _)]; [done |].
        assert (q = a) as -> by lia. congruence.
Qed.

(** The address is still free after an operation that only gives and takes references. *)
Lemma fresh_account s s' d g f p : account s s' d g f -> fresh_public s p -> fresh_public s' p.
Proof.
  intros A [(Hp & Hn & Hh) [Hn2 Hv]].
  assert (forall a, objects s !! a = None -> objects s' !! a = None) as L.
  { intros a Ea. destruct (objects s' !! a) as [o |] eqn:E; [| done].
    destruct (a_types _ _ _ _ _ A a o E) as (o' & E' & _). congruence. }
  split; [split; [done |]; split; [by apply L |] | split; [by apply L |]].
  - intros q o Eq Hpub. destruct (a_types _ _ _ _ _ A q o Eq) as (o' & E' & Et & _). apply (Hh q o' E'). by rewrite <- Et.
  - unfold isValidObject, type_at in *. rewrite (L _ Hn2). by rewrite Hn2 in Hv.
Qed.

End object.

(** The events of a new file: a handle the process did not have. *)
Class WINFILE_Laws `{Environment} `{WINFILE} : Prop := {
  event_law m i w h w' : CreateEvent m i w = (h, w') ->
    h = 0 /\ handles w' = handles w \/ h <> 0 /\ h ∉ handles w /\ handles w' = {[h]} ∪ handles w;
  file_law path access share disp flags w h e w' : CreateFileW path access share disp flags w = (h, e, w') ->
    h = INVALID_HANDLE_VALUE /\ e <> ERROR_SUCCESS /\ handles w' = handles w \/
    h <> INVALID_HANDLE_VALUE /\ h <> 0 /\ h <> GetCurrentProcess /\ h ∉ handles w /\ handles w' = {[h]} ∪ handles w;
  close_law h w : handles (CloseHandle h w) = handles w ∖ {[h]};
  directory_law path w : handles (CreateDirectoryW path w).2 = handles w
}.

Section opening.
Context `{Environment} `{Locale} `{LL : !LocaleLaws} `{WINFILE} `{!WINFILE_Laws}.
Context (malloc : Z -> option (list Z)) (TempDir : list Z).
Context (pool : forall n, 0 <= n -> exists m, malloc n = Some m /\ Z.of_nat (length m) = n).

(** ** Calls of the kernel *)

Lemma set_fkern_same (s : fstate) : set_fkern (fkern s) s = s.
Proof. by destruct s. Qed.

Lemma on_kernel_run {A} (m : K A) (s : fstate) a k : m (fkern s) = Ok (a, k) ->
  exists w, on_kernel m s = Ok (a, set_fworld w (set_fkern k s)).
Proof. intros E. unfold on_kernel. rewrite E. by eexists. Qed.

Lemma on_kernel_events {A} (m : K A) (s : fstate) a k es : m (fkern s) = Ok (a, k) -> events k = es ++ events (fkern s) ->
  on_kernel m s = Ok (a, set_fworld (close_all es (fworld s)) (set_fkern k s)).
Proof. intros E Ev. unfold on_kernel. rewrite E, Ev, length_app, Nat.add_sub. by rewrite take_app_length. Qed.

Lemma on_kernel_still {A} (m : K A) (s : fstate) a k : m (fkern s) = Ok (a, k) -> events k = events (fkern s) ->
  on_kernel m s = Ok (a, set_fkern k s).
Proof. intros E Ev. rewrite (on_kernel_events m s a k [] E Ev). by destruct s. Qed.

Lemma on_fkern_same {A} (m : K A) (s : fstate) a : m (fkern s) = Ok (a, fkern s) -> on_kernel m s = Ok (a, s).
Proof. intros E. rewrite (on_kernel_still m s a _ E eq_refl). by rewrite set_fkern_same. Qed.

Lemma on_kernel_err {A} (m : K A) (s : fstate) f : m (fkern s) = Err f -> on_kernel m s = Err f.
Proof. intros E. unfold on_kernel. by rewrite E. Qed.

Lemma set_status_run (s : fstate) B status info : is_Some (blocks s !! B) ->
  SetStatus B status info s = Ok (status, set_blocks <[B := (status, info)]> s).
Proof.
  intros [b Hb]. unfold SetStatus. rewrite (bind_run _ _ s (Some b) s) by (unfold fget; by rewrite Hb). done.
Qed.

(** ** A new file *)

(** Two events are open that were not. *)
Definition two_more (w w' : world) : Prop :=
  exists e f, e ∉ handles w /\ f ∉ {[e]} ∪ handles w /\ handles w' = {[e; f]} ∪ handles w.

Context (events_left : forall m i w, (CreateEvent m i w).1 <> 0).

Lemma alloc_file_run (s : fstate) p : exists w, two_more (fworld s) w /\
  DdkAllocFile (Some p) s = Ok (Some p, set_fworld w (set_positions <[p := 0]> (set_fkern (put_at (fkern s) p (file_object 1 0 0)) s))).
Proof.
  clear pool malloc. destruct (CreateEvent false true (fworld s)) as [e w1] eqn:E1. pose proof (events_left false true (fworld s)) as L1. rewrite E1 in L1. simpl in L1.
  destruct (CreateEvent true false w1) as [f w2] eqn:E2. pose proof (events_left true false w1) as L2. rewrite E2 in L2. simpl in L2.
  destruct (event_law _ _ _ _ _ E1) as [[? _] | (_ & Ne & He)]; [done |].
  destruct (event_law _ _ _ _ _ E2) as [[? _] | (_ & Nf & Hf)]; [done |]. rewrite He in Nf, Hf.
  exists w2. split; [exists e, f; split; [done |]; split; [done |]; rewrite Hf; set_solver |].
  unfold DdkAllocFile. set (k := put_at (fkern s) p (file_object 1 0 0)).
  rewrite (bind_run _ _ s (Some p) (set_fkern k s)) by by apply on_kernel_still.
  cbn iota. set (s1 := set_positions <[p := 0]> (set_fkern k s)). rewrite (bind_run _ _ _ tt s1) by done.
  rewrite (bind_run _ _ s1 tt (set_fworld w1 s1)).
  2: { unfold initialize_event. rewrite (bind_run _ _ s1 e (set_fworld w1 s1)) by (unfold call; change (fworld s1) with (fworld s); by rewrite E1).
       by apply Z.eqb_neq in L1 as ->. }
  rewrite (bind_run _ _ (set_fworld w1 s1) tt (set_fworld w2 s1)); [done |].
  unfold initialize_event. rewrite (bind_run _ _ _ f (set_fworld w2 s1)) by (unfold call; simpl; by rewrite E2).
  by apply Z.eqb_neq in L2 as ->.
Qed.

(** ** Files on devices *)

(** A device that has been found: the file takes over the reference. *)
Lemma device_file_run (s : fstate) p q o drv B : kinv (fkern s) -> fresh_public (fkern s) p ->
  objects (fkern s) !! q = Some o -> contents o = Device drv -> 1 <= client (fkern s) q -> is_Some (blocks s !! B) ->
  exists w, two_more (fworld s) w /\ kinv (put_at (fkern s) p (file_object 1 0 (q + sizeof_OBJECT))) /\
    (forall a, client (put_at (fkern s) p (file_object 1 0 (q + sizeof_OBJECT))) a = client (fkern s) a + one (a = p) - one (a = q)) /\
    (f ← DdkAllocFile (Some p);
     match f with
     | None =>
         _ ← on_kernel (DdkDereferenceObject q);
         status ← SetStatus B STATUS_INSUFFICIENT_RESOURCES FILE_EXISTS;
         mret (status, None)
     | Some f =>
         d ← on_kernel (ToPointer q);
         _ ← on_kernel (set_device f d);
         status ← SetStatus B STATUS_SUCCESS FILE_OPENED;
         mret (status, Some f)
     end) s =
      Ok ((STATUS_SUCCESS, Some p), set_blocks <[B := (STATUS_SUCCESS, FILE_OPENED)]>
        (set_fworld w (set_positions <[p := 0]> (set_fkern (put_at (fkern s) p (file_object 1 0 (q + sizeof_OBJECT))) s)))).
Proof.
  intros I Fp Eq Ec Hc Hb. destruct (alloc_file_run s p) as (w & Hw & Ea). exists w. split; [done |].
  destruct (kinv_new_file (fkern s) p 0 (q + sizeof_OBJECT) I Fp) as [I' C']; [right; by exists q, o, drv | done |].
  split; [done |]. split.
  { intros a. rewrite C'. pose proof (o_address _ _ _ (k_objects _ I q o Eq)). unfold one, sizeof_OBJECT. repeat case_decide; lia. }
  rewrite (bind_run _ _ _ _ _ Ea). cbn iota. set (s1 := set_fworld w _).
  assert (objects (fkern s1) !! q = Some o) as Eq1.
  { simpl. rewrite lookup_insert_ne; [done |]. intros ->. destruct Fp as [(_ & Hn & _) _]. congruence. }
  assert (type o = IoDeviceType) as Ht.
  { pose proof (o_typed _ _ _ (k_objects _ I q o Eq)) as Hw'. unfold well_typed in Hw'. by rewrite Ec in Hw'. }
  rewrite (bind_run _ _ s1 (q + sizeof_OBJECT) s1).
  2: { apply on_fkern_same. unfold ToPointer, isPublicObject, type_at. rewrite Eq1, Ht.
       pose proof (o_address _ _ _ (k_objects _ I q o Eq)). by destruct (Z.eqb_spec q 0); [lia |]. }
  set (k2 := put_at (fkern s) p (file_object 1 0 (q + sizeof_OBJECT))).
  rewrite (bind_run _ _ s1 tt (set_fkern k2 s1)).
  2: { apply on_kernel_still; [| done]. unfold set_device.
       rewrite (kbind _ _ _ _ _ (object_at_run (fkern s1) p (file_object 1 0 0) (lookup_insert_eq _ _ _))).
       change (Ok (tt, put_at (fkern s1) p (file_object 1 0 (q + sizeof_OBJECT))) = Ok (tt, k2)).
       unfold k2, s1. simpl. by rewrite put_put. }
  by rewrite (bind_run _ _ _ _ _ (set_status_run (set_fkern k2 s1) B STATUS_SUCCESS FILE_OPENED Hb)).
Qed.

(** What the directory has at a name. *)
Definition named_object (d : directory) (cs : list Z) : Z := match dlookup d cs with Some x => x.2 | None => 0 end.

Definition has_type (k : kernel) (t p : Z) : bool :=
  match objects k !! p with Some o => type o =? t | None => false end.

Lemma object_type_run (s : fstate) p k d g f : account k (fkern s) d g f -> (p <> 0 -> 1 <= client (fkern s) p) -> kinv k ->
  exists t, on_kernel (if p =? 0 then mret 0 else object_type p) s = Ok (t, s) /\
    forall t', t' <> 0 -> negb (p =? 0) && (t =? t') = has_type k t' p.
Proof.
  intros A Hc I. destruct (Z.eqb_spec p 0) as [-> | Hp].
  - exists 0. split; [by apply on_fkern_same |]. intros t' _. unfold has_type. destruct (objects k !! 0) as [o |] eqn:E; [| done].
    pose proof (o_address _ _ _ (k_objects _ I 0 o E)). lia.
  - destruct (client_pos _ _ (Hc Hp)) as (o & Eo & _). exists (type o). split.
    + apply on_fkern_same. unfold object_type. by rewrite (kbind _ _ _ _ _ (object_at_run _ _ _ Eo)).
    + intros t' _. destruct (a_types _ _ _ _ _ A p o Eo) as (o' & Eo' & Et & _). unfold has_type. by rewrite Eo', Et.
Qed.

(** The link is followed; anything else is what has been looked for. *)
Lemma follow_run (s : fstate) x d k g f : account k (fkern s) d g f -> kinv k -> links_ok k -> CurrentIrql (fkern s) = 0 ->
  room 1002 (fkern s) -> (x <> 0 -> 1 <= client (fkern s) x) ->
  let m := on_kernel (if has_type k IoSymbolicLinkType x then DdkResolveSymbolicLink malloc x else mret x) in
  (m s = Err recursive /\ chain_too_long k d x) \/
  exists q k' w g', m s = Ok (q, set_fworld w (set_fkern k' s)) /\ chain_end k d x q /\
    account (fkern s) k' d g' (fun a => held_by q a - held_by x a).
Proof.
  intros A I L Hi Rm Hc. cbv zeta. destruct (has_type k IoSymbolicLinkType x) eqn:Et.
  - destruct (resolve_run malloc pool 1002 (fkern s) d 0 x (a_inv _ _ _ _ _ A) Hi (a_names _ _ _ _ _ A) (links_after _ _ _ _ _ A L) Rm Hc)
      as [[E (q & Hq & Hk)] | (n & q & k' & g' & E & Hr & Hn & Ho & Hk & Hx & A')]; [lia | lia | lia | |].
    + left. split; [by apply on_kernel_err |]. exists q.
      split; [exact (nsteps_weaken _ _ (fun a b => hop_before _ _ _ _ _ a b A) _ _ _ Hq) |].
      apply (is_link_kept _ _ _ _ _ q A); [| done]. by destruct Hk as (o & -> & _).
    + right. destruct (on_kernel_run (DdkResolveSymbolicLink malloc x) s q k' E) as [w Ew]. exists q, k', w, g'.
      split; [done |]. split; [| done]. exists n.
      split; [exact (nsteps_weaken _ _ (fun a b => hop_before _ _ _ _ _ a b A) _ _ _ Hr) |]. split; [lia |].
      destruct (Z.eq_dec q 0) as [-> | Nq]; [by destruct (no_link_at_zero k I) |].
      assert (objects (fkern s) !! q <> None) as Hq by (by apply (exists_before _ _ _ _ _ q A'), Hx).
      split; [intros Hl; by apply Ho, (open_link_kept _ _ _ _ _ q I A) |]. intros En. rewrite (is_link_kept _ _ _ _ _ q A) by done. by apply Hk.
  - right. assert (~ is_link k x) as Nl by (intros (o & Eo & Ho); unfold has_type in Et; rewrite Eo, Ho in Et; done).
    exists x, (fkern s), (fworld s), 0. split; [| split].
    + transitivity (Ok (x, s) : result (Z * fstate)); [by apply on_fkern_same | by destruct s].
    + exists 0%nat. split; [constructor |]. split; [lia |]. split; [| done].
      intros (o & t & Eo & Ec). apply Nl. exists o. split; [done |]. pose proof (o_typed _ _ _ (k_objects _ I x o Eo)) as Hw. unfold well_typed in Hw. by rewrite Ec in Hw.
    + eapply account_ext; [| apply account_refl; [apply A | apply A]]. intros a. simpl. lia.
Qed.

(** The kernel is sound, its names are the same, and each client has [f] references more. *)
Record accounted (s s' : fstate) (d : directory) (f : Z -> Z) : Prop := {
  ac_inv : kinv (fkern s');
  ac_names : names_as d (fkern s');
  ac_client : forall a, client (fkern s') a = client (fkern s) a + f a
}.

Section device.
Context (s : fstate) (d : directory) (path cs : list Z) (new : option Z) (B Options : Z).
Context (I : kinv (fkern s)) (Irql : CurrentIrql (fkern s) = 0) (Nd : names_as d (fkern s)) (Lk : links_ok (fkern s)).
Context (Rm : room 1003 (fkern s)) (P : path_of malloc None path cs) (Hb : is_Some (blocks s !! B)).
Context (Fp : forall p, new = Some p -> fresh_public (fkern s) p).

Let x := named_object d cs.

(** The name is a link that is not to be followed. *)
Definition stopped : bool := has_type (fkern s) IoSymbolicLinkType x && flag Options IO_STOP_ON_SYMLINK.

Lemma create_device_stopped : stopped = true ->
  exists s', DdkIoCreateDevice malloc new path B Options s = Ok ((STATUS_STOPPED_ON_SYMLINK, None), s') /\
    accounted s s' d (fun a => one (a = x)) /\ blocks s' !! B = Some (STATUS_STOPPED_ON_SYMLINK, FILE_DOES_NOT_EXIST).
Proof.
  intros Hs. destruct (lookup_run malloc None path cs P (fkern s) d I Irql Nd (room_less 1003 1 _ ltac:(lia) Rm)) as (k1 & E1 & A1).
  fold (named_object d cs) in E1, A1. fold x in E1, A1. destruct (on_kernel_run _ s _ _ E1) as [w1 E1']. set (s1 := set_fworld w1 _) in *.
  unfold DdkIoCreateDevice. rewrite (bind_run _ _ _ _ _ E1').
  assert (x <> 0 -> 1 <= client (fkern s1) x) as Hx.
  { intros Hx. change (fkern s1) with k1. rewrite (a_client _ _ _ _ _ A1), one_yes by done. pose proof (client_nonneg (fkern s) x I). lia. }
  destruct (object_type_run s1 x (fkern s) d _ _ A1 Hx I) as (t & Et & Ht). rewrite (bind_run _ _ _ _ _ Et).
  rewrite Ht by done. unfold stopped in Hs. rewrite Hs.
  rewrite (bind_run _ _ _ _ _ (set_status_run s1 B STATUS_STOPPED_ON_SYMLINK FILE_DOES_NOT_EXIST Hb)).
  eexists. split; [done |]. split; [| apply lookup_insert_eq]. split; [apply A1 | apply A1 |].
  intros a. cbn [fkern set_blocks]. change (fkern s1) with k1. rewrite (a_client _ _ _ _ _ A1). f_equal.
  assert (x <> 0) as Nx.
  { intros E. apply andb_prop in Hs as [Hs _]. unfold has_type in Hs. destruct (objects (fkern s) !! x) as [o |] eqn:Eo; [| done].
    pose proof (o_address _ _ _ (k_objects _ I x o Eo)). lia. }
  unfold one. repeat case_decide; tauto.
Qed.

Lemma create_device_followed : stopped = false ->
  (DdkIoCreateDevice malloc new path B Options s = Err recursive /\ chain_too_long (fkern s) d x) \/
  exists q s', chain_end (fkern s) d x q /\
    if has_type (fkern s) IoDeviceType q then
      match new with
      | Some p =>
          DdkIoCreateDevice malloc new path B Options s = Ok ((STATUS_SUCCESS, Some p), s') /\
          accounted s s' d (fun a => one (a = p)) /\ blocks s' !! B = Some (STATUS_SUCCESS, FILE_OPENED) /\
          positions s' !! p = Some 0 /\ objects (fkern s') !! p = Some (file_object 1 0 (q + sizeof_OBJECT))
      | None =>
          DdkIoCreateDevice malloc new path B Options s = Ok ((STATUS_INSUFFICIENT_RESOURCES, None), s') /\
          accounted s s' d (fun _ => 0) /\ blocks s' !! B = Some (STATUS_INSUFFICIENT_RESOURCES, FILE_EXISTS)
      end
    else
      DdkIoCreateDevice malloc new path B Options s = Ok ((STATUS_OBJECT_NAME_NOT_FOUND, None), s') /\
      accounted s s' d (fun a => one (a = q /\ q <> 0)) /\ blocks s' !! B = Some (STATUS_OBJECT_NAME_NOT_FOUND, FILE_DOES_NOT_EXIST).
Proof.
  intros Hs. destruct (lookup_run malloc None path cs P (fkern s) d I Irql Nd (room_less 1003 1 _ ltac:(lia) Rm)) as (k1 & E1 & A1).
  fold (named_object d cs) in E1, A1. fold x in E1, A1. destruct (on_kernel_run _ s _ _ E1) as [w1 E1']. set (s1 := set_fworld w1 _) in *.
  assert (x <> 0 -> 1 <= client (fkern s1) x) as Hx.
  { intros Hx. change (fkern s1) with k1. rewrite (a_client _ _ _ _ _ A1), one_yes by done. pose proof (client_nonneg (fkern s) x I). lia. }
  destruct (object_type_run s1 x (fkern s) d _ _ A1 Hx I) as (t & Et & Ht).
  unfold DdkIoCreateDevice. rewrite (bind_run _ _ _ _ _ E1'), (bind_run _ _ _ _ _ Et). rewrite Ht by done. unfold stopped in Hs. rewrite Hs.
  assert (CurrentIrql (fkern s1) = 0) as Irql1 by (change (fkern s1) with k1; by rewrite (a_irql _ _ _ _ _ A1)).
  destruct (follow_run s1 x d (fkern s) _ _ A1 I Lk Irql1 (room_after _ _ _ _ _ 1002 A1 Rm) Hx)
    as [[Ef Hq] | (q & k2 & w2 & g & Ef & Hr & A2)].
  { left. split; [| done]. unfold mbind, M_bind in *. by rewrite Ef. }
  right. rewrite (bind_run _ _ _ _ _ Ef). set (s2 := set_fworld w2 _) in *.
  pose proof (account_trans _ _ _ _ _ _ _ _ _ A1 A2) as A. cbn [fkern s2] in A.
  assert (forall a, client k2 a = client (fkern s) a + held_by q a) as C2.
  { intros a. rewrite (a_client _ _ _ _ _ A). unfold held_by. lia. }
  assert (q <> 0 -> 1 <= client (fkern s2) q) as Hq.
  { intros Hq. change (fkern s2) with k2. rewrite C2. unfold held_by. rewrite one_yes by done. pose proof (client_nonneg (fkern s) q I). lia. }
  destruct (object_type_run s2 q (fkern s) d _ _ A Hq I) as (t2 & Et2 & Ht2). rewrite (bind_run _ _ _ _ _ Et2).
  specialize (Ht2 IoDeviceType ltac:(done)). exists q.
  replace ((q =? 0) || negb (t2 =? IoDeviceType)) with (negb (has_type (fkern s) IoDeviceType q)).
  2: { rewrite <- Ht2. by destruct (q =? 0), (t2 =? IoDeviceType). }
  destruct (has_type (fkern s) IoDeviceType q) eqn:Ed; cbn [negb].
  - apply andb_prop in Ht2 as [Nq Ht2]. apply negb_true_iff, Z.eqb_neq in Nq. specialize (Hq Nq).
    destruct (client_pos _ _ Hq) as (o & Eo & _). destruct (a_types _ _ _ _ _ A q o Eo) as (o' & Eo' & Hto & _).
    assert (type o = IoDeviceType) as Hd by (unfold has_type in Ed; rewrite Eo' in Ed; apply Z.eqb_eq in Ed; congruence).
    assert (exists drv, contents o = Device drv) as [drv Ec].
    { pose proof (o_typed _ _ _ (k_objects _ (a_inv _ _ _ _ _ A) q o Eo)) as Hw. unfold well_typed in Hw.
      destruct (contents o); try (rewrite Hw in Hd; discriminate Hd); [| by eexists].
      destruct Hw as [Hw _]. rewrite Hd in Hw. discriminate Hw. }
    destruct new as [p |].
    2: { destruct (drop_run k2 q d (a_inv _ _ _ _ _ A) (a_names _ _ _ _ _ A) Hq) as (k3 & E3 & A3).
         rewrite (bind_run _ _ s2 None s2) by by (unfold DdkAllocFile; rewrite (bind_run _ _ s2 None s2) by by apply on_fkern_same).
         cbn iota. destruct (on_kernel_run _ s2 tt k3 E3) as [w3 Ew3]. rewrite (bind_run _ _ _ _ _ Ew3).
         set (s3 := set_fworld w3 _). rewrite (bind_run _ _ _ _ _ (set_status_run s3 B STATUS_INSUFFICIENT_RESOURCES FILE_EXISTS Hb)).
         eexists. split; [done |]. split; [done |]. split; [| apply lookup_insert_eq]. split; [apply A3 | apply A3 |].
         intros a. cbn [fkern set_blocks]. change (fkern s3) with k3. rewrite (a_client _ _ _ _ _ A3), C2. unfold held_by, one.
         repeat case_decide; (lia || naive_solver). }
    specialize (Fp p eq_refl).
    destruct (device_file_run s2 p q o drv B (a_inv _ _ _ _ _ A) (fresh_account _ _ _ _ _ _ A Fp) Eo Ec Hq Hb)
      as (w & _ & I3 & C3 & E3).
    eexists. split; [done |]. split; [exact E3 |]. split; [| split; [apply lookup_insert_eq | split; apply lookup_insert_eq]].
    split; [exact I3 | apply (a_names _ _ _ _ _ A) |]. intros a. cbn [fkern set_blocks set_fworld set_positions set_fkern].
    rewrite C3. change (fkern s2) with k2. rewrite C2. unfold held_by, one. repeat case_decide; (lia || naive_solver).
  - rewrite (bind_run _ _ _ _ _ (set_status_run s2 B STATUS_OBJECT_NAME_NOT_FOUND FILE_DOES_NOT_EXIST Hb)).
    eexists. split; [done |]. split; [done |]. split; [| apply lookup_insert_eq]. split; [apply A | apply A |]. intros a. apply C2.
Qed.

(** C20. Opening a name that is not a file of the system: all its links are followed, to
    where they end ([chain_end], which there is at most one of; a chain that is too long is a
    failure), and if that is a device the handle is to a new file on it, which the device is
    kept for, and which is the only thing its client holds.  Without memory for the file
    nothing is opened or held.  In every other case nothing is opened, but for what has
    been found - the link that is not to be followed, or an object that is not a device - a
    reference is kept that nobody can give back. *)
Theorem IoCreateFileEx_device u access attributes share disposition options
  (Hu : chars u = Ok path) (Hf : DdkIsFilePath path = false) (NB : B <> 0) :
  let open := IoCreateFileEx malloc TempDir new access (Some (mkAttributes 0 (Some u))) B attributes share disposition
    options Options s in
  if stopped then
    exists s', open = Ok ((STATUS_STOPPED_ON_SYMLINK, None), s') /\ accounted s s' d (fun a => one (a = x)) /\
      blocks s' !! B = Some (STATUS_STOPPED_ON_SYMLINK, FILE_DOES_NOT_EXIST)
  else
    (open = Err recursive /\ chain_too_long (fkern s) d x) \/
    exists q s', chain_end (fkern s) d x q /\
      if has_type (fkern s) IoDeviceType q then
        match new with
        | Some p =>
            open = Ok ((STATUS_SUCCESS, Some (ToHandle p)), s') /\
            accounted s s' d (fun a => one (a = p)) /\ blocks s' !! B = Some (STATUS_SUCCESS, FILE_OPENED) /\
            positions s' !! p = Some 0 /\ objects (fkern s') !! p = Some (file_object 1 0 (q + sizeof_OBJECT))
        | None =>
            open = Ok ((STATUS_INSUFFICIENT_RESOURCES, None), s') /\
            accounted s s' d (fun _ => 0) /\ blocks s' !! B = Some (STATUS_INSUFFICIENT_RESOURCES, FILE_EXISTS)
        end
      else
        open = Ok ((STATUS_OBJECT_NAME_NOT_FOUND, None), s') /\
        accounted s s' d (fun a => one (a = q /\ q <> 0)) /\
        blocks s' !! B = Some (STATUS_OBJECT_NAME_NOT_FOUND, FILE_DOES_NOT_EXIST).
Proof.
  intros open. assert (open = (('(status, f) ← DdkIoCreateDevice malloc new path B Options;
    if negb (NT_SUCCESS status) then mret (status, None) else
    match f with None => fail (BadAccess 0) | Some f => mret (status, Some (ToHandle f)) end) : F (Z * option Z)) s) as ->.
  { unfold open, IoCreateFileEx. cbn [ObjectName RootDirectory]. apply Z.eqb_neq in NB as ->.
    rewrite (bind_run _ _ s tt s) by done. rewrite (bind_run _ _ s path s) by (unfold lift; by rewrite Hu). by rewrite Hf. }
  destruct stopped eqn:Es.
  - destruct (create_device_stopped Es) as (s' & E & R). exists s'. by rewrite (bind_run _ _ _ _ _ E).
  - destruct (create_device_followed Es) as [[E R] | (q & s' & Hr & R)].
    + left. split; [| done]. unfold mbind, M_bind. by rewrite E.
    + right. exists q, s'. split; [done |].
      destruct (has_type (fkern s) IoDeviceType q); [destruct new as [p |] |]; destruct R as [E R]; (split; [by rewrite (bind_run _ _ _ _ _ E) | done]).
Qed.

End device.

(** ** Closing *)

(** What freeing an object with handle [h] does besides. *)
Definition closing (h : Z) (k : kernel) : kernel := if h =? 0 then k else log (Objects.CloseHandle h) k.

Lemma free_file_run k k1 p hk d : objects k !! p = Some (file_object 0 hk d) ->
  (if d =? 0 then mret tt else q ← FromPointer d; dereference (DdkFreeObject 2) q) k = Ok (tt, k1) ->
  objects k1 !! p = Some (file_object 0 hk d) -> (forall e, e ∈ DdkNameList k1 -> Object e <> p) ->
  NoDup (addr <$> DdkNameList k1) -> (hk <> 0 -> hk <> GetCurrentProcess) ->
  DdkFreeObject free_depth p k = Ok (tt, log (Freed p) (closing hk (delete_at k1 p))).
Proof.
  intros Ep Ed E1 Nm Nd Hk. unfold free_depth. cbn [DdkFreeObject]. rewrite (kbind _ _ _ _ _ (object_at_run k p _ Ep)).
  change (type (file_object 0 hk d) =? IoFileType) with true. cbn iota.
  rewrite (kbind _ _ k tt k1) by (unfold DdkFreeFileObject; by rewrite (kbind _ _ _ _ _ (object_at_run k p _ Ep))).
  set (k2 := closing hk (put_at k1 p (file_object 0 0 d))).
  assert (objects k2 !! p = Some (file_object 0 0 d) /\ DdkNameList k2 = DdkNameList k1) as [E2 Nl].
  { unfold k2, closing. destruct (hk =? 0); simpl; (split; [apply lookup_insert_eq | done]). }
  rewrite (kbind _ _ k1 tt k2).
  2: { unfold close_handle. rewrite (kbind _ _ _ _ _ (object_at_run k1 p _ E1)). cbn [Objects.h file_object].
       unfold k2, closing. destruct (Z.eqb_spec hk 0) as [-> | Nk].
       - do 2 f_equal. symmetry. unfold put_at, set_objects. rewrite insert_id by done. by destruct k1.
       - rewrite (kbind _ _ k1 tt k1); [done |]. unfold ddkassertM, lift, ddkassert.
         by destruct (Z.eqb_spec hk GetCurrentProcess); [by destruct Hk |]. }
  rewrite (kbind _ _ k2 tt k2).
  2: { unfold remove_object_name, remove_names. rewrite (kbind _ _ k2 (length (DdkNameList k2)) k2) by done.
       apply (remove_loop_none _ _ (DdkNameList k2) k2 []); try done; by rewrite Nl. }
  rewrite (kbind _ _ _ _ _ (object_at_run k2 p _ E2)). cbn [alloc file_object]. unfold modify. do 2 f_equal.
  unfold k2, closing, log, delete_at, put_at, set_objects. destruct (hk =? 0); simpl; by rewrite delete_insert_eq.
Qed.

Lemma close_file_run k k1 p hk d : kinv k -> CurrentIrql k = 0 -> 0 < p < 2 ^ 64 -> Z.even p = true ->
  objects k !! p = Some (file_object 1 hk d) ->
  DdkFreeObject free_depth p (put_at k p (file_object 0 hk d)) = Ok (tt, k1) ->
  ZwClose (ToHandle p) k = Ok (STATUS_SUCCESS, k1).
Proof.
  intros I Irql Hp He Ep Ef. destruct (clear_low_bit p Hp He) as [_ Hl].
  assert (isValidObject k p = true) as Hv.
  { unfold isValidObject, type_at. rewrite Ep. by destruct (Z.eqb_spec p 0); [lia |]. }
  unfold ZwClose. rewrite (kbind _ _ _ _ _ (from_handle_run k p _ (ToHandle p) I Ep Hl)). rewrite Hv.
  cbn [type refcount file_object].
  change (true && (1 >? 0) && is_handle_type IoFileType) with true. cbn iota.
  destruct (Z.eqb_spec p 0); [lia |].
  rewrite (kbind _ _ k tt k) by (unfold at_passive, assert_irql; by rewrite (kbind _ _ k _ k (irql_run k _ Irql))).
  rewrite (kbind _ _ k 0 k1); [done |]. unfold ObfDereferenceObject, ObfDereferenceObjectWithTag.
  rewrite (kbind _ _ _ _ _ (from_self_run k p _ Ep Hv ltac:(done))).
  rewrite (kbind _ _ k tt k) by (unfold at_dispatch, assert_irql; by rewrite (kbind _ _ k _ k (irql_run k _ Irql))).
  rewrite (kbind _ _ _ _ _ (decrement_run k p _ Ep ltac:(done))).
  change (negb (refcount (file_object 1 hk d) - 1 =? 0)) with false. cbn iota. by rewrite (kbind _ _ _ tt k1).
Qed.

Section roundtrip.
Context (s : fstate) (d : directory) (path cs : list Z) (x : list Z * Z) (o : OBJECT) (drv p B : Z).
Context (I : kinv (fkern s)) (Irql : CurrentIrql (fkern s) = 0) (Nd : names_as d (fkern s)).
Context (Rm : room 1 (fkern s)) (P : path_of malloc None path cs) (Hb : is_Some (blocks s !! B)).
Context (Fp : fresh_public (fkern s) p) (Hp : p < 2 ^ 64) (He : Z.even p = true).
Context (Ex : dlookup d cs = Some x) (Eo : objects (fkern s) !! x.2 = Some o) (Ec : contents o = Device drv).

Let k := fkern s.
Let k1 := put_at k x.2 (with_count o (refcount o + 1)).
Let kO := put_at k1 p (file_object 1 0 (x.2 + sizeof_OBJECT)).

Lemma device_type : type o = IoDeviceType.
Proof. pose proof (o_typed _ _ _ (k_objects _ I x.2 o Eo)) as Hw. unfold well_typed in Hw. by rewrite Ec in Hw. Qed.

Lemma not_the_file : x.2 <> p.
Proof. intros E. destruct Fp as [(_ & Hn & _) _]. rewrite E in Eo. congruence. Qed.

Lemma open_device_run Options : exists w, two_more (fworld s) w /\ kinv kO /\
  DdkIoCreateDevice malloc (Some p) path B Options s =
    Ok ((STATUS_SUCCESS, Some p), set_blocks <[B := (STATUS_SUCCESS, FILE_OPENED)]>
      (set_fworld w (set_positions <[p := 0]> (set_fkern kO s)))).
Proof.
  pose proof (lookup_raw malloc None path cs k d P I Irql Nd Rm) as E1. rewrite Ex, (referenced_at k _ _ Eo) in E1. fold k1 in E1.
  destruct (lookup_run malloc None path cs P k d I Irql Nd Rm) as (k1' & E1' & A1). rewrite Ex in E1', A1.
  assert (k1' = k1) as -> by congruence. set (s1 := set_fkern k1 s).
  assert (on_kernel (DdkLookupName malloc path None) s = Ok (x.2, s1)) as El by by apply on_kernel_still.
  assert (objects (fkern s1) !! x.2 = Some (with_count o (refcount o + 1))) as Eo1 by apply lookup_insert_eq.
  destruct (dlookup_object d cs x k I Nd Ex) as (_ & _ & _ & Nx0).
  assert (1 <= client (fkern s1) x.2) as Hc.
  { change (fkern s1) with k1. rewrite (a_client _ _ _ _ _ A1), one_yes by done. pose proof (client_nonneg k x.2 I). lia. }
  destruct (device_file_run s1 p x.2 _ drv B (a_inv _ _ _ _ _ A1) (fresh_account _ _ _ _ _ _ A1 Fp) Eo1 Ec Hc Hb) as (w & Hw & IO & _ & Ef).
  exists w. split; [done |]. split; [exact IO |]. unfold DdkIoCreateDevice. rewrite (bind_run _ _ _ _ _ El).
  apply Z.eqb_neq in Nx0 as Nxb. rewrite Nxb.
  assert (on_kernel (object_type x.2) s1 = Ok (IoDeviceType, s1)) as Et.
  { apply on_fkern_same. unfold object_type. rewrite (kbind _ _ _ _ _ (object_at_run _ _ _ Eo1)). simpl. by rewrite device_type. }
  rewrite (bind_run _ _ _ _ _ Et). change (IoDeviceType =? IoSymbolicLinkType) with false. cbn [negb andb].
  rewrite (bind_run _ _ s1 x.2 s1) by by apply on_fkern_same. rewrite Nxb. rewrite (bind_run _ _ _ _ _ Et). exact Ef.
Qed.

(** A file on a device that is opened and closed leaves the kernel exactly as before,
    every count, every name and the device's driver; but the two events that each file
    has stay open in the process. *)
Theorem device_file_roundtrip u access attributes share disposition options Options
  (Hu : chars u = Ok path) (Hf : DdkIsFilePath path = false) (NB : B <> 0) :
  exists w, two_more (fworld s) w /\
    ('(status, f) ← IoCreateFileEx malloc TempDir (Some p) access (Some (mkAttributes 0 (Some u))) B attributes share disposition
        options Options;
     match f with Some f => on_kernel (ZwClose f) | None => mret status end) s =
    Ok (STATUS_SUCCESS, set_blocks <[B := (STATUS_SUCCESS, FILE_OPENED)]>
      (set_fworld w (set_positions <[p := 0]> (set_fkern (log (Freed p) (fkern s)) s)))).
Proof.
  destruct (open_device_run Options) as (w & Hw & IO & E). exists w. split; [done |]. set (s2 := set_blocks _ _) in E.
  rewrite (bind_run _ _ s (STATUS_SUCCESS, Some (ToHandle p)) s2).
  2: { unfold IoCreateFileEx. cbn [ObjectName RootDirectory]. apply Z.eqb_neq in NB as ->.
       rewrite (bind_run _ _ s tt s) by done. rewrite (bind_run _ _ s path s) by (unfold lift; by rewrite Hu). rewrite Hf.
       by rewrite (bind_run _ _ _ _ _ E). }
  assert (ZwClose (ToHandle p) (fkern s2) = Ok (STATUS_SUCCESS, log (Freed p) k)) as Ez.
  { change (fkern s2) with kO. destruct Fp as [(Hp0 & Hn & _) _]. pose proof not_the_file as Nxp.
    apply (close_file_run kO _ p 0 (x.2 + sizeof_OBJECT) IO Irql ltac:(lia) He (lookup_insert_eq _ _ _)).
    set (kF := put_at kO p (file_object 0 0 (x.2 + sizeof_OBJECT))). set (k3 := put_at kF x.2 (with_count o (refcount o))).
    assert (objects kF !! x.2 = Some (with_count o (refcount o + 1))) as Eq.
    { unfold kF, kO, k1. simpl. rewrite !lookup_insert_ne by done. apply lookup_insert_eq. }
    rewrite (free_file_run kF k3 p 0 (x.2 + sizeof_OBJECT)); try done.
    - unfold k3, kF, kO, k1, closing, log, delete_at, put_at, set_objects. simpl. do 3 f_equal.
      rewrite delete_insert_ne, !delete_insert_eq by done. rewrite delete_insert_ne, delete_id by done.
      rewrite insert_insert_eq. rewrite insert_id; [by destruct k |]. unfold k. rewrite Eo. by destruct o.
    - apply lookup_insert_eq.
    - pose proof (o_address _ _ _ (k_objects _ I x.2 o Eo)) as Hq. destruct (dlookup_object d cs x k I Nd Ex) as (o' & Eo' & Hc & _).
      assert (o' = o) as -> by (unfold k in Eo'; congruence). pose proof (Rm x.2 o Eo).
      assert (x.2 + sizeof_OBJECT =? 0 = false) as -> by (unfold sizeof_OBJECT; lia).
      rewrite (kbind _ _ kF x.2 kF).
      + unfold dereference. rewrite (kbind _ _ _ _ _ (decrement_run kF x.2 _ Eq ltac:(simpl; lia))). simpl.
        replace (refcount o + 1 - 1) with (refcount o) by lia. by destruct (Z.eqb_spec (refcount o) 0); [lia |].
      + apply (from_public_at kF x.2 _ Hq Eq); [simpl; by rewrite device_type | simpl; lia |].
        assert (isValidObject kO (x.2 + sizeof_OBJECT) = false) as Hv.
        { refine (proj2 (o_hidden _ _ _ (k_objects _ IO x.2 (with_count o (refcount o + 1)) _) _)).
          - unfold kO, k1. simpl. rewrite lookup_insert_ne by done. apply lookup_insert_eq.
          - simpl. by rewrite device_type. }
        unfold kF. by rewrite (valid_put kO p (file_object 1 0 (x.2 + sizeof_OBJECT))) by (done || apply lookup_insert_eq).
    - unfold k3. simpl. rewrite lookup_insert_ne by done. apply lookup_insert_eq.
    - apply (new_unnamed k p I). by apply Fp.
    - apply (k_entries _ I). }
  rewrite (on_kernel_events _ s2 _ _ [Freed p] Ez); [| done]. done.
Qed.

End roundtrip.

End opening.
