(* ===== verification/FilesSystem.v ===== *)
(** * FilesSystem: files of the system, their handles and their positions *)

From S2P Require Import Prelude Strings StringsOps StringsSpec Objects Names NamesPath.
From S2P Require Import ObjectsInv ObjectsSpec NamesSpec SymlinkSpec ResolveSpec HandleSpec DeviceObjects.
From S2P Require Import Memory LocalPath Files FilesSpec.

Section opening.
Context `{Environment} `{Locale} `{LL : !LocaleLaws} `{WINFILE} `{!WINFILE_Laws}.
Context (TempDir : list Z) (Ht : no_nul TempDir).
Context (malloc : Z -> option (list Z)).
Context (events_left : forall m i w, (CreateEvent m i w).1 <> 0).

(** ** The directories on the way *)

Definition made (path : list Z) (s : fstate) : fstate := set_fworld (CreateDirectoryW path (fworld s)).2 s.

Lemma make_directory_run path s : make_directory path s = Ok (tt, made path s).
Proof. unfold make_directory, call, made, mbind, M_bind. by destruct (CreateDirectoryW path (fworld s)). Qed.

Definition dirs_made (ps : list (list Z)) (w : world) : world := foldl (fun w p => (CreateDirectoryW p w).2) w ps.

Lemma make_all_run ps s : make_all made ps s = set_fworld (dirs_made ps (fworld s)) s.
Proof. revert s. induction ps as [| q ps IH]; intros s; [by destruct s |]. simpl. unfold make_all in *. simpl. rewrite IH. done. Qed.

Lemma dirs_handles ps w : handles (dirs_made ps w) = handles w.
Proof. revert w. induction ps as [| q ps IH]; intros w; [done |]. change (handles (dirs_made ps (CreateDirectoryW q w).2) = handles w). rewrite IH. apply directory_law. Qed.

(** ** Opening a file of the system *)

(** Where the file is, and the directories that are made for it. *)
Definition may_create (Disposition : Z) : bool := negb (Disposition =? FILE_OPEN) && negb (Disposition =? FILE_OVERWRITE).

Definition local_name (name : list Z) (Disposition : Z) : list Z :=
  let rest := until_nul (local_part name) in TempDir ++ (if may_create Disposition then map as_backslash rest else rest).

Definition local_dirs (name : list Z) (Disposition : Z) : list (list Z) :=
  if may_create Disposition then ancestors TempDir (until_nul (local_part name)) else [].

Definition fits (name : list Z) : Prop := Z.of_nat (length (TempDir ++ until_nul (local_part name))) <= MAX_PATH.

(** What a disposition of the kernel is for the system: whether a file must be there, and
    what becomes of its contents. *)
Definition disposition (existing : option bool) (emptied : bool) : Z :=
  match existing, emptied with
  | Some false, _ => CREATE_NEW
  | Some true, true => TRUNCATE_EXISTING
  | Some true, false => OPEN_EXISTING
  | None, true => CREATE_ALWAYS
  | None, false => OPEN_ALWAYS
  end.

Definition asked (Disposition : Z) : Z :=
  disposition
    (if (Disposition =? FILE_OPEN) || (Disposition =? FILE_OVERWRITE) then Some true
     else if Disposition =? FILE_CREATE then Some false else None)
    ((Disposition =? FILE_SUPERSEDE) || (Disposition =? FILE_OVERWRITE) || (Disposition =? FILE_OVERWRITE_IF)).

Lemma asked_disposition Disposition : 0 <= Disposition <= 5 -> (DdkGetFileDisposition Disposition).1 = asked Disposition.
Proof.
  intros Hd. assert (Disposition = 0 \/ Disposition = 1 \/ Disposition = 2 \/ Disposition = 3 \/ Disposition = 4 \/ Disposition = 5) as Hc by lia.
  by destruct Hc as [-> | [-> | [-> | [-> | [-> | ->]]]]].
Qed.

(** The options that the system has flags for. *)
Definition option_flags : list (Z * Z) :=
  [(FILE_DIRECTORY_FILE, FILE_FLAG_BACKUP_SEMANTICS); (FILE_WRITE_THROUGH, FILE_FLAG_WRITE_THROUGH);
   (FILE_NO_INTERMEDIATE_BUFFERING, FILE_FLAG_NO_BUFFERING); (FILE_DELETE_ON_CLOSE, FILE_FLAG_DELETE_ON_CLOSE)].

Definition asked_flags (attributes CreateOptions : Z) : Z :=
  Z.lor attributes (foldr (fun x f => Z.lor (if flag CreateOptions x.1 then x.2 else 0) f) 0 option_flags).

Lemma asked_flags_run attributes CreateOptions : Z.lor attributes (DdkGetFileFlags CreateOptions) = asked_flags attributes CreateOptions.
Proof.
  unfold asked_flags, DdkGetFileFlags, option_flags. cbn [foldr fst snd].
  by destruct (flag CreateOptions FILE_WRITE_THROUGH), (flag CreateOptions FILE_NO_INTERMEDIATE_BUFFERING),
    (flag CreateOptions FILE_DELETE_ON_CLOSE), (flag CreateOptions FILE_DIRECTORY_FILE).
Qed.

(** The statuses that stand for the errors of the system; any other error is just a failure. *)
Definition error_statuses : list (Z * Z) :=
  [(ERROR_FILE_NOT_FOUND, STATUS_OBJECT_NAME_NOT_FOUND); (ERROR_PATH_NOT_FOUND, STATUS_OBJECT_PATH_NOT_FOUND);
   (ERROR_ACCESS_DENIED, STATUS_ACCESS_DENIED); (ERROR_SHARING_VIOLATION, STATUS_SHARING_VIOLATION);
   (ERROR_FILE_EXISTS, STATUS_OBJECT_NAME_COLLISION); (ERROR_NOT_ENOUGH_MEMORY, STATUS_INSUFFICIENT_RESOURCES);
   (ERROR_INVALID_HANDLE, STATUS_INVALID_HANDLE); (ERROR_INVALID_PARAMETER, STATUS_INVALID_PARAMETER);
   (ERROR_MORE_DATA, STATUS_BUFFER_TOO_SMALL); (ERROR_NOACCESS, STATUS_ACCESS_VIOLATION);
   (ERROR_HANDLE_EOF, STATUS_END_OF_FILE)].

Fixpoint status_in (es : list (Z * Z)) (rc : Z) : Z :=
  match es with [] => STATUS_UNSUCCESSFUL | (e, status) :: es => if rc =? e then status else status_in es rc end.

Definition status_of (rc : Z) : Z := status_in error_statuses rc.

Lemma status_of_run rc : rc <> ERROR_SUCCESS -> DdkGetFileStatus rc = status_of rc.
Proof.
  intros N. unfold DdkGetFileStatus, status_of. apply Z.eqb_neq in N. rewrite N. cbn [status_in error_statuses].
  repeat match goal with |- context [rc =? ?e] => destruct (Z.eqb_spec rc e) as [-> |]; [done |] end. done.
Qed.

(** What is asked of the system: a directory is made first, and then opened. *)
Definition requested_open (path : list Z) (Disposition CreateOptions : Z) (w : world) : Z * Z * bool * world :=
  if flag CreateOptions FILE_DIRECTORY_FILE then
    if Disposition =? FILE_OPEN then (STATUS_SUCCESS, OPEN_EXISTING, true, w)
    else if (Disposition =? FILE_CREATE) || (Disposition =? FILE_OPEN_IF) then
      let '(rc, w) := CreateDirectoryW path w in
      let status := if rc =? ERROR_SUCCESS then STATUS_SUCCESS
        else if rc =? ERROR_ALREADY_EXISTS then if Disposition =? FILE_CREATE then STATUS_OBJECT_NAME_COLLISION else STATUS_SUCCESS
        else status_of rc in
      (status, OPEN_EXISTING, negb (rc =? ERROR_ALREADY_EXISTS), w)
    else (STATUS_INVALID_PARAMETER, asked Disposition, true, w)
  else (STATUS_SUCCESS, asked Disposition, true, w).

(** What has been done, by the disposition, and whether there was a file. *)
Definition information (Disposition : Z) (existed : bool) : Z :=
  if Disposition =? FILE_SUPERSEDE then if existed then FILE_SUPERSEDED else FILE_CREATED
  else if Disposition =? FILE_OPEN_IF then if existed then FILE_OPENED else FILE_CREATED
  else if Disposition =? FILE_OVERWRITE_IF then if existed then FILE_OVERWRITTEN else FILE_CREATED
  else if Disposition =? FILE_CREATE then FILE_CREATED
  else if Disposition =? FILE_OVERWRITE then FILE_OVERWRITTEN
  else FILE_OPENED.

Lemma disposition_info Disposition e created : 0 <= Disposition <= 5 ->
  (let may := (Disposition =? FILE_SUPERSEDE) || (Disposition =? FILE_OPEN_IF) || (Disposition =? FILE_OVERWRITE_IF) in
   if may && negb e && created then Some FILE_CREATED else (DdkGetFileDisposition Disposition).2) =
  Some (information Disposition (e || negb created)).
Proof.
  intros Hd. assert (Disposition = 0 \/ Disposition = 1 \/ Disposition = 2 \/ Disposition = 3 \/ Disposition = 4 \/ Disposition = 5) as Hc by lia.
  by destruct Hc as [-> | [-> | [-> | [-> | [-> | ->]]]]]; destruct e, created.
Qed.

Lemma create_dir_run (s : fstate) name Disposition CreateOptions path status disp created w :
  0 <= Disposition <= 5 ->
  requested_open path Disposition CreateOptions (fworld s) = (status, disp, created, w) -> cstring name = Ok path ->
  (if flag CreateOptions FILE_DIRECTORY_FILE then name ← lift (cstring name); DdkIoCreateDir name Disposition (DdkGetFileDisposition Disposition).1
   else mret (STATUS_SUCCESS, (DdkGetFileDisposition Disposition).1, true)) s = Ok ((status, disp, created), set_fworld w s).
Proof.
  intros Hd R En. rewrite (asked_disposition _ Hd). unfold requested_open in R. destruct (flag CreateOptions FILE_DIRECTORY_FILE).
  2: { injection R as <- <- <- <-. by destruct s. }
  rewrite (bind_run _ _ s path s) by (unfold lift; by rewrite En). unfold DdkIoCreateDir.
  destruct (Z.eqb_spec Disposition FILE_OPEN) as [-> | No]; [injection R as <- <- <- <-; by destruct s |].
  destruct (Z.eqb_spec Disposition FILE_CREATE) as [-> | Nc]; cbn [orb negb andb] in R |- *.
  - destruct (CreateDirectoryW path (fworld s)) as [rc w'] eqn:Ec. injection R as <- <- <- <-.
    rewrite (bind_run _ _ s rc (set_fworld w' s)) by (unfold call; by rewrite Ec).
    destruct (Z.eqb_spec rc ERROR_SUCCESS) as [-> | Nr]; [done |]. rewrite <- (status_of_run rc Nr). by destruct (Z.eqb_spec rc ERROR_ALREADY_EXISTS).
  - destruct (Z.eqb_spec Disposition FILE_OPEN_IF) as [-> | Ni]; cbn [negb andb] in R |- *.
    + destruct (CreateDirectoryW path (fworld s)) as [rc w'] eqn:Ec. injection R as <- <- <- <-.
      rewrite (bind_run _ _ s rc (set_fworld w' s)) by (unfold call; by rewrite Ec).
      destruct (Z.eqb_spec rc ERROR_SUCCESS) as [-> | Nr]; [done |]. rewrite <- (status_of_run rc Nr). by destruct (Z.eqb_spec rc ERROR_ALREADY_EXISTS).
    + injection R as <- <- <- <-. by destruct s.
Qed.

Lemma status_failed rc : rc <> ERROR_SUCCESS -> NT_SUCCESS (DdkGetFileStatus rc) = false.
Proof.
  intros N. unfold DdkGetFileStatus. apply Z.eqb_neq in N as ->. by repeat destruct (_ =? _).
Qed.

Section file.
Context (s : fstate) (u : UNICODE_STRING) (name : list Z) (new : option Z) (B access attributes share Disposition CreateOptions Options : Z).
Context (I : kinv (fkern s)) (Fp : forall p, new = Some p -> fresh_public (fkern s) p) (Hb : is_Some (blocks s !! B)) (NB : B <> 0).
Context (Hu : chars u = Ok name) (Hf : DdkIsFilePath name = true) (Fit : fits name) (Hd : 0 <= Disposition <= 5).

Let path := local_name name Disposition.
Let w0 := dirs_made (local_dirs name Disposition) (fworld s).
Let open := IoCreateFileEx malloc TempDir new access (Some (mkAttributes 0 (Some u))) B attributes share
  Disposition CreateOptions Options s.

(** Up to the status, which every way out sets. *)
Lemma open_as r : DdkIoCreateFile TempDir new access name B attributes share Disposition CreateOptions s = r ->
  open = match r with
    | Ok ((status, f), s') =>
        if negb (NT_SUCCESS status) then Ok ((status, None), s') else
        match f with None => Err (BadAccess 0) | Some f => Ok ((status, Some (ToHandle f)), s') end
    | Err e => Err e
    end.
Proof.
  intros E. unfold open, IoCreateFileEx. cbn [ObjectName RootDirectory]. apply Z.eqb_neq in NB as ->.
  rewrite (bind_run _ _ s tt s) by done. rewrite (bind_run _ _ s name s) by (unfold lift; by rewrite Hu). rewrite Hf. cbn [negb].
  unfold mbind at 1, M_bind at 1. rewrite E. destruct r as [[[status f] s'] |]; [| done]. destruct (negb (NT_SUCCESS status)); [done |]. by destruct f.
Qed.

Lemma local_path_run : exists b, cstring b = Ok path /\
  DdkGetLocalPathW make_directory TempDir (MAX_PATH + 1) name (may_create Disposition) s = Ok (b, set_fworld w0 s).
Proof.
  pose proof (DdkGetLocalPath_spec make_directory made make_directory_run TempDir Ht (MAX_PATH + 1) name (may_create Disposition) s ltac:(done)) as E.
  cbv zeta in E. unfold fits in Fit. replace (Z.of_nat (length (TempDir ++ until_nul (local_part name))) <? MAX_PATH + 1) with true in E by lia.
  destruct (DdkGetLocalPathW make_directory TempDir (MAX_PATH + 1) name (may_create Disposition) s) as [[b s1] | e] eqn:Eb.
  2: { unfold mbind, M_bind in E. by rewrite Eb in E. }
  rewrite (bind_run _ _ _ _ _ Eb) in E. unfold lift in E. destruct (cstring b) as [n |] eqn:En; [| done]. injection E as -> ->.
  exists b. split; [by rewrite En |]. do 2 f_equal. unfold w0, local_dirs. destruct (may_create Disposition); [apply make_all_run | by destruct s].
Qed.

(** What the memory for the file object decides: a file on the handle of the system, or the
    handle closed again. *)
Definition opened (h rc : Z) (created : bool) (w2 : world) : Prop :=
  match new with
  | Some p => exists w3, two_more w2 w3 /\ kinv (put_at (fkern s) p (file_object 1 h 0)) /\
      open = Ok ((STATUS_SUCCESS, Some (ToHandle p)),
        set_blocks <[B := (STATUS_SUCCESS, information Disposition ((rc =? ERROR_ALREADY_EXISTS) || negb created))]>
          (set_fworld w3 (set_positions <[p := 0]> (set_fkern (put_at (fkern s) p (file_object 1 h 0)) s))))
  | None => open = Ok ((STATUS_INSUFFICIENT_RESOURCES, None),
      set_blocks <[B := (STATUS_INSUFFICIENT_RESOURCES, FILE_EXISTS)]> (set_fworld (CloseHandle h w2) s))
  end.

Lemma opened_run b status disp created w1 h rc w2 :
  DdkGetLocalPathW make_directory TempDir (MAX_PATH + 1) name (may_create Disposition) s = Ok (b, set_fworld w0 s) -> cstring b = Ok path ->
  requested_open path Disposition CreateOptions w0 = (status, disp, created, w1) -> NT_SUCCESS status = true ->
  CreateFileW path access share disp (asked_flags attributes CreateOptions) w1 = (h, rc, w2) -> h <> INVALID_HANDLE_VALUE ->
  opened h rc created w2.
Proof.
  intros Eb Hn Er Es Ec Nh. set (s0 := set_fworld w0 s) in *. set (s1 := set_fworld w1 s0). set (s2 := set_fworld w2 s).
  pose proof (create_dir_run s0 b Disposition CreateOptions path status disp created w1 Hd Er Hn) as Ed.
  assert (call (CreateFileW path access share disp (asked_flags attributes CreateOptions)) s1 = Ok ((h, rc), s2)) as Ecall by (unfold call; simpl; by rewrite Ec).
  destruct (file_law _ _ _ _ _ _ _ _ _ Ec) as [[? _] | (_ & N0 & Ncp & _)]; [done |].
  pose proof (disposition_info Disposition (rc =? ERROR_ALREADY_EXISTS) created Hd) as Hi. cbv zeta in Hi.
  assert (forall r, (let '(disp, info) := DdkGetFileDisposition Disposition in
      f ← DdkAllocFile new;
      match f with
      | None =>
          _ ← call (fun w => (tt, CloseHandle h w));
          status ← SetStatus B STATUS_INSUFFICIENT_RESOURCES FILE_EXISTS;
          mret (status, None)
      | Some f =>
          _ ← on_kernel (set_handle f h);
          match (if ((Disposition =? FILE_SUPERSEDE) || (Disposition =? FILE_OPEN_IF) || (Disposition =? FILE_OVERWRITE_IF)) &&
              negb (rc =? ERROR_ALREADY_EXISTS) && created then Some FILE_CREATED else info) with
          | None => fail (BadAccess 0)
          | Some info => status ← SetStatus B STATUS_SUCCESS info; mret (status, Some f)
          end
      end : F (Z * option Z)) s2 = r ->
    DdkIoCreateFile TempDir new access name B attributes share Disposition CreateOptions s = r) as Step.
  { intros r <-. unfold DdkIoCreateFile. rewrite (bind_run _ _ _ _ _ Eb). destruct (DdkGetFileDisposition Disposition) as [disp0 info].
    cbn [fst] in Ed. rewrite (bind_run _ _ _ _ _ Ed), Es. cbn [negb]. rewrite (bind_run _ _ s1 path s1) by (unfold lift; by rewrite Hn).
    rewrite asked_flags_run, (bind_run _ _ _ _ _ Ecall). apply Z.eqb_neq in Nh. by rewrite Nh. }
  destruct (DdkGetFileDisposition Disposition) as [disp0 info] eqn:Eg. cbn [fst snd] in Hi. unfold opened.
  assert (new = None \/ exists p, new = Some p) as [En | [p En]] by (destruct new; eauto); rewrite En; cycle 1.
  - destruct (alloc_file_run events_left s2 p) as (w3 & Hw & Ea). exists w3. split; [done |].
    destruct (kinv_new_file (fkern s) p h 0 I (Fp p En) ltac:(by left) ltac:(done)) as [I3 _]. split; [done |].
    set (s3 := set_fworld w3 _) in Ea. set (k3 := put_at (fkern s) p (file_object 1 h 0)).
    assert (on_kernel (set_handle p h) s3 = Ok (tt, set_fkern k3 s3)) as Eh.
    { apply on_kernel_still; [| done]. unfold set_handle.
      rewrite (kbind _ _ _ _ _ (object_at_run (fkern s3) p (file_object 1 0 0) (lookup_insert_eq _ _ _))).
      change (Ok (tt, put_at (fkern s3) p (file_object 1 h 0)) = Ok (tt, k3)). unfold k3, s3. simpl. by rewrite put_put. }
    rewrite (open_as (Ok ((STATUS_SUCCESS, Some p), set_blocks <[B := (STATUS_SUCCESS, information Disposition ((rc =? ERROR_ALREADY_EXISTS) || negb created))]> (set_fkern k3 s3)))); [done |].
    apply Step. rewrite En, (bind_run _ _ _ _ _ Ea). cbn iota. rewrite (bind_run _ _ _ _ _ Eh), Hi.
    by rewrite (bind_run _ _ _ _ _ (set_status_run (set_fkern k3 s3) B _ _ Hb)).
  - set (s3 := set_fworld (CloseHandle h w2) s).
    rewrite (open_as (Ok ((STATUS_INSUFFICIENT_RESOURCES, None), set_blocks <[B := (STATUS_INSUFFICIENT_RESOURCES, FILE_EXISTS)]> s3))); [done |].
    apply Step. rewrite En, (bind_run _ _ s2 None s2).
    2: { unfold DdkAllocFile. rewrite (bind_run _ _ s2 None s2); [done |]. by apply on_fkern_same. }
    cbn iota. rewrite (bind_run _ _ s2 tt s3) by done. by rewrite (bind_run _ _ _ _ _ (set_status_run s3 B _ _ Hb)).
Qed.

(** C22. Opening a file of the system, on every branch: below the directory of the process,
    after making the directories on the way; a directory that is asked for is made first.  The
    system is asked for what the disposition ([asked]) and the options ([asked_flags]) mean.
    The status is that of the error ([status_of]), and no file is left; or there is no
    memory, and the handle of the system is closed; or the handle is to a new file with the
    handle of the system, at position 0, and the information says what has been done. *)
Theorem IoCreateFileEx_file :
  let '(status, disp, created, w1) := requested_open path Disposition CreateOptions w0 in
  if negb (NT_SUCCESS status) then open = Ok ((status, None), set_blocks <[B := (status, 0)]> (set_fworld w1 s))
  else
    let '(h, rc, w2) := CreateFileW path access share disp (asked_flags attributes CreateOptions) w1 in
    if h =? INVALID_HANDLE_VALUE then
      open = Ok ((status_of rc, None),
        set_blocks <[B := (status_of rc, if rc =? ERROR_FILE_EXISTS then FILE_EXISTS else FILE_DOES_NOT_EXIST)]> (set_fworld w2 s))
    else match new with
      | Some p => exists w3, two_more w2 w3 /\ kinv (put_at (fkern s) p (file_object 1 h 0)) /\
          open = Ok ((STATUS_SUCCESS, Some (ToHandle p)),
            set_blocks <[B := (STATUS_SUCCESS, information Disposition ((rc =? ERROR_ALREADY_EXISTS) || negb created))]>
              (set_fworld w3 (set_positions <[p := 0]> (set_fkern (put_at (fkern s) p (file_object 1 h 0)) s))))
      | None => open = Ok ((STATUS_INSUFFICIENT_RESOURCES, None),
          set_blocks <[B := (STATUS_INSUFFICIENT_RESOURCES, FILE_EXISTS)]> (set_fworld (CloseHandle h w2) s))
      end.
Proof.
  destruct local_path_run as (b & Hn & Eb). set (s0 := set_fworld w0 s) in *.
  destruct (requested_open path Disposition CreateOptions w0) as [[[status disp] created] w1] eqn:Er.
  pose proof (create_dir_run s0 b Disposition CreateOptions path status disp created w1 Hd Er Hn) as Ed.
  destruct (negb (NT_SUCCESS status)) eqn:Es.
  { rewrite (open_as (Ok ((status, None), set_blocks <[B := (status, 0)]> (set_fworld w1 s)))); [by rewrite Es |].
    unfold DdkIoCreateFile. rewrite (bind_run _ _ _ _ _ Eb). destruct (DdkGetFileDisposition Disposition) as [disp0 info] eqn:Eg.
    cbn [fst] in Ed. rewrite (bind_run _ _ _ _ _ Ed). rewrite Es.
    by rewrite (bind_run _ _ _ _ _ (set_status_run (set_fworld w1 s0) B status 0 Hb)). }
  destruct (CreateFileW path access share disp (asked_flags attributes CreateOptions) w1) as [[h rc] w2] eqn:Ec.
  set (s1 := set_fworld w1 s0) in *. set (s2 := set_fworld w2 s).
  destruct (Z.eqb_spec h INVALID_HANDLE_VALUE) as [Eh | Nh].
  - destruct (file_law _ _ _ _ _ _ _ _ _ Ec) as [(_ & Nrc & _) | [? _]]; [| done].
    assert (call (CreateFileW path access share disp (asked_flags attributes CreateOptions)) s1 = Ok ((h, rc), s2)) as Ecall by (unfold call; simpl; by rewrite Ec).
    rewrite <- (status_of_run rc Nrc).
    rewrite (open_as (Ok ((DdkGetFileStatus rc, None),
      set_blocks <[B := (DdkGetFileStatus rc, if rc =? ERROR_FILE_EXISTS then FILE_EXISTS else FILE_DOES_NOT_EXIST)]> s2))); [by rewrite status_failed |].
    unfold DdkIoCreateFile. rewrite (bind_run _ _ _ _ _ Eb). destruct (DdkGetFileDisposition Disposition) as [disp0 info] eqn:Eg.
    cbn [fst] in Ed. rewrite (bind_run _ _ _ _ _ Ed). rewrite Es. rewrite (bind_run _ _ s1 path s1) by (unfold lift; by rewrite Hn).
    rewrite asked_flags_run, (bind_run _ _ _ _ _ Ecall). apply Z.eqb_eq in Eh. rewrite Eh.
    by rewrite (bind_run _ _ _ _ _ (set_status_run s2 B _ _ Hb)).
  - apply negb_false_iff in Es. exact (opened_run b status disp created w1 h rc w2 Eb Hn Er Es Ec Nh).
Qed.

End file.

Section closing.
Context (s : fstate) (u : UNICODE_STRING) (name : list Z) (p B access attributes share Disposition CreateOptions Options : Z).
Context (I : kinv (fkern s)) (Fp : fresh_public (fkern s) p) (Hb : is_Some (blocks s !! B)) (NB : B <> 0).
Context (Hu : chars u = Ok name) (Hf : DdkIsFilePath name = true) (Fit : fits name) (Hd : 0 <= Disposition <= 5).

Let path := local_name name Disposition.
Let w0 := dirs_made (local_dirs name Disposition) (fworld s).

Let Fnew q : Some p = Some q -> fresh_public (fkern s) q.
Proof. by intros [= <-]. Qed.

(** C37. A file of the system that is opened and closed: the kernel is as before, and the
    handle of the system has been closed, once; but for the two events of the file, the
    process has the handles it had. *)
Theorem file_roundtrip h rc w2 status disp created w1
  (Er : requested_open path Disposition CreateOptions w0 = (status, disp, created, w1)) (Es : NT_SUCCESS status = true)
  (Ec : CreateFileW path access share disp (asked_flags attributes CreateOptions) w1 = (h, rc, w2)) (Nh : h <> INVALID_HANDLE_VALUE)
  (Irql : CurrentIrql (fkern s) = 0) (Hp : p < 2 ^ 64) (He : Z.even p = true) :
  exists s' w, ('(status, f) ← IoCreateFileEx malloc TempDir (Some p) access (Some (mkAttributes 0 (Some u))) B attributes share
      Disposition CreateOptions Options;
     match f with Some f => on_kernel (ZwClose f) | None => mret status end) s = Ok (STATUS_SUCCESS, s') /\
    fkern s' = log (Freed p) (log (Objects.CloseHandle h) (fkern s)) /\ two_more (fworld s) w /\ handles (fworld s') = handles w.
Proof.
  destruct (local_path_run s u name (Some p) B access attributes share Disposition CreateOptions Options I Fnew Hb Fit) as (b & Hcs & Eb).
  pose proof (opened_run s u name (Some p) B access attributes share Disposition CreateOptions Options I Fnew Hb NB Hu Hf Hd
    b status disp created w1 h rc w2 Eb Hcs Er Es Ec Nh) as E. unfold opened in E.
  destruct E as (w3 & Hw & Ik & E). destruct (file_law _ _ _ _ _ _ _ _ _ Ec) as [[? _] | (_ & N0 & Ncp & Nin & Hh)]; [done |].
  assert (handles w1 = handles (fworld s)) as Hw1.
  { transitivity (handles w0); [| apply dirs_handles]. unfold requested_open in Er.
    assert (forall w, handles (CreateDirectoryW path w).2 = handles w) as Hc by apply directory_law. specialize (Hc w0).
    destruct (CreateDirectoryW path w0) as [rc' w']. repeat case_match; by simplify_eq. }
  set (k := put_at (fkern s) p (file_object 1 h 0)) in *. set (s2 := set_blocks _ _) in E.
  destruct (fp_fresh _ _ Fp) as (Hp0 & Hnone & _).
  assert (ZwClose (ToHandle p) k = Ok (STATUS_SUCCESS, log (Freed p) (log (Objects.CloseHandle h) (fkern s)))) as Ez.
  { apply (close_file_run k _ p h 0 Ik Irql ltac:(lia) He (lookup_insert_eq _ _ _)).
    rewrite (free_file_run _ (put_at k p (file_object 0 h 0)) p h 0); try done; try apply lookup_insert_eq.
    - unfold closing. apply Z.eqb_neq in N0 as ->. do 2 f_equal. unfold k, log, delete_at, put_at, set_objects. simpl. do 2 f_equal.
      rewrite !delete_insert_eq, delete_id by exact Hnone. by destruct (fkern s).
    - by apply (new_unnamed (fkern s) p I (fp_fresh _ _ Fp)).
    - apply (k_entries _ I). }
  pose proof (on_kernel_events _ s2 _ _ [Freed p; Objects.CloseHandle h] Ez eq_refl) as Ek.
  destruct Hw as (e & f & Ne & Nf & Hef). eexists _, (CloseHandle h w3). split; [by rewrite (bind_run _ _ _ _ _ E) |].
  split; [done |]. split; [| done]. rewrite Hh, Hw1 in Ne, Nf. exists e, f.
  rewrite close_law, Hef, Hh, Hw1. rewrite Hw1 in Nin. set_solver.
Qed.

End closing.

End opening.
