(* ===== verification/FilesIO.v ===== *)
(** * FilesIO: a file of the system is a list of bytes with a position

    The laws say what the system's calls do to the content of one handle.  Any sequence of
    reads and writes then is one of a list of bytes: each starts where the last ended
    unless it is told where to start. *)

From S2P Require Import Prelude Strings Objects Names ObjectsInv ObjectsSpec HandleSpec.
From S2P Require Import Memory LocalPath Files FilesSpec.

(** [bs] put into [c] at [off]; what is skipped is zero. *)
Definition splice (c : list Z) (off : Z) (bs : list Z) : list Z :=
  let o := Z.to_nat off in
  take o c ++ replicate (o - length c) 0 ++ bs ++ drop (o + length bs) c.

(** ** Streams *)

Record stream := mkStream { content_ : list Z; position_ : Z; smem : mem }.

(** A read or a write of [Length] bytes at [Buffer]. *)
Record transfer := mkTransfer { write_ : bool; buffer_ : Z; length_ : Z; offset_ : option Z }.

Definition start (t : transfer) (st : stream) : Z :=
  match offset_ t with
  | None => position_ st
  | Some b => if b =? USE_FILE_POINTER_POSITION then position_ st else b
  end.

Definition to_the_end : Z := -1.

(** The status, how many bytes were moved, and what is left.  A write may fail. *)
Inductive moves (t : transfer) (st : stream) : Z * Z -> stream -> Prop :=
  | reads m' (off := start t st) (n := Z.min (length_ t) (Z.of_nat (length (content_ st)) - off)) :
      write_ t = false -> off < Z.of_nat (length (content_ st)) ->
      store (buffer_ t) (take (Z.to_nat n) (drop (Z.to_nat off) (content_ st))) (smem st) = Ok m' ->
      moves t st (STATUS_SUCCESS, n) (mkStream (content_ st) (off + n) m')
  | at_end (off := start t st) : write_ t = false -> Z.of_nat (length (content_ st)) <= off ->
      moves t st (STATUS_END_OF_FILE, 0) (mkStream (content_ st) off (smem st))
  | writes bs (off := start t st) : write_ t = true -> load (Z.to_nat (length_ t)) (buffer_ t) (smem st) = Ok bs ->
      moves t st (STATUS_SUCCESS, length_ t) (mkStream (splice (content_ st) off bs) (off + length_ t) (smem st))
  | fails status (off := start t st) : write_ t = true -> NT_SUCCESS status = false ->
      moves t st (status, 0) (mkStream (content_ st) off (smem st)).

(** A sequence of them, with what each returns. *)
Inductive runs : list transfer -> stream -> list (Z * Z) -> stream -> Prop :=
  | runs_nil st : runs [] st [] st
  | runs_cons t ts st r st1 rs st2 : moves t st r st1 -> runs ts st1 rs st2 -> runs (t :: ts) st (r :: rs) st2.

(** ** The calls of the system *)

Class WINFILE_DATA `{WINFILE} := {
  content : world -> Z -> option (list Z);
  read_law h a n off m w c : content w h = Some c -> 0 <= off < 2 ^ 63 -> 0 < n -> mapped m a n ->
    exists rc k m' w', ReadFile h a n off (m, w) = (rc, k, (m', w')) /\ content w' h = Some c /\
      if off <? Z.of_nat (length c) then
        rc = ERROR_SUCCESS /\ k = Z.min n (Z.of_nat (length c) - off) /\
        store a (take (Z.to_nat k) (drop (Z.to_nat off) c)) m = Ok m'
      else rc = ERROR_HANDLE_EOF /\ k = 0 /\ m' = m;
  write_law h a n off m w c bs : content w h = Some c -> 0 <= off < 2 ^ 64 -> 0 < n -> load (Z.to_nat n) a m = Ok bs ->
    exists rc k w', WriteFile h a n off (m, w) = (rc, k, (m, w')) /\
      (rc <> ERROR_SUCCESS /\ k = 0 /\ content w' h = Some c \/
       rc = ERROR_SUCCESS /\ k = n /\
       content w' h = Some (splice c (if off =? 2 ^ 64 - 1 then Z.of_nat (length c) else off) bs))
}.

Section io.
Context `{Environment} `{Locale} `{WINFILE} `{!WINFILE_DATA}.

(** The handle to [p], a file of the system with the handle [k]. *)
Record stream_at (s : fstate) (p k : Z) (st : stream) : Prop := {
  sa_inv : kinv (fkern s);
  sa_address : 0 < p < 2 ^ 64 /\ Z.even p = true;
  sa_object : exists n d, objects (fkern s) !! p = Some (file_object n k d) /\ 0 < n;
  sa_content : content (fworld s) k = Some (content_ st);
  sa_position : positions s !! p = Some (position_ st);
  sa_memory : fmem s = smem st
}.

Lemma handle_run s p k st : stream_at s p k st -> on_kernel (GetFileFromHandle (ToHandle p)) s = Ok (p, s) /\
  exists o, on_kernel (object_at p) s = Ok (o, s) /\ h o = k.
Proof.
  intros [I [Hp He] (n & d & Eo & Hn) _ _ _]. destruct (clear_low_bit p Hp He) as [_ Hl].
  assert (isValidObject (fkern s) p = true) as Hv.
  { unfold isValidObject, type_at. rewrite Eo. by destruct (Z.eqb_spec p 0); [lia |]. }
  split.
  - apply on_fkern_same. unfold GetFileFromHandle. rewrite (kbind _ _ _ _ _ (from_handle_run (fkern s) p _ (ToHandle p) I Eo Hl)).
    rewrite Hv. cbn [type refcount file_object]. replace (n >? 0) with true by lia.
    change (true && true && is_handle_type IoFileType) with true. cbn iota. destruct (Z.eqb_spec p 0); [lia |].
    by rewrite (kbind _ _ _ _ _ (object_at_run (fkern s) p _ Eo)).
  - exists (file_object n k d). split; [| done]. by apply on_fkern_same, object_at_run.
Qed.

(** The transfers the laws speak of. *)
Definition proper (t : transfer) (st : stream) : Prop :=
  mapped (smem st) (buffer_ t) (length_ t) /\ buffer_ t <> 0 /\ 0 < length_ t < 2 ^ 32 /\
  0 <= start t st < 2 ^ 62.

Definition do_transfer (p B : Z) (t : transfer) : F Z :=
  (if write_ t then ZwWriteFile else ZwReadFile) (ToHandle p) 0 0 0 B (buffer_ t) (length_ t) (offset_ t).

Lemma transfer_run s p k st t B : stream_at s p k st -> proper t st -> B <> 0 -> is_Some (blocks s !! B) ->
  exists r st' s', moves t st r st' /\ do_transfer p B t s = Ok (r.1, s') /\ stream_at s' p k st' /\ blocks s' !! B = Some r.
Proof.
  intros A (Hm & Nb & Hl & Hs) NB Hb. destruct (handle_run s p k st A) as [Eg (o & Eo & Ho)].
  set (off := start t st). fold off in Hs.
  assert (forall rc bytes mw, (if write_ t then WriteFile else ReadFile) k (buffer_ t) (length_ t) (u64 off) (fmem s, fworld s) = (rc, bytes, mw) ->
    let status := if rc =? ERROR_SUCCESS then STATUS_SUCCESS else DdkGetFileStatus rc in
    do_transfer p B t s = Ok (status, set_blocks <[B := (status, bytes)]> (set_positions <[p := s64 (off + bytes)]> (set_outside mw s)))) as Run.
  { intros rc bytes mw E status.
    assert (do_transfer p B t s = DdkReadWriteFile (ToHandle p) 0 0 0 B (buffer_ t) (length_ t) (offset_ t) (write_ t) s) as ->
      by (unfold do_transfer; by destruct (write_ t)).
    unfold DdkReadWriteFile. apply Z.eqb_neq in NB as ->. apply Z.eqb_neq in Nb as ->. cbn [orb Z.eqb negb].
    rewrite (bind_run _ _ _ _ _ Eg). destruct A as [_ [Hp _] _ _ Ap _]. destruct (Z.eqb_spec p 0); [lia |].
    rewrite (bind_run _ _ _ _ _ Eo). rewrite (bind_run _ _ s (position_ st) s) by (unfold fget; by rewrite Ap). cbv zeta.
    change (match offset_ t with Some b => if b =? USE_FILE_POINTER_POSITION then position_ st else b | None => position_ st end) with off.
    rewrite (bind_run _ _ s (rc, bytes) (set_outside mw s)) by (unfold call_memory; rewrite Ho, E; by destruct mw).
    set (s1 := set_positions <[p := s64 (off + bytes)]> (set_outside mw s)). rewrite (bind_run _ _ _ tt s1) by done. fold status.
    rewrite (bind_run _ _ _ _ _ (set_status_run s1 B status bytes Hb)). done. }
  assert (u64 off = off) as Eu by (unfold u64; apply Z.mod_small; lia). rewrite Eu in Run.
  destruct A as [I Ap Ao Ac Apos Am].
  assert (forall status bytes c' m' w', 0 <= bytes < 2 ^ 32 -> content w' k = Some c' ->
    let s' := set_blocks <[B := (status, bytes)]> (set_positions <[p := s64 (off + bytes)]> (set_outside (m', w') s)) in
    stream_at s' p k (mkStream c' (off + bytes) m') /\ blocks s' !! B = Some (status, bytes)) as Left.
  { intros status bytes c' m' w' Hby Hc s'. split; [| apply lookup_insert_eq]. split; try done.
    simpl. rewrite lookup_insert_eq. f_equal. unfold s64. rewrite Z.mod_small; lia. }
  destruct (write_ t) eqn:Ew.
  - destruct (load_mapped (Z.to_nat (length_ t)) (buffer_ t) (smem st)) as [bs El]; [by rewrite Z2Nat.id by lia |].
    rewrite Am in Run. destruct (write_law k (buffer_ t) (length_ t) off (smem st) (fworld s) (content_ st) bs Ac ltac:(lia) ltac:(lia) El)
      as (rc & n & w' & E & [(Nrc & -> & Hc) | (-> & -> & Hc)]); specialize (Run _ _ _ E).
    + assert (NT_SUCCESS (DdkGetFileStatus rc) = false) as Hf.
      { unfold DdkGetFileStatus. apply Z.eqb_neq in Nrc as ->. by repeat destruct (_ =? _). }
      apply Z.eqb_neq in Nrc. cbv zeta in Run. rewrite Nrc in Run.
      destruct (Left (DdkGetFileStatus rc) 0 _ (smem st) _ ltac:(lia) Hc) as [L1 L2]. rewrite Z.add_0_r in L1, Run, L2.
      exists (DdkGetFileStatus rc, 0). eexists _, _. split; [by apply fails |]. split; [exact Run | done].
    + destruct (Z.eqb_spec off (2 ^ 64 - 1)); [lia |].
      destruct (Left STATUS_SUCCESS (length_ t) _ (smem st) _ ltac:(lia) Hc) as [L1 L2].
      exists (STATUS_SUCCESS, length_ t). eexists _, _. split; [by apply writes |]. split; [exact Run | done].
  - destruct (read_law k (buffer_ t) (length_ t) off (smem st) (fworld s) (content_ st) Ac ltac:(lia) ltac:(lia) Hm)
      as (rc & n & m' & w' & E & Hc & R). rewrite <- Am in E. specialize (Run _ _ _ E).
    destruct (Z.ltb_spec off (Z.of_nat (length (content_ st)))).
    + destruct R as (-> & -> & Hst). destruct (Left STATUS_SUCCESS (Z.min (length_ t) (Z.of_nat (length (content_ st)) - off)) _ m' _ ltac:(lia) Hc) as [L1 L2].
      eexists (STATUS_SUCCESS, _), _, _. split; [by apply reads |]. split; [exact Run | done].
    + destruct R as (-> & -> & ->). destruct (Left STATUS_END_OF_FILE 0 _ (fmem s) _ ltac:(lia) Hc) as [L1 L2].
      rewrite Z.add_0_r in L1, Run, L2. rewrite Am in L1. eexists (STATUS_END_OF_FILE, 0), _, _. split; [by apply at_end |]. split; [exact Run | done].
Qed.

Fixpoint do_all (p B : Z) (ts : list transfer) : F (list Z) :=
  match ts with
  | [] => mret []
  | t :: ts => status ← do_transfer p B t; l ← do_all p B ts; mret (status :: l)
  end.

(** Each transfer is in bounds, whatever those before it have done. *)
Fixpoint all_proper (ts : list transfer) (st : stream) : Prop :=
  match ts with
  | [] => True
  | t :: ts => proper t st /\ forall r st', moves t st r st' -> all_proper ts st'
  end.

(** C16. Any sequence of ZwReadFile and ZwWriteFile on a file of the system is one of reads
    and writes of a list of bytes with a position: a transfer that does not say where
    starts where the last one ended, a read moves the bytes that are there and says so at
    the end, and a write that succeeds is what later reads see. *)
Theorem stream_refinement ts : forall s p k st B
  (A : stream_at s p k st) (Pr : all_proper ts st) (NB : B <> 0) (Hb : is_Some (blocks s !! B)),
  exists rs st' s', runs ts st rs st' /\ do_all p B ts s = Ok (map fst rs, s') /\ stream_at s' p k st'.
Proof.
  induction ts as [| t ts IH]; intros s p k st B A Pr NB Hb; [exists [], st, s; split; [constructor | done] |].
  destruct Pr as [Pt Pr]. destruct (transfer_run s p k st t B A Pt NB Hb) as (r & st1 & s1 & Hm & E & A1 & Hb1).
  destruct (IH s1 p k st1 B A1 (Pr r st1 Hm) NB ltac:(by exists r)) as (rs & st2 & s2 & Hr & E2 & A2).
  exists (r :: rs), st2, s2. split; [by apply (runs_cons t ts st r st1) |]. split; [| done]. cbn [do_all].
  rewrite (bind_run _ _ _ _ _ E). by rewrite (bind_run _ _ _ _ _ E2).
Qed.

Lemma splice_end c bs : splice c (Z.of_nat (length c)) bs = c ++ bs.
Proof.
  unfold splice. rewrite Nat2Z.id, Nat.sub_diag, firstn_all, skipn_all2 by lia. by rewrite app_nil_r.
Qed.

(** A write to the end of the file ([FILE_WRITE_TO_END_OF_FILE], an offset of -1)
    appends; but the position is counted from -1, so it is one less than the number of
    bytes written, wherever the end of the file is. *)
Theorem append_position s p k st B Buffer Length bs
  (A : stream_at s p k st) (Hm : load (Z.to_nat Length) Buffer (smem st) = Ok bs) (Nb : Buffer <> 0) (Hl : 0 < Length < 2 ^ 32)
  (NB : B <> 0) (Hb : is_Some (blocks s !! B)) :
  exists status s', ZwWriteFile (ToHandle p) 0 0 0 B Buffer Length (Some to_the_end) s = Ok (status, s') /\
    (NT_SUCCESS status = true -> content (fworld s') k = Some (content_ st ++ bs) /\ positions s' !! p = Some (Length - 1)).
Proof.
  destruct (handle_run s p k st A) as [Eg (o & Eo & Ho)]. destruct A as [I [Hp He] _ Ac Apos Am].
  destruct (write_law k Buffer Length (2 ^ 64 - 1) (smem st) (fworld s) (content_ st) bs Ac ltac:(lia) ltac:(lia) Hm)
    as (rc & n & w' & E & R).
  set (status := if rc =? ERROR_SUCCESS then STATUS_SUCCESS else DdkGetFileStatus rc).
  exists status, (set_blocks <[B := (status, n)]> (set_positions <[p := s64 (-1 + n)]> (set_outside (smem st, w') s))). split.
  - unfold ZwWriteFile, DdkReadWriteFile. apply Z.eqb_neq in NB as ->. apply Z.eqb_neq in Nb as ->. cbn [orb Z.eqb negb].
    rewrite (bind_run _ _ _ _ _ Eg). destruct (Z.eqb_spec p 0); [lia |].
    rewrite (bind_run _ _ _ _ _ Eo). rewrite (bind_run _ _ s (position_ st) s) by (unfold fget; by rewrite Apos). cbv zeta.
    change (to_the_end =? USE_FILE_POINTER_POSITION) with false. cbn iota. change (u64 to_the_end) with (2 ^ 64 - 1).
    rewrite (bind_run _ _ s (rc, n) (set_outside (smem st, w') s)) by (unfold call_memory; by rewrite Ho, Am, E).
    set (s1 := set_positions <[p := s64 (-1 + n)]> (set_outside (smem st, w') s)). rewrite (bind_run _ _ _ tt s1) by done. fold status.
    by rewrite (bind_run _ _ _ _ _ (set_status_run s1 B status n Hb)).
  - intros Hs. destruct R as [(Nrc & _) | (-> & -> & Hc)].
    { unfold status in Hs. apply Z.eqb_neq in Nrc as Nb'. rewrite Nb' in Hs. unfold DdkGetFileStatus in Hs. rewrite Nb' in Hs.
      repeat (destruct (_ =? _) in Hs; [discriminate Hs |]). discriminate Hs. }
    rewrite Z.eqb_refl, splice_end in Hc. split; [done |]. simpl. rewrite lookup_insert_eq. f_equal. unfold s64. rewrite Z.mod_small; lia.
Qed.

End io.
