(* ===== verification/FilesExamples.v ===== *)
(** * FilesExamples: a small file system, and the theorems on files

    Files by their path, and handles with the path of their file: it has the laws of
    [WINFILE_Laws] and [WINFILE_DATA].  The kernel is that of ObjectsExamples. *)

From S2P Require Import Prelude Strings StringsOps StringsSpec Objects Names NamesPath.
From S2P Require Import ObjectsInv ObjectsSpec NamesSpec SymlinkSpec ResolveSpec HandleSpec DeviceObjects ObjectsExamples.
From S2P Require Import Memory LocalPath Files FilesSpec FilesSystem FilesIO.

#[local] Existing Instances ObjectsExamples.env ObjectsExamples.locale ObjectsExamples.locale_laws.

(** [table]: the handles with the path, [[]] for that of an event. *)
Record disk := mkDisk { table : list (Z * list Z); contents_of : gmap (list Z) (list Z) }.

Definition next (w : disk) : Z := 4 + foldr Z.max 0 (table w).*1.

Definition path_at (w : disk) (h : Z) : option (list Z) := list_to_map (M := gmap Z (list Z)) (table w) !! h.

Definition give (path : list Z) (w : disk) : Z * disk := (next w, mkDisk ((next w, path) :: table w) (contents_of w)).

Definition put (path c : list Z) (w : disk) : disk := mkDisk (table w) (<[path := c]> (contents_of w)).

Definition text_at (w : disk) (h : Z) : option (list Z) := path ← path_at w h; contents_of w !! path.

Definition dopen (path : list Z) (disp : Z) (w : disk) : Z * Z * disk :=
  let failed e := (INVALID_HANDLE_VALUE, e, w) in
  if INVALID_HANDLE_VALUE <=? next w then failed ERROR_NOT_ENOUGH_MEMORY else
  let opened e w := let '(h, w) := give path w in (h, e, w) in
  match contents_of w !! path with
  | Some _ =>
      if disp =? CREATE_NEW then failed ERROR_FILE_EXISTS
      else if disp =? CREATE_ALWAYS then opened ERROR_ALREADY_EXISTS (put path [] w)
      else if disp =? TRUNCATE_EXISTING then opened ERROR_SUCCESS (put path [] w)
      else if disp =? OPEN_ALWAYS then opened ERROR_ALREADY_EXISTS w
      else opened ERROR_SUCCESS w
  | None =>
      if (disp =? OPEN_EXISTING) || (disp =? TRUNCATE_EXISTING) then failed ERROR_FILE_NOT_FOUND
      else opened ERROR_SUCCESS (put path [] w)
  end.

Definition dread (h a n off : Z) (mw : mem * disk) : Z * Z * (mem * disk) :=
  match text_at mw.2 h with
  | None => (ERROR_INVALID_HANDLE, 0, mw)
  | Some c =>
      if Z.of_nat (length c) <=? off then (ERROR_HANDLE_EOF, 0, mw) else
      let k := Z.min n (Z.of_nat (length c) - off) in
      match store a (take (Z.to_nat k) (drop (Z.to_nat off) c)) mw.1 with
      | Ok m => (ERROR_SUCCESS, k, (m, mw.2))
      | Err _ => (ERROR_NOACCESS, 0, mw)
      end
  end.

Definition dwrite (h a n off : Z) (mw : mem * disk) : Z * Z * (mem * disk) :=
  match path_at mw.2 h with
  | None => (ERROR_INVALID_HANDLE, 0, mw)
  | Some path =>
      match contents_of mw.2 !! path, load (Z.to_nat n) a mw.1 with
      | Some c, Ok bs =>
          (ERROR_SUCCESS, n, (mw.1, put path (splice c (if off =? 2 ^ 64 - 1 then Z.of_nat (length c) else off) bs) mw.2))
      | _, _ => (ERROR_NOACCESS, 0, mw)
      end
  end.

#[local] Instance model_files : WINFILE := {|
  world := disk;
  handles w := list_to_set (table w).*1;
  CreateEvent manual initial := give [];
  CreateDirectoryW path w := (ERROR_SUCCESS, w);
  CreateFileW path access share disp flags := dopen path disp;
  DeleteFileW path w := (ERROR_SUCCESS, mkDisk (table w) (delete path (contents_of w)));
  FlushFileBuffers h w := (ERROR_SUCCESS, w);
  ReadFile := dread;
  WriteFile := dwrite;
  GetFileInformationByHandleEx h c a n mw := (ERROR_INVALID_PARAMETER, mw);
  CloseHandle h w := mkDisk (filter (fun e => e.1 <> h) (table w)) (contents_of w)
|}.

Lemma next_above w h : h ∈ (table w).*1 -> h < next w.
Proof.
  unfold next. induction (table w).*1 as [| x l IH]; simpl; [by intros ?%not_elem_of_nil |].
  intros [-> | Hl%IH]%elem_of_cons; lia.
Qed.

Lemma next_new w : 0 < next w /\ next w ∉ handles w.
Proof.
  assert (forall l, 0 <= foldr Z.max 0 l) as Hl by (induction l; simpl; lia).
  split; [unfold next; specialize (Hl (table w).*1); lia |].
  intros Hin%elem_of_list_to_set%next_above. lia.
Qed.

#[local] Instance model_files_laws : WINFILE_Laws.
Proof.
  split.
  - intros m i w h w' [= <- <-]. right. destruct (next_new w). by split; [lia |].
  - intros path access share disp flags w h e w' E. cbn [CreateFileW model_files] in E. unfold dopen in E.
    destruct (next_new w) as [Hp Hn]. destruct (Z.leb_spec INVALID_HANDLE_VALUE (next w)); [injection E as <- <- <-; by left |].
    assert (forall e0 w0, table w0 = table w -> (let '(h, w) := give path w0 in (h, e0, w)) = (h, e, w') ->
      h <> INVALID_HANDLE_VALUE /\ h <> 0 /\ h <> GetCurrentProcess /\ h ∉ handles w /\ handles w' = {[h]} ∪ handles w) as Hg.
    { intros e0 w0 Et E0. unfold give, next in E0. rewrite Et in E0. fold (next w) in E0. injection E0 as <- <- <-. unfold INVALID_HANDLE_VALUE in *.
      split; [lia |]. split; [lia |]. split; [change GetCurrentProcess with (2 ^ 64 - 1); lia |]. by split. }
    destruct (contents_of w !! path); repeat match type of E with (if ?b then _ else _) = _ => destruct b end;
      first [by injection E as <- <- <-; left | right; by eapply Hg; [| exact E]].
  - intros h w. cbn [handles CloseHandle model_files table]. apply set_eq. intros x.
    rewrite elem_of_difference, !elem_of_list_to_set, elem_of_singleton, !list_elem_of_fmap. split.
    + intros ([y p] & -> & [Hy Hin]%list_elem_of_filter). split; [by exists (y, p) | done].
    + intros [([y p] & -> & Hin) N]. exists (y, p). split; [done |]. by apply list_elem_of_filter.
  - done.
Qed.

#[local] Instance model_data : WINFILE_DATA.
Proof.
  refine {| content := text_at |}.
  - intros h a n off m w c Hc Hoff Hn Hm. cbn [ReadFile model_files]. unfold dread. cbn [fst snd].
    change (text_at w h = Some c) in Hc. rewrite Hc. destruct (Z.ltb_spec off (Z.of_nat (length c))) as [Hl | Hl].
    + replace (Z.of_nat (length c) <=? off) with false by lia. set (k := Z.min n (Z.of_nat (length c) - off)).
      set (bs := take (Z.to_nat k) (drop (Z.to_nat off) c)).
      destruct (store_run bs a m) as (m' & E & _).
      { intros x Hx. apply Hm. unfold in_range, bs in *. rewrite length_take, length_drop in Hx. lia. }
      rewrite E. eexists _, _, _, _. split; [done |]. by split.
    + replace (Z.of_nat (length c) <=? off) with true by lia. eexists _, _, _, _. split; [done |]. by split.
  - intros h a n off m w c bs Hc Hoff Hn Hb. cbn [WriteFile model_files]. unfold dwrite. cbn [fst snd]. change (text_at w h = Some c) in Hc.
    unfold text_at in Hc. destruct (path_at w h) as [path |] eqn:Ep; [| done]. change (contents_of w !! path = Some c) in Hc.
    rewrite Hc, Hb. eexists _, _, _. split; [done |]. right. split; [done |]. split; [done |].
    unfold text_at. change (path_at (put path _ w) h) with (path_at w h). rewrite Ep. apply lookup_insert_eq.
Defined.

Lemma model_events m i w : (CreateEvent m i w).1 <> 0.
Proof. destruct (next_new w). simpl. lia. Qed.

(** ** Paths *)

Definition T : list Z := wide "C:\T".

(** The directories that have been made are noted. *)
Definition note (path : list Z) : M (list (list Z)) unit := fun l => Ok (tt, l ++ [path]).

Lemma DdkGetLocalPath_spec_witness :
  (buffer ← DdkGetLocalPathW note T 261 (wide "\??\C:\a/b\c") true; lift (cstring buffer)) [] =
    Ok (wide "C:\Ta\b\c", [wide "C:\Ta"; wide "C:\Ta\b"]) /\
  (buffer ← DdkGetLocalPathW note T 8 (wide "C:\a/b\c") true; lift (cstring buffer)) [] = Err (BadAccess 0).
Proof.
  assert (no_nul T) as Ht by by repeat constructor.
  split.
  - pose proof (DdkGetLocalPath_spec note (fun p l => l ++ [p]) ltac:(done) T Ht 261 (wide "\??\C:\a/b\c") true [] ltac:(done)) as W. exact W.
  - pose proof (DdkGetLocalPath_spec note (fun p l => l ++ [p]) ltac:(done) T Ht 8 (wide "C:\a/b\c") true [] ltac:(done)) as W. exact W.
Defined.

(** ** Devices *)

Definition empty_disk : disk := mkDisk [] ∅.

Definition start_at (w : disk) (m : mem) : fstate := mkF demo w ∅ {[40 := (0, 0)]} m [].

Definition idle : fstate := start_at empty_disk ∅.

Lemma chars_of cs : plain cs -> chars (str cs) = Ok cs.
Proof. intros. by apply chars_ok, holds_str. Qed.

Lemma demo_public : fresh_public demo 5000.
Proof. split; [apply demo_fresh | by vm_compute]. Qed.

Lemma demo_status m : is_Some (blocks (start_at empty_disk m) !! 40).
Proof. by exists (0, 0). Qed.

Lemma name_path cs : forallb (fun c => (0 <? c) && (c <? 2 ^ 16)) cs = true -> cs <> [] -> Z.of_nat (length cs) <= 32766 ->
  path_of zeros None cs cs.
Proof. intros. by apply demo_path; [apply plain_of | |]. Qed.

Lemma demo_room3 n : n <= 1003 -> room n demo.
Proof.
  intros Hn p o Ep. destruct (demo_cases p o Ep) as [[-> ->] | [[-> ->] | [[-> ->] | [[-> ->] | [-> ->]]]]]; simpl; lia.
Qed.

Lemma device_is_the_end q : ~ hop demo demo_names 2000 q.
Proof. by intros (o & t & cs & [= <-] & Hc & _). Qed.

Lemma link_end : chain_end demo demo_names 4000 2000.
Proof.
  exists 1%nat. split; [| split; [lia | split; [| lia]]].
  - apply nsteps_once. exists (mkObject IoSymbolicLinkType true 2 0 (Symlink (str nameD) true)), (str nameD), nameD.
    split; [done |]. split; [done |]. split; [by apply holds_str, plain_of | done].
  - by intros (o & t & [= <-] & Hc).
Qed.

(** [\L] leads to [\D], unless it is not to be followed. *)
Lemma IoCreateFileEx_device_witness :
  (exists s', IoCreateFileEx zeros T (Some 5000) 0 (Some (mkAttributes 0 (Some (str nameL)))) 40 0 0 FILE_OPEN 0 IO_STOP_ON_SYMLINK idle =
     Ok ((STATUS_STOPPED_ON_SYMLINK, None), s') /\ accounted idle s' demo_names (fun a => one (a = 4000)) /\
     blocks s' !! 40 = Some (STATUS_STOPPED_ON_SYMLINK, FILE_DOES_NOT_EXIST)) /\
  (exists q s', chain_end demo demo_names 2000 q /\
    if has_type demo IoDeviceType q then
      IoCreateFileEx zeros T (Some 5000) 0 (Some (mkAttributes 0 (Some (str nameD)))) 40 0 0 FILE_OPEN 0 0 idle =
        Ok ((STATUS_SUCCESS, Some (ToHandle 5000)), s') /\
      accounted idle s' demo_names (fun a => one (a = 5000)) /\ blocks s' !! 40 = Some (STATUS_SUCCESS, FILE_OPENED) /\
      positions s' !! 5000 = Some 0 /\ objects (fkern s') !! 5000 = Some (file_object 1 0 (q + sizeof_OBJECT))
    else
      IoCreateFileEx zeros T (Some 5000) 0 (Some (mkAttributes 0 (Some (str nameD)))) 40 0 0 FILE_OPEN 0 0 idle =
        Ok ((STATUS_OBJECT_NAME_NOT_FOUND, None), s') /\
      accounted idle s' demo_names (fun a => one (a = q /\ q <> 0)) /\
      blocks s' !! 40 = Some (STATUS_OBJECT_NAME_NOT_FOUND, FILE_DOES_NOT_EXIST)) /\
  exists s', IoCreateFileEx zeros T None 0 (Some (mkAttributes 0 (Some (str nameL)))) 40 0 0 FILE_OPEN 0 0 idle =
    Ok ((STATUS_INSUFFICIENT_RESOURCES, None), s') /\ accounted idle s' demo_names (fun _ => 0).
Proof.
  pose proof (demo_room3 1003 ltac:(done)) as Rm.
  assert (forall p, Some 5000 = Some p -> fresh_public demo p) as Fp by (intros p [= <-]; exact demo_public).
  split; [| split].
  - pose proof (IoCreateFileEx_device zeros T zeros_ok model_events idle demo_names nameL nameL (Some 5000) 40 IO_STOP_ON_SYMLINK
      demo_kinv eq_refl demo_named demo_links Rm (name_path nameL eq_refl ltac:(done) ltac:(done))
      (demo_status ∅) Fp (str nameL) 0 0 0 FILE_OPEN 0 (chars_of nameL (plain_of nameL eq_refl)) eq_refl ltac:(done)) as W.
    exact W.
  - pose proof (IoCreateFileEx_device zeros T zeros_ok model_events idle demo_names nameD nameD (Some 5000) 40 0
      demo_kinv eq_refl demo_named demo_links Rm (name_path nameD eq_refl ltac:(done) ltac:(done))
      (demo_status ∅) Fp (str nameD) 0 0 0 FILE_OPEN 0 (chars_of nameD (plain_of nameD eq_refl)) eq_refl ltac:(done)) as W.
    destruct W as [[_ (q & Hq & _)] | W]; [exfalso | exact W].
    inversion Hq as [| n a b c Hh]. by eapply device_is_the_end.
  - pose proof (IoCreateFileEx_device zeros T zeros_ok model_events idle demo_names nameL nameL None 40 0
      demo_kinv eq_refl demo_named demo_links Rm (name_path nameL eq_refl ltac:(done) ltac:(done))
      (demo_status ∅) ltac:(done) (str nameL) 0 0 0 FILE_OPEN 0 (chars_of nameL (plain_of nameL eq_refl)) eq_refl ltac:(done)) as W.
    destruct W as [[E _] | (q & s' & Hc & W)]; [by vm_compute in E |].
    assert (q = 2000) as -> by (eapply chain_end_unique; [exact Hc |]; exact link_end).
    destruct W as (E & A & _). exists s'. split; [exact E | exact A].
Defined.

Lemma device_file_roundtrip_witness : exists w, two_more empty_disk w /\
  ('(status, f) ← IoCreateFileEx zeros T (Some 5000) 0 (Some (mkAttributes 0 (Some (str nameD)))) 40 0 0 FILE_OPEN 0 0;
   match f with Some f => on_kernel (ZwClose f) | None => mret status end) idle =
  Ok (STATUS_SUCCESS, set_blocks <[40 := (STATUS_SUCCESS, FILE_OPENED)]>
    (set_fworld w (set_positions <[5000 := 0]> (set_fkern (log (Freed 5000) demo) idle)))).
Proof.
  pose proof (device_file_roundtrip zeros T model_events idle demo_names nameD nameD (nameD, 2000)
    (mkObject IoDeviceType true 2 0 (Device 1016)) 1016 5000 40 demo_kinv eq_refl demo_named (demo_room3 1 ltac:(done))
    (name_path nameD eq_refl ltac:(done) ltac:(done)) (demo_status ∅) demo_public eq_refl eq_refl eq_refl eq_refl eq_refl
    (str nameD) 0 0 0 FILE_OPEN 0 0 (chars_of nameD (plain_of nameD eq_refl)) eq_refl ltac:(done)) as W.
  exact W.
Defined.

(** ** Files *)

Definition nameF : list Z := wide "C:\a\b".
Definition pathF : list Z := wide "C:\Ta\b".

Lemma T_no_nul : no_nul T.
Proof. by repeat constructor. Qed.

(** A file that there is not is created. *)
Lemma IoCreateFileEx_file_witness : (exists w h, two_more (mkDisk [(h, pathF)] {[pathF := []]}) w /\
  kinv (put_at demo 5000 (file_object 1 h 0)) /\
  IoCreateFileEx zeros T (Some 5000) 0 (Some (mkAttributes 0 (Some (str nameF)))) 40 0 0 FILE_OPEN_IF 0 0 idle =
    Ok ((STATUS_SUCCESS, Some (ToHandle 5000)), set_blocks <[40 := (STATUS_SUCCESS, FILE_CREATED)]>
      (set_fworld w (set_positions <[5000 := 0]> (set_fkern (put_at demo 5000 (file_object 1 h 0)) idle))))) /\
  IoCreateFileEx zeros T None 0 (Some (mkAttributes 0 (Some (str nameF)))) 40 0 0 FILE_OPEN_IF 0 0 idle =
    Ok ((STATUS_INSUFFICIENT_RESOURCES, None), set_blocks <[40 := (STATUS_INSUFFICIENT_RESOURCES, FILE_EXISTS)]>
      (set_fworld (CloseHandle 4 (mkDisk [(4, pathF)] {[pathF := []]})) idle)).
Proof.
  split.
  - pose proof (IoCreateFileEx_file T T_no_nul zeros model_events idle (str nameF) nameF (Some 5000) 40 0 0 0 FILE_OPEN_IF 0 0
      demo_kinv ltac:(intros p [= <-]; exact demo_public) (demo_status ∅) ltac:(done) (chars_of nameF (plain_of nameF eq_refl)) eq_refl ltac:(done) ltac:(done)) as W.
    destruct W as (w & Hw & Ik & E). exists w, 4. split; [exact Hw |]. split; [exact Ik | exact E].
  - exact (IoCreateFileEx_file T T_no_nul zeros model_events idle (str nameF) nameF None 40 0 0 0 FILE_OPEN_IF 0 0
      demo_kinv ltac:(done) (demo_status ∅) ltac:(done) (chars_of nameF (plain_of nameF eq_refl)) eq_refl ltac:(done) ltac:(done)).
Defined.

Lemma file_roundtrip_witness : exists s' w,
  ('(status, f) ← IoCreateFileEx zeros T (Some 5000) 0 (Some (mkAttributes 0 (Some (str nameF)))) 40 0 0 FILE_OPEN_IF 0 0;
   match f with Some f => on_kernel (ZwClose f) | None => mret status end) idle = Ok (STATUS_SUCCESS, s') /\
  fkern s' = log (Freed 5000) (log (Objects.CloseHandle 4) demo) /\ two_more empty_disk w /\ handles (fworld s') = handles w.
Proof.
  apply (file_roundtrip T T_no_nul zeros model_events idle (str nameF) nameF 5000 40 0 0 0 FILE_OPEN_IF 0 0
    demo_kinv demo_public (demo_status ∅) ltac:(done) (chars_of nameF (plain_of nameF eq_refl)) eq_refl ltac:(done) ltac:(done)
    4 ERROR_SUCCESS (mkDisk [(4, pathF)] {[pathF := []]}) STATUS_SUCCESS OPEN_ALWAYS true empty_disk);
    done.
Defined.

(** ** Streams *)

Definition a_disk : disk := mkDisk [(4, pathF)] {[pathF := [10; 11; 12]]}.
Definition some_memory : mem := list_to_map [(100, 1); (101, 2); (102, 3)].
Definition opened : kernel := put_at demo 5000 (file_object 1 4 0).
Definition with_file : fstate := mkF opened a_disk {[5000 := 0]} {[40 := (0, 0)]} some_memory [].
Definition a_stream : stream := mkStream [10; 11; 12] 0 some_memory.

Lemma with_file_stream : stream_at with_file 5000 4 a_stream.
Proof.
  split; try done.
  - destruct (kinv_new_file demo 5000 4 0 demo_kinv demo_public ltac:(by left) ltac:(done)) as [Ik _]. exact Ik.
  - exists 1, 0. by split.
Qed.

Lemma some_mapped : mapped some_memory 100 3.
Proof.
  intros x [Hl Hu]. assert (x = 100 \/ x = 101 \/ x = 102) as Hx by lia.
  by destruct Hx as [-> | [-> | ->]]; eexists.
Qed.

(** Two bytes at the position are read, and then the three are written after them. *)
Definition two_then_three : list transfer := [mkTransfer false 100 2 None; mkTransfer true 100 3 None].

Lemma store_dom bs : forall a m m', store a bs m = Ok m' -> dom m' = dom m.
Proof.
  induction bs as [| b bs IH]; intros a m m' E; cbn [store] in E; [by injection E as <- |].
  destruct (m !! a) as [c |] eqn:Ea; [| done]. rewrite (IH _ _ _ E). apply dom_insert_lookup_L. by eexists.
Qed.

Lemma moves_within t st r st' : moves t st r st' -> 0 <= length_ t ->
  dom (smem st') = dom (smem st) /\ start t st <= position_ st' <= start t st + length_ t.
Proof.
  intros [m' off n Hw Ho Hs | off Hw Ho | bs off Hw Hb | status off Hw Hf] Hl; simpl; (split; [| lia]); try done.
  by eapply store_dom.
Qed.

Lemma two_proper : all_proper two_then_three a_stream.
Proof.
  split; [| intros r st' M; split; [| done]].
  - split; [| done]. intros x [Hl Hu]. apply some_mapped. simpl in *. split; lia.
  - destruct (moves_within _ _ _ _ M ltac:(done)) as [Hd Hp]. split; [| split; [done | split; [done |]]].
    + by apply (mapped_dom some_memory); [| apply some_mapped].
    + unfold start in *. simpl in *. lia.
Qed.

Lemma stream_refinement_witness : exists rs st' s', runs two_then_three a_stream rs st' /\
  do_all 5000 40 two_then_three with_file = Ok (map fst rs, s') /\ stream_at s' 5000 4 st'.
Proof.
  apply (stream_refinement two_then_three with_file 5000 4 a_stream 40 with_file_stream two_proper); [done | by exists (0, 0)].
Defined.

(** The file has 6 bytes then, and the position is 2. *)
Lemma append_position_witness : exists status s',
  ZwWriteFile (ToHandle 5000) 0 0 0 40 100 3 (Some to_the_end) with_file = Ok (status, s') /\
  (NT_SUCCESS status = true -> content (fworld s') 4 = Some [10; 11; 12; 1; 2; 3] /\ positions s' !! 5000 = Some 2).
Proof.
  apply (append_position with_file 5000 4 a_stream 40 100 3 [1; 2; 3] with_file_stream); done.
Defined.
