(* ===== verification/Image.v ===== *)
(** * Image: drivers that are loaded from files (load.cpp)

    A driver is read from its file, made a DLL that is linked against ddk.dll, written
    below the directory of the process and loaded from there.  [memory] has the bytes of
    the modules that are loaded, where their headers are looked up; the file that is read
    and the copy of the data of an image are buffers of their own.  [DdkImageList] is
    the list of images, the first first, and the detours are the state of Detours.  What
    the code calls of the system, its loader among them, is the class [LOADER]. *)

From S2P Require Import Prelude Memory Names LocalPath.
From S2P Require Detours.

Definition IMAGE_FILE_DLL : Z := 0x2000.
Definition IMAGE_SCN_CNT_INITIALIZED_DATA : Z := 0x40.
Definition IMAGE_SCN_CNT_UNINITIALIZED_DATA : Z := 0x80.
Definition IMAGE_SCN_MEM_WRITE : Z := 0x80000000.

Definition INVALID_HANDLE_VALUE : Z := 2 ^ 64 - 1.
Definition MAX_PATH : Z := 260.

(** The characters of a text, and [tolower] in the locale of a program that sets none. *)
Fixpoint ascii (s : string) : list Z :=
  match s with
  | EmptyString => []
  | String a s => Z.of_nat (Ascii.nat_of_ascii a) :: ascii s
  end.

Definition lower (c : Z) : Z := if (65 <=? c) && (c <=? 90) then c + 32 else c.

(** ** Changing the file *)

(** A number in the file: the header has to be there. *)
Definition field (n : nat) (b : list Z) (off : Z) : result Z :=
  if off <? 0 then Err (BadAccess off) else
  bs ← bytes_of (drop (Z.to_nat off) b) (Z.of_nat n);
  Ok (le_combine bs).

Definition set_field (n : nat) (b : list Z) (off v : Z) : result (list Z) := overlay b off (le_split n v).

Definition e_lfanew (b : list Z) : result Z := n ← field 4 b 60; Ok (s32 n).

(** Sets the DLL flag and takes the entry point away. *)
Definition set_header (b : list Z) : result (list Z * Z) :=
  hdr ← e_lfanew b;
  c ← field 2 b (hdr + 22);
  b ← set_field 2 b (hdr + 22) (Z.lor c IMAGE_FILE_DLL);
  entry ← field 4 b (hdr + 40);
  b ← set_field 4 b (hdr + 40) 0;
  Ok (b, entry).

(** The comparisons go on behind the block, where there is something or other. *)
Section update.
Context (beyond : nat -> Z).

Definition peek (b : list Z) (i : Z) : Z :=
  match b !! Z.to_nat i with Some c => c | None => beyond (Z.to_nat i - length b) end.

(** [!_strnicmp(&b[i], text, n)] and [!memcmp(&b[i], text, n)], [n] the length of [text]. *)
Fixpoint same_at (f : Z -> Z) (b : list Z) (i : Z) (text : list Z) : bool :=
  match text with
  | [] => true
  | c :: text => (f (peek b i) =? f c) && same_at f b (i + 1) text
  end.

Definition ddk_dll : list Z := ascii "ddk.dll" ++ [0].

Definition link_step (i : Z) (b : list Z) : result (list Z) :=
  if same_at lower b i (ascii "ntoskrnl.exe") then overlay b i ddk_dll
  else if same_at lower b i (ascii "hal.dll") then overlay b i ddk_dll
  else if same_at lower b i (ascii "wmilib.sys") then overlay b i ddk_dll
  else Ok b.

Definition from : list Z := [0x00; 0x00; 0x80; 0xf7; 0xff; 0xff].
Definition to : list Z := [0xfe; 0x7f; 0x00; 0x00; 0x00; 0x00].

Definition shared_step (i : Z) (b : list Z) : result (list Z) :=
  if same_at id b i from then
    if (i >? 1) && (peek b (i - 1) <? 0x80) then overlay b i to else Ok b
  else Ok b.

(** Returns the buffer and [*pEntry]. *)
Definition DdkUpdateImage (b : list Z) (size : Z) : result (list Z * Z) :=
  '(b, entry) ← set_header b;
  b ← mfor_le 0 (size - 1) link_step b;
  b ← mfor_le 0 (size - 1) shared_step b;
  Ok (b, entry).

End update.

(** ** Names *)

(** [strrchr]: from the last [c] on. *)
Fixpoint strrchr (c : Z) (s : list Z) : option (list Z) :=
  match s with
  | [] => None
  | x :: r => match strrchr c r with Some t => Some t | None => if x =? c then Some s else None end
  end.

(** [name] and [wname] have [MAX_PATH + 1] characters; the second is the first, widened. *)
Definition DdkGetDriverName (pFile : list Z) : result (list Z) :=
  let cp := match strrchr BACKSLASH pFile with Some cp => cp | None => pFile end in
  if MAX_PATH <? Z.of_nat (length cp) then Err (BadAccess MAX_PATH) else
  Ok (match strrchr 46 cp with Some ext => take (length cp - length ext) cp | None => cp end).

(** ** The system *)

(** [open_files]: the handles of files that are open; [loads]: how often a module is
    loaded.  A read gives the bytes, a write how many were written; both give nothing if
    they fail.  [DetourEnumerateModules] gives all modules in order, and [delay_hook] is
    what the delay loading of a DLL by its name does. *)
Class LOADER := {
  system : Type;
  open_files : system -> gset Z;
  loads : system -> Z -> Z;
  CreateFileA : list Z -> bool -> system -> Z * system;
  GetFileInformationByHandle : Z -> system -> option (Z * Z);
  ReadFile : Z -> Z -> system -> option (list Z) * system;
  WriteFile : Z -> list Z -> system -> option Z * system;
  CloseFile : Z -> system -> system;
  GetFileTime : Z -> system -> option Z;
  CreateDirectoryA : list Z -> system -> system;
  LoadLibrary : list Z -> mem * system -> Z * (mem * system);
  FreeLibrary : Z -> mem * system -> mem * system;
  GetModuleHandleEx : Z -> system -> bool * system;
  DetourEnumerateModules : system -> list Z;
  GetModuleFileNameA : Z -> system -> bool;
  delay_hook : Z -> Z -> mem * system -> mem * system
}.

(** [malloc]: a copy of the data can be made. *)
Record IMAGE := mkImage {
  module : Z;
  Header : Z;
  DriverEntry : Z;
  DelayLoad : list (Z * Z);
  Data : option (list Z);
  ImageName : list Z
}.

Definition set_delay l m := mkImage (module m) (Header m) (DriverEntry m) l (Data m) (ImageName m).
Definition set_data d m := mkImage (module m) (Header m) (DriverEntry m) (DelayLoad m) d (ImageName m).

Definition maxmodules : nat := 100.

Section images.
Context `{LOADER} `{Detours.DETOURS}.

Record istate := mkI {
  DdkImageList : list (Z * IMAGE);
  memory : mem;
  outside : system;
  hooks : Detours.state
}.

Definition set_images f s := mkI (f (DdkImageList s)) (memory s) (outside s) (hooks s).
Definition set_memory m s := mkI (DdkImageList s) m (outside s) (hooks s).
Definition set_system w s := mkI (DdkImageList s) (memory s) w (hooks s).
Definition set_both (mw : mem * system) s := mkI (DdkImageList s) mw.1 mw.2 (hooks s).
Definition set_hooks d s := mkI (DdkImageList s) (memory s) (outside s) d.

Definition I := M istate.

Definition iget {A} (f : istate -> A) : I A := fun s => Ok (f s, s).

Definition call {A} (f : system -> A * system) : I A := fun s =>
  let '(a, w) := f (outside s) in Ok (a, set_system w s).

Definition call_memory {A} (f : mem * system -> A * (mem * system)) : I A := fun s =>
  let '(a, mw) := f (memory s, outside s) in Ok (a, set_both mw s).

Definition on_detours {A} (m : Detours.D A) : I A := fun s =>
  match m (hooks s) with Ok (a, d) => Ok (a, set_hooks d s) | Err f => Err f end.

Definition find_image (p : Z) (l : list (Z * IMAGE)) : option IMAGE := snd <$> (snd <$> list_find (fun e => e.1 = p) l).

Definition image_at (p : Z) : I IMAGE := fun s =>
  match find_image p (DdkImageList s) with Some m => Ok (m, s) | None => Err (BadAccess p) end.

Definition change_image (p : Z) (f : IMAGE -> IMAGE) : I unit :=
  modify (set_images (map (fun e => if e.1 =? p then (e.1, f e.2) else e))).

(** A number in memory. *)
Definition number (n : nat) (a : Z) : I Z :=
  m ← iget memory; bs ← lift (load n a m); mret (le_combine bs).

(** ** Headers in memory *)

Definition nt_header (h : Z) : I Z := n ← number 4 (h + 60); mret (h + s32 n).

Definition ImageBase (hdr : Z) : I Z := number 8 (hdr + 48).
Definition SizeOfImage (hdr : Z) : I Z := number 4 (hdr + 80).

Definition try_module (addr h : Z) : I bool :=
  w ← iget outside;
  if negb (GetModuleFileNameA h w) then mret false else
  hdr ← nt_header h;
  base ← ImageBase hdr;
  size ← SizeOfImage hdr;
  mret ((base <=? addr) && (addr <? base + size)).

Fixpoint find_module (addr : Z) (l : list Z) : I Z :=
  match l with
  | [] => mret 0
  | h :: l => b ← try_module addr h; if b : bool then mret h else find_module addr l
  end.

Definition DdkFindModule (addr : Z) : I Z :=
  w ← iget outside; find_module addr (DetourEnumerateModules w).

(** [!_strnicmp(name, p, strlen(name))], and [!_stricmp(p, text)] with the NUL at the end of [text]. *)
Fixpoint same_text_at (name : list Z) (p : Z) : I bool :=
  match name with
  | [] => mret true
  | c :: name =>
      x ← number 1 p;
      if lower x =? lower c then same_text_at name (p + 1) else mret false
  end.

Fixpoint find_dll (fuel : nat) (h desc : Z) (pName : list Z) : I Z :=
  match fuel with
  | O => fail NoFuel
  | S fuel =>
      rva ← number 4 (desc + 4);
      if rva =? 0 then mret 0 else
      b ← same_text_at pName (h + rva);
      e ← (if b : bool then same_text_at (ascii ".sys" ++ [0]) (h + rva + Z.of_nat (length pName)) else mret false);
      if e : bool then mret (h + rva) else find_dll fuel h (desc + 32) pName
  end.

(** Every descriptor is in memory, so there are at most as many as bytes. *)
Definition DdkFindDLLName (h : Z) (pName : list Z) : I Z :=
  hdr ← nt_header h;
  va ← number 4 (hdr + 240);
  size ← number 4 (hdr + 244);
  if size =? 0 then mret 0 else
  m ← iget memory;
  find_dll (S (base.size m)) h (h + va) pName.

(** ** Delayed loading *)

(** From [n] down: the slot of [h], or -1, and the last empty one seen, or [empty]. *)
Fixpoint find_slot (n : nat) (h : Z) (l : list (Z * Z)) (empty : Z) : Z * Z :=
  match n with
  | O => (-1, empty)
  | S i =>
      match l !! i with
      | Some (x, _) =>
          if x =? h then (Z.of_nat i, empty)
          else find_slot i h l (if x =? 0 then Z.of_nat i else empty)
      | None => find_slot i h l empty
      end
  end.

Definition DdkDelayLoad (pImage pLoad : Z) : I unit :=
  if (pImage =? 0) || (pLoad =? 0) then mret tt else
  p ← image_at pImage;
  h ← DdkFindModule pLoad;
  if h =? 0 then mret tt else
  let '(i, empty) := find_slot maxmodules h (DelayLoad p) (-1) in
  let i := if i <? 0 then empty else i in
  if i <? 0 then fail (DdkFailed "Unable to reference driver") else
  x ← lift (array_get (DelayLoad p) i);
  l ← lift (array_set (DelayLoad p) i (h, s32 (x.2 + 1)));
  _ ← change_image pImage (set_delay l);
  pDLL ← DdkFindDLLName h (ImageName p);
  if pDLL =? 0 then mret tt else
  call_memory (fun mw => (tt, delay_hook pLoad pDLL mw)).

(** The loop over the slots: whether the function returns, and the slots. *)
Fixpoint release_slot (h : Z) (l : list (Z * Z)) : bool * list (Z * Z) :=
  match l with
  | [] => (false, [])
  | (x, n) :: l =>
      if x =? h then if n >? 1 then (true, (x, s32 (n - 1)) :: l) else (false, (0, s32 (n - 1)) :: l)
      else let '(b, l) := release_slot h l in (b, (x, n) :: l)
  end.

Definition NT_SUCCESS (status : Z) : bool := status <? 2 ^ 31.

(** [DdkDetachAddressRange] reads the header of the module only where there are detours. *)
Definition detach_range (hdr : Z) (h : option Z) : I Z :=
  base ← ImageBase hdr;
  size ← SizeOfImage hdr;
  d ← iget hooks;
  if (Detours.regionlist d =? 0) || (size =? 0) then mret Prelude.STATUS_SUCCESS else
  m ← (match h with
       | None => mret None
       | Some h => x ← nt_header h; b ← ImageBase x; n ← SizeOfImage x; mret (Some (b, n))
       end);
  on_detours (Detours.DdkDetachAddressRange base size m).

Definition DdkDelayUnload (pImage pUnload : Z) : I unit :=
  if (pImage =? 0) || (pUnload =? 0) then mret tt else
  p ← image_at pImage;
  h ← DdkFindModule pUnload;
  if h =? 0 then mret tt else
  let '(done, l) := release_slot h (DelayLoad p) in
  _ ← change_image pImage (set_delay l);
  if done : bool then mret tt else
  status ← detach_range (Header p) (Some h);
  if negb (NT_SUCCESS status) then fail (DdkFailed "Unable to detach detours for module") else
  pDLL ← DdkFindDLLName h (ImageName p);
  if pDLL =? 0 then mret tt else
  call_memory (fun mw => (tt, delay_hook pUnload pDLL mw)).

(** ** The data of an image *)

Record section := mkSection { VirtualSize : Z; VirtualAddress : Z; Characteristics : Z }.

Definition isSaveData (p : section) : bool :=
  negb (Z.land (Characteristics p) (Z.lor IMAGE_SCN_CNT_INITIALIZED_DATA IMAGE_SCN_CNT_UNINITIALIZED_DATA) =? 0) &&
  negb (Z.land (Characteristics p) IMAGE_SCN_MEM_WRITE =? 0).

Definition section_at (a : Z) : I section :=
  v ← number 4 (a + 8); va ← number 4 (a + 12); c ← number 4 (a + 36); mret (mkSection v va c).

(** [IMAGE_FIRST_SECTION], and [NumberOfSections]. *)
Definition first_section (hdr : Z) : I Z := n ← number 2 (hdr + 20); mret (hdr + 24 + n).
Definition NumberOfSections (hdr : Z) : I Z := number 2 (hdr + 6).

Fixpoint sum_data (n : nat) (a len : Z) : I Z :=
  match n with
  | O => mret len
  | S n =>
      x ← section_at a;
      sum_data n (a + 40) (if isSaveData x then u32 (len + VirtualSize x) else len)
  end.

(** [cp]: how far the copy has come. *)
Fixpoint copy_out (n : nat) (a h cp : Z) (data : list Z) : I (list Z) :=
  match n with
  | O => mret data
  | S n =>
      x ← section_at a;
      if isSaveData x then
        m ← iget memory;
        bs ← lift (load (Z.to_nat (VirtualSize x)) (h + VirtualAddress x) m);
        data ← lift (overlay data cp bs);
        copy_out n (a + 40) h (cp + VirtualSize x) data
      else copy_out n (a + 40) h cp data
  end.

Fixpoint copy_in (n : nat) (a h cp : Z) (data : list Z) : I unit :=
  match n with
  | O => mret tt
  | S n =>
      x ← section_at a;
      if isSaveData x then
        bs ← lift (bytes_of (drop (Z.to_nat cp) data) (VirtualSize x));
        m ← iget memory;
        m ← lift (store (h + VirtualAddress x) bs m);
        _ ← modify (set_memory m);
        copy_in n (a + 40) h (cp + VirtualSize x) data
      else copy_in n (a + 40) h cp data
  end.

(** [malloc]: the bytes of a new buffer.  Returns [pImage->Data]. *)
Definition DdkSaveImageData (malloc : Z -> option (list Z)) (h hdr : Z) : I (option (list Z)) :=
  a ← first_section hdr;
  n ← NumberOfSections hdr;
  len ← sum_data (Z.to_nat n) a 0;
  if len =? 0 then mret None else
  match malloc len with
  | None => fail (DdkFailed "Unable to save image data")
  | Some data => data ← copy_out (Z.to_nat n) a h 0 data; mret (Some data)
  end.

Definition DdkRestoreImageData (p : IMAGE) : I unit :=
  a ← first_section (Header p);
  match Data p with
  | None => mret tt
  | Some data =>
      n ← NumberOfSections (Header p);
      copy_in (Z.to_nat n) a (module p) 0 data
  end.

(** ** Loading *)

(** [malloc]: whether there is memory for the file.  [ReadFile] sets [*pSize]. *)
Definition DdkReadImage (malloc : Z -> bool) (pPath : list Z) : I (option (list Z)) :=
  h ← call (CreateFileA pPath false);
  if h =? INVALID_HANDLE_VALUE then mret None else
  let close : I (option (list Z)) := _ ← call (fun w => (tt, CloseFile h w)); mret None in
  w ← iget outside;
  match GetFileInformationByHandle h w with
  | None => close
  | Some (low, high) =>
      if negb (high =? 0) then close else
      if negb (malloc low) then close else
      r ← call (ReadFile h low);
      match r with
      | Some bs =>
          if Z.of_nat (length bs) =? low then _ ← call (fun w => (tt, CloseFile h w)); mret (Some bs) else close
      | None => close
      end
  end.

Definition DdkWriteImage (pBuffer : list Z) (pLoad : list Z) : I bool :=
  h ← call (CreateFileA pLoad true);
  if h =? INVALID_HANDLE_VALUE then mret false else
  r ← call (WriteFile h pBuffer);
  _ ← call (fun w => (tt, CloseFile h w));
  mret (match r with Some n => n =? Z.of_nat (length pBuffer) | None => false end).

Definition CreateDirectory (path : list Z) : I unit := call (fun w => (tt, CreateDirectoryA path w)).

Definition same_name (a b : list Z) : bool := bool_decide (map lower a = map lower b).

(** [calloc]: the address of the new image. *)
Record memory_for := mkFor {
  for_file : Z -> bool;
  for_image : option Z;
  for_data : Z -> option (list Z);
  after_file : nat -> Z
}.

Definition DdkLoadImage (TempDir : list Z) (mem_for : memory_for) (pPath pName : list Z) : I Z :=
  l ← iget DdkImageList;
  match list_find (fun e => same_name (ImageName e.2) pName = true) l with
  | Some (_, (p, _)) => mret p
  | None =>
      r ← DdkReadImage (for_file mem_for) pPath;
      match r with
      | None => fail (DdkFailed "Unable to read driver file")
      | Some b =>
          '(b, entry) ← lift (DdkUpdateImage (after_file mem_for) b (Z.of_nat (length b)));
          tmp ← DdkGetLocalPathA CreateDirectory TempDir (MAX_PATH + 1) (ascii "C:\Windows\System32\drivers") pName (ascii ".sys");
          tmp ← lift (cstring tmp);
          ok ← DdkWriteImage b tmp;
          if negb ok then fail (DdkFailed "Unable to write driver file") else
          h ← call_memory (LoadLibrary tmp);
          if h =? 0 then fail (DdkFailed "Unable to load driver") else
          match for_image mem_for with
          | None => fail (DdkFailed "Unable to create image")
          | Some p =>
              hdr ← nt_header h;
              data ← DdkSaveImageData (for_data mem_for) h hdr;
              _ ← modify (set_images (cons (p, mkImage h hdr (h + entry) (replicate maxmodules (0, 0)) data pName)));
              mret p
          end
      end
  end.

Definition DdkGetImageEntry (pImage : Z) : I Z := p ← image_at pImage; mret (DriverEntry p).

(** [*ppEntry == pImage]: the first of the list. *)
Fixpoint unlink (p : Z) (l : list (Z * IMAGE)) : list (Z * IMAGE) :=
  match l with
  | [] => []
  | e :: l => if e.1 =? p then l else e :: unlink p l
  end.

Definition referenced (l : list (Z * Z)) : bool := existsb (fun x => negb (x.1 =? 0) && negb (x.2 =? 0)) l.

Definition DdkUnloadImage (pImage : Z) : I unit :=
  p ← image_at pImage;
  if referenced (DelayLoad p) then fail (DdkFailed "Driver still referenced") else
  status ← detach_range (Header p) None;
  if negb (NT_SUCCESS status) then fail (DdkFailed "Unable to detach detours from image") else
  _ ← call_memory (fun mw => (tt, FreeLibrary (module p) mw));
  b ← call (GetModuleHandleEx (module p));
  if b : bool then DdkRestoreImageData p else
  modify (set_images (unlink pImage)).

(** Returns [*pTime], if it is set. *)
Definition DdkGetWriteTime (pPath : list Z) : I (option Z) :=
  h ← call (CreateFileA pPath false);
  if h =? INVALID_HANDLE_VALUE then mret None else
  w ← iget outside;
  match GetFileTime h w with
  | None => mret None
  | Some t => _ ← call (fun w => (tt, CloseFile h w)); mret (Some t)
  end.

End images.
