(* ===== verification/ImageUpdate.v ===== *)
(** * ImageUpdate: what is changed in the file of a driver

    The two loops over the file change it in place, as they go along it.  [relink] and
    [reshare] are what they amount to: the file is read from left to right, and each match
    puts other bytes in the place of those that follow. *)

From S2P Require Import Prelude Memory Names Image.

Definition libraries : list (list Z) := [ascii "ntoskrnl.exe"; ascii "hal.dll"; ascii "wmilib.sys"].

Section update.
Context (beyond : nat -> Z).

Abbreviation peek := (peek beyond).
Abbreviation same_at := (same_at beyond).

(** The rest of the file starts with the name of a library of the kernel. *)
Definition library (l : list Z) : bool := existsb (same_at lower l 0) libraries.

(** [out]: what is still to be put in the place of [l]; at the end of the file there must
    be nothing. *)
Fixpoint relink (out l : list Z) : option (list Z) :=
  match l with
  | [] => match out with [] => Some [] | _ => None end
  | c :: r =>
      match out with
      | o :: out => cons o <$> relink out r
      | [] => if library l then cons 100 <$> relink (tail ddk_dll) r else cons c <$> relink [] r
      end
  end.

(** [i]: the place of [l] in the file; [prev]: the byte before it. *)
Fixpoint reshare (i prev : Z) (out l : list Z) : option (list Z) :=
  match l with
  | [] => match out with [] => Some [] | _ => None end
  | _ :: r =>
      let now := out ++ drop (length out) l in
      if same_at id now 0 from && ((i >? 1) && (prev <? 0x80)) then cons 0xfe <$> reshare (i + 1) 0xfe (tail to) r
      else match now with
           | c :: _ => cons c <$> reshare (i + 1) c (tail out) r
           | [] => None
           end
  end.

(** ** Looking at bytes *)

Lemma peek_app pre l j : 0 <= j -> peek (pre ++ l) (Z.of_nat (length pre) + j) = peek l j.
Proof.
  intros Hj. unfold Image.peek. rewrite Z2Nat.inj_add, Nat2Z.id by lia. rewrite lookup_app_r, length_app by lia.
  replace (length pre + Z.to_nat j - length pre)%nat with (Z.to_nat j) by lia.
  destruct (l !! Z.to_nat j); [done |]. f_equal. lia.
Qed.

Lemma same_at_app f pre l t : forall j, 0 <= j -> same_at f (pre ++ l) (Z.of_nat (length pre) + j) t = same_at f l j t.
Proof.
  induction t as [| c t IH]; intros j Hj; [done |]. simpl. rewrite peek_app by done.
  replace (Z.of_nat (length pre) + j + 1) with (Z.of_nat (length pre) + (j + 1)) by lia. by rewrite IH by lia.
Qed.

Lemma same_here f pre l t : same_at f (pre ++ l) (Z.of_nat (length pre)) t = same_at f l 0 t.
Proof. rewrite <- (same_at_app f pre l t 0) by done. by rewrite Z.add_0_r. Qed.

Lemma same_at_spec f b t : forall i, same_at f b i t = true <-> forall m c, t !! m = Some c -> f (peek b (i + Z.of_nat m)) = f c.
Proof.
  induction t as [| c t IH]; intros i; [done |]. simpl. rewrite andb_true_iff, Z.eqb_eq, IH. split.
  - intros [Hc Ht] [| m] x Hx; simpl in Hx; [injection Hx as <-; by rewrite Z.add_0_r |].
    rewrite <- (Ht m x Hx). do 2 f_equal. lia.
  - intros Ht. split; [rewrite <- (Ht 0%nat c eq_refl); by rewrite Z.add_0_r |].
    intros m x Hx. rewrite <- (Ht (S m) x Hx). do 2 f_equal. lia.
Qed.

Lemma overlay_here pre l w : 
  overlay (pre ++ l) (Z.of_nat (length pre)) w =
  if (length w <=? length l)%nat then Ok (pre ++ w ++ drop (length w) l) else Err (BadAccess (Z.of_nat (length pre))).
Proof.
  destruct (Nat.leb_spec (length w) (length l)).
  - rewrite overlay_run by (rewrite ?length_app; lia). by rewrite Nat2Z.id, take_app_length, <- drop_drop, drop_app_length.
  - unfold overlay. rewrite length_app. destruct (Z.leb_spec (Z.of_nat (length pre) + Z.of_nat (length w)) (Z.of_nat (length pre + length l))); [lia |].
    by rewrite andb_false_r.
Qed.

(** ** The loops *)

Definition agrees (r : result (list Z)) (pre : list Z) (o : option (list Z)) : Prop :=
  match o with
  | Some l => r = Ok (pre ++ l)
  | None => exists a, r = Err (BadAccess a)
  end.

Lemma agrees_cons r pre c o : agrees r (pre ++ [c]) o -> agrees r pre (cons c <$> o).
Proof. destruct o; simpl; [by rewrite <- app_assoc | done]. Qed.

Lemma link_step_as pre l :
  link_step beyond (Z.of_nat (length pre)) (pre ++ l) =
  if library l then overlay (pre ++ l) (Z.of_nat (length pre)) ddk_dll else Ok (pre ++ l).
Proof.
  unfold link_step, library, libraries. cbn [existsb]. rewrite !same_here.
  by destruct (same_at lower l 0 (ascii "ntoskrnl.exe")), (same_at lower l 0 (ascii "hal.dll")), (same_at lower l 0 (ascii "wmilib.sys")).
Qed.

Lemma relink_long out : forall l, (length l < length out)%nat -> relink out l = None.
Proof.
  induction out as [| o out IH]; intros [| c l] Hl; simpl in *; try lia; [done |]. by rewrite IH by lia.
Qed.

(** No name starts with one of these. *)
Definition no_start (c : Z) : Prop := lower c <> 110 /\ lower c <> 104 /\ lower c <> 119.

Lemma other_start c l x t : head t = Some x -> lower c <> lower x -> same_at lower (c :: l) 0 t = false.
Proof. destruct t as [| y t]; [done |]. intros [= ->] N. simpl. change (peek (c :: l) 0) with c. by apply Z.eqb_neq in N as ->. Qed.

Lemma no_library c l : no_start c -> library (c :: l) = false.
Proof.
  intros (N1 & N2 & N3). unfold library, libraries. cbn [existsb].
  rewrite (other_start c l 110), (other_start c l 104), (other_start c l 119) by done. done.
Qed.

Lemma relink_run l : forall pre out, Forall no_start out -> (length out <= length l)%nat ->
  agrees (miter (length l) (Z.of_nat (length pre)) (link_step beyond) (pre ++ out ++ drop (length out) l)) pre (relink out l).
Proof.
  induction l as [| c l IH]; intros pre out Hs Hl.
  - destruct out; [done | simpl in Hl; lia].
  - cbn [length miter]. replace (Z.of_nat (length pre) + 1) with (Z.of_nat (length (pre ++ [c]))) by (rewrite length_app; simpl; lia).
    rewrite link_step_as. destruct Hs as [| o out Ho Hs].
    + cbn [app length drop]. unfold relink. fold relink. destruct (library (c :: l)) eqn:El.
      * rewrite overlay_here. destruct (Nat.leb_spec (length ddk_dll) (length (c :: l))) as [Hlen | Hlen].
        -- rewrite bind_ok. apply agrees_cons. rewrite !length_app. simpl in Hlen. specialize (IH (pre ++ [100]) (tail ddk_dll)).
           rewrite !length_app in IH. rewrite <- app_assoc in IH. apply IH; [| simpl; lia].
           repeat constructor; vm_compute; intuition discriminate.
        -- rewrite bind_err. rewrite relink_long by (simpl in *; lia). by eexists.
      * rewrite bind_ok. apply agrees_cons. specialize (IH (pre ++ [c]) []). rewrite <- app_assoc in IH. by apply IH; [| simpl; lia].
    + cbn [app length drop]. rewrite no_library, bind_ok by done. simpl. apply agrees_cons.
      replace (length (pre ++ [c])) with (length (pre ++ [o])) by by rewrite !length_app.
      specialize (IH (pre ++ [o]) out Hs). rewrite <- app_assoc in IH. apply IH. simpl in Hl. lia.
Qed.

Lemma shared_step_as i b :
  shared_step beyond i b = if same_at id b i from && ((i >? 1) && (peek b (i - 1) <? 0x80)) then overlay b i to else Ok b.
Proof. unfold shared_step. by destruct (same_at id b i from). Qed.

Lemma reshare_long l : forall i prev out, (length l < length out <= 5)%nat -> reshare i prev out l = None.
Proof.
  induction l as [| c l IH]; intros i prev out Ho; [destruct out; [simpl in Ho; lia | done] |].
  destruct out as [| o out]; [simpl in Ho; lia |]. cbn [reshare]. simpl in Ho.
  destruct (same_at id _ 0 from && _); [by rewrite IH by (simpl; lia) |]. cbn [app tail]. by rewrite IH by lia.
Qed.

Lemma peek_before pre c l : peek ((pre ++ [c]) ++ l) (Z.of_nat (length (pre ++ [c])) - 1) = c.
Proof.
  rewrite length_app. simpl. replace (Z.of_nat (length pre + 1) - 1) with (Z.of_nat (length pre) + 0) by lia.
  rewrite <- app_assoc. by rewrite peek_app.
Qed.

Lemma share_run l : forall pre prev out, (pre <> [] -> last pre = Some prev) -> (length out <= length l)%nat -> (length out <= 5)%nat ->
  agrees (miter (length l) (Z.of_nat (length pre)) (shared_step beyond) (pre ++ out ++ drop (length out) l)) pre
    (reshare (Z.of_nat (length pre)) prev out l).
Proof.
  induction l as [| c l IH]; intros pre prev out Hp Hl Ho.
  - destruct out; [done | simpl in Hl; lia].
  - cbn [length miter reshare]. rewrite shared_step_as, same_here.
    assert ((Z.of_nat (length pre) >? 1) && (peek (pre ++ out ++ drop (length out) (c :: l)) (Z.of_nat (length pre) - 1) <? 128) =
      (Z.of_nat (length pre) >? 1) && (prev <? 128)) as ->.
    { destruct pre as [| x pre _] using rev_ind; [done |]. rewrite last_snoc in Hp. injection (Hp ltac:(by destruct pre)) as ->.
      by rewrite peek_before. }
    assert (forall x, Z.of_nat (length pre) + 1 = Z.of_nat (length (pre ++ [x]))) as Hn by (intros x; rewrite length_app; simpl; lia).
    destruct (same_at id _ 0 from && _) eqn:E.
    + rewrite overlay_here. destruct (Nat.leb_spec (length to) (length (out ++ drop (length out) (c :: l)))) as [Hlen | Hlen].
      * rewrite bind_ok. apply agrees_cons. rewrite length_app, length_drop in Hlen. simpl in Hlen.
        specialize (IH (pre ++ [0xfe]) 0xfe (tail to)). rewrite (Hn 0xfe). rewrite <- app_assoc in IH.
        replace (drop (length to) (out ++ drop (length out) (c :: l))) with (drop (length (tail to)) l).
        { apply IH; [intros _; apply last_snoc | simpl in *; lia | simpl; lia]. }
        rewrite drop_app, drop_drop, (drop_ge out) by (simpl; lia). simpl length.
        replace (length out + (6 - length out))%nat with 6%nat by lia. done.
      * rewrite bind_err. rewrite length_app, length_drop in Hlen. simpl in Hlen, Hl. rewrite reshare_long by (simpl; lia). by eexists.
    + rewrite bind_ok. destruct out as [| o out]; cbn [app length drop tail].
      * apply agrees_cons. rewrite (Hn c). specialize (IH (pre ++ [c]) c []). rewrite <- app_assoc in IH.
        apply IH; [intros _; apply last_snoc | simpl; lia | simpl; lia].
      * apply agrees_cons. rewrite (Hn o). specialize (IH (pre ++ [o]) o out). rewrite <- app_assoc in IH.
        simpl in Hl, Ho. apply IH; [intros _; apply last_snoc | lia | lia].
Qed.

Lemma overlay_inv b j w b' : overlay b j w = Ok b' ->
  length b' = length b /\ 0 <= j /\ b' = take (Z.to_nat j) b ++ w ++ drop (Z.to_nat j + length w) b /\ j + Z.of_nat (length w) <= Z.of_nat (length b).
Proof.
  unfold overlay. destruct (_ && _) eqn:E; [| done]. intros [= <-]. apply andb_prop in E as [Hj%Z.leb_le Hl%Z.leb_le].
  split; [rewrite !length_app, length_take, length_drop; lia | done].
Qed.

Lemma set_header_length b b1 entry : set_header b = Ok (b1, entry) -> length b1 = length b.
Proof.
  unfold set_header, set_field. destruct (e_lfanew b) as [hdr |]; [| done]. rewrite bind_ok.
  destruct (field 2 b (hdr + 22)) as [c |]; [| done]. rewrite bind_ok.
  destruct (overlay b (hdr + 22) _) as [b2 |] eqn:E2; [| done]. rewrite bind_ok.
  destruct (field 4 b2 (hdr + 40)) as [e |]; [| done]. rewrite bind_ok.
  destruct (overlay b2 (hdr + 40) _) as [b3 |] eqn:E3; [| done]. rewrite bind_ok. intros [= <- <-].
  apply overlay_inv in E2 as [E2 _], E3 as [E3 _]. congruence.
Qed.

Lemma relink_length l : forall out r, relink out l = Some r -> length r = length l.
Proof.
  induction l as [| c l IH]; intros out r E; [by destruct out; [injection E as <- |] |]. cbn [relink] in E.
  destruct out as [| o out]; [destruct (library (c :: l)) |]; apply fmap_Some in E as (r' & E & ->); simpl; f_equal; by eapply IH.
Qed.

(** C15. What the loops over the file do to it in place is what reading it once from left to
    right does: each name of a library of the kernel, whatever the case of its letters,
    becomes ddk.dll, and then each reference to the shared data of the system that of the
    process; the file keeps its length, and a replacement that would not fit is written
    behind its end. *)
Theorem DdkUpdateImage_rewrites b :
  match set_header b with
  | Err f => DdkUpdateImage beyond b (Z.of_nat (length b)) = Err f
  | Ok (b1, entry) =>
      match relink [] b1 ≫= reshare 0 0 [] with
      | Some b2 => DdkUpdateImage beyond b (Z.of_nat (length b)) = Ok (b2, entry)
      | None => exists a, DdkUpdateImage beyond b (Z.of_nat (length b)) = Err (BadAccess a)
      end
  end.
Proof.
  unfold DdkUpdateImage. destruct (set_header b) as [[b1 entry] | f] eqn:Eh; [| done]. rewrite bind_ok.
  pose proof (set_header_length _ _ _ Eh) as Hl. unfold mfor_le.
  replace (Z.to_nat (Z.of_nat (length b) - 1 - 0 + 1)) with (length b1) by lia.
  pose proof (relink_run b1 [] [] ltac:(constructor) ltac:(simpl; lia)) as L. unfold agrees in L. cbn [app length] in L. rewrite drop_0 in L.
  change (Z.of_nat 0) with 0 in L. destruct (relink [] b1) as [b2 |] eqn:E1; simpl.
  2: { destruct L as [a ->]. by exists a. }
  rewrite L, bind_ok. pose proof (relink_length _ _ _ E1) as Hl2.
  pose proof (share_run b2 [] 0 [] ltac:(done) ltac:(simpl; lia) ltac:(simpl; lia)) as R. unfold agrees in R. cbn [app length] in R. rewrite drop_0 in R.
  change (Z.of_nat 0) with 0 in R. rewrite Hl2 in R. destruct (reshare 0 0 [] b2) as [b3 |].
  - by rewrite R.
  - destruct R as [a ->]. by exists a.
Qed.

(** ** What is left *)

(** What is put at [j] differs from [t] at [i], if they overlap; [d] is [i - j]. *)
Definition clash_at (f : Z -> Z) (t w : list Z) (d : Z) : bool :=
  existsb (fun m =>
    let k := d + Z.of_nat m in
    match t !! m, (if 0 <=? k then w !! Z.to_nat k else None) with
    | Some c, Some c' => negb (f c' =? f c)
    | _, _ => false
    end) (seq 0 (length t)).

Definition clashes (f : Z -> Z) (t w : list Z) (hi : Z) : bool :=
  forallb (clash_at f t w) (seqZ (1 - Z.of_nat (length t)) (hi + Z.of_nat (length t) - 1)).

Lemma overlay_peek b j w b' i : overlay b j w = Ok b' -> 0 <= i ->
  peek b' i = match (if 0 <=? i - j then w !! Z.to_nat (i - j) else None) with Some c => c | None => peek b i end.
Proof.
  intros E Hi. destruct (overlay_inv _ _ _ _ E) as (Hl & Hj & Eb & Hw). unfold Image.peek. rewrite Hl, Eb.
  destruct (Z.leb_spec 0 (i - j)).
  - rewrite lookup_app_r by (rewrite length_take; lia). rewrite length_take, Nat.min_l by lia.
    replace (Z.to_nat i - Z.to_nat j)%nat with (Z.to_nat (i - j)) by lia.
    destruct (decide (Z.to_nat (i - j) < length w)%nat) as [Hlt | Hge].
    + rewrite lookup_app_l by done. by destruct (lookup_lt_is_Some_2 w (Z.to_nat (i - j)) Hlt) as [c ->].
    + rewrite lookup_app_r by lia. rewrite lookup_drop, (lookup_ge_None_2 w) by lia.
      by replace (Z.to_nat j + length w + (Z.to_nat (i - j) - length w))%nat with (Z.to_nat i) by lia.
  - rewrite lookup_app_l by (rewrite length_take; lia). by rewrite lookup_take_lt by lia.
Qed.

Lemma clash_kept f t w hi b j b' i : clashes f t w hi = true -> overlay b j w = Ok b' -> 0 <= i -> i - j < hi \/ Z.of_nat (length w) <= hi ->
  same_at f b' i t = true -> same_at f b i t = true /\ (i + Z.of_nat (length t) <= j \/ j + Z.of_nat (length w) <= i).
Proof.
  intros Hc E Hi Hd Hs. rewrite same_at_spec in Hs.
  assert (i + Z.of_nat (length t) <= j \/ j + Z.of_nat (length w) <= i) as Hout.
  { destruct (decide (i + Z.of_nat (length t) <= j \/ j + Z.of_nat (length w) <= i)) as [| No]; [done | exfalso].
    assert (clash_at f t w (i - j) = true) as Hk.
    { unfold clashes in Hc. rewrite forallb_forall in Hc. apply Hc. apply list_elem_of_In, elem_of_seqZ. lia. }
    apply existsb_exists in Hk as (m & _ & Hm). cbv beta zeta in Hm. destruct (t !! m) as [c |] eqn:Et; [| done].
    specialize (Hs m c Et). rewrite (overlay_peek b j w b') in Hs by (done || lia).
    replace (i + Z.of_nat m - j) with (i - j + Z.of_nat m) in Hs by lia.
    destruct (if 0 <=? i - j + Z.of_nat m then w !! Z.to_nat (i - j + Z.of_nat m) else None) as [c' |]; [| done].
    apply negb_true_iff, Z.eqb_neq in Hm. done. }
  split; [| done]. apply same_at_spec. intros m c Et. rewrite <- (Hs m c Et). f_equal.
  rewrite (overlay_peek b j w b') by (done || lia). pose proof (lookup_lt_Some _ _ _ Et).
  destruct (Z.leb_spec 0 (i + Z.of_nat m - j)); [| done]. rewrite lookup_ge_None_2 by lia. done.
Qed.

Lemma miter_post {A} (P : Z -> A -> Prop) (body : Z -> A -> result A) n : forall lo a a',
  (forall i a a', lo <= i -> P i a -> body i a = Ok a' -> P (i + 1) a') -> P lo a -> miter n lo body a = Ok a' -> P (lo + Z.of_nat n) a'.
Proof.
  induction n as [| n IH]; intros lo a a' Hb Hp E; simpl in E; [injection E as <-; by rewrite Z.add_0_r |].
  destruct (body lo a) as [a1 |] eqn:E1; [| done]. replace (lo + Z.of_nat (S n)) with (lo + 1 + Z.of_nat n) by lia.
  apply (IH (lo + 1) a1 a'); [| by apply (Hb lo a) | done]. intros i x y Hi. apply Hb. lia.
Qed.

(** No library of the kernel is named at [i]. *)
Definition unnamed_at (b : list Z) (i : Z) : Prop := forall t, t ∈ libraries -> same_at lower b i t = false.

(** The shared data of the system is not referred to at [i]. *)
Definition unshared_at (b : list Z) (i : Z) : Prop := 1 < i -> same_at id b i from = true -> 0x80 <= peek b (i - 1).

Lemma names_clash t : t ∈ libraries -> clashes lower t ddk_dll 8 = true /\ clashes lower t to 6 = true.
Proof. intros Ht. repeat (apply elem_of_cons in Ht as [-> | Ht]; [done |]). by apply not_elem_of_nil in Ht. Qed.

Lemma unnamed_overlay b j w b' i : (forall t, t ∈ libraries -> clashes lower t w (Z.of_nat (length w)) = true) ->
  overlay b j w = Ok b' -> 0 <= i -> unnamed_at b i -> unnamed_at b' i.
Proof.
  intros Hc E Hi Hu t Ht. destruct (same_at lower b' i t) eqn:Es; [| done].
  destruct (clash_kept lower t w _ b j b' i (Hc t Ht) E Hi ltac:(right; lia) Es) as [Es' _]. by rewrite (Hu t Ht) in Es'.
Qed.

Lemma unnamed_here b i w b' : (forall t, t ∈ libraries -> clashes lower t w (Z.of_nat (length w)) = true) -> w <> [] ->
  overlay b i w = Ok b' -> 0 <= i -> unnamed_at b' i.
Proof.
  intros Hc Nw E Hi t Ht. destruct (same_at lower b' i t) eqn:Es; [| done].
  destruct (clash_kept lower t w _ b i b' i (Hc t Ht) E Hi ltac:(right; lia) Es) as [_ Ho].
  assert (t <> []) as Nt by (intros ->; repeat (apply elem_of_cons in Ht as [Ht | Ht]; [discriminate Ht |]); by apply not_elem_of_nil in Ht).
  destruct t; [done |]. destruct w; [done |]. simpl in Ho. lia.
Qed.

Lemma link_post b i b' : 0 <= i -> link_step beyond i b = Ok b' ->
  unnamed_at b' i /\ length b' = length b /\ forall k, 0 <= k -> unnamed_at b k -> unnamed_at b' k.
Proof.
  intros Hi E. assert (forall b', overlay b i ddk_dll = Ok b' ->
    unnamed_at b' i /\ length b' = length b /\ forall k, 0 <= k -> unnamed_at b k -> unnamed_at b' k) as Ho.
  { intros x Ex. split; [| split; [by apply (overlay_inv b i ddk_dll) |]].
    - apply (unnamed_here b i ddk_dll); try done. apply names_clash.
    - intros k Hk. apply (unnamed_overlay b i ddk_dll); try done. apply names_clash. }
  unfold link_step in E. destruct (same_at lower b i (ascii "ntoskrnl.exe")) eqn:E1; [by apply Ho |].
  destruct (same_at lower b i (ascii "hal.dll")) eqn:E2; [by apply Ho |].
  destruct (same_at lower b i (ascii "wmilib.sys")) eqn:E3; [by apply Ho |]. injection E as <-.
  split; [| done]. intros t Ht. repeat (apply elem_of_cons in Ht as [-> | Ht]; [done |]). by apply not_elem_of_nil in Ht.
Qed.

Lemma share_post b i b' : 0 <= i -> shared_step beyond i b = Ok b' ->
  unshared_at b' i /\ length b' = length b /\ (forall k, 0 <= k < i -> unshared_at b k -> unshared_at b' k) /\
  forall k, 0 <= k -> unnamed_at b k -> unnamed_at b' k.
Proof.
  intros Hi E. rewrite shared_step_as in E. destruct (same_at id b i from) eqn:Es; cbn [andb] in E.
  2: { injection E as <-. split; [intros _ E; congruence | done]. }
  destruct ((i >? 1) && (peek b (i - 1) <? 128)) eqn:Ep.
  2: { injection E as <-. split; [| done]. intros H1 _. apply andb_false_iff in Ep as [Ep | Ep]; lia. }
  assert (clashes id from to 1 = true) as Hc by done.
  split; [| split; [by apply (overlay_inv b i to) |]; split].
  - intros _ Es'. destruct (clash_kept id from to 1 b i b' i Hc E Hi ltac:(left; lia) Es') as [_ Ho]. simpl in Ho. lia.
  - intros k Hk Hu H1 Es'. destruct (clash_kept id from to 1 b i b' k Hc E ltac:(lia) ltac:(left; lia) Es') as [Es2 Ho].
    rewrite (overlay_peek b i to b') by (done || lia). destruct (Z.leb_spec 0 (k - 1 - i)); [lia |]. by apply Hu.
  - intros k Hk. apply (unnamed_overlay b i to); try done. intros t Ht. by apply names_clash.
Qed.

(** C39. The image that is loaded is the file, of the same length and with the DLL flag and no
    entry point, in which nowhere a library of the kernel is named or the shared data of
    the system is referred to: no replacement makes another one necessary. *)
Theorem DdkUpdateImage_clean b b' entry : DdkUpdateImage beyond b (Z.of_nat (length b)) = Ok (b', entry) ->
  (exists b1, set_header b = Ok (b1, entry)) /\ length b' = length b /\
  forall i, 0 <= i < Z.of_nat (length b) -> unnamed_at b' i /\ unshared_at b' i.
Proof.
  intros E. unfold DdkUpdateImage in E. destruct (set_header b) as [[b1 e] |] eqn:Eh; [| done]. rewrite bind_ok in E.
  unfold mfor_le in E. replace (Z.to_nat (Z.of_nat (length b) - 1 - 0 + 1)) with (length b) in E by lia.
  destruct (miter (length b) 0 (link_step beyond) b1) as [b2 |] eqn:E2; [| done]. rewrite bind_ok in E.
  destruct (miter (length b) 0 (shared_step beyond) b2) as [b3 |] eqn:E3; [| done]. injection E as <- <-.
  split; [by exists b1 |].
  pose proof (miter_post (fun n x => length x = length b /\ forall i, 0 <= i < n -> unnamed_at x i) (link_step beyond) (length b) 0 b1 b2) as L.
  destruct L as [L2 U2]; try done.
  { intros i a a' Hi [La Ua] Ea. destruct (link_post a i a' Hi Ea) as (Ui & Li & Uk). split; [congruence |].
    intros k Hk. destruct (decide (k = i)) as [-> | Nk]; [done |]. apply Uk, Ua; lia. }
  { split; [by eapply set_header_length | intros i Hi; lia]. }
  pose proof (miter_post (fun n x => length x = length b /\ (forall i, 0 <= i < Z.of_nat (length b) -> unnamed_at x i) /\
    forall i, 0 <= i < n -> unshared_at x i) (shared_step beyond) (length b) 0 b2 b3) as R.
  destruct R as (L3 & U3 & S3); try done.
  - intros i a a' Hi (La & Ua & Sa) Ea. destruct (share_post a i a' Hi Ea) as (Si & Li & Sk & Uk). split; [congruence |].
    split; [intros k Hk; apply Uk, Ua; lia |]. intros k Hk. destruct (decide (k = i)) as [-> | Nk]; [done |].
    apply Sk; [lia |]. apply Sa. lia.
  - split; [done |]. split; [| intros i Hi; lia]. intros i Hi. apply U2. lia.
  - split; [done |]. intros i Hi. split; [by apply U3 | apply S3; lia].
Qed.

End update.

(** ** Names *)

Lemma strrchr_last c pre post : Forall (fun x => x <> c) post -> strrchr c (pre ++ c :: post) = Some (c :: post).
Proof.
  intros Hp. assert (strrchr c post = None) as Hn.
  { induction Hp as [| x post Hx Hp IH]; [done |]. simpl. rewrite IH. by apply Z.eqb_neq in Hx as ->. }
  induction pre as [| x pre IH]; simpl; [by rewrite Hn, Z.eqb_refl | by rewrite IH].
Qed.

(** The name of a driver whose file is given with its directory: the backslash stays. *)
Theorem DdkGetDriverName_spec dir base ext : Forall (fun x => x <> BACKSLASH) (base ++ 46 :: ext) -> Forall (fun x => x <> 46) ext ->
  Z.of_nat (length (base ++ 46 :: ext)) < MAX_PATH ->
  DdkGetDriverName (dir ++ BACKSLASH :: base ++ 46 :: ext) = Ok (BACKSLASH :: base).
Proof.
  intros Hb He Hl. unfold DdkGetDriverName. rewrite strrchr_last by done.
  destruct (Z.ltb_spec MAX_PATH (Z.of_nat (length (BACKSLASH :: base ++ 46 :: ext)))) as [Hlt | _]; [simpl in Hlt, Hl; lia |].
  change (BACKSLASH :: base ++ 46 :: ext) with ((BACKSLASH :: base) ++ 46 :: ext). rewrite strrchr_last by done.
  rewrite length_app, Nat.add_sub. by rewrite take_app_length.
Qed.
