(* ===== verification/ImageData.v ===== *)
(** * ImageData: the data of an image, saved and restored *)

From S2P Require Import Prelude Memory Image.
From S2P Require Detours.

(** ** Memory that is the same somewhere *)

Lemma load_agree n a m m' : (forall x, in_range a (Z.of_nat n) x -> m' !! x = m !! x) -> load n a m' = load n a m.
Proof.
  revert a. induction n as [| n IH]; intros a Ha; [done |]. cbn [load].
  rewrite (Ha a) by (unfold in_range; lia). rewrite IH; [done |]. intros x Hx. apply Ha. unfold in_range in *. lia.
Qed.

Lemma load_lookup n a m bs : load n a m = Ok bs -> forall k, (k < n)%nat -> bs !! k = m !! (a + Z.of_nat k).
Proof.
  revert a bs. induction n as [| n IH]; intros a bs E k Hk; [lia |]. cbn [load] in E.
  destruct (m !! a) as [b |] eqn:Ea; [| done]. destruct (load n (a + 1) m) as [l |] eqn:El; [| done]. injection E as <-.
  destruct k as [| k]; [by rewrite Z.add_0_r |]. change ((b :: l) !! S k) with (l !! k). rewrite (IH _ _ El k) by lia. f_equal. lia.
Qed.

Lemma store_fill bs : forall a m m', store a bs m = Ok m' -> forall x, m' !! x = fill a bs m !! x.
Proof.
  induction bs as [| b bs IH]; intros a m m' E x; cbn [store] in E; [by injection E as <- |].
  destruct (m !! a); [| done]. rewrite (IH _ _ _ E x). cbn [fill]. rewrite fill_lookup.
  destruct (decide (in_range (a + 1) (Z.of_nat (length bs)) x)) as [Hr | Hr].
  - rewrite lookup_insert_ne by (unfold in_range in Hr; lia). by rewrite fill_lookup, decide_True.
  - destruct (decide (a = x)) as [-> | Na]; [by rewrite !lookup_insert_eq |]. rewrite !lookup_insert_ne by done.
    by rewrite fill_lookup, decide_False.
Qed.

(** ** Headers as they are in memory *)

Definition num (n : nat) (a : Z) (m : mem) : result Z := bs ← load n a m; Ok (le_combine bs).

Definition sec (a : Z) (m : mem) : result section :=
  v ← num 4 (a + 8) m; va ← num 4 (a + 12) m; c ← num 4 (a + 36) m; Ok (mkSection v va c).

Fixpoint table (n : nat) (a : Z) (m : mem) : result (list section) :=
  match n with
  | O => Ok []
  | S n => x ← sec a m; xs ← table n (a + 40) m; Ok (x :: xs)
  end.

Lemma num_agree n a m m' : (forall x, in_range a (Z.of_nat n) x -> m' !! x = m !! x) -> num n a m' = num n a m.
Proof. intros Ha. unfold num. by rewrite (load_agree n a m m'). Qed.

Lemma sec_agree a m m' : (forall x, in_range a 40 x -> m' !! x = m !! x) -> sec a m' = sec a m.
Proof.
  intros Ha. unfold sec. rewrite !(num_agree _ _ m m'); [done | | |]; intros x Hx; apply Ha; unfold in_range in *; lia.
Qed.

Lemma table_agree n : forall a m m', (forall x, in_range a (40 * Z.of_nat n) x -> m' !! x = m !! x) -> table n a m' = table n a m.
Proof.
  induction n as [| n IH]; intros a m m' Ha; [done |]. cbn [table]. rewrite (sec_agree a m m'), (IH (a + 40) m m'); [done | |];
    intros x Hx; apply Ha; unfold in_range in *; lia.
Qed.

Definition saved (xs : list section) : list section := filter (fun x => isSaveData x = true) xs.

Definition total (xs : list section) : Z := foldr (fun x n => VirtualSize x + n) 0 xs.

(** What the sections of the image at [h] have in [m]. *)
Fixpoint gather (m : mem) (h : Z) (xs : list section) : result (list Z) :=
  match xs with
  | [] => Ok []
  | x :: xs => bs ← load (Z.to_nat (VirtualSize x)) (h + VirtualAddress x) m; r ← gather m h xs; Ok (bs ++ r)
  end.

Definition lies_in (h : Z) (xs : list section) (y : Z) : Prop :=
  Exists (fun x => in_range (h + VirtualAddress x) (VirtualSize x) y) xs.

#[global] Instance lies_in_dec h xs y : Decision (lies_in h xs y).
Proof. unfold lies_in, in_range. apply _. Defined.

Definition sizes_ok (xs : list section) : Prop := Forall (fun x => 0 <= VirtualSize x) xs.

Lemma total_nonneg xs : sizes_ok xs -> 0 <= total xs.
Proof. induction 1; simpl; lia. Qed.

Lemma gather_length m h xs bs : sizes_ok xs -> gather m h xs = Ok bs -> Z.of_nat (length bs) = total xs.
Proof.
  intros Hs. revert bs. induction Hs as [| x xs Hx Hs IH]; intros bs E; cbn [gather] in E; [by injection E as <- |].
  destruct (load _ _ m) as [l |] eqn:El; [| done]. rewrite bind_ok in E. destruct (gather m h xs) as [r |]; [| done]. injection E as <-.
  rewrite length_app, (load_length _ _ _ _ El). simpl. rewrite <- (IH r eq_refl). lia.
Qed.

Section data.
Context `{LOADER} `{Detours.DETOURS}.

Lemma number_run n a (s : istate) v : num n a (memory s) = Ok v -> number n a s = Ok (v, s).
Proof.
  unfold num, number. intros E. rewrite (bind_run _ _ s (memory s) s eq_refl). destruct (load n a (memory s)) as [bs |] eqn:El; [| done].
  injection E as <-. by rewrite (bind_run _ _ s bs s) by (unfold lift; by rewrite ?El).
Qed.

Lemma section_run a (s : istate) x : sec a (memory s) = Ok x -> section_at a s = Ok (x, s).
Proof.
  unfold sec. destruct (num 4 (a + 8) (memory s)) as [v |] eqn:E1; [| done]. rewrite bind_ok.
  destruct (num 4 (a + 12) (memory s)) as [va |] eqn:E2; [| done]. rewrite bind_ok.
  destruct (num 4 (a + 36) (memory s)) as [c |] eqn:E3; [| done]. intros [= <-]. unfold section_at.
  rewrite (bind_run _ _ _ _ _ (number_run _ _ _ _ E1)), (bind_run _ _ _ _ _ (number_run _ _ _ _ E2)).
  by rewrite (bind_run _ _ _ _ _ (number_run _ _ _ _ E3)).
Qed.

Lemma table_cons n a m xs : table (S n) a m = Ok xs -> exists x r, xs = x :: r /\ sec a m = Ok x /\ table n (a + 40) m = Ok r.
Proof.
  cbn [table]. destruct (sec a m) as [x |]; [| done]. rewrite bind_ok. destruct (table n (a + 40) m) as [r |]; [| done].
  intros [= <-]. by exists x, r.
Qed.

Lemma sum_run n : forall a len (s : istate) xs, table n a (memory s) = Ok xs -> sizes_ok (saved xs) -> 0 <= len -> len + total (saved xs) < 2 ^ 32 ->
  sum_data n a len s = Ok (len + total (saved xs), s).
Proof.
  induction n as [| n IH]; intros a len s xs E Hs Hl Ht; [injection E as <-; simpl; by rewrite Z.add_0_r |].
  destruct (table_cons _ _ _ _ E) as (x & r & -> & Ex & Er). cbn [sum_data]. rewrite (bind_run _ _ _ _ _ (section_run _ _ _ Ex)).
  unfold saved in *. rewrite filter_cons in *. destruct (isSaveData x).
  - simpl in *. apply Forall_cons in Hs as [Hx Hs]. pose proof (total_nonneg _ Hs).
    assert (u32 (len + VirtualSize x) = len + VirtualSize x) as -> by (unfold u32; apply Z.mod_small; lia).
    rewrite (IH _ _ _ _ Er Hs) by lia. do 2 f_equal. lia.
  - simpl in *. by apply IH.
Qed.

Lemma copy_out_run n : forall a h (s : istate) xs bs pre rest, table n a (memory s) = Ok xs -> sizes_ok (saved xs) ->
  gather (memory s) h (saved xs) = Ok bs -> length rest = length bs ->
  copy_out n a h (Z.of_nat (length pre)) (pre ++ rest) s = Ok (pre ++ bs, s).
Proof.
  induction n as [| n IH]; intros a h s xs bs pre rest E Hs Hg Hr.
  - injection E as <-. injection Hg as <-. by destruct rest.
  - destruct (table_cons _ _ _ _ E) as (x & r & -> & Ex & Er). cbn [copy_out]. rewrite (bind_run _ _ _ _ _ (section_run _ _ _ Ex)).
    unfold saved in *. rewrite filter_cons in *. destruct (isSaveData x).
    + simpl in Hs, Hg. apply Forall_cons in Hs as [Hx Hs]. destruct (load _ _ (memory s)) as [l |] eqn:El; [| done].
      rewrite bind_ok in Hg. destruct (gather _ h (filter _ r)) as [q |] eqn:Eq; [| done]. injection Hg as <-.
      rewrite (bind_run _ _ s (memory s) s eq_refl). rewrite (bind_run _ _ s l s) by (unfold lift; by rewrite ?El).
      pose proof (load_length _ _ _ _ El) as Hl. rewrite length_app in Hr.
      rewrite (bind_run _ _ s ((pre ++ l) ++ drop (length l) rest) s).
      2: { unfold lift. rewrite overlay_run by (rewrite ?length_app; lia). rewrite Nat2Z.id, take_app_length, <- drop_drop, drop_app_length.
           by rewrite <- app_assoc. }
      replace (Z.of_nat (length pre) + VirtualSize x) with (Z.of_nat (length (pre ++ l))) by (rewrite length_app; lia).
      rewrite (IH _ _ _ _ q (pre ++ l) _ Er Hs Eq) by (rewrite length_drop; lia). by rewrite <- app_assoc.
    + by apply (IH (a + 40) h s r).
Qed.

(** [m0]: the memory that was saved. *)
Lemma copy_in_run m0 n : forall a h (s : istate) xs bs pre, table n a (memory s) = Ok xs -> sizes_ok (saved xs) ->
  gather m0 h (saved xs) = Ok bs -> (forall y, lies_in h (saved xs) y -> ~ in_range a (40 * Z.of_nat n) y) ->
  (forall y, lies_in h (saved xs) y -> is_Some (memory s !! y)) ->
  exists m', copy_in n a h (Z.of_nat (length pre)) (pre ++ bs) s = Ok (tt, set_memory m' s) /\
    forall y, m' !! y = if decide (lies_in h (saved xs) y) then m0 !! y else memory s !! y.
Proof.
  induction n as [| n IH]; intros a h s xs bs pre E Hs Hg Ha Hm.
  - injection E as <-. exists (memory s). split; [by destruct s | done].
  - destruct (table_cons _ _ _ _ E) as (x & r & -> & Ex & Er). cbn [copy_in]. rewrite (bind_run _ _ _ _ _ (section_run _ _ _ Ex)).
    unfold saved in *. rewrite filter_cons in *. destruct (isSaveData x).
    + simpl in Hs, Hg, Ha, Hm. apply Forall_cons in Hs as [Hx Hs]. destruct (load _ _ m0) as [l |] eqn:El; [| done].
      rewrite bind_ok in Hg. destruct (gather _ h (filter _ r)) as [q |] eqn:Eq; [| done]. injection Hg as <-.
      pose proof (load_length _ _ _ _ El) as Hl.
      rewrite (bind_run _ _ s l s).
      2: { unfold lift. rewrite Nat2Z.id, drop_app_length, bytes_of_run by (rewrite length_app; lia).
           by rewrite take_app_le, take_ge by lia. }
      rewrite (bind_run _ _ s (memory s) s eq_refl).
      destruct (store_run l (h + VirtualAddress x) (memory s)) as (m1 & Es & _ & _ & Hd).
      { intros y Hy. apply Hm. apply Exists_cons. left. unfold in_range in *. lia. }
      rewrite (bind_run _ _ s m1 s) by (unfold lift; by rewrite ?Es). rewrite (bind_run _ _ s tt (set_memory m1 s)) by done.
      assert (forall y, m1 !! y = if decide (in_range (h + VirtualAddress x) (VirtualSize x) y) then m0 !! y else memory s !! y) as Hm1.
      { intros y. rewrite (store_fill _ _ _ _ Es y), fill_lookup. rewrite Hl, Z2Nat.id by lia.
        destruct (decide (in_range (h + VirtualAddress x) (VirtualSize x) y)) as [Hr |]; [| done].
        rewrite (load_lookup _ _ _ _ El) by (unfold in_range in Hr; lia). f_equal. unfold in_range in Hr. lia. }
      replace (Z.of_nat (length pre) + VirtualSize x) with (Z.of_nat (length (pre ++ l))) by (rewrite length_app; lia).
      rewrite app_assoc. destruct (IH (a + 40) h (set_memory m1 s) r q (pre ++ l)) as (m' & Ec & Hm'); try done.
      * change (memory (set_memory m1 s)) with m1. rewrite (table_agree _ _ (memory s)); [done |]. intros y Hy. rewrite Hm1.
        rewrite decide_False; [done |]. intros Hr. eapply Ha; [apply Exists_cons; by left |]. unfold in_range in *. lia.
      * intros y Hy Hr. eapply Ha; [apply Exists_cons; by right |]. unfold in_range in *. lia.
      * intros y Hy. change (memory (set_memory m1 s)) with m1. apply elem_of_dom. rewrite Hd. apply elem_of_dom, Hm, Exists_cons. by right.
      * exists m'. split; [exact Ec |]. intros y. rewrite Hm'. change (memory (set_memory m1 s)) with m1. rewrite Hm1. unfold lies_in in *.
        repeat case_decide; rewrite ?Exists_cons in *; (done || tauto).
    + destruct (IH (a + 40) h s r bs pre) as (m' & Ec & Hm'); try done.
      * intros y Hy Hr. eapply Ha; [done |]. unfold in_range in *. lia.
      * by exists m'.
Qed.

(** The headers of the image at [h] are at [hdr], and [xs] are its sections. *)
Record image_in (m : mem) (h hdr a n : Z) (xs : list section) : Prop := {
  ii_first : (k ← num 2 (hdr + 20) m; Ok (hdr + 24 + k)) = Ok a;
  ii_count : num 2 (hdr + 6) m = Ok n;
  ii_table : table (Z.to_nat n) a m = Ok xs;
  ii_sizes : sizes_ok (saved xs) /\ total (saved xs) < 2 ^ 32;
  ii_mapped : forall y, lies_in h (saved xs) y -> is_Some (m !! y)
}.

(** No data where the headers are. *)
Definition headers (hdr a n y : Z) : Prop := in_range hdr 22 y \/ in_range a (40 * n) y.

Lemma gather_run m h xs : sizes_ok xs -> (forall y, lies_in h xs y -> is_Some (m !! y)) -> exists bs, gather m h xs = Ok bs.
Proof.
  intros Hs. induction Hs as [| x xs Hx Hs IH]; intros Hm; [by exists [] |]. cbn [gather].
  destruct (load_mapped (Z.to_nat (VirtualSize x)) (h + VirtualAddress x) m) as [l ->].
  { intros y Hy. apply Hm, Exists_cons. left. unfold in_range in *. lia. }
  destruct IH as [r ->]; [| by eexists]. intros y Hy. apply Hm, Exists_cons. by right.
Qed.

Lemma headers_run (s : istate) h hdr a n xs : image_in (memory s) h hdr a n xs ->
  first_section hdr s = Ok (a, s) /\ NumberOfSections hdr s = Ok (n, s).
Proof.
  intros []. split; [| by apply number_run]. unfold first_section. destruct (num 2 (hdr + 20) (memory s)) as [k |] eqn:E; [| done].
  rewrite (bind_run _ _ _ _ _ (number_run _ _ _ _ E)). by injection ii_first0 as <-.
Qed.

(** C40. The data of an image, saved when it has been loaded and restored when it stays: whatever
    its driver has written meanwhile, each byte of a section that is written to is again
    what it was, and no other byte has changed. *)
Theorem image_data_roundtrip (s : istate) h hdr a n xs malloc
  (Hi : image_in (memory s) h hdr a n xs) (Ha : forall y, lies_in h (saved xs) y -> ~ headers hdr a n y)
  (Hp : forall k, 0 <= k -> exists b, malloc k = Some b /\ Z.of_nat (length b) = k) :
  exists data, DdkSaveImageData malloc h hdr s = Ok (data, s) /\
  forall (s' : istate) p, module p = h -> Header p = hdr -> Data p = data ->
    (forall y, headers hdr a n y -> memory s' !! y = memory s !! y) -> dom (memory s') = dom (memory s) ->
    exists m', DdkRestoreImageData p s' = Ok (tt, set_memory m' s') /\
      forall y, m' !! y = if decide (lies_in h (saved xs) y) then memory s !! y else memory s' !! y.
Proof.
  destruct (headers_run s _ _ _ _ _ Hi) as [E1 E2]. destruct Hi as [I1 I2 I3 [I4 I5] I6].
  destruct (gather_run (memory s) h (saved xs) I4 I6) as [bs Hg].
  assert (forall s' : istate, (forall y, headers hdr a n y -> memory s' !! y = memory s !! y) ->
    first_section hdr s' = Ok (a, s') /\ NumberOfSections hdr s' = Ok (n, s') /\ table (Z.to_nat n) a (memory s') = Ok xs) as Same.
  { intros s' Hy. assert (n = Z.of_nat (Z.to_nat n) \/ Z.to_nat n = 0%nat) as Hn by lia.
    assert (forall b k, in_range hdr 22 b -> b + Z.of_nat k <= hdr + 22 -> num k b (memory s') = num k b (memory s)) as Hnum.
    { intros b k Hb Hk. apply num_agree. intros y Hr. apply Hy. left. unfold in_range in *. lia. }
    split; [| split].
    - unfold first_section. rewrite <- (Hnum (hdr + 20) 2%nat) in I1 by (unfold in_range; lia).
      destruct (num 2 (hdr + 20) (memory s')) as [k |] eqn:E; [| done].
      rewrite (bind_run _ _ _ _ _ (number_run _ _ _ _ E)). by injection I1 as <-.
    - apply number_run. by rewrite Hnum by (unfold in_range; lia).
    - rewrite (table_agree _ _ (memory s)); [done |]. intros y Hr. apply Hy. right. unfold in_range in *. lia. }
  unfold DdkSaveImageData. rewrite (bind_run _ _ _ _ _ E1), (bind_run _ _ _ _ _ E2).
  rewrite (bind_run _ _ _ _ _ (sum_run _ _ 0 s xs I3 I4 ltac:(done) ltac:(lia))). rewrite Z.add_0_l.
  destruct (Z.eqb_spec (total (saved xs)) 0) as [Z0 | N0].
  - exists None. split; [done |]. intros s' p Hm Hh Hdata Hy Hd. destruct (Same s' Hy) as (F1 & F2 & F3).
    exists (memory s'). unfold DdkRestoreImageData. rewrite Hh, (bind_run _ _ _ _ _ F1), Hdata. split; [by destruct s' |].
    intros y. destruct (decide (lies_in h (saved xs) y)) as [Hl |]; [exfalso | done]. clear -Z0 Hl I4.
    induction I4 as [| x l Hx I4 IH]; [by apply Exists_nil in Hl |]. simpl in Z0. pose proof (total_nonneg _ I4).
    apply Exists_cons in Hl as [Hr | Hl]; [unfold in_range in Hr; lia | apply IH; [lia | done]].
  - destruct (Hp (total (saved xs))) as (b & -> & Hb); [by apply total_nonneg |].
    pose proof (gather_length _ _ _ _ I4 Hg) as Hl.
    pose proof (copy_out_run (Z.to_nat n) a h s xs bs [] b I3 I4 Hg ltac:(lia)) as Ec. simpl in Ec.
    exists (Some bs). split; [by rewrite (bind_run _ _ _ _ _ Ec) |].
    intros s' p Hm Hh Hdata Hy Hd. destruct (Same s' Hy) as (F1 & F2 & F3).
    unfold DdkRestoreImageData. rewrite Hh, (bind_run _ _ _ _ _ F1), Hdata, (bind_run _ _ _ _ _ F2), Hm.
    destruct (copy_in_run (memory s) (Z.to_nat n) a h s' xs bs [] F3 I4 Hg) as (m' & Em & Hm'); [| | by exists m'].
    + intros y Hl' Hr. eapply Ha; [done |]. right. unfold in_range in *. lia.
    + intros y Hl'. apply elem_of_dom. rewrite Hd. by apply elem_of_dom, I6.
Qed.

End data.
