(* ===== verification/ImageLoads.v ===== *)
(** * ImageLoads: who holds an image, and what an image holds *)

From S2P Require Import Prelude Memory LocalPath Image ImageData.
From S2P Require Detours DetoursInv DetoursSpec.

(** ** The slots of delayed loading *)

(** The slots of an image have the count of each module. *)
Record slots (l : list (Z * Z)) (c : Z -> Z) : Prop := {
  s_length : length l = maxmodules;
  s_used i h n : l !! i = Some (h, n) -> h <> 0 -> n = c h /\ 0 < n;
  s_free i n : l !! i = Some (0, n) -> n = 0;
  s_once i j h n m : l !! i = Some (h, n) -> l !! j = Some (h, m) -> h <> 0 -> i = j;
  s_count h : h <> 0 -> 0 <= c h < 2 ^ 31;
  s_there h : h <> 0 -> 0 < c h -> exists i n, l !! i = Some (h, n)
}.

Definition with_count (c : Z -> Z) (h n : Z) : Z -> Z := fun x => if x =? h then n else c x.

Lemma fresh_slots : slots (replicate maxmodules (0, 0)) (fun _ => 0).
Proof.
  split.
  - apply length_replicate.
  - intros i h n [[= -> ->] _]%lookup_replicate. done.
  - intros i n [[= ->] _]%lookup_replicate. done.
  - intros i j h n m [[= -> ->] _]%lookup_replicate. done.
  - intros h _. lia.
  - intros h _ Hh. lia.
Qed.

Lemma find_slot_spec h l n : forall e, h <> 0 -> (n <= length l)%nat ->
  (exists i x, (i < n)%nat /\ l !! i = Some (h, x) /\ (find_slot n h l e).1 = Z.of_nat i) \/
  (forall i x, (i < n)%nat -> l !! i <> Some (h, x)) /\ (find_slot n h l e).1 = -1 /\
    ((exists i x, (i < n)%nat /\ l !! i = Some (0, x) /\ (find_slot n h l e).2 = Z.of_nat i) \/
     (forall i x, (i < n)%nat -> l !! i <> Some (0, x)) /\ (find_slot n h l e).2 = e).
Proof.
  intros e Nh. revert e. induction n as [| n IH]; intros e Hn.
  - right. split; [intros; lia |]. split; [done |]. right. split; [intros; lia | done].
  - cbn [find_slot]. destruct (lookup_lt_is_Some_2 l n) as [[x y] Ex]; [lia |]. rewrite Ex.
    destruct (Z.eqb_spec x h) as [-> | Nx].
    + left. exists n, y. split; [lia | done].
    + destruct (IH (if x =? 0 then Z.of_nat n else e) ltac:(lia)) as [(i & z & Hi & Ei & E) | (No & E1 & E2)].
      * left. exists i, z. split; [lia | done].
      * right. split. { intros i z Hi. destruct (decide (i = n)) as [-> | N]; [congruence | apply No; lia]. }
        split; [done |]. destruct E2 as [(i & z & Hi & Ei & E) | (N0 & E)]; [left; exists i, z; split; [lia | done] |].
        destruct (Z.eqb_spec x 0) as [-> | Nx0]; [left; exists n, y; split; [lia | done] |]. right. split; [| done].
        intros i z Hi. destruct (decide (i = n)) as [-> | N]; [congruence | apply N0; lia].
Qed.

(** The slot that a load takes, if there is one. *)
Lemma load_slot l c h : slots l c -> h <> 0 -> c h < 2 ^ 31 - 1 -> 0 < c h \/ (exists i n, l !! i = Some (0, n)) ->
  exists i x, let '(j, e) := find_slot maxmodules h l (-1) in
    (if j <? 0 then e else j) = Z.of_nat i /\ l !! i = Some x /\ slots (<[i := (h, s32 (x.2 + 1))]> l) (with_count c h (c h + 1)).
Proof.
  intros S Nh Hc Hs. pose proof (s_length _ _ S) as Hl. pose proof (s_count _ _ S h Nh) as Hch.
  assert (forall i x, l !! i = Some x -> (x.1 = h \/ x.1 = 0 /\ c h = 0) ->
    slots (<[i := (h, s32 (x.2 + 1))]> l) (with_count c h (c h + 1))) as Take.
  { intros i [y n] Ei Hy. simpl in Hy |- *. assert (n = c h) as ->.
    { destruct Hy as [-> | [-> Hz]]; [by destruct (s_used _ _ S i h n Ei Nh) | by rewrite Hz, (s_free _ _ S i n Ei)]. }
    assert (s32 (c h + 1) = c h + 1) as -> by (unfold s32; rewrite Z.mod_small; lia).
    pose proof (lookup_lt_Some _ _ _ Ei) as Hi.
    assert (forall j z m, <[i := (h, c h + 1)]> l !! j = Some (z, m) -> j = i /\ z = h /\ m = c h + 1 \/ j <> i /\ l !! j = Some (z, m)) as Look.
    { intros j z m. rewrite list_lookup_insert. case_decide as Hd; [destruct Hd as [-> _] | intros E; right; split; [intros ->; tauto | done]].
      intros [= <- <-]. by left. }
    assert (forall j m, j <> i -> l !! j <> Some (h, m)) as Only.
    { intros j m Nj Ej. destruct Hy as [-> | [-> Hz]]; [by destruct Nj; apply (s_once _ _ S j i h m (c h)) |].
      destruct (s_used _ _ S j h m Ej Nh). lia. }
    unfold with_count. split.
    - by rewrite length_insert.
    - intros j z m [(-> & -> & ->) | [Nj Ej]]%Look Nz; [rewrite Z.eqb_refl; lia |].
      destruct (Z.eqb_spec z h) as [-> |]; [by destruct (Only j m Nj) | by apply (s_used _ _ S j)].
    - intros j m [(-> & ? & ->) | [Nj Ej]]%Look; [congruence | by apply (s_free _ _ S j)].
    - intros j k z m m' [(-> & -> & ->) | [Nj Ej]]%Look [(-> & ? & ?) | [Nk Ek]]%Look Nz; try congruence.
      + by destruct (Only k m' Nk).
      + subst z. by destruct (Only j m Nj).
      + by apply (s_once _ _ S j k z m m').
    - intros z Nz. destruct (Z.eqb_spec z h) as [-> |]; [lia | by apply (s_count _ _ S)].
    - intros z Nz Hz. destruct (Z.eqb_spec z h) as [-> | Nzh].
      + exists i, (c h + 1). rewrite list_lookup_insert. by rewrite decide_True.
      + destruct (s_there _ _ S z Nz Hz) as (j & m & Ej). exists j, m. rewrite list_lookup_insert_ne; [done |].
        intros ->. rewrite Ei in Ej. injection Ej as <- _. destruct Hy as [? | [? _]]; congruence. }
  destruct (find_slot maxmodules h l (-1)) as [j e] eqn:Ef.
  destruct (find_slot_spec h l maxmodules (-1) Nh ltac:(lia)) as [(i & x & Hi & Ei & E) | (No & E & E2)]; rewrite Ef in E; simpl in E.
  - exists i, (h, x). split; [rewrite E; by destruct (Z.ltb_spec (Z.of_nat i) 0); [lia |] |]. split; [done |]. apply Take; [done | by left].
  - subst j. assert (c h = 0) as Hz.
    { destruct (Z.eq_dec (c h) 0) as [| Nz]; [done | exfalso]. destruct (s_there _ _ S h Nh ltac:(lia)) as (i & n & Ei).
      apply (No i n); [| done]. pose proof (lookup_lt_Some _ _ _ Ei). lia. }
    rewrite Ef in E2. simpl in E2. destruct E2 as [(i & x & Hi & Ei & E) | (N0 & E)].
    + exists i, (0, x). split; [exact E |]. split; [done |]. apply Take; [done | by right].
    + exfalso. destruct Hs as [? | (i & n & Ei)]; [lia |]. apply (N0 i n); [| done]. pose proof (lookup_lt_Some _ _ _ Ei). lia.
Qed.

(** What releasing does to the slots: the last one is given up. *)
Lemma release_no_slot h l : (forall i n, l !! i <> Some (h, n)) -> release_slot h l = (false, l).
Proof.
  induction l as [| [x n] l IH]; intros No; [done |]. cbn [release_slot]. destruct (Z.eqb_spec x h) as [-> |].
  - by destruct (No 0%nat n).
  - rewrite IH; [done |]. intros i m. apply (No (S i) m).
Qed.

Lemma release_at h l : forall i n, l !! i = Some (h, n) -> (forall j m, (j < i)%nat -> l !! j <> Some (h, m)) ->
  release_slot h l = (n >? 1, <[i := (if n >? 1 then h else 0, s32 (n - 1))]> l).
Proof.
  induction l as [| [x k] l IH]; intros i n Ei No; [done |]. cbn [release_slot]. destruct i as [| i].
  - injection Ei as -> ->. rewrite Z.eqb_refl. by destruct (n >? 1).
  - destruct (Z.eqb_spec x h) as [-> |]; [by destruct (No 0%nat k); [lia |] |].
    rewrite (IH i n Ei); [done |]. intros j m Hj. apply (No (S j) m). lia.
Qed.

Lemma release_slots l c h : slots l c -> h <> 0 ->
  exists l', release_slot h l = (c h >? 1, l') /\ slots l' (with_count c h (Z.max 0 (c h - 1))).
Proof.
  intros S Nh. pose proof (s_count _ _ S h Nh) as Hch. unfold with_count. destruct (Z.leb_spec (c h) 0) as [Hz | Hp].
  - assert (c h = 0) as E0 by lia. exists l. rewrite E0. split.
    + rewrite release_no_slot; [done |]. intros i n Ei. destruct (s_used _ _ S i h n Ei Nh). lia.
    + split; try apply S.
      * intros i z n Ei Nz. destruct (Z.eqb_spec z h) as [-> |]; [destruct (s_used _ _ S i h n Ei Nz); lia | by apply (s_used _ _ S i)].
      * intros z Nz. destruct (Z.eqb_spec z h); [lia | by apply (s_count _ _ S)].
      * intros z Nz. destruct (Z.eqb_spec z h); [lia | by apply (s_there _ _ S)].
  - destruct (s_there _ _ S h Nh Hp) as (i & n & Ei). destruct (s_used _ _ S i h n Ei Nh) as [-> _].
    assert (s32 (c h - 1) = c h - 1) as Hs by (unfold s32; rewrite Z.mod_small; lia).
    eexists. split.
    { apply (release_at h l i (c h) Ei). intros j m Hj Ej. pose proof (s_once _ _ S j i h m (c h) Ej Ei Nh). lia. }
    rewrite Hs. set (x := if c h >? 1 then h else 0).
    assert (forall j z m, <[i := (x, c h - 1)]> l !! j = Some (z, m) -> j = i /\ z = x /\ m = c h - 1 \/ j <> i /\ l !! j = Some (z, m)) as Look.
    { intros j z m. rewrite list_lookup_insert. case_decide as Hd; [destruct Hd as [-> _] | intros E; right; split; [intros ->; apply Hd; split; [done | by apply lookup_lt_Some in Ei] | done]].
      intros [= <- <-]. by left. }
    assert (forall j m, j <> i -> l !! j <> Some (h, m)) as Only.
    { intros j m Nj Ej. by destruct Nj; apply (s_once _ _ S j i h m (c h)). }
    assert (x <> 0 -> x = h /\ 1 < c h) as Hx by (unfold x; destruct (Z.gtb_spec (c h) 1); [intros _; lia | done]).
    split.
    + rewrite length_insert. apply S.
    + intros j z m [(-> & -> & ->) | [Nj Ej]]%Look Nz.
      * destruct (Hx Nz) as [-> H1]. rewrite Z.eqb_refl. lia.
      * destruct (Z.eqb_spec z h) as [-> |]; [by destruct (Only j m Nj) | by apply (s_used _ _ S j)].
    + intros j m [(-> & Hx0 & ->) | [Nj Ej]]%Look; [| by apply (s_free _ _ S j)].
      unfold x in Hx0. destruct (Z.gtb_spec (c h) 1); [congruence | lia].
    + intros j k z m m' [(-> & -> & ->) | [Nj Ej]]%Look [(-> & ? & ?) | [Nk Ek]]%Look Nz; try done.
      * destruct (Hx Nz) as [E _]. rewrite E in Ek. by destruct (Only k m' Nk).
      * subst z. destruct (Hx Nz) as [E _]. rewrite E in Ej. by destruct (Only j m Nj).
      * by apply (s_once _ _ S j k z m m').
    + intros z Nz. destruct (Z.eqb_spec z h) as [-> |]; [lia | by apply (s_count _ _ S)].
    + intros z Nz Hz. destruct (Z.eqb_spec z h) as [-> | Nzh].
      * exists i, (c h - 1). rewrite list_lookup_insert_eq by by eapply lookup_lt_Some. unfold x. by destruct (Z.gtb_spec (c h) 1); [| lia].
      * destruct (s_there _ _ S z Nz Hz) as (j & m & Ej). exists j, m. rewrite list_lookup_insert_ne; [done |]. intros ->. congruence.
Qed.

Lemma referenced_spec l c : slots l c -> referenced l = true <-> exists h, h <> 0 /\ 0 < c h.
Proof.
  intros S. unfold referenced. rewrite existsb_exists. split.
  - intros ([h n] & Hin & Hh). apply list_elem_of_In, list_elem_of_lookup in Hin as [i Ei]. simpl in Hh.
    apply andb_prop in Hh as [Nh Nn]. apply negb_true_iff, Z.eqb_neq in Nh, Nn. exists h. split; [done |].
    by destruct (s_used _ _ S i h n Ei Nh) as [<- ?].
  - intros (h & Nh & Hc). destruct (s_there _ _ S h Nh Hc) as (i & n & Ei). exists (h, n).
    split; [by apply list_elem_of_In, (list_elem_of_lookup_2 l i) |]. simpl. destruct (s_used _ _ S i h n Ei Nh) as [_ Hn].
    apply Z.eqb_neq in Nh. rewrite Nh. simpl. apply negb_true_iff, Z.eqb_neq. lia.
Qed.

Section images.
Context `{LOADER} `{Detours.DETOURS} `{!DetoursInv.DETOURS_Laws}.

(** ** What only looks at memory *)

Definition looks {A} (m : I A) : Prop := forall s s' : istate, memory s' = memory s ->
  match m s with Ok (a, t) => t = s /\ m s' = Ok (a, s') | Err f => m s' = Err f end.

Lemma looks_bind {A B} (m : I A) (k : A -> I B) : looks m -> (forall a, looks (k a)) -> looks (m ≫= k).
Proof.
  intros Lm Lk s s' E. unfold mbind, M_bind. specialize (Lm s s' E). destruct (m s) as [[a t] | f]; [| by rewrite Lm].
  destruct Lm as [-> ->]. by apply Lk.
Qed.

Lemma looks_ret {A} (a : A) : looks (mret a : I A).
Proof. done. Qed.

Lemma looks_lift {A} (r : result A) : looks (lift r : I A).
Proof. intros s s' E. unfold lift. by destruct r. Qed.

Lemma looks_number n a : looks (number n a).
Proof.
  intros s s' E. unfold number. rewrite (bind_run _ _ s (memory s) s eq_refl), (bind_run _ _ s' (memory s') s' eq_refl), E.
  unfold lift, mbind, M_bind. by destruct (load n a (memory s)).
Qed.

Lemma looks_text name : forall p, looks (same_text_at name p).
Proof.
  induction name as [| c name IH]; intros p; [apply looks_ret |]. cbn [same_text_at]. apply looks_bind; [apply looks_number |].
  intros x. destruct (lower x =? lower c); [apply IH | apply looks_ret].
Qed.

Lemma looks_dll fuel : forall h desc name, looks (find_dll fuel h desc name).
Proof.
  induction fuel as [| fuel IH]; intros h desc name; [by intros s s' E |]. cbn [find_dll].
  apply looks_bind; [apply looks_number |]. intros rva. destruct (rva =? 0); [apply looks_ret |].
  apply looks_bind; [apply looks_text |]. intros b. apply looks_bind; [destruct b; [apply looks_text | apply looks_ret] |].
  intros []; [apply looks_ret | apply IH].
Qed.

Lemma looks_header h : looks (nt_header h).
Proof. unfold nt_header. apply looks_bind; [apply looks_number | intros n; apply looks_ret]. Qed.

Lemma looks_DLLName h name : looks (DdkFindDLLName h name).
Proof.
  unfold DdkFindDLLName. apply looks_bind; [apply looks_header |]. intros hdr. apply looks_bind; [apply looks_number |]. intros va.
  apply looks_bind; [apply looks_number |]. intros n. destruct (n =? 0); [apply looks_ret |].
  intros s s' E. rewrite (bind_run _ _ s (memory s) s eq_refl), (bind_run _ _ s' (memory s') s' eq_refl), E. by apply looks_dll.
Qed.

Lemma looks_at {A} (m : I A) s s' a : looks m -> m s = Ok (a, s) -> memory s' = memory s -> m s' = Ok (a, s').
Proof. intros L E Em. specialize (L s s' Em). rewrite E in L. by destruct L. Qed.

(** ** The list of descriptors ends *)

Lemma number_ends n a (s : istate) : number n a s <> Err NoFuel.
Proof.
  assert (forall n a m, load n a m <> Err NoFuel) as Hl.
  { clear. induction n as [| n IH]; intros a m; [done |]. cbn [load]. destruct (m !! a); [| done]. specialize (IH (a + 1) m).
    by destruct (load n (a + 1) m); [| intros [= ->]]. }
  unfold number. rewrite (bind_run _ _ s (memory s) s eq_refl). specialize (Hl n a (memory s)). unfold lift, mbind, M_bind.
  by destruct (load n a (memory s)); [| intros [= ->]].
Qed.

Lemma bind_ends {A B} (m : I A) (k : A -> I B) s : looks m -> m s <> Err NoFuel -> (forall a, m s = Ok (a, s) -> k a s <> Err NoFuel) ->
  (m ≫= k) s <> Err NoFuel.
Proof.
  intros L Hm Hk. unfold mbind, M_bind. specialize (L s s eq_refl). destruct (m s) as [[a t] | f]; [| by intros [= ->]].
  destruct L as [-> _]. by apply Hk.
Qed.

Lemma text_ends name : forall p s, same_text_at name p s <> Err NoFuel.
Proof.
  induction name as [| c name IH]; intros p s; [done |]. cbn [same_text_at]. apply bind_ends; [apply looks_number | apply number_ends |].
  intros x _. by destruct (lower x =? lower c).
Qed.

(** The bytes from [a] on. *)
Definition after (a : Z) (m : mem) : mem := filter (fun e => a <= e.1) m.

Lemma find_dll_ends fuel : forall h desc name (s : istate), (base.size (after desc (memory s)) < fuel)%nat ->
  find_dll fuel h desc name s <> Err NoFuel.
Proof.
  induction fuel as [| fuel IH]; intros h desc name s Hf; [lia |]. cbn [find_dll].
  apply bind_ends; [apply looks_number | apply number_ends |]. intros rva Er. destruct (rva =? 0); [done |].
  apply bind_ends; [apply looks_text | apply text_ends |]. intros b _.
  apply bind_ends; [destruct b; [apply looks_text | apply looks_ret] | destruct b; [apply text_ends | done] |].
  intros e _. destruct e; [done |]. apply IH. eapply Nat.lt_le_trans; [| apply Nat.lt_succ_r, Hf].
  assert (is_Some (memory s !! (desc + 4))) as [x Ex].
  { unfold number in Er. rewrite (bind_run _ _ s (memory s) s eq_refl) in Er. unfold lift, mbind, M_bind in Er. cbn [load] in Er.
    by destruct (memory s !! (desc + 4)); [eexists |]. }
  rewrite <- !size_dom. apply subset_size. split.
  - intros y (z & Hz)%elem_of_dom. apply map_lookup_filter_Some in Hz as [Ey Hy]. simpl in Hy. apply elem_of_dom. exists z.
    apply map_lookup_filter_Some. split; [done | simpl; lia].
  - intros Sub. assert (desc + 4 ∈ dom (after desc (memory s))) as Hin.
    { apply elem_of_dom. exists x. apply map_lookup_filter_Some. split; [done | simpl; lia]. }
    apply Sub, elem_of_dom in Hin as [z Hz]. apply map_lookup_filter_Some in Hz as [_ Hz]. simpl in Hz. lia.
Qed.

(** The look-up of a name in a module comes to an end. *)
Lemma DdkFindDLLName_ends h name s : DdkFindDLLName h name s <> Err NoFuel.
Proof.
  unfold DdkFindDLLName. apply bind_ends; [apply looks_header | |].
  { unfold nt_header. apply bind_ends; [apply looks_number | apply number_ends | done]. }
  intros hdr _. apply bind_ends; [apply looks_number | apply number_ends |]. intros va _.
  apply bind_ends; [apply looks_number | apply number_ends |]. intros n _. destruct (n =? 0); [done |].
  rewrite (bind_run _ _ s (memory s) s eq_refl). apply find_dll_ends. rewrite <- !size_dom.
  apply Nat.lt_succ_r, subseteq_size. intros y (z & Hz)%elem_of_dom. apply map_lookup_filter_Some in Hz as [Ey _]. by apply elem_of_dom; exists z.
Qed.

(** ** Loading and unloading through an image *)

Lemma find_changed p f l m : find_image p l = Some m ->
  find_image p (map (fun e : Z * IMAGE => if e.1 =? p then (e.1, f e.2) else e) l) = Some (f m).
Proof.
  unfold find_image. induction l as [| [q x] l IH]; intros E; [done |]. cbn [map list_find fst snd] in *.
  destruct (decide (q = p)) as [-> | N].
  - rewrite Z.eqb_refl. cbn [fst snd]. rewrite decide_True by done. by injection E as ->.
  - apply Z.eqb_neq in N as Nb. rewrite Nb. cbn [fst snd]. rewrite decide_False by done.
    destruct (list_find _ l) as [[i e] |]; [| done]. simpl in E. specialize (IH E). by destruct (list_find _ (map _ l)) as [[j e'] |].
Qed.

Lemma image_run p (s : istate) m : find_image p (DdkImageList s) = Some m -> image_at p s = Ok (m, s).
Proof. intros E. unfold image_at. by rewrite E. Qed.

Definition updated (p : Z) (l : list (Z * Z)) (s : istate) : istate :=
  set_images (map (fun e => if e.1 =? p then (e.1, set_delay l e.2) else e)) s.

Definition hooked (f d : Z) (s : istate) : istate :=
  if d =? 0 then s else set_both (delay_hook f d (memory s, outside s)) s.

Lemma hook_run f d (s : istate) : (if d =? 0 then mret tt else call_memory (fun mw => (tt, delay_hook f d mw))) s = Ok (tt, hooked f d s).
Proof. unfold hooked. by destruct (d =? 0). Qed.

Section image.
Context (s : istate) (p : Z) (m : IMAGE) (c : Z -> Z).
Context (Hp : find_image p (DdkImageList s) = Some m) (Hs : slots (DelayLoad m) c) (Np : p <> 0).

(** A module that loads through an image is counted once more. *)
Theorem DdkDelayLoad_spec f h d (Nf : f <> 0) (Eh : DdkFindModule f s = Ok (h, s)) (Nh : h <> 0) (Hc : c h < 2 ^ 31 - 1)
  (Room : 0 < c h \/ exists i n, DelayLoad m !! i = Some (0, n)) (Ed : DdkFindDLLName h (ImageName m) s = Ok (d, s)) :
  exists l, DdkDelayLoad p f s = Ok (tt, hooked f d (updated p l s)) /\ slots l (with_count c h (c h + 1)).
Proof.
  unfold DdkDelayLoad. apply Z.eqb_neq in Np as ->. apply Z.eqb_neq in Nf as ->. cbn [orb].
  rewrite (bind_run _ _ _ _ _ (image_run p s m Hp)), (bind_run _ _ _ _ _ Eh). apply Z.eqb_neq in Nh as Nhb. rewrite Nhb.
  destruct (load_slot _ _ h Hs Nh Hc Room) as (i & x & L). destruct (find_slot maxmodules h (DelayLoad m) (-1)) as [j e].
  destruct L as (Ej & Ex & Sl). rewrite Ej. pose proof (lookup_lt_Some _ _ _ Ex) as Hi.
  destruct (Z.ltb_spec (Z.of_nat i) 0); [lia |]. eexists. split; [| exact Sl].
  rewrite (bind_run _ _ s x s).
  2: { unfold lift, array_get. rewrite Nat2Z.id, Ex. destruct (Z.leb_spec 0 (Z.of_nat i)); [| lia].
       by destruct (Z.ltb_spec (Z.of_nat i) (Z.of_nat (length (DelayLoad m)))); [| lia]. }
  set (l := <[i := (h, s32 (x.2 + 1))]> (DelayLoad m)). rewrite (bind_run _ _ s l s).
  2: { unfold lift, array_set. rewrite Nat2Z.id. destruct (Z.leb_spec 0 (Z.of_nat i)); [| lia].
       by destruct (Z.ltb_spec (Z.of_nat i) (Z.of_nat (length (DelayLoad m)))); [| lia]. }
  rewrite (bind_run _ _ s tt (updated p l s)) by done.
  rewrite (bind_run _ _ _ d (updated p l s)) by (by apply (looks_at _ s); [apply looks_DLLName | |]).
  apply hook_run.
Qed.

(** The header of the image. *)
Context (base n : Z) (Hb : ImageBase (Header m) s = Ok (base, s)) (Hn : SizeOfImage (Header m) s = Ok (n, s)).
Context (A : Z -> list DetoursSpec.hook) (Hr : DetoursSpec.rep (hooks s) A).

Lemma looks_base hdr : looks (ImageBase hdr).
Proof. apply looks_number. Qed.

Lemma looks_size hdr : looks (SizeOfImage hdr).
Proof. apply looks_number. Qed.

(** Where there is nothing to detach the header of the module is not read. *)
Lemma detach_image_run (t : istate) h y hb hn : memory t = memory s -> hooks t = hooks s ->
  (match h with Some h => nt_header h s = Ok (y, s) /\ ImageBase y s = Ok (hb, s) /\ SizeOfImage y s = Ok (hn, s) | None => True end) ->
  exists st d, detach_range (Header m) h t = Ok (st, set_hooks d t) /\
    Detours.DdkDetachAddressRange base n (match h with Some _ => Some (hb, hn) | None => None end) (hooks t) = Ok (st, d) /\
    DetoursSpec.rep d (fun f => filter (fun e => DetoursSpec.in_range base n f &&
      DetoursSpec.in_module (match h with Some _ => Some (hb, hn) | None => None end) e = false) (A f)).
Proof.
  intros Em Eh Hy. set (md := match h with Some _ => Some (hb, hn) | None => None end).
  rewrite <- Eh in Hr. destruct (DetoursSpec.DdkDetachAddressRange_spec (hooks t) A base n md Hr) as (st & d & E & Rd & _).
  exists st, d. split; [| done]. unfold detach_range.
  rewrite (bind_run _ _ t base t) by (by apply (looks_at _ s); [apply looks_base | |]).
  rewrite (bind_run _ _ t n t) by (by apply (looks_at _ s); [apply looks_size | |]).
  rewrite (bind_run _ _ t (hooks t) t eq_refl).
  assert (on_detours (Detours.DdkDetachAddressRange base n md) t = Ok (st, set_hooks d t)) as Eo by (unfold on_detours; by rewrite E).
  destruct ((Detours.regionlist (hooks t) =? 0) || (n =? 0)) eqn:Ez.
  - rewrite <- Eo. unfold on_detours, Detours.DdkDetachAddressRange. rewrite (bind_run _ _ (hooks t) (hooks t) (hooks t) eq_refl), Ez.
    by destruct t.
  - rewrite (bind_run _ _ t md t); [done |]. unfold md. destruct h as [h |]; [| done]. destruct Hy as (E1 & E2 & E3).
    rewrite (bind_run _ _ t y t) by (by apply (looks_at _ s); [apply looks_header | |]).
    rewrite (bind_run _ _ t hb t) by (by apply (looks_at _ s); [apply looks_base | |]).
    by rewrite (bind_run _ _ t hn t) by (by apply (looks_at _ s); [apply looks_size | |]).
Qed.

(** A module that unloads through an image is counted once less.  While it is still
    counted nothing else happens; with the last time, all intercepts that it has put on
    the functions of the image are taken off, and no others, before the system unloads
    its delayed import, even when the library of detours cannot say that it succeeded. *)
Theorem DdkDelayUnload_spec f h d y hb hn (Nf : f <> 0) (Eh : DdkFindModule f s = Ok (h, s)) (Nh : h <> 0)
  (Ed : DdkFindDLLName h (ImageName m) s = Ok (d, s))
  (Hy : nt_header h s = Ok (y, s)) (Hhb : ImageBase y s = Ok (hb, s)) (Hhn : SizeOfImage y s = Ok (hn, s)) :
  exists l, slots l (with_count c h (Z.max 0 (c h - 1))) /\
    if c h >? 1 then DdkDelayUnload p f s = Ok (tt, updated p l s)
    else exists st t, DetoursSpec.rep t (fun g => filter (fun e => DetoursSpec.in_range base n g &&
        DetoursSpec.in_module (Some (hb, hn)) e = false) (A g)) /\
      DdkDelayUnload p f s = if NT_SUCCESS st then Ok (tt, hooked f d (set_hooks t (updated p l s)))
                             else Err (DdkFailed "Unable to detach detours for module").
Proof.
  destruct (release_slots _ _ h Hs Nh) as (l & El & Sl). exists l. split; [exact Sl |].
  unfold DdkDelayUnload. apply Z.eqb_neq in Np as ->. apply Z.eqb_neq in Nf as ->. cbn [orb].
  rewrite (bind_run _ _ _ _ _ (image_run p s m Hp)), (bind_run _ _ _ _ _ Eh). apply Z.eqb_neq in Nh as Nhb. rewrite Nhb, El.
  rewrite (bind_run _ _ s tt (updated p l s)) by done. destruct (c h >? 1); [done |].
  destruct (detach_image_run (updated p l s) (Some h) y hb hn) as (st & t & E & _ & Rt); try done.
  exists st, t. split; [exact Rt |]. rewrite (bind_run _ _ _ _ _ E). destruct (NT_SUCCESS st); cbn [negb]; [| done].
  rewrite (bind_run _ _ _ d (set_hooks t (updated p l s))) by (by apply (looks_at _ s); [apply looks_DLLName | |]).
  apply hook_run.
Qed.

Lemma unlink_filter l : NoDup l.*1 -> unlink p l = filter (fun e : Z * IMAGE => e.1 <> p) l.
Proof.
  induction l as [| [q x] l IH]; intros N; [done |]. apply NoDup_cons in N as [Nq N]. cbn [unlink fst]. rewrite filter_cons. cbn [fst].
  destruct (Z.eqb_spec q p) as [-> | Nqp]; [| by rewrite decide_True, IH].
  rewrite decide_False by tauto. symmetry. clear -Nq. induction l as [| [q y] l IH]; [done |]. rewrite filter_cons. cbn [fmap list_fmap fst] in *.
  apply not_elem_of_cons in Nq as [Nq Nl]. rewrite decide_True by done. by rewrite IH.
Qed.

(** C21. An image that a module still counts on cannot be unloaded.  If there is none, every
    intercept on the functions of the image is taken off, by the call of detours.cpp for the
    addresses of the image.  If that call returns a failure, so does the unloading; if it
    succeeds the system is asked to unload the image, and if it does the image, and no
    other, leaves the list; if it is held by something else its data are restored instead. *)
Theorem DdkUnloadImage_spec (Nd : NoDup (DdkImageList s).*1) :
  ((exists h, h <> 0 /\ 0 < c h) -> DdkUnloadImage p s = Err (DdkFailed "Driver still referenced")) /\
  ((forall h, h <> 0 -> c h = 0) -> exists st t, Detours.DdkDetachAddressRange base n None (hooks s) = Ok (st, t) /\
    DetoursSpec.rep t (fun g => filter (fun e => DetoursSpec.in_range base n g = false) (A g)) /\
    DdkUnloadImage p s =
      if NT_SUCCESS st then
        let '(memory', system') := FreeLibrary (module m) (memory s, outside s) in
        match GetModuleHandleEx (module m) system' with
        | (true, system') => DdkRestoreImageData m (mkI (DdkImageList s) memory' system' t)
        | (false, system') => Ok (tt, mkI (filter (fun e => e.1 <> p) (DdkImageList s)) memory' system' t)
        end
      else Err (DdkFailed "Unable to detach detours from image")).
Proof.
  unfold DdkUnloadImage. rewrite (bind_run _ _ _ _ _ (image_run p s m Hp)). pose proof (referenced_spec _ _ Hs) as R. split.
  - intros Hh. apply R in Hh. by rewrite Hh.
  - intros Hz. destruct (referenced (DelayLoad m)) eqn:Er.
    { destruct (proj1 R eq_refl) as (h & Nh & Hh). specialize (Hz h Nh). lia. }
    destruct (detach_image_run s None 0 0 0 eq_refl eq_refl Logic.I) as (st & t & E & Ed & Rt). exists st, t. split; [exact Ed |]. split.
    { eapply DetoursSpec.rep_ext; [| exact Rt]. intros g _. simpl. apply list_filter_iff. intros e. by rewrite andb_true_r. }
    rewrite (bind_run _ _ _ _ _ E). destruct (NT_SUCCESS st); cbn [negb]; [| done].
    destruct (FreeLibrary (module m) (memory s, outside s)) as [m1 w1] eqn:Ef.
    rewrite (bind_run _ _ _ tt (mkI (DdkImageList s) m1 w1 t)) by (unfold call_memory; simpl; by rewrite Ef).
    destruct (GetModuleHandleEx (module m) w1) as [b w2] eqn:Eg.
    rewrite (bind_run _ _ _ b (mkI (DdkImageList s) m1 w2 t)) by (unfold call; simpl; by rewrite Eg).
    destruct b; [done |]. unfold modify, set_images. simpl. by rewrite unlink_filter.
Qed.

End image.

End images.
