(* ===== verification/ImageHold.v ===== *)
(** * ImageHold: the files that are opened, and the modules that images hold *)

From S2P Require Import Prelude Memory LocalPath Image.
From S2P Require Detours.

Create HintDb quiet.

(** [loads] is how often the callers of the system have a module loaded. *)
Class LOADER_Laws `{LOADER} : Prop := {
  create_law path write s h s' : CreateFileA path write s = (h, s') -> loads s' = loads s /\
    (h = INVALID_HANDLE_VALUE /\ open_files s' = open_files s \/
     h <> INVALID_HANDLE_VALUE /\ h ∉ open_files s /\ open_files s' = {[h]} ∪ open_files s);
  read_law h n s : open_files (ReadFile h n s).2 = open_files s /\ loads (ReadFile h n s).2 = loads s;
  write_law h bs s : open_files (WriteFile h bs s).2 = open_files s /\ loads (WriteFile h bs s).2 = loads s;
  close_law h s : open_files (CloseFile h s) = open_files s ∖ {[h]} /\ loads (CloseFile h s) = loads s;
  directory_law path s : open_files (CreateDirectoryA path s) = open_files s /\ loads (CreateDirectoryA path s) = loads s;
  load_law path m s h mw : LoadLibrary path (m, s) = (h, mw) -> open_files mw.2 = open_files s /\
    forall x, loads mw.2 x = loads s x + (if decide (x = h /\ h <> 0) then 1 else 0);
  free_law h m s : 0 < loads s h -> let w := (FreeLibrary h (m, s)).2 in
    open_files w = open_files s /\ forall x, loads w x = loads s x - (if decide (x = h) then 1 else 0);
  handle_law h s b s' : GetModuleHandleEx h s = (b, s') -> open_files s' = open_files s /\ (b = false -> loads s h = 0) /\
    forall x, loads s' x = loads s x + (if decide (x = h /\ b = true) then 1 else 0)
}.

Section hold.
Context `{LOADER} `{Detours.DETOURS} `{!LOADER_Laws}.

(** How many images hold the module [h]. *)
Definition held (s : istate) (h : Z) : Z := Z.of_nat (length (filter (fun e : Z * IMAGE => module e.2 = h) (DdkImageList s))).

(** What others hold of it. *)
Definition others (s : istate) (h : Z) : Z := loads (outside s) h - held s h.

(** The same images, files and modules. *)
Definition keeps (s s' : istate) : Prop :=
  DdkImageList s' = DdkImageList s /\ open_files (outside s') = open_files (outside s) /\ loads (outside s') = loads (outside s).

Lemma keeps_refl s : keeps s s.
Proof. done. Qed.

Lemma keeps_trans s s1 s2 : keeps s s1 -> keeps s1 s2 -> keeps s s2.
Proof. intros (A & B & C) (D & E & F). split_and!; congruence. Qed.

Definition quiet {A} (m : I A) : Prop := forall s a s', m s = Ok (a, s') -> keeps s s'.

Lemma bind_inv {A B} (m : I A) (k : A -> I B) s b s' : (m ≫= k) s = Ok (b, s') -> exists a s1, m s = Ok (a, s1) /\ k a s1 = Ok (b, s').
Proof. unfold mbind, M_bind. destruct (m s) as [[a s1] |]; [| done]. intros E. by exists a, s1. Qed.

Lemma quiet_bind {A B} (m : I A) (k : A -> I B) : quiet m -> (forall a, quiet (k a)) -> quiet (m ≫= k).
Proof.
  intros Qm Qk s b s' (a & s1 & E1 & E2)%bind_inv. eapply keeps_trans; [by eapply Qm | by eapply Qk].
Qed.

Lemma quiet_ret {A} (a : A) : quiet (mret a : I A).
Proof. by intros s x s' [= <- <-]. Qed.

Lemma quiet_fail {A} f : quiet (fail f : I A).
Proof. by intros s x s'. Qed.

Lemma quiet_lift {A} (r : result A) : quiet (lift r : I A).
Proof. intros s x s'. unfold lift. destruct r; [by intros [= <- <-] | done]. Qed.

Lemma quiet_iget {A} (f : istate -> A) : quiet (iget f).
Proof. by intros s x s' [= <- <-]. Qed.

Lemma quiet_memory m : quiet (modify (set_memory m)).
Proof. by intros s x s' [= <- <-]. Qed.

Lemma quiet_if {A} (b : bool) (m m' : I A) : quiet m -> quiet m' -> quiet (if b then m else m').
Proof. by destruct b. Qed.

#[local] Hint Resolve quiet_bind quiet_ret quiet_fail quiet_lift quiet_iget quiet_memory quiet_if : quiet.

Lemma quiet_number n a : quiet (number n a).
Proof. unfold number. eauto with quiet. Qed.

#[local] Hint Resolve quiet_number : quiet.

Lemma quiet_section a : quiet (section_at a).
Proof. unfold section_at. eauto 10 with quiet. Qed.

#[local] Hint Resolve quiet_section : quiet.

Lemma quiet_sum n : forall a len, quiet (sum_data n a len).
Proof. induction n as [| n IH]; intros a len; cbn [sum_data]; eauto with quiet. Qed.

Lemma quiet_out n : forall a h cp data, quiet (copy_out n a h cp data).
Proof. induction n as [| n IH]; intros a h cp data; cbn [copy_out]; eauto 10 with quiet. Qed.

Lemma quiet_in n : forall a h cp data, quiet (copy_in n a h cp data).
Proof. induction n as [| n IH]; intros a h cp data; cbn [copy_in]; eauto 10 with quiet. Qed.

#[local] Hint Resolve quiet_sum quiet_out quiet_in : quiet.

Lemma quiet_header h : quiet (nt_header h).
Proof. unfold nt_header. eauto with quiet. Qed.

Lemma quiet_save malloc h hdr : quiet (DdkSaveImageData malloc h hdr).
Proof.
  unfold DdkSaveImageData, first_section, NumberOfSections. repeat (apply quiet_bind; [eauto with quiet | intros ?]).
  apply quiet_if; [eauto with quiet |]. destruct (malloc _); eauto with quiet.
Qed.

Lemma quiet_restore p : quiet (DdkRestoreImageData p).
Proof.
  unfold DdkRestoreImageData, first_section, NumberOfSections. apply quiet_bind; [eauto with quiet |]. intros a.
  destruct (Data p); eauto with quiet.
Qed.

Lemma quiet_detach hdr : quiet (detach_range hdr None).
Proof.
  unfold detach_range, ImageBase, SizeOfImage. repeat (apply quiet_bind; [eauto with quiet | intros ?]).
  apply quiet_if; [eauto with quiet |]. apply quiet_bind; [eauto with quiet |]. intros m s x s' E. unfold on_detours in E.
  destruct (Detours.DdkDetachAddressRange _ _ m (hooks s)) as [[y d] |]; [| done]. by injection E as <- <-.
Qed.

Lemma quiet_directory path : quiet (CreateDirectory path).
Proof. intros s x s' [= <- <-]. split; [done |]. apply directory_law. Qed.

Lemma quiet_directories fuel : forall create i n b, quiet (directories CreateDirectory fuel create i n b).
Proof.
  induction fuel as [| fuel IH]; intros create i n b; cbn [directories]; apply quiet_if; eauto with quiet.
  apply quiet_bind; [eauto with quiet |]. intros k. apply quiet_if; [eauto with quiet |].
  apply quiet_bind; [eauto with quiet |]. intros p. apply quiet_bind; [apply quiet_directory | intros _; apply IH].
Qed.

Lemma quiet_path T n p f x : quiet (DdkGetLocalPathA CreateDirectory T n p f x).
Proof. unfold DdkGetLocalPathA. destruct (snprintf _ _). apply quiet_directories. Qed.

(** ** Files are closed again *)

Lemma closed_again (s : istate) h w m : h ∉ open_files (outside s) -> open_files w = {[h]} ∪ open_files (outside s) -> loads w = loads (outside s) ->
  keeps s (mkI (DdkImageList s) m (CloseFile h w) (hooks s)).
Proof.
  intros Nh Eo El. destruct (close_law h w) as [Co Cl]. split; [done |]. simpl. rewrite Co, Cl, Eo, El. split; [set_solver | done].
Qed.

Lemma quiet_read malloc path : quiet (DdkReadImage malloc path).
Proof.
  intros s r s' E. unfold DdkReadImage in E. apply bind_inv in E as (h & s1 & E1 & E). unfold call in E1.
  destruct (CreateFileA path false (outside s)) as [h' w] eqn:Ec. injection E1 as <- <-.
  destruct (create_law _ _ _ _ _ Ec) as [El [[-> Eo] | (Nh & Nin & Eo)]].
  { rewrite Z.eqb_refl in E. injection E as <- <-. by split. }
  apply Z.eqb_neq in Nh. rewrite Nh in E. assert (forall r', (_ ← call (fun w => (tt, CloseFile h' w)); mret r') (set_system w s) = Ok (r, s') -> keeps s s') as Close.
  { intros r' Er. injection Er as <- <-. exact (closed_again s h' w (memory s) Nin Eo El). }
  cbv zeta in E. apply bind_inv in E as (w' & s1 & E1 & E). injection E1 as <- <-.
  change (outside (set_system w s)) with w in E. destruct (GetFileInformationByHandle h' w) as [[low high] |]; [| by eapply Close].
  destruct (negb (high =? 0)); [by eapply Close |]. destruct (negb (malloc low)); [by eapply Close |].
  apply bind_inv in E as (r1 & s2 & E2 & E). unfold call in E2. change (outside (set_system w s)) with w in E2.
  destruct (read_law h' low w) as [Ro Rl]. destruct (ReadFile h' low w) as [r2 w2]. injection E2 as <- <-. simpl in Ro, Rl.
  assert (forall r', (_ ← call (fun w => (tt, CloseFile h' w)); mret r') (set_system w2 (set_system w s)) = Ok (r, s') -> keeps s s') as Close2.
  { intros r' Er. injection Er as <- <-. apply (closed_again s h' w2 (memory s)); [done | by rewrite Ro | by rewrite Rl]. }
  destruct r2 as [bs |]; [| by eapply Close2]. destruct (_ =? low); by eapply Close2.
Qed.

Lemma quiet_write b path : quiet (DdkWriteImage b path).
Proof.
  intros s r s' E. unfold DdkWriteImage in E. apply bind_inv in E as (h & s1 & E1 & E). unfold call in E1.
  destruct (CreateFileA path true (outside s)) as [h' w] eqn:Ec. injection E1 as <- <-.
  destruct (create_law _ _ _ _ _ Ec) as [El [[-> Eo] | (Nh & Nin & Eo)]].
  { rewrite Z.eqb_refl in E. injection E as <- <-. by split. }
  apply Z.eqb_neq in Nh. rewrite Nh in E. apply bind_inv in E as (r1 & s2 & E2 & E). unfold call in E2. change (outside (set_system w s)) with w in E2.
  destruct (write_law h' b w) as [Ro Rl]. destruct (WriteFile h' b w) as [r2 w2]. injection E2 as <- <-. simpl in Ro, Rl.
  injection E as <- <-. apply (closed_again s h' w2 (memory s)); [done | by rewrite Ro | by rewrite Rl].
Qed.

(** ** Each image holds its module once *)

Lemma load_image_holds T f path name s p s' : DdkLoadImage T f path name s = Ok (p, s') ->
  open_files (outside s') = open_files (outside s) /\ forall h, others s' h = others s h.
Proof.
  unfold DdkLoadImage. intros E. apply bind_inv in E as (l & s1 & E1 & E). injection E1 as <- <-.
  destruct (list_find _ (DdkImageList s)) as [[i [q m]] |]; [by injection E as <- <- |].
  apply bind_inv in E as (r & s1 & E1 & E). pose proof (quiet_read _ _ _ _ _ E1) as K1. destruct r as [b |]; [| done].
  apply bind_inv in E as ([b' entry] & s2 & E2 & E). pose proof (quiet_lift _ _ _ _ E2) as K2.
  apply bind_inv in E as (t & s3 & E3 & E). pose proof (quiet_path _ _ _ _ _ _ _ _ E3) as K3.
  apply bind_inv in E as (t' & s4 & E4 & E). pose proof (quiet_lift _ _ _ _ E4) as K4.
  apply bind_inv in E as (ok & s5 & E5 & E). pose proof (quiet_write _ _ _ _ _ E5) as K5. destruct ok; [| done]. cbn [negb] in E.
  assert (keeps s s5) as (Kl & Ko & Kn) by (repeat (eapply keeps_trans; [| eassumption]); apply keeps_refl).
  apply bind_inv in E as (h & s6 & E6 & E). unfold call_memory in E6.
  destruct (LoadLibrary t' (memory s5, outside s5)) as [h' mw] eqn:El. injection E6 as <- <-.
  destruct (Z.eqb_spec h' 0) as [| Nh]; [done |]. destruct (load_law _ _ _ _ _ El) as [Lo Ln].
  destruct (for_image f) as [q |]; [| done].
  apply bind_inv in E as (hdr & s7 & E7 & E). pose proof (quiet_header _ _ _ _ E7) as K7.
  apply bind_inv in E as (data & s8 & E8 & E). pose proof (quiet_save _ _ _ _ _ _ E8) as K8.
  destruct (keeps_trans _ _ _ K7 K8) as (Ml & Mo & Mn). injection E as <- <-. simpl in Ml, Mo, Mn. split; [simpl; congruence |].
  intros x. unfold others, held. simpl. rewrite Mn, Ml, Kl, Ln, Kn. rewrite filter_cons. simpl.
  destruct (decide (h' = x)) as [-> | Nx]; [rewrite decide_True by done; simpl; lia |]. rewrite decide_False by (intros [-> _]; done). lia.
Qed.

Lemma unlink_held p l m x : find_image p l = Some m ->
  Z.of_nat (length (filter (fun e : Z * IMAGE => module e.2 = x) (unlink p l))) =
  Z.of_nat (length (filter (fun e : Z * IMAGE => module e.2 = x) l)) - if decide (x = module m) then 1 else 0.
Proof.
  unfold find_image. induction l as [| [q y] l IH]; intros E; [done |]. cbn [unlink list_find fst] in *.
  rewrite filter_cons. simpl in E. destruct (decide (q = p)) as [-> | N].
  - injection E as ->. rewrite Z.eqb_refl. cbn [snd]. repeat case_decide; simpl; try congruence; lia.
  - apply Z.eqb_neq in N as ->. rewrite filter_cons. cbn [snd]. destruct (list_find _ l) as [[i e] |]; [| done]. simpl in E. specialize (IH E).
    destruct (decide (module y = x)); simpl; lia.
Qed.

Lemma unload_image_holds p s s' : DdkUnloadImage p s = Ok (tt, s') -> (forall h, 0 <= others s h) ->
  open_files (outside s') = open_files (outside s) /\ forall h, others s' h = others s h.
Proof.
  unfold DdkUnloadImage. intros E Hh. apply bind_inv in E as (m & s1 & E1 & E). unfold image_at in E1.
  destruct (find_image p (DdkImageList s)) as [m' |] eqn:Ef; [| done]. injection E1 as <- <-. destruct (referenced _); [done |].
  apply bind_inv in E as (st & s1 & E1 & E). destruct (quiet_detach _ _ _ _ E1) as (Kl & Ko & Kn). destruct (negb _); [done |].
  set (h := module m') in *. assert (1 <= held s h) as Hheld.
  { pose proof (unlink_held p _ m' h Ef) as U. unfold held. rewrite decide_True in U by done. lia. }
  apply bind_inv in E as (u & s2 & E2 & E). unfold call_memory in E2. injection E2 as <- <-.
  destruct (free_law h (memory s1) (outside s1)) as [Fo Fn].
  { rewrite Kn. specialize (Hh h). unfold others in Hh. lia. }
  destruct (FreeLibrary h (memory s1, outside s1)) as [m2 w2]. simpl in Fo, Fn.
  apply bind_inv in E as (b & s3 & E3 & E). unfold call in E3. cbn [outside set_both] in E3. change ((m2, w2).2) with w2 in E3.
  destruct (GetModuleHandleEx h w2) as [b' w3] eqn:Eg. injection E3 as <- <-. destruct (handle_law _ _ _ _ Eg) as (Go & Gb & Gn).
  destruct b'.
  - destruct (quiet_restore _ _ _ _ E) as (Rl & Ro & Rn). simpl in Rl, Ro, Rn. split; [congruence |]. intros x. unfold others, held.
    rewrite Rn, Rl, Kl, Gn, Fn, Kn. repeat case_decide; try tauto; lia.
  - injection E as <-. split; [simpl; congruence |]. intros x. unfold others, held. simpl. rewrite Kl, (unlink_held p _ m' x Ef), Gn, Fn, Kn. fold h.
    repeat case_decide; try tauto; lia.
Qed.

(** Loading and unloading drivers, as often as one likes. *)
Inductive image_step : istate -> istate -> Prop :=
  | loads_image T f path name s p s' : DdkLoadImage T f path name s = Ok (p, s') -> image_step s s'
  | unloads_image p s s' : DdkUnloadImage p s = Ok (tt, s') -> image_step s s'.

(** C17. However often drivers are loaded and unloaded: each image in the list holds its
    module once, so that what others hold of it stays theirs, and every file that is opened
    to read or write an image is closed again. *)
Theorem images_hold_modules s s' : rtc image_step s s' -> (forall h, 0 <= others s h) ->
  open_files (outside s') = open_files (outside s) /\ forall h, others s' h = others s h.
Proof.
  induction 1 as [s | s s1 s' Hs _ IH]; intros Hh; [done |].
  assert (open_files (outside s1) = open_files (outside s) /\ forall h, others s1 h = others s h) as [Ho Hn].
  { destruct Hs as [T f path name s p s1 E | p s s1 E]; [by eapply load_image_holds | by eapply unload_image_holds]. }
  destruct IH as [Ho' Hn']; [intros h; by rewrite Hn |]. split; [congruence |]. intros h. by rewrite Hn'.
Qed.

End hold.
