(* ===== verification/ImageExamples.v ===== *)
(** * ImageExamples: a driver, and the theorems on images

    A small driver file with one section of data that names hal.dll, a loader that maps
    it at 0x12000, and a test at 0x30000 that has intercepted a function of it. *)

From S2P Require Import Prelude Memory LocalPath Image ImageUpdate ImageData ImageLoads ImageHold.
From S2P Require Detours DetoursInv DetoursSpec DetoursExamples.

#[local] Existing Instances DetoursExamples.model_detours DetoursExamples.model_laws.

(** ** A file *)

Definition poke (off : nat) (bs l : list Z) : list Z := take off l ++ bs ++ drop (off + length bs) l.

(** The fields of the headers that are looked at, in 400 bytes. *)
Definition headers_of (sections base size : Z) : list Z :=
  poke 60 (le_split 4 64) (poke (64 + 6) (le_split 2 sections) (poke (64 + 20) (le_split 2 240)
    (poke (64 + 48) (le_split 8 base) (poke (64 + 80) (le_split 4 size) (repeat 0 400))))).

(** One section of four bytes at 376, and the name of a library. *)
Definition a_driver : list Z :=
  poke (64 + 40) (le_split 4 0x60) (poke (328 + 8) (le_split 4 4) (poke (328 + 12) (le_split 4 376)
    (poke (328 + 36) (le_split 4 0x80000040) (poke 376 [1; 2; 3; 4] (poke 384 (ascii "HAL.dll") (headers_of 1 0x12000 0x1000)))))).

Definition zeros_behind (n : nat) : Z := 0.

Definition result_of {A} (d : A) (r : result A) : A := match r with Ok a => a | Err _ => d end.

Definition changed_driver : list Z := (result_of ([], 0) (DdkUpdateImage zeros_behind a_driver 400)).1.

Lemma DdkUpdateImage_clean_witness :
  (exists b1, set_header a_driver = Ok (b1, 0x60)) /\ length changed_driver = 400%nat /\
  forall i, 0 <= i < 400 -> unnamed_at zeros_behind changed_driver i /\ unshared_at zeros_behind changed_driver i.
Proof.
  apply (DdkUpdateImage_clean zeros_behind a_driver changed_driver 0x60). vm_compute. reflexivity.
Defined.

Example changed_name : take 8 (drop 384 changed_driver) = ascii "ddk.dll" ++ [0].
Proof. by vm_compute. Qed.

(** A name at the very end: its replacement is one byte longer. *)
Example name_at_end : DdkUpdateImage zeros_behind (take 391 a_driver) 391 = Err (BadAccess 384).
Proof. by vm_compute. Qed.

(** The end of a file that ends in zeros is compared with what is behind the buffer, and
    what is there decides. *)
Example compared_behind :
  (exists b, DdkUpdateImage zeros_behind a_driver 400 = Ok (b, 0x60)) /\
  DdkUpdateImage (fun n => default 0 ([0x00; 0x80; 0xf7; 0xff; 0xff] !! n)) a_driver 400 = Err (BadAccess 399).
Proof. split; [eexists |]; by vm_compute. Qed.

(** [\Driver] names of files with a path keep the backslash. *)
Example name_of_path : DdkGetDriverName (ascii "C:\tests\foo.sys") = Ok (ascii "\foo").
Proof. by vm_compute. Qed.

(** ** A system *)

Record sysm := mkSystem { opened : list Z; counts : gmap Z Z }.

Definition count_of (s : sysm) (h : Z) : Z := default 0 (counts s !! h).

Definition add (h n : Z) (s : sysm) : sysm := mkSystem (opened s) (<[h := count_of s h + n]> (counts s)).

Definition next (s : sysm) : Z := 4 + foldr Z.max 0 (opened s).

#[local] Instance model_loader : LOADER := {|
  system := sysm;
  open_files s := list_to_set (opened s);
  loads := count_of;
  CreateFileA path write s :=
    if INVALID_HANDLE_VALUE <=? next s then (INVALID_HANDLE_VALUE, s) else (next s, mkSystem (next s :: opened s) (counts s));
  GetFileInformationByHandle h s := Some (Z.of_nat (length a_driver), 0);
  ReadFile h n s := (Some a_driver, s);
  WriteFile h bs s := (Some (Z.of_nat (length bs)), s);
  CloseFile h s := mkSystem (filter (fun x => x <> h) (opened s)) (counts s);
  GetFileTime h s := None;
  CreateDirectoryA path s := s;
  LoadLibrary path mw := (0x12000, (fill 0x12000 changed_driver mw.1, add 0x12000 1 mw.2));
  FreeLibrary h mw := (mw.1, add h (-1) mw.2);
  GetModuleHandleEx h s := if count_of s h =? 0 then (false, s) else (true, add h 1 s);
  DetourEnumerateModules s := [0x30000];
  GetModuleFileNameA h s := true;
  delay_hook f d mw := mw
|}.

Lemma count_add s h n x : count_of (add h n s) x = count_of s x + (if decide (x = h) then n else 0).
Proof.
  unfold count_of, add. simpl. case_decide as Hx; [subst; by rewrite lookup_insert_eq |].
  rewrite lookup_insert_ne by done. lia.
Qed.

#[local] Instance model_loader_laws : LOADER_Laws.
Proof.
  split; try done.
  - intros path write s h s'. cbn [CreateFileA model_loader]. destruct (Z.leb_spec INVALID_HANDLE_VALUE (next s)); intros [= <- <-].
    + split; [done |]. by left.
    + split; [done |]. right. split; [lia |]. split; [| done]. cbn [open_files model_loader].
      rewrite elem_of_list_to_set. intros Hin. assert (forall l x, x ∈ l -> x <= foldr Z.max 0 l) as Hm.
      { clear. intros l x. induction l as [| y l IH]; [by intros ?%not_elem_of_nil |]. intros [-> | Hl%IH]%elem_of_cons; simpl; lia. }
      apply Hm in Hin. unfold next in Hin. lia.
  - intros h s. split; [| done]. cbn [open_files CloseFile model_loader opened]. apply set_eq. intros x.
    rewrite elem_of_difference, !elem_of_list_to_set, list_elem_of_filter, elem_of_singleton. tauto.
  - intros path m s h mw E. apply pair_equal_spec in E as [<- <-]. split; [done |]. intros x. cbn [loads model_loader snd]. rewrite count_add.
    repeat case_decide; tauto || lia.
  - intros h m s Hl. split; [done |]. intros x. cbn [loads model_loader FreeLibrary snd]. rewrite count_add. case_decide; lia.
  - intros h s b s'. cbn [GetModuleHandleEx model_loader]. destruct (Z.eqb_spec (count_of s h) 0) as [Hz | Nz]; intros [= <- <-].
    + split; [done |]. split; [done |]. intros x. rewrite decide_False by (intros [_ [=]]). simpl. lia.
    + split; [done |]. split; [done |]. intros x. cbn [loads model_loader]. rewrite count_add. repeat case_decide; tauto || lia.
Qed.

(** ** A driver that is loaded *)

Definition the_image (delay : list (Z * Z)) (data : option (list Z)) : IMAGE :=
  mkImage 0x12000 0x12040 0x12060 delay data (ascii "foo").

Definition test_slots (n : Z) : list (Z * Z) := (if n =? 0 then 0 else 0x30000, n) :: replicate 99 (0, 0).

Definition test_counts (n : Z) : Z -> Z := fun h => if h =? 0x30000 then n else 0.

Definition a_memory : mem := fill 0x12000 changed_driver (fill 0x30000 (headers_of 0 0x90 0x18) ∅).

Definition still_held : sysm := mkSystem [] {[0x12000 := 1]}.

(** [n]: how often the test has the driver loaded. *)
Definition with_image (n : Z) : istate :=
  mkI [(800, the_image (test_slots n) None)] a_memory still_held DetoursExamples.two_intercepts.

Definition two_hooks : Z -> list DetoursSpec.hook :=
  fun g => if g =? DetoursExamples.the_function then [DetoursExamples.hook_b; DetoursExamples.hook_a] else [].

Lemma test_slots_ok n : 0 <= n < 2 ^ 31 -> slots (test_slots n) (test_counts n).
Proof.
  intros Hn. assert (forall i h m, test_slots n !! i = Some (h, m) -> i = 0%nat /\ h = (if n =? 0 then 0 else 0x30000) /\ m = n \/ h = 0 /\ m = 0) as Look.
  { intros [| i] h m E; [injection E as <- <-; by left |]. right. change (replicate 99 (0, 0) !! i = Some (h, m)) in E.
    apply lookup_replicate in E as [E _]. by injection E as -> ->. }
  unfold test_counts. split.
  - done.
  - intros i h m [(-> & -> & ->) | [-> ->]]%Look Nh; [| done]. destruct (Z.eqb_spec n 0); [done |]. rewrite Z.eqb_refl. lia.
  - intros i m [(-> & Hh & ->) | [_ ->]]%Look; [| done]. by destruct (Z.eqb_spec n 0).
  - intros i j h m m' Ei Ej Nh. by destruct (Look i h m Ei) as [(-> & _) | [? _]], (Look j h m' Ej) as [(-> & _) | [? _]].
  - intros h Nh. destruct (h =? 0x30000); lia.
  - intros h Nh Hh. destruct (Z.eqb_spec h 0x30000) as [-> |]; [| lia]. exists 0%nat, n. unfold test_slots. simpl.
    by destruct (Z.eqb_spec n 0); [lia |].
Qed.

Lemma read_at n k a v : num k a a_memory = Ok v -> number k a (with_image n) = Ok (v, with_image n).
Proof. intros E. exact (number_run k a (with_image n) v E). Qed.

#[local] Opaque a_memory.

Lemma base_of n : ImageBase 0x12040 (with_image n) = Ok (0x12000, with_image n).
Proof. unfold ImageBase, SizeOfImage. apply read_at. by vm_compute. Qed.

Lemma size_of n : SizeOfImage 0x12040 (with_image n) = Ok (0x1000, with_image n).
Proof. unfold ImageBase, SizeOfImage. apply read_at. by vm_compute. Qed.

Lemma test_header n : nt_header 0x30000 (with_image n) = Ok (0x30040, with_image n).
Proof.
  unfold nt_header. rewrite (bind_run _ _ (with_image n) 64 (with_image n)); [done |]. apply read_at. by vm_compute.
Qed.

Lemma test_base n : ImageBase 0x30040 (with_image n) = Ok (0x90, with_image n).
Proof. unfold ImageBase, SizeOfImage. apply read_at. by vm_compute. Qed.

Lemma test_size n : SizeOfImage 0x30040 (with_image n) = Ok (0x18, with_image n).
Proof. unfold ImageBase, SizeOfImage. apply read_at. by vm_compute. Qed.

Lemma test_found n : DdkFindModule 0x98 (with_image n) = Ok (0x30000, with_image n).
Proof.
  unfold DdkFindModule. rewrite (bind_run _ _ (with_image n) (outside (with_image n)) (with_image n)) by done.
  cbn [DetourEnumerateModules model_loader find_module]. rewrite (bind_run _ _ (with_image n) true (with_image n)); [reflexivity |].
  unfold try_module. rewrite (bind_run _ _ (with_image n) (outside (with_image n)) (with_image n)) by done. cbn [GetModuleFileNameA model_loader negb].
  rewrite (bind_run _ _ _ _ _ (test_header n)), (bind_run _ _ _ _ _ (test_base n)), (bind_run _ _ _ _ _ (test_size n)). reflexivity.
Qed.

Lemma test_name n : DdkFindDLLName 0x30000 (ascii "foo") (with_image n) = Ok (0, with_image n).
Proof.
  unfold DdkFindDLLName. rewrite (bind_run _ _ _ _ _ (test_header n)).
  rewrite (bind_run _ _ (with_image n) 0 (with_image n)) by (apply read_at; by vm_compute).
  rewrite (bind_run _ _ (with_image n) 0 (with_image n)) by (apply read_at; by vm_compute). reflexivity.
Qed.

Lemma image_found n : find_image 800 (DdkImageList (with_image n)) = Some (the_image (test_slots n) None).
Proof. reflexivity. Qed.

(** The intercept 0xA0 is the test's, 0xB0 is not. *)
Lemma DdkDelayUnload_spec_witness :
  exists l st t, slots l (with_count (test_counts 1) 0x30000 0) /\
    DetoursSpec.rep t (fun g => filter (fun e => DetoursSpec.in_range 0x12000 0x1000 g &&
      DetoursSpec.in_module (Some (0x90, 0x18)) e = false) (two_hooks g)) /\
    DdkDelayUnload 800 0x98 (with_image 1) =
      if NT_SUCCESS st then Ok (tt, hooked 0x98 0 (set_hooks t (updated 800 l (with_image 1))))
      else Err (DdkFailed "Unable to detach detours for module").
Proof.
  destruct (DdkDelayUnload_spec (with_image 1) 800 (the_image (test_slots 1) None) (test_counts 1)
    (image_found 1) (test_slots_ok 1 ltac:(done)) ltac:(done) 0x12000 0x1000 (base_of 1) (size_of 1) two_hooks DetoursExamples.rep_two
    0x98 0x30000 0 0x30040 0x90 0x18 ltac:(done) (test_found 1) ltac:(done) (test_name 1) (test_header 1) (test_base 1) (test_size 1))
    as (l & Sl & st & t & Rt & E).
  exists l, st, t. split; [exact Sl | split; [exact Rt | exact E]].
Defined.

Lemma last_load : GetModuleHandleEx 0x12000 (add 0x12000 (-1) still_held) = (false, add 0x12000 (-1) still_held).
Proof. by vm_compute. Qed.

(** While the test has the driver it cannot be unloaded, and afterwards it can. *)
Lemma DdkUnloadImage_spec_witness :
  DdkUnloadImage 800 (with_image 1) = Err (DdkFailed "Driver still referenced") /\
  exists t, Detours.DdkDetachAddressRange 0x12000 0x1000 None (hooks (with_image 0)) = Ok (STATUS_SUCCESS, t) /\
    DetoursSpec.rep t (fun g => filter (fun e => DetoursSpec.in_range 0x12000 0x1000 g = false) (two_hooks g)) /\
    DdkUnloadImage 800 (with_image 0) = Ok (tt, mkI [] a_memory (add 0x12000 (-1) still_held) t).
Proof.
  assert (forall n, 0 <= n < 2 ^ 31 -> NoDup (DdkImageList (with_image n)).*1) as Nd by (intros n _; apply NoDup_singleton).
  destruct (DdkUnloadImage_spec (with_image 1) 800 (the_image (test_slots 1) None) (test_counts 1)
      (image_found 1) (test_slots_ok 1 ltac:(done)) 0x12000 0x1000 (base_of 1) (size_of 1) two_hooks DetoursExamples.rep_two (Nd 1 ltac:(done))) as [W1 _].
  destruct (DdkUnloadImage_spec (with_image 0) 800 (the_image (test_slots 0) None) (test_counts 0)
      (image_found 0) (test_slots_ok 0 ltac:(done)) 0x12000 0x1000 (base_of 0) (size_of 0) two_hooks DetoursExamples.rep_two (Nd 0 ltac:(done))) as [_ W2].
  split; [apply W1; by exists 0x30000 |].
  destruct W2 as (st & t & Ed & Rt & E); [intros h _; unfold test_counts; by destruct (h =? 0x30000) |].
  assert (st = STATUS_SUCCESS) as -> by (vm_compute in Ed; injection Ed as <- _; reflexivity).
  exists t. split; [exact Ed |]. split; [exact Rt |]. rewrite E. cbn [NT_SUCCESS].
  cbn [FreeLibrary model_loader fst snd memory outside with_image module the_image].
  rewrite last_load. reflexivity.
Defined.

Definition blank (n : Z) : option (list Z) := Some (repeat 0 (Z.to_nat n)).

Lemma blank_ok k : 0 <= k -> exists b, blank k = Some b /\ Z.of_nat (length b) = k.
Proof. intros Hk. eexists. split; [done |]. rewrite repeat_length. lia. Qed.

Definition data_section : section := mkSection 4 376 0x80000040.

Lemma saved_data y : lies_in 0x12000 (saved [data_section]) y -> 0x12178 <= y < 0x1217c.
Proof.
  assert (saved [data_section] = [data_section]) as -> by reflexivity. unfold lies_in. rewrite Exists_cons, Exists_nil.
  intros [[Hl Hu] | []]. cbn [VirtualAddress VirtualSize data_section] in Hl, Hu. lia.
Qed.

Lemma data_there : forallb (fun y => bool_decide (is_Some (a_memory !! y))) [0x12178; 0x12179; 0x1217a; 0x1217b] = true.
Proof. by vm_compute. Qed.

Lemma the_image_in : image_in a_memory 0x12000 0x12040 0x12148 1 [data_section].
Proof.
  split.
  - vm_compute. reflexivity.
  - vm_compute. reflexivity.
  - vm_compute. reflexivity.
  - split; [by repeat constructor | reflexivity].
  - intros y Hy%saved_data. pose proof data_there as Hd. rewrite forallb_forall in Hd.
    assert (List.In y [0x12178; 0x12179; 0x1217a; 0x1217b]) as Hin by (simpl; lia).
    exact (bool_decide_eq_true_1 _ (Hd y Hin)).
Qed.

Lemma image_data_roundtrip_witness : exists data, DdkSaveImageData blank 0x12000 0x12040 (with_image 0) = Ok (data, with_image 0) /\
  forall (s' : istate) p, module p = 0x12000 -> Header p = 0x12040 -> Data p = data ->
    (forall y, headers 0x12040 0x12148 1 y -> memory s' !! y = a_memory !! y) -> dom (memory s') = dom a_memory ->
    exists m', DdkRestoreImageData p s' = Ok (tt, set_memory m' s') /\
      forall y, m' !! y = if decide (lies_in 0x12000 (saved [data_section]) y) then a_memory !! y else memory s' !! y.
Proof.
  apply (image_data_roundtrip (with_image 0) 0x12000 0x12040 0x12148 1 [data_section] blank the_image_in); [| apply blank_ok].
  intros y Hy%saved_data [Hh | Hh]; unfold in_range in Hh; lia.
Defined.

(** ** Loading and unloading *)

Definition no_images : istate := mkI [] ∅ (mkSystem [] ∅) DetoursExamples.nothing.

Definition room : memory_for := mkFor (fun _ => true) (Some 800) blank zeros_behind.

Definition is_ok {A} (r : result A) : bool := match r with Ok _ => true | Err _ => false end.

Lemma result_ok {A} (d : A) r : is_ok r = true -> r = Ok (result_of d r).
Proof. by destruct r. Qed.

Definition load_foo : result (Z * istate) := DdkLoadImage [84; 92] room (ascii "foo.sys") (ascii "foo") no_images.
Definition loaded : Z * istate := result_of (0, no_images) load_foo.
Definition unload_foo : result (unit * istate) := DdkUnloadImage loaded.1 loaded.2.
Definition unloaded : unit * istate := result_of (tt, no_images) unload_foo.

Lemma foo_loads : is_ok load_foo && is_ok unload_foo = true.
Proof. vm_compute. reflexivity. Qed.

Lemma loaded_step : image_step no_images loaded.2.
Proof.
  apply (loads_image [84; 92] room (ascii "foo.sys") (ascii "foo") _ loaded.1).
  assert (load_foo = Ok (loaded.1, loaded.2)) as E; [| exact E].
  rewrite <- surjective_pairing. apply result_ok. exact (proj1 (andb_prop _ _ foo_loads)).
Qed.

Lemma unloaded_step : image_step loaded.2 unloaded.2.
Proof.
  apply (unloads_image loaded.1). assert (unload_foo = Ok (tt, unloaded.2)) as E; [| exact E].
  destruct (unloaded.1) eqn:Eu. rewrite <- Eu, <- surjective_pairing. apply result_ok. exact (proj2 (andb_prop _ _ foo_loads)).
Qed.

Lemma nobody_holds h : others no_images h = 0.
Proof. reflexivity. Qed.

Lemma images_hold_modules_witness : open_files (outside unloaded.2) = ∅ /\ forall h, others unloaded.2 h = 0.
Proof.
  apply (images_hold_modules no_images unloaded.2).
  - exact (rtc_l _ _ _ _ loaded_step (rtc_once _ _ unloaded_step)).
  - intros h. rewrite nobody_holds. done.
Defined.
