(* ===== verification/Exception.v ===== *)
(** * Exception: instructions that a driver cannot execute (exception.cpp)

    A driver in a process faults where it reads the shared data of the kernel, or accesses
    CR8, the interrupt level.  The handler changes the registers so that the instruction
    can be executed again, or executes it.  [DdkReadCR8] and [DdkWriteCR8] of irql.cpp
    get and set the interrupt level of the thread, [irql] here.  The registers are in the
    order of their numbers, as on x64. *)

From S2P Require Import Prelude Memory.

Definition EXCEPTION_CONTINUE_EXECUTION : Z := -1.
Definition EXCEPTION_CONTINUE_SEARCH : Z := 0.

Definition EXCEPTION_ACCESS_VIOLATION : Z := 0xC0000005.
Definition EXCEPTION_PRIV_INSTRUCTION : Z := 0xC0000096.
Definition STATUS_ASSERTION_FAILURE : Z := 0xC0000420.
Definition EXCEPTION_UNITTEST_ASSERTION : Z := 0xe3530001.

Definition REGISTER_COUNT : Z := 16.

Definition KernelShared : Z := 0xFFFFF78000000000.
Definition UserShared : Z := 0x7FFE0000.

Record EXCEPTION_RECORD := mkRecord {
  ExceptionCode : Z;
  ExceptionAddress : Z;
  NumberParameters : Z;
  ExceptionInformation : list Z
}.

Record CONTEXT := mkContext { registers : list Z; Rip : Z; irql : Z }.

Definition set_registers l c := mkContext l (Rip c) (irql c).
Definition set_Rip r c := mkContext (registers c) r (irql c).
Definition set_irql q c := mkContext (registers c) (Rip c) q.

Record EXCEPTION_POINTERS := mkPointers { ExceptionRecord : EXCEPTION_RECORD; ContextRecord : CONTEXT }.

Definition X := M EXCEPTION_POINTERS.

Definition xget {A} (f : EXCEPTION_POINTERS -> A) : X A := fun s => Ok (f s, s).

Definition change_context (f : CONTEXT -> CONTEXT) : X unit :=
  modify (fun s => mkPointers (ExceptionRecord s) (f (ContextRecord s))).

(** The number of the register that [DdkGetRegister] gives. *)
Definition DdkGetRegister (reg : Z) : Z := Z.land reg 0xf.

Definition get_register (reg : Z) : X Z :=
  l ← xget (fun s => registers (ContextRecord s)); lift (array_get l (DdkGetRegister reg)).

Definition put_register (reg v : Z) : X unit :=
  l ← xget (fun s => registers (ContextRecord s));
  l ← lift (array_set l (DdkGetRegister reg) v);
  change_context (set_registers l).

Definition DdkReadCR8 : X Z := xget (fun s => irql (ContextRecord s)).

Definition DdkWriteCR8 (v : Z) : X unit := change_context (set_irql (u8 v)).

(** The loop over the registers from [i] on, and whether one had the address. *)
Fixpoint fix_registers (n : nat) (i addr : Z) (found : bool) : X bool :=
  match n with
  | O => mret found
  | S n =>
      v ← get_register i;
      if v =? addr then
        _ ← put_register i (Z.lor UserShared (Z.land v 0x7ff));
        fix_registers n (i + 1) addr true
      else fix_registers n (i + 1) addr found
  end.

Definition DdkAccessException : X Z :=
  r ← xget ExceptionRecord;
  if negb (NumberParameters r =? 2) then mret EXCEPTION_CONTINUE_SEARCH else
  kind ← lift (array_get (ExceptionInformation r) 0);
  if negb (kind =? 0) then mret EXCEPTION_CONTINUE_SEARCH else
  addr ← lift (array_get (ExceptionInformation r) 1);
  if (KernelShared <=? addr) && (addr <? KernelShared + 0x800) then
    found ← fix_registers (Z.to_nat REGISTER_COUNT) 0 addr false;
    mret (if found : bool then EXCEPTION_CONTINUE_EXECUTION else EXCEPTION_CONTINUE_SEARCH)
  else mret EXCEPTION_CONTINUE_SEARCH.

(** [op[i]]: the code of the driver, in [m]. *)
Definition op (m : mem) (i : Z) : X Z :=
  r ← xget ExceptionRecord;
  let a := ExceptionAddress r + i in
  match m !! a with Some b => mret b | None => fail (BadAccess a) end.

Definition DdkPrivException (m : mem) : X Z :=
  let search := mret EXCEPTION_CONTINUE_SEARCH : X Z in
  b0 ← op m 0;
  if negb (Z.land b0 0xf6 =? 0x44) then search else
  b1 ← op m 1;
  if negb (b1 =? 0x0f) then search else
  b2 ← op m 2;
  if negb (Z.land b2 0xfd =? 0x20) then search else
  b3 ← op m 3;
  if negb (Z.land b3 0xf8 =? 0xc0) then search else
  let reg := Z.shiftl (Z.land b0 1) 3 + Z.land b3 0x7 in
  _ ← (if negb (Z.land b2 0x02 =? 0) then v ← get_register reg; DdkWriteCR8 v
       else v ← DdkReadCR8; put_register reg v);
  _ ← change_context (fun c => set_Rip (u64 (Rip c + 4)) c);
  mret EXCEPTION_CONTINUE_EXECUTION.

Definition DdkExceptionHandler (m : mem) : X Z :=
  r ← xget ExceptionRecord;
  if ExceptionCode r =? EXCEPTION_ACCESS_VIOLATION then DdkAccessException
  else if ExceptionCode r =? EXCEPTION_PRIV_INSTRUCTION then DdkPrivException m
  else
    _ ← (if ExceptionCode r =? STATUS_ASSERTION_FAILURE then
           l ← lift (array_set (ExceptionInformation r) 0 0);
           l ← lift (array_set l 1 0);
           modify (fun s => mkPointers (mkRecord EXCEPTION_UNITTEST_ASSERTION (ExceptionAddress r) 2 l) (ContextRecord s))
         else mret tt);
    mret EXCEPTION_CONTINUE_SEARCH.

(** * what the handler makes of an exception *)

(** ** Accesses to CR8 *)

(** The instructions: a move from CR8 to a register, or to CR8 from one; [wide] is the bit
    of the prefix that makes no difference. *)
Inductive instruction :=
  | ReadCR8 (reg : Z)
  | WriteCR8 (reg : Z).

Definition register_of (i : instruction) : Z := match i with ReadCR8 r | WriteCR8 r => r end.

Definition encode_instruction (wide : bool) (i : instruction) : list Z :=
  let r := register_of i in
  [0x44 + (if wide then 8 else 0) + r / 8; 0x0f; (match i with ReadCR8 _ => 0x20 | WriteCR8 _ => 0x22 end); 0xc0 + r mod 8].

(** What the processor would do. *)
Definition execute (i : instruction) (c : CONTEXT) : CONTEXT :=
  let c := match i with
    | ReadCR8 r => set_registers (<[Z.to_nat r := irql c]> (registers c)) c
    | WriteCR8 r => set_irql (u8 (default 0 (registers c !! Z.to_nat r))) c
    end in
  set_Rip (u64 (Rip c + 4)) c.

Definition bytes (l : list Z) : Prop := Forall (fun b => 0 <= b < 256) l.

(** The fields of a byte, by looking at all of them. *)
Lemma all_bytes (P : Z -> bool) : forallb P (seqZ 0 256) = true -> forall b, 0 <= b < 256 -> P b = true.
Proof. intros Hf b Hb. rewrite forallb_forall in Hf. apply Hf, list_elem_of_In, elem_of_seqZ. lia. Qed.

Definition prefix_ok (b : Z) : bool := implb (Z.land b 0xf6 =? 0x44)
  ((b =? 0x44) || (b =? 0x45) || (b =? 0x4c) || (b =? 0x4d)).
Definition opcode_ok (b : Z) : bool := implb (Z.land b 0xfd =? 0x20) ((b =? 0x20) || (b =? 0x22)).
Definition operand_ok (b : Z) : bool := implb (Z.land b 0xf8 =? 0xc0) ((0xc0 <=? b) && (b <? 0xc8) && (Z.land b 7 =? b - 0xc0)).

Lemma decode_prefix b : 0 <= b < 256 -> Z.land b 0xf6 = 0x44 -> exists wide r, (r = 0 \/ r = 1) /\ b = 0x44 + (if wide : bool then 8 else 0) + r /\ Z.land b 1 = r.
Proof.
  intros Hb E. pose proof (all_bytes prefix_ok eq_refl b Hb) as P. unfold prefix_ok in P. rewrite E, Z.eqb_refl in P. cbn [implb] in P.
  repeat (apply orb_prop in P as [P | P]); apply Z.eqb_eq in P as ->; [exists false, 0 | exists false, 1 | exists true, 0 | exists true, 1]; split_and!; auto.
Qed.

Lemma decode_operand b : 0 <= b < 256 -> Z.land b 0xf8 = 0xc0 -> 0xc0 <= b < 0xc8 /\ Z.land b 7 = b - 0xc0.
Proof.
  intros Hb E. pose proof (all_bytes operand_ok eq_refl b Hb) as P. unfold operand_ok in P. rewrite E, Z.eqb_refl in P. cbn [implb] in P. lia.
Qed.

Lemma decode_opcode b : 0 <= b < 256 -> Z.land b 0xfd = 0x20 -> b = 0x20 \/ b = 0x22.
Proof.
  intros Hb E. pose proof (all_bytes opcode_ok eq_refl b Hb) as P. unfold opcode_ok in P. rewrite E, Z.eqb_refl in P. cbn [implb] in P. lia.
Qed.

Lemma low_register k : 0 <= k < 16 -> Z.land k 0xf = k.
Proof. intros Hk. change 0xf with (Z.ones 4). rewrite Z.land_ones by done. apply Z.mod_small. lia. Qed.

Lemma get_register_run k s : length (registers (ContextRecord s)) = 16%nat -> 0 <= k < 16 ->
  get_register k s = Ok (default 0 (registers (ContextRecord s) !! Z.to_nat k), s).
Proof.
  intros Hl Hk. unfold get_register, DdkGetRegister. rewrite (bind_run _ _ s (registers (ContextRecord s)) s eq_refl).
  rewrite low_register by done. destruct (array_get_ok (registers (ContextRecord s)) k) as (v & E & El); [lia |].
  unfold lift. by rewrite E, El.
Qed.

Lemma put_register_run k v s : length (registers (ContextRecord s)) = 16%nat -> 0 <= k < 16 ->
  put_register k v s = Ok (tt, mkPointers (ExceptionRecord s) (set_registers (<[Z.to_nat k := v]> (registers (ContextRecord s))) (ContextRecord s))).
Proof.
  intros Hl Hk. unfold put_register, DdkGetRegister. rewrite (bind_run _ _ s (registers (ContextRecord s)) s eq_refl).
  rewrite low_register by done. unfold lift, array_set.
  by replace ((0 <=? k) && (k <? Z.of_nat (length (registers (ContextRecord s))))) with true by lia.
Qed.

(** The bits that the handler looks at. *)
Definition tested (b : list Z) : bool :=
  match b with
  | [b0; b1; b2; b3] => (Z.land b0 0xf6 =? 0x44) && (b1 =? 0x0f) && (Z.land b2 0xfd =? 0x20) && (Z.land b3 0xf8 =? 0xc0)
  | _ => false
  end.

Lemma encode_fields wide i : 0 <= register_of i < 16 ->
  let p := 0x44 + (if wide : bool then 8 else 0) + register_of i / 8 in
  let o := 0xc0 + register_of i mod 8 in
  Z.land p 0xf6 = 0x44 /\ Z.land o 0xf8 = 0xc0 /\ Z.shiftl (Z.land p 1) 3 + Z.land o 7 = register_of i.
Proof.
  intros Hr. generalize (register_of i) Hr. intros r Hr'.
  assert (forallb (fun r => let p w := 0x44 + (if w : bool then 8 else 0) + r / 8 in let o := 0xc0 + r mod 8 in
    forallb (fun w => (Z.land (p w) 0xf6 =? 0x44) && (Z.land o 0xf8 =? 0xc0) && (Z.shiftl (Z.land (p w) 1) 3 + Z.land o 7 =? r)) [false; true])
    (seqZ 0 16) = true) as All by reflexivity.
  rewrite forallb_forall in All. specialize (All r ltac:(apply list_elem_of_In, elem_of_seqZ; lia)).
  rewrite forallb_forall in All. specialize (All wide ltac:(destruct wide; simpl; auto)).
  apply andb_prop in All as [All E3]. apply andb_prop in All as [E1 E2].
  apply Z.eqb_eq in E1, E2, E3. auto.
Qed.

Lemma encode_tested wide i : 0 <= register_of i < 16 -> tested (encode_instruction wide i) = true.
Proof.
  intros Hr. destruct (encode_fields wide i Hr) as (E1 & E2 & _). cbn [tested encode_instruction]. rewrite E1, E2.
  by destruct i.
Qed.

Lemma tested_encode b : bytes b -> tested b = true -> exists wide i, 0 <= register_of i < 16 /\ b = encode_instruction wide i.
Proof.
  intros Hb T. destruct b as [| b0 [| b1 [| b2 [| b3 [| ? ?]]]]]; try done. cbn [tested] in T.
  apply andb_prop in T as [T E3]. apply andb_prop in T as [T E2]. apply andb_prop in T as [E0 E1].
  apply Z.eqb_eq in E0, E1, E2, E3. subst b1. unfold bytes in Hb. rewrite !Forall_cons in Hb. destruct Hb as (H0' & _ & H2' & H3' & _).
  destruct (decode_prefix b0 H0' E0) as (wide & r & Hr & -> & _). destruct (decode_operand b3 H3' E3) as [Ho _].
  assert ((8 * r + (b3 - 0xc0)) / 8 = r /\ (8 * r + (b3 - 0xc0)) mod 8 = b3 - 0xc0) as [Hd Hm] by (Z.div_mod_to_equations; lia).
  destruct (decode_opcode b2 H2' E2) as [-> | ->]; [exists wide, (ReadCR8 (8 * r + (b3 - 0xc0))) | exists wide, (WriteCR8 (8 * r + (b3 - 0xc0)))];
    cbn [register_of]; (split; [lia |]); unfold encode_instruction; cbn [register_of]; rewrite Hd, Hm; repeat f_equal; lia.
Qed.

Section Code.
Context (m : mem) (s : EXCEPTION_POINTERS).
Hypothesis Hl : length (registers (ContextRecord s)) = 16%nat.

Notation base := (ExceptionAddress (ExceptionRecord s)).

Lemma byte_run k x : m !! (base + k) = Some x -> op m k s = Ok (x, s).
Proof. intros Ex. unfold op. rewrite (bind_run _ _ s (ExceptionRecord s) s eq_refl). cbv zeta. by rewrite Ex. Qed.

(** The bytes one by one. *)
Lemma load_four b : load 4 base m = Ok b ->
  exists b0 b1 b2 b3, b = [b0; b1; b2; b3] /\ op m 0 s = Ok (b0, s) /\ op m 1 s = Ok (b1, s) /\ op m 2 s = Ok (b2, s) /\ op m 3 s = Ok (b3, s).
Proof.
  intros E. cbn [load] in E. rewrite <- !Z.add_assoc in E. change (1 + (1 + 1)) with 3 in E. change (1 + 1) with 2 in E.
  destruct (m !! base) as [b0 |] eqn:E0; [| done]. destruct (m !! (base + 1)) as [b1 |] eqn:E1; [| done].
  destruct (m !! (base + 2)) as [b2 |] eqn:E2; [| done]. destruct (m !! (base + 3)) as [b3 |] eqn:E3; [| done].
  injection E as <-. exists b0, b1, b2, b3. split_and!; [done | apply byte_run; by rewrite Z.add_0_r | by apply byte_run ..].
Qed.

Lemma other_run b : load 4 base m = Ok b -> tested b = false -> DdkPrivException m s = Ok (EXCEPTION_CONTINUE_SEARCH, s).
Proof.
  intros E T. destruct (load_four b E) as (b0 & b1 & b2 & b3 & -> & O0 & O1 & O2 & O3). cbn [tested] in T.
  unfold DdkPrivException. rewrite (bind_run _ _ _ _ _ O0). destruct (Z.land b0 0xf6 =? 0x44); [| done]. cbn [negb andb] in *.
  rewrite (bind_run _ _ _ _ _ O1). destruct (b1 =? 0x0f); [| done]. cbn [negb andb] in *.
  rewrite (bind_run _ _ _ _ _ O2). destruct (Z.land b2 0xfd =? 0x20); [| done]. cbn [negb andb] in *.
  rewrite (bind_run _ _ _ _ _ O3). destruct (Z.land b3 0xf8 =? 0xc0); [done | done].
Qed.

(** The handler at the bytes of an instruction. *)
Lemma emulate_run wide i : 0 <= register_of i < 16 -> load 4 base m = Ok (encode_instruction wide i) ->
  DdkPrivException m s = Ok (EXCEPTION_CONTINUE_EXECUTION, mkPointers (ExceptionRecord s) (execute i (ContextRecord s))).
Proof.
  intros Hr E. destruct (load_four _ E) as (b0 & b1 & b2 & b3 & Eb & O0 & O1 & O2 & O3). unfold encode_instruction in Eb. injection Eb as <- <- <- <-.
  destruct (encode_fields wide i Hr) as (E1 & E2 & Ereg).
  unfold DdkPrivException. rewrite (bind_run _ _ _ _ _ O0), E1, Z.eqb_refl. cbn [negb].
  rewrite (bind_run _ _ _ _ _ O1), Z.eqb_refl. cbn [negb]. rewrite (bind_run _ _ _ _ _ O2).
  replace (Z.land _ 0xfd =? 0x20) with true by (by destruct i). cbn [negb].
  rewrite (bind_run _ _ _ _ _ O3), E2, Z.eqb_refl. cbn [negb]. cbv zeta. rewrite Ereg.
  destruct i as [r | r]; cbn [register_of] in *.
  - change (negb (Z.land 0x20 0x02 =? 0)) with false. cbn iota.
    rewrite (bind_run _ _ s tt (mkPointers (ExceptionRecord s) (set_registers (<[Z.to_nat r := irql (ContextRecord s)]> (registers (ContextRecord s))) (ContextRecord s))));
      [done | rewrite (bind_run _ _ s (irql (ContextRecord s)) s eq_refl); by apply put_register_run].
  - change (negb (Z.land 0x22 0x02 =? 0)) with true. cbn iota.
    rewrite (bind_run _ _ s tt (mkPointers (ExceptionRecord s) (set_irql (u8 (default 0 (registers (ContextRecord s) !! Z.to_nat r))) (ContextRecord s))));
      [done | by rewrite (bind_run _ _ _ _ _ (get_register_run r s Hl Hr))].
Qed.
End Code.

(** C13. A privileged instruction that reads or writes CR8, by any register and with either
    form of the prefix, is executed as the processor would do it in the kernel, and the
    next one follows; every other one is left alone. *)
Theorem DdkPrivException_emulates m s b (Hl : length (registers (ContextRecord s)) = 16%nat) (Hb : bytes b)
  (E : load 4 (ExceptionAddress (ExceptionRecord s)) m = Ok b) :
  (exists wide i, 0 <= register_of i < 16 /\ b = encode_instruction wide i /\
     DdkPrivException m s = Ok (EXCEPTION_CONTINUE_EXECUTION, mkPointers (ExceptionRecord s) (execute i (ContextRecord s)))) \/
  (forall wide i, 0 <= register_of i < 16 -> b <> encode_instruction wide i) /\ DdkPrivException m s = Ok (EXCEPTION_CONTINUE_SEARCH, s).
Proof.
  destruct (tested b) eqn:T.
  - left. destruct (tested_encode b Hb T) as (wide & i & Hi & ->). exists wide, i. by rewrite (emulate_run m s Hl wide i).
  - right. split; [| by apply (other_run m s b)]. intros wide i Hi ->. by rewrite encode_tested in T.
Qed.

(** ** Reads of the shared data *)

Definition shared_data (a : Z) : bool := (KernelShared <=? a) && (a <? KernelShared + 0x800).

(** What a register holds afterwards: the same place of the data as a process sees it. *)
Definition as_user (addr v : Z) : Z := if v =? addr then UserShared + (addr - KernelShared) else v.

Lemma shared_offset a : shared_data a = true -> Z.lor UserShared (Z.land a 0x7ff) = UserShared + (a - KernelShared).
Proof.
  unfold shared_data. intros Hs. apply andb_prop in Hs as [H0' H1']. apply Z.leb_le in H0'. apply Z.ltb_lt in H1'.
  assert (Z.land a 0x7ff = a - KernelShared) as ->.
  { change 0x7ff with (Z.ones 11). rewrite Z.land_ones by done. change (2 ^ 11) with 0x800. unfold KernelShared in *.
    Z.div_mod_to_equations. lia. }
  set (o := a - KernelShared) in *. assert (0 <= o < 2 ^ 11) as Ho by (unfold o; lia).
  assert (Z.land UserShared o = 0) as Hd.
  { apply Z.bits_inj'. intros n Hn. rewrite Z.land_spec, Z.bits_0. destruct (decide (n < 11)) as [Hlt | Hge].
    - replace UserShared with (Z.shiftl 0xFFFC0 11) by reflexivity. by rewrite Z.shiftl_spec_low by lia.
    - rewrite andb_comm. destruct (decide (o = 0)) as [-> |]; [by rewrite Z.bits_0 |].
      rewrite Z.bits_above_log2; [done | lia |]. apply Z.log2_lt_pow2; [lia |].
      apply Z.lt_le_trans with (2 ^ 11); [lia | apply Z.pow_le_mono_r; lia]. }
  rewrite Z.add_nocarry_lxor by done. apply Z.bits_inj'. intros n Hn. rewrite Z.lxor_spec, Z.lor_spec.
  assert (Z.testbit UserShared n && Z.testbit o n = false) as Hb by (rewrite <- Z.land_spec, Hd; apply Z.bits_0).
  by destruct (Z.testbit UserShared n), (Z.testbit o n).
Qed.

(** The loop from the register after [l1] on. *)
Lemma fix_registers_run addr l2 : shared_data addr = true -> forall l1 found s,
  registers (ContextRecord s) = l1 ++ l2 -> length (l1 ++ l2) = 16%nat ->
  fix_registers (length l2) (Z.of_nat (length l1)) addr found s =
  Ok (found || existsb (Z.eqb addr) l2,
      mkPointers (ExceptionRecord s) (set_registers (l1 ++ (as_user addr <$> l2)) (ContextRecord s))).
Proof.
  intros Hs. induction l2 as [| v l2 IH]; intros l1 found s El Hl.
  - cbn. rewrite orb_false_r, <- El. by destruct s as [? []].
  - cbn [fix_registers length].
    rewrite (bind_run _ _ _ _ _ (get_register_run (Z.of_nat (length l1)) s ltac:(by rewrite El) ltac:(rewrite length_app in Hl; simpl in Hl; lia))).
    rewrite El, Nat2Z.id, list_lookup_middle by done. cbn [default existsb]. 
    specialize (IH (l1 ++ [as_user addr v])). replace (Z.of_nat (length (l1 ++ [as_user addr v]))) with (Z.of_nat (length l1) + 1) in IH by (rewrite length_app; simpl; lia).
    unfold id in *. rewrite (Z.eqb_sym addr v). destruct (v =? addr) eqn:Ev.
    + apply Z.eqb_eq in Ev as ->.
      rewrite (bind_run _ _ _ _ _ (put_register_run (Z.of_nat (length l1)) _ s ltac:(by rewrite El) ltac:(rewrite length_app in Hl; simpl in Hl; lia))).
      rewrite El, Nat2Z.id, (insert_app_r_alt l1) by lia. rewrite Nat.sub_diag. cbn [insert list_insert].
      rewrite shared_offset by done.
      replace (as_user addr addr) with (UserShared + (addr - KernelShared)) in IH by (unfold as_user; by rewrite Z.eqb_refl).
      rewrite IH; cbn [ContextRecord ExceptionRecord set_registers registers]; [| by rewrite <- app_assoc | revert Hl; rewrite !length_app; simpl; lia].
      replace (UserShared + (addr - KernelShared)) with (as_user addr addr) by (unfold as_user; by rewrite Z.eqb_refl).
      rewrite fmap_cons, <- app_assoc, orb_true_r. by destruct s as [? []].
    + replace (as_user addr v) with v in IH by (unfold as_user; by rewrite Ev).
      rewrite IH; [| by rewrite El, <- app_assoc | revert Hl; rewrite !length_app; simpl; lia].
      rewrite fmap_cons, <- app_assoc. unfold as_user at 2. by rewrite Ev.
Qed.

Lemma as_user_absent addr (l : list Z) : addr ∉ l -> as_user addr <$> l = l.
Proof.
  intros Hin. rewrite <- (list_fmap_id l) at 2. apply list_fmap_ext. intros i v Hv. unfold as_user.
  destruct (v =? addr) eqn:Ev; [| done]. apply Z.eqb_eq in Ev as ->. destruct Hin. by eapply list_elem_of_lookup_2.
Qed.

(** C28. A read of the kernel's address of the shared data is retried at the same place of
    the data as a process sees it, by changing every register that holds the address and
    no other; a write, a fault elsewhere and one whose address is in no register are left
    to the next handler. *)
Theorem DdkAccessException_spec s kind addr rest (Hl : length (registers (ContextRecord s)) = 16%nat)
  (Hn : NumberParameters (ExceptionRecord s) = 2) (Hi : ExceptionInformation (ExceptionRecord s) = kind :: addr :: rest) :
  DdkAccessException s = Ok (
    if (kind =? 0) && shared_data addr && bool_decide (addr ∈ registers (ContextRecord s)) then
      (EXCEPTION_CONTINUE_EXECUTION,
       mkPointers (ExceptionRecord s) (set_registers (as_user addr <$> registers (ContextRecord s)) (ContextRecord s)))
    else (EXCEPTION_CONTINUE_SEARCH, s)).
Proof.
  assert (forall l, existsb (Z.eqb addr) l = bool_decide (addr ∈ l)) as Ex.
  { intros l. apply eq_bool_prop_intro. rewrite bool_decide_spec, Is_true_true, existsb_exists. split.
    - intros (x & Hx & E). apply Z.eqb_eq in E as ->. by apply list_elem_of_In.
    - intros Hx. exists addr. split; [by apply list_elem_of_In | apply Z.eqb_refl]. }
  unfold DdkAccessException. rewrite (bind_run _ _ s (ExceptionRecord s) s eq_refl), Hn, Hi. cbn [negb Z.eqb Pos.eqb].
  rewrite (bind_run _ _ s kind s eq_refl). destruct (kind =? 0); [| done]. cbn [negb andb].
  assert (lift (array_get (kind :: addr :: rest) 1) s = Ok (addr, s)) as R1.
  { destruct (array_get_ok (kind :: addr :: rest) 1) as (v & E & El); [simpl; lia |]. injection El as <-. unfold lift. by rewrite E. }
  rewrite (bind_run _ _ _ _ _ R1). fold (shared_data addr). destruct (shared_data addr) eqn:Hs; [| done]. cbn [andb].
  pose proof (fix_registers_run addr (registers (ContextRecord s)) Hs [] false s eq_refl Hl) as R. rewrite Hl in R.
  rewrite (bind_run _ _ _ _ _ R). cbn [orb app]. rewrite Ex. case_bool_decide as Hin; [done |].
  rewrite as_user_absent by done. by destruct s as [? []].
Qed.

(** ** The other exceptions *)

(** Nothing but an assertion's record is changed, and the registers never are. *)
Lemma DdkExceptionHandler_other m s : let r := ExceptionRecord s in
  ExceptionCode r <> EXCEPTION_ACCESS_VIOLATION -> ExceptionCode r <> EXCEPTION_PRIV_INSTRUCTION ->
  (2 <= length (ExceptionInformation r))%nat ->
  DdkExceptionHandler m s = Ok (EXCEPTION_CONTINUE_SEARCH,
    if ExceptionCode r =? STATUS_ASSERTION_FAILURE then
      mkPointers (mkRecord EXCEPTION_UNITTEST_ASSERTION (ExceptionAddress r) 2 (0 :: 0 :: drop 2 (ExceptionInformation r))) (ContextRecord s)
    else s).
Proof.
  intros r Ha Hp Hn. unfold DdkExceptionHandler. rewrite (bind_run _ _ s r s eq_refl).
  apply Z.eqb_neq in Ha, Hp. rewrite Ha, Hp. destruct (ExceptionCode r =? STATUS_ASSERTION_FAILURE); [| done].
  destruct (ExceptionInformation r) as [| x [| y l]]; [simpl in Hn; lia | simpl in Hn; lia |].
  assert (array_set (x :: y :: l) 0 0 = Ok (0 :: y :: l)) as E1 by (rewrite array_set_ok by (simpl; lia); done).
  assert (array_set (0 :: y :: l) 1 0 = Ok (0 :: 0 :: l)) as E2 by (rewrite array_set_ok by (simpl; lia); done).
  unfold lift, mbind, M_bind. rewrite E1. cbn. by rewrite E2.
Qed.

(** A driver that reads CR8 into rax, at level 2. *)
Definition sample_registers : list Z := [7; KernelShared + 0x14; 0; 0; 0x80; 0; 0; 0; 0; KernelShared + 0x14; 0; 0; 0; 0; 0; 0].
Definition sample_code : mem := list_to_map [(0x1000, 0x4c); (0x1001, 0x0f); (0x1002, 0x20); (0x1003, 0xc2)].
Definition sample_priv : EXCEPTION_POINTERS :=
  mkPointers (mkRecord EXCEPTION_PRIV_INSTRUCTION 0x1000 0 (replicate 15 0)) (mkContext sample_registers 0x1000 2).

(** And one that reads the tick count of the shared data. *)
Definition sample_access : EXCEPTION_POINTERS :=
  mkPointers (mkRecord EXCEPTION_ACCESS_VIOLATION 0x1000 2 (0 :: (KernelShared + 0x14) :: replicate 13 0)) (mkContext sample_registers 0x1000 0).

Lemma DdkPrivException_emulates_witness :
  DdkExceptionHandler sample_code sample_priv =
    Ok (EXCEPTION_CONTINUE_EXECUTION, mkPointers (ExceptionRecord sample_priv) (mkContext (<[2%nat := 2]> sample_registers) 0x1004 2)) /\
  ((exists wide i, 0 <= register_of i < 16 /\ [0x4c; 0x0f; 0x20; 0xc2] = encode_instruction wide i /\
     DdkPrivException sample_code sample_priv =
       Ok (EXCEPTION_CONTINUE_EXECUTION, mkPointers (ExceptionRecord sample_priv) (execute i (ContextRecord sample_priv)))) \/
   (forall wide i, 0 <= register_of i < 16 -> [0x4c; 0x0f; 0x20; 0xc2] <> encode_instruction wide i) /\
     DdkPrivException sample_code sample_priv = Ok (EXCEPTION_CONTINUE_SEARCH, sample_priv)).
Proof.
  split; [vm_compute; reflexivity |].
  apply (DdkPrivException_emulates sample_code sample_priv [0x4c; 0x0f; 0x20; 0xc2]); [reflexivity | | vm_compute; reflexivity].
  repeat constructor; lia.
Defined.

Lemma DdkAccessException_spec_witness :
  DdkExceptionHandler ∅ sample_access =
    Ok (EXCEPTION_CONTINUE_EXECUTION, mkPointers (ExceptionRecord sample_access)
      (mkContext (<[1%nat := 0x7FFE0014]> (<[9%nat := 0x7FFE0014]> sample_registers)) 0x1000 0)) /\
  DdkAccessException sample_access = Ok (
    if (0 =? 0) && shared_data (KernelShared + 0x14) && bool_decide (KernelShared + 0x14 ∈ registers (ContextRecord sample_access)) then
      (EXCEPTION_CONTINUE_EXECUTION,
       mkPointers (ExceptionRecord sample_access)
         (set_registers (as_user (KernelShared + 0x14) <$> registers (ContextRecord sample_access)) (ContextRecord sample_access)))
    else (EXCEPTION_CONTINUE_SEARCH, sample_access)).
Proof.
  split; [vm_compute; reflexivity |].
  apply (DdkAccessException_spec sample_access 0 (KernelShared + 0x14) (replicate 13 0)); reflexivity.
Defined.
