(* ===== verification/Threads.v ===== *)
(** * Threads: the threads and processes of the kernel (thread.cpp)

    Each host thread has its current thread and process in variables of its own ([tls]),
    and in the block that the inline routines of the WDK look at ([SoftFpcr]).  The thread
    objects of the host threads are linked through [next]; the header of an object is in the heap
    of [Objects] and the rest of it in [bodies] and [processes].

    [me] is what [GetCurrentThreadId] returns.  What [calloc], [DuplicateHandle] and
    [CreateThread] return are arguments.  A call runs on its own, but for the creation
    of a thread, which the new thread can overtake: it is in two parts.  [Lock] is
    exclusive and cannot be entered again. *)

From S2P Require Import Prelude Strings Objects.
From S2P Require Detours.

(** ** Data *)

Record THREAD := mkThread {
  Start : Z;
  Context : Z;
  process : Z;
  Priority : Z;
  BasePriority : Z;
  ThreadId : Z;
  next : Z
}.

(** What a host thread keeps for itself, zero at first. *)
Record TLS := mkTLS { DdkCurrentThread : Z; DdkCurrentProcess : Z; SoftFpcr : Z }.

Definition no_tls : TLS := mkTLS 0 0 0.

Definition DefaultThreadPriority : Z := 8.
Definition DefaultBaseThreadPriority : Z := 16.

Definition set_ThreadId v t := mkThread (Start t) (Context t) (process t) (Priority t) (BasePriority t) v (next t).
Definition set_next v t := mkThread (Start t) (Context t) (process t) (Priority t) (BasePriority t) (ThreadId t) v.
Definition set_Priority v t := mkThread (Start t) (Context t) (process t) v (BasePriority t) (ThreadId t) (next t).
Definition set_BasePriority v t := mkThread (Start t) (Context t) (process t) (Priority t) v (ThreadId t) (next t).

(** The pseudo handle of a thread, and where the process object is. *)
Class HOST_THREADS := { GetCurrentThread : Z; SystemProcess : Z }.

Section threads.
Context `{Environment} `{Locale} `{Detours.DETOURS} `{HOST_THREADS}.

(** [processes]: the [BasePriority] of each process object. *)
Record state := mkState {
  kern : kernel;
  bodies : gmap Z THREAD;
  processes : gmap Z Z;
  PsInitialSystemProcess : Z;
  threadlist : Z;
  Locked : bool;
  tls : gmap Z TLS;
  detours : Detours.state
}.

Definition T := M state.

Definition set_bodies f s := mkState (kern s) (f (bodies s)) (processes s) (PsInitialSystemProcess s) (threadlist s) (Locked s) (tls s) (detours s).
Definition set_processes f s := mkState (kern s) (bodies s) (f (processes s)) (PsInitialSystemProcess s) (threadlist s) (Locked s) (tls s) (detours s).
Definition set_initial p s := mkState (kern s) (bodies s) (processes s) p (threadlist s) (Locked s) (tls s) (detours s).
Definition set_threadlist p s := mkState (kern s) (bodies s) (processes s) (PsInitialSystemProcess s) p (Locked s) (tls s) (detours s).
Definition set_Locked b s := mkState (kern s) (bodies s) (processes s) (PsInitialSystemProcess s) (threadlist s) b (tls s) (detours s).
Definition set_tls f s := mkState (kern s) (bodies s) (processes s) (PsInitialSystemProcess s) (threadlist s) (Locked s) (f (tls s)) (detours s).
Definition set_detours d s := mkState (kern s) (bodies s) (processes s) (PsInitialSystemProcess s) (threadlist s) (Locked s) (tls s) d.

(** The heap as it is now; what follows the header of an object goes with it. *)
Definition set_kern k s :=
  mkState k (filter (fun kv => is_Some (objects k !! kv.1)) (bodies s)) (processes s) (PsInitialSystemProcess s)
    (threadlist s) (Locked s) (tls s) (detours s).

Definition on_kern {A} (m : K A) : T A := fun s =>
  match m (kern s) with Ok (a, k) => Ok (a, set_kern k s) | Err f => Err f end.

Definition body_at (p : Z) : T THREAD := fun s =>
  match bodies s !! p with Some t => Ok (t, s) | None => Err (BadAccess p) end.

Definition change_body (p : Z) (f : THREAD -> THREAD) : T unit :=
  t ← body_at p; modify (set_bodies <[p := f t]>).

(** [pObj->h = hnd] *)
Definition set_h (p hnd : Z) : K unit :=
  o ← object_at p; put_object p (mkObject (type o) (alloc o) (refcount o) hnd (contents o)).

Definition base_priority (p : Z) : T Z := fun s =>
  match processes s !! p with Some n => Ok (n, s) | None => Err (BadAccess p) end.

Definition my (me : Z) (s : state) : TLS := default no_tls (tls s !! me).

Definition my_thread (me : Z) : T Z := fun s => Ok (DdkCurrentThread (my me s), s).
Definition my_process (me : Z) : T Z := fun s => Ok (DdkCurrentProcess (my me s), s).

Definition change_tls (me : Z) (f : TLS -> TLS) : T unit :=
  modify (fun s => set_tls <[me := f (my me s)]> s).

Definition set_thread p l := mkTLS p (DdkCurrentProcess l) (SoftFpcr l).
Definition set_process p l := mkTLS (DdkCurrentThread l) p (SoftFpcr l).
Definition set_SoftFpcr p l := mkTLS (DdkCurrentThread l) (DdkCurrentProcess l) p.

(** ** The list *)

Definition DdkThreadLock : T unit := fun s =>
  if Locked s then Err (DdkFailed "AcquireSRWLockExclusive does not return") else Ok (tt, set_Locked true s).

Definition DdkThreadUnlock : T unit := modify (set_Locked false).

(** As many nodes as there are. *)
Definition list_fuel : T nat := fun s => Ok (S (size (bodies s)), s).

(** Whether no thread from [p] on has the id. *)
Fixpoint no_such_id (fuel : nat) (p id : Z) : T unit :=
  match fuel with
  | O => fail NoFuel
  | S fuel =>
      if p =? 0 then mret tt else
      t ← body_at p;
      if ThreadId t =? id then fail (DdkFailed "Thread already in list")
      else no_such_id fuel (next t) id
  end.

Definition DdkInsertThread (me : Z) : T unit :=
  _ ← DdkThreadLock;
  p ← my_thread me;
  _ ← change_body p (set_ThreadId me);
  t ← body_at p;
  fuel ← list_fuel;
  s ← get;
  _ ← no_such_id fuel (threadlist s) (ThreadId t);
  _ ← change_body p (set_next (threadlist s));
  _ ← modify (set_threadlist p);
  DdkThreadUnlock.

(** [*pp], where [pp] is the head of the list or the [next] of a thread. *)
Definition link_at (pp : option Z) : T Z :=
  match pp with None => fun s => Ok (threadlist s, s) | Some q => t ← body_at q; mret (next t) end.

Definition set_link (pp : option Z) (v : Z) : T unit :=
  match pp with None => modify (set_threadlist v) | Some q => change_body q (set_next v) end.

(** Takes [cur] out of the list. *)
Fixpoint unlink (fuel : nat) (pp : option Z) (cur : Z) : T unit :=
  match fuel with
  | O => fail NoFuel
  | S fuel =>
      p ← link_at pp;
      if p =? 0 then mret tt else
      if p =? cur then
        t ← body_at cur;
        _ ← set_link pp (next t);
        change_body cur (set_next 0)
      else unlink fuel (Some p) cur
  end.

(** The loop of [DdkInvokeForAllThreads]: [handle p] is the handle it passes. *)
Fixpoint invoke (fuel : nat) (func : Z -> T Z) (cur p : Z) : T Z :=
  match fuel with
  | O => fail NoFuel
  | S fuel =>
      if p =? 0 then mret Detours.NO_ERROR else
      o ← on_kern (object_at p);
      rc ← func (if p =? cur then GetCurrentThread else h o);
      if negb (rc =? Detours.NO_ERROR) then mret rc else
      t ← body_at p;
      invoke fuel func cur (next t)
  end.

Definition DdkInvokeForAllThreads (me : Z) (func : Z -> T Z) : T Z :=
  cur ← my_thread me;
  fuel ← list_fuel;
  s ← get;
  invoke fuel func cur (threadlist s).

(** ** The current thread *)

(** The first call makes the process object of the kernel. *)
Definition init_process : T unit :=
  o ← on_kern (object_at SystemProcess);
  if negb (type o =? ProcessType) then
    _ ← on_kern (put_object SystemProcess (mkObject ProcessType (alloc o) (refcount o) GetCurrentProcess (contents o)));
    _ ← modify (set_processes <[SystemProcess := DefaultBaseThreadPriority]>);
    _ ← on_kern (InterlockedIncrement SystemProcess);
    q ← on_kern (ToPointer SystemProcess);
    modify (set_initial q)
  else mret tt.

(** And a host thread without one gets its thread object. *)
Definition init_thread (me : Z) (calloc dup : option Z) : T unit :=
  r ← on_kern (DdkAllocObject calloc ThreadType Plain false);
  match r with
  | None => fail (BadAccess 0)
  | Some p =>
      _ ← change_tls me (set_thread p);
      _ ← modify (set_bodies <[p := mkThread 0 0 SystemProcess DefaultThreadPriority DefaultBaseThreadPriority 0 0]>);
      match dup with
      | None => fail (DdkFailed "Failed to duplicate thread handle")
      | Some hnd =>
          _ ← on_kern (set_h p hnd);
          DdkInsertThread me
      end
  end.

Definition DdkThreadInit (me : Z) (calloc dup : option Z) : T unit :=
  _ ← init_process;
  proc ← my_process me;
  _ ← (if proc =? 0 then change_tls me (set_process SystemProcess) else mret tt);
  cur ← my_thread me;
  _ ← (if cur =? 0 then init_thread me calloc dup else mret tt);
  cur ← my_thread me;
  change_tls me (set_SoftFpcr cur).

Definition DdkGetCurrentThread (me : Z) (calloc dup : option Z) : T Z :=
  cur ← my_thread me;
  _ ← (if cur =? 0 then DdkThreadInit me calloc dup else mret tt);
  cur ← my_thread me;
  on_kern (ToPointer cur).

(** [DetourUpdateThread] of detours.cpp is called for all threads there are. *)
Fixpoint handles (fuel : nat) (cur p : Z) : T (list Z) :=
  match fuel with
  | O => fail NoFuel
  | S fuel =>
      if p =? 0 then mret [] else
      o ← on_kern (object_at p);
      t ← body_at p;
      l ← handles fuel cur (next t);
      mret ((if p =? cur then GetCurrentThread else h o) :: l)
  end.

Definition set_threads l (d : Detours.state) : Detours.state :=
  Detours.mkState (Detours.regions d) (Detours.regionlist d) (Detours.entries d) l (Detours.realpointer d) (Detours.library d).

Definition on_detours {A} (me : Z) (m : Detours.D A) : T A :=
  cur ← my_thread me;
  fuel ← list_fuel;
  s ← get;
  l ← handles fuel cur (threadlist s);
  match m (set_threads l (detours s)) with
  | Ok (a, d) => _ ← modify (set_detours d); mret a
  | Err f => fail f
  end.

Definition DdkThreadDeinit (me : Z) : T unit :=
  cur ← my_thread me;
  if cur =? 0 then mret tt else
  q ← DdkGetCurrentThread me None None;
  _ ← on_detours me (Detours.DdkDetachIntercept 0 q);
  _ ← DdkThreadLock;
  fuel ← list_fuel;
  _ ← unlink fuel None cur;
  _ ← on_kern (DdkDereferenceObject cur);
  _ ← change_tls me (set_thread 0);
  DdkThreadUnlock.

(** ** System threads *)

Definition GetProcess (p : Z) : T Z :=
  if p =? 0 then fail (DdkFailed "Invalid process specified") else
  o ← on_kern (object_at p);
  if negb (type o =? ProcessType) then fail (DdkFailed "Invalid process specified") else mret p.

Definition GetThread (p : Z) : T Z :=
  if p =? 0 then fail (DdkFailed "Invalid thread specified") else
  o ← on_kern (object_at p);
  if negb (type o =? ThreadType) then fail (DdkFailed "Invalid thread specified") else mret p.

(** [PsCreateSystemThread] up to the call of [CreateThread]: the thread object, or none
    when there is no memory.  [init] is what [DdkThreadInit] finds. *)
Definition create_begin (me : Z) (init : option Z * option Z) (calloc : option Z)
    (ProcessHandle StartRoutine StartContext : Z) : T (option Z) :=
  _ ← DdkThreadInit me init.1 init.2;
  _ ← on_kern at_passive;
  pProcess ← (if ProcessHandle =? 0 then mret SystemProcess
              else p ← on_kern (FromHandle ProcessHandle); GetProcess p);
  r ← on_kern (DdkAllocObject calloc ThreadType Plain true);
  match r with
  | None => mret None
  | Some p =>
      _ ← modify (set_bodies <[p :=
            mkThread StartRoutine StartContext pProcess DefaultThreadPriority DefaultBaseThreadPriority 0 0]>);
      _ ← on_kern (DdkReferenceObject p);
      mret (Some p)
  end.

(** And from there on: [hnd] is the handle of the thread, 0 if there is none. *)
Definition create_end (p hnd : Z) : T (Z * option Z) :=
  _ ← on_kern (set_h p hnd);
  o ← on_kern (object_at p);
  if h o =? 0 then
    _ ← on_kern (modify (fun k => log (Freed p) (set_objects (delete p (objects k)) k)));
    mret (STATUS_INSUFFICIENT_RESOURCES, None)
  else mret (STATUS_SUCCESS, Some (ToHandle p)).

Definition PsCreateSystemThread (me : Z) (init : option Z * option Z) (calloc : option Z)
    (CreateThread ProcessHandle StartRoutine StartContext : Z) : T (Z * option Z) :=
  r ← create_begin me init calloc ProcessHandle StartRoutine StartContext;
  match r with
  | None => mret (STATUS_INSUFFICIENT_RESOURCES, None)
  | Some p => create_end p CreateThread
  end.

(** [StartThread] until the routine of the driver is called, once the handle is there;
    returns what it calls. *)
Definition StartThread (me : Z) (pThread : Z) : T (Z * Z) :=
  o ← on_kern (object_at pThread);
  if h o =? 0 then fail NoFuel else
  _ ← DdkThreadDeinit me;
  _ ← change_tls me (set_thread pThread);
  t ← body_at pThread;
  _ ← change_tls me (set_process (process t));
  _ ← DdkThreadInit me None None;
  _ ← DdkInsertThread me;
  mret (Start t, Context t).

(** Until [ExitThread] ends the thread. *)
Definition PsTerminateSystemThread (me : Z) : T unit :=
  _ ← on_kern at_passive;
  DdkThreadDeinit me.

(** ** Queries *)

Definition IoGetCurrentProcess (me : Z) (init : option Z * option Z) : T Z :=
  _ ← DdkThreadInit me init.1 init.2; p ← my_process me; on_kern (ToPointer p).

Definition PsGetCurrentProcessId (me : Z) (init : option Z * option Z) : T Z :=
  _ ← DdkThreadInit me init.1 init.2; p ← my_process me; mret (ToHandle p).

Definition KeGetCurrentThread (me : Z) (init : option Z * option Z) : T Z :=
  _ ← DdkThreadInit me init.1 init.2; p ← my_thread me; on_kern (ToPointer p).

Definition PsGetCurrentThread := KeGetCurrentThread.

Definition PsGetCurrentThreadId (me : Z) (init : option Z * option Z) : T Z :=
  _ ← DdkThreadInit me init.1 init.2; p ← my_thread me; mret (ToHandle p).

Definition PsGetProcessId (me : Z) (init : option Z * option Z) (Process : Z) : T Z :=
  _ ← DdkThreadInit me init.1 init.2;
  q ← on_kern (FromPointer Process);
  p ← GetProcess q;
  mret (ToHandle p).

Definition PsIsSystemThread (Thread : Z) : T bool :=
  _ ← on_kern at_dispatch;
  q ← on_kern (FromPointer Thread);
  p ← GetThread q;
  t ← body_at p;
  mret (process t =? SystemProcess).

(** ** Priorities *)

Definition KeQueryPriorityThread (Thread : Z) : T Z :=
  _ ← on_kern at_passive;
  q ← on_kern (FromPointer Thread);
  p ← GetThread q;
  t ← body_at p;
  mret (Priority t).

Definition KeSetPriorityThread (Thread NewPriority : Z) : T Z :=
  _ ← on_kern at_passive;
  oldPriority ← KeQueryPriorityThread Thread;
  let newPriority := if NewPriority <? 0 then 0 else if NewPriority >? 31 then 31 else NewPriority in
  q ← on_kern (FromPointer Thread);
  p ← GetThread q;
  _ ← change_body p (set_Priority newPriority);
  mret oldPriority.

Definition KeSetBasePriorityThread (Thread Increment : Z) : T Z :=
  _ ← on_kern at_passive;
  q ← on_kern (FromPointer Thread);
  p ← GetThread q;
  t ← body_at p;
  let oldBase := BasePriority t in
  b ← base_priority (process t);
  let newBase := s32 (b + Increment) in
  let newBase := if newBase >? 31 then 31 else if newBase <? 0 then 0 else newBase in
  _ ← change_body p (set_BasePriority newBase);
  t ← body_at p;
  b ← base_priority (process t);
  mret (oldBase - b).
End threads.
