(* ===== verification/ThreadsInv.v ===== *)
(** * ThreadsInv: what holds of the threads between two calls

    What the loops over the list give where it is well formed; [inv], which ties the
    list, the current threads of the host threads and the thread objects together; and
    what freeing a thread object does. *)

From S2P Require Import Prelude Strings Objects Threads ObjectsSpec.
From S2P Require Detours DetoursInv DetoursSpec HandleSpec.

(** [func] on each handle in turn, until one fails. *)
Fixpoint each {S} (func : Z -> M S Z) (hs : list Z) : M S Z :=
  match hs with
  | [] => mret Detours.NO_ERROR
  | x :: hs => rc ← func x; if negb (rc =? Detours.NO_ERROR) then mret rc else each func hs
  end.

Section loops.
Context `{Environment} `{Locale} `{Detours.DETOURS} `{HOST_THREADS}.

Implicit Types s : state.

Lemma tbind {A B} (m : T A) (k : A -> T B) s a s' : m s = Ok (a, s') -> (m ≫= k) s = k a s'.
Proof. apply bind_run. Qed.

Lemma body_at_run s p t : bodies s !! p = Some t -> body_at p s = Ok (t, s).
Proof. intros E. unfold body_at. by rewrite E. Qed.

Lemma change_body_run s p t f : bodies s !! p = Some t -> change_body p f s = Ok (tt, set_bodies <[p := f t]> s).
Proof. intros E. unfold change_body. by rewrite (tbind _ _ s t s (body_at_run s p t E)). Qed.

(** The heap is not touched by reading it. *)
Definition placed s : Prop := forall p, is_Some (bodies s !! p) -> is_Some (objects (kern s) !! p).

Lemma set_kern_bodies k s : (forall p, is_Some (bodies s !! p) -> is_Some (objects k !! p)) ->
  set_kern k s = mkState k (bodies s) (processes s) (PsInitialSystemProcess s) (threadlist s) (Locked s) (tls s) (detours s).
Proof. intros Hp. unfold set_kern. f_equal. apply map_filter_id. intros p t Et. cbn. eauto. Qed.

Lemma set_kern_id s : placed s -> set_kern (kern s) s = s.
Proof. intros Hp. rewrite set_kern_bodies by done. by destruct s. Qed.

Lemma on_kern_read {A} (m : K A) s a : placed s -> m (kern s) = Ok (a, kern s) -> on_kern m s = Ok (a, s).
Proof. intros Hp E. unfold on_kern. by rewrite E, set_kern_id. Qed.

Lemma kern_run {A} (m : K A) s a k : m (kern s) = Ok (a, k) -> on_kern m s = Ok (a, set_kern k s).
Proof. intros E. unfold on_kern. by rewrite E. Qed.

Lemma object_read s p o : placed s -> objects (kern s) !! p = Some o -> on_kern (object_at p) s = Ok (o, s).
Proof. intros Hp E. apply on_kern_read; [done |]. unfold object_at. by rewrite E. Qed.

(** ** No such id *)

Lemma no_such_id_run s id l : forall p fuel, lseg next (bodies s) p l ->
  (forall q t, q ∈ l -> bodies s !! q = Some t -> ThreadId t <> id) -> (length l < fuel)%nat ->
  no_such_id fuel p id s = Ok (tt, s).
Proof.
  induction l as [| q l IH]; intros p fuel L Hid Hf; (destruct fuel as [| fuel]; [simpl in Hf; lia |]); cbn [no_such_id].
  - rewrite L. done.
  - destruct L as (-> & N & t & E & L). apply Z.eqb_neq in N. rewrite N.
    rewrite (tbind _ _ s t s (body_at_run s q t E)).
    destruct (Z.eqb_spec (ThreadId t) id) as [Ei |]; [by destruct (Hid q t ltac:(by left) E) |].
    apply IH; [done | | simpl in Hf; lia]. intros q' t' Hq. apply Hid. by right.
Qed.

(** ** Taking a thread out *)

Lemma alter_as_insert {A} (f : A -> A) (m : gmap Z A) q a : m !! q = Some a -> alter f q m = <[q := f a]> m.
Proof.
  intros E. apply map_eq. intros i. destruct (decide (q = i)) as [<- |].
  - by rewrite lookup_alter_eq, lookup_insert_eq, E.
  - by rewrite lookup_alter_ne, lookup_insert_ne.
Qed.

(** The list and what is linked once [cur] is out. *)
Definition unlinked (pre : list Z) (cur : Z) (t : THREAD) s : state :=
  set_bodies <[cur := set_next 0 t]>
    (match last pre with
     | None => set_threadlist (next t) s
     | Some q => set_bodies (alter (set_next (next t)) q) s
     end).

Lemma link_at_run s L pre p post : lseg next (bodies s) (threadlist s) L -> L = pre ++ p :: post ->
  link_at (last pre) s = Ok (p, s).
Proof.
  intros Ls ->. destruct (last pre) as [q |] eqn:Eq; cbn.
  - apply last_Some in Eq as (pre' & ->). rewrite <- app_assoc in Ls. cbn in Ls.
    destruct (lseg_suffix _ _ _ _ _ _ Ls) as (t & E & L' & _). rewrite (tbind _ _ s t s (body_at_run s q t E)).
    destruct L' as (-> & _). done.
  - apply last_None in Eq as ->. destruct Ls as (-> & _). done.
Qed.

Lemma unlink_run cur s L : lseg next (bodies s) (threadlist s) L -> forall pre mid post t fuel,
  L = pre ++ mid ++ cur :: post -> bodies s !! cur = Some t -> (length mid < fuel)%nat ->
  unlink fuel (last pre) cur s = Ok (tt, unlinked (pre ++ mid) cur t s).
Proof.
  intros Ls pre mid. revert pre. pose proof (lseg_nodup _ _ _ _ Ls) as Nd.
  induction mid as [| q mid IH]; intros pre post t fuel EL E Hf; (destruct fuel as [| fuel]; [simpl in Hf; lia |]); cbn [unlink].
  - cbn in EL. rewrite (tbind _ _ s cur s (link_at_run s L pre cur post Ls EL)).
    assert (cur <> 0) as N by (eapply lseg_live; [exact Ls | rewrite EL; set_solver]).
    destruct (Z.eqb_spec cur 0); [done |]. rewrite Z.eqb_refl. rewrite app_nil_r.
    rewrite (tbind _ _ s t s (body_at_run s cur t E)). unfold unlinked.
    destruct (last pre) as [q |] eqn:Eq; cbn [set_link].
    + assert (q ∈ pre) as Hq by (by apply last_Some_elem_of).
      assert (exists tq, bodies s !! q = Some tq) as (tq & Etq) by (eapply lseg_live; [exact Ls | rewrite EL; set_solver]).
      assert (q <> cur) as Nq. { intros ->. rewrite EL in Nd. apply NoDup_app in Nd as (_ & Dj & _). apply (Dj cur Hq). by left. }
      rewrite (tbind _ _ s tt _ (change_body_run s q tq _ Etq)).
      rewrite (change_body_run _ cur t); [| cbn; by rewrite lookup_insert_ne by done].
      unfold set_bodies. cbn. by rewrite (alter_as_insert _ _ q tq Etq).
    + cbn [set_link]. rewrite (tbind (modify _) _ s tt (set_threadlist (next t) s)) by done.
      by rewrite (change_body_run _ cur t).
  - assert (L = pre ++ q :: (mid ++ cur :: post)) as EL' by (rewrite EL; done).
    rewrite (tbind _ _ s q s (link_at_run s L pre q _ Ls EL')).
    assert (q <> 0) as N by (eapply lseg_live; [exact Ls | rewrite EL; set_solver]).
    destruct (Z.eqb_spec q 0); [done |].
    assert (q <> cur) as Nq.
    { intros ->. rewrite EL' in Nd. apply NoDup_app in Nd as (_ & _ & Nd). apply NoDup_cons in Nd as [Nd _]. set_solver. }
    destruct (Z.eqb_spec q cur); [done |].
    specialize (IH (pre ++ [q]) post t fuel). rewrite last_snoc, <- !app_assoc in IH. cbn in IH.
    rewrite IH; [done | done | done | simpl in Hf; lia].
Qed.

(** ** All threads *)

Definition handle_of (cur : Z) s (p : Z) : Z :=
  if p =? cur then GetCurrentThread else default 0 (h <$> objects (kern s) !! p).

Lemma handles_run s cur l : placed s -> forall p fuel, lseg next (bodies s) p l -> (length l < fuel)%nat ->
  handles fuel cur p s = Ok (handle_of cur s <$> l, s).
Proof.
  intros Hp. induction l as [| q l IH]; intros p fuel L Hf; (destruct fuel as [| fuel]; [simpl in Hf; lia |]); cbn [handles].
  - by rewrite L.
  - destruct L as (-> & N & t & E & L). apply Z.eqb_neq in N. rewrite N.
    destruct (Hp q ltac:(eauto)) as [o Eo].
    rewrite (tbind _ _ s o s (object_read s q o Hp Eo)), (tbind _ _ s t s (body_at_run s q t E)).
    rewrite (tbind _ _ s _ s (IH _ fuel L ltac:(simpl in Hf; lia))).
    assert (handle_of cur s q = if q =? cur then GetCurrentThread else h o) as Eh by (unfold handle_of; by rewrite Eo).
    by rewrite fmap_cons, Eh.
Qed.

(** A function that leaves the threads alone. *)
Definition steady (func : Z -> T Z) : Prop := forall hnd s rc s', func hnd s = Ok (rc, s') ->
  kern s' = kern s /\ bodies s' = bodies s.

Lemma each_bodies func hs : steady func -> forall s rc s', each func hs s = Ok (rc, s') -> kern s' = kern s /\ bodies s' = bodies s.
Proof.
  intros Hs. induction hs as [| x hs IH]; intros s rc s' E; cbn [each] in E.
  - injection E as _ <-. done.
  - unfold mbind, M_bind in E. destruct (func x s) as [[rc1 s1] |] eqn:E1; [| done].
    apply Hs in E1 as [K1 B1]. destruct (negb (rc1 =? Detours.NO_ERROR)).
    + injection E as _ <-. done.
    + apply IH in E as [K2 B2]. split; congruence.
Qed.

Lemma invoke_run func cur l : steady func -> forall s p fuel, placed s -> lseg next (bodies s) p l -> (length l < fuel)%nat ->
  invoke fuel func cur p s = each func (handle_of cur s <$> l) s.
Proof.
  intros Hs. induction l as [| q l IH]; intros s p fuel Hp L Hf; (destruct fuel as [| fuel]; [simpl in Hf; lia |]); cbn [invoke].
  - by rewrite L.
  - destruct L as (-> & N & t & E & L). apply Z.eqb_neq in N. rewrite N.
    destruct (Hp q ltac:(eauto)) as [o Eo].
    rewrite (tbind _ _ s o s (object_read s q o Hp Eo)). rewrite fmap_cons. cbn [each].
    assert (handle_of cur s q = if q =? cur then GetCurrentThread else h o) as Eh by (unfold handle_of; by rewrite Eo).
    rewrite Eh. unfold mbind, M_bind. destruct (func _ s) as [[rc s1] |] eqn:E1; [| done].
    apply Hs in E1 as [K1 B1]. destruct (negb (rc =? Detours.NO_ERROR)); [done |].
    rewrite (body_at_run s1 q t) by (by rewrite B1).
    rewrite (IH s1) by (unfold placed; rewrite ?K1, ?B1; try done; simpl in Hf; lia).
    f_equal. apply list_fmap_ext. intros i x _. unfold handle_of. by rewrite K1.
Qed.
End loops.

(** * what holds of the threads between two calls

    [inv] ties the list, the current threads of the host threads and the thread objects
    together, with the references that are held by the code itself; the lemmas say what
    the pieces of the calls do to it. *)

(** ** The invariant *)

(** What a host thread is doing: [Creating p hnd]: it is in [PsCreateSystemThread], behind
    the call of [CreateThread], which returned [hnd]; [Starting p]: in [StartThread],
    before the list is changed. *)
Inductive stage :=
  | Running
  | Creating (p hnd : Z)
  | Starting (p : Z).

#[global] Instance stage_eq_dec : EqDecision stage.
Proof. solve_decision. Defined.

Definition creates (p : Z) (st : stage) : Prop := match st with Creating q _ => q = p | _ => False end.
Definition fails (p : Z) (st : stage) : Prop := match st with Creating q hnd => q = p /\ hnd = 0 | _ => False end.
Definition starts (p : Z) (st : stage) : Prop := match st with Starting q => q = p | _ => False end.

#[global] Instance creates_dec p st : Decision (creates p st).
Proof. destruct st; cbn; apply _. Defined.
#[global] Instance fails_dec p st : Decision (fails p st).
Proof. destruct st; cbn; apply _. Defined.
#[global] Instance starts_dec p st : Decision (starts p st).
Proof. destruct st; cbn; apply _. Defined.

Section invariant.
Context `{Environment} `{Locale} `{Detours.DETOURS} `{!DetoursInv.DETOURS_Laws} `{HOST_THREADS}.

Implicit Types s : state.

(** The references to a thread that the code holds: of the creating thread, two if there
    is no new one, of the thread that is to start with it and of the one it is the
    current thread of. *)
Definition uses (hs : gmap Z stage) s (p : Z) : Z :=
  Z.of_nat (tally (creates p) hs + tally (fails p) hs + tally (starts p) hs + tally (fun l => DdkCurrentThread l = p) (tls s)).

(** The other references of a thread object. *)
Definition client (hs : gmap Z stage) s (p : Z) : Z :=
  match objects (kern s) !! p with
  | Some o => if type o =? ThreadType then refcount o - uses hs s p else 0
  | None => 0
  end.

Lemma client_thread hs s p o : objects (kern s) !! p = Some o -> type o = ThreadType ->
  client hs s p = refcount o - uses hs s p.
Proof. unfold client. intros -> ->. by rewrite Z.eqb_refl. Qed.

Lemma client_none hs s p : objects (kern s) !! p = None -> client hs s p = 0.
Proof. unfold client. by intros ->. Qed.

(** It depends on the object and on what counts as a use of it. *)
Lemma client_same hs hs' s s' p : objects (kern s') !! p = objects (kern s) !! p -> uses hs' s' p = uses hs s p ->
  client hs' s' p = client hs s p.
Proof. unfold client. by intros -> ->. Qed.

Record thread_ok (hs : gmap Z stage) s (p : Z) (o : OBJECT) : Prop := {
  t_address : 0 < p < 2 ^ 64 /\ Z.even p = true;
  t_alloc : alloc o = true;
  t_plain : contents o = Plain;
  t_count : 0 < refcount o < 2 ^ 31 /\ uses hs s p <= refcount o;
  t_handle : (h o <> 0 -> h o <> GetCurrentProcess) /\ (h o = 0 -> (0 < tally (creates p) hs)%nat);
  t_unnamed : forall e, e ∈ DdkNameList (kern s) -> Object e <> p
}.

Definition system_process s : Prop := exists o, objects (kern s) !! SystemProcess = Some o /\ type o = ProcessType.

Record inv (hs : gmap Z stage) s (L : list Z) : Prop := {
  i_list : lseg next (bodies s) (threadlist s) L;
  i_member : forall p, p ∈ L <-> p <> 0 /\ exists t, DdkCurrentThread (my t s) = p;
  i_id : forall t b, bodies s !! DdkCurrentThread (my t s) = Some b -> ThreadId b = t;
  i_bodies : forall p, is_Some (bodies s !! p) <-> exists o, objects (kern s) !! p = Some o /\ type o = ThreadType;
  i_objects : forall p o, objects (kern s) !! p = Some o -> type o = ThreadType -> thread_ok hs s p o;
  i_used : forall p, p <> 0 -> 0 < uses hs s p -> is_Some (bodies s !! p);
  i_handles : forall t p hnd, hs !! t = Some (Creating p hnd) -> p <> 0 /\ (hnd <> 0 -> hnd <> GetCurrentProcess);
  i_fails : forall t p o, hs !! t = Some (Creating p 0) -> objects (kern s) !! p = Some o -> refcount o = 2;
  i_starts : forall t p, hs !! t = Some (Starting p) -> p <> 0;
  i_starting : forall t p, hs !! t = Some (Starting p) -> p ∉ L;
  i_once : forall t u p, hs !! t = Some (Starting p) -> hs !! u = Some (Starting p) -> t = u;
  i_system : exists o, objects (kern s) !! SystemProcess = Some o /\ type o <> ThreadType;
  i_ready : forall p, is_Some (bodies s !! p) -> system_process s;
  i_process : forall p b, bodies s !! p = Some b -> is_Some (processes s !! process b) /\ process b <> 0;
  i_processes : forall p o, objects (kern s) !! p = Some o -> type o = ProcessType -> is_Some (processes s !! p);
  i_tls : forall t, is_Some (tls s !! t) -> is_Some (hs !! t);
  i_zero : bodies s !! 0 = None /\ SystemProcess <> 0;
  i_free : Locked s = false;
  i_irql : CurrentIrql (kern s) = PASSIVE_LEVEL;
  i_names : NoDup (addr <$> DdkNameList (kern s));
  i_named : forall e, e ∈ DdkNameList (kern s) -> is_Some (objects (kern s) !! Object e);
  i_detours : exists A, DetoursSpec.rep (detours s) A
}.

Lemma inv_placed hs s L : inv hs s L -> placed s.
Proof. intros I p Hp. apply (i_bodies _ _ _ I) in Hp as (o & E & _). eauto. Qed.

Lemma my_other me t l s : t <> me -> my t (set_tls <[me := l]> s) = my t s.
Proof. intros Ht. unfold my. cbn. by rewrite lookup_insert_ne. Qed.

Lemma my_self me l s : my me (set_tls <[me := l]> s) = l.
Proof. unfold my. cbn. by rewrite lookup_insert_eq. Qed.

(** Nobody else has the current thread of a host thread. *)
Lemma current_unique hs s L t u : inv hs s L -> DdkCurrentThread (my t s) <> 0 ->
  DdkCurrentThread (my t s) = DdkCurrentThread (my u s) -> t = u.
Proof.
  intros I N E. assert (DdkCurrentThread (my t s) ∈ L) as Hin by (apply (i_member _ _ _ I); eauto).
  destruct (lseg_live _ _ _ _ _ (i_list _ _ _ I) Hin) as [_ [b Eb]].
  rewrite <- (i_id _ _ _ I t b Eb). apply (i_id _ _ _ I u b). by rewrite <- E.
Qed.

(** What [uses] counts of the host thread [me] for its current thread. *)
Definition current_hit s me p : Z := if decide (DdkCurrentThread (my me s) = p) then 1 else 0.

Lemma uses_tls hs s me l p : p <> 0 ->
  uses hs (set_tls <[me := l]> s) p = uses hs s p - current_hit s me p + (if decide (DdkCurrentThread l = p) then 1 else 0).
Proof.
  intros Np. unfold uses, current_hit, my. cbn.
  pose proof (tally_insert (fun l => DdkCurrentThread l = p) (tls s) me l) as Ht. unfold hit in Ht.
  destruct (tls s !! me) as [l0 |] eqn:E; cbn; repeat case_decide; cbn in *; try lia; by simplify_eq.
Qed.

Lemma uses_current hs s me p : p <> 0 -> DdkCurrentThread (my me s) = p -> 1 <= uses hs s p.
Proof.
  intros Np E. unfold my in E. destruct (tls s !! me) as [l |] eqn:El; cbn in E; [| done].
  pose proof (tally_pos (fun l => DdkCurrentThread l = p) (tls s) me l El E). unfold uses. lia.
Qed.

(** ** Pieces of the kernel *)

Lemma thread_pointer_run k p o : objects k !! p = Some o -> type o = ThreadType -> 0 < p -> 0 < refcount o ->
  FromPointer p k = Ok (p, k) /\ ToPointer p k = Ok (p, k).
Proof.
  intros E Et Hp Hc. assert (isValidObject k p = true) as Hv.
  { unfold isValidObject, type_at. rewrite E, Et. by destruct (Z.eqb_spec p 0); [lia |]. }
  split.
  - unfold FromPointer. rewrite Hv. destruct (Z.eqb_spec p 0); [lia |]. cbn [negb andb orb]. cbv zeta. rewrite Hv. cbn [negb].
    replace (p =? 0) with false by lia. cbn [orb].
    rewrite (kbind _ _ k o k) by by apply object_at_run. rewrite Z.eqb_refl. cbn [negb andb]. rewrite orb_false_r.
    by destruct (Z.leb_spec (refcount o) 0); [lia |].
  - unfold ToPointer, isPublicObject, type_at. rewrite E, Et. by rewrite andb_false_r.
Qed.

(** One reference less; with the last one the thread goes. *)
Definition dropped (p : Z) (o : OBJECT) (k : kernel) : kernel :=
  if refcount o =? 1 then
    mkKernel (delete p (objects k)) (DdkNameList k) (CurrentIrql k)
      (Freed p :: (if h o =? 0 then events k else CloseHandle (h o) :: events k))
  else set_objects (<[p := with_count o (refcount o - 1)]> (objects k)) k.

Lemma drop_thread_run k p o : objects k !! p = Some o -> type o = ThreadType -> alloc o = true ->
  0 < refcount o < 2 ^ 31 -> (h o <> 0 -> h o <> GetCurrentProcess) -> NoDup (addr <$> DdkNameList k) ->
  (forall e, e ∈ DdkNameList k -> Object e <> p) ->
  DdkDereferenceObject p k = Ok (tt, dropped p o k).
Proof.
  intros E Et Ea Hc Hh Hn Hu. unfold DdkDereferenceObject, dereference.
  set (n := refcount o - 1). assert (s32 n = n) as En by (apply s32_id; unfold n; lia).
  set (k1 := set_objects (<[p := with_count o n]> (objects k)) k).
  assert (InterlockedDecrement p k = Ok (n, k1)) as R.
  { unfold InterlockedDecrement. rewrite (kbind _ _ k o k) by by apply object_at_run. cbv zeta. fold n. by rewrite En. }
  rewrite (kbind _ _ _ _ _ R). unfold dropped. destruct (Z.eqb_spec n 0) as [Hz | Hz].
  2: { destruct (Z.eqb_spec (refcount o) 1); [lia |]. done. }
  destruct (Z.eqb_spec (refcount o) 1); [| lia]. rewrite Hz in *.
  assert (objects k1 !! p = Some (with_count o 0)) as E1 by (unfold k1; rewrite Hz; apply lookup_insert_eq).
  set (k2 := mkKernel (<[p := mkObject ThreadType true 0 0 (contents o)]> (objects k)) (DdkNameList k) (CurrentIrql k)
    (if h o =? 0 then events k else CloseHandle (h o) :: events k)).
  assert (close_handle p k1 = Ok (tt, k2)) as C.
  { unfold close_handle. rewrite (kbind _ _ k1 _ k1) by by apply object_at_run. cbn [h with_count].
    destruct (Z.eqb_spec (h o) 0) as [Z0 | N0].
    - unfold k1, k2, with_count, set_objects, mret, M_ret. rewrite Hz, Z0, Et, Ea. by destruct k.
    - unfold ddkassertM, ddkassert. destruct (Z.eqb_spec (h o) GetCurrentProcess); [by destruct (Hh N0) |]. cbn [negb].
      rewrite (kbind (lift (Ok tt)) _ k1 tt k1) by done. rewrite (kbind (modify _) _ k1 tt (log (CloseHandle (h o)) k1)) by done.
      unfold put_object, modify, k1, k2, log, set_objects. cbn. by rewrite insert_insert_eq, Et, Ea. }
  unfold free_depth. cbn [DdkFreeObject]. rewrite (kbind _ _ k1 _ k1) by by apply object_at_run. cbn [type with_count].
  rewrite Et. change (ThreadType =? IoFileType) with false. change (ThreadType =? IoDriverType) with false.
  change (ThreadType =? IoDeviceType) with false. change (ThreadType =? KeyType) with false. cbn iota.
  rewrite (kbind (mret tt) _ k1 tt k1) by done. rewrite (kbind _ _ _ _ _ C).
  rewrite (kbind _ _ k2 tt k2).
  2: { unfold remove_object_name, remove_names. rewrite (kbind _ _ k2 (length (DdkNameList k2)) k2) by done.
       by apply (remove_loop_none _ _ (DdkNameList k2) k2 []). }
  rewrite (kbind _ _ k2 _ k2) by (apply object_at_run; apply lookup_insert_eq). cbn [alloc].
  unfold modify, log, set_objects, k2. cbn. by rewrite delete_insert_eq.
Qed.

End invariant.
