(* ===== verification/ThreadsSpec.v ===== *)
(** * ThreadsSteps: the changes that the calls are made of, and that they keep [inv] *)

From S2P Require Import Prelude Strings Objects ObjectsSpec Threads ThreadsInv.
From S2P Require Detours DetoursInv DetoursSpec.

Section steps.
Context `{Environment} `{Locale} `{Detours.DETOURS} `{!DetoursInv.DETOURS_Laws} `{HOST_THREADS}.

Implicit Types s : state.

Definition put_obj p o s : state :=
  mkState (set_objects (<[p := o]> (objects (kern s))) (kern s)) (bodies s) (processes s) (PsInitialSystemProcess s)
    (threadlist s) (Locked s) (tls s) (detours s).

(** What the stages of the host threads must satisfy, and how they may differ. *)
Record stages_ok (hs hs' : gmap Z stage) (p : Z) : Prop := {
  so_dom : forall t, is_Some (hs !! t) -> is_Some (hs' !! t);
  so_rest : forall q, q <> p -> tally (creates q) hs' = tally (creates q) hs /\
    tally (fails q) hs' = tally (fails q) hs /\ tally (starts q) hs' = tally (starts q) hs;
  so_fails : forall t q, q <> p -> hs' !! t = Some (Creating q 0) -> hs !! t = Some (Creating q 0);
  so_handles : forall t q hnd, hs' !! t = Some (Creating q hnd) -> q <> 0 /\ (hnd <> 0 -> hnd <> GetCurrentProcess);
  so_starts : forall t q, hs' !! t = Some (Starting q) -> q <> 0;
  so_starting : forall t q, q <> p -> hs' !! t = Some (Starting q) -> hs !! t = Some (Starting q);
  so_once : forall t u, hs' !! t = Some (Starting p) -> hs' !! u = Some (Starting p) -> t = u
}.

Lemma stages_same hs s L p : inv hs s L -> stages_ok hs hs p.
Proof. intros I. split; [done | done | done | apply (i_handles _ _ _ I) | apply (i_starts _ _ _ I) | done |].
  intros t u. apply (i_once _ _ _ I). Qed.

Lemma uses_stages hs hs' p s q : stages_ok hs hs' p -> q <> p -> uses hs' s q = uses hs s q.
Proof. intros S Hq. destruct (so_rest _ _ _ S q Hq) as (E1 & E2 & E3). unfold uses. by rewrite E1, E2, E3. Qed.

(** ** The thread's own variables *)

Lemma inv_tls hs s L me l : inv hs s L -> is_Some (hs !! me) -> DdkCurrentThread l = DdkCurrentThread (my me s) ->
  inv hs (set_tls <[me := l]> s) L.
Proof.
  intros I Hm El. assert (forall t, DdkCurrentThread (my t (set_tls <[me := l]> s)) = DdkCurrentThread (my t s)) as Hmy.
  { intros t. destruct (decide (t = me)) as [-> | Nt]; [by rewrite my_self | by rewrite my_other]. }
  assert (forall p, p <> 0 -> uses hs (set_tls <[me := l]> s) p = uses hs s p) as Hu.
  { intros p Np. rewrite uses_tls by done. unfold current_hit. rewrite El. lia. }
  split; try apply I.
  - intros p. rewrite (i_member _ _ _ I). split; intros [Np [t Et]]; (split; [done | exists t]); by rewrite Hmy in *.
  - intros t b Eb. rewrite Hmy in Eb. by apply (i_id _ _ _ I).
  - intros p o Eo Et. destruct (i_objects _ _ _ I p o Eo Et) as []. split; try done. rewrite Hu by lia. done.
  - intros p Np Hp. rewrite Hu in Hp by done. by apply (i_used _ _ _ I).
  - intros t Ht. cbn in Ht. destruct (decide (t = me)) as [-> | Nt]; [done |]. rewrite lookup_insert_ne in Ht by done. by apply (i_tls _ _ _ I).
Qed.

(** ** The objects *)

Lemma inv_object hs hs' s L p o o' : inv hs s L -> stages_ok hs hs' p ->
  objects (kern s) !! p = Some o -> type o = ThreadType -> type o' = ThreadType -> alloc o' = true -> contents o' = Plain ->
  0 < refcount o' < 2 ^ 31 /\ uses hs' s p <= refcount o' ->
  (h o' <> 0 -> h o' <> GetCurrentProcess) /\ (h o' = 0 -> (0 < tally (creates p) hs')%nat) ->
  (forall t, hs' !! t = Some (Creating p 0) -> refcount o' = 2) ->
  (forall t, hs' !! t = Some (Starting p) -> p ∉ L) ->
  inv hs' (put_obj p o' s) L.
Proof.
  intros I S Eo Et Et' Ea Ec Hc Hh Hf Hst. assert (type_at' : forall q x, <[p := o']> (objects (kern s)) !! q = Some x ->
    exists y, objects (kern s) !! q = Some y /\ type y = type x).
  { intros q x Ex. destruct (decide (p = q)) as [<- | Nq].
    - rewrite lookup_insert_eq in Ex. simplify_eq. exists o. by rewrite Et.
    - rewrite lookup_insert_ne in Ex by done. eauto. }
  assert (bodies s !! p <> None) as Hb.
  { apply not_eq_None_Some. apply (i_bodies _ _ _ I). eauto. }
  split; try apply I; try apply S; cbn [kern put_obj set_objects objects DdkNameList].
  - intros q. rewrite (i_bodies _ _ _ I). destruct (decide (p = q)) as [<- | Nq].
    + rewrite lookup_insert_eq. naive_solver.
    + by rewrite lookup_insert_ne.
  - intros q x Ex Tx. destruct (decide (p = q)) as [<- | Nq].
    + rewrite lookup_insert_eq in Ex. injection Ex as <-. destruct (i_objects _ _ _ I p o Eo Et) as []. split; try done.
    + rewrite lookup_insert_ne in Ex by done. destruct (i_objects _ _ _ I q x Ex Tx) as [? ? ? Hcq Hhq ?]. split; try done.
      * change (uses hs' (put_obj p o' s) q) with (uses hs' s q). by rewrite (uses_stages hs hs' p) by done.
      * destruct (so_rest _ _ _ S q ltac:(done)) as [-> _]. done.
  - intros q Nq Hq. change (uses hs' (put_obj p o' s) q) with (uses hs' s q) in Hq.
    destruct (decide (p = q)) as [<- | Npq]; [by apply not_eq_None_Some |].
    rewrite (uses_stages hs hs' p) in Hq by done. by apply (i_used _ _ _ I).
  - intros t q x Ht Ex. destruct (decide (p = q)) as [<- | Npq].
    + rewrite lookup_insert_eq in Ex. injection Ex as <-. by apply (Hf t).
    + rewrite lookup_insert_ne in Ex by done. apply (i_fails _ _ _ I t q x); [| done]. by apply (so_fails _ _ _ S).
  - intros t q Ht. destruct (decide (p = q)) as [<- | Nq]; [by apply (Hst t) |]. apply (i_starting _ _ _ I t). by apply (so_starting _ _ _ S).
  - intros t u q Ht Hu. destruct (decide (p = q)) as [<- | Nq]; [by apply (so_once _ _ _ S) |].
    apply (i_once _ _ _ I t u q); by apply (so_starting _ _ _ S).
  - destruct (i_system _ _ _ I) as (y & Ey & Ty). exists y. rewrite lookup_insert_ne; [done |]. intros ->. by simplify_eq.
  - intros q Hq. destruct (i_ready _ _ _ I q Hq) as (y & Ey & Ty). exists y. split; [| done]. cbn.
    rewrite lookup_insert_ne; [done |]. intros ->. rewrite Eo in Ey. injection Ey as ->. by rewrite Et in Ty.
  - intros q x Ex Tx. destruct (type_at' q x Ex) as (y & Ey & Ty). apply (i_processes _ _ _ I q y); [done | congruence].
  - intros t Ht. apply (so_dom _ _ _ S), (i_tls _ _ _ I), Ht.
  - intros e He. rewrite lookup_insert_is_Some'. right. by apply (i_named _ _ _ I).
Qed.

Definition add_thread p o b s : state :=
  mkState (set_objects (<[p := o]> (objects (kern s))) (kern s)) (<[p := b]> (bodies s)) (processes s) (PsInitialSystemProcess s)
    (threadlist s) (Locked s) (tls s) (detours s).

Lemma not_used hs s L p : inv hs s L -> objects (kern s) !! p = None -> p <> 0 -> uses hs s p = 0.
Proof.
  intros I Eo Np. destruct (decide (0 < uses hs s p)) as [Hp |]; [| unfold uses in *; lia].
  apply (i_used _ _ _ I p Np), (i_bodies _ _ _ I) in Hp as (o & E & _). congruence.
Qed.

Lemma inv_new hs hs' s L p o b : inv hs s L -> stages_ok hs hs' p ->
  objects (kern s) !! p = None -> 0 < p < 2 ^ 64 /\ Z.even p = true ->
  type o = ThreadType -> alloc o = true -> contents o = Plain ->
  0 < refcount o < 2 ^ 31 /\ uses hs' s p <= refcount o ->
  (h o <> 0 -> h o <> GetCurrentProcess) /\ (h o = 0 -> (0 < tally (creates p) hs')%nat) ->
  system_process s -> is_Some (processes s !! process b) /\ process b <> 0 ->
  (forall t, hs' !! t = Some (Creating p 0) -> refcount o = 2) ->
  inv hs' (add_thread p o b s) L.
Proof.
  intros I S Eo Ha Et Eal Ec Hc Hh Hsys Hb Hf.
  assert (p ∉ L) as NL.
  { intros Hp. destruct (lseg_live _ _ _ _ _ (i_list _ _ _ I) Hp) as [_ Hs]. apply (i_bodies _ _ _ I) in Hs as (? & ? & _). congruence. }
  assert (forall t, DdkCurrentThread (my t s) <> p) as Nt.
  { intros t Ep. apply NL, (i_member _ _ _ I). split; [lia | eauto]. }
  split; try apply I; try apply S; cbn [kern add_thread set_objects objects DdkNameList bodies threadlist processes].
  - by apply lseg_outside, I.
  - intros t x Ex. change (my t (add_thread p o b s)) with (my t s) in Ex. rewrite lookup_insert_ne in Ex by (apply not_eq_sym, Nt).
    by apply (i_id _ _ _ I).
  - intros q. destruct (decide (p = q)) as [<- | Nq].
    + rewrite !lookup_insert_eq. naive_solver.
    + rewrite !lookup_insert_ne by done. apply I.
  - intros q x Ex Tx. destruct (decide (p = q)) as [<- | Nq].
    + rewrite lookup_insert_eq in Ex. injection Ex as <-. split; try done.
      intros e He Ee. destruct (i_named _ _ _ I e He) as [y Ey]. congruence.
    + rewrite lookup_insert_ne in Ex by done. destruct (i_objects _ _ _ I q x Ex Tx) as [? ? ? Hcq Hhq ?]. split; try done.
      * change (uses hs' (add_thread p o b s) q) with (uses hs' s q). by rewrite (uses_stages hs hs' p) by done.
      * destruct (so_rest _ _ _ S q ltac:(done)) as [-> _]. done.
  - intros q Nq Hq. change (uses hs' (add_thread p o b s) q) with (uses hs' s q) in Hq.
    destruct (decide (p = q)) as [<- | Npq]; [rewrite lookup_insert_eq; eauto |].
    rewrite lookup_insert_ne by done. rewrite (uses_stages hs hs' p) in Hq by done. by apply (i_used _ _ _ I).
  - intros t q x Ht Ex. destruct (decide (p = q)) as [<- | Npq].
    + rewrite lookup_insert_eq in Ex. injection Ex as <-. by apply (Hf t).
    + rewrite lookup_insert_ne in Ex by done. apply (i_fails _ _ _ I t q x); [| done]. by apply (so_fails _ _ _ S).
  - intros t q Ht. destruct (decide (p = q)) as [<- | Nq]; [done |]. apply (i_starting _ _ _ I t). by apply (so_starting _ _ _ S).
  - intros t u q Ht Hu. destruct (decide (p = q)) as [<- | Nq]; [by apply (so_once _ _ _ S) |].
    apply (i_once _ _ _ I t u q); by apply (so_starting _ _ _ S).
  - destruct (i_system _ _ _ I) as (y & Ey & Ty). exists y. rewrite lookup_insert_ne; [done |]. intros ->. by simplify_eq.
  - intros _ _. destruct Hsys as (y & Ey & Ty). exists y. split; [| done]. cbn. rewrite lookup_insert_ne; [done |]. intros ->. congruence.
  - intros q x Ex. destruct (decide (p = q)) as [<- | Nq].
    + rewrite lookup_insert_eq in Ex. by injection Ex as <-.
    + rewrite lookup_insert_ne in Ex by done. by apply (i_process _ _ _ I q).
  - intros q x Ex Tx. destruct (decide (p = q)) as [<- | Nq].
    + rewrite lookup_insert_eq in Ex. injection Ex as <-. by rewrite Et in Tx.
    + rewrite lookup_insert_ne in Ex by done. by apply (i_processes _ _ _ I q x).
  - intros t Ht. apply (so_dom _ _ _ S), (i_tls _ _ _ I), Ht.
  - destruct (i_zero _ _ _ I) as [Z0 Ns]. split; [| done]. by rewrite lookup_insert_ne by lia.
  - intros e He. rewrite lookup_insert_is_Some'. right. by apply (i_named _ _ _ I).
Qed.

Definition remove_thread p ev s : state :=
  mkState (mkKernel (delete p (objects (kern s))) (DdkNameList (kern s)) (CurrentIrql (kern s)) ev) (delete p (bodies s))
    (processes s) (PsInitialSystemProcess s) (threadlist s) (Locked s) (tls s) (detours s).

Lemma inv_gone hs hs' s L p o ev : inv hs s L -> stages_ok hs hs' p ->
  objects (kern s) !! p = Some o -> type o = ThreadType -> uses hs' s p = 0 -> inv hs' (remove_thread p ev s) L.
Proof.
  intros I S Eo Et Eu. pose proof (i_objects _ _ _ I p o Eo Et) as Ok. pose proof (t_address _ _ _ _ Ok) as [Hp _].
  assert (forall t, DdkCurrentThread (my t s) <> p) as Nt.
  { intros t Ep. pose proof (uses_current hs' s t p ltac:(lia) Ep). lia. }
  assert (p ∉ L) as NL by (intros Hin; apply (i_member _ _ _ I) in Hin as [_ [t Ep]]; by apply (Nt t)).
  split; try apply I; try apply S; cbn [kern remove_thread objects DdkNameList bodies threadlist processes].
  - by apply lseg_delete, I.
  - intros t x Ex. change (my t (remove_thread p ev s)) with (my t s) in Ex. apply lookup_delete_Some in Ex as [_ Ex].
    by apply (i_id _ _ _ I).
  - intros q. destruct (decide (p = q)) as [<- | Nq].
    + rewrite !lookup_delete_eq. split; [by intros [] | naive_solver].
    + rewrite !lookup_delete_ne by done. apply I.
  - intros q x [Nq Ex]%lookup_delete_Some Tx. destruct (i_objects _ _ _ I q x Ex Tx) as [? ? ? Hcq Hhq ?]. split; try done.
    + change (uses hs' (remove_thread p ev s) q) with (uses hs' s q). by rewrite (uses_stages hs hs' p) by done.
    + destruct (so_rest _ _ _ S q ltac:(done)) as [-> _]. done.
  - intros q Nq Hq. change (uses hs' (remove_thread p ev s) q) with (uses hs' s q) in Hq.
    destruct (decide (p = q)) as [<- | Npq]; [lia |].
    rewrite lookup_delete_ne by done. rewrite (uses_stages hs hs' p) in Hq by done. by apply (i_used _ _ _ I).
  - intros t q x Ht [Nq Ex]%lookup_delete_Some. apply (i_fails _ _ _ I t q x); [| done]. by apply (so_fails _ _ _ S).
  - intros t q Ht. destruct (decide (p = q)) as [<- | Nq]; [done |]. apply (i_starting _ _ _ I t). by apply (so_starting _ _ _ S).
  - intros t u q Ht Hu. destruct (decide (p = q)) as [<- | Nq]; [by apply (so_once _ _ _ S) |].
    apply (i_once _ _ _ I t u q); by apply (so_starting _ _ _ S).
  - destruct (i_system _ _ _ I) as (y & Ey & Ty). exists y. rewrite lookup_delete_ne; [done |]. intros ->. by simplify_eq.
  - intros q [x [_ Ex]%lookup_delete_Some]. destruct (i_ready _ _ _ I q ltac:(eauto)) as (y & Ey & Ty). exists y. split; [| done]. cbn.
    rewrite lookup_delete_ne; [done |]. intros ->. rewrite Eo in Ey. injection Ey as ->. by rewrite Et in Ty.
  - intros q x [_ Ex]%lookup_delete_Some. by apply (i_process _ _ _ I q).
  - intros q x [_ Ex]%lookup_delete_Some. by apply (i_processes _ _ _ I q).
  - intros t Ht. apply (so_dom _ _ _ S), (i_tls _ _ _ I), Ht.
  - destruct (i_zero _ _ _ I) as [Z0 Ns]. split; [| done]. apply lookup_delete_None. by right.
  - intros e He. rewrite lookup_delete_ne; [by apply (i_named _ _ _ I) |]. by apply not_eq_sym, (t_unnamed _ _ _ _ Ok).
Qed.

(** ** The list *)

Definition entered me p b l s : state :=
  mkState (kern s) (<[p := set_next (threadlist s) (set_ThreadId me b)]> (bodies s)) (processes s) (PsInitialSystemProcess s)
    p (Locked s) (<[me := l]> (tls s)) (detours s).

Lemma my_entered me p b l s t : my t (entered me p b l s) = if decide (t = me) then l else my t s.
Proof.
  change (my t (entered me p b l s)) with (my t (set_tls <[me := l]> s)).
  case_decide as Ht; [subst; apply my_self | by apply my_other].
Qed.

Lemma inv_enter hs s L me p b o l : inv hs s L -> is_Some (hs !! me) -> DdkCurrentThread (my me s) = 0 ->
  bodies s !! p = Some b -> p ∉ L -> DdkCurrentThread l = p -> objects (kern s) !! p = Some o ->
  uses hs s p + 1 <= refcount o -> (forall t, hs !! t <> Some (Starting p)) -> inv hs (entered me p b l s) (p :: L).
Proof.
  intros I Hm Hc Eb NL El Eo Hr Nst.
  destruct (proj1 (i_bodies _ _ _ I p) ltac:(eauto)) as (o' & Eo' & Et). assert (o' = o) as -> by congruence. clear Eo'.
  pose proof (i_objects _ _ _ I p o Eo Et) as Ok. pose proof (t_address _ _ _ _ Ok) as [Hp _].
  assert (forall q, q <> 0 -> uses hs (entered me p b l s) q = uses hs s q + (if decide (p = q) then 1 else 0)) as Hu.
  { intros q Nq. change (uses hs (entered me p b l s) q) with (uses hs (set_tls <[me := l]> s) q).
    rewrite uses_tls by done. unfold current_hit. rewrite Hc, El. destruct (decide (0 = q)); [lia |]. lia. }
  split; try apply I; cbn [kern entered bodies threadlist processes].
  - split; [done |]. split; [lia |]. eexists. split; [apply lookup_insert_eq |]. by apply lseg_outside, I.
  - intros q. rewrite elem_of_cons, (i_member _ _ _ I). split.
    + intros [-> | [Nq [t Eq]]].
      * split; [lia |]. exists me. by rewrite my_entered, decide_True.
      * split; [done |]. exists t. rewrite my_entered, decide_False; [done |]. intros ->. congruence.
    + intros [Nq [t Eq]]. rewrite my_entered in Eq. case_decide; [left; congruence | right; eauto].
  - intros t x Ex. rewrite my_entered in Ex. case_decide as Ht.
    + subst t. rewrite El, lookup_insert_eq in Ex. by injection Ex as <-.
    + assert (p <> DdkCurrentThread (my t s)) as Np.
      { intros Ep. apply NL, (i_member _ _ _ I). split; [lia | by exists t]. }
      rewrite lookup_insert_ne in Ex by done. by apply (i_id _ _ _ I).
  - intros q. rewrite lookup_insert_is_Some'. rewrite (i_bodies _ _ _ I). naive_solver.
  - intros q x Ex Tx. destruct (i_objects _ _ _ I q x Ex Tx) as []. split; try done. rewrite Hu by lia.
    case_decide; [subst; simplify_eq; lia | lia].
  - intros q Nq Hq. rewrite Hu in Hq by done. rewrite lookup_insert_is_Some'. case_decide; [by left |].
    right. apply (i_used _ _ _ I q Nq). lia.
  - intros t q Ht [-> | Hq]%elem_of_cons; [by apply (Nst t) |]. by apply (i_starting _ _ _ I t q).
  - intros _ _. exact (i_ready _ _ _ I p (mk_is_Some _ _ Eb)).
  - intros q x Ex. destruct (decide (p = q)) as [<- | Nq].
    + rewrite lookup_insert_eq in Ex. injection Ex as <-. exact (i_process _ _ _ I p b Eb).
    + rewrite lookup_insert_ne in Ex by done. by apply (i_process _ _ _ I q).
  - intros t Ht. cbn in Ht. destruct (decide (t = me)) as [-> | Nt]; [done |]. rewrite lookup_insert_ne in Ht by done. by apply (i_tls _ _ _ I).
  - destruct (i_zero _ _ _ I) as [Z0 Ns]. split; [| done]. by rewrite lookup_insert_ne by lia.
Qed.

(** Once [p] is out of the list, which it was in behind [pre]. *)
Definition left_list me pre p b s : state := set_tls <[me := set_thread 0 (my me s)]> (unlinked pre p b s).

Lemma unlinked_bodies pre p b s : bodies (unlinked pre p b s) = <[p := set_next 0 b]> (relink set_next pre (next b) (bodies s)).
Proof. unfold unlinked, relink. by destruct (last pre). Qed.

Lemma unlinked_rest pre p b s : kern (unlinked pre p b s) = kern s /\ processes (unlinked pre p b s) = processes s /\
  PsInitialSystemProcess (unlinked pre p b s) = PsInitialSystemProcess s /\
  Locked (unlinked pre p b s) = Locked s /\ tls (unlinked pre p b s) = tls s /\ detours (unlinked pre p b s) = detours s.
Proof. unfold unlinked. by destruct (last pre). Qed.

Lemma unlinked_body pre p b s q x : bodies s !! p = Some b -> bodies (unlinked pre p b s) !! q = Some x ->
  exists y, bodies s !! q = Some y /\ x = set_next (next x) y.
Proof.
  intros Eb Ex. rewrite unlinked_bodies in Ex. destruct (decide (p = q)) as [<- | Nq].
  - rewrite lookup_insert_eq in Ex. injection Ex as <-. by exists b.
  - rewrite lookup_insert_ne in Ex by done. apply relink_inv in Ex as (y & Ey & [-> | ->]); exists y; split; try done. by destruct y.
Qed.

Lemma unlinked_is_some pre p b s q : bodies s !! p = Some b ->
  is_Some (bodies (unlinked pre p b s) !! q) <-> is_Some (bodies s !! q).
Proof.
  intros Eb. rewrite unlinked_bodies. destruct (decide (p = q)) as [<- | Nq].
  - rewrite lookup_insert_eq, Eb. split; eauto.
  - rewrite lookup_insert_ne by done. apply relink_lookup.
Qed.

Lemma unlinked_list pre p b post s : lseg next (bodies s) (threadlist s) (pre ++ p :: post) -> bodies s !! p = Some b ->
  lseg next (bodies (unlinked pre p b s)) (threadlist (unlinked pre p b s)) (pre ++ post).
Proof.
  intros Ls Eb. pose proof (lseg_remove next set_next ltac:(done) _ _ pre p post b Ls Eb) as R.
  pose proof (lseg_nodup _ _ _ _ Ls) as Nd. rewrite unlinked_bodies. apply lseg_outside.
  { rewrite elem_of_app. apply NoDup_app in Nd as (_ & Dj & [Np _]%NoDup_cons). intros [Hp | Hp]; [| done]. apply (Dj p Hp). by left. }
  unfold unlinked. destruct pre as [| q pre]; [exact R |].
  destruct (last (q :: pre)) as [z |] eqn:Ez; [| by apply last_None in Ez].
  cbn [set_bodies threadlist]. destruct Ls as (-> & _). exact R.
Qed.

Lemma inv_leave hs s L me pre p b post : inv hs s L -> is_Some (hs !! me) -> DdkCurrentThread (my me s) = p -> p <> 0 ->
  L = pre ++ p :: post -> bodies s !! p = Some b ->
  inv hs (left_list me pre p b s) (pre ++ post) /\ client hs (left_list me pre p b s) p = client hs s p + 1.
Proof.
  intros I Hm Hc Np EL Eb. destruct (unlinked_rest pre p b s) as (Ek & Epr & Eps & Elk & Etl & Ed).
  assert (forall t, DdkCurrentThread (my t (left_list me pre p b s)) = if decide (t = me) then 0 else DdkCurrentThread (my t s)) as Hmy.
  { intros t. unfold left_list, my. cbn [set_tls tls]. rewrite Etl. case_decide as Ht; [by subst; rewrite lookup_insert_eq | by rewrite lookup_insert_ne]. }
  assert (forall q, q <> 0 -> uses hs (left_list me pre p b s) q = uses hs s q - (if decide (p = q) then 1 else 0)) as Hu.
  { intros q Nq. assert (uses hs (left_list me pre p b s) q = uses hs (set_tls <[me := set_thread 0 (my me s)]> s) q) as ->.
    { unfold uses, left_list. cbn [set_tls tls]. by rewrite Etl. }
    rewrite uses_tls by done. unfold current_hit. rewrite Hc. cbn [set_thread DdkCurrentThread]. destruct (decide (0 = q)); [lia |]. lia. }
  pose proof (lseg_nodup _ _ _ _ (i_list _ _ _ I)) as Nd. rewrite EL in Nd.
  assert (p ∉ pre ++ post) as NL.
  { apply NoDup_app in Nd as (_ & Dj & [Nq _]%NoDup_cons). rewrite elem_of_app. intros [Hp | Hp]; [apply (Dj p Hp); by left | done]. }
  assert (kern (left_list me pre p b s) = kern s) as Ek' by done.
  split; [| destruct (proj1 (i_bodies _ _ _ I p) ltac:(eauto)) as (o & Eo & Et);
    rewrite (client_thread hs s p o Eo Et), (client_thread _ _ p o) by (by rewrite ?Ek'); rewrite Hu, decide_True by done; lia].
  split; rewrite ?Ek'; try apply I; change (processes (left_list me pre p b s)) with (processes (unlinked pre p b s));
    change (bodies (left_list me pre p b s)) with (bodies (unlinked pre p b s)); rewrite ?Epr; try apply (i_processes _ _ _ I).
  - apply unlinked_list; [rewrite <- EL; apply I | done].
  - intros q. transitivity (q ∈ L /\ q <> p).
    { rewrite EL. rewrite !elem_of_app, elem_of_cons. rewrite elem_of_app in NL. split; [| naive_solver].
      intros Hq. split; [naive_solver |]. intros ->. naive_solver. }
    rewrite (i_member _ _ _ I). split.
    + intros [[Nq [t Et]] Nqp]. split; [done |]. exists t. rewrite Hmy, decide_False; [done |]. intros ->. congruence.
    + intros [Nq [t Et]]. rewrite Hmy in Et. case_decide as Ht; [congruence |]. split; [eauto |]. intros ->.
      apply Ht, (current_unique hs s L t me I); congruence.
  - intros t x Ex. rewrite Hmy in Ex. case_decide as Ht.
    + apply mk_is_Some in Ex. rewrite unlinked_is_some in Ex by done. destruct (i_zero _ _ _ I) as [Z0 _]. rewrite Z0 in Ex. by destruct Ex.
    + destruct (unlinked_body pre p b s _ x Eb Ex) as (y & Ey & ->). by apply (i_id _ _ _ I t y).
  - intros q. rewrite unlinked_is_some by done. apply I.
  - intros q x Ex Tx. destruct (i_objects _ _ _ I q x Ex Tx) as []. split; rewrite ?Ek'; try done. rewrite Hu by lia. case_decide; lia.
  - intros q Nq Hq. rewrite unlinked_is_some by done. rewrite Hu in Hq by done. apply (i_used _ _ _ I q Nq). case_decide; lia.
  - intros t q Ht Hq. apply (i_starting _ _ _ I t q Ht). rewrite EL. rewrite elem_of_app in Hq |- *. rewrite elem_of_cons. naive_solver.
  - intros _ _. unfold system_process. rewrite Ek'. exact (i_ready _ _ _ I p (mk_is_Some _ _ Eb)).
  - intros q x Ex. destruct (unlinked_body pre p b s q x Eb Ex) as (y & Ey & ->). by apply (i_process _ _ _ I q y).
  - intros t Ht. change (tls (left_list me pre p b s)) with (<[me := set_thread 0 (my me s)]> (tls (unlinked pre p b s))) in Ht.
    rewrite Etl in Ht. destruct (decide (t = me)) as [-> | Nt]; [done |].
    rewrite lookup_insert_ne in Ht by done. by apply (i_tls _ _ _ I).
  - destruct (i_zero _ _ _ I) as [Z0 Ns]. split; [| done]. apply eq_None_not_Some. rewrite unlinked_is_some by done. rewrite Z0. by intros [].
  - change (Locked (left_list me pre p b s)) with (Locked (unlinked pre p b s)). rewrite Elk. apply I.
  - change (detours (left_list me pre p b s)) with (detours (unlinked pre p b s)). rewrite Ed. apply I.
Qed.

(** ** The rest *)

(** The object of the process changes, or what is known of it. *)
Definition put_system o n q s : state :=
  mkState (set_objects (<[SystemProcess := o]> (objects (kern s))) (kern s)) (bodies s) (<[SystemProcess := n]> (processes s)) q
    (threadlist s) (Locked s) (tls s) (detours s).

Lemma inv_system hs s L o n q : inv hs s L -> type o = ProcessType -> inv hs (put_system o n q s) L.
Proof.
  intros I To. destruct (i_system _ _ _ I) as (o0 & Eo0 & To0).
  assert (forall p, bodies s !! p <> None -> p <> SystemProcess) as Nb.
  { intros p Hp ->. apply not_eq_None_Some, (i_bodies _ _ _ I) in Hp as (x & Ex & Tx). congruence. }
  split; try apply I; cbn [kern put_system set_objects objects DdkNameList processes].
  - intros p. rewrite (i_bodies _ _ _ I). destruct (decide (SystemProcess = p)) as [<- | Np]; [| by rewrite lookup_insert_ne].
    rewrite lookup_insert_eq. split; intros (x & Ex & Tx); [congruence |]. injection Ex as <-. by rewrite To in Tx.
  - intros p x Ex Tx. destruct (decide (SystemProcess = p)) as [<- | Np].
    + rewrite lookup_insert_eq in Ex. injection Ex as <-. by rewrite To in Tx.
    + rewrite lookup_insert_ne in Ex by done. destruct (i_objects _ _ _ I p x Ex Tx) as []. by split.
  - intros t p x Ht Ex. destruct (decide (SystemProcess = p)) as [<- | Np].
    + destruct (Nb SystemProcess); [| done]. apply not_eq_None_Some, (i_used _ _ _ I); [apply (i_zero _ _ _ I) |].
      pose proof (tally_pos (creates SystemProcess) hs t _ Ht eq_refl). unfold uses. lia.
    + rewrite lookup_insert_ne in Ex by done. by apply (i_fails _ _ _ I t p x).
  - exists o. split; [apply lookup_insert_eq |]. by rewrite To.
  - intros _ _. exists o. split; [apply lookup_insert_eq | done].
  - intros p b Eb. destruct (i_process _ _ _ I p b Eb) as [Hs Nz]. split; [| done]. rewrite lookup_insert_is_Some'. by right.
  - intros p x Ex Tx. rewrite lookup_insert_is_Some'. destruct (decide (SystemProcess = p)) as [<- | Np]; [by left | right].
    rewrite lookup_insert_ne in Ex by done. by apply (i_processes _ _ _ I p x).
  - intros e He. rewrite lookup_insert_is_Some'. right. by apply (i_named _ _ _ I).
Qed.

(** A thread's priorities change, or what it is to call. *)
Lemma inv_body hs s L p b b' : inv hs s L -> bodies s !! p = Some b ->
  next b' = next b -> ThreadId b' = ThreadId b -> process b' = process b -> inv hs (set_bodies <[p := b']> s) L.
Proof.
  intros I Eb En Ei Ep. split; try apply I; cbn [bodies set_bodies].
  - eapply lseg_ext; [apply I |]. intros q _. destruct (decide (p = q)) as [<- | Nq];
      [rewrite lookup_insert_eq, Eb; cbn; by rewrite En | by rewrite lookup_insert_ne].
  - intros t x Ex. change (my t (set_bodies <[p := b']> s)) with (my t s) in Ex.
    destruct (decide (p = DdkCurrentThread (my t s))) as [Eq | Nq].
    + rewrite Eq, lookup_insert_eq in Ex. injection Ex as <-. rewrite Ei. apply (i_id _ _ _ I). by rewrite <- Eq.
    + rewrite lookup_insert_ne in Ex by done. by apply (i_id _ _ _ I).
  - intros q. rewrite lookup_insert_is_Some', (i_bodies _ _ _ I). split; [| naive_solver]. intros [<- | ?]; [| done].
    apply (i_bodies _ _ _ I). eauto.
  - intros q x Ex Tx. destruct (i_objects _ _ _ I q x Ex Tx) as []. by split.
  - intros q Nq Hq. rewrite lookup_insert_is_Some'. right. by apply (i_used _ _ _ I).
  - intros _ _. exact (i_ready _ _ _ I p (mk_is_Some _ _ Eb)).
  - intros q x Ex. destruct (decide (p = q)) as [<- | Nq].
    + rewrite lookup_insert_eq in Ex. injection Ex as <-. rewrite Ep. exact (i_process _ _ _ I p b Eb).
    + rewrite lookup_insert_ne in Ex by done. by apply (i_process _ _ _ I q).
  - destruct (i_zero _ _ _ I) as [Z0 Ns]. split; [| done]. rewrite lookup_insert_ne; [done |]. intros ->. congruence.
Qed.

Lemma inv_set_detours hs s L d A : inv hs s L -> DetoursSpec.rep d A -> inv hs (set_detours d s) L.
Proof.
  intros I R. split; try apply I; [| by exists A]. intros p o Eo Et. destruct (i_objects _ _ _ I p o Eo Et) as []. by split.
Qed.

(** Host threads come and go. *)
(** A host thread that comes uses no thread object, nor does one that goes. *)
Lemma tallies_host hs n p : hs !! n = None -> tally (creates p) (<[n := Running]> hs) = tally (creates p) hs /\
  tally (fails p) (<[n := Running]> hs) = tally (fails p) hs /\ tally (starts p) (<[n := Running]> hs) = tally (starts p) hs.
Proof.
  intros Hn. pose proof (tally_insert (creates p) hs n Running) as E1. pose proof (tally_insert (starts p) hs n Running) as E2.
  pose proof (tally_insert (fails p) hs n Running) as E3.
  unfold hit in E1, E2, E3. rewrite Hn, decide_False in E1, E2, E3 by (intros []). lia.
Qed.

Lemma uses_host hs s n p : hs !! n = None -> uses (<[n := Running]> hs) s p = uses hs s p.
Proof. intros Hn. unfold uses. by destruct (tallies_host hs n p Hn) as (-> & -> & ->). Qed.

Lemma tallies_exit hs me p : hs !! me = Some Running -> tally (creates p) (delete me hs) = tally (creates p) hs /\
  tally (fails p) (delete me hs) = tally (fails p) hs /\ tally (starts p) (delete me hs) = tally (starts p) hs.
Proof.
  intros Hm. pose proof (tally_delete (creates p) hs me) as E1. pose proof (tally_delete (starts p) hs me) as E2.
  pose proof (tally_delete (fails p) hs me) as E3.
  unfold hit in E1, E2, E3. rewrite Hm, decide_False in E1, E2, E3 by (intros []). lia.
Qed.

Lemma uses_exit hs s me p : hs !! me = Some Running -> DdkCurrentThread (my me s) = 0 -> p <> 0 ->
  uses (delete me hs) (set_tls (delete me) s) p = uses hs s p.
Proof.
  intros Hm Hc Np. unfold uses. destruct (tallies_exit hs me p Hm) as (-> & -> & ->). cbn [tls set_tls].
  pose proof (tally_delete (fun l => DdkCurrentThread l = p) (tls s) me) as E. unfold my in Hc.
  destruct (tls s !! me) as [l |]; cbn in E, Hc; [| lia]. destruct (decide (DdkCurrentThread l = p)); [congruence |]. lia.
Qed.

Lemma inv_host hs s L n : inv hs s L -> hs !! n = None -> inv (<[n := Running]> hs) s L.
Proof.
  intros I Hn. pose proof (fun p => tallies_host hs n p Hn) as Ht. pose proof (fun p => uses_host hs s n p Hn) as Hu.
  split; try apply I.
  - intros p o Eo To. destruct (i_objects _ _ _ I p o Eo To) as []. split; rewrite ?Hu; try done. by rewrite (proj1 (Ht p)).
  - intros p Np Hp. rewrite Hu in Hp. by apply (i_used _ _ _ I).
  - intros t p hnd Et. destruct (decide (n = t)) as [<- | Nt]; [by rewrite lookup_insert_eq in Et |].
    rewrite lookup_insert_ne in Et by done. by apply (i_handles _ _ _ I t).
  - intros t p x Et. destruct (decide (n = t)) as [<- | Nt]; [by rewrite lookup_insert_eq in Et |].
    rewrite lookup_insert_ne in Et by done. by apply (i_fails _ _ _ I t).
  - intros t p Et. destruct (decide (n = t)) as [<- | Nt]; [by rewrite lookup_insert_eq in Et |].
    rewrite lookup_insert_ne in Et by done. by apply (i_starts _ _ _ I t).
  - intros t p Et. apply lookup_insert_Some in Et as [[_ E] | [_ Et]]; [done | by apply (i_starting _ _ _ I t)].
  - intros t u p Et Eu. apply lookup_insert_Some in Et as [[_ E] | [_ Et]]; [done |]. apply lookup_insert_Some in Eu as [[_ E] | [_ Eu]]; [done |].
    by apply (i_once _ _ _ I t u p).
  - intros t Ht'. rewrite lookup_insert_is_Some'. right. by apply (i_tls _ _ _ I).
Qed.

Lemma inv_exit hs s L me : inv hs s L -> hs !! me = Some Running -> DdkCurrentThread (my me s) = 0 ->
  inv (delete me hs) (set_tls (delete me) s) L.
Proof.
  intros I Hm Hc.
  assert (forall t, DdkCurrentThread (my t (set_tls (delete me) s)) = DdkCurrentThread (my t s)) as Hmy.
  { intros t. destruct (decide (t = me)) as [-> | Nt]; unfold my in *; cbn; [by rewrite lookup_delete_eq | by rewrite lookup_delete_ne]. }
  pose proof (fun p => tallies_exit hs me p Hm) as Ht. pose proof (fun p => uses_exit hs s me p Hm Hc) as Hu.
  split; try apply I.
  - intros p. rewrite (i_member _ _ _ I). split; intros [Np [t Et]]; (split; [done | exists t]); by rewrite Hmy in *.
  - intros t b Eb. rewrite Hmy in Eb. by apply (i_id _ _ _ I).
  - intros p o Eo To. destruct (i_objects _ _ _ I p o Eo To) as []. split; try done; [rewrite Hu by lia; done | by rewrite (proj1 (Ht p))].
  - intros p Np Hp. rewrite Hu in Hp by done. by apply (i_used _ _ _ I).
  - intros t p hnd [_ Et]%lookup_delete_Some. by apply (i_handles _ _ _ I t).
  - intros t p x [_ Et]%lookup_delete_Some. by apply (i_fails _ _ _ I t).
  - intros t p [_ Et]%lookup_delete_Some. by apply (i_starts _ _ _ I t).
  - intros t p [_ Et]%lookup_delete_Some. by apply (i_starting _ _ _ I t).
  - intros t u p [_ Et]%lookup_delete_Some [_ Eu]%lookup_delete_Some. by apply (i_once _ _ _ I t u p).
  - intros t [l Hl]. cbn in Hl. apply lookup_delete_Some in Hl as [Nt Hl]. rewrite lookup_delete_ne by done. apply (i_tls _ _ _ I). eauto.
Qed.

End steps.

(** * what the calls on threads do *)

Section spec.
Context `{Environment} `{Locale} `{Detours.DETOURS} `{!DetoursInv.DETOURS_Laws} `{HOST_THREADS}.

Implicit Types s : state.

(** ** Running the pieces *)

Lemma my_thread_run me s : my_thread me s = Ok (DdkCurrentThread (my me s), s).
Proof. done. Qed.

Lemma my_process_run me s : my_process me s = Ok (DdkCurrentProcess (my me s), s).
Proof. done. Qed.

Lemma set_kern_put p o s : placed s -> set_kern (set_objects (<[p := o]> (objects (kern s))) (kern s)) s = put_obj p o s.
Proof.
  intros Hp. rewrite set_kern_bodies; [done |]. intros q Hq. cbn. rewrite lookup_insert_is_Some'. right. by apply Hp.
Qed.

Lemma put_obj_run p o s : placed s -> on_kern (put_object p o) s = Ok (tt, put_obj p o s).
Proof. intros Hp. rewrite <- set_kern_put by done. done. Qed.

Lemma put_obj_placed p o s : placed s -> placed (put_obj p o s).
Proof. intros Hp q Hq. cbn. rewrite lookup_insert_is_Some'. right. by apply Hp. Qed.

Lemma set_h_run p hnd o s : placed s -> objects (kern s) !! p = Some o ->
  on_kern (set_h p hnd) s = Ok (tt, put_obj p (mkObject (type o) (alloc o) (refcount o) hnd (contents o)) s).
Proof.
  intros Hp E. rewrite <- (put_obj_run _ _ s Hp). unfold on_kern, set_h. by rewrite (kbind _ _ (kern s) o (kern s)) by by apply object_at_run.
Qed.

(** The list with a thread that was not in it in front. *)
Lemma insert_thread_run s me p b L : Locked s = false -> DdkCurrentThread (my me s) = p -> bodies s !! p = Some b ->
  lseg next (bodies s) (threadlist s) L -> p ∉ L -> (forall q x, q ∈ L -> bodies s !! q = Some x -> ThreadId x <> me) ->
  DdkInsertThread me s = Ok (tt, set_bodies <[p := set_next (threadlist s) (set_ThreadId me b)]> (set_threadlist p s)).
Proof.
  intros Hl Hc Eb Ls NL Hid. unfold DdkInsertThread, DdkThreadLock.
  rewrite (tbind _ _ s tt (set_Locked true s)) by by rewrite Hl. set (s1 := set_Locked true s).
  rewrite (tbind _ _ s1 p s1) by (rewrite my_thread_run; change (my me s1) with (my me s); by rewrite Hc).
  rewrite (tbind _ _ s1 tt _ (change_body_run s1 p b _ Eb)). set (s2 := set_bodies <[p := set_ThreadId me b]> s1).
  assert (bodies s2 !! p = Some (set_ThreadId me b)) as Eb2 by apply lookup_insert_eq.
  rewrite (tbind _ _ s2 _ s2 (body_at_run s2 p _ Eb2)). rewrite (tbind list_fuel _ s2 (S (size (bodies s2))) s2) by done.
  rewrite (tbind get _ s2 s2 s2) by done.
  assert (lseg next (bodies s2) (threadlist s2) L) as Ls2 by by apply lseg_outside.
  rewrite (tbind _ _ s2 tt s2).
  2: { apply (no_such_id_run s2 _ L); [done | | pose proof (lseg_size _ _ _ _ Ls2); lia].
       intros q x Hq Ex. cbn [ThreadId set_ThreadId]. apply (Hid q x Hq). cbn in Ex. by rewrite lookup_insert_ne in Ex by (intros ->; done). }
  rewrite (tbind _ _ s2 tt _ (change_body_run s2 p _ _ Eb2)).
  unfold DdkThreadUnlock, modify, s2, s1, set_bodies, set_threadlist, set_Locked. cbn. rewrite insert_insert_eq. by rewrite Hl.
Qed.

(** ** The start of every call *)

(** What [DdkThreadInit] leaves alone. *)
Record init_frame me s s' : Prop := {
  if_objects : forall p o, p <> SystemProcess -> objects (kern s) !! p = Some o -> objects (kern s') !! p = Some o;
  if_new : forall p, p <> DdkCurrentThread (my me s') -> objects (kern s) !! p = None -> objects (kern s') !! p = None;
  if_others : forall t, t <> me -> my t s' = my t s;
  if_detours : detours s' = detours s;
  if_ready : system_process s';
  if_process : DdkCurrentProcess (my me s') <> 0;
  if_current : DdkCurrentThread (my me s') <> 0;
  if_block : SoftFpcr (my me s') = DdkCurrentThread (my me s')
}.

Lemma init_process_run hs s L : inv hs s L -> exists s', init_process s = Ok (tt, s') /\ inv hs s' L /\ system_process s' /\
  bodies s' = bodies s /\ tls s' = tls s /\ detours s' = detours s /\ threadlist s' = threadlist s /\
  (forall p, p <> SystemProcess -> objects (kern s') !! p = objects (kern s) !! p).
Proof.
  intros I. pose proof (inv_placed _ _ _ I) as Hp. destruct (i_system _ _ _ I) as (o & Eo & To).
  unfold init_process. rewrite (tbind _ _ s o s (object_read s _ o Hp Eo)).
  destruct (Z.eqb_spec (type o) ProcessType) as [Tp | Tp]; cbn [negb].
  - exists s. split; [done |]. split; [done |]. split; [by exists o |]. done.
  - rewrite (tbind _ _ s tt _ (put_obj_run _ _ s Hp)). set (o1 := mkObject ProcessType (alloc o) (refcount o) GetCurrentProcess (contents o)).
    set (s1 := put_obj SystemProcess o1 s).
    rewrite (tbind (modify _) _ s1 tt (set_processes <[SystemProcess := DefaultBaseThreadPriority]> s1)) by done.
    set (s2 := set_processes <[SystemProcess := DefaultBaseThreadPriority]> s1).
    set (o2 := mkObject ProcessType (alloc o) (s32 (refcount o + 1)) GetCurrentProcess (contents o)).
    set (q := if isPublicObject (set_objects (<[SystemProcess := o2]> (objects (kern s))) (kern s)) SystemProcess then SystemProcess + sizeof_OBJECT else SystemProcess).
    assert (placed s2) as Hp2 by (by apply put_obj_placed).
    assert (on_kern (InterlockedIncrement SystemProcess) s2 = Ok (s32 (refcount o + 1), put_obj SystemProcess o2 s2)) as R.
    { unfold on_kern, InterlockedIncrement. rewrite (kbind _ _ (kern s2) o1 (kern s2)) by (apply object_at_run; apply lookup_insert_eq).
      cbv zeta. rewrite (kbind (put_object _ _) _ (kern s2) tt _ eq_refl). cbn [mret M_ret]. unfold mret, M_ret. f_equal. f_equal.
      rewrite set_kern_bodies; [done |]. intros p Hb. cbn. rewrite lookup_insert_is_Some'. right. by apply Hp2. }
    rewrite (tbind _ _ _ _ _ R).
    assert (put_obj SystemProcess o2 s2 = put_system o2 DefaultBaseThreadPriority (PsInitialSystemProcess s) s) as E3.
    { unfold put_obj, put_system, s2, s1, set_processes, put_obj, set_objects. cbn. by rewrite insert_insert_eq. }
    rewrite E3. set (s3 := put_system _ _ _ _).
    assert (placed s3) as Hp3 by (unfold s3; rewrite <- E3; by apply put_obj_placed).
    rewrite (tbind _ _ s3 q s3) by (by apply on_kern_read).
    exists (put_system o2 DefaultBaseThreadPriority q s). split; [done |]. split; [by apply inv_system |].
    split; [exists o2; split; [apply lookup_insert_eq | done] |]. split_and!; try done.
    intros p Np. cbn. by rewrite lookup_insert_ne.
Qed.
(** A free address, for a new thread, and what is done to get it. *)
Definition fresh s (p : Z) : Prop := objects (kern s) !! p = None /\ 0 < p < 2 ^ 64 /\ Z.even p = true.

(** No reference changes hands. *)
Definition settled (hs : gmap Z stage) s (hs' : gmap Z stage) s' : Prop := forall q, q <> 0 -> client hs' s' q = client hs s q.

Lemma settled_trans hs s hs1 s1 hs2 s2 : settled hs s hs1 s1 -> settled hs1 s1 hs2 s2 -> settled hs s hs2 s2.
Proof. intros A B q Nq. by rewrite B, A. Qed.

Lemma settled_tls hs s me l : DdkCurrentThread l = DdkCurrentThread (my me s) -> settled hs s hs (set_tls <[me := l]> s).
Proof. intros El q Nq. apply client_same; [done |]. rewrite uses_tls by done. unfold current_hit. rewrite El. lia. Qed.

(** The process object is not a thread. *)
Lemma settled_init hs s L s' : inv hs s L -> system_process s' -> tls s' = tls s ->
  (forall p, p <> SystemProcess -> objects (kern s') !! p = objects (kern s) !! p) -> settled hs s hs s'.
Proof.
  intros I (x & Ex & Tx) Et Ho q Nq. destruct (decide (q = SystemProcess)) as [-> | N].
  - destruct (i_system _ _ _ I) as (o & Eo & To). apply Z.eqb_neq in To. unfold client. by rewrite Ex, Eo, To, Tx.
  - apply client_same; [by apply Ho | by unfold uses; rewrite Et].
Qed.

Definition good_handle (hnd : Z) : Prop := hnd <> 0 /\ hnd <> GetCurrentProcess.

(** The part of [DdkThreadInit] behind [init_process]. *)
Definition init_rest me calloc dup : T unit :=
  proc ← my_process me;
  _ ← (if proc =? 0 then change_tls me (set_process SystemProcess) else mret tt);
  cur ← my_thread me;
  _ ← (if cur =? 0 then init_thread me calloc dup else mret tt);
  cur ← my_thread me;
  change_tls me (set_SoftFpcr cur).

(** The process of the calling thread is known. *)
Lemma with_process hs s L me (k : unit -> T unit) : inv hs s L -> is_Some (hs !! me) ->
  exists s1, (proc ← my_process me; _ ← (if proc =? 0 then change_tls me (set_process SystemProcess) else mret tt); k tt) s = k tt s1 /\
    inv hs s1 L /\ kern s1 = kern s /\ bodies s1 = bodies s /\ processes s1 = processes s /\ threadlist s1 = threadlist s /\ detours s1 = detours s /\
    (forall t, t <> me -> my t s1 = my t s) /\ DdkCurrentThread (my me s1) = DdkCurrentThread (my me s) /\ DdkCurrentProcess (my me s1) <> 0 /\
    settled hs s hs s1.
Proof.
  intros I Hm. destruct (Z.eqb_spec (DdkCurrentProcess (my me s)) 0) as [E0 | N0].
  - exists (set_tls <[me := set_process SystemProcess (my me s)]> s). split.
    { rewrite (tbind _ _ _ _ _ (my_process_run me s)), E0, Z.eqb_refl. done. }
    split; [by apply inv_tls |].
    split_and!; try done; [intros t Ht; by apply my_other | by rewrite my_self | rewrite my_self; apply (i_zero _ _ _ I) | by apply settled_tls].
  - exists s. split; [| done]. rewrite (tbind _ _ _ _ _ (my_process_run me s)). apply Z.eqb_neq in N0. by rewrite N0.
Qed.

Lemma with_block hs s L me : inv hs s L -> is_Some (hs !! me) ->
  exists s1, (cur ← my_thread me; change_tls me (set_SoftFpcr cur)) s = Ok (tt, s1) /\
    inv hs s1 L /\ kern s1 = kern s /\ bodies s1 = bodies s /\ threadlist s1 = threadlist s /\ detours s1 = detours s /\
    (forall t, t <> me -> my t s1 = my t s) /\ DdkCurrentThread (my me s1) = DdkCurrentThread (my me s) /\
    DdkCurrentProcess (my me s1) = DdkCurrentProcess (my me s) /\ SoftFpcr (my me s1) = DdkCurrentThread (my me s) /\ settled hs s hs s1.
Proof.
  intros I Hm. exists (set_tls <[me := set_SoftFpcr (DdkCurrentThread (my me s)) (my me s)]> s).
  split; [by rewrite (tbind _ _ _ _ _ (my_thread_run me s)) |].
  split; [by apply inv_tls |]. split_and!; try done; [intros t Ht; by apply my_other | by rewrite my_self .. | by apply settled_tls].
Qed.

Lemma init_known hs s L me calloc dup : inv hs s L -> is_Some (hs !! me) -> DdkCurrentThread (my me s) <> 0 ->
  exists s', DdkThreadInit me calloc dup s = Ok (tt, s') /\ inv hs s' L /\ init_frame me s s' /\
    DdkCurrentThread (my me s') = DdkCurrentThread (my me s) /\ settled hs s hs s' /\ bodies s' = bodies s /\ threadlist s' = threadlist s.
Proof.
  intros I Hm Hc. destruct (init_process_run hs s L I) as (s0 & R0 & I0 & P0 & B0 & T0 & D0 & L0 & O0).
  assert (forall t, my t s0 = my t s) as M0 by (intros t; unfold my; by rewrite T0).
  destruct (with_process hs s0 L me (fun _ => cur ← my_thread me; _ ← (if cur =? 0 then init_thread me calloc dup else mret tt);
    cur ← my_thread me; change_tls me (set_SoftFpcr cur)) I0 Hm) as (s1 & R1 & I1 & K1 & B1 & Pr1 & L1 & D1 & O1 & C1 & Np & S1).
  destruct (with_block hs s1 L me I1 Hm) as (s2 & R2 & I2 & K2 & B2 & L2 & D2 & O2 & C2 & Q2 & F2 & S2).
  exists s2. split.
  - unfold DdkThreadInit. rewrite (tbind _ _ _ _ _ R0), R1.
    rewrite (tbind _ _ _ _ _ (my_thread_run me s1)). replace (DdkCurrentThread (my me s1) =? 0) with false by (rewrite C1, M0; lia).
    exact R2.
  - pose proof (settled_init hs s L s0 I P0 T0 O0) as S0. pose proof (settled_trans _ _ _ _ _ _ S0 (settled_trans _ _ _ _ _ _ S1 S2)) as S.
    split; [done |]. split; [| split_and!; try done; congruence]. split; try congruence.
    + intros p o Nps Eo. rewrite K2, K1, O0 by done. done.
    + intros p _ Eo. rewrite K2, K1, O0; [done |]. intros ->. destruct (i_system _ _ _ I) as (x & Ex & _). congruence.
    + intros t Nt. rewrite O2, O1 by done. apply M0.
    + unfold system_process. by rewrite K2, K1.
Qed.

(** The thread object that a host thread is given. *)
Definition first_body : THREAD := mkThread 0 0 SystemProcess DefaultThreadPriority DefaultBaseThreadPriority 0 0.
Definition first_object hnd : OBJECT := mkObject ThreadType true 1 hnd Plain.
Definition with_thread me p hnd s : state :=
  entered me p first_body (set_thread p (my me s)) (add_thread p (first_object hnd) first_body s).

Lemma fresh_out hs s L p : inv hs s L -> objects (kern s) !! p = None -> p ∉ L.
Proof.
  intros I Fp Hin. destruct (lseg_live _ _ _ _ _ (i_list _ _ _ I) Hin) as [_ Hs]. apply (i_bodies _ _ _ I) in Hs as (? & ? & _). congruence.
Qed.

(** Without a current thread, no thread in the list has the id. *)
Lemma no_own_id hs s L me q x : inv hs s L -> DdkCurrentThread (my me s) = 0 -> q ∈ L -> bodies s !! q = Some x -> ThreadId x <> me.
Proof.
  intros I Hc Hq Ex Ei. apply (i_member _ _ _ I) in Hq as [Nq [t Et]].
  assert (ThreadId x = t) as Ex' by (apply (i_id _ _ _ I); by rewrite Et). rewrite Ei in Ex'. subst t. congruence.
Qed.

Lemma init_thread_run hs s L me p hnd : inv hs s L -> DdkCurrentThread (my me s) = 0 -> fresh s p ->
  init_thread me (Some p) (Some hnd) s = Ok (tt, with_thread me p hnd s).
Proof.
  intros I Hc (Fp & Ha & _). pose proof (inv_placed _ _ _ I) as Hp. unfold init_thread.
  rewrite (tbind _ _ s (Some p) (put_obj p (first_object 0) s)) by (rewrite <- set_kern_put by done; done).
  set (sa := put_obj p _ s). rewrite (tbind (change_tls _ _) _ sa tt (set_tls <[me := set_thread p (my me s)]> sa)) by done.
  set (sb := set_bodies <[p := first_body]> (set_tls <[me := set_thread p (my me s)]> sa)).
  rewrite (tbind (modify _) _ (set_tls <[me := set_thread p (my me s)]> sa) tt sb) by done.
  assert (placed sb) as Hpb.
  { intros q Hq. change (is_Some (<[p := first_body]> (bodies s) !! q)) in Hq. apply lookup_insert_is_Some' in Hq.
    change (is_Some (<[p := first_object 0]> (objects (kern s)) !! q)). apply lookup_insert_is_Some'. destruct Hq as [-> | Hq]; [by left | right; by apply Hp]. }
  rewrite (tbind _ _ sb tt _ (set_h_run p hnd _ sb Hpb (lookup_insert_eq _ _ _))). set (sc := put_obj p _ sb).
  rewrite (insert_thread_run sc me p first_body L).
  - unfold with_thread, entered, sc, sb, sa, put_obj, add_thread, set_bodies, set_tls, set_threadlist, set_objects. cbn.
    by rewrite !insert_insert_eq.
  - exact (i_free _ _ _ I).
  - change (my me sc) with (my me (set_tls <[me := set_thread p (my me s)]> s)). by rewrite my_self.
  - apply lookup_insert_eq.
  - apply lseg_outside; [by eapply fresh_out | apply (i_list _ _ _ I)].
  - by eapply fresh_out.
  - intros q x Hq Ex. cbn in Ex. rewrite lookup_insert_ne in Ex by (intros ->; by apply (fresh_out hs s L q)).
    by apply (no_own_id hs s L me q).
Qed.

Lemma inv_with_thread hs s L me p hnd : inv hs s L -> is_Some (hs !! me) -> DdkCurrentThread (my me s) = 0 -> fresh s p ->
  good_handle hnd -> system_process s -> inv hs (with_thread me p hnd s) (p :: L).
Proof.
  intros I Hm Hc (Fp & Ha) [Nh Hg] Hsys. pose proof (not_used hs s L p I Fp ltac:(lia)) as U.
  assert (is_Some (processes s !! SystemProcess) /\ SystemProcess <> 0) as Hsp.
  { split; [| apply (i_zero _ _ _ I)]. destruct Hsys as (x & Ex & Tx). by apply (i_processes _ _ _ I _ x). }
  assert (forall (P : stage -> Prop) `{forall a, Decision (P a)} t st, hs !! t = Some st -> P st -> tally P hs <> 0%nat) as Hpos.
  { intros P HP t st Ht Hst. pose proof (tally_pos P hs t st Ht Hst). lia. }
  apply (inv_enter hs _ L me p first_body (first_object hnd)); try done.
  - apply (inv_new hs hs s L p); try done; cbn; rewrite ?U; try lia; [by eapply stages_same |].
    intros t Ht. destruct (Hpos (creates p) _ t _ Ht eq_refl). unfold uses in U. lia.
  - apply lookup_insert_eq.
  - by eapply fresh_out.
  - apply lookup_insert_eq.
  - change (uses hs (add_thread p (first_object hnd) first_body s) p) with (uses hs s p). rewrite U. cbn. lia.
  - intros t Ht. destruct (Hpos (starts p) _ t _ Ht eq_refl). unfold uses in U. lia.
Qed.

(** The object has the one reference of the host thread. *)
Lemma settled_with_thread hs s L me p hnd : inv hs s L -> DdkCurrentThread (my me s) = 0 -> fresh s p ->
  settled hs s hs (with_thread me p hnd s).
Proof.
  intros I Hc (Fp & Ha & _) q Nq.
  assert (uses hs (with_thread me p hnd s) q = uses hs s q + (if decide (p = q) then 1 else 0)) as U.
  { change (uses hs (with_thread me p hnd s) q) with (uses hs (set_tls <[me := set_thread p (my me s)]> s) q).
    rewrite uses_tls by done. unfold current_hit. rewrite Hc, decide_False by congruence. cbn. lia. }
  destruct (decide (p = q)) as [<- | Npq].
  - rewrite (client_none hs s), (client_thread _ _ p (first_object hnd)), U by (done || apply lookup_insert_eq).
    rewrite (not_used hs s L p) by done. done.
  - apply client_same; [by apply lookup_insert_ne | lia].
Qed.

Lemma init_fresh hs s L me p hnd : inv hs s L -> is_Some (hs !! me) -> DdkCurrentThread (my me s) = 0 ->
  fresh s p -> good_handle hnd ->
  exists s', DdkThreadInit me (Some p) (Some hnd) s = Ok (tt, s') /\ inv hs s' (p :: L) /\ init_frame me s s' /\
    DdkCurrentThread (my me s') = p /\ settled hs s hs s'.
Proof.
  intros I Hm Hc F Hg. destruct (init_process_run hs s L I) as (s0 & R0 & I0 & P0 & B0 & T0 & D0 & L0 & O0).
  assert (forall t, my t s0 = my t s) as M0 by (intros t; unfold my; by rewrite T0).
  set (k := fun _ : unit => cur ← my_thread me; _ ← (if cur =? 0 then init_thread me (Some p) (Some hnd) else mret tt);
    cur ← my_thread me; change_tls me (set_SoftFpcr cur)).
  destruct (with_process hs s0 L me k I0 Hm) as (s1 & R1 & I1 & K1 & B1 & Pr1 & L1 & D1 & O1 & C1 & Np & S1).
  assert (p <> SystemProcess) as Nps. { intros ->. destruct (i_system _ _ _ I) as (x & Ex & _). destruct F. congruence. }
  assert (fresh s1 p) as F1 by (destruct F; split; [by rewrite K1, O0 | done]).
  assert (system_process s1) as Hsys by (unfold system_process; by rewrite K1).
  assert (DdkCurrentThread (my me s1) = 0) as Hc1 by (by rewrite C1, M0).
  pose proof (inv_with_thread hs s1 L me p hnd I1 Hm Hc1 F1 Hg Hsys) as I2. set (s2 := with_thread me p hnd s1) in *.
  destruct (with_block hs s2 (p :: L) me I2 Hm) as (s3 & R3 & I3 & K3 & B3 & L3 & D3 & O3 & C3 & Q3 & F3 & S3).
  assert (my me s2 = set_thread p (my me s1)) as M2 by (unfold s2, with_thread; rewrite my_entered; by rewrite decide_True).
  exists s3. split.
  { unfold DdkThreadInit. rewrite (tbind _ _ _ _ _ R0). unfold k in R1. rewrite R1.
    rewrite (tbind _ _ _ _ _ (my_thread_run me s1)), Hc1, Z.eqb_refl.
    by rewrite (tbind _ _ _ _ _ (init_thread_run hs s1 L me p hnd I1 Hc1 F1)). }
  pose proof (settled_with_thread hs s1 L me p hnd I1 Hc1 F1) as S2.
  pose proof (settled_trans _ _ _ _ _ _ (settled_init hs s L s0 I P0 T0 O0) (settled_trans _ _ _ _ _ _ S1 (settled_trans _ _ _ _ _ _ S2 S3))).
  split; [done |]. split; [| split; [by rewrite C3, M2 | done]]. split; try congruence.
  - intros q x Nq Eq. rewrite K3. cbn. rewrite lookup_insert_ne by (intros <-; destruct F; congruence). rewrite K1, O0 by done. done.
  - intros q Nq Eq. rewrite C3, M2 in Nq. cbn in Nq. rewrite K3. cbn. rewrite lookup_insert_ne by done. rewrite K1, O0; [done |].
    intros ->. destruct (i_system _ _ _ I) as (x & Ex & _). congruence.
  - intros t Nt. rewrite O3 by done. unfold s2, with_thread. rewrite my_entered, decide_False by done.
    change (my t (add_thread p (first_object hnd) first_body s1)) with (my t s1). rewrite O1 by done. apply M0.
  - rewrite D3. change (detours s2) with (detours s1). congruence.
  - destruct Hsys as (x & Ex & Tx). exists x. split; [| done]. rewrite K3. cbn. by rewrite lookup_insert_ne.
  - by rewrite Q3, M2.
  - rewrite C3, M2. destruct F1. cbn. lia.
Qed.

(** ** References *)

Definition drop_state p o s : state :=
  if refcount o =? 1 then
    remove_thread p (Freed p :: (if h o =? 0 then events (kern s) else CloseHandle (h o) :: events (kern s))) s
  else put_obj p (with_count o (refcount o - 1)) s.

Lemma set_kern_delete p names irql ev s : placed s ->
  set_kern (mkKernel (delete p (objects (kern s))) names irql ev) s =
  mkState (mkKernel (delete p (objects (kern s))) names irql ev) (delete p (bodies s)) (processes s) (PsInitialSystemProcess s)
    (threadlist s) (Locked s) (tls s) (detours s).
Proof.
  intros Hp. unfold set_kern. f_equal. apply map_eq. intros q. destruct (decide (p = q)) as [<- | Nq].
  - rewrite lookup_delete_eq. apply map_lookup_filter_None. right. intros t _. cbn. rewrite lookup_delete_eq. by intros [].
  - rewrite lookup_delete_ne by done. destruct (bodies s !! q) as [t |] eqn:E.
    + apply map_lookup_filter_Some. split; [done |]. cbn. rewrite lookup_delete_ne by done. apply Hp. eauto.
    + apply map_lookup_filter_None. by left.
Qed.

Lemma drop_thread_at hs k p o s : thread_ok hs k p o -> kern k = kern s -> NoDup (addr <$> DdkNameList (kern s)) -> placed s ->
  objects (kern s) !! p = Some o -> type o = ThreadType ->
  on_kern (DdkDereferenceObject p) s = Ok (tt, drop_state p o s).
Proof.
  intros [] Ek Hn Hp Eo Et. rewrite Ek in *.
  rewrite (kern_run _ _ _ _ (drop_thread_run (kern s) p o Eo Et ltac:(done) ltac:(lia) ltac:(naive_solver) Hn ltac:(done))).
  do 2 f_equal. unfold dropped, drop_state. destruct (refcount o =? 1).
  - by rewrite set_kern_delete.
  - by rewrite set_kern_put.
Qed.

Lemma inv_drop hs s L p o : inv hs s L -> objects (kern s) !! p = Some o -> type o = ThreadType -> 1 <= client hs s p ->
  inv hs (drop_state p o s) L /\
  (forall q, client hs (drop_state p o s) q = client hs s q - (if decide (p = q) then 1 else 0)) /\
  (forall q, q <> p -> objects (kern (drop_state p o s)) !! q = objects (kern s) !! q).
Proof.
  intros I Eo Et Hc. pose proof (i_objects _ _ _ I p o Eo Et) as Ok. pose proof (t_count _ _ _ _ Ok) as [Hr Hu].
  rewrite (client_thread hs s p o Eo Et) in Hc.
  assert (0 <= uses hs s p) as U0 by (unfold uses; lia).
  assert (forall t, hs !! t = Some (Creating p 0) -> False) as Nf.
  { intros t Ht. pose proof (i_fails _ _ _ I t p o Ht Eo). pose proof (tally_pos (creates p) hs t _ Ht eq_refl).
    pose proof (tally_pos (fails p) hs t _ Ht ltac:(done)). unfold uses in Hc. lia. }
  unfold drop_state. destruct (Z.eqb_spec (refcount o) 1) as [R1 | R1]; (split; [| split]).
  - apply (inv_gone hs hs s L p o); try done; [by eapply stages_same | lia].
  - intros q. case_decide as Hq.
    + subst q. rewrite (client_thread hs s p o Eo Et), client_none by apply lookup_delete_eq. lia.
    + rewrite Z.sub_0_r. apply client_same; [by apply lookup_delete_ne | done].
  - intros q Nq. cbn. by rewrite lookup_delete_ne by congruence.
  - apply (inv_object hs hs s L p o); try done; [by eapply stages_same | apply Ok | apply Ok | cbn; lia | apply Ok | |].
    + intros t Ht. by destruct (Nf t).
    + intros t. apply (i_starting _ _ _ I).
  - intros q. case_decide as Hq.
    + subst q. rewrite (client_thread hs s p o Eo Et), (client_thread _ _ p (with_count o (refcount o - 1))) by (done || apply lookup_insert_eq).
      change (uses hs (put_obj p (with_count o (refcount o - 1)) s) p) with (uses hs s p). cbn. lia.
    + rewrite Z.sub_0_r. apply client_same; [by apply lookup_insert_ne | done].
  - intros q Nq. cbn. by rewrite lookup_insert_ne by congruence.
Qed.

(** ** The end of a thread *)

Lemma rep_set_threads l d A : DetoursSpec.rep d A -> DetoursSpec.rep (set_threads l d) A.
Proof.
  intros (rs & Ls & I & T & E & O & A1 & A2). exists rs, Ls. split; [by destruct I; constructor |].
  split; [exact T |]. split; [by destruct E; constructor |]. done.
Qed.

(** [func] on the intercepts, with the threads there are. *)
Lemma on_detours_run {X} hs s L me (m : Detours.D X) a d : inv hs s L ->
  m (set_threads (handle_of (DdkCurrentThread (my me s)) s <$> L) (detours s)) = Ok (a, d) ->
  on_detours me m s = Ok (a, set_detours d s).
Proof.
  intros I E. pose proof (i_list _ _ _ I) as Ls. unfold on_detours.
  rewrite (tbind _ _ _ _ _ (my_thread_run me s)). rewrite (tbind list_fuel _ s (S (size (bodies s))) s) by done.
  rewrite (tbind get _ s s s) by done.
  rewrite (tbind _ _ _ _ _ (handles_run s (DdkCurrentThread (my me s)) L (inv_placed _ _ _ I) (threadlist s) (S (size (bodies s))) Ls ltac:(pose proof (lseg_size _ _ _ _ Ls); lia))).
  by rewrite E.
Qed.

Lemma pointer_run hs s L p : inv hs s L -> is_Some (bodies s !! p) -> on_kern (ToPointer p) s = Ok (p, s) /\ on_kern (FromPointer p) s = Ok (p, s).
Proof.
  intros I Hb. apply (i_bodies _ _ _ I) in Hb as (o & Eo & Et). pose proof (i_objects _ _ _ I p o Eo Et) as Ok.
  pose proof (t_address _ _ _ _ Ok). pose proof (t_count _ _ _ _ Ok).
  destruct (thread_pointer_run (kern s) p o Eo Et ltac:(lia) ltac:(lia)) as [E1 E2].
  split; (apply on_kern_read; [by eapply inv_placed | done]).
Qed.

(** The intercepts that are not for the thread. *)
Definition others (p : Z) (A : Z -> list DetoursSpec.hook) (f : Z) : list DetoursSpec.hook :=
  filter (fun x => DetoursSpec.of_test 0 p x = false) (A f).

Lemma deinit_run hs s L me p A : inv hs s L -> is_Some (hs !! me) -> DdkCurrentThread (my me s) = p -> p <> 0 ->
  DetoursSpec.rep (detours s) A ->
  exists s' pre post, DdkThreadDeinit me s = Ok (tt, s') /\ L = pre ++ p :: post /\ inv hs s' (pre ++ post) /\
    my me s' = set_thread 0 (my me s) /\ (forall t, t <> me -> my t s' = my t s) /\
    DetoursSpec.rep (detours s') (others p A) /\
    (forall q, q <> 0 -> client hs s' q = client hs s q) /\ (forall q, q <> p -> objects (kern s') !! q = objects (kern s) !! q) /\
    (forall q x, bodies s' !! q = Some x -> exists y, bodies s !! q = Some y /\ x = set_next (next x) y) /\
    (objects (kern s') !! p = None <-> client hs s p = 0 /\ uses hs s p = 1).
Proof.
  intros I Hm Hc Np R.
  assert (p ∈ L) as Hin by (apply (i_member _ _ _ I); eauto).
  destruct (lseg_live _ _ _ _ _ (i_list _ _ _ I) Hin) as [_ [b Eb]].
  destruct (proj1 (i_bodies _ _ _ I p) ltac:(eauto)) as (o & Eo & Et). pose proof (i_objects _ _ _ I p o Eo Et) as Hok.
  apply list_elem_of_split in Hin as (pre & post & EL).
  destruct (DetoursSpec.detach_thread_run _ A p (rep_set_threads (handle_of (DdkCurrentThread (my me s)) s <$> L) _ A R)) as (st & d & Ed & Rd).
  pose proof (on_detours_run hs s L me _ st d I Ed) as R1.
  pose proof (inv_set_detours hs s L d _ I Rd) as I1. set (s1 := set_detours d s) in *.
  destruct (inv_leave hs s1 L me pre p b post I1 Hm Hc Np EL Eb) as [I2 C2]. set (s2 := left_list me pre p b s1) in *.
  assert (kern s2 = kern s) as K2 by (change (kern s2) with (kern (unlinked pre p b s1)); by rewrite (proj1 (unlinked_rest pre p b s1))).
  assert (client hs s p >= 0) as C0 by (rewrite (client_thread hs s p o Eo Et); destruct (t_count _ _ _ _ Hok); lia).
  assert (client hs s1 p = client hs s p) as C1 by done.
  destruct (inv_drop hs s2 (pre ++ post) p o I2 ltac:(by rewrite K2) Et ltac:(lia)) as (I3 & C3 & O3).
  exists (drop_state p o s2), pre, post. split.
  - unfold DdkThreadDeinit. rewrite (tbind _ _ _ _ _ (my_thread_run me s)), Hc.
    destruct (Z.eqb_spec p 0); [done |].
    rewrite (tbind _ _ s p s).
    2: { unfold DdkGetCurrentThread. rewrite (tbind _ _ _ _ _ (my_thread_run me s)), Hc. destruct (Z.eqb_spec p 0); [done |].
         rewrite (tbind (mret tt) _ s tt s) by done. rewrite (tbind _ _ _ _ _ (my_thread_run me s)), Hc.
         by apply (pointer_run hs s L). }
    rewrite (tbind _ _ _ _ _ R1). fold s1.
    rewrite (tbind DdkThreadLock _ s1 tt (set_Locked true s1)) by (unfold DdkThreadLock; by rewrite (i_free _ _ _ I1)).
    set (s1l := set_Locked true s1). rewrite (tbind list_fuel _ s1l (S (size (bodies s1l))) s1l) by done.
    pose proof (i_list _ _ _ I1) as Ls1.
    rewrite (tbind _ _ s1l tt (unlinked pre p b s1l)).
    2: { apply (unlink_run p s1l L Ls1 [] pre post b); try done. pose proof (lseg_size _ _ _ _ Ls1) as Sz. rewrite EL, length_app in Sz. change (bodies s1l) with (bodies s1). lia. }
    destruct (unlinked_rest pre p b s1l) as (Ek & _).
    rewrite (tbind _ _ _ tt (drop_state p o (unlinked pre p b s1l))).
    2: { apply (drop_thread_at hs s p o); [done | by rewrite Ek | rewrite Ek; apply (i_names _ _ _ I) | | by rewrite Ek | done].
         intros q Hq. rewrite Ek. rewrite unlinked_is_some in Hq by done. apply (inv_placed _ _ _ I1 q Hq). }
    assert (forall x, Locked x = false -> set_Locked false (set_Locked true x) = x) as Hl by (intros [] E; cbn in E; by subst).
    unfold change_tls, DdkThreadUnlock, modify, mbind, M_bind. do 2 f_equal.
    unfold s2, s1l, left_list, drop_state, unlinked, my. pose proof (i_free _ _ _ I1) as Lk. destruct s1 as [k1 b1 p1 q1 t1 l1 tl1 d1]. cbn in Lk. subst l1.
    by destruct (refcount o =? 1), (last pre).
  - split; [done |]. split; [done |].
    assert (forall t, my t (drop_state p o s2) = my t s2) as M3 by (intros t; unfold drop_state; by destruct (refcount o =? 1)).
    assert (forall t, my t s2 = if decide (t = me) then set_thread 0 (my me s) else my t s) as M2.
    { intros t. unfold my at 1. change (tls s2) with (<[me := set_thread 0 (my me s1)]> (tls (unlinked pre p b s1))). rewrite (proj1 (proj2 (proj2 (proj2 (proj2 (unlinked_rest pre p b s1)))))).
      case_decide as Ht; [subst; by rewrite lookup_insert_eq | by rewrite lookup_insert_ne]. }
    split; [by rewrite M3, M2, decide_True |]. split; [intros t Ht; by rewrite M3, M2, decide_False |].
    assert (detours (drop_state p o s2) = d) as D3.
    { transitivity (detours s2); [unfold drop_state; by destruct (refcount o =? 1) |].
      change (detours s2) with (detours (unlinked pre p b s1)). apply unlinked_rest. }
    split; [by rewrite D3 |].
    assert (forall q, q <> 0 -> client hs s2 q = client hs s q + (if decide (p = q) then 1 else 0)) as C2'.
    { intros q Nq. case_decide as Hq; [subst q; lia |]. rewrite Z.add_0_r. apply client_same; [by rewrite K2 |].
      assert (uses hs s2 q = uses hs (set_tls <[me := set_thread 0 (my me s)]> s) q) as ->.
      { unfold uses. change (tls s2) with (<[me := set_thread 0 (my me s1)]> (tls (unlinked pre p b s1))). by rewrite (proj1 (proj2 (proj2 (proj2 (proj2 (unlinked_rest pre p b s1)))))). }
      rewrite uses_tls by done. unfold current_hit. rewrite Hc. cbn [set_thread DdkCurrentThread]. rewrite !decide_False by congruence. lia. }
    split; [intros q Nq; rewrite C3, C2' by done; case_decide; lia |].
    split; [intros q Nq; rewrite O3 by done; by rewrite K2 |].
    split.
    { intros q x Ex. apply (unlinked_body pre p b s1 q x Eb). change (bodies (unlinked pre p b s1)) with (bodies s2).
      unfold drop_state in Ex. destruct (refcount o =? 1); [| done].
      change (delete p (bodies s2) !! q = Some x) in Ex. by apply lookup_delete_Some in Ex as [_ Ex]. }
    pose proof (client_thread hs s p o Eo Et) as Hz. pose proof (uses_current hs s me p Np Hc) as Hu.
    unfold drop_state. destruct (Z.eqb_spec (refcount o) 1).
    + split; [intros _; lia |]. intros _. apply lookup_delete_eq.
    + split; [| lia]. cbn. by rewrite lookup_insert_eq.
Qed.
End spec.

(** * making, starting and ending system threads *)

Section create.
Context `{Environment} `{Locale} `{Detours.DETOURS} `{!DetoursInv.DETOURS_Laws} `{HOST_THREADS}.

Implicit Types s : state.

(** What [DdkThreadInit] needs: memory and a handle, unless the thread is known. *)
Definition init_given me (init : option Z * option Z) s : Prop :=
  DdkCurrentThread (my me s) <> 0 \/ exists p hnd, init = (Some p, Some hnd) /\ fresh s p /\ good_handle hnd.

Lemma init_run hs s L me init : inv hs s L -> is_Some (hs !! me) -> init_given me init s ->
  exists s' L', DdkThreadInit me init.1 init.2 s = Ok (tt, s') /\ inv hs s' L' /\ init_frame me s s' /\
    (DdkCurrentThread (my me s') = DdkCurrentThread (my me s) /\ DdkCurrentThread (my me s) <> 0 \/ init.1 = Some (DdkCurrentThread (my me s'))) /\
    settled hs s hs s'.
Proof.
  intros I Hm G. destruct (Z.eq_dec (DdkCurrentThread (my me s)) 0) as [E0 | N0].
  - destruct G as [G | (p & hnd & -> & Fp & Hg)]; [done |].
    destruct (init_fresh hs s L me p hnd I Hm E0 Fp Hg) as (s' & R & I' & F & E & S). exists s', (p :: L).
    split_and!; try done. right. by rewrite E.
  - destruct (init_known hs s L me init.1 init.2 I Hm N0) as (s' & R & I' & F & E & S & _). exists s', L. split_and!; try done. left. by rewrite E.
Qed.

(** ** Creation *)

Definition the_process (ProcessHandle : Z) : T Z :=
  if ProcessHandle =? 0 then mret SystemProcess else p ← on_kern (FromHandle ProcessHandle); GetProcess p.

Lemma reads_state {A} (m : K A) s a s' : placed s -> (forall k b k', m k = Ok (b, k') -> k' = k) -> on_kern m s = Ok (a, s') -> s' = s.
Proof.
  intros Hp Hr. unfold on_kern. destruct (m (kern s)) as [[b k] |] eqn:E; [| done]. apply Hr in E as ->.
  intros E. injection E as _ <-. by apply set_kern_id.
Qed.

Lemma object_at_reads p k b k' : object_at p k = Ok (b, k') -> k' = k.
Proof. unfold object_at. destruct (objects k !! p); [| done]. intros E. by injection E as _ <-. Qed.

Lemma FromHandle_reads hnd k b k' : FromHandle hnd k = Ok (b, k') -> k' = k.
Proof.
  unfold FromHandle, isHandleObject. cbv zeta. unfold mbind, M_bind. destruct (isValidObject k _).
  - destruct (object_at _ k) as [[o k1] |] eqn:E; [| done]. apply object_at_reads in E as ->. intros E. by injection E as _ <-.
  - intros E. by injection E as _ <-.
Qed.

(** The handle is that of a process, if the call comes back. *)
Lemma the_process_inv hs s L ph q s' : inv hs s L -> system_process s -> the_process ph s = Ok (q, s') ->
  s' = s /\ is_Some (processes s !! q) /\ q <> 0.
Proof.
  intros I Hsp. pose proof (inv_placed _ _ _ I) as Hp. unfold the_process. destruct (ph =? 0).
  - intros E. injection E as <- <-. split; [done |]. destruct Hsp as (o & Eo & To).
    split; [by apply (i_processes _ _ _ I _ o) | apply (i_zero _ _ _ I)].
  - unfold mbind, M_bind. destruct (on_kern (FromHandle ph) s) as [[p s1] |] eqn:E1; [| done].
    apply reads_state in E1 as ->; [| done | by apply FromHandle_reads].
    unfold GetProcess. destruct (Z.eqb_spec p 0); [done |]. unfold mbind, M_bind.
    destruct (on_kern (object_at p) s) as [[o s1] |] eqn:E2; [| done].
    pose proof E2 as E3. apply reads_state in E2 as ->; [| done | by intros ? ? ?; apply object_at_reads].
    destruct (Z.eqb_spec (type o) ProcessType) as [To |]; cbn [negb]; [| done]. intros E. injection E as <- <-.
    split; [done |]. unfold on_kern, object_at in E3. destruct (objects (kern s) !! p) as [o' |] eqn:Eo; [| done].
    injection E3 as -> _. split; [by apply (i_processes _ _ _ I p o) | done].
Qed.

Definition new_object : OBJECT := mkObject ThreadType true 2 0 Plain.
Definition new_body q start ctx : THREAD := mkThread start ctx q DefaultThreadPriority DefaultBaseThreadPriority 0 0.

Lemma create_begin_eq me init calloc ph start ctx s s1 q : DdkThreadInit me init.1 init.2 s = Ok (tt, s1) ->
  CurrentIrql (kern s1) = PASSIVE_LEVEL -> placed s1 -> the_process ph s1 = Ok (q, s1) ->
  create_begin me init calloc ph start ctx s =
  match calloc with
  | None => Ok (None, s1)
  | Some p => Ok (Some p, add_thread p new_object (new_body q start ctx) s1)
  end.
Proof.
  intros R Hi Hp Rq. unfold create_begin. rewrite (tbind _ _ _ _ _ R).
  rewrite (tbind (on_kern at_passive) _ s1 tt s1).
  2: { apply on_kern_read; [done |]. unfold at_passive, assert_irql, KeGetCurrentIrql, mbind, M_bind. by rewrite Hi. }
  fold (the_process ph). rewrite (tbind _ _ _ _ _ Rq). destruct calloc as [p |].
  2: { by rewrite (tbind (on_kern _) _ s1 None s1) by (apply on_kern_read; done). }
  rewrite (tbind _ _ s1 (Some p) (put_obj p (mkObject ThreadType true 1 0 Plain) s1)).
  2: { rewrite <- set_kern_put by done. done. }
  set (sa := put_obj p _ s1). fold (new_body q start ctx). set (b := new_body q start ctx).
  rewrite (tbind (modify _) _ sa tt (set_bodies <[p := b]> sa)) by done. set (sb := set_bodies <[p := b]> sa).
  assert (placed sb) as Hpb.
  { intros x Hx. change (is_Some (<[p := b]> (bodies s1) !! x)) in Hx. apply lookup_insert_is_Some' in Hx.
    change (is_Some (<[p := mkObject ThreadType true 1 0 Plain]> (objects (kern s1)) !! x)). apply lookup_insert_is_Some'.
    destruct Hx as [-> | Hx]; [by left | right; by apply Hp]. }
  rewrite (tbind _ _ sb tt (put_obj p new_object sb)).
  2: { rewrite <- set_kern_put by done. unfold on_kern, DdkReferenceObject, InterlockedIncrement.
       rewrite (kbind _ _ (kern sb) 2 (set_objects (<[p := new_object]> (objects (kern sb))) (kern sb))); [done |].
       rewrite (kbind _ _ (kern sb) _ (kern sb)) by (apply object_at_run; apply lookup_insert_eq). done. }
  unfold sb, sa, put_obj, add_thread, set_bodies, set_objects. unfold mret, M_ret. cbn. by rewrite insert_insert_eq.
Qed.

(** How often the thread is in the stages of the others, when [me] enters a stage of its own. *)
Lemma tally_enter (P : stage -> Prop) `{forall a, Decision (P a)} hs me st : hs !! me = Some Running -> ~ P Running ->
  tally P (<[me := st]> hs) = (tally P hs + hit P (Some st))%nat.
Proof.
  intros Hm Hn. pose proof (tally_insert P hs me st) as E. rewrite Hm in E. cbn [hit] in E. rewrite (decide_False (P := P Running)) in E by done.
  cbn [hit]. lia.
Qed.

Lemma tally_new (P : stage -> Prop) `{forall a, Decision (P a)} hs n st : hs !! n = None ->
  tally P (<[n := st]> hs) = (tally P hs + hit P (Some st))%nat.
Proof. intros Hn. pose proof (tally_insert P hs n st) as E. rewrite Hn in E. cbn [hit] in *. lia. Qed.

Lemma tally_leave (P : stage -> Prop) `{forall a, Decision (P a)} hs me st : hs !! me = Some st -> ~ P Running ->
  (tally P (<[me := Running]> hs) + hit P (Some st))%nat = tally P hs.
Proof.
  intros Hm Hn. pose proof (tally_insert P hs me Running) as E. rewrite Hm in E. cbn [hit] in E |- *.
  rewrite (decide_False (P := P Running)) in E by done. lia.
Qed.

(** The stages behind [CreateThread]: with a handle there is a host thread [n] to start. *)
Definition created me n p hnd (hs : gmap Z stage) : gmap Z stage :=
  let hs := <[me := Creating p hnd]> hs in if hnd =? 0 then hs else <[n := Starting p]> hs.

Lemma created_tallies hs me n p hnd q : hs !! me = Some Running -> hs !! n = None ->
  tally (creates q) (created me n p hnd hs) = (tally (creates q) hs + (if decide (p = q) then 1 else 0))%nat /\
  tally (fails q) (created me n p hnd hs) = (tally (fails q) hs + (if decide (p = q /\ hnd = 0%Z) then 1 else 0))%nat /\
  tally (starts q) (created me n p hnd hs) = (tally (starts q) hs + (if decide (p = q /\ hnd <> 0%Z) then 1 else 0))%nat.
Proof.
  intros Hm Hn. assert (n <> me) as Nn by (intros ->; congruence). unfold created.
  destruct (Z.eqb_spec hnd 0) as [-> | Nh]; cbv zeta.
  - rewrite !(tally_enter _ hs me) by (try done; intros []). unfold hit. split_and!; repeat case_decide; cbn in *; try lia; naive_solver.
  - rewrite !(tally_new _ (<[me := Creating p hnd]> hs) n) by (by rewrite lookup_insert_ne).
    rewrite !(tally_enter _ hs me) by (try done; intros []). unfold hit. split_and!; repeat case_decide; cbn in *; try lia; naive_solver.
Qed.

Lemma created_lookup hs me n p hnd t st : created me n p hnd hs !! t = Some st ->
  (t = me /\ st = Creating p hnd) \/ (t = n /\ hnd <> 0 /\ st = Starting p) \/ hs !! t = Some st.
Proof.
  unfold created. cbv zeta. intros E. destruct (Z.eqb_spec hnd 0); rewrite ?lookup_insert_Some in E; naive_solver.
Qed.

Lemma created_stages hs s L me n p hnd : inv hs s L -> hs !! me = Some Running -> hs !! n = None -> p <> 0 -> tally (starts p) hs = 0%nat -> (hnd <> 0 -> hnd <> GetCurrentProcess) ->
  stages_ok hs (created me n p hnd hs) p.
Proof.
  intros I Hm Hn Np Z0 Nh. split.
  - intros t Ht. unfold created. cbv zeta. destruct (hnd =? 0); rewrite ?lookup_insert_is_Some'; auto.
  - intros q Nq. destruct (created_tallies hs me n p hnd q Hm Hn) as (-> & -> & ->). rewrite !decide_False by naive_solver. lia.
  - intros t q Nq Ht. apply created_lookup in Ht as [[-> E] | [(-> & _ & E) | Ht]]; [congruence | done | done].
  - intros t q hq Ht. apply created_lookup in Ht as [[-> E] | [(-> & _ & E) | Ht]]; [by simplify_eq | done | by apply (i_handles _ _ _ I t)].
  - intros t q Ht. apply created_lookup in Ht as [[-> E] | [(-> & _ & E) | Ht]]; [done | by simplify_eq | by apply (i_starts _ _ _ I t)].
  - intros t q Nq Ht. apply created_lookup in Ht as [[-> E] | [(-> & _ & E) | Ht]]; [done | congruence | done].
  - intros t u Ht Hu.
    assert (forall x, hs !! x <> Some (Starting p)) as Ns.
    { intros x Hx. pose proof (tally_pos (starts p) hs x _ Hx eq_refl). lia. }
    apply created_lookup in Ht as [[-> E] | [(-> & _ & E) | Ht]]; [done | | by destruct (Ns t)].
    apply created_lookup in Hu as [[-> E'] | [(-> & _ & E') | Hu]]; [done | done | by destruct (Ns u)].
Qed.

Lemma no_stages hs s L p : inv hs s L -> fresh s p -> tally (creates p) hs = 0%nat /\ tally (fails p) hs = 0%nat /\ tally (starts p) hs = 0%nat /\
  tally (fun l => DdkCurrentThread l = p) (tls s) = 0%nat.
Proof. intros I (Fp & Ha & _). pose proof (not_used hs s L p I Fp ltac:(lia)) as U. unfold uses in U. lia. Qed.

Lemma inv_created hs s L me n p hnd q start ctx : inv hs s L -> hs !! me = Some Running -> hs !! n = None -> fresh s p ->
  (hnd <> 0 -> hnd <> GetCurrentProcess) -> system_process s -> is_Some (processes s !! q) /\ q <> 0 ->
  inv (created me n p hnd hs) (add_thread p new_object (new_body q start ctx) s) L.
Proof.
  intros I Hm Hn Fp Nh Hsys Hq. destruct (no_stages hs s L p I Fp) as (E1 & E2 & E3 & E4). destruct Fp as (Fp & Ha).
  destruct (created_tallies hs me n p hnd p Hm Hn) as (C1 & C2 & C3).
  apply (inv_new hs _ s L p); try done.
  - apply (created_stages hs s L me n p hnd); try done; lia.
  - cbn [new_object refcount]. unfold uses. rewrite C1, C2, C3, E1, E2, E3, E4. repeat case_decide; try lia; naive_solver.
  - cbn [new_object h]. split; [done |]. intros _. rewrite C1, E1. rewrite decide_True by done. lia.
Qed.

(** Of its two references one is the new thread's and one goes to the creator. *)
Lemma settled_created hs s L me n p hnd q start ctx : inv hs s L -> hs !! me = Some Running -> hs !! n = None -> fresh s p ->
  (hnd <> 0 -> hnd <> GetCurrentProcess) -> settled hs s (created me n p hnd hs) (add_thread p new_object (new_body q start ctx) s).
Proof.
  intros I Hm Hn Fp Nh x Nx. destruct (no_stages hs s L p I Fp) as (E1 & E2 & E3 & E4). destruct Fp as (Fp & Ha).
  destruct (created_tallies hs me n p hnd p Hm Hn) as (C1 & C2 & C3).
  pose proof (created_stages hs s L me n p hnd I Hm Hn ltac:(lia) ltac:(lia) Nh) as S.
  destruct (decide (x = p)) as [-> | Nxp].
  - rewrite (client_none hs s), (client_thread _ _ p new_object) by (done || apply lookup_insert_eq).
    change (uses (created me n p hnd hs) (add_thread p new_object (new_body q start ctx) s) p) with (uses (created me n p hnd hs) s p).
    unfold uses. rewrite C1, C2, C3, E1, E2, E3, E4. cbn. repeat case_decide; try lia; naive_solver.
  - apply client_same; [apply lookup_insert_ne; congruence |]. exact (uses_stages hs _ p s x S Nxp).
Qed.

(** ** The end of a creation *)

Lemma leave_stages hs s L me p st : inv hs s L -> hs !! me = Some st -> st <> Running ->
  (forall q, creates q st \/ starts q st -> q = p) -> stages_ok hs (<[me := Running]> hs) p.
Proof.
  intros I Hm Hst Hp. split.
  - intros t Ht. rewrite lookup_insert_is_Some'. by right.
  - intros q Nq.
    pose proof (tally_leave (creates q) hs me st Hm ltac:(intros [])) as E1.
    pose proof (tally_leave (fails q) hs me st Hm ltac:(intros [])) as E2.
    pose proof (tally_leave (starts q) hs me st Hm ltac:(intros [])) as E3.
    assert (fails q st -> creates q st) as Hf by (destruct st; cbn; naive_solver).
    unfold hit in E1, E2, E3. rewrite (decide_False (P := creates q st)) in E1 by naive_solver.
    rewrite (decide_False (P := fails q st)) in E2 by naive_solver. rewrite (decide_False (P := starts q st)) in E3 by naive_solver. lia.
  - intros t q _ Ht. apply lookup_insert_Some in Ht as [[_ E] | [_ Ht]]; done.
  - intros t q hq Ht. apply lookup_insert_Some in Ht as [[_ E] | [_ Ht]]; [done | by apply (i_handles _ _ _ I t)].
  - intros t q Ht. apply lookup_insert_Some in Ht as [[_ E] | [_ Ht]]; [done | by apply (i_starts _ _ _ I t)].
  - intros t q _ Ht. apply lookup_insert_Some in Ht as [[_ E] | [_ Ht]]; done.
  - intros t u Ht Hu. apply lookup_insert_Some in Ht as [[_ E] | [_ Ht]]; [done |]. apply lookup_insert_Some in Hu as [[_ E] | [_ Hu]]; [done |].
    by apply (i_once _ _ _ I t u p).
Qed.

Lemma thread_of hs s L p : inv hs s L -> p <> 0 -> 0 < uses hs s p ->
  exists o, objects (kern s) !! p = Some o /\ type o = ThreadType /\ thread_ok hs s p o.
Proof.
  intros I Np Hu. apply (i_used _ _ _ I p Np), (i_bodies _ _ _ I) in Hu as (o & Eo & Et).
  exists o. split; [done |]. split; [done |]. by apply (i_objects _ _ _ I).
Qed.

Definition with_handle o hnd : OBJECT := mkObject (type o) (alloc o) (refcount o) hnd (contents o).

(** The handle of the thread is stored, and the driver gets one of the references. *)
Lemma create_end_run hs s L me p hnd : inv hs s L -> hs !! me = Some (Creating p hnd) -> hnd <> 0 ->
  exists o, objects (kern s) !! p = Some o /\
    create_end p hnd s = Ok ((STATUS_SUCCESS, Some (ToHandle p)), put_obj p (with_handle o hnd) s) /\
    inv (<[me := Running]> hs) (put_obj p (with_handle o hnd) s) L /\
    (forall q, q <> 0 -> client (<[me := Running]> hs) (put_obj p (with_handle o hnd) s) q = client hs s q + (if decide (p = q) then 1 else 0)).
Proof.
  intros I Hm Nh. destruct (i_handles _ _ _ I me p hnd Hm) as [Np Hg].
  pose proof (tally_pos (creates p) hs me _ Hm eq_refl) as Hpos.
  destruct (thread_of hs s L p I Np ltac:(unfold uses; lia)) as (o & Eo & Et & Hok).
  exists o. split; [done |].
  pose proof (tally_leave (creates p) hs me _ Hm ltac:(intros [])) as T1.
  pose proof (tally_leave (fails p) hs me _ Hm ltac:(intros [])) as T2.
  pose proof (tally_leave (starts p) hs me _ Hm ltac:(intros [])) as T3.
  unfold hit in T1, T2, T3. rewrite (decide_True (P := creates p (Creating p hnd))) in T1 by done.
  rewrite (decide_False (P := fails p (Creating p hnd))) in T2 by (cbn; naive_solver).
  rewrite (decide_False (P := starts p (Creating p hnd))) in T3 by (intros []).
  assert (uses (<[me := Running]> hs) s p = uses hs s p - 1) as Hu by (unfold uses; lia).
  split; [| split].
  - unfold create_end. pose proof (inv_placed _ _ _ I) as Hp. rewrite (tbind _ _ s tt _ (set_h_run p hnd o s Hp Eo)). fold (with_handle o hnd).
    rewrite (tbind _ _ _ (with_handle o hnd) (put_obj p (with_handle o hnd) s)).
    2: { apply object_read; [by apply put_obj_placed | apply lookup_insert_eq]. }
    cbn [h with_handle]. destruct (Z.eqb_spec hnd 0); done.
  - apply (inv_object hs _ s L p o); try done; try apply Hok.
    + apply (leave_stages hs s L me p (Creating p hnd)); try done. intros q [E | E]; by cbn in E.
    + cbn. destruct (t_count _ _ _ _ Hok). lia.
    + intros t Ht. apply lookup_insert_Some in Ht as [[_ E] | [_ Ht]]; [done |]. by apply (i_fails _ _ _ I t p o).
    + intros t Ht. apply lookup_insert_Some in Ht as [[_ E] | [_ Ht]]; [done |]. by apply (i_starting _ _ _ I t).
  - intros q Nq. case_decide as Hq.
    2: { rewrite Z.add_0_r. apply client_same; [by apply lookup_insert_ne |]. apply (uses_stages hs _ p s); [| congruence].
         apply (leave_stages hs s L me p (Creating p hnd)); try done. intros x [E | E]; by cbn in E. }
    subst q. rewrite (client_thread hs s p o Eo Et), (client_thread _ _ p (with_handle o hnd)) by (done || apply lookup_insert_eq). cbn [refcount with_handle].
    change (uses (<[me := Running]> hs) (put_obj p (with_handle o hnd) s) p) with (uses (<[me := Running]> hs) s p). lia.
Qed.

(** Nothing is left of a thread that could not be made. *)
Lemma create_end_failed hs s L me p : inv hs s L -> hs !! me = Some (Creating p 0) ->
  create_end p 0 s = Ok ((STATUS_INSUFFICIENT_RESOURCES, None), remove_thread p (Freed p :: events (kern s)) s) /\
  inv (<[me := Running]> hs) (remove_thread p (Freed p :: events (kern s)) s) L /\
  settled hs s (<[me := Running]> hs) (remove_thread p (Freed p :: events (kern s)) s).
Proof.
  intros I Hm. destruct (i_handles _ _ _ I me p 0 Hm) as [Np Hg].
  pose proof (tally_pos (creates p) hs me _ Hm eq_refl) as Hpos.
  destruct (thread_of hs s L p I Np ltac:(unfold uses; lia)) as (o & Eo & Et & Hok).
  pose proof (tally_leave (creates p) hs me _ Hm ltac:(intros [])) as T1.
  pose proof (tally_leave (fails p) hs me _ Hm ltac:(intros [])) as T2.
  pose proof (tally_leave (starts p) hs me _ Hm ltac:(intros [])) as T3.
  unfold hit in T1, T2, T3. rewrite (decide_True (P := creates p (Creating p 0))) in T1 by done.
  rewrite (decide_True (P := fails p (Creating p 0))) in T2 by done.
  rewrite (decide_False (P := starts p (Creating p 0))) in T3 by (intros []).
  pose proof (i_fails _ _ _ I me p o Hm Eo) as R2. destruct (t_count _ _ _ _ Hok) as [_ Hle].
  assert (uses (<[me := Running]> hs) s p = 0) as Hu by (unfold uses in *; lia).
  split; [| split].
  - unfold create_end. pose proof (inv_placed _ _ _ I) as Hp. rewrite (tbind _ _ s tt _ (set_h_run p 0 o s Hp Eo)). fold (with_handle o 0).
    set (s1 := put_obj p (with_handle o 0) s). assert (placed s1) as Hp1 by by apply put_obj_placed.
    rewrite (tbind _ _ s1 (with_handle o 0) s1) by (apply object_read; [done | apply lookup_insert_eq]).
    cbn [h with_handle]. cbn [Z.eqb].
    rewrite (tbind _ _ s1 tt (remove_thread p (Freed p :: events (kern s1)) s1)).
    + unfold mret, M_ret, s1, remove_thread, put_obj, set_objects. cbn. by rewrite delete_insert_eq.
    + rewrite (kern_run _ _ tt (mkKernel (delete p (objects (kern s1))) (DdkNameList (kern s1)) (CurrentIrql (kern s1)) (Freed p :: events (kern s1)))) by done.
      by rewrite set_kern_delete.
  - apply (inv_gone hs _ s L p o); try done. apply (leave_stages hs s L me p (Creating p 0)); try done. intros q [E | E]; by cbn in E.
  - intros q Nq. destruct (decide (p = q)) as [<- | Nq'].
    + rewrite (client_thread hs s p o Eo Et), client_none by apply lookup_delete_eq. unfold uses in *. lia.
    + apply client_same; [by apply lookup_delete_ne |]. apply (uses_stages hs _ p s); [| congruence].
      apply (leave_stages hs s L me p (Creating p 0)); try done. intros x [E | E]; by cbn in E.
Qed.

(** ** The start of a thread *)

(** [DdkThreadDeinit], whether the thread is known or not. *)
Lemma deinit_any hs s L me : inv hs s L -> is_Some (hs !! me) ->
  exists s' L', DdkThreadDeinit me s = Ok (tt, s') /\ inv hs s' L' /\ DdkCurrentThread (my me s') = 0 /\
    (forall t, t <> me -> my t s' = my t s) /\ (forall q, q <> 0 -> client hs s' q = client hs s q) /\
    (forall q x, bodies s' !! q = Some x -> exists y, bodies s !! q = Some y /\ x = set_next (next x) y).
Proof.
  intros I Hm. destruct (Z.eq_dec (DdkCurrentThread (my me s)) 0) as [E0 | N0].
  - exists s, L. split; [unfold DdkThreadDeinit; by rewrite (tbind _ _ _ _ _ (my_thread_run me s)), E0 |].
    split_and!; try done. intros q x Ex. exists x. split; [done |]. by destruct x.
  - destruct (i_detours _ _ _ I) as [A R].
    destruct (deinit_run hs s L me _ A I Hm eq_refl N0 R) as (s' & pre & post & R' & _ & I' & M & O & _ & C & _ & B & _).
    exists s', (pre ++ post). split_and!; try done. by rewrite M.
Qed.

Lemma put_obj_same p o s : objects (kern s) !! p = Some o -> put_obj p o s = s.
Proof. intros E. unfold put_obj, set_objects. rewrite insert_id by done. by destruct s as [[] ? ? ? ? ? ? ?]. Qed.

Lemma init_ready_run me s calloc dup : placed s -> system_process s -> DdkCurrentProcess (my me s) <> 0 -> DdkCurrentThread (my me s) <> 0 ->
  DdkThreadInit me calloc dup s = Ok (tt, set_tls <[me := set_SoftFpcr (DdkCurrentThread (my me s)) (my me s)]> s).
Proof.
  intros Hp (o & Eo & To) Np Nc. unfold DdkThreadInit.
  rewrite (tbind init_process _ s tt s).
  2: { unfold init_process. rewrite (tbind _ _ s o s (object_read s _ o Hp Eo)). rewrite To. done. }
  rewrite (tbind _ _ _ _ _ (my_process_run me s)). apply Z.eqb_neq in Np, Nc. rewrite Np.
  rewrite (tbind (mret tt) _ s tt s) by done. rewrite (tbind _ _ _ _ _ (my_thread_run me s)), Nc.
  rewrite (tbind (mret tt) _ s tt s) by done. by rewrite (tbind _ _ _ _ _ (my_thread_run me s)).
Qed.

(** The reference of the thread to start with is that of the current thread now. *)
Lemma settled_started hs s L me p b o : inv hs s L -> hs !! me = Some (Starting p) -> DdkCurrentThread (my me s) = 0 ->
  objects (kern s) !! p = Some o -> forall l, DdkCurrentThread l = p -> settled hs s (<[me := Running]> hs) (entered me p b l s).
Proof.
  intros I Hm Hc Eo l El q Nq. apply client_same; [done |]. pose proof (i_starts _ _ _ I me p Hm) as Np.
  change (uses (<[me := Running]> hs) (entered me p b l s) q) with (uses (<[me := Running]> hs) (set_tls <[me := l]> s) q).
  rewrite uses_tls by done. unfold current_hit. rewrite Hc, El, (decide_False (P := 0 = q)) by congruence.
  pose proof (tally_leave (creates q) hs me _ Hm ltac:(intros [])) as T1.
  pose proof (tally_leave (fails q) hs me _ Hm ltac:(intros [])) as T2.
  pose proof (tally_leave (starts q) hs me _ Hm ltac:(intros [])) as T3.
  unfold hit in T1, T2, T3. rewrite (decide_False (P := creates q (Starting p))) in T1 by (intros []).
  rewrite (decide_False (P := fails q (Starting p))) in T2 by (intros []).
  assert (starts q (Starting p) <-> p = q) as Hs by done. unfold uses. repeat case_decide; lia || tauto.
Qed.

Lemma start_thread_run hs s L me p o : inv hs s L -> hs !! me = Some (Starting p) -> objects (kern s) !! p = Some o -> h o <> 0 ->
  exists s' L' b, bodies s !! p = Some b /\ StartThread me p s = Ok ((Start b, Context b), s') /\
    inv (<[me := Running]> hs) s' L' /\ DdkCurrentThread (my me s') = p /\ DdkCurrentProcess (my me s') = process b /\
    SoftFpcr (my me s') = p /\ (forall t, t <> me -> my t s' = my t s) /\ settled hs s (<[me := Running]> hs) s'.
Proof.
  intros I Hm Eo Nh. pose proof (i_starts _ _ _ I me p Hm) as Np. pose proof (inv_placed _ _ _ I) as Hp.
  destruct (deinit_any hs s L me I ltac:(eauto)) as (s1 & L1 & R1 & I1 & C1 & O1 & Cl1 & B1).
  pose proof (tally_pos (starts p) hs me _ Hm eq_refl) as Hpos.
  destruct (thread_of hs s1 L1 p I1 Np ltac:(unfold uses; lia)) as (o1 & Eo1 & Et1 & Hok).
  destruct (proj2 (i_bodies _ _ _ I1 p) ltac:(eauto)) as [b1 Eb1]. destruct (B1 p b1 Eb1) as (b & Eb & Eb1').
  pose proof (tally_leave (creates p) hs me _ Hm ltac:(intros [])) as T1.
  pose proof (tally_leave (fails p) hs me _ Hm ltac:(intros [])) as T2.
  pose proof (tally_leave (starts p) hs me _ Hm ltac:(intros [])) as T3.
  unfold hit in T1, T2, T3. rewrite (decide_False (P := creates p (Starting p))) in T1 by (intros []).
  rewrite (decide_False (P := fails p (Starting p))) in T2 by (intros []).
  rewrite (decide_True (P := starts p (Starting p))) in T3 by done.
  set (hs' := <[me := Running]> hs).
  assert (uses hs' s1 p = uses hs s1 p - 1) as Hu by (unfold uses, hs'; lia).
  assert (forall t, hs' !! t <> Some (Starting p)) as Nst.
  { intros t Ht. apply lookup_insert_Some in Ht as [[_ E] | [Nt Ht]]; [done |]. apply Nt. by apply (i_once _ _ _ I me t p). }
  assert (inv hs' s1 L1) as I2.
  { rewrite <- (put_obj_same p o1 s1 Eo1). pose proof (t_count _ _ _ _ Hok). apply (inv_object hs hs' s1 L1 p o1 o1); try done; try apply Hok.
    - apply (leave_stages hs s1 L1 me p (Starting p)); try done. intros q [E | E]; by cbn in E.
    - lia.
    - destruct (t_handle _ _ _ _ Hok) as [Hh1 Hh2]. split; [done |]. intros Z0. specialize (Hh2 Z0). unfold hs'. lia.
    - intros t Ht. apply lookup_insert_Some in Ht as [[_ E] | [_ Ht]]; [done |]. by apply (i_fails _ _ _ I1 t p o1).
    - intros t Ht. by destruct (Nst t). }
  set (l := set_SoftFpcr p (set_process (process b1) (set_thread p (my me s1)))).
  assert (p ∉ L1) as NL by (by apply (i_starting _ _ _ I1 me p)).
  exists (entered me p b1 l s1), (p :: L1), b. split; [done |]. split.
  - unfold StartThread. rewrite (tbind _ _ s o s (object_read s p o Hp Eo)). apply Z.eqb_neq in Nh. rewrite Nh.
    rewrite (tbind _ _ _ _ _ R1).
    rewrite (tbind (change_tls _ _) _ s1 tt (set_tls <[me := set_thread p (my me s1)]> s1)) by done.
    set (s2 := set_tls <[me := set_thread p (my me s1)]> s1).
    rewrite (tbind _ _ s2 b1 s2 (body_at_run s2 p b1 Eb1)).
    set (s3 := set_tls <[me := set_process (process b1) (set_thread p (my me s1))]> s1).
    rewrite (tbind _ _ s2 tt s3).
    2: { unfold change_tls, modify. unfold s2 at 1. rewrite my_self. unfold s2, s3, set_tls. cbn. by rewrite insert_insert_eq. }
    set (s4 := set_tls <[me := l]> s1).
    rewrite (tbind _ _ s3 tt s4).
    2: { rewrite init_ready_run.
         - unfold s3 at 1 2. rewrite my_self. unfold s3, s4, set_tls, l. cbn. by rewrite insert_insert_eq.
         - exact (inv_placed _ _ _ I1).
         - exact (i_ready _ _ _ I1 p (mk_is_Some _ _ Eb1)).
         - unfold s3. rewrite my_self. apply (i_process _ _ _ I1 p b1 Eb1).
         - unfold s3. by rewrite my_self. }
    rewrite (tbind _ _ s4 tt (entered me p b1 l s1)).
    + rewrite Eb1'. done.
    + rewrite (insert_thread_run s4 me p b1 L1).
      * done.
      * exact (i_free _ _ _ I1).
      * unfold s4. by rewrite my_self.
      * exact Eb1.
      * exact (i_list _ _ _ I1).
      * done.
      * intros q x Hq Ex Ei. apply (i_member _ _ _ I1) in Hq as [Nq [t Et]].
        assert (ThreadId x = t) as Ex' by (apply (i_id _ _ _ I1); by rewrite Et). rewrite Ei in Ex'. subst t. congruence.
  - assert (my me (entered me p b1 l s1) = l) as M by (rewrite my_entered; by rewrite decide_True).
    split.
    { pose proof (t_count _ _ _ _ Hok). apply (inv_enter hs' s1 L1 me p b1 o1 l I2); try done; [unfold hs'; rewrite lookup_insert_eq; eauto | lia]. }
    rewrite M. split_and!; try done; [change (process b1 = process b); by rewrite Eb1' | intros t Nt; rewrite my_entered, decide_False by done; by apply O1 |].
    apply (settled_trans hs s hs s1); [done |].
    by apply (settled_started hs s1 L1 me p b1 o1).
Qed.
End create.
