(* ===== verification/ThreadsSystem.v ===== *)
(** * ThreadsSystem: host threads that come, work and go

    [step] lets any host thread make the next call at any time, and drivers take and give
    up references, of which [held] keeps the history; [inv] and [accounted] hold of every
    state that is reached. *)

From stdpp Require Import relations.
From S2P Require Import Prelude Strings Objects ObjectsSpec Threads ThreadsInv ThreadsSpec.
From S2P Require Detours DetoursInv DetoursSpec HandleSpec.

Section system.
Context `{Environment} `{Locale} `{Detours.DETOURS} `{!DetoursInv.DETOURS_Laws} `{HOST_THREADS}.

Implicit Types s : state.

(** ** What drivers do with threads *)

Lemma assert_irql_run s (m : K unit) : placed s -> CurrentIrql (kern s) = PASSIVE_LEVEL -> m = at_passive \/ m = at_dispatch ->
  m (kern s) = Ok (tt, kern s).
Proof. intros Hp Hi [-> | ->]; unfold at_passive, at_dispatch, assert_irql, KeGetCurrentIrql, mbind, M_bind; by rewrite Hi. Qed.

Lemma thread_reference_run hs s L p o : inv hs s L -> objects (kern s) !! p = Some o -> type o = ThreadType ->
  refcount o + 1 < 2 ^ 31 -> 0 < client hs s p \/ p ∈ L ->
  on_kern (ObReferenceObject p) s = Ok (0, put_obj p (with_count o (refcount o + 1)) s) /\
  inv hs (put_obj p (with_count o (refcount o + 1)) s) L.
Proof.
  intros I Eo Et Hr Hc. pose proof (i_objects _ _ _ I p o Eo Et) as Hok. pose proof (inv_placed _ _ _ I) as Hp.
  destruct (t_count _ _ _ _ Hok) as [Hr0 Hu]. pose proof (t_address _ _ _ _ Hok) as [Ha _].
  destruct (thread_pointer_run (kern s) p o Eo Et ltac:(lia) ltac:(lia)) as [P1 _]. split.
  - rewrite <- set_kern_put by done. apply kern_run. unfold ObReferenceObject, ObfReferenceObjectWithTag.
    rewrite (kbind _ _ _ _ _ P1). rewrite (kbind _ _ _ _ _ (assert_irql_run s _ Hp (i_irql _ _ _ I) (or_intror eq_refl))).
    rewrite (kbind _ _ _ _ _ (increment_run (kern s) p o Eo ltac:(lia))). done.
  - apply (inv_object hs hs s L p o); try done; try apply Hok.
    + by eapply stages_same.
    + cbn. lia.
    + intros t Ht. pose proof (i_fails _ _ _ I t p o Ht Eo) as E2. cbn.
      pose proof (tally_pos (creates p) hs t _ Ht eq_refl). pose proof (tally_pos (fails p) hs t _ Ht ltac:(done)).
      destruct Hc as [Hc | Hin]; [rewrite (client_thread hs s p o Eo Et) in Hc; unfold uses in *; lia |].
      apply (i_member _ _ _ I) in Hin as [Np [u Eu]]. pose proof (uses_tls hs s u (set_thread 0 (my u s)) p Np) as Ht'.
      unfold current_hit in Ht'. rewrite decide_True in Ht' by done. cbn [set_thread DdkCurrentThread] in Ht'.
      rewrite (decide_False (P := 0 = p)) in Ht' by done. unfold uses in *. cbn [tls set_tls] in Ht'. lia.
    + intros t. apply (i_starting _ _ _ I).
Qed.

Lemma dereference_run hs s L p o : inv hs s L -> objects (kern s) !! p = Some o -> type o = ThreadType -> 1 <= client hs s p ->
  on_kern (ObDereferenceObject p) s = Ok (0, drop_state p o s).
Proof.
  intros I Eo Et Hc. pose proof (i_objects _ _ _ I p o Eo Et) as Hok. pose proof (inv_placed _ _ _ I) as Hp.
  destruct (t_count _ _ _ _ Hok) as [Hr0 Hu]. pose proof (t_address _ _ _ _ Hok) as [Ha _].
  destruct (thread_pointer_run (kern s) p o Eo Et ltac:(lia) ltac:(lia)) as [P1 _].
  pose proof (drop_thread_at hs s p o s Hok eq_refl (i_names _ _ _ I) Hp Eo Et) as D.
  unfold on_kern in D |- *. destruct (DdkDereferenceObject p (kern s)) as [[[] k] |] eqn:E; [| done]. injection D as D. rewrite <- D.
  assert (ObDereferenceObject p (kern s) = Ok (0, k)) as ->; [| done].
  unfold ObDereferenceObject, ObfDereferenceObjectWithTag. rewrite (kbind _ _ _ _ _ P1).
  rewrite (kbind _ _ _ _ _ (assert_irql_run s _ Hp (i_irql _ _ _ I) (or_intror eq_refl))).
  unfold DdkDereferenceObject, dereference, mbind, M_bind in E |- *.
  destruct (InterlockedDecrement p (kern s)) as [[n k1] |]; [| done].
  destruct (Z.eqb_spec n 0); cbn [negb]; [| by injection E as <-]. destruct (DdkFreeObject free_depth p k1) as [[[] k2] |]; [| done]. by injection E as <-.
Qed.

(** A handle is closed like a pointer given up. *)
Lemma close_run hs s L p o : inv hs s L -> objects (kern s) !! p = Some o -> type o = ThreadType -> 1 <= client hs s p ->
  on_kern (ZwClose (ToHandle p)) s = Ok (STATUS_SUCCESS, drop_state p o s).
Proof.
  intros I Eo Et Hc. pose proof (i_objects _ _ _ I p o Eo Et) as Hok. pose proof (inv_placed _ _ _ I) as Hp.
  destruct (t_count _ _ _ _ Hok) as [Hr0 Hu]. pose proof (t_address _ _ _ _ Hok) as [Ha He].
  pose proof (dereference_run hs s L p o I Eo Et Hc) as D.
  unfold on_kern in D |- *. destruct (ObDereferenceObject p (kern s)) as [[r k] |] eqn:E; [| done]. injection D as -> D. rewrite <- D.
  assert (ZwClose (ToHandle p) (kern s) = Ok (STATUS_SUCCESS, k)) as ->; [| done].
  unfold ZwClose. rewrite (kbind _ _ (kern s) p (kern s)).
  2: { unfold FromHandle, ToHandle. cbv zeta. destruct (HandleSpec.clear_low_bit p Ha He) as [_ ->].
       rewrite (kbind _ _ (kern s) true (kern s)); [done |].
       unfold isHandleObject, isValidObject, type_at. rewrite Eo, Et. destruct (Z.eqb_spec p 0); [lia |]. cbn [negb andb Z.gtb Z.ltb Z.compare].
       rewrite (kbind _ _ (kern s) o (kern s)) by by apply object_at_run. rewrite Et. by replace (refcount o >? 0) with true by lia. }
  destruct (Z.eqb_spec p 0); [lia |]. rewrite (kbind _ _ _ _ _ (assert_irql_run s _ Hp (i_irql _ _ _ I) (or_introl eq_refl))).
  unfold ObfDereferenceObject. change ObfDereferenceObjectWithTag with ObDereferenceObject. by rewrite (kbind _ _ _ _ _ E).
Qed.
(** ** Priorities *)

Lemma thread_call hs s L p b {A} (k : Z -> T A) : inv hs s L -> bodies s !! p = Some b ->
  (q ← on_kern (FromPointer p); x ← GetThread q; k x) s = k p s.
Proof.
  intros I Eb. destruct (pointer_run hs s L p I ltac:(eauto)) as [_ P]. rewrite (tbind _ _ _ _ _ P).
  destruct (proj1 (i_bodies _ _ _ I p) ltac:(eauto)) as (o & Eo & Et).
  destruct (t_address _ _ _ _ (i_objects _ _ _ I p o Eo Et)) as [Ha _].
  unfold GetThread. destruct (Z.eqb_spec p 0); [lia |].
  rewrite (tbind _ _ s p s); [done |]. rewrite (tbind _ _ s o s (object_read s p o (inv_placed _ _ _ I) Eo)). by rewrite Et.
Qed.

Lemma passive_run hs s L : inv hs s L -> on_kern at_passive s = Ok (tt, s).
Proof.
  intros I. pose proof (inv_placed _ _ _ I) as Hp. apply on_kern_read; [done |].
  apply assert_irql_run; [done | apply (i_irql _ _ _ I) | by left].
Qed.

(** Within the range of priorities. *)
Definition clamp (v : Z) : Z := if v >? 31 then 31 else if v <? 0 then 0 else v.

Lemma priority_run hs s L p b v : inv hs s L -> bodies s !! p = Some b ->
  KeSetPriorityThread p v s = Ok (Priority b, set_bodies <[p := set_Priority (clamp v) b]> s) /\
  KeQueryPriorityThread p s = Ok (Priority b, s) /\ inv hs (set_bodies <[p := set_Priority (clamp v) b]> s) L.
Proof.
  intros I Eb. assert (KeQueryPriorityThread p s = Ok (Priority b, s)) as Q.
  { unfold KeQueryPriorityThread. rewrite (tbind _ _ _ _ _ (passive_run hs s L I)). rewrite (thread_call hs s L p b _ I Eb).
    by rewrite (tbind _ _ _ _ _ (body_at_run s p b Eb)). }
  split; [| split; [exact Q | by apply (inv_body hs s L p b)]].
  unfold KeSetPriorityThread. rewrite (tbind _ _ _ _ _ (passive_run hs s L I)), (tbind _ _ _ _ _ Q). cbv zeta.
  rewrite (thread_call hs s L p b _ I Eb).
  replace (if v <? 0 then 0 else if v >? 31 then 31 else v) with (clamp v) by (unfold clamp; repeat case_match; lia).
  by rewrite (tbind _ _ _ _ _ (change_body_run s p b _ Eb)).
Qed.

Lemma base_priority_run hs s L p b v n : inv hs s L -> bodies s !! p = Some b -> processes s !! process b = Some n ->
  KeSetBasePriorityThread p v s = Ok (BasePriority b - n, set_bodies <[p := set_BasePriority (clamp (s32 (n + v))) b]> s) /\
  inv hs (set_bodies <[p := set_BasePriority (clamp (s32 (n + v))) b]> s) L.
Proof.
  intros I Eb En. split; [| by apply (inv_body hs s L p b)].
  unfold KeSetBasePriorityThread. rewrite (tbind _ _ _ _ _ (passive_run hs s L I)), (thread_call hs s L p b _ I Eb).
  rewrite (tbind _ _ _ _ _ (body_at_run s p b Eb)). cbv zeta.
  rewrite (tbind (base_priority _) _ s n s) by (unfold base_priority; by rewrite En).
  fold (clamp (s32 (n + v))). rewrite (tbind _ _ _ _ _ (change_body_run s p b _ Eb)).
  set (s' := set_bodies _ s). rewrite (tbind _ _ s' _ s' (body_at_run s' p _ (lookup_insert_eq _ _ _))).
  by rewrite (tbind (base_priority _) _ s' n s') by (unfold base_priority; cbn; by rewrite En).
Qed.

(** ** The system *)

(** What the host threads are doing, the references that drivers hold, and the state.
    [held] is only changed by the calls that hand a reference to a driver or take
    one back: nothing is read from the counts of the objects. *)
Definition config : Type := gmap Z stage * (Z -> Z) * state.

Definition hold (p n : Z) (held : Z -> Z) (q : Z) : Z := held q + (if decide (p = q) then n else 0).

Inductive step : config -> config -> Prop :=
  | step_host hs held s n : hs !! n = None -> step (hs, held, s) (<[n := Running]> hs, held, s)
  | step_init hs held s me calloc dup s' :
      is_Some (hs !! me) -> init_given me (calloc, dup) s -> DdkThreadInit me calloc dup s = Ok (tt, s') ->
      step (hs, held, s) (hs, held, s')
  | step_create hs held s me init calloc ph start ctx p s' n hnd :
      hs !! me = Some Running -> init_given me init s -> (forall q, calloc = Some q -> fresh s q /\ init.1 <> Some q) ->
      create_begin me init calloc ph start ctx s = Ok (Some p, s') ->
      hs !! n = None -> (hnd <> 0 -> hnd <> GetCurrentProcess) ->
      step (hs, held, s) (created me n p hnd hs, held, s')
  | step_no_memory hs held s me init ph start ctx s' :
      hs !! me = Some Running -> init_given me init s ->
      create_begin me init None ph start ctx s = Ok (None, s') -> step (hs, held, s) (hs, held, s')
  | step_created hs held s me p hnd r s' :
      hs !! me = Some (Creating p hnd) -> create_end p hnd s = Ok (r, s') ->
      step (hs, held, s) (<[me := Running]> hs, (if r.1 =? STATUS_SUCCESS then hold p 1 held else held), s')
  | step_start hs held s me p r s' :
      hs !! me = Some (Starting p) -> StartThread me p s = Ok (r, s') -> step (hs, held, s) (<[me := Running]> hs, held, s')
  | step_deinit hs held s me s' :
      hs !! me = Some Running -> DdkThreadDeinit me s = Ok (tt, s') -> step (hs, held, s) (hs, held, s')
  | step_exit hs held s me s' :
      hs !! me = Some Running -> DdkThreadDeinit me s = Ok (tt, s') -> step (hs, held, s) (delete me hs, held, set_tls (delete me) s')
  | step_reference hs held s p o r s' :
      bodies s !! p <> None -> objects (kern s) !! p = Some o -> refcount o + 1 < 2 ^ 31 ->
      0 < held p \/ (exists t, DdkCurrentThread (my t s) = p) ->
      on_kern (ObReferenceObject p) s = Ok (r, s') -> step (hs, held, s) (hs, hold p 1 held, s')
  | step_dereference hs held s p r s' :
      1 <= held p -> on_kern (ObDereferenceObject p) s = Ok (r, s') -> step (hs, held, s) (hs, hold p (-1) held, s')
  | step_close hs held s p r s' :
      1 <= held p -> on_kern (ZwClose (ToHandle p)) s = Ok (r, s') -> step (hs, held, s) (hs, hold p (-1) held, s')
  | step_priority hs held s p v r s' :
      bodies s !! p <> None -> KeSetPriorityThread p v s = Ok (r, s') -> step (hs, held, s) (hs, held, s')
  | step_base_priority hs held s p v r s' :
      bodies s !! p <> None -> KeSetBasePriorityThread p v s = Ok (r, s') -> step (hs, held, s) (hs, held, s').

(** Before the first call, the process object is zero. *)
Record initial s : Prop := {
  n_bodies : bodies s = ∅;
  n_list : threadlist s = 0;
  n_tls : tls s = ∅;
  n_free : Locked s = false;
  n_irql : CurrentIrql (kern s) = PASSIVE_LEVEL;
  n_objects : forall p o, objects (kern s) !! p = Some o -> type o <> ThreadType /\ type o <> ProcessType;
  n_system : is_Some (objects (kern s) !! SystemProcess) /\ SystemProcess <> 0;
  n_names : NoDup (addr <$> DdkNameList (kern s));
  n_named : forall e, e ∈ DdkNameList (kern s) -> is_Some (objects (kern s) !! Object e);
  n_detours : exists A, DetoursSpec.rep (detours s) A
}.

Lemma inv_initial s : initial s -> inv ∅ s [].
Proof.
  intros []. assert (forall t, my t s = no_tls) as Hmy by (intros t; unfold my; by rewrite n_tls0).
  assert (forall p, uses ∅ s p = 0) as Hu by (intros p; unfold uses; rewrite n_tls0; done).
  split; rewrite ?n_bodies0, ?n_list0; try done.
  - intros p. split; [by intros ?%not_elem_of_nil |]. intros [Np [t Et]]. rewrite Hmy in Et. done.
  - intros p. split; [by intros [] |]. intros (o & Eo & Et). by destruct (n_objects0 p o Eo).
  - intros p o Eo Et. by destruct (n_objects0 p o Eo).
  - intros p Np Hp. rewrite Hu in Hp. lia.
  - destruct n_system0 as [[o Eo] _]. exists o. split; [done |]. by apply (n_objects0 SystemProcess).
  - by intros p [].
  - intros p o Eo Et. by destruct (n_objects0 p o Eo).
  - intros t. rewrite n_tls0. by intros [].
  - split; [done | apply n_system0].
Qed.
Lemma thread_object hs s L p : inv hs s L -> bodies s !! p <> None -> exists o, objects (kern s) !! p = Some o /\ type o = ThreadType.
Proof. intros I Hb. by apply (i_bodies _ _ _ I), not_eq_None_Some. Qed.

(** A creation that has come so far: what the process is, and the state before the object. *)
Lemma begin_inv hs s L me init calloc ph start ctx r s' : inv hs s L -> is_Some (hs !! me) -> init_given me init s ->
  create_begin me init calloc ph start ctx s = Ok (r, s') ->
  exists s1 L1 q, DdkThreadInit me init.1 init.2 s = Ok (tt, s1) /\ inv hs s1 L1 /\ init_frame me s s1 /\
    is_Some (processes s1 !! q) /\ q <> 0 /\
    (DdkCurrentThread (my me s1) = DdkCurrentThread (my me s) /\ DdkCurrentThread (my me s) <> 0 \/ init.1 = Some (DdkCurrentThread (my me s1))) /\
    settled hs s hs s1 /\ (r, s') = match calloc with None => (None, s1) | Some p => (Some p, add_thread p new_object (new_body q start ctx) s1) end.
Proof.
  intros I Hm G E. destruct (init_run hs s L me init I Hm G) as (s1 & L1 & R1 & I1 & F1 & W1 & S1).
  pose proof (inv_placed _ _ _ I1) as Hp1.
  destruct (the_process ph s1) as [[q s2] |] eqn:Eq.
  - destruct (the_process_inv hs s1 L1 ph q s2 I1 (if_ready _ _ _ F1) Eq) as (-> & Hq & Nq).
    exists s1, L1, q. rewrite (create_begin_eq me init calloc ph start ctx s s1 q R1 (i_irql _ _ _ I1) Hp1 Eq) in E.
    split_and!; try done. destruct calloc; by injection E as <- <-.
  - unfold create_begin in E. rewrite (tbind _ _ _ _ _ R1), (tbind _ _ _ _ _ (passive_run hs s1 L1 I1)) in E.
    fold (the_process ph) in E. unfold mbind, M_bind in E. by rewrite Eq in E.
Qed.

(** What drivers hold is what the objects count beyond their uses. *)
Definition accounted hs (held : Z -> Z) s : Prop := held 0 = 0 /\ forall q, q <> 0 -> held q = client hs s q.

Lemma accounted_settled hs held s hs' s' : settled hs s hs' s' -> accounted hs held s -> accounted hs' held s'.
Proof. intros S [Hz A]. split; [done |]. intros q Nq. by rewrite S, A. Qed.

Lemma accounted_hold hs held s hs' s' p n : p <> 0 ->
  (forall q, q <> 0 -> client hs' s' q = client hs s q + (if decide (p = q) then n else 0)) ->
  accounted hs held s -> accounted hs' (hold p n held) s'.
Proof.
  intros Np C [Hz A]. unfold hold. split; [rewrite decide_False by done; lia |]. intros q Nq. by rewrite C, A.
Qed.

(** A thread that somebody holds exists. *)
Lemma held_thread hs held s L p : inv hs s L -> accounted hs held s -> 1 <= held p ->
  p <> 0 /\ 1 <= client hs s p /\ exists o, objects (kern s) !! p = Some o /\ type o = ThreadType.
Proof.
  intros I [Hz A] Hp. assert (p <> 0) as Np by (intros ->; lia). rewrite (A p Np) in Hp. split; [done |]. split; [done |].
  unfold client in Hp. destruct (objects (kern s) !! p) as [o |]; [| lia]. destruct (Z.eqb_spec (type o) ThreadType); [eauto | lia].
Qed.

Lemma deinit_any_run hs s L me s' : inv hs s L -> is_Some (hs !! me) -> DdkThreadDeinit me s = Ok (tt, s') ->
  exists L', inv hs s' L' /\ settled hs s hs s' /\ DdkCurrentThread (my me s') = 0.
Proof. intros I Hm R. destruct (deinit_any hs s L me I Hm) as (s1 & L1 & E & I1 & C1 & _ & S & _). rewrite R in E. injection E as ->. eauto. Qed.

(** A host thread that goes, or comes, has no thread object. *)
Lemma settled_exit hs s me : hs !! me = Some Running -> DdkCurrentThread (my me s) = 0 ->
  settled hs s (delete me hs) (set_tls (delete me) s).
Proof. intros Hm Hc q Nq. apply client_same; [done | by apply uses_exit]. Qed.

Lemma settled_host hs s n : hs !! n = None -> settled hs s (<[n := Running]> hs) s.
Proof. intros Hn q _. apply client_same; [done | by apply uses_host]. Qed.

(** A creation keeps the invariant and hands no reference out yet. *)
Lemma create_step hs s L me init calloc ph start ctx p s' n hnd : inv hs s L -> hs !! me = Some Running -> init_given me init s ->
  (forall q, calloc = Some q -> fresh s q /\ init.1 <> Some q) -> create_begin me init calloc ph start ctx s = Ok (Some p, s') ->
  hs !! n = None -> (hnd <> 0 -> hnd <> GetCurrentProcess) ->
  exists L', inv (created me n p hnd hs) s' L' /\ settled hs s (created me n p hnd hs) s'.
Proof.
  intros I Hm G Hf R Hn Hh.
  destruct (begin_inv hs s L me init calloc ph start ctx _ _ I ltac:(eauto) G R) as (s1 & L1 & q & R1 & I1 & F1 & Hq & Nq & W & S1 & E).
  destruct calloc as [p' |]; [| done]. injection E as <- ->. destruct (Hf p eq_refl) as [(Fp & Ha) Ni].
  assert (fresh s1 p) as Fp1.
  { split; [| done]. apply (if_new _ _ _ F1); [| done]. intros ->. destruct W as [[Ec Nc] | Ec]; [| done]. rewrite Ec in Fp.
    pose proof (uses_current hs s me _ Nc eq_refl) as Hu. destruct (thread_of hs s L _ I Nc ltac:(lia)) as (o & Eo & _). congruence. }
  exists L1. split; [apply inv_created; try done; apply F1 |].
  apply (settled_trans _ _ _ _ _ _ S1). by apply (settled_created hs s1 L1).
Qed.

(** What is given up was held. *)
Lemma drop_step hs held s L p o : inv hs s L -> accounted hs held s -> objects (kern s) !! p = Some o -> type o = ThreadType ->
  1 <= held p -> inv hs (drop_state p o s) L /\ accounted hs (hold p (-1) held) (drop_state p o s).
Proof.
  intros I A Eo Et Hp. destruct (held_thread hs held s L p I A Hp) as (Np & Hc & _).
  destruct (inv_drop hs s L p o I Eo Et Hc) as (I' & C & _). split; [done |].
  apply (accounted_hold hs held s); try done. intros q Nq. rewrite C. case_decide; lia.
Qed.

Lemma reference_step hs held s L p o : inv hs s L -> accounted hs held s -> objects (kern s) !! p = Some o -> type o = ThreadType ->
  refcount o + 1 < 2 ^ 31 -> 0 < held p \/ (exists t, DdkCurrentThread (my t s) = p) -> p <> 0 ->
  on_kern (ObReferenceObject p) s = Ok (0, put_obj p (with_count o (refcount o + 1)) s) /\
  inv hs (put_obj p (with_count o (refcount o + 1)) s) L /\
  accounted hs (hold p 1 held) (put_obj p (with_count o (refcount o + 1)) s).
Proof.
  intros I A Eo Et Hr Hc Np. destruct (thread_reference_run hs s L p o I Eo Et Hr) as [E I'].
  { destruct Hc as [Hc | Hc]; [left | right; by apply (i_member _ _ _ I)]. rewrite <- (proj2 A p Np). lia. }
  split; [done |]. split; [done |]. apply (accounted_hold hs held s); try done. intros q Nq. case_decide as Hq.
  - subst q. rewrite (client_thread hs s p o Eo Et), (client_thread _ _ p (with_count o (refcount o + 1))) by (done || apply lookup_insert_eq).
    change (uses hs (put_obj p (with_count o (refcount o + 1)) s) p) with (uses hs s p). cbn. lia.
  - rewrite Z.add_0_r. apply client_same; [by apply lookup_insert_ne | done].
Qed.

(** The creator gets its handle, or the object is gone. *)
Lemma created_step hs held s L me p hnd r s' : inv hs s L -> accounted hs held s -> hs !! me = Some (Creating p hnd) ->
  create_end p hnd s = Ok (r, s') ->
  inv (<[me := Running]> hs) s' L /\ accounted (<[me := Running]> hs) (if r.1 =? STATUS_SUCCESS then hold p 1 held else held) s'.
Proof.
  intros I A Hm R. destruct (Z.eq_dec hnd 0) as [-> | Nh].
  - destruct (create_end_failed hs s L me p I Hm) as (E & I' & S). rewrite R in E. injection E as -> ->. split; [done |].
    by apply (accounted_settled hs held s).
  - destruct (create_end_run hs s L me p hnd I Hm Nh) as (o & _ & E & I' & C). rewrite R in E. injection E as -> ->. split; [done |].
    apply (accounted_hold hs held s); [apply (i_handles _ _ _ I me p hnd Hm) | done | done].
Qed.

Lemma start_step hs s L me p r s' : inv hs s L -> hs !! me = Some (Starting p) -> StartThread me p s = Ok (r, s') ->
  exists L', inv (<[me := Running]> hs) s' L' /\ settled hs s (<[me := Running]> hs) s'.
Proof.
  intros I Hm R. destruct (thread_of hs s L p I (i_starts _ _ _ I me p Hm)) as (o & Eo & Et & _).
  { pose proof (tally_pos (starts p) hs me _ Hm eq_refl). unfold uses. lia. }
  destruct (Z.eq_dec (h o) 0) as [Zh | Nh].
  - unfold StartThread in R. rewrite (tbind _ _ s o s (object_read s p o (inv_placed _ _ _ I) Eo)), Zh in R. done.
  - destruct (start_thread_run hs s L me p o I Hm Eo Nh) as (s1 & L1 & b & _ & E & I1 & _ & _ & _ & _ & S). rewrite R in E. injection E as _ ->. eauto.
Qed.

Lemma settled_body hs s p b : settled hs s hs (set_bodies <[p := b]> s).
Proof. intros q _. by apply client_same. Qed.

Lemma thread_step_inv hs held s hs' held' s' L : step (hs, held, s) (hs', held', s') -> inv hs s L -> accounted hs held s ->
  exists L', inv hs' s' L' /\ accounted hs' held' s'.
Proof.
  intros St I A. pose proof (fun hs' s' S => accounted_settled hs held s hs' s' S A) as AS.
  inversion St as [? ? ? n Hn | ? ? ? me calloc dup ? Hm G R | ? ? ? me init calloc ph start ctx p ? n hnd Hm G Hf R Hn Hh
    | ? ? ? me init ph start ctx ? Hm G R | ? ? ? me p hnd r ? Hm R | ? ? ? me p r ? Hm R | ? ? ? me ? Hm R | ? ? ? me ? Hm R
    | ? ? ? p o r ? Hb Eo Hr Hc R | ? ? ? p r ? Hc R | ? ? ? p r ? Hc R | ? ? ? p v r ? Hb R | ? ? ? p v r ? Hb R]; subst.
  - exists L. split; [by apply inv_host | by apply AS, settled_host].
  - destruct (init_run hs' s L me (calloc, dup) I Hm G) as (s1 & L1 & R1 & I1 & _ & _ & S). cbn in R1. rewrite R in R1. injection R1 as <-. eauto.
  - destruct (create_step hs s L me init calloc ph start ctx p s' n hnd I Hm G Hf R Hn Hh) as (L1 & I1 & S). eauto.
  - destruct (begin_inv hs' s L me init None ph start ctx _ _ I ltac:(eauto) G R) as (s1 & L1 & q & R1 & I1 & F1 & Hq & Nq & W & S & E).
    injection E as ->. eauto.
  - exists L. by apply (created_step hs held s L me p hnd r).
  - destruct (start_step hs s L me p r s' I Hm R) as (L1 & I1 & S). eauto.
  - destruct (deinit_any_run hs' s L me s' I ltac:(eauto) R) as (L1 & I1 & S & _). eauto.
  - destruct (deinit_any_run hs s L me s'0 I ltac:(eauto) R) as (L1 & I1 & S & C1). exists L1.
    split; [by apply inv_exit |]. apply AS. apply (settled_trans _ _ _ _ _ _ S). by apply settled_exit.
  - exists L. destruct (thread_object hs' s L p I Hb) as (o' & Eo' & Et). assert (o' = o) as -> by congruence.
    assert (p <> 0) as Np by (intros ->; by apply Hb, (i_zero _ _ _ I)).
    destruct (reference_step hs' held s L p o I A Eo Et Hr Hc Np) as (E & I' & A'). rewrite R in E. by injection E as _ ->.
  - exists L. destruct (held_thread hs' held s L p I A Hc) as (Np & Hc' & o & Eo & Et).
    rewrite (dereference_run hs' s L p o I Eo Et Hc') in R. injection R as _ <-. by apply drop_step.
  - exists L. destruct (held_thread hs' held s L p I A Hc) as (Np & Hc' & o & Eo & Et).
    rewrite (close_run hs' s L p o I Eo Et Hc') in R. injection R as _ <-. by apply drop_step.
  - exists L. apply not_eq_None_Some in Hb as [b Eb]. destruct (priority_run hs' s L p b v I Eb) as (E & _ & I').
    rewrite R in E. injection E as _ ->. split; [done | apply AS, settled_body].
  - exists L. apply not_eq_None_Some in Hb as [b Eb]. destruct (i_process _ _ _ I p b Eb) as [[n En] _].
    destruct (base_priority_run hs' s L p b v n I Eb En) as (E & I'). rewrite R in E. injection E as _ ->. split; [done | apply AS, settled_body].
Qed.

(** At first there is no host thread, and drivers hold nothing. *)
Definition reachable s0 : config -> Prop := rtc step (∅, fun _ => 0, s0).

Lemma threads_inv s0 hs held s : initial s0 -> reachable s0 (hs, held, s) -> exists L, inv hs s L /\ accounted hs held s.
Proof.
  intros Hi Hr. unfold reachable in Hr. remember (∅, fun _ => 0, s0) as c eqn:Ec. remember (hs, held, s) as c' eqn:Ec'.
  assert (exists L, inv c.1.1 c.2 L /\ accounted c.1.1 c.1.2 c.2) as [L [I A]].
  { rewrite Ec. exists []. split; [by apply inv_initial |]. split; [done |]. intros q Nq. cbn. unfold client.
    destruct (objects (kern s0) !! q) as [o |] eqn:Eo; [| done]. destruct (n_objects _ Hi q o Eo) as [Nt _].
    by destruct (Z.eqb_spec (type o) ThreadType). }
  assert (exists L, inv c'.1.1 c'.2 L /\ accounted c'.1.1 c'.1.2 c'.2) as Hx; [| by rewrite Ec' in Hx].
  clear Ec Ec' Hi. revert L I A. induction Hr as [c | [[h1 d1] s1] [[h2 d2] s2] c Hs _ IH]; intros L I A; [eauto |].
  destruct (thread_step_inv h1 d1 s1 h2 d2 s2 L Hs I A) as (L' & I' & A'). by apply (IH L').
Qed.

(** C5. However host threads come and go, make system threads and take references: the
    list is linked, it holds the current thread of each host thread that has one and no
    other, no two host threads share one, and every thread object that exists has been
    allocated, is alive and has exactly as many references as there are uses of it by host
    threads ([uses]) and references that drivers have been handed and have not given back
    ([held], a history of the calls made); what drivers hold exists. *)
Theorem threads_sound s0 hs held s (Hi : initial s0) (Hr : reachable s0 (hs, held, s)) :
  exists L, lseg next (bodies s) (threadlist s) L /\
    (forall p, p ∈ L <-> p <> 0 /\ exists t, is_Some (hs !! t) /\ DdkCurrentThread (my t s) = p) /\
    (forall t u, DdkCurrentThread (my t s) <> 0 -> DdkCurrentThread (my t s) = DdkCurrentThread (my u s) -> t = u) /\
    (forall p o, objects (kern s) !! p = Some o -> type o = ThreadType ->
       alloc o = true /\ 0 < refcount o /\ refcount o = uses hs s p + held p) /\
    (forall p, 0 <= held p /\ (0 < held p -> exists o, objects (kern s) !! p = Some o /\ type o = ThreadType)).
Proof.
  destruct (threads_inv s0 hs held s Hi Hr) as (L & I & A). exists L. split; [apply I |]. split; [| split; [| split]].
  - intros p. rewrite (i_member _ _ _ I). split; intros [Np [t Ht]]; (split; [done |]); [| naive_solver].
    exists t. split; [| done]. apply (i_tls _ _ _ I). unfold my in Ht. destruct (tls s !! t); [eauto | by subst].
  - intros t u Nt E. by apply (current_unique hs s L t u I).
  - intros p o Eo Et. destruct (i_objects _ _ _ I p o Eo Et). rewrite (proj2 A p) by lia. rewrite (client_thread hs s p o Eo Et).
    split; [done |]. lia.
  - intros p. split; [| intros Hp; destruct (held_thread hs held s L p I A ltac:(lia)) as (_ & _ & Ho); exact Ho].
    destruct (Z.eq_dec p 0) as [-> | Np]; [by rewrite (proj1 A) |]. rewrite (proj2 A p Np). unfold client.
    destruct (objects (kern s) !! p) as [o |] eqn:Eo; [| done]. destruct (Z.eqb_spec (type o) ThreadType) as [Et |]; [| done].
    destruct (i_objects _ _ _ I p o Eo Et). lia.
Qed.

(** C19. Once its creator has stored the handle, a system thread that has been made gets to
    its routine, with the context it was made with, whatever has happened meanwhile: it is the
    current thread of its host thread, where the inline routines find it too, and in the list. *)
Theorem StartThread_starts s0 hs held s me p (Hi : initial s0) (Hr : reachable s0 (hs, held, s)) (Hm : hs !! me = Some (Starting p))
  (Hc : forall t hnd, hs !! t <> Some (Creating p hnd)) :
  exists s' L b, bodies s !! p = Some b /\ StartThread me p s = Ok ((Start b, Context b), s') /\
    DdkCurrentThread (my me s') = p /\ DdkCurrentProcess (my me s') = process b /\ SoftFpcr (my me s') = p /\
    (forall t, t <> me -> my t s' = my t s) /\ lseg next (bodies s') (threadlist s') L /\ p ∈ L.
Proof.
  destruct (threads_inv s0 hs held s Hi Hr) as (L & I & A).
  destruct (thread_of hs s L p I (i_starts _ _ _ I me p Hm)) as (o & Eo & Et & Hok).
  { pose proof (tally_pos (starts p) hs me _ Hm eq_refl). unfold uses. lia. }
  assert (h o <> 0) as Nh.
  { intros Zh. destruct (t_handle _ _ _ _ Hok) as [_ Hh]. destruct (tally_inv _ _ (Hh Zh)) as (t & [| q hnd |] & Et' & Hp); try done.
    cbn in Hp. subst q. by apply (Hc t hnd). }
  destruct (start_thread_run hs s L me p o I Hm Eo Nh) as (s' & L' & b & Eb & R & I' & C & P & F & O & _).
  exists s', L', b. split_and!; try done; [apply I' |]. apply (i_member _ _ _ I'). split; [apply (i_starts _ _ _ I me p Hm) | by exists me].
Qed.

(** C18. The end of a thread: the intercepts that were for it are taken off and the others
    stay, it leaves the list, which keeps its order, no host thread loses its own current thread,
    and its object is freed if no driver holds it and nobody else uses it, and only then. *)
Theorem DdkThreadDeinit_spec s0 hs held s me p D (Hi : initial s0) (Hr : reachable s0 (hs, held, s)) (Hm : hs !! me = Some Running)
  (Hc : DdkCurrentThread (my me s) = p) (Np : p <> 0) (HA : DetoursSpec.rep (detours s) D) :
  exists s' pre post, DdkThreadDeinit me s = Ok (tt, s') /\
    lseg next (bodies s) (threadlist s) (pre ++ p :: post) /\ lseg next (bodies s') (threadlist s') (pre ++ post) /\
    DetoursSpec.rep (detours s') (others p D) /\
    DdkCurrentThread (my me s') = 0 /\ (forall t, t <> me -> my t s' = my t s) /\
    (forall q, q <> p -> objects (kern s') !! q = objects (kern s) !! q) /\
    (objects (kern s') !! p = None <-> held p = 0 /\ uses hs s p = 1).
Proof.
  destruct (threads_inv s0 hs held s Hi Hr) as (L & I & A).
  destruct (deinit_run hs s L me p D I ltac:(eauto) Hc Np HA) as (s' & pre & post & R & EL & I' & M & O & HD & _ & Ob & _ & F).
  exists s', pre, post. split_and!; try done; [rewrite <- EL; apply I | apply I' | by rewrite M | by rewrite (proj2 A p Np)].
Qed.

(** ** The threads that detours are told about *)

(** [DetourUpdateThread]. *)
Definition update (hnd : Z) : T Z := fun s =>
  let '(rc, l) := Detours.DetourUpdateThread hnd (Detours.library (detours s)) in
  Ok (rc, set_detours (Detours.set_library l (detours s)) s).

Lemma each_update hs : forall s, exists rc d, Detours.invoke_loop hs (detours s) = Ok (rc, d) /\ each update hs s = Ok (rc, set_detours d s).
Proof.
  induction hs as [| x hs IH]; intros s; cbn [each Detours.invoke_loop].
  - exists Detours.NO_ERROR, (detours s). split; [done |]. by destruct s.
  - destruct (Detours.DetourUpdateThread x (Detours.library (detours s))) as [rc l] eqn:ED.
    assert (update x s = Ok (rc, set_detours (Detours.set_library l (detours s)) s)) as U by (unfold update; by rewrite ED).
    unfold Detours.call, mbind, M_bind. rewrite U, ED.
    destruct (negb (rc =? Detours.NO_ERROR)); [by exists rc, (Detours.set_library l (detours s)) |].
    destruct (IH (set_detours (Detours.set_library l (detours s)) s)) as (rc' & d & E1 & E2). exists rc', d. by rewrite E2.
Qed.

Lemma invoke_loop_threads hs l : forall d rc d', Detours.invoke_loop hs d = Ok (rc, d') -> Detours.invoke_loop hs (set_threads l d) = Ok (rc, set_threads l d').
Proof.
  induction hs as [| x hs IH]; intros d rc d'; cbn [Detours.invoke_loop].
  - intros E. by injection E as <- <-.
  - unfold Detours.call, mbind, M_bind. change (Detours.library (set_threads l d)) with (Detours.library d).
    destruct (Detours.DetourUpdateThread x (Detours.library d)) as [rc1 lb]. destruct (negb (rc1 =? Detours.NO_ERROR)).
    + intros E. by injection E as <- <-.
    + intros E. by apply (IH (Detours.set_library lb d)).
Qed.

(** C32. The walk over the linked list tells the library about the same threads, by the same
    handles and with the same result, as the model of detours.cpp does with the list of handles it is given. *)
Theorem DdkInvokeForAllThreads_equivalent s0 hs held s me (Hi : initial s0) (Hr : reachable s0 (hs, held, s)) :
  exists l rc d, Detours.DdkInvokeForAllThreads (set_threads l (detours s)) = Ok (rc, set_threads l d) /\
    DdkInvokeForAllThreads me update s = Ok (rc, set_detours d s) /\
    (forall hnd, hnd ∈ l <-> exists t, DdkCurrentThread (my t s) <> 0 /\
       hnd = handle_of (DdkCurrentThread (my me s)) s (DdkCurrentThread (my t s))).
Proof.
  destruct (threads_inv s0 hs held s Hi Hr) as (L & I & A). set (l := handle_of (DdkCurrentThread (my me s)) s <$> L).
  destruct (each_update l s) as (rc & d & E1 & E2). exists l, rc, d.
  pose proof (i_list _ _ _ I) as Ls. split; [| split].
  - unfold Detours.DdkInvokeForAllThreads. cbn. by apply invoke_loop_threads.
  - unfold DdkInvokeForAllThreads. rewrite (tbind _ _ _ _ _ (my_thread_run me s)).
    rewrite (tbind list_fuel _ s (S (size (bodies s))) s) by done. rewrite (tbind get _ s s s) by done.
    rewrite (invoke_run update (DdkCurrentThread (my me s)) L); [exact E2 | | by eapply inv_placed | done | pose proof (lseg_size _ _ _ _ Ls); lia].
    intros hnd s1 rc1 s1'. unfold update. destruct (Detours.DetourUpdateThread hnd _). intros E. by injection E as _ <-.
  - intros hnd. unfold l. rewrite list_elem_of_fmap. split.
    + intros (p & -> & Hp). apply (i_member _ _ _ I) in Hp as [Np [t Et]]. exists t. by rewrite Et.
    + intros (t & Nt & ->). eexists. split; [done |]. apply (i_member _ _ _ I). eauto.
Qed.

(** A base priority is set as an increment to that of the process, kept within the range of
    priorities, and each call returns the increment that was in force before it. *)
Theorem KeSetBasePriorityThread_increment s0 hs held s p b n v w (Hi : initial s0) (Hr : reachable s0 (hs, held, s))
  (Hb : bodies s !! p = Some b) (Hn : processes s !! process b = Some n) (Hv : - 2 ^ 31 <= n + v < 2 ^ 31) :
  exists s1 s2, KeSetBasePriorityThread p v s = Ok (BasePriority b - n, s1) /\
    KeSetBasePriorityThread p w s1 = Ok (Z.max (- n) (Z.min (31 - n) v), s2) /\ kern s2 = kern s.
Proof.
  destruct (threads_inv s0 hs held s Hi Hr) as (L & I & A).
  destruct (base_priority_run hs s L p b v n I Hb Hn) as [R1 I1]. rewrite s32_id in R1, I1 by done.
  set (s1 := set_bodies _ s) in *. set (b1 := set_BasePriority (clamp (n + v)) b) in *.
  assert (bodies s1 !! p = Some b1) as Eb1 by apply lookup_insert_eq.
  destruct (base_priority_run hs s1 L p b1 w n I1 Eb1 Hn) as [R2 _].
  exists s1, (set_bodies <[p := set_BasePriority (clamp (s32 (n + w))) b1]> s1). split; [done |]. split; [| done].
  rewrite R2. do 2 f_equal. cbn. unfold clamp. repeat case_match; lia.
Qed.
End system.
