(* ===== verification/ThreadsExamples.v ===== *)
(** * ThreadsExamples: a thread that makes another one, in a concrete environment

    The first host thread, 1, is given its thread object, makes a system thread and goes
    on; the new host thread, 2, starts.  A function has an intercept for all threads and
    one for the new thread. *)

From stdpp Require Import relations.
From S2P Require Import Prelude Strings Objects Threads ThreadsInv ThreadsSpec ThreadsSystem.
From S2P Require Detours DetoursInv DetoursSpec DetoursExamples ObjectsExamples.

#[local] Existing Instances ObjectsExamples.env ObjectsExamples.locale.
#[local] Existing Instances DetoursExamples.model_detours DetoursExamples.model_laws.
#[local] Instance host : HOST_THREADS := {| GetCurrentThread := 2 ^ 64 - 2; SystemProcess := 0x40 |}.

Definition the_thread : Z := 0x2000.

Definition intercepted : Detours.state :=
  DetoursExamples.after (Detours.DdkAttachIntercept 0x600 (0, 0) DetoursExamples.the_function 0xB0 3 4 the_thread DetoursExamples.one_intercept).

Definition hook_t : DetoursSpec.hook := DetoursSpec.mkHook 0xB0 3 4 the_thread.

Lemma rep_intercepted : DetoursSpec.rep intercepted
  (fun g => if g =? DetoursExamples.the_function then [hook_t; DetoursExamples.hook_a] else []).
Proof.
  eapply DetoursSpec.rep_ext; [| apply (DetoursExamples.attach_again DetoursExamples.one_intercept
    (fun g => if g =? DetoursExamples.the_function then [DetoursExamples.hook_a] else []) 0x600 (0, 0) DetoursExamples.the_function 0xB0 3 4 the_thread);
    [exact DetoursExamples.rep_one | by vm_compute | done | by vm_compute]].
  intros f _. simpl. by destruct (f =? DetoursExamples.the_function).
Qed.

Definition blank : OBJECT := mkObject 0 false 0 0 Plain.

Definition start : state :=
  mkState (mkKernel {[ 0x40 := blank ]} [] PASSIVE_LEVEL []) ∅ ∅ 0 0 false ∅ intercepted.

Lemma start_initial : initial start.
Proof.
  split; try done.
  - intros p o Eo. cbn in Eo. apply lookup_singleton_Some in Eo as [_ <-]. done.
  - constructor.
  - intros e He. by apply not_elem_of_nil in He.
  - eexists. exact rep_intercepted.
Qed.

Definition state_of {A} (r : result (A * state)) : state := match r with Ok (_, s) => s | Err _ => start end.

Definition known : state := state_of (DdkThreadInit 1 (Some 0x1000) (Some 0x10) start).
Definition begun : state := state_of (create_begin 1 (None, None) (Some the_thread) 0 0x7000 0x7100 known).
Definition made : state := state_of (create_end the_thread 0x20 begun).
Definition started : state := state_of (StartThread 2 the_thread made).

Definition hosts0 : gmap Z stage := <[1 := Running]> ∅.
Definition hosts1 : gmap Z stage := created 1 2 the_thread 0x20 hosts0.
Definition hosts2 : gmap Z stage := <[1 := Running]> hosts1.
Definition hosts3 : gmap Z stage := <[2 := Running]> hosts2.

Definition none (_ : Z) : Z := 0.
Definition handed : Z -> Z := hold the_thread 1 none.

Lemma reach_made : reachable start (hosts2, handed, made).
Proof.
  eapply rtc_l. { apply (step_host ∅ none start 1). reflexivity. }
  eapply rtc_l.
  { apply (step_init _ none start 1 (Some 0x1000) (Some 0x10) known); [eexists; reflexivity | | vm_compute; reflexivity].
    right. exists 0x1000, 0x10. repeat split; by vm_compute. }
  eapply rtc_l.
  { apply (step_create _ none known 1 (None, None) (Some the_thread) 0 0x7000 0x7100 the_thread begun 2 0x20).
    - vm_compute. reflexivity.
    - left. by vm_compute.
    - intros q Hq. injection Hq as <-. repeat split; by vm_compute.
    - vm_compute. reflexivity.
    - vm_compute. reflexivity.
    - intros _. by vm_compute. }
  eapply rtc_l.
  { apply (step_created _ none begun 1 the_thread 0x20 (STATUS_SUCCESS, Some (ToHandle the_thread)) made); [reflexivity | vm_compute; reflexivity]. }
  apply rtc_refl.
Qed.

Lemma reach_started : reachable start (hosts3, handed, started).
Proof.
  eapply rtc_r; [exact reach_made |].
  apply (step_start _ handed made 2 the_thread (0x7000, 0x7100) started); [reflexivity | vm_compute; reflexivity].
Qed.

(** Both threads are in the list and both objects alive; the driver holds the handle of one
    of them, which so has two references. *)
Lemma threads_sound_witness :
  uses hosts3 started the_thread = 1 /\ handed the_thread = 1 /\ handed 0x1000 = 0 /\
  exists L, lseg next (bodies started) (threadlist started) L /\
    (forall p, p ∈ L <-> p <> 0 /\ exists t, is_Some (hosts3 !! t) /\ DdkCurrentThread (my t started) = p) /\
    (forall t u, DdkCurrentThread (my t started) <> 0 -> DdkCurrentThread (my t started) = DdkCurrentThread (my u started) -> t = u) /\
    (forall p o, objects (kern started) !! p = Some o -> type o = ThreadType ->
       alloc o = true /\ 0 < refcount o /\ refcount o = uses hosts3 started p + handed p) /\
    (forall p, 0 <= handed p /\ (0 < handed p -> exists o, objects (kern started) !! p = Some o /\ type o = ThreadType)).
Proof.
  split; [vm_compute; reflexivity |]. split; [vm_compute; reflexivity |]. split; [vm_compute; reflexivity |].
  exact (threads_sound start hosts3 handed started start_initial reach_started).
Defined.

Lemma StartThread_starts_witness :
  exists s' L b, bodies made !! the_thread = Some b /\ StartThread 2 the_thread made = Ok ((Start b, Context b), s') /\
    DdkCurrentThread (my 2 s') = the_thread /\ DdkCurrentProcess (my 2 s') = process b /\ SoftFpcr (my 2 s') = the_thread /\
    (forall t, t <> 2 -> my t s' = my t made) /\ lseg next (bodies s') (threadlist s') L /\ the_thread ∈ L.
Proof.
  apply (StartThread_starts start hosts2 handed made 2 the_thread start_initial reach_made eq_refl).
  intros t hnd E. change hosts2 with (<[1 := Running]> (<[2 := Starting the_thread]> (<[1 := Creating the_thread 0x20]> (<[1 := Running]> (∅ : gmap Z stage))))) in E.
  apply lookup_insert_Some in E as [[_ E] | [N1 E]]; [discriminate E |].
  apply lookup_insert_Some in E as [[_ E] | [_ E]]; [discriminate E |].
  apply lookup_insert_Some in E as [[E _] | [_ E]]; [by apply N1 |].
  apply lookup_insert_Some in E as [[_ E] | [_ E]]; [discriminate E |]. discriminate E.
Defined.

(** The new thread ends while its handle is still open: the intercept for it is gone. *)
Lemma DdkThreadDeinit_spec_witness :
  exists s' pre post, DdkThreadDeinit 2 started = Ok (tt, s') /\
    lseg next (bodies started) (threadlist started) (pre ++ the_thread :: post) /\ lseg next (bodies s') (threadlist s') (pre ++ post) /\
    DetoursSpec.rep (detours s') (fun g => if g =? DetoursExamples.the_function then [DetoursExamples.hook_a] else []) /\
    DdkCurrentThread (my 2 s') = 0 /\ my 1 s' = my 1 started /\ objects (kern s') !! 0x1000 = objects (kern started) !! 0x1000.
Proof.
  destruct (DdkThreadDeinit_spec start hosts3 handed started 2 the_thread
    (fun g => if g =? DetoursExamples.the_function then [hook_t; DetoursExamples.hook_a] else []) start_initial reach_started)
    as (s' & pre & post & R & L & L' & D & C & O & Ob & _).
  - reflexivity.
  - vm_compute. reflexivity.
  - done.
  - assert (detours started = intercepted) as -> by (vm_compute; reflexivity). exact rep_intercepted.
  - exists s', pre, post. split; [exact R |]. split; [exact L |]. split; [exact L' |]. split.
    + eapply DetoursSpec.rep_ext; [| exact D]. intros f _. unfold others. by destruct (f =? DetoursExamples.the_function).
    + split; [exact C |]. split; [by apply O | by apply Ob].
Defined.

Lemma DdkInvokeForAllThreads_equivalent_witness :
  exists l rc d, Detours.DdkInvokeForAllThreads (set_threads l (detours started)) = Ok (rc, set_threads l d) /\
    DdkInvokeForAllThreads 2 update started = Ok (rc, set_detours d started) /\
    (forall hnd, hnd ∈ l <-> exists t, DdkCurrentThread (my t started) <> 0 /\
       hnd = handle_of (DdkCurrentThread (my 2 started)) started (DdkCurrentThread (my t started))).
Proof. exact (DdkInvokeForAllThreads_equivalent start hosts3 handed started 2 start_initial reach_started). Defined.

(** 40 is kept to 15 above the base priority of the process. *)
Lemma KeSetBasePriorityThread_increment_witness :
  exists s1 s2, KeSetBasePriorityThread the_thread 40 started = Ok (0, s1) /\
    KeSetBasePriorityThread the_thread (-3) s1 = Ok (15, s2) /\ kern s2 = kern started.
Proof.
  destruct (KeSetBasePriorityThread_increment start hosts3 handed started the_thread (default (mkThread 0 0 0 0 0 0 0) (bodies started !! the_thread)) 16 40 (-3)
    start_initial reach_started) as (s1 & s2 & R1 & R2 & K).
  - vm_compute. reflexivity.
  - vm_compute. reflexivity.
  - lia.
  - exists s1, s2. split; [| split; [exact R2 | exact K]]. rewrite R1. reflexivity.
Defined.
